(* ===== verification/_CoqProject ===== *)
-Q . S2P
Prelude.v
Dll.v
Concurrency.v
PageAlloc.v
PageService.v
Alloc.v
Paging.v
PagingSpec.v
PagingCopy.v
AddressSpace.v
Heap.v
HeapInv.v
HeapGrow.v
HeapSpec.v
KernelHeap.v
KernelStack.v
LinkedList.v
LinkedListSpec.v
CircularBuffer.v
Pit.v
Scheduler.v
SchedulerSpec.v
TaskSpec.v
Sleep.v
SleepSpec.v
CString.v
Interrupts.v
InterruptsSpec.v
LineDiscipline.v
Devices.v
DevicesSpec.v
Ring.v
Fifo.v
Tty.v
TtySpec.v
Crc.v
Md5.v
Hashmap.v
Ext2Block.v
Ext2Disk.v
Ext2Inode.v
Ext2Spec.v
Ext2File.v
Ext2FileSpec.v
Ext2Alloc.v
Ext2Dir.v
Ext2DirSpec.v
Ext2Fs.v
Ext2FsSpec.v
VfsFd.v
VfsFdSpec.v
Partition.v
Vfs.v
VfsStream.v
VfsSpec.v
Ext2Vfs.v
Ext2VfsSpec.v
Fat32.v
Fat32Spec.v
Context.v
TaskStack.v
TaskCreate.v
TaskCreateSpec.v
Loader.v
LoaderSegment.v
LoaderMmu.v
LoaderSpec.v
Net.v
NetBufs.v
NetStack.v
NetPacket.v
NetCache.v
NetSpec.v
