(* ===== verification/Prelude.v ===== *)
(** * bloodmoon: a verification development

    bloodmoon is a 64-bit kernel in C with a little assembly (src/src/).  This library models
    its memory management, its tasks and interrupts, its devices and terminals, its file
    systems, its loader and its network stack as executable definitions, and proves what they
    promise each other and the programs above them.

    ** How the program is modelled

    A C integer is a [Z] kept at its width by [u8] .. [u64] and [s8] .. [s64] at the places
    where the source truncates.  A routine is a function on the state it works on; its result
    is an [outcome]: it returns ([Done]), stops the kernel ([Panic]), touches memory that is
    not there ([Fault]), waits on a lock its own processor holds ([Spin]), or exceeds the
    fuel of a loop of the model ([OutOfFuel]).  Structures are records, linked structures are
    finite maps from addresses to records, bytes are maps from addresses to [Z], disks are
    functions from sectors to bytes.  "Returns or panics" ([returns_or_panics]) in a theorem
    excludes the other three outcomes.

    ** Parts and files

    Memory.  [PageAlloc]: the bitmap of page frames (memory/memory.c).  [Paging]: the page
    tables (memory/paging.c), with [PagingSpec] (mapping, protection, unmapping),
    [PagingCopy] (copies of a directory) and [AddressSpace] (several directories that share
    the upper half).  [Heap]: the heap and the stacks (memory/heap.c), with [HeapInv],
    [HeapGrow], [HeapSpec]; [KernelHeap] and [KernelStack]: the locked calls of the kernel's
    heaps.  [PageService] and [Alloc] are the interfaces between them: the heap is proved
    against any page service and the page tables are one; lists, tables and files are proved
    against any allocator and the kernel heaps are one.

    Tasks.  [Concurrency]: spinlocks and semaphores (sched/concurrency.c).  [Scheduler]: task
    list, scheduling, signals (sched/scheduler.c), with [SchedulerSpec] and [TaskSpec].
    [Pit]: the timer (sched/pit.c).  [Sleep]: the sleep queues (sched/sline.c), with
    [SleepSpec].  [Interrupts]: dispatch (io/interrupts.c, io/idt.c, the acknowledgement of
    devices/apic/apic.c), with [InterruptsSpec].  [Context]: the switch routine of
    arch/context.asm instruction by instruction.  [TaskStack], [TaskCreate] and
    [TaskCreateSpec]: the stack and the context a task starts with, creation and start-up.
    [Loader]: executables (proc/loader.c), with [LoaderSegment] (segments), [LoaderMmu] (the
    loader on the page tables) and [LoaderSpec].

    Data structures.  [Dll]: doubly linked lists in a store.  [LinkedList], [LinkedListSpec]
    and [CircularBuffer] (util/lists.c); [Hashmap] (util/hashmap.c); [CString]
    (util/string.c, util/ctype.c); [Crc] (net/crc.c); [Md5] (util/md5.c).

    Devices.  [Devices], [DevicesSpec]: registry and drivers (devices/devices.c).  [Ring],
    [Fifo]: queue devices (devices/fifo, drivers/fifo).  [LineDiscipline], [Tty], [TtySpec]:
    terminals (drivers/tty).

    Network.  [Net]: frames, ARP packets and textual addresses (net/eth.c, net/arp.c,
    inet_pton of devices/net/netstack.c); [NetStack]: interfaces, queues, ARP cache and
    worker (devices/net/netstack.c), with [NetBufs] (buffers), [NetPacket] (sending),
    [NetCache] (the cache as a map) and [NetSpec].

    Files.  [Ext2Block] and [Ext2Disk] (ext2_block.c and block groups), [Ext2Inode],
    [Ext2Spec], [Ext2File], [Ext2FileSpec] (ext2_inode.c), [Ext2Alloc] (bitmaps), [Ext2Dir],
    [Ext2DirSpec] (ext2_dentry.c, paths), [Ext2Fs], [Ext2FsSpec] (ext2.c, mounting).
    [VfsFd], [VfsFdSpec]: descriptor tables (vfs/generic/vfs_compat.c).  [Partition]: gpt and
    mbr.  [Vfs]: mounts and the calls of programs (vfs/vfs.c, vfs/vfs_interface.c);
    [VfsStream], [VfsSpec]: the terminal and queue file systems; [Ext2Vfs], [Ext2VfsSpec]:
    the ext2 driver (generic_ext2.h) under the virtual file system.  [Fat32], [Fat32Spec]:
    the FAT32 driver (vfs/generic/fat32).

    ** What the theorems show

    Memory: a client of the heap never holds overlapping blocks and never sees its contents
    change, double frees panic, stacks keep a guard page between them; a page frame is never
    handed out twice; mapping, protecting and unmapping act on exactly the pages they are
    given; a copied directory translates as the original; address spaces are isolated.

    Tasks: every runnable task gets the processor; sleepers are woken exactly when due;
    signals arrive in order; over any number of timer interrupts the system stays well
    formed; a switched task resumes with its machine state; a created task starts at its
    function.  A loaded program finds the bytes of its segments at their addresses, zeros
    behind them, and nothing of any other address space has changed.

    Data structures implement sequences, bounded queues and finite maps; the checksum and the
    digest agree with the definitions of the standards.

    Devices and files: what is created is found, what is written is read back; block
    allocation is exclusive; sessions of a program are followed from the call down to the
    disk or the queue, through descriptors, mounts, directories, block pointers, registry and
    driver.  A file of a FAT32 volume reads as the bytes of its chain of clusters.

    Network: a request for the address of an interface is answered with one frame, whose
    bytes are given; replies to it update a cache that is a finite map.

    ** Loops, fuel and bounds

    Counted loops are [for_up] and need no fuel.  Loops that walk a structure are [loop] with
    a fuel taken from it: the number of cells of the store they walk (lists, tables of tasks,
    of devices and of heap segments), the number of bytes of memory (strings), 17 for the
    alignment of a stack.  Theorems state that the routine returns, so the fuel is enough
    whenever the structure is well formed.  The heap's recursion after growing is bounded by
    three calls: two expansions always suffice (malloc_total).  Chains of clusters on a FAT32
    disk may be circular, so the searches through them take their fuel as an argument;
    seeking and reading need none.  Requests to the heap are below 2^32 bytes, file sizes and
    block numbers are those of 32-bit fields, physical addresses below 2^40 (the width of a
    page table entry's field).

    ** Interfaces

    Disk and device hardware, the boot loader's memory map, the contents of memory before it
    is written and the addresses of the linked image are parameters; what is assumed of them
    is stated as hypotheses or as the laws of a class ([PageServiceOk], [AllocatorOk],
    [TaskServicesOk], [LoaderEnvOk], [NetEnvOk], [DisksOk] and the classes of the devices and
    file systems), each with an instance.

    ** Not modelled

    Drivers of hardware (drivers/disk/ahci, drivers/net, drivers/ps2, drivers/serial),
    graphics (drivers/gui, devices/fb), firmware tables and processor start-up (devices/acpi,
    pci, smbios, fadt, cpus, arch except the context switch): they exchange values with
    devices, of which the sources say nothing.  Output (util/printf.c, debugger, dumps of
    structures): no state of the kernel depends on it.  The busy waits of the timer: they end
    by interrupts during the call, and calls are modelled as atomic between interrupts.  The
    translation cache of the processor.  The endless loop of the network worker
    (spawn_network_worker) around the modelled round.  Third-party code:
    vfs/generic/fat32exp, util/json.c, bootservices/limine.h, libs/mlibc, libtest. *)
From Stdlib Require Import ZArith Lia String Btauto.
From stdpp Require Export base tactics option list gmap.
#[global] Open Scope Z_scope.

(** ** Machine integers

    A [w]-bit unsigned C integer is a [Z] in [0 .. 2^w); the wrap-around of an
    operation is written where the source performs it. *)
Definition wrap (w x : Z) : Z := x mod 2 ^ w.
Definition u8 (x : Z) : Z := wrap 8 x.
Definition u16 (x : Z) : Z := wrap 16 x.
Definition u32 (x : Z) : Z := wrap 32 x.
Definition u64 (x : Z) : Z := wrap 64 x.

(** Conversion to a [w]-bit two's complement integer. *)
Definition swrap (w x : Z) : Z :=
  let y := x mod 2 ^ w in if y <? 2 ^ (w - 1) then y else y - 2 ^ w.
Definition s8 (x : Z) : Z := swrap 8 x.
Definition s16 (x : Z) : Z := swrap 16 x.
Definition s32 (x : Z) : Z := swrap 32 x.
Definition s64 (x : Z) : Z := swrap 64 x.

Definition is_byte (b : Z) : Prop := 0 ≤ b < 256.

(** C's [int] truth values. *)
Definition b2z (b : bool) : Z := if b then 1 else 0.

(** ** Outcomes

    What a call of a kernel routine can do: return, stop in [panic()], touch
    memory the model has no value for (NULL, an unmapped or never written cell),
    wait for ever on a lock that is already held, or exceed the fuel given to a
    loop of the model. *)
Inductive outcome (A : Type) : Type :=
| Done (a : A)
| Panic (why : string)
| Fault
| Spin
| OutOfFuel.
Arguments Done {A} a.
Arguments Panic {A} why.
Arguments Fault {A}.
Arguments Spin {A}.
Arguments OutOfFuel {A}.

#[export] Instance outcome_ret : MRet outcome := λ A a, Done a.
#[export] Instance outcome_bind : MBind outcome := λ A B k m,
  match m with
  | Done a => k a
  | Panic why => Panic why
  | Fault => Fault
  | Spin => Spin
  | OutOfFuel => OutOfFuel
  end.

(** Reading a cell the model may not know. *)
Definition known {A} (o : option A) : outcome A :=
  match o with Some a => Done a | None => Fault end.

(** [panic_unless c why]: the guard [if (!c) panic(why)]. *)
Definition panic_unless (c : bool) (why : string) : outcome unit :=
  if c then Done tt else Panic why.

Definition returns {A} (o : outcome A) : Prop := ∃ a, o = Done a.

(** The executable form of [returns], for concrete runs. *)
Definition is_done {A} (o : outcome A) : bool := match o with Done _ => true | _ => false end.

Lemma is_done_returns {A} (o : outcome A) : is_done o = true → ∃ a, o = Done a.
Proof. destruct o; cbn; [by eexists|done..]. Qed.

(** ** Lemmas on machine integers *)
Lemma wrap_small w x : 0 ≤ x < 2 ^ w → wrap w x = x.
Proof. apply Z.mod_small. Qed.

Lemma wrap_range w x : 0 ≤ w → 0 ≤ wrap w x < 2 ^ w.
Proof. intros. apply Z.mod_pos_bound. lia. Qed.

Lemma wrap_add_l w x y : wrap w (wrap w x + y) = wrap w (x + y).
Proof. apply Zplus_mod_idemp_l. Qed.

Lemma wrap_sub_l w x y : wrap w (wrap w x - y) = wrap w (x - y).
Proof. apply Zminus_mod_idemp_l. Qed.

(** Inner wraps of a 64-bit sum are absorbed by the outer one. *)
Lemma u64_add_l x y : u64 (u64 x + y) = u64 (x + y).
Proof. apply Zplus_mod_idemp_l. Qed.
Lemma u64_add_r x y : u64 (x + u64 y) = u64 (x + y).
Proof. apply Zplus_mod_idemp_r. Qed.
Lemma u64_sub_l x y : u64 (u64 x - y) = u64 (x - y).
Proof. apply Zminus_mod_idemp_l. Qed.
Lemma u64_sub_r x y : u64 (x - u64 y) = u64 (x - y).
Proof. apply Zminus_mod_idemp_r. Qed.
Create Rewrite HintDb wrap64.
#[export] Hint Rewrite u64_add_l u64_add_r u64_sub_l u64_sub_r : wrap64.

Lemma u8_small x : 0 ≤ x < 2 ^ 8 → u8 x = x.
Proof. apply wrap_small. Qed.
Lemma u16_small x : 0 ≤ x < 2 ^ 16 → u16 x = x.
Proof. apply wrap_small. Qed.
Lemma u32_small x : 0 ≤ x < 2 ^ 32 → u32 x = x.
Proof. apply wrap_small. Qed.
Lemma u64_small x : 0 ≤ x < 2 ^ 64 → u64 x = x.
Proof. apply wrap_small. Qed.

Lemma u8_range x : 0 ≤ u8 x < 2 ^ 8.
Proof. by apply wrap_range. Qed.
Lemma u16_range x : 0 ≤ u16 x < 2 ^ 16.
Proof. by apply wrap_range. Qed.
Lemma u32_range x : 0 ≤ u32 x < 2 ^ 32.
Proof. by apply wrap_range. Qed.
Lemma u64_range x : 0 ≤ u64 x < 2 ^ 64.
Proof. by apply wrap_range. Qed.

Lemma swrap_small w x :
  0 < w → - 2 ^ (w - 1) ≤ x < 2 ^ (w - 1) → swrap w x = x.
Proof.
  intros Hw Hx. unfold swrap.
  assert (Hp : 2 ^ w = 2 * 2 ^ (w - 1)).
  { rewrite <- Z.pow_succ_r by lia. f_equal. lia. }
  destruct (decide (0 ≤ x)) as [H0|H0].
  - rewrite Z.mod_small by lia. destruct (Z.ltb_spec x (2 ^ (w - 1))); lia.
  - rewrite <- (Z.mod_add x 1) by lia. rewrite Z.mod_small by lia.
    destruct (Z.ltb_spec (x + 1 * 2 ^ w) (2 ^ (w - 1))); lia.
Qed.

Lemma s32_small x : - 2 ^ 31 ≤ x < 2 ^ 31 → s32 x = x.
Proof. intros. by apply swrap_small. Qed.
Lemma s64_small x : - 2 ^ 63 ≤ x < 2 ^ 63 → s64 x = x.
Proof. intros. by apply swrap_small. Qed.

(** [lia] with the Euclidean equations of [/] and [mod]. *)
Ltac dlia := Z.to_euclidean_division_equations; lia.

(** Removes the wraps of values that are in range. *)
Ltac unwrap :=
  repeat match goal with
  | |- context [u64 ?x] => rewrite (u64_small x) by lia
  | |- context [u32 ?x] => rewrite (u32_small x) by lia
  | |- context [u16 ?x] => rewrite (u16_small x) by lia
  | |- context [u8 ?x] => rewrite (u8_small x) by lia
  | |- context [s32 ?x] => rewrite (s32_small x) by lia
  end.

(** Turns boolean tests on [Z] into propositions and uses them. *)
Ltac zbool :=
  repeat match goal with
  | H : (_ =? _) = true |- _ => apply Z.eqb_eq in H
  | H : (_ =? _) = false |- _ => apply Z.eqb_neq in H
  | H : (_ <? _) = true |- _ => apply Z.ltb_lt in H
  | H : (_ <? _) = false |- _ => apply Z.ltb_ge in H
  | H : (_ <=? _) = true |- _ => apply Z.leb_le in H
  | H : (_ <=? _) = false |- _ => apply Z.leb_gt in H
  | H : (_ >=? _) = true |- _ => rewrite Z.geb_leb in H; apply Z.leb_le in H
  | H : (_ >=? _) = false |- _ => rewrite Z.geb_leb in H; apply Z.leb_gt in H
  | H : (_ >? _) = true |- _ => rewrite Z.gtb_ltb in H; apply Z.ltb_lt in H
  | H : (_ >? _) = false |- _ => rewrite Z.gtb_ltb in H; apply Z.ltb_ge in H
  | H : negb _ = true |- _ => apply negb_true_iff in H
  | H : negb _ = false |- _ => apply negb_false_iff in H
  | H : _ && _ = true |- _ => apply andb_true_iff in H as [? ?]
  | H : _ || _ = false |- _ => apply orb_false_iff in H as [? ?]
  end.

Lemma gtb_true x y : y < x → (x >? y) = true.
Proof. intros. rewrite Z.gtb_ltb. by apply Z.ltb_lt. Qed.
Lemma gtb_false x y : x ≤ y → (x >? y) = false.
Proof. intros. rewrite Z.gtb_ltb. by apply Z.ltb_ge. Qed.

(** ** Lemmas on outcomes *)
Lemma bind_done {A B} (a : A) (k : A → outcome B) : Done a ≫= k = k a.
Proof. done. Qed.

Lemma bind_ext {A B} (m : outcome A) (k k' : A → outcome B) :
  (∀ a, k a = k' a) → m ≫= k = m ≫= k'.
Proof. intros Hk. destruct m; cbn; [apply Hk|done..]. Qed.

Lemma bind_done_inv {A B} (m : outcome A) (k : A → outcome B) b :
  m ≫= k = Done b → ∃ a, m = Done a ∧ k a = Done b.
Proof. destruct m; cbn; intros; simplify_eq; eauto. Qed.

Lemma known_done_inv {A} (o : option A) a : known o = Done a → o = Some a.
Proof. destruct o; cbn; congruence. Qed.

Lemma panic_unless_done_inv c why u : panic_unless c why = Done u → c = true.
Proof. by destruct c. Qed.

(** Inverts every bind, guard and cell read of a run that returned. *)
Ltac inv_done :=
  repeat match goal with
  | H : _ ≫= _ = Done _ |- _ =>
      let a := fresh "x" in
      apply bind_done_inv in H as (a & ? & H)
  | H : known _ = Done _ |- _ => apply known_done_inv in H
  | H : panic_unless _ _ = Done _ |- _ => apply panic_unless_done_inv in H
  | H : Panic _ = Done _ |- _ => discriminate H
  | H : Fault = Done _ |- _ => discriminate H
  | H : Spin = Done _ |- _ => discriminate H
  | H : OutOfFuel = Done _ |- _ => discriminate H
  | x : _ * _ |- _ => destruct x
  | H : Done _ = Done _ |- _ => injection H as H
  | _ => progress simplify_eq
  end.

(** ** Lemmas on bits of bytes and words *)
Lemma testbit_of_high w x i : 0 ≤ w ≤ i → 0 ≤ x < 2 ^ w → Z.testbit x i = false.
Proof.
  intros Hi Hx. rewrite <- (Z.mod_small x (2 ^ w)) by lia.
  apply Z.mod_pow2_bits_high. lia.
Qed.

Lemma range_of_bits w x :
  0 ≤ w → 0 ≤ x → (∀ i, w ≤ i → Z.testbit x i = false) → x < 2 ^ w.
Proof.
  intros Hw Hx Hb. destruct (decide (x < 2 ^ w)); [done|exfalso].
  assert (0 < x) by (pose proof (Z.pow_pos_nonneg 2 w); lia).
  assert (w ≤ Z.log2 x) by (apply Z.log2_le_pow2; lia).
  pose proof (Z.bit_log2 x) as Hl. rewrite Hb in Hl by lia. naive_solver.
Qed.

(** A one-bit field of a word, as [(x & (1 << k)) >> k]. *)
Definition getbit (x k : Z) : Z := Z.shiftr (Z.land x (Z.shiftl 1 k)) k.
Definition setbit (x k : Z) : Z := Z.lor x (Z.shiftl 1 k).
Definition clrbit (x k : Z) : Z := Z.land x (Z.lnot (Z.shiftl 1 k)).

Lemma testbit_one_shiftl k i : 0 ≤ k → 0 ≤ i → Z.testbit (Z.shiftl 1 k) i = (i =? k).
Proof.
  intros Hk Hi. rewrite Z.shiftl_spec by done.
  destruct (Z.eqb_spec i k) as [->|Hne]; [by rewrite Z.sub_diag|].
  destruct (decide (i < k)); [by rewrite Z.testbit_neg_r by lia|].
  apply (testbit_of_high 1); lia.
Qed.

Lemma getbit_testbit x k : 0 ≤ k → getbit x k = b2z (Z.testbit x k).
Proof.
  intros Hk. apply Z.bits_inj'. intros i Hi. unfold getbit.
  rewrite Z.shiftr_spec, Z.land_spec, testbit_one_shiftl by lia.
  destruct (Z.eqb_spec (i + k) k) as [E|E].
  - assert (i = 0) as -> by lia. rewrite andb_true_r, Z.add_0_l. by destruct (Z.testbit x k).
  - rewrite andb_false_r. destruct (Z.testbit x k); cbn [b2z]; symmetry.
    + apply (testbit_of_high 1); lia.
    + apply Z.testbit_0_l.
Qed.

Lemma setbit_testbit x k i :
  0 ≤ k → 0 ≤ i → Z.testbit (setbit x k) i = Z.testbit x i || (i =? k).
Proof. intros. unfold setbit. by rewrite Z.lor_spec, testbit_one_shiftl. Qed.

Lemma clrbit_testbit x k i :
  0 ≤ k → 0 ≤ i → Z.testbit (clrbit x k) i = Z.testbit x i && negb (i =? k).
Proof. intros. unfold clrbit. by rewrite Z.land_spec, Z.lnot_spec, testbit_one_shiftl. Qed.

Lemma setbit_range w x k : 0 ≤ k < w → 0 ≤ x < 2 ^ w → 0 ≤ setbit x k < 2 ^ w.
Proof.
  intros Hk Hx. assert (0 ≤ setbit x k).
  { apply Z.lor_nonneg. split; [lia|]. apply Z.shiftl_nonneg. lia. }
  split; [done|]. apply range_of_bits; [lia..|]. intros i Hi.
  rewrite setbit_testbit, (testbit_of_high w) by lia. apply Z.eqb_neq. lia.
Qed.

Lemma clrbit_range w x k : 0 ≤ k < w → 0 ≤ x < 2 ^ w → 0 ≤ clrbit x k < 2 ^ w.
Proof.
  intros Hk Hx. assert (0 ≤ clrbit x k) by (apply Z.land_nonneg; lia).
  split; [done|]. apply range_of_bits; [lia..|]. intros i Hi.
  by rewrite clrbit_testbit, (testbit_of_high w) by lia.
Qed.

(** Disjoint bits add up. *)
Lemma lor_add a b k : 0 ≤ k → 0 ≤ a < 2 ^ k → Z.lor a (Z.shiftl b k) = a + b * 2 ^ k.
Proof.
  intros Hk Ha. rewrite <- Z.shiftl_mul_pow2 by done. rewrite <- Z.add_lor_land.
  replace (Z.land a (Z.shiftl b k)) with 0; [lia|]. symmetry. apply Z.bits_inj'. intros i Hi.
  rewrite Z.land_spec, Z.shiftl_spec, Z.testbit_0_l by done. destruct (decide (i < k)).
  - by rewrite (Z.testbit_neg_r b), andb_false_r by lia.
  - rewrite <- (Z.mod_small a (2 ^ k)) by done. by rewrite Z.mod_pow2_bits_high by lia.
Qed.

Create HintDb machine discriminated.
#[export] Hint Resolve u8_range u16_range u32_range u64_range : machine.
#[export] Hint Resolve setbit_range clrbit_range : machine.

(** ** Loops

    [for_up n i body s] is [for (; i < i + n; i++) s = body(i, s)].
    [loop fuel body s] runs [body] until it returns [inr]: a C [while] whose body
    either goes on with a new state or leaves the loop with a result. *)
Fixpoint for_up {S : Type} (n : nat) (i : Z) (body : Z → S → outcome S) (s : S) : outcome S :=
  match n with
  | O => Done s
  | S n => s' ← body i s; for_up n (i + 1) body s'
  end.

Fixpoint loop {S R : Type} (fuel : nat) (body : S → outcome (S + R)) (s : S) : outcome R :=
  match fuel with
  | O => OutOfFuel
  | S fuel =>
      r ← body s;
      match r with inl s' => loop fuel body s' | inr v => Done v end
  end.

Lemma for_up_inv {S} (P : Z → S → Prop) n i (body : Z → S → outcome S) s s' :
  (∀ k x y, i ≤ k < i + Z.of_nat n → P k x → body k x = Done y → P (k + 1) y) →
  P i s → for_up n i body s = Done s' → P (i + Z.of_nat n) s'.
Proof.
  revert i s. induction n as [|n IH]; intros i s Hstep Hi Hrun; cbn in Hrun.
  - simplify_eq. by rewrite Z.add_0_r.
  - inv_done. replace (i + Z.of_nat (Datatypes.S n)) with (i + 1 + Z.of_nat n) by lia.
    eapply IH; [|eapply Hstep; [|exact Hi|eassumption]; lia|eassumption].
    intros k ?? Hk. apply Hstep. lia.
Qed.

Lemma for_up_total {S} (P : Z → S → Prop) n i (body : Z → S → outcome S) s :
  (∀ k x, i ≤ k < i + Z.of_nat n → P k x → ∃ y, body k x = Done y ∧ P (k + 1) y) →
  P i s → ∃ s', for_up n i body s = Done s' ∧ P (i + Z.of_nat n) s'.
Proof.
  revert i s. induction n as [|n IH]; intros i s Hstep Hi; cbn.
  - exists s. by rewrite Z.add_0_r.
  - destruct (Hstep i s) as (y & Hy & HP); [lia|done|]. rewrite Hy. cbn.
    destruct (IH (i + 1) y) as (s' & Hs & HP'); [intros; apply Hstep; [lia|done]|done|].
    exists s'. split; [done|]. by replace (i + Z.of_nat (Datatypes.S n)) with (i + 1 + Z.of_nat n) by lia.
Qed.

Lemma loop_ext {S R} fuel (body body' : S → outcome (S + R)) s :
  (∀ x, body x = body' x) → loop fuel body s = loop fuel body' s.
Proof.
  intros Hb. revert s. induction fuel as [|fuel IH]; intros s; [done|]. cbn [loop]. rewrite Hb.
  apply bind_ext. intros [x|r]; [apply IH|done].
Qed.

Lemma loop_inv {S R} (P : S → Prop) (Q : R → Prop) fuel (body : S → outcome (S + R)) s v :
  (∀ x y, P x → body x = Done (inl y) → P y) →
  (∀ x w, P x → body x = Done (inr w) → Q w) →
  P s → loop fuel body s = Done v → Q v.
Proof.
  intros Hc Hr. revert s. induction fuel as [|fuel IH]; intros s Hs Hrun; [done|].
  cbn in Hrun. inv_done. destruct x; simplify_eq; eauto.
Qed.

(** A loop whose body keeps [P], never fails under it and decreases a measure
    ends within the measure. *)
Lemma loop_total {S R} (P : S → Prop) (Q : R → Prop) (μ : S → nat) fuel
    (body : S → outcome (S + R)) s :
  (∀ x, P x → (∃ y, body x = Done (inl y) ∧ P y ∧ (μ y < μ x)%nat) ∨
              (∃ w, body x = Done (inr w) ∧ Q w)) →
  P s → (μ s < fuel)%nat → ∃ v, loop fuel body s = Done v ∧ Q v.
Proof.
  intros Hb. revert s. induction fuel as [|fuel IH]; intros s Hs Hm; [lia|].
  cbn. destruct (Hb s Hs) as [(y & -> & HP & ?)|(w & -> & HQ)]; cbn.
  - apply IH; [done|lia].
  - eauto.
Qed.

(** With a decreasing measure the fuel is never what stops the loop. *)
Lemma loop_fuel_enough {S R} (P : S → Prop) (μ : S → nat) fuel
    (body : S → outcome (S + R)) s :
  (∀ x, P x → body x ≠ OutOfFuel) →
  (∀ x y, P x → body x = Done (inl y) → P y ∧ (μ y < μ x)%nat) →
  P s → (μ s < fuel)%nat → loop fuel body s ≠ OutOfFuel.
Proof.
  intros Hne Hdec. revert s. induction fuel as [|fuel IH]; intros s Hs Hm; [lia|].
  cbn. pose proof (Hne s Hs). destruct (body s) as [[y|w]| | | |] eqn:E; cbn; try done.
  destruct (Hdec s y) as [? ?]; [done..|]. apply IH; [done|lia].
Qed.

(** A loop that can only go on or panic ends in that panic or not at all. *)
Lemma loop_panics {S R} (P : S → Prop) why fuel (body : S → outcome (S + R)) s :
  (∀ x, P x → (∃ y, body x = Done (inl y) ∧ P y) ∨ body x = Panic why) →
  P s → loop fuel body s = Panic why ∨ loop fuel body s = OutOfFuel.
Proof.
  intros Hb. revert s. induction fuel as [|fuel IH]; intros s Hs; [by right|].
  cbn. destruct (Hb s Hs) as [(y & -> & Hy)| ->]; cbn; [by apply IH|by left].
Qed.

Lemma loop_fuel_mono {S R} fuel fuel' (body : S → outcome (S + R)) s v :
  loop fuel body s = Done v → (fuel ≤ fuel')%nat → loop fuel' body s = Done v.
Proof.
  revert fuel' s. induction fuel as [|fuel IH]; intros fuel' s Hrun Hle; [done|].
  destruct fuel' as [|fuel']; [lia|]. cbn in *. inv_done. rewrite H. cbn.
  destruct x; [|done]. apply IH; [done|lia].
Qed.

(** ** Byte stores: [memset] over a partial memory of known bytes. *)
Fixpoint fill {A : Type} (m : gmap Z A) (a : Z) (v : A) (n : nat) : gmap Z A :=
  match n with O => m | S n => fill (<[a := v]> m) (a + 1) v n end.

Lemma lookup_fill {A} (m : gmap Z A) a v n i :
  fill m a v n !! i = if decide (a ≤ i < a + Z.of_nat n) then Some v else m !! i.
Proof.
  revert m a. induction n as [|n IH]; intros m a; cbn [fill].
  - case_decide; [lia|done].
  - rewrite IH, lookup_insert. repeat case_decide; (done || lia).
Qed.
