(* ===== verification/Dll.v ===== *)
(** * Doubly linked lists in a store of cells

    The kernel keeps its heap segments, list nodes, tasks and sleepers in intrusive
    doubly linked lists.  A node type provides its payload and its two links through
    [LinkNode]; [dseg m p l n] says that the store [m] holds the nodes of [l] in
    order, that the first one points back to [p] and the last one forward to [n].
    The lemmas describe a store by its lookups, so that they apply whatever
    sequence of field assignments produced it. *)
From S2P Require Import Prelude.
#[local] Open Scope Z_scope.

Class LinkNode (N D : Type) := link_mk : D → Z → Z → N.
#[export] Hint Mode LinkNode ! - : typeclass_instances.

Section dll.
Context {N D : Type} `{LinkNode N D}.
Implicit Types (m : gmap Z N) (l : list (Z * D)) (a p n : Z) (d : D).

(** The address of the first node, or what follows the list. *)
Definition hd_addr (l : list (Z * D)) (n : Z) : Z :=
  match l with [] => n | (a, _) :: _ => a end.

(** The address of the last node, or what precedes the list. *)
Fixpoint lst_addr (p : Z) (l : list (Z * D)) : Z :=
  match l with [] => p | (a, _) :: l => lst_addr a l end.

Fixpoint dseg (m : gmap Z N) (p : Z) (l : list (Z * D)) (n : Z) : Prop :=
  match l with
  | [] => True
  | (a, d) :: l' =>
      a ≠ 0 ∧ m !! a = Some (link_mk d (hd_addr l' n) p) ∧ dseg m a l' n
  end.

Lemma hd_addr_app l1 l2 n : hd_addr (l1 ++ l2) n = hd_addr l1 (hd_addr l2 n).
Proof. by destruct l1 as [|[]]. Qed.

Lemma lst_addr_app p l1 l2 : lst_addr p (l1 ++ l2) = lst_addr (lst_addr p l1) l2.
Proof. revert p. induction l1 as [|[a d] l1 IH]; intros p; cbn; auto. Qed.

Lemma lst_addr_snoc p l a d : lst_addr p (l ++ [(a, d)]) = a.
Proof. by rewrite lst_addr_app. Qed.

Lemma lst_addr_elem p l : l ≠ [] → lst_addr p l ∈ l.*1.
Proof.
  revert p. induction l as [|[a d] l IH]; intros p Hl; [done|]. cbn.
  destruct l as [|x l]; [by left|right; by apply IH].
Qed.

Lemma dseg_app m p l1 l2 n :
  dseg m p (l1 ++ l2) n ↔ dseg m p l1 (hd_addr l2 n) ∧ dseg m (lst_addr p l1) l2 n.
Proof.
  revert p. induction l1 as [|[a d] l1 IH]; intros p; cbn; [naive_solver|].
  rewrite IH, hd_addr_app. naive_solver.
Qed.

(** Only the cells of the list matter. *)
Lemma dseg_frame m m' p l n :
  (∀ a, a ∈ l.*1 → m' !! a = m !! a) → dseg m p l n → dseg m' p l n.
Proof.
  revert p. induction l as [|[a d] l IH]; intros p Hm Hl; [done|].
  destruct Hl as (Ha & Hc & Hl). split_and!; [done| |].
  - rewrite Hm; [done|by left].
  - apply IH; [|done]. intros b Hb. apply Hm. by right.
Qed.

Lemma dseg_insert_ne m p l n a x :
  a ∉ l.*1 → dseg m p l n → dseg (<[a := x]> m) p l n.
Proof.
  intros Ha. apply dseg_frame. intros b Hb. rewrite lookup_insert_ne; [done|].
  by intros ->.
Qed.

Lemma dseg_lookup m p l1 a d l2 n :
  dseg m p (l1 ++ (a, d) :: l2) n →
  a ≠ 0 ∧ m !! a = Some (link_mk d (hd_addr l2 n) (lst_addr p l1)).
Proof. rewrite dseg_app. cbn. tauto. Qed.

Lemma dseg_nonzero m p l n a : dseg m p l n → a ∈ l.*1 → a ≠ 0.
Proof.
  revert p. induction l as [|[b d] l IH]; cbn; [by intros ? ? ?%elem_of_nil|].
  intros p (Hb & _ & Hl) [->|Ha]%elem_of_cons; eauto.
Qed.

Lemma dseg_known m p l n a : dseg m p l n → a ∈ l.*1 → is_Some (m !! a).
Proof.
  revert p. induction l as [|[b d] l IH]; cbn; [by intros ? ? ?%elem_of_nil|].
  intros p (Hb & Hc & Hl) [->|Ha]%elem_of_cons; eauto.
Qed.

(** Rewriting the forward link of the last node. *)
Lemma dseg_relink_last m m' p l a d n n' :
  dseg m p (l ++ [(a, d)]) n →
  m' !! a = Some (link_mk d n' (lst_addr p l)) →
  (∀ b, b ∈ l.*1 → m' !! b = m !! b) →
  dseg m' p (l ++ [(a, d)]) n'.
Proof.
  rewrite !dseg_app. cbn. intros (Hl & Ha & _ & _) Hc Hm. split_and!; try done.
  by eapply dseg_frame.
Qed.

(** Rewriting the back link of the first node. *)
Lemma dseg_relink_first m m' p p' l a d n :
  dseg m p ((a, d) :: l) n →
  m' !! a = Some (link_mk d (hd_addr l n) p') →
  (∀ b, b ∈ l.*1 → m' !! b = m !! b) →
  dseg m' p' ((a, d) :: l) n.
Proof. cbn. intros (Ha & _ & Hl) Hc Hm. split_and!; try done. by eapply dseg_frame. Qed.

(** Rewriting the payload of one node. *)
Lemma dseg_payload m m' p l1 a d d' l2 n :
  dseg m p (l1 ++ (a, d) :: l2) n →
  m' !! a = Some (link_mk d' (hd_addr l2 n) (lst_addr p l1)) →
  (∀ b, b ∈ (l1 ++ l2).*1 → m' !! b = m !! b) →
  dseg m' p (l1 ++ (a, d') :: l2) n.
Proof.
  rewrite !dseg_app. cbn. intros (H1 & Ha & _ & H2) Hc Hm.
  rewrite fmap_app in Hm. split_and!; try done.
  - eapply dseg_frame; [|done]. intros; apply Hm; set_solver.
  - eapply dseg_frame; [|done]. intros; apply Hm; set_solver.
Qed.

(** Taking one node out: its neighbours are linked to each other, the other nodes
    keep their cells. *)
Lemma dseg_unlink m m' l1 a d l2 :
  dseg m 0 (l1 ++ (a, d) :: l2) 0 →
  (∀ l0 b e, l1 = l0 ++ [(b, e)] → m' !! b = Some (link_mk e (hd_addr l2 0) (lst_addr 0 l0))) →
  (∀ b e l3, l2 = (b, e) :: l3 → m' !! b = Some (link_mk e (hd_addr l3 0) (lst_addr 0 l1))) →
  (∀ b, b ∈ (l1 ++ l2).*1 → b ≠ lst_addr 0 l1 → b ≠ hd_addr l2 0 → m' !! b = m !! b) →
  NoDup (l1 ++ l2).*1 → dseg m' 0 (l1 ++ l2) 0.
Proof.
  rewrite !dseg_app. cbn. intros (H1 & Ha & Hc & H2) Hl Hr Hm Hnd.
  rewrite fmap_app in Hm, Hnd. apply NoDup_app in Hnd as (Hnd1 & Hdisj & Hnd2). split.
  - destruct l1 as [|[b e] l0 _] using rev_ind; [done|].
    eapply dseg_relink_last; [exact H1|by apply Hl|].
    rewrite lst_addr_snoc in Hm. rewrite fmap_app in *. apply NoDup_app in Hnd1 as (_ & Hd & _).
    intros c Hc'. apply Hm; [set_solver| |].
    + intros ->. by eapply Hd, list_elem_of_singleton.
    + intros ->. destruct l2 as [|[x y] l3]; cbn in *.
      * apply (dseg_nonzero _ _ _ _ 0 H1); [rewrite fmap_app; set_solver|done].
      * apply (Hdisj x); set_solver.
  - destruct l2 as [|[b e] l3]; [done|].
    eapply dseg_relink_first; [exact H2|by apply Hr|].
    cbn in *. apply NoDup_cons in Hnd2 as [Hnb _].
    intros c Hc'. apply Hm; [set_solver| |].
    + intros ->. destruct l1 as [|x l0]; [cbn in *|].
      * apply (dseg_nonzero m a ((b, e) :: l3) 0 0); [done|by right|done].
      * apply (Hdisj (lst_addr 0 (x :: l0))); [by apply lst_addr_elem|by right].
    + by intros ->.
Qed.

(** A list has no more nodes than the store has cells: the store's size bounds
    every walk along it. *)
Lemma dseg_size m p l n : NoDup l.*1 → dseg m p l n → (List.length l ≤ size m)%nat.
Proof.
  intros Hnd Hl. rewrite <- size_dom, <- (length_fmap fst).
  rewrite <- (size_list_to_set (C := gset Z)) by done.
  apply subseteq_size. intros a. rewrite elem_of_list_to_set, elem_of_dom.
  intros Ha. by eapply dseg_known.
Qed.
(** Appending a node. *)
Lemma dseg_snoc m m' l a d :
  dseg m 0 l 0 → a ≠ 0 → a ∉ l.*1 → NoDup l.*1 →
  (∀ l0 b e, l = l0 ++ [(b, e)] → m' !! b = Some (link_mk e a (lst_addr 0 l0))) →
  m' !! a = Some (link_mk d 0 (lst_addr 0 l)) →
  (∀ b, b ∈ l.*1 → b ≠ lst_addr 0 l → m' !! b = m !! b) →
  dseg m' 0 (l ++ [(a, d)]) 0.
Proof.
  intros Hd Ha Hanot Hnd Hl Ea Hk. rewrite dseg_app. cbn [dseg hd_addr]. split_and!; try done.
  destruct l as [|[b e] l0 _] using rev_ind; [done|].
  eapply dseg_relink_last; [exact Hd|by apply Hl|]. intros c Hc. apply Hk.
  - rewrite fmap_app. set_solver.
  - rewrite lst_addr_snoc. rewrite fmap_app in Hnd. apply NoDup_app in Hnd as (_ & Hn & _).
    intros ->. apply (Hn b Hc). by left.
Qed.

(** Around one node of a list without repetitions. *)
Lemma nodup_mid l1 a d l2 :
  NoDup (l1 ++ (a, d) :: l2).*1 →
  NoDup (l1 ++ l2).*1 ∧ (a ∉ l1.*1) ∧ (a ∉ l2.*1) ∧ (∀ b, b ∈ l1.*1 → b ∉ l2.*1).
Proof.
  rewrite !fmap_app. cbn. intros (H1 & H12 & H2)%NoDup_app. apply NoDup_cons in H2 as [H2a H2].
  split_and!; [|intros Hin; apply (H12 a Hin); by left|done|].
  - apply NoDup_app. split_and!; [done| |done]. intros b Hb Hb2. apply (H12 b Hb). by right.
  - intros b Hb Hb2. apply (H12 b Hb). by right.
Qed.
End dll.
