(* ===== verification/Concurrency.v ===== *)
(** * Spinlocks, locks and semaphores (src/src/sched/concurrency.c, concurrency.h)

    The kernel runs on one processor: a routine that waits for a held lock with
    interrupts off, or for a value nobody else can change, never goes on.  Such a
    wait is the outcome [Spin].  The processor state is the flags register, of which
    bit 9 is the interrupt flag. *)
From S2P Require Import Prelude.
#[local] Open Scope Z_scope.

Record cpu := { rflags : Z }.

Definition IF_BIT : Z := 0x200.

Definition getRflags (c : cpu) : Z := rflags c.
Definition cli (c : cpu) : cpu := {| rflags := Z.land (rflags c) (Z.lnot IF_BIT) |}.
Definition sti (c : cpu) : cpu := {| rflags := Z.lor (rflags c) IF_BIT |}.

Definition interrupts_on (c : cpu) : bool := Z.testbit (rflags c) 9.

Record spinlock_t := { flags : Z; mut : Z }.

Definition unlocked : spinlock_t := {| flags := 0; mut := 0 |}.

(** [while (atomic_flag_test_and_set(&lock->mut)) pause;] leaves at once when the
    lock is free and never otherwise. *)
Definition acquire_spinlock (c : cpu) (lock : spinlock_t) : outcome (cpu * spinlock_t) :=
  if negb (mut lock =? 0) then Spin else
  Done (cli c, {| flags := getRflags c; mut := 1 |}).

Definition release_spinlock (c : cpu) (lock : spinlock_t) : cpu * spinlock_t :=
  let lock := {| flags := flags lock; mut := 0 |} in
  (if negb (Z.land (flags lock) 0x200 =? 0) then sti c else c, lock).

Record semaphore_t := { val : Z; sem_mut : spinlock_t }.

(** The spin on [val] runs with the spinlock held and interrupts off. *)
Definition wait (c : cpu) (lock : semaphore_t) : outcome (Z * cpu * semaphore_t) :=
  '(c, l) ← acquire_spinlock c (sem_mut lock);
  if val lock <=? 0 then Spin else
  let v := s32 (val lock - 1) in
  let '(c, l) := release_spinlock c l in
  Done (0, c, {| val := v; sem_mut := l |}).

Definition signal (lock : semaphore_t) : Z * semaphore_t :=
  (0, {| val := s32 (val lock + 1); sem_mut := sem_mut lock |}).

(** A [lock_t] is an atomic int. *)
Definition init_lock (lock : Z) : Z := 0.

Definition try_acquire_lock (lock : Z) : Z * Z :=
  if lock =? 0 then (1, 1) else (0, lock).

(** ** Properties *)
Lemma testbit_cli c i : 0 ≤ i →
  Z.testbit (rflags (cli c)) i = Z.testbit (rflags c) i && negb (i =? 9).
Proof.
  intros Hi. unfold cli, IF_BIT. cbn [rflags]. rewrite Z.land_spec, Z.lnot_spec by done.
  change 0x200 with (Z.shiftl 1 9). by rewrite testbit_one_shiftl by lia.
Qed.

Lemma testbit_sti c i : 0 ≤ i →
  Z.testbit (rflags (sti c)) i = Z.testbit (rflags c) i || (i =? 9).
Proof.
  intros Hi. unfold sti, IF_BIT. cbn [rflags]. rewrite Z.lor_spec.
  change 0x200 with (Z.shiftl 1 9). by rewrite testbit_one_shiftl by lia.
Qed.

Lemma if_bit_test x : negb (Z.land x 0x200 =? 0) = Z.testbit x 9.
Proof.
  destruct (Z.testbit x 9) eqn:E.
  - destruct (Z.eqb_spec (Z.land x 0x200) 0) as [H|H]; [|done].
    assert (Z.testbit (Z.land x 0x200) 9 = true) as H' by (by rewrite Z.land_spec, E).
    by rewrite H in H'.
  - destruct (Z.eqb_spec (Z.land x 0x200) 0) as [H|H]; [done|exfalso; apply H].
    apply Z.bits_inj'. intros i Hi. rewrite Z.land_spec, Z.testbit_0_l.
    change 0x200 with (Z.shiftl 1 9). rewrite testbit_one_shiftl by lia.
    destruct (Z.eqb_spec i 9) as [->|]; [by rewrite E|by rewrite andb_false_r].
Qed.

(** Releasing a lock gives back the processor flags it was taken with. *)
Lemma release_acquire c c1 lock l1 :
  acquire_spinlock c lock = Done (c1, l1) →
  release_spinlock c1 l1 = (c, {| flags := rflags c; mut := 0 |}).
Proof.
  unfold acquire_spinlock. case_match; [done|]. intros [= <- <-].
  unfold release_spinlock. cbn [flags]. rewrite if_bit_test. unfold getRflags. f_equal.
  destruct c as [r]. cbn [rflags getRflags]. destruct (Z.testbit r 9) eqn:E.
  - unfold sti. f_equal. apply Z.bits_inj'. intros i Hi.
    change (Z.lor (rflags (cli {| rflags := r |})) IF_BIT)
      with (rflags (sti (cli {| rflags := r |}))).
    rewrite testbit_sti, testbit_cli by done. cbn [rflags].
    destruct (Z.eqb_spec i 9) as [->|]; cbn [negb]; [by rewrite E|].
    by rewrite andb_true_r, orb_false_r.
  - unfold cli. f_equal. apply Z.bits_inj'. intros i Hi.
    change (Z.land (rflags {| rflags := r |}) (Z.lnot IF_BIT))
      with (rflags (cli {| rflags := r |})).
    rewrite testbit_cli by done. cbn [rflags].
    destruct (Z.eqb_spec i 9) as [->|]; cbn [negb]; [by rewrite E|by rewrite andb_true_r].
Qed.

(** a free spinlock is always taken, with interrupts off while it is held;
    taking it again before the release waits for ever; the release frees it and
    restores the flags register exactly as it was, also when interrupts were
    already off. *)
Theorem spinlock_discipline c lock :
  mut lock = 0 →
  ∃ c1 l1, acquire_spinlock c lock = Done (c1, l1) ∧
    interrupts_on c1 = false ∧ acquire_spinlock c1 l1 = Spin ∧
    release_spinlock c1 l1 = (c, {| flags := rflags c; mut := 0 |}).
Proof.
  intros Hm. unfold acquire_spinlock at 1. rewrite Hm. cbn [Z.eqb negb].
  eexists _, _. split; [done|]. split_and!.
  - unfold interrupts_on. by rewrite testbit_cli, andb_false_r by lia.
  - done.
  - apply (release_acquire c _ lock). unfold acquire_spinlock. by rewrite Hm.
Qed.

Lemma spinlock_discipline_witness :
  ∃ c1 l1, acquire_spinlock {| rflags := 0x202 |} unlocked = Done (c1, l1) ∧
    interrupts_on c1 = false ∧ acquire_spinlock c1 l1 = Spin ∧
    release_spinlock c1 l1 = ({| rflags := 0x202 |}, {| flags := 0x202; mut := 0 |}).
Proof. apply (spinlock_discipline {| rflags := 0x202 |} unlocked). reflexivity. Defined.

(** [wait] takes one unit of a positive semaphore and puts the processor flags
    back; on a semaphore that is zero or below it never returns, since it spins on
    the value with interrupts off. *)
Theorem semaphore_wait c s :
  mut (sem_mut s) = 0 → - 2 ^ 31 ≤ val s < 2 ^ 31 →
  (0 < val s → ∃ s', wait c s = Done (0, c, s') ∧ val s' = val s - 1 ∧ mut (sem_mut s') = 0) ∧
  (val s ≤ 0 → wait c s = Spin).
Proof.
  intros Hm Hv. unfold wait. destruct (acquire_spinlock c (sem_mut s)) as [[c1 l1]| | | |] eqn:E;
    try (unfold acquire_spinlock in E; by rewrite Hm in E).
  apply release_acquire in E. cbn [mbind outcome_bind]. split; intros Hs.
  - destruct (Z.leb_spec (val s) 0); [lia|]. rewrite E. eexists. split; [done|].
    cbn. unwrap. done.
  - destruct (Z.leb_spec (val s) 0); [done|lia].
Qed.

Lemma semaphore_wait_witness :
  wait {| rflags := 0x202 |} {| val := 0; sem_mut := unlocked |} = Spin.
Proof.
  apply (semaphore_wait {| rflags := 0x202 |} {| val := 0; sem_mut := unlocked |});
    [reflexivity|cbn; lia|cbn; lia].
Defined.
