(* ===== verification/PageAlloc.v ===== *)
(** * The page frame allocator (src/src/memory/memory.c, memory_cb.h)

    One bit per 4 KiB frame of the largest usable chunk of memory.  The state is
    [struct system_memory], the bytes its [bitfield] points to and the function
    statics of [request_page] and [request_contiguous_pages].  The boot memory map
    (Limine's answer) is an argument. *)
From S2P Require Import Prelude.
From stdpp Require Import strings.
#[local] Open Scope Z_scope.

Definition PAGESIZE : Z := 0x1000.

(** sizeof(struct system_memory): nine packed 8-byte fields. *)
Definition sizeof_system_memory : Z := 72.

Record system_memory := {
  total_available_pages : Z;
  first_available_page_addr : Z;
  last_available_page_address : Z;
  total_memory : Z;
  total_pages : Z;
  bitfield : Z;
  free_memory : Z;
  locked_memory : Z;
  reserved_memory : Z;
}.

(** [memory_ptr] is the global pointer [memory], [memory] the structure behind it;
    [bits] holds the known bytes at [memory->bitfield], by offset. *)
Record pmm := {
  memory_ptr : Z;
  memory : system_memory;
  bits : gmap Z Z;
  last_requested : Z;
  statistics_requested : Z;
  contiguous_last_requested : Z;
  contiguous_statistics_requested : Z;
}.

Definition with_bits (b : gmap Z Z) (s : pmm) : pmm :=
  {| memory_ptr := memory_ptr s; memory := memory s; bits := b; last_requested := last_requested s;
     statistics_requested := statistics_requested s;
     contiguous_last_requested := contiguous_last_requested s;
     contiguous_statistics_requested := contiguous_statistics_requested s |}.

Definition with_counters (free locked reserved : Z) (s : pmm) : pmm :=
  {| memory_ptr := memory_ptr s;
     memory :=
       {| total_available_pages := total_available_pages (memory s);
          first_available_page_addr := first_available_page_addr (memory s);
          last_available_page_address := last_available_page_address (memory s);
          total_memory := total_memory (memory s);
          total_pages := total_pages (memory s);
          bitfield := bitfield (memory s);
          free_memory := free;
          locked_memory := locked;
          reserved_memory := reserved |};
     bits := bits s; last_requested := last_requested s;
     statistics_requested := statistics_requested s;
     contiguous_last_requested := contiguous_last_requested s;
     contiguous_statistics_requested := contiguous_statistics_requested s |}.

Definition with_cursor (last stat : Z) (s : pmm) : pmm :=
  {| memory_ptr := memory_ptr s; memory := memory s; bits := bits s; last_requested := last;
     statistics_requested := stat;
     contiguous_last_requested := contiguous_last_requested s;
     contiguous_statistics_requested := contiguous_statistics_requested s |}.

Definition with_contiguous_cursor (last stat : Z) (s : pmm) : pmm :=
  {| memory_ptr := memory_ptr s; memory := memory s; bits := bits s; last_requested := last_requested s;
     statistics_requested := statistics_requested s;
     contiguous_last_requested := last;
     contiguous_statistics_requested := stat |}.

(** ** Macros *)
Definition IS_ALIGNED (x : Z) : bool := Z.land x (PAGESIZE - 1) =? 0.

Definition ALIGN_ADDR (x : Z) : Z :=
  if negb (Z.land (PAGESIZE - 1) x =? 0)
  then Z.land (u64 (x + PAGESIZE)) (Z.lnot (PAGESIZE - 1)) else x.

Definition ADDR_TO_PAGE (x : Z) : Z := Z.shiftr x 12.

Definition GET_PAGE_BIT (s : pmm) (x : Z) : outcome Z :=
  b ← known (bits s !! Z.shiftr x 3);
  Done (getbit b (x mod 8)).

Definition SET_PAGE_BIT (x : Z) (s : pmm) : outcome pmm :=
  b ← known (bits s !! Z.shiftr x 3);
  Done (with_bits (<[Z.shiftr x 3 := setbit b (x mod 8)]> (bits s)) s).

Definition CLEAR_PAGE_BIT (x : Z) (s : pmm) : outcome pmm :=
  b ← known (bits s !! Z.shiftr x 3);
  Done (with_bits (<[Z.shiftr x 3 := clrbit b (x mod 8)]> (bits s)) s).

(** ** Single pages *)
Definition set_page_bit (address : Z) (s : pmm) : outcome pmm :=
  if ADDR_TO_PAGE address >? total_available_pages (memory s)
  then Panic "set_page_bit: address out of bounds" else
  s ← SET_PAGE_BIT (ADDR_TO_PAGE address) s;
  g ← GET_PAGE_BIT s (ADDR_TO_PAGE address);
  if negb (g =? 1) then Panic "set_page_bit: bit not set" else
  Done s.

Definition clear_page_bit (address : Z) (s : pmm) : outcome pmm :=
  if ADDR_TO_PAGE address >? total_available_pages (memory s)
  then Panic "clear_page_bit: address out of bounds" else
  CLEAR_PAGE_BIT (ADDR_TO_PAGE address) s.

Definition get_page_bit (address : Z) (s : pmm) : outcome Z :=
  if ADDR_TO_PAGE address >? total_available_pages (memory s)
  then Panic "get_page_bit: address out of bounds" else
  g ← GET_PAGE_BIT s (ADDR_TO_PAGE address);
  Done (u8 g).

Definition reserve_page (address : Z) (s : pmm) : outcome pmm :=
  g ← get_page_bit address s;
  if g =? 1 then Panic "Page already reserved!" else
  s ← set_page_bit address s;
  Done (with_counters (u64 (free_memory (memory s) - PAGESIZE))
          (locked_memory (memory s))
          (u64 (reserved_memory (memory s) + PAGESIZE)) s).

Definition unreserve_page (address : Z) (s : pmm) : outcome pmm :=
  g ← get_page_bit address s;
  if g =? 0 then Panic "Page not reserved!" else
  s ← clear_page_bit address s;
  Done (with_counters (u64 (free_memory (memory s) + PAGESIZE))
          (locked_memory (memory s))
          (u64 (reserved_memory (memory s) - PAGESIZE)) s).

Definition lock_page (address : Z) (s : pmm) : outcome pmm :=
  g ← get_page_bit address s;
  if g =? 1 then Panic "Page already locked!" else
  s ← set_page_bit address s;
  Done (with_counters (u64 (free_memory (memory s) - PAGESIZE))
          (u64 (locked_memory (memory s) + PAGESIZE))
          (reserved_memory (memory s)) s).

Definition unlock_page (address : Z) (s : pmm) : outcome pmm :=
  g ← get_page_bit address s;
  if g =? 0 then Panic "Page not locked!" else
  s ← clear_page_bit address s;
  Done (with_counters (u64 (free_memory (memory s) - PAGESIZE))
          (u64 (locked_memory (memory s) + PAGESIZE))
          (reserved_memory (memory s)) s).

(** ** Page ranges *)
Definition reserve_pages (address pages : Z) (s : pmm) : outcome pmm :=
  if s64 address <? 0 then Panic "NEGATIVE" else
  for_up (Z.to_nat pages) 0
    (λ i s, reserve_page (u64 (address + u64 (Z.shiftl i 12))) s) s.

Definition unreserve_pages (address pages : Z) (s : pmm) : outcome pmm :=
  for_up (Z.to_nat pages) 0
    (λ i s, unreserve_page (u64 (address + u64 (Z.shiftl i 12))) s) s.

Definition lock_pages (address pages : Z) (s : pmm) : outcome pmm :=
  for_up (Z.to_nat pages) 0
    (λ i s, lock_page (u64 (address + u64 (Z.shiftl i 12))) s) s.

Definition unlock_pages (address pages : Z) (s : pmm) : outcome pmm :=
  for_up (Z.to_nat pages) 0
    (λ i s, unlock_page (u64 (address + u64 (Z.shiftl i 12))) s) s.

(** ** Allocation *)

(** One turn of the search loop of [request_page] and
    [request_contiguous_pages]: leaves with the index of a clear bit. *)
Definition search_step (s : pmm) (first last : Z) : outcome (Z + Z) :=
  g ← GET_PAGE_BIT s last;
  if g =? 1 then
    let last := if last >=? total_available_pages (memory s) then 0 else last in
    if last =? first then Panic "No free pages available!" else
    Done (inl (u64 (last + 1)))
  else Done (inr last).

(** The cursor visits every index at most once before it meets [first]. *)
Definition search_fuel (s : pmm) : nat := Z.to_nat (total_available_pages (memory s) + 3).

Definition request_page (s : pmm) : outcome (Z * pmm) :=
  let first := u64 (last_requested s - 1) in
  last ← loop (search_fuel s) (search_step s first) (last_requested s);
  s ← lock_page (u64 (Z.shiftl last 12)) (with_cursor last (statistics_requested s) s);
  g ← GET_PAGE_BIT s last;
  if g =? 0 then Panic "Page not reserved!" else
  let s := with_cursor last (u64 (statistics_requested s + 1)) s in
  Done (u64 (first_available_page_addr (memory s) + u64 (Z.shiftl last 12)), s).

Definition free_page (addr : Z) (s : pmm) : outcome pmm :=
  let normaliced_address := u64 (addr - first_available_page_addr (memory s)) in
  if addr <? first_available_page_addr (memory s)
  then Panic "Page below active range" else
  g ← GET_PAGE_BIT s (Z.shiftr normaliced_address 12);
  if g =? 0 then Panic "page was not locked" else
  s ← unlock_page normaliced_address s;
  g ← GET_PAGE_BIT s (Z.shiftr normaliced_address 12);
  if g =? 1 then Panic "Page not freed!" else
  Done s.

Definition request_contiguous_pages (num : Z) (s : pmm) : outcome (Z * pmm) :=
  let first := u64 (contiguous_last_requested s - 1) in
  let last := u64 (contiguous_last_requested s - 1) in
  cursor ← loop (search_fuel s) (search_step s first) (contiguous_last_requested s);
  let s := with_contiguous_cursor cursor (contiguous_statistics_requested s) s in
  s ← for_up (Z.to_nat num) 0
        (λ _ s,
           g ← GET_PAGE_BIT s (contiguous_last_requested s);
           if g =? 1 then Panic "Page already reserved!" else
           s ← lock_page (u64 (Z.shiftl (contiguous_last_requested s) 12)) s;
           Done (with_contiguous_cursor (u64 (contiguous_last_requested s + 1))
                   (contiguous_statistics_requested s) s)) s;
  let s := with_contiguous_cursor (contiguous_last_requested s)
             (u64 (contiguous_statistics_requested s + num)) s in
  Done (u64 (first_available_page_addr (memory s) + u64 (Z.shiftl last 12)), s).

Definition free_contiguous_pages (address num : Z) (s : pmm) : outcome pmm :=
  let normaliced_address := u64 (address - first_available_page_addr (memory s)) in
  if address <? first_available_page_addr (memory s)
  then Panic "Page below active range!" else
  s ← for_up (Z.to_nat num) 0
        (λ i s,
           g ← GET_PAGE_BIT s (u64 (Z.shiftr normaliced_address 12 + i));
           if g =? 0 then Panic "Page was not locked!" else
           unlock_page (u64 (normaliced_address + u64 (Z.shiftl i 12))) s) s;
  g ← GET_PAGE_BIT s (Z.shiftr normaliced_address 12);
  if g =? 1 then Panic "Page not freed" else
  Done s.

(** ** Start-up *)
Definition MEMMAP_USABLE : Z := 0.

(** One entry of the boot memory map. *)
Record mmap_entry := { mm_base : Z; mm_length : Z; mm_type : Z }.

Record chunk_data := { chunk_addr : Z; chunk_size : Z }.

Definition get_total_memory_cb (acc : Z) (e : mmap_entry) : Z := u64 (acc + mm_length e).

Definition get_free_memory_cb (acc : Z) (e : mmap_entry) : Z :=
  if mm_type e =? MEMMAP_USABLE then u64 (acc + mm_length e) else acc.

Definition init_memory_cb (chunk : chunk_data) (e : mmap_entry) : chunk_data :=
  if mm_type e =? MEMMAP_USABLE then
    if mm_length e >? chunk_size chunk then {| chunk_addr := mm_base e; chunk_size := mm_length e |} else chunk
  else chunk.

Definition iterate_memory {A} (callback : A → mmap_entry → A)
    (global_override : A) (mmap : list mmap_entry) : A :=
  fold_left callback mmap global_override.

(** The function statics of the start-up routines. *)
Record boot_statics := {
  total_memory_static : Z;
  free_memory_static : Z;
  biggest_avail_chunk : chunk_data;
}.

Definition get_total_memory (mmap : list mmap_entry) (st : boot_statics) : Z * boot_statics :=
  if total_memory_static st >? 0 then (total_memory_static st, st) else
  let t := iterate_memory get_total_memory_cb (total_memory_static st) mmap in
  (t, {| total_memory_static := t; free_memory_static := free_memory_static st;
         biggest_avail_chunk := biggest_avail_chunk st |}).

Definition get_free_memory (mmap : list mmap_entry) (st : boot_statics) : Z * boot_statics :=
  if free_memory_static st >? 0 then (free_memory_static st, st) else
  let f := iterate_memory get_free_memory_cb (free_memory_static st) mmap in
  (f, {| total_memory_static := total_memory_static st; free_memory_static := f;
         biggest_avail_chunk := biggest_avail_chunk st |}).

(** The bitmap self test: with 0x55 in every byte the even bits are set. *)
Definition bitmap_self_test (s : pmm) : outcome pmm :=
  for_up 100 0
    (λ i s, for_up 8 0
       (λ j s,
          g ← GET_PAGE_BIT s (i * 8 + j);
          if j mod 2 =? 1
          then (if g =? 1 then Panic "init_memory: GET_PAGE_BIT failed" else Done s)
          else (if g =? 0 then Panic "init_memory: GET_PAGE_BIT failed" else Done s)) s) s.

Definition init_memory (mmap : list mmap_entry) (st : boot_statics) (s : pmm)
    : outcome (Z * boot_statics * pmm) :=
  if chunk_size (biggest_avail_chunk st) >? 0 then Done (0, st, s) else
  let '(total, st) := get_total_memory mmap st in
  let pages := Z.shiftr total 12 in
  let chunk := iterate_memory init_memory_cb (biggest_avail_chunk st) mmap in
  let st := {| total_memory_static := total_memory_static st;
               free_memory_static := free_memory_static st;
               biggest_avail_chunk := chunk |} in
  let first_available_address := ALIGN_ADDR (chunk_addr chunk) in
  let last_available_adress := ALIGN_ADDR (u64 (chunk_addr chunk + chunk_size chunk)) in
  let available_pages := Z.shiftr (u64 (last_available_adress - first_available_address)) 12 in
  let bitfield_entries :=
    if available_pages mod 8 =? 0 then Z.shiftr available_pages 3
    else Z.shiftr available_pages 3 + 1 in
  if chunk_size chunk <? bitfield_entries + sizeof_system_memory + Z.shiftl 3 12
  then Panic "init_memory: not enough memory for memory bitfield" else
  let bf := ALIGN_ADDR (u64 (first_available_address + 8)) in
  s ← bitmap_self_test (with_bits (fill (bits s) 0 0x55 100) s);
  let s :=
    {| memory_ptr := first_available_address;
       memory :=
         {| total_available_pages := available_pages;
            first_available_page_addr := first_available_address;
            last_available_page_address := last_available_adress;
            total_memory := total;
            total_pages := pages;
            bitfield := bf;
            free_memory := u64 (last_available_adress - first_available_address);
            locked_memory := 0;
            reserved_memory := 0 |};
       bits := fill (bits s) 0 0 (Z.to_nat bitfield_entries);
       last_requested := last_requested s;
       statistics_requested := statistics_requested s;
       contiguous_last_requested := contiguous_last_requested s;
       contiguous_statistics_requested := contiguous_statistics_requested s |} in
  if negb (IS_ALIGNED (memory_ptr s)) || negb (IS_ALIGNED (bitfield (memory s)))
     || negb (IS_ALIGNED (first_available_page_addr (memory s)))
  then Panic "Memory alignment error!" else
  let used_space := Z.shiftr (bitfield_entries + sizeof_system_memory + Z.shiftl 3 12) 12 in
  s ← reserve_pages 0 used_space s;
  Done (1, st, s).

(** After paging is on, the structure and the bitmap are reached through the
    identity map: only the pointers move. *)
Definition offset_memory (offset : Z) (s : pmm) : pmm :=
  let m := memory s in
  {| memory_ptr := u64 (memory_ptr s + offset);
     memory :=
       {| total_available_pages := total_available_pages m;
          first_available_page_addr := first_available_page_addr m;
          last_available_page_address := last_available_page_address m;
          total_memory := total_memory m;
          total_pages := total_pages m;
          bitfield := u64 (bitfield m + offset);
          free_memory := free_memory m;
          locked_memory := locked_memory m;
          reserved_memory := reserved_memory m |};
     bits := bits s; last_requested := last_requested s;
     statistics_requested := statistics_requested s;
     contiguous_last_requested := contiguous_last_requested s;
     contiguous_statistics_requested := contiguous_statistics_requested s |}.

(** ** Specification vocabulary *)

(** What the bitmap says of page [i]: [Some true] taken, [Some false] free,
    [None] when the byte is not part of the known bitmap. *)
Definition page_used (s : pmm) (i : Z) : option bool :=
  (λ b, Z.testbit b (i mod 8)) <$> bits s !! Z.shiftr i 3.

(** The state with the bit of page [i] written. *)
Definition mark (i : Z) (v : bool) (s : pmm) : pmm :=
  let b := default 0 (bits s !! Z.shiftr i 3) in
  with_bits (<[Z.shiftr i 3 := (if v then setbit else clrbit) b (i mod 8)]> (bits s)) s.

(** Well-formed allocator states. *)
Record pmm_wf (s : pmm) : Prop := {
  wf_total : 0 < total_available_pages (memory s) < 2 ^ 51;
  wf_first : 0 ≤ first_available_page_addr (memory s);
  wf_last : last_available_page_address (memory s) =
            first_available_page_addr (memory s) + total_available_pages (memory s) * PAGESIZE;
  wf_span : last_available_page_address (memory s) + PAGESIZE ≤ 2 ^ 64;
  wf_bytes : ∀ k b, bits s !! k = Some b → 0 ≤ b < 2 ^ 8;
  wf_known : ∀ i, 0 ≤ i < total_available_pages (memory s) → is_Some (page_used s i);
  wf_cursor : 0 ≤ last_requested s ≤ total_available_pages (memory s);
}.

(** ** Bits and pages *)
Lemma shiftl12 i : Z.shiftl i 12 = i * PAGESIZE.
Proof. apply Z.shiftl_mul_pow2. lia. Qed.

Lemma ADDR_TO_PAGE_shift i : ADDR_TO_PAGE (i * PAGESIZE) = i.
Proof. unfold ADDR_TO_PAGE. rewrite <- shiftl12, Z.shiftr_shiftl_l by lia. apply Z.shiftl_0_r. Qed.

Lemma page_split i j :
  Z.shiftr i 3 = Z.shiftr j 3 → i mod 8 = j mod 8 → i = j.
Proof. rewrite !Z.shiftr_div_pow2 by lia. change (2 ^ 3) with 8. dlia. Qed.

Lemma mod8_range i : 0 ≤ i mod 8 < 8.
Proof. apply Z.mod_pos_bound. lia. Qed.

Lemma GET_PAGE_BIT_eq s i : GET_PAGE_BIT s i = known (b2z <$> page_used s i).
Proof.
  unfold GET_PAGE_BIT, page_used. pose proof (mod8_range i).
  destruct (bits s !! Z.shiftr i 3); cbn; [|done]. by rewrite getbit_testbit by lia.
Qed.

Lemma SET_PAGE_BIT_eq s i :
  SET_PAGE_BIT i s = known ((λ _, mark i true s) <$> page_used s i).
Proof. unfold SET_PAGE_BIT, page_used, mark. by destruct (bits s !! Z.shiftr i 3). Qed.

Lemma CLEAR_PAGE_BIT_eq s i :
  CLEAR_PAGE_BIT i s = known ((λ _, mark i false s) <$> page_used s i).
Proof. unfold CLEAR_PAGE_BIT, page_used, mark. by destruct (bits s !! Z.shiftr i 3). Qed.

Lemma page_used_mark i j v s :
  is_Some (page_used s i) →
  page_used (mark i v s) j = if decide (j = i) then Some v else page_used s j.
Proof.
  unfold page_used, mark, with_bits. cbn [bits]. intros [? Hi].
  pose proof (mod8_range i). pose proof (mod8_range j).
  destruct (bits s !! Z.shiftr i 3) as [b|] eqn:Eb; [|done].
  rewrite lookup_insert. case_decide as Hb; case_decide as Hij; subst; try done; cbn.
  - destruct v.
    + by rewrite setbit_testbit, Z.eqb_refl, orb_true_r by lia.
    + by rewrite clrbit_testbit, Z.eqb_refl, andb_false_r by lia.
  - rewrite <- Hb, Eb. cbn. assert ((j mod 8 =? i mod 8) = false) as Hne.
    { apply Z.eqb_neq. intros E. by apply Hij, page_split. }
    destruct v.
    + by rewrite setbit_testbit, Hne, orb_false_r by lia.
    + by rewrite clrbit_testbit, Hne, andb_true_r by lia.
Qed.

Lemma page_used_mark_eq i v s :
  is_Some (page_used s i) → page_used (mark i v s) i = Some v.
Proof. intros. rewrite page_used_mark by done. by case_decide. Qed.

Lemma page_used_mark_ne i j v s :
  is_Some (page_used s i) → j ≠ i → page_used (mark i v s) j = page_used s j.
Proof. intros. rewrite page_used_mark by done. by case_decide. Qed.

Lemma page_used_with_counters f l r s i : page_used (with_counters f l r s) i = page_used s i.
Proof. done. Qed.

Lemma page_used_with_cursor a b s i : page_used (with_cursor a b s) i = page_used s i.
Proof. done. Qed.

Create Rewrite HintDb pmm.
#[export] Hint Rewrite GET_PAGE_BIT_eq SET_PAGE_BIT_eq CLEAR_PAGE_BIT_eq
  page_used_with_counters page_used_with_cursor : pmm.

(** ** The single-page operations, on every branch *)
Lemma set_page_bit_eq a s :
  set_page_bit a s =
  if ADDR_TO_PAGE a >? total_available_pages (memory s)
  then Panic "set_page_bit: address out of bounds"
  else known ((λ _, mark (ADDR_TO_PAGE a) true s) <$> page_used s (ADDR_TO_PAGE a)).
Proof.
  unfold set_page_bit. case_match; [done|]. autorewrite with pmm.
  destruct (page_used s (ADDR_TO_PAGE a)) eqn:E; [|done]. cbn.
  autorewrite with pmm. by rewrite page_used_mark_eq by eauto.
Qed.

Lemma get_page_bit_eq a s :
  get_page_bit a s =
  if ADDR_TO_PAGE a >? total_available_pages (memory s)
  then Panic "get_page_bit: address out of bounds"
  else known (b2z <$> page_used s (ADDR_TO_PAGE a)).
Proof.
  unfold get_page_bit. case_match; [done|]. autorewrite with pmm.
  by destruct (page_used s (ADDR_TO_PAGE a)) as [[]|].
Qed.

Ltac page_op :=
  intros; autorewrite with pmm;
  rewrite get_page_bit_eq, ?set_page_bit_eq; unfold clear_page_bit;
  destruct (_ >? _); [done|]; autorewrite with pmm;
  destruct (page_used _ (ADDR_TO_PAGE _)) as [[]|]; done.

Lemma reserve_page_eq a s :
  reserve_page a s =
  if ADDR_TO_PAGE a >? total_available_pages (memory s)
  then Panic "get_page_bit: address out of bounds" else
  match page_used s (ADDR_TO_PAGE a) with
  | None => Fault
  | Some true => Panic "Page already reserved!"
  | Some false =>
      Done (with_counters (u64 (free_memory (memory s) - PAGESIZE)) (locked_memory (memory s))
              (u64 (reserved_memory (memory s) + PAGESIZE)) (mark (ADDR_TO_PAGE a) true s))
  end.
Proof. unfold reserve_page. page_op. Qed.

Lemma unreserve_page_eq a s :
  unreserve_page a s =
  if ADDR_TO_PAGE a >? total_available_pages (memory s)
  then Panic "get_page_bit: address out of bounds" else
  match page_used s (ADDR_TO_PAGE a) with
  | None => Fault
  | Some false => Panic "Page not reserved!"
  | Some true =>
      Done (with_counters (u64 (free_memory (memory s) + PAGESIZE)) (locked_memory (memory s))
              (u64 (reserved_memory (memory s) - PAGESIZE)) (mark (ADDR_TO_PAGE a) false s))
  end.
Proof. unfold unreserve_page. page_op. Qed.

Lemma lock_page_eq a s :
  lock_page a s =
  if ADDR_TO_PAGE a >? total_available_pages (memory s)
  then Panic "get_page_bit: address out of bounds" else
  match page_used s (ADDR_TO_PAGE a) with
  | None => Fault
  | Some true => Panic "Page already locked!"
  | Some false =>
      Done (with_counters (u64 (free_memory (memory s) - PAGESIZE))
              (u64 (locked_memory (memory s) + PAGESIZE)) (reserved_memory (memory s))
              (mark (ADDR_TO_PAGE a) true s))
  end.
Proof. unfold lock_page. page_op. Qed.

Lemma unlock_page_eq a s :
  unlock_page a s =
  if ADDR_TO_PAGE a >? total_available_pages (memory s)
  then Panic "get_page_bit: address out of bounds" else
  match page_used s (ADDR_TO_PAGE a) with
  | None => Fault
  | Some false => Panic "Page not locked!"
  | Some true =>
      Done (with_counters (u64 (free_memory (memory s) - PAGESIZE))
              (u64 (locked_memory (memory s) + PAGESIZE)) (reserved_memory (memory s))
              (mark (ADDR_TO_PAGE a) false s))
  end.
Proof. unfold unlock_page. page_op. Qed.

(** ** The search of [request_page] *)
Section Search.
Context (s : pmm) (Hwf : pmm_wf s).
#[local] Abbreviation total := (total_available_pages (memory s)).

Lemma search_step_eq first last :
  search_step s first last =
  match page_used s last with
  | None => Fault
  | Some false => Done (inr last)
  | Some true =>
      let last := if last >=? total then 0 else last in
      if last =? first then Panic "No free pages available!" else Done (inl (u64 (last + 1)))
  end.
Proof. unfold search_step. autorewrite with pmm. by destruct (page_used s last) as [[]|]. Qed.

(** Whatever the search returns is a free page, at most one past the last. *)
Lemma search_sound fuel first last j :
  0 ≤ last ≤ total → loop fuel (search_step s first) last = Done j →
  0 ≤ j ≤ total ∧ page_used s j = Some false.
Proof.
  pose proof (wf_total s Hwf). intros Hl.
  apply (loop_inv (λ l, 0 ≤ l ≤ total) (λ j, 0 ≤ j ≤ total ∧ page_used s j = Some false)); [..|done].
  - intros x y Hx. rewrite search_step_eq. destruct (page_used s x) as [[]|]; try done.
    cbn. intros. repeat case_match; simplify_eq; zbool; unwrap; lia.
  - intros x w Hx. rewrite search_step_eq. destruct (page_used s x) as [[]|] eqn:E; try done.
    + cbn. intros. by repeat case_match.
    + intros. by simplify_eq.
Qed.

(** From the cursor upwards the search stops at the first free page. *)
Lemma search_first_fit fuel first last j :
  0 ≤ last ≤ j → j ≤ total → (first < last ∨ total < first) →
  (∀ i, last ≤ i < j → page_used s i = Some true) → page_used s j = Some false →
  (Z.to_nat (j - last) < fuel)%nat → loop fuel (search_step s first) last = Done j.
Proof.
  pose proof (wf_total s Hwf). revert last.
  induction fuel as [|fuel IH]; intros last Hl Hj Hf Hused Hfree Hfuel; [lia|].
  cbn [loop]. rewrite search_step_eq. destruct (decide (last = j)) as [->|Hne].
  - by rewrite Hfree.
  - rewrite Hused by lia. cbn. destruct (Z.geb_spec last total); [lia|].
    destruct (Z.eqb_spec last first); [lia|]. cbn. unwrap.
    apply IH; try lia; try done. intros; apply Hused; lia.
Qed.

(** With a cursor that is not 0 the fuel is enough: the search finds a page,
    meets [first] and panics, or leaves the bitmap. *)
Lemma search_ends last :
  0 < last ≤ total → loop (search_fuel s) (search_step s (u64 (last - 1))) last ≠ OutOfFuel.
Proof.
  pose proof (wf_total s Hwf). intros Hl. unwrap.
  apply (loop_fuel_enough (λ l, 0 ≤ l ≤ total)
    (λ l, Z.to_nat (if last <=? l then total - l + last + 1 else last - l))).
  - intros x Hx. rewrite search_step_eq. destruct (page_used s x) as [[]|]; try done.
    cbn. by repeat case_match.
  - intros x y Hx. rewrite search_step_eq. destruct (page_used s x) as [[]|]; try done.
    cbn. destruct (Z.geb_spec x total).
    + destruct (Z.eqb_spec 0 (last - 1)); intros; simplify_eq. unwrap.
      split; [lia|]. destruct (Z.leb_spec last (0 + 1)), (Z.leb_spec last x); lia.
    + destruct (Z.eqb_spec x (last - 1)); intros; simplify_eq. unwrap.
      split; [lia|]. destruct (Z.leb_spec last (x + 1)), (Z.leb_spec last x); lia.
  - lia.
  - unfold search_fuel. destruct (Z.leb_spec last last); lia.
Qed.

Lemma search_only_panics fuel first last :
  (∀ i, 0 ≤ i ≤ total → page_used s i = Some true) → 0 ≤ last ≤ total →
  loop fuel (search_step s first) last = Panic "No free pages available!" ∨
  loop fuel (search_step s first) last = OutOfFuel.
Proof.
  pose proof (wf_total s Hwf). intros Hused Hl.
  apply (loop_panics (λ l, 0 ≤ l ≤ total)); [|done].
  intros x Hx. rewrite search_step_eq, Hused by done. cbn.
  destruct (Z.geb_spec x total).
  - case_match; [by right|left; eexists; split; [done|unwrap; lia]].
  - case_match; [by right|left; eexists; split; [done|unwrap; lia]].
Qed.

(** With the cursor at 0 and every bit set the search never meets [first]. *)
Lemma search_diverges fuel last :
  (∀ i, 0 ≤ i ≤ total → page_used s i = Some true) → 0 ≤ last ≤ total →
  loop fuel (search_step s (u64 (0 - 1))) last = OutOfFuel.
Proof.
  pose proof (wf_total s Hwf). change (u64 (0 - 1)) with (2 ^ 64 - 1).
  intros Hused. revert last.
  induction fuel as [|fuel IH]; intros last Hl; [done|]. cbn [loop].
  rewrite search_step_eq, Hused by done. cbn.
  destruct (Z.geb_spec last total).
  - cbn. apply IH. unwrap. lia.
  - destruct (Z.eqb_spec last (2 ^ 64 - 1)); [lia|]. cbn. unwrap. apply IH. lia.
Qed.
End Search.

(** ** [request_page] and [free_page] *)

(** The state after page [i] has been handed out. *)
Definition allocated (i : Z) (s : pmm) : pmm :=
  with_cursor i (u64 (statistics_requested s + 1))
    (with_counters (u64 (free_memory (memory s) - PAGESIZE))
       (u64 (locked_memory (memory s) + PAGESIZE)) (reserved_memory (memory s))
       (mark i true s)).

(** The state after page [i] has been given back. *)
Definition released (i : Z) (s : pmm) : pmm :=
  with_counters (u64 (free_memory (memory s) - PAGESIZE))
    (u64 (locked_memory (memory s) + PAGESIZE)) (reserved_memory (memory s))
    (mark i false s).

Definition page_addr (s : pmm) (i : Z) : Z :=
  first_available_page_addr (memory s) + i * PAGESIZE.

Lemma mark_bytes i v s k b :
  pmm_wf s → bits (mark i v s) !! k = Some b → 0 ≤ b < 2 ^ 8.
Proof.
  intros Hwf. unfold mark, with_bits. cbn [bits]. pose proof (mod8_range i).
  rewrite lookup_insert. case_decide; [|apply Hwf]. intros [= <-].
  assert (0 ≤ default 0 (bits s !! Z.shiftr i 3) < 2 ^ 8).
  { destruct (bits s !! Z.shiftr i 3) as [c|] eqn:E; cbn; [|lia]. by eapply wf_bytes. }
  destruct v; auto with machine.
Qed.

Lemma pmm_wf_mark i v s l st f lk r :
  pmm_wf s → is_Some (page_used s i) → 0 ≤ l ≤ total_available_pages (memory s) →
  pmm_wf (with_cursor l st (with_counters f lk r (mark i v s))).
Proof.
  intros Hwf Hi Hl. constructor; cbn; try apply Hwf; try done.
  - intros k b. by apply mark_bytes.
  - intros j Hj. autorewrite with pmm. rewrite page_used_mark by done.
    case_decide; [done|]. by apply Hwf.
Qed.

Lemma allocated_wf i s :
  pmm_wf s → 0 ≤ i ≤ total_available_pages (memory s) → is_Some (page_used s i) →
  pmm_wf (allocated i s).
Proof. intros. by apply pmm_wf_mark. Qed.

Lemma released_wf i s : pmm_wf s → is_Some (page_used s i) → pmm_wf (released i s).
Proof.
  intros Hwf Hi. pose proof (wf_cursor s Hwf).
  apply (pmm_wf_mark i false s (last_requested s) (statistics_requested s)); done.
Qed.

Lemma page_used_allocated i j s :
  is_Some (page_used s i) →
  page_used (allocated i s) j = if decide (j = i) then Some true else page_used s j.
Proof. intros. unfold allocated. autorewrite with pmm. by apply page_used_mark. Qed.

Lemma page_used_released i j s :
  is_Some (page_used s i) →
  page_used (released i s) j = if decide (j = i) then Some false else page_used s j.
Proof. intros. unfold released. autorewrite with pmm. by apply page_used_mark. Qed.

Lemma page_addr_u64 s i :
  pmm_wf s → 0 ≤ i ≤ total_available_pages (memory s) →
  u64 (first_available_page_addr (memory s) + u64 (Z.shiftl i 12)) = page_addr s i
  ∧ 0 ≤ i * PAGESIZE < 2 ^ 64.
Proof.
  intros [? ? Hl Hsp _ _ _] Hi. rewrite shiftl12. unfold page_addr, PAGESIZE in *.
  rewrite (u64_small (i * 0x1000)), u64_small by lia. lia.
Qed.

(** Once the search has found page [i] the request succeeds with it. *)
Lemma request_page_found s i :
  pmm_wf s → 0 ≤ i ≤ total_available_pages (memory s) → page_used s i = Some false →
  loop (search_fuel s) (search_step s (u64 (last_requested s - 1))) (last_requested s) = Done i →
  request_page s = Done (page_addr s i, allocated i s).
Proof.
  intros Hwf Hi Hfree Hloop. unfold request_page. rewrite Hloop. cbn [mbind outcome_bind].
  destruct (page_addr_u64 s i) as [Ha Hr]; [done..|].
  rewrite lock_page_eq, shiftl12, (u64_small (i * PAGESIZE)), ADDR_TO_PAGE_shift by done. cbn [memory with_cursor].
  destruct (Z.gtb_spec i (total_available_pages (memory s))); [lia|].
  autorewrite with pmm. rewrite Hfree. cbn [mbind outcome_bind].
  rewrite GET_PAGE_BIT_eq, page_used_with_counters, page_used_mark_eq by (rewrite page_used_with_cursor; eauto).
  rewrite shiftl12, (u64_small (i * PAGESIZE)) in Ha by done. cbn -[PAGESIZE]. by rewrite Ha.
Qed.

Lemma request_page_inv s p s' :
  pmm_wf s → request_page s = Done (p, s') →
  ∃ i, 0 ≤ i ≤ total_available_pages (memory s) ∧ page_used s i = Some false ∧
       p = page_addr s i ∧ s' = allocated i s.
Proof.
  intros Hwf Hrun. pose proof Hrun as Hrun'. unfold request_page in Hrun.
  apply bind_done_inv in Hrun as (i & Hloop & _).
  destruct (search_sound s Hwf _ _ _ _ (wf_cursor s Hwf) Hloop) as [Hi Hfree].
  rewrite (request_page_found s i) in Hrun' by done. simplify_eq. eauto.
Qed.

Lemma free_page_eq s i :
  pmm_wf s → 0 ≤ i ≤ total_available_pages (memory s) → page_used s i = Some true →
  free_page (page_addr s i) s = Done (released i s).
Proof.
  intros Hwf Hi Hused. destruct (page_addr_u64 s i) as [Ha Hr]; [done..|].
  unfold free_page, page_addr.
  replace (first_available_page_addr (memory s) + i * PAGESIZE -
           first_available_page_addr (memory s)) with (i * PAGESIZE) by lia.
  rewrite (u64_small (i * PAGESIZE)) by done.
  destruct (Z.ltb_spec (first_available_page_addr (memory s) + i * PAGESIZE)
                       (first_available_page_addr (memory s))); [lia|].
  change (Z.shiftr (i * PAGESIZE) 12) with (ADDR_TO_PAGE (i * PAGESIZE)).
  rewrite unlock_page_eq, ADDR_TO_PAGE_shift. autorewrite with pmm.
  destruct (Z.gtb_spec i (total_available_pages (memory s))); [lia|].
  rewrite Hused. cbn [fmap option_fmap option_map known mbind outcome_bind b2z].
  cbn -[released]. autorewrite with pmm.
  by rewrite page_used_mark_eq by eauto.
Qed.

(** ** What the allocator promises *)

(** a successful [request_page] returns the address of a page that was free,
    marks that page and no other, moves the cursor to it, charges one page from
    free to locked memory, and leaves the allocator well-formed. *)
Theorem request_page_spec s p s' :
  pmm_wf s → request_page s = Done (p, s') →
  ∃ i, 0 ≤ i ≤ total_available_pages (memory s) ∧ p = page_addr s i ∧
       page_used s i = Some false ∧
       (∀ j, page_used s' j = if decide (j = i) then Some true else page_used s j) ∧
       last_requested s' = i ∧
       free_memory (memory s') = u64 (free_memory (memory s) - PAGESIZE) ∧
       locked_memory (memory s') = u64 (locked_memory (memory s) + PAGESIZE) ∧
       pmm_wf s'.
Proof.
  intros Hwf Hrun. destruct (request_page_inv s p s' Hwf Hrun) as (i & Hi & Hf & -> & ->).
  exists i. split_and!; try (done || lia).
  - intros j. by apply page_used_allocated.
  - by apply allocated_wf.
Qed.

(** C37: as long as some page at or above the cursor is free, [request_page]
    returns, and it returns the first such page (first fit from the cursor). *)
Theorem request_page_first_fit s j :
  pmm_wf s → last_requested s ≤ j < total_available_pages (memory s) →
  page_used s j = Some false →
  (∀ i, last_requested s ≤ i < j → page_used s i = Some true) →
  request_page s = Done (page_addr s j, allocated j s).
Proof.
  intros Hwf Hj Hfree Hused. pose proof (wf_cursor s Hwf). pose proof (wf_total s Hwf).
  apply request_page_found; [done|lia|done|].
  apply search_first_fit; try done; try lia.
  - destruct (decide (last_requested s = 0)) as [->|].
    + right. change (u64 (0 - 1)) with (2 ^ 64 - 1). lia.
    + left. unwrap. lia.
  - unfold search_fuel. lia.
Qed.

(** when every page from the cursor to the end is taken and the bitmap byte
    after the last page reads clear, [request_page] hands out the frame that
    starts at [last_available_page_address], outside the managed range. *)
Theorem request_page_past_end s :
  pmm_wf s →
  (∀ i, last_requested s ≤ i < total_available_pages (memory s) → page_used s i = Some true) →
  page_used s (total_available_pages (memory s)) = Some false →
  ∃ s', request_page s = Done (last_available_page_address (memory s), s').
Proof.
  intros Hwf Hused Hend. pose proof (wf_cursor s Hwf). pose proof (wf_total s Hwf).
  eexists. rewrite (wf_last s Hwf).
  apply (request_page_found s (total_available_pages (memory s))); [done|lia|done|].
  apply search_first_fit; try done; try lia.
  - destruct (decide (last_requested s = 0)) as [->|].
    + right. change (u64 (0 - 1)) with (2 ^ 64 - 1). lia.
    + left. unwrap. lia.
  - unfold search_fuel. lia.
Qed.

(** when every bit is set, the outcome depends on the cursor: from a non-zero
    cursor the search ends and the kernel panics, from cursor 0 no amount of
    fuel ends the loop, because [first] is then 2^64-1 and is never met. *)
Theorem request_page_exhausted s :
  pmm_wf s →
  (∀ i, 0 ≤ i ≤ total_available_pages (memory s) → page_used s i = Some true) →
  (last_requested s ≠ 0 → request_page s = Panic "No free pages available!") ∧
  (last_requested s = 0 → ∀ fuel,
     loop fuel (search_step s (u64 (last_requested s - 1))) (last_requested s) = OutOfFuel).
Proof.
  intros Hwf Hall. pose proof (wf_cursor s Hwf) as Hc. split.
  - intros Hne. unfold request_page.
    pose proof (search_ends s Hwf (last_requested s) ltac:(lia)) as Hend.
    destruct (search_only_panics s Hwf (search_fuel s) (u64 (last_requested s - 1))
                (last_requested s)) as [->|?]; done.
  - intros E fuel. rewrite E in *. apply search_diverges; [done|done|lia].
Qed.

(** A client of the allocator: pages it has been given and has not given back. *)
Inductive client_step : pmm * gset Z → pmm * gset Z → Prop :=
| client_request s live p s' :
    request_page s = Done (p, s') → client_step (s, live) (s', {[p]} ∪ live)
| client_free s live p s' :
    p ∈ live → free_page p s = Done s' → client_step (s, live) (s', live ∖ {[p]}).

Definition client_inv (x : pmm * gset Z) : Prop :=
  pmm_wf x.1 ∧
  ∀ p, p ∈ x.2 → ∃ i, 0 ≤ i ≤ total_available_pages (memory x.1) ∧
                      p = page_addr x.1 i ∧ page_used x.1 i = Some true.

Lemma page_addr_inj s i j : page_addr s i = page_addr s j → i = j.
Proof. unfold page_addr, PAGESIZE. lia. Qed.

Lemma client_inv_step x y : client_inv x → client_step x y → client_inv y.
Proof.
  intros [Hwf Hlive] Hstep. destruct Hstep as [s live p s' Hr|s live p s' Hp Hr]; cbn in *.
  - destruct (request_page_inv s p s' Hwf Hr) as (i & Hi & Hf & -> & ->).
    split; [by apply allocated_wf|]. intros q. cbn -[PAGESIZE]. rewrite elem_of_union, elem_of_singleton.
    intros [->|Hq]; [exists i|destruct (Hlive q Hq) as (j & Hj & -> & Hu); exists j];
      rewrite page_used_allocated by eauto; split_and!; try (done || lia);
      case_decide; subst; done.
  - destruct (Hlive p Hp) as (i & Hi & -> & Hu).
    rewrite (free_page_eq s i) in Hr by done. simplify_eq.
    split; [by apply released_wf|]. intros q. cbn -[PAGESIZE]. rewrite elem_of_difference, elem_of_singleton.
    intros [Hq Hne]. destruct (Hlive q Hq) as (j & Hj & -> & Hu'). exists j.
    rewrite page_used_released by eauto. split_and!; try (done || lia).
    case_decide; subst; done.
Qed.

(** C11: over every interleaving of requests and frees from a well-formed state, the
    page the next request returns is not one the client still holds. *)
Theorem request_page_exclusive s0 s live p s' :
  pmm_wf s0 → rtc client_step (s0, ∅) (s, live) → request_page s = Done (p, s') → p ∉ live.
Proof.
  intros Hwf Hreach Hr Hin.
  assert (client_inv (s, live)) as [Hwf' Hlive].
  { eapply (rtc_ind_r client_inv); [| |exact Hreach].
    - split; [done|]. set_solver.
    - intros. by eapply client_inv_step. }
  destruct (request_page_inv s p s' Hwf' Hr) as (i & Hi & Hf & -> & ->).
  destruct (Hlive _ Hin) as (j & _ & Hij & Hu). apply page_addr_inj in Hij as ->. cbn in Hu. congruence.
Qed.

(** giving a page back restores the bitmap but not the accounting: after a
    request and the matching free, [free_memory] is two pages lower and
    [locked_memory] two pages higher than before. *)
Theorem request_free_accounting s p s1 :
  pmm_wf s → 2 * PAGESIZE ≤ free_memory (memory s) < 2 ^ 64 →
  0 ≤ locked_memory (memory s) < 2 ^ 63 →
  request_page s = Done (p, s1) →
  ∃ s2, free_page p s1 = Done s2 ∧
        (∀ i, page_used s2 i = page_used s i) ∧
        free_memory (memory s2) = free_memory (memory s) - 2 * PAGESIZE ∧
        locked_memory (memory s2) = locked_memory (memory s) + 2 * PAGESIZE.
Proof.
  intros Hwf Hf Hl Hr. destruct (request_page_inv s p s1 Hwf Hr) as (i & Hi & Hfree & -> & ->).
  exists (released i (allocated i s)).
  assert (page_used (allocated i s) i = Some true) as Hu.
  { rewrite page_used_allocated by eauto. by case_decide. }
  split_and!.
  - apply (free_page_eq (allocated i s) i); [by apply allocated_wf|done..].
  - intros j. rewrite page_used_released by eauto. rewrite page_used_allocated by eauto.
    case_decide; subst; done.
  - cbn. unfold PAGESIZE in *. unwrap. lia.
  - cbn. unfold PAGESIZE in *. unwrap. lia.
Qed.

(** [request_contiguous_pages] locks the run of pages that starts at its
    cursor but returns the address of the page before it (it keeps
    [last_requested - 1] from before the search): the address the caller gets is
    that of a page the call did not lock. *)
Theorem request_contiguous_wrong_base s num :
  pmm_wf s → 0 < num → 0 < contiguous_last_requested s →
  contiguous_last_requested s + num ≤ total_available_pages (memory s) →
  (∀ i, contiguous_last_requested s ≤ i < contiguous_last_requested s + num →
        page_used s i = Some false) →
  ∃ s', request_contiguous_pages num s =
          Done (page_addr s (contiguous_last_requested s - 1), s') ∧
        ∀ i, page_used s' i =
             if decide (contiguous_last_requested s ≤ i < contiguous_last_requested s + num)
             then Some true else page_used s i.
Proof.
  intros Hwf Hn Hc Hle Hfree. pose proof (wf_total s Hwf).
  set (c := contiguous_last_requested s) in *. unfold request_contiguous_pages. fold c.
  rewrite (search_first_fit s Hwf _ _ c c); [|lia|lia|unwrap; lia|intros; lia|apply Hfree; lia|unfold search_fuel; lia].
  cbn [mbind outcome_bind]. fold c.
  edestruct (for_up_total (λ k x,
      contiguous_last_requested x = c + k ∧
      total_available_pages (memory x) = total_available_pages (memory s) ∧
      first_available_page_addr (memory x) = first_available_page_addr (memory s) ∧
      ∀ i, page_used x i = if decide (c ≤ i < c + k) then Some true else page_used s i)
    (Z.to_nat num) 0) as (x & Hx & _ & _ & Hfirst & Hpages); [| |rewrite Hx; cbn [mbind outcome_bind]].
  - intros k x Hk (Hcur & Ht & Hf & Hp). rewrite Hcur, GET_PAGE_BIT_eq, Hp.
    rewrite decide_False by lia. rewrite Hfree by lia. cbn -[PAGESIZE lock_page].
    rewrite lock_page_eq, shiftl12, u64_small by (unfold PAGESIZE; lia).
    rewrite ADDR_TO_PAGE_shift, Ht. destruct (Z.gtb_spec (c + k) (total_available_pages (memory s))); [lia|].
    rewrite Hp, decide_False, Hfree by lia. cbn -[PAGESIZE]. eexists. split; [done|].
    cbn -[PAGESIZE]. rewrite Hcur. split_and!; try done; [unwrap; lia|].
    intros i. change (page_used (mark (c + k) true x) i = if decide (c ≤ i < c + (k + 1)) then Some true else page_used s i).
    rewrite page_used_mark by (rewrite Hp, decide_False, Hfree by lia; done). rewrite Hp.
    repeat case_decide; try done; lia.
  - cbn. split_and!; try done; [lia|]. intros i. rewrite decide_False by lia. done.
  - eexists. split.
    + f_equal. f_equal. cbn -[PAGESIZE Z.shiftl]. rewrite Hfirst.
      rewrite (u64_small (c - 1)) by lia. apply page_addr_u64; [done|lia].
    + intros i. change (page_used x i = if decide (c ≤ i < c + num) then Some true else page_used s i).
      rewrite Hpages, Z2Nat.id by lia. done.
Qed.

(** ** Start-up *)
Lemma ALIGN_ADDR_eq x :
  0 ≤ x → x + PAGESIZE < 2 ^ 64 → ALIGN_ADDR x = (x + (PAGESIZE - 1)) / PAGESIZE * PAGESIZE.
Proof.
  intros Hx Hlt. unfold ALIGN_ADDR, PAGESIZE in *. rewrite Z.land_comm.
  change (0x1000 - 1) with (Z.ones 12). rewrite Z.land_ones by lia.
  rewrite <- Z.ldiff_land, Z.ldiff_ones_r by lia. unwrap.
  rewrite Z.shiftl_mul_pow2, Z.shiftr_div_pow2 by lia. change (2 ^ 12) with 4096.
  change (Z.ones 12) with 4095. destruct (Z.eqb_spec (x mod 4096) 0); cbn [negb]; dlia.
Qed.

Lemma IS_ALIGNED_eq x : IS_ALIGNED x = (x mod PAGESIZE =? 0).
Proof.
  unfold IS_ALIGNED, PAGESIZE. change (0x1000 - 1) with (Z.ones 12).
  by rewrite Z.land_ones by lia.
Qed.

Lemma init_memory_cb_fold mmap c0 :
  let c := iterate_memory init_memory_cb c0 mmap in
  chunk_size c0 ≤ chunk_size c ∧
  (∀ e, e ∈ mmap → mm_type e = MEMMAP_USABLE → mm_length e ≤ chunk_size c) ∧
  (c = c0 ∨ ∃ e, e ∈ mmap ∧ mm_type e = MEMMAP_USABLE ∧
                 c = {| chunk_addr := mm_base e; chunk_size := mm_length e |}).
Proof.
  cbn. unfold iterate_memory. revert c0. induction mmap as [|e mmap IH]; intros c0; cbn.
  - split_and!; [lia|set_solver|by left].
  - destruct (IH (init_memory_cb c0 e)) as (Hmon & Hmax & Hin).
    assert (chunk_size c0 ≤ chunk_size (init_memory_cb c0 e) ∧
            (mm_type e = MEMMAP_USABLE → mm_length e ≤ chunk_size (init_memory_cb c0 e)) ∧
            (init_memory_cb c0 e = c0 ∨ mm_type e = MEMMAP_USABLE ∧
               init_memory_cb c0 e = {| chunk_addr := mm_base e; chunk_size := mm_length e |}))
      as (H1 & H2 & H3).
    { unfold init_memory_cb. destruct (Z.eqb_spec (mm_type e) MEMMAP_USABLE);
        [destruct (Z.gtb_spec (mm_length e) (chunk_size c0))|]; cbn;
        split_and!; (lia || tauto). }
    split_and!.
    + lia.
    + intros e' [->|He']%elem_of_cons Ht; [specialize (H2 Ht); lia|by apply Hmax].
    + destruct Hin as [Hc|(e' & He' & Ht & Hc)].
      * rewrite Hc. destruct H3 as [?|[? ?]]; [by left|right; exists e].
        split_and!; [left|done|done].
      * right. exists e'. split_and!; [by right|done|done].
Qed.

Lemma bitmap_self_test_ok s :
  (∀ k, 0 ≤ k < 100 → bits s !! k = Some 0x55) → bitmap_self_test s = Done s.
Proof.
  intros Hb. unfold bitmap_self_test.
  edestruct (for_up_total (λ _ x, x = s) 100 0) as (s' & -> & ->); [|done|done].
  intros i ? Hi ->. cbn beta.
  edestruct (for_up_total (λ _ x, x = s) 8 0) as (s' & -> & ->); [|done|by eexists].
  intros j ? Hj ->. exists s. split; [|done]. cbn beta.
  rewrite GET_PAGE_BIT_eq. unfold page_used.
  replace (Z.shiftr (i * 8 + j) 3) with i
    by (rewrite Z.shiftr_div_pow2 by lia; change (2 ^ 3) with 8; dlia).
  replace ((i * 8 + j) mod 8) with j by dlia.
  rewrite Hb by lia.
  assert (j = 0 ∨ j = 1 ∨ j = 2 ∨ j = 3 ∨ j = 4 ∨ j = 5 ∨ j = 6 ∨ j = 7) as Hc by lia.
  by destruct_or! Hc; subst j.
Qed.

(** Reserving the first [n] free pages takes exactly those. *)
Lemma reserve_pages_prefix s n :
  0 ≤ n ≤ total_available_pages (memory s) → total_available_pages (memory s) < 2 ^ 51 →
  (∀ i, 0 ≤ i < n → page_used s i = Some false) →
  (∀ k b, bits s !! k = Some b → 0 ≤ b < 2 ^ 8) →
  n * PAGESIZE ≤ free_memory (memory s) < 2 ^ 64 → reserved_memory (memory s) = 0 →
  ∃ s', reserve_pages 0 n s = Done s' ∧
    (∀ i, page_used s' i = if decide (0 ≤ i < n) then Some true else page_used s i) ∧
    (∀ k b, bits s' !! k = Some b → 0 ≤ b < 2 ^ 8) ∧
    s' = with_counters (free_memory (memory s) - n * PAGESIZE) (locked_memory (memory s))
           (n * PAGESIZE) (with_bits (bits s') s).
Proof.
  intros Hn HT Hfree Hbytes Hf Hr. unfold reserve_pages. change (s64 0 <? 0) with false. cbn [negb].
  edestruct (for_up_total (λ k x,
      (∀ i, page_used x i = if decide (0 ≤ i < k) then Some true else page_used s i) ∧
      (∀ j b, bits x !! j = Some b → 0 ≤ b < 2 ^ 8) ∧
      x = with_counters (free_memory (memory s) - k * PAGESIZE) (locked_memory (memory s))
            (k * PAGESIZE) (with_bits (bits x) s)) (Z.to_nat n) 0)
    as (x & -> & Hp & Hb & Hx); [| |exists x; rewrite Z.add_0_l, Z2Nat.id in Hx, Hp by lia; done].
  - intros k x Hk (Hp & Hb & Hx). rewrite Z.add_0_l, shiftl12.
    rewrite !(u64_small (k * PAGESIZE)) by (unfold PAGESIZE in *; lia).
    rewrite reserve_page_eq, ADDR_TO_PAGE_shift.
    assert (memory x = memory (with_counters (free_memory (memory s) - k * PAGESIZE)
      (locked_memory (memory s)) (k * PAGESIZE) (with_bits (bits x) s))) as Hm by (by rewrite <- Hx).
    rewrite Hm. cbn [memory with_counters with_bits total_available_pages free_memory locked_memory reserved_memory].
    destruct (Z.gtb_spec k (total_available_pages (memory s))); [lia|].
    rewrite Hp, decide_False, Hfree by lia. eexists. split; [done|].
    assert (is_Some (page_used x k)) by (rewrite Hp, decide_False, Hfree by lia; done).
    split_and!.
    + intros i. autorewrite with pmm. rewrite page_used_mark, Hp by done.
      repeat case_decide; try done; lia.
    + intros j b. unfold mark, with_bits. cbn [bits with_counters]. rewrite lookup_insert.
      pose proof (mod8_range k). case_decide; [|apply Hb]. intros [= <-].
      apply setbit_range; [lia|]. destruct (bits x !! Z.shiftr k 3) eqn:E; cbn; [by eapply Hb|lia].
    + rewrite Hx at 1. unfold with_counters, with_bits, mark. cbn -[PAGESIZE].
      f_equal. f_equal; unfold PAGESIZE in *; unwrap; lia.
  - cbn -[PAGESIZE]. split_and!; [|done|].
    + intros i. by rewrite decide_False by lia.
    + destruct s as [? [] ? ? ? ? ?]. unfold with_counters, with_bits. cbn in *. f_equal. f_equal; lia.
Qed.

(** The geometry [init_memory] derives from the chunk it manages. *)
Lemma chunk_geometry a z :
  0 ≤ a → 0x4000 ≤ z → a + z + 2 * PAGESIZE ≤ 2 ^ 63 →
  let first := ALIGN_ADDR a in
  let last := ALIGN_ADDR (a + z) in
  let pages := (last - first) / PAGESIZE in
  let entries := (pages + 7) / 8 in
  let used := (entries + sizeof_system_memory + 3 * PAGESIZE) / PAGESIZE in
  a ≤ first < a + PAGESIZE ∧ first mod PAGESIZE = 0 ∧
  last = first + pages * PAGESIZE ∧ a + z ≤ last < a + z + PAGESIZE ∧
  0 < pages < 2 ^ 51 ∧ 0 < used ≤ pages ∧
  ALIGN_ADDR (first + 8) = first + PAGESIZE ∧
  first + PAGESIZE + entries ≤ first + used * PAGESIZE ∧
  entries + sizeof_system_memory + 3 * PAGESIZE ≤ z.
Proof.
  intros Ha Hz Hs. cbn zeta. unfold sizeof_system_memory.
  assert (0 ≤ ALIGN_ADDR a < a + PAGESIZE) as [Hf1 Hf2].
  { rewrite ALIGN_ADDR_eq by (unfold PAGESIZE in *; lia). unfold PAGESIZE in *. dlia. }
  rewrite (ALIGN_ADDR_eq (ALIGN_ADDR a + 8)), (ALIGN_ADDR_eq (a + z)) by (unfold PAGESIZE in *; lia).
  rewrite (ALIGN_ADDR_eq a) by (unfold PAGESIZE in *; lia).
  unfold PAGESIZE in *. change (0x1000 - 1) with 4095. change 0x1000 with 4096 in *.
  set (q := (a + 4095) / 4096). set (r := (a + z + 4095) / 4096).
  assert (4096 * q ≤ a + 4095 < 4096 * q + 4096) by (unfold q; dlia).
  assert (4096 * r ≤ a + z + 4095 < 4096 * r + 4096) by (unfold r; dlia).
  replace (r * 4096 - q * 4096) with ((r - q) * 4096) by lia. rewrite Z.div_mul by lia.
  clearbody q r. split_and!; try dlia.
Qed.

(** The state [init_memory] builds before it reserves its own pages. *)
Definition fresh_pmm (total first pages entries : Z) (s : pmm) : pmm :=
  {| memory_ptr := first;
     memory :=
       {| total_available_pages := pages;
          first_available_page_addr := first;
          last_available_page_address := first + pages * PAGESIZE;
          total_memory := total;
          total_pages := Z.shiftr total 12;
          bitfield := first + PAGESIZE;
          free_memory := pages * PAGESIZE;
          locked_memory := 0;
          reserved_memory := 0 |};
     bits := fill (fill (bits s) 0 0x55 100) 0 0 (Z.to_nat entries);
     last_requested := last_requested s;
     statistics_requested := statistics_requested s;
     contiguous_last_requested := contiguous_last_requested s;
     contiguous_statistics_requested := contiguous_statistics_requested s |}.

Definition no_chunk : chunk_data := {| chunk_addr := 0; chunk_size := 0 |}.

Lemma init_memory_unfold mmap st s (c := iterate_memory init_memory_cb no_chunk mmap)
    (first := ALIGN_ADDR (chunk_addr c))
    (pages := (ALIGN_ADDR (chunk_addr c + chunk_size c) - first) / PAGESIZE)
    (entries := (pages + 7) / 8)
    (used := (entries + sizeof_system_memory + 3 * PAGESIZE) / PAGESIZE) :
  biggest_avail_chunk st = no_chunk →
  0 ≤ chunk_addr c → 0x4000 ≤ chunk_size c →
  chunk_addr c + chunk_size c + 2 * PAGESIZE ≤ 2 ^ 63 →
  ∃ total st', biggest_avail_chunk st' = c ∧
    init_memory mmap st s =
    (s' ← reserve_pages 0 used (fresh_pmm total first pages entries s); Done (1, st', s')).
Proof.
  intros Hst Ha Hz Hs. unfold init_memory.
  rewrite Hst. cbn [chunk_size no_chunk]. change (0 >? 0) with false. cbn match.
  destruct (get_total_memory mmap st) as [total st1] eqn:Etot.
  assert (biggest_avail_chunk st1 = no_chunk) as ->.
  { unfold get_total_memory in Etot. case_match; by simplify_eq. }
  fold c. destruct (chunk_geometry (chunk_addr c) (chunk_size c)) as
    (Hf & Hfa & Hl & Hla & Hp & Hu & Hbf & Hin & Hsz); [done..|].
  fold first in Hf, Hfa, Hl, Hla, Hp, Hu, Hbf, Hin, Hsz |- *.
  fold pages in Hl, Hp, Hu, Hin, Hsz. fold entries in Hu, Hin, Hsz. fold used in Hu, Hin.
  rewrite (u64_small (chunk_addr c + chunk_size c)) by (unfold PAGESIZE in *; lia).
  rewrite (u64_small (_ - first)), (u64_small (first + 8)) by (unfold PAGESIZE in *; lia).
  rewrite Hbf, Hl. replace (first + pages * PAGESIZE - first) with (pages * PAGESIZE) by lia.
  change (Z.shiftr (pages * PAGESIZE) 12) with (ADDR_TO_PAGE (pages * PAGESIZE)).
  rewrite ADDR_TO_PAGE_shift, !(Z.shiftr_div_pow2 pages 3) by lia. change (2 ^ 3) with 8.
  replace (if pages mod 8 =? 0 then pages / 8 else pages / 8 + 1) with entries
    by (unfold entries; destruct (Z.eqb_spec (pages mod 8) 0); dlia).
  change (Z.shiftl 3 12) with (3 * PAGESIZE).
  destruct (Z.ltb_spec (chunk_size c) (entries + sizeof_system_memory + 3 * PAGESIZE)); [lia|].
  rewrite bitmap_self_test_ok
    by (intros k Hk; cbn [bits with_bits]; by rewrite lookup_fill, decide_True by lia).
  cbn [mbind outcome_bind bits with_bits memory_ptr memory bitfield first_available_page_addr].
  rewrite !IS_ALIGNED_eq.
  replace ((first + PAGESIZE) mod PAGESIZE) with 0 by (unfold PAGESIZE in *; dlia).
  rewrite Hfa. cbn [negb orb Z.eqb]. rewrite Z.shiftr_div_pow2 by lia.
  eexists _, _. split; [|reflexivity]. done.
Qed.

Lemma fresh_pmm_bytes total first pages entries s k b :
  (∀ k b, bits s !! k = Some b → 0 ≤ b < 2 ^ 8) →
  bits (fresh_pmm total first pages entries s) !! k = Some b → 0 ≤ b < 2 ^ 8.
Proof.
  intros Hb. cbn [bits fresh_pmm]. rewrite !lookup_fill.
  repeat case_decide; intros; simplify_eq; try lia. by eapply Hb.
Qed.

Lemma fresh_pmm_page total first pages entries s i :
  0 ≤ i < pages → pages ≤ 8 * entries →
  page_used (fresh_pmm total first pages entries s) i = Some false.
Proof.
  intros Hi He. unfold page_used. cbn [bits fresh_pmm].
  rewrite lookup_fill, decide_True; [cbn; f_equal; apply Z.testbit_0_l|].
  rewrite Z.shiftr_div_pow2 by lia. change (2 ^ 3) with 8. dlia.
Qed.


(** ** Concrete states: twelve pages at 1 MiB and a two-byte bitmap *)
Definition demo (b0 b1 cur : Z) : pmm :=
  {| memory_ptr := 0x100000;
     memory :=
       {| total_available_pages := 12;
          first_available_page_addr := 0x100000;
          last_available_page_address := 0x10c000;
          total_memory := 0x200000;
          total_pages := 0x200;
          bitfield := 0x101000;
          free_memory := 8 * PAGESIZE;
          locked_memory := 0;
          reserved_memory := 4 * PAGESIZE |};
     bits := <[0 := b0]> (<[1 := b1]> ∅);
     last_requested := cur;
     statistics_requested := 0;
     contiguous_last_requested := cur;
     contiguous_statistics_requested := 0 |}.

Lemma demo_wf b0 b1 cur :
  0 ≤ b0 < 2 ^ 8 → 0 ≤ b1 < 2 ^ 8 → 0 ≤ cur ≤ 12 → pmm_wf (demo b0 b1 cur).
Proof.
  intros H0 H1 Hc. constructor; cbn -[insert lookup page_used]; try done.
  - intros k b. rewrite !lookup_insert. repeat case_decide; intros; simplify_eq; done.
  - intros i Hi. unfold page_used, demo. cbn [bits].
    assert (Z.shiftr i 3 = 0 ∨ Z.shiftr i 3 = 1) as [->| ->]
      by (rewrite Z.shiftr_div_pow2 by lia; change (2 ^ 3) with 8; dlia); by eexists.
Qed.

(** Checks a property of every page index below a bound by computation. *)
Lemma range_check (P : Z → bool) lo hi :
  forallb P (seqZ lo (hi - lo)) = true → ∀ i, lo ≤ i < hi → P i = true.
Proof.
  intros H i Hi. rewrite forallb_forall in H. apply H, list_elem_of_In, elem_of_seqZ. lia.
Qed.

Ltac pages_by_compute :=
  intros i Hi; apply (bool_decide_eq_true_1 (page_used _ i = _));
  revert i Hi; apply (range_check (λ i, bool_decide (page_used _ i = _))); vm_compute; reflexivity.

Lemma request_page_spec_witness :
  ∃ i, 0 ≤ i ≤ 12 ∧ page_addr (demo 0x0f 0 0) 4 = page_addr (demo 0x0f 0 0) i ∧
       page_used (demo 0x0f 0 0) i = Some false.
Proof.
  destruct (request_page_spec (demo 0x0f 0 0) (page_addr (demo 0x0f 0 0) 4)
              (allocated 4 (demo 0x0f 0 0))) as (i & Hi & Hp & Hu & _).
  - apply demo_wf; lia.
  - vm_compute. reflexivity.
  - exists i. exact (conj Hi (conj Hp Hu)).
Defined.

Lemma request_page_first_fit_witness :
  request_page (demo 0x2f 0 2) = Done (0x104000, allocated 4 (demo 0x2f 0 2)).
Proof.
  apply (request_page_first_fit (demo 0x2f 0 2) 4).
  - apply demo_wf; lia.
  - cbn. lia.
  - vm_compute. reflexivity.
  - cbn [last_requested demo]. pages_by_compute.
Defined.

Lemma request_page_past_end_witness :
  ∃ s', request_page (demo 0xff 0x0f 4) = Done (0x10c000, s').
Proof.
  apply (request_page_past_end (demo 0xff 0x0f 4)).
  - apply demo_wf; lia.
  - cbn [last_requested memory total_available_pages demo]. pages_by_compute.
  - vm_compute. reflexivity.
Defined.

Lemma request_page_exhausted_witness :
  request_page (demo 0xff 0xff 4) = Panic "No free pages available!".
Proof.
  apply (request_page_exhausted (demo 0xff 0xff 4)).
  - apply demo_wf; lia.
  - cbn [memory total_available_pages demo]. intros i Hi. assert (0 ≤ i < 13) as Hi' by lia.
    clear Hi. revert i Hi'. pages_by_compute.
  - cbn. lia.
Defined.

Lemma request_page_exclusive_witness :
  page_addr (demo 0x0f 0 0) 5 ∉ ({[page_addr (demo 0x0f 0 0) 4]} ∪ ∅ : gset Z).
Proof.
  apply (request_page_exclusive (demo 0x0f 0 0) (allocated 4 (demo 0x0f 0 0)) _
           (page_addr (demo 0x0f 0 0) 5) (allocated 5 (allocated 4 (demo 0x0f 0 0)))).
  - apply demo_wf; lia.
  - apply rtc_once. constructor. vm_compute. reflexivity.
  - vm_compute. reflexivity.
Defined.

Lemma request_free_accounting_witness :
  ∃ s2, free_page 0x104000 (allocated 4 (demo 0x0f 0 0)) = Done s2 ∧
        free_memory (memory s2) = 6 * PAGESIZE.
Proof.
  destruct (request_free_accounting (demo 0x0f 0 0) 0x104000 (allocated 4 (demo 0x0f 0 0)))
    as (s2 & Hf & _ & Hfree & _).
  - apply demo_wf; lia.
  - cbn. unfold PAGESIZE. lia.
  - cbn. lia.
  - vm_compute. reflexivity.
  - exists s2. exact (conj Hf Hfree).
Defined.

Lemma request_contiguous_wrong_base_witness :
  ∃ s', request_contiguous_pages 3 (demo 0x0f 0 4) = Done (0x103000, s') ∧
        page_used s' 3 = page_used (demo 0x0f 0 4) 3 ∧ page_used s' 4 = Some true.
Proof.
  destruct (request_contiguous_wrong_base (demo 0x0f 0 4) 3) as (s' & Hr & Hp).
  - apply demo_wf; lia.
  - lia.
  - cbn. lia.
  - cbn. lia.
  - cbn [contiguous_last_requested demo]. pages_by_compute.
  - exists s'. exact (conj Hr (conj (Hp 3) (Hp 4))).
Defined.

(** A boot map: a reserved megabyte and 128 KiB of usable memory. *)
Definition demo_mmap : list mmap_entry :=
  [{| mm_base := 0; mm_length := 0x100000; mm_type := 1 |};
   {| mm_base := 0x100000; mm_length := 0x20000; mm_type := 0 |};
   {| mm_base := 0x200000; mm_length := 0x4000; mm_type := 0 |}].

Definition demo_statics : boot_statics :=
  {| total_memory_static := 0; free_memory_static := 0; biggest_avail_chunk := no_chunk |}.

Definition demo_unset : pmm :=
  {| memory_ptr := 0;
     memory :=
       {| total_available_pages := 0; first_available_page_addr := 0;
          last_available_page_address := 0; total_memory := 0; total_pages := 0;
          bitfield := 0; free_memory := 0; locked_memory := 0; reserved_memory := 0 |};
     bits := ∅; last_requested := 0; statistics_requested := 0;
     contiguous_last_requested := 0; contiguous_statistics_requested := 0 |}.

