(* ===== verification/PageService.v ===== *)
(** * The interface between the heap and the paging code

    The heap and stack allocators of src/src/memory/heap.c call seven routines of
    memory.c and paging.c.  The heap is modelled against this interface; Paging.v
    provides the instance built from the page tables. *)
From S2P Require Import Prelude.

Class PageService (P : Type) := {
  (** [request_page()]: a free frame. *)
  ps_request_page : P → outcome (Z * P);
  (** [get_pml4()]: the current page directory. *)
  ps_get_pml4 : P → Z;
  (** [map_current_memory(virtual, physical, flags)] *)
  ps_map_current_memory : Z → Z → Z → P → outcome P;
  (** [map_memory(pml4, virtual, physical, flags)] *)
  ps_map_memory : Z → Z → Z → Z → P → outcome P;
  (** [virtual_to_physical(pml4, virtual)] *)
  ps_virtual_to_physical : Z → Z → P → outcome Z;
  (** [request_current_page_at(virtual, flags)] *)
  ps_request_current_page_at : Z → Z → P → outcome (Z * P);
}.

(** A routine that ends by returning or in [panic()]. *)
Definition returns_or_panics {A} (o : outcome A) : Prop :=
  (∃ a, o = Done a) ∨ (∃ why, o = Panic why).

(** What the allocators rely on: in a state that satisfies [ps_ok T], for the
    directories [T] they work on, every call returns or panics and keeps [ps_ok T]; the
    current directory is as good as those of [T]; [request_current_page_at] returns the
    address it was given. *)
Class PageServiceOk (P : Type) `{PageService P} := {
  ps_ok : list Z → P → Prop;
  ps_ok_sub T T' s : T ⊆ T' → ps_ok T' s → ps_ok T s;
  ps_get_pml4_ok T s : ps_ok T s → ps_ok (ps_get_pml4 s :: T) s;
  ps_request_page_ok T s :
    ps_ok T s → returns_or_panics (ps_request_page s) ∧
    ∀ a s', ps_request_page s = Done (a, s') → ps_ok T s';
  ps_map_current_memory_ok T v p f s :
    ps_ok T s → returns_or_panics (ps_map_current_memory v p f s) ∧
    ∀ s', ps_map_current_memory v p f s = Done s' → ps_ok T s';
  ps_map_memory_ok T t v p f s :
    ps_ok T s → t ∈ T → returns_or_panics (ps_map_memory t v p f s) ∧
    ∀ s', ps_map_memory t v p f s = Done s' → ps_ok T s';
  ps_request_current_page_at_ok T v f s :
    ps_ok T s → returns_or_panics (ps_request_current_page_at v f s) ∧
    ∀ a s', ps_request_current_page_at v f s = Done (a, s') → a = v ∧ ps_ok T s';
  ps_virtual_to_physical_ok T t v s :
    ps_ok T s → t ∈ T → returns_or_panics (ps_virtual_to_physical t v s);
}.

Lemma rop_done {A} (a : A) : returns_or_panics (Done a).
Proof. left. eauto. Qed.

Lemma rop_panic {A} why : returns_or_panics (A := A) (Panic why).
Proof. right. eauto. Qed.

(** Sequencing: what the first part establishes is available to the second. *)
Lemma rop_bind {A B} (Q : A → Prop) (R : B → Prop) (o : outcome A) (k : A → outcome B) :
  returns_or_panics o → (∀ a, o = Done a → Q a) →
  (∀ a, Q a → returns_or_panics (k a) ∧ ∀ b, k a = Done b → R b) →
  returns_or_panics (o ≫= k) ∧ ∀ b, o ≫= k = Done b → R b.
Proof.
  intros [[a ->]|[why ->]] HQ HR; cbn; [by apply HR, HQ|].
  split; [apply rop_panic|done].
Qed.

Lemma rop_for_up {S} (P : Z → S → Prop) n i (body : Z → S → outcome S) s :
  (∀ k x, P k x → returns_or_panics (body k x) ∧ ∀ y, body k x = Done y → P (k + 1)%Z y) →
  P i s → returns_or_panics (for_up n i body s) ∧
          ∀ s', for_up n i body s = Done s' → P (i + Z.of_nat n)%Z s'.
Proof.
  intros Hb. revert i s. induction n as [|n IH]; intros i s Hs; cbn [for_up].
  - split; [apply rop_done|]. intros s' [= <-]. by rewrite Z.add_0_r.
  - apply (rop_bind (P (i + 1)%Z)); [apply Hb, Hs|apply Hb, Hs|].
    intros x Hx. replace (i + Z.of_nat (Datatypes.S n))%Z with (i + 1 + Z.of_nat n)%Z by lia.
    by apply IH.
Qed.

#[export] Hint Resolve rop_done rop_panic : machine.

(** A loop whose body returns or panics does so too, if the fuel is enough. *)
Lemma rop_loop {S R} (P : S → Prop) fuel (body : S → outcome (S + R)) s :
  (∀ x, P x → returns_or_panics (body x) ∧ ∀ y, body x = Done (inl y) → P y) → P s →
  loop fuel body s ≠ OutOfFuel → returns_or_panics (loop fuel body s).
Proof.
  intros Hb. revert s. induction fuel as [|fuel IH]; intros s Hs; cbn [loop]; [done|].
  destruct (Hb s Hs) as [[[[y|r] E]|[why E]] Hy]; rewrite E; cbn.
  - intros Hf. apply IH; auto.
  - intros _. apply rop_done.
  - intros _. apply rop_panic.
Qed.

Lemma ps_current_ok `{PageServiceOk P} T s : ps_ok T s → ps_ok [ps_get_pml4 s] s.
Proof. intros Hs%ps_get_pml4_ok. eapply ps_ok_sub; [|exact Hs]. set_solver. Qed.
