(* ===== verification/Alloc.v ===== *)
(** * The interface between the heap and the data structures that allocate

    A list, a queue or a table takes its nodes from [kmalloc], [smalloc] or [sigmalloc]
    and gives them back.  Its theorems use this interface; KernelHeap.v provides the
    instances for the kernel's heaps. *)
From S2P Require Import Prelude PageService.
From stdpp Require Import gmap.
#[local] Open Scope Z_scope.

Class Allocator (A : Type) := {
  al_malloc : Z → A → outcome (Z * A);
  al_free : Z → A → outcome A;
}.

(** [al_ok L s]: the addresses of the blocks in use are exactly [L]. *)
Class AllocatorOk (A : Type) `{Allocator A} := {
  al_ok : gset Z → A → Prop;
  al_nonnull L s a : al_ok L s → a ∈ L → a ≠ 0;
  al_malloc_ok L size s :
    al_ok L s → 0 < size < 2 ^ 32 → returns_or_panics (al_malloc size s) ∧
    ∀ r s', al_malloc size s = Done (r, s') → r ∉ L ∧ al_ok ({[r]} ∪ L) s';
  al_free_ok L a s :
    al_ok L s → a ∈ L → ∃ s', al_free a s = Done s' ∧ al_ok (L ∖ {[a]}) s';
}.
