(* ===== verification/Paging.v ===== *)
(** * Page tables (src/src/memory/paging.c, paging.h)

    Four levels of 512 entries.  The store holds the entries of every table by
    physical frame and index; a table is reached through its physical address (the
    identity map the boot loader set up) or through that address plus
    [IDENTITY_MAP_START], and [frame_of] is the frame behind either pointer.  The
    frames themselves come from the page frame allocator.  The bit fields of an
    entry are a record whose assignments truncate to the declared width. *)
From S2P Require Import Prelude PageAlloc PageService.
From stdpp Require Import strings.
#[local] Open Scope Z_scope.

Definition IDENTITY_MAP_START : Z := 0xffffA00000000000.
Definition TO_KERNEL_MAP (vaddr : Z) : Z := u64 (vaddr + IDENTITY_MAP_START).
Definition FROM_KERNEL_MAP (vaddr : Z) : Z := u64 (vaddr - IDENTITY_MAP_START).

Definition PAGE_WRITE_BIT : Z := 0x1.
Definition PAGE_USER_BIT : Z := 0x2.
Definition PAGE_NX_BIT : Z := 0x4.
Definition PAGE_CACHE_DISABLE : Z := 0x8.

Definition CACHE_BIT_SET (x : Z) : Z := Z.shiftr (Z.land x PAGE_CACHE_DISABLE) 3.
Definition NX_BIT_SET (x : Z) : Z := Z.shiftr (Z.land x PAGE_NX_BIT) 2.
Definition USER_BIT_SET (x : Z) : Z := Z.shiftr (Z.land x PAGE_USER_BIT) 1.
Definition WRITE_BIT_SET (x : Z) : Z := Z.land x PAGE_WRITE_BIT.

(** ** Data *)

(** [struct page_directory_entry] and [struct page_table_entry] have the same layout;
    [pe_dirty] and [pe_global] are ignored bits in a directory. *)
Record page_entry := {
  present : Z;
  writeable : Z;
  user_access : Z;
  write_through : Z;
  cache_disabled : Z;
  accessed : Z;
  pe_dirty : Z;
  pe_size : Z;
  pe_global : Z;
  ignored_2 : Z;
  page_ppn : Z;
  reserved_1 : Z;
  ignored_1 : Z;
  execution_disabled : Z;
}.

Definition zero_entry : page_entry :=
  {| present := 0; writeable := 0; user_access := 0; write_through := 0; cache_disabled := 0;
     accessed := 0; pe_dirty := 0; pe_size := 0; pe_global := 0; ignored_2 := 0; page_ppn := 0;
     reserved_1 := 0; ignored_1 := 0; execution_disabled := 0 |}.

(** [e.present = p; e.writeable = w; e.user_access = u; e.page_ppn = n;]: one-bit and
    28-bit fields. *)
Definition point_entry (p w u n : Z) (e : page_entry) : page_entry :=
  {| present := wrap 1 p; writeable := wrap 1 w; user_access := wrap 1 u;
     write_through := write_through e; cache_disabled := cache_disabled e;
     accessed := accessed e; pe_dirty := pe_dirty e; pe_size := pe_size e;
     pe_global := pe_global e; ignored_2 := ignored_2 e; page_ppn := wrap 28 n;
     reserved_1 := reserved_1 e; ignored_1 := ignored_1 e;
     execution_disabled := execution_disabled e |}.

Definition set_perms (w u nx c : Z) (e : page_entry) : page_entry :=
  {| present := present e; writeable := wrap 1 w; user_access := wrap 1 u;
     write_through := write_through e; cache_disabled := wrap 1 c;
     accessed := accessed e; pe_dirty := pe_dirty e; pe_size := pe_size e;
     pe_global := pe_global e; ignored_2 := ignored_2 e; page_ppn := page_ppn e;
     reserved_1 := reserved_1 e; ignored_1 := ignored_1 e; execution_disabled := wrap 1 nx |}.

Definition set_present (p : Z) (e : page_entry) : page_entry :=
  {| present := wrap 1 p; writeable := writeable e; user_access := user_access e;
     write_through := write_through e; cache_disabled := cache_disabled e;
     accessed := accessed e; pe_dirty := pe_dirty e; pe_size := pe_size e;
     pe_global := pe_global e; ignored_2 := ignored_2 e; page_ppn := page_ppn e;
     reserved_1 := reserved_1 e; ignored_1 := ignored_1 e;
     execution_disabled := execution_disabled e |}.

Definition set_ppn (n : Z) (e : page_entry) : page_entry :=
  {| present := present e; writeable := writeable e; user_access := user_access e;
     write_through := write_through e; cache_disabled := cache_disabled e;
     accessed := accessed e; pe_dirty := pe_dirty e; pe_size := pe_size e;
     pe_global := pe_global e; ignored_2 := ignored_2 e; page_ppn := wrap 28 n;
     reserved_1 := reserved_1 e; ignored_1 := ignored_1 e;
     execution_disabled := execution_disabled e |}.

Record page_map_index := { PDP_i : Z; PD_i : Z; PT_i : Z; P_i : Z }.

(** [tables]: the entries by frame address and index; [cr3]: the register. *)
Record mmu := { tables : gmap (Z * Z) page_entry; frames : pmm; cr3 : Z }.

Definition with_tables (t : gmap (Z * Z) page_entry) (s : mmu) : mmu :=
  {| tables := t; frames := frames s; cr3 := cr3 s |}.
Definition with_frames (a : pmm) (s : mmu) : mmu :=
  {| tables := tables s; frames := a; cr3 := cr3 s |}.
Definition with_cr3 (c : Z) (s : mmu) : mmu :=
  {| tables := tables s; frames := frames s; cr3 := c |}.

(** ** Access *)
Definition frame_of (p : Z) : Z := if IDENTITY_MAP_START <=? p then p - IDENTITY_MAP_START else p.

Definition load_entry (s : mmu) (p i : Z) : outcome page_entry := known (tables s !! (frame_of p, i)).

Definition store_entry (p i : Z) (e : page_entry) (s : mmu) : mmu :=
  with_tables (<[(frame_of p, i) := e]> (tables s)) s.

Fixpoint zero_entries (f : Z) (n : nat) (t : gmap (Z * Z) page_entry) : gmap (Z * Z) page_entry :=
  match n with O => t | S n => zero_entries f n (<[(f, Z.of_nat n) := zero_entry]> t) end.

(** [memset(p, 0, PAGESIZE)] *)
Definition zero_table (p : Z) (s : mmu) : mmu :=
  with_tables (zero_entries (frame_of p) 512 (tables s)) s.

Fixpoint copy_entries (d f : Z) (n : nat) (t : gmap (Z * Z) page_entry) : gmap (Z * Z) page_entry :=
  match n with
  | O => t
  | S n =>
      copy_entries d f n
        (match t !! (f, Z.of_nat n) with
         | Some e => <[(d, Z.of_nat n) := e]> t
         | None => delete (d, Z.of_nat n) t
         end)
  end.

(** [memcpy(d, p, PAGESIZE)] between two different frames *)
Definition copy_table (d p : Z) (s : mmu) : mmu :=
  with_tables (copy_entries (frame_of d) (frame_of p) 512 (tables s)) s.

Definition request_frame (s : mmu) : outcome (Z * mmu) :=
  '(p, a) ← request_page (frames s); Done (p, with_frames a s).

Definition address_to_map (address : Z) : page_map_index :=
  let address := Z.shiftr address 12 in
  let p := Z.land address 0x1ff in
  let address := Z.shiftr address 9 in
  let pt := Z.land address 0x1ff in
  let address := Z.shiftr address 9 in
  let pd := Z.land address 0x1ff in
  let address := Z.shiftr address 9 in
  {| PDP_i := Z.land address 0x1ff; PD_i := pd; PT_i := pt; P_i := p |}.

Definition get_pml4 (s : mmu) : Z := TO_KERNEL_MAP (cr3 s).
Definition set_pml4 (pml4 : Z) (s : mmu) : mmu := with_cr3 (FROM_KERNEL_MAP pml4) s.

(** ** Walking *)

(** The address of the table a directory entry points to; [K] is the map through which
    the routine reaches tables: the identity or [TO_KERNEL_MAP]. *)
Definition entry_table (K : Z → Z) (e : page_entry) : Z := K (u64 (Z.shiftl (page_ppn e) 12)).

(** [pde = t->entries[i]; if (!pde.present) return NULL; ...] *)
Definition next_table (K : Z → Z) (t i : Z) (s : mmu) : outcome (option Z) :=
  pde ← load_entry s t i;
  if present pde =? 0 then Done None else Done (Some (entry_table K pde)).

(** The page table of [map], if every directory on the way is present. *)
Definition find_table (K : Z → Z) (pml4 : Z) (map : page_map_index) (s : mmu) : outcome (option Z) :=
  pdp ← next_table K pml4 (PDP_i map) s;
  match pdp with
  | None => Done None
  | Some pdp =>
      pd ← next_table K pdp (PD_i map) s;
      match pd with
      | None => Done None
      | Some pd => next_table K pd (PT_i map) s
      end
  end.

Definition virtual_to_physical (pml4 virtual : Z) (s : mmu) : outcome Z :=
  let map := address_to_map virtual in
  pt ← find_table id pml4 map s;
  match pt with
  | None => Done 0
  | Some pt =>
      pte ← load_entry s pt (P_i map);
      if present pte =? 0 then Done 0 else Done (u64 (Z.shiftl (page_ppn pte) 12))
  end.

(** ** Mapping *)

(** [pde = t->entries[i]; if (!pde.present) { request, clear, link } else follow] *)
Definition get_table (K R : Z → Z) (err : string) (t i : Z) (s : mmu) : outcome (Z * mmu) :=
  pde ← load_entry s t i;
  if present pde =? 0 then
    '(p, s) ← request_frame s;
    let new := K p in
    if new =? 0 then Panic err else
    let s := zero_table new s in
    Done (new, store_entry t i (point_entry 1 1 1 (Z.shiftr (R new) 12) pde) s)
  else Done (entry_table K pde, s).

Definition map_page (K R : Z → Z) (pml4 virtual_memory physical_memory flags : Z) (s : mmu)
    : outcome mmu :=
  if negb (Z.land virtual_memory 0xfff =? 0)
  then Panic "map_memory: virtual_memory must be aligned to 0x1000" else
  if negb (Z.land physical_memory 0xfff =? 0)
  then Panic "map_memory: physical_memory must be aligned to 0x1000" else
  let map := address_to_map virtual_memory in
  '(pdp, s) ← get_table K R "ERROR: Could not allocate page for new PDP" pml4 (PDP_i map) s;
  '(pd, s) ← get_table K R "ERROR: Could not allocate page for new PD" pdp (PD_i map) s;
  '(pt, s) ← get_table K R "ERROR: Could not allocate page for new PT" pd (PT_i map) s;
  pte ← load_entry s pt (P_i map);
  let pte := set_ppn (Z.shiftr physical_memory 12) pte in
  let pte := set_present 1 pte in
  let pte := set_perms (WRITE_BIT_SET flags) (USER_BIT_SET flags) (NX_BIT_SET flags)
               (CACHE_BIT_SET flags) pte in
  Done (store_entry pt (P_i map) pte s).

Definition map_memory_hh : Z → Z → Z → Z → mmu → outcome mmu :=
  map_page TO_KERNEL_MAP FROM_KERNEL_MAP.
Definition _map_memory : Z → Z → Z → Z → mmu → outcome mmu := map_page id id.

Definition map_memory : Z → Z → Z → Z → mmu → outcome mmu := map_memory_hh.
Definition map_current_memory (virtual_memory physical_memory flags : Z) (s : mmu) : outcome mmu :=
  map_memory_hh (get_pml4 s) virtual_memory physical_memory flags s.

Definition request_page_at (pml4 vaddr flags : Z) (s : mmu) : outcome (Z * mmu) :=
  '(result, s) ← request_frame s;
  if result =? 0 then Panic "ERROR: Could not allocate page for mapping" else
  s ← map_memory_hh pml4 vaddr result flags s;
  Done (vaddr, s).

(** The current directory is read before the frame is requested. *)
Definition request_current_page_at (vaddr flags : Z) (s : mmu) : outcome (Z * mmu) :=
  request_page_at (get_pml4 s) vaddr flags s.

Definition unmap_page (K : Z → Z) (pml4 virtual_address : Z) (s : mmu) : outcome mmu :=
  let map := address_to_map virtual_address in
  pt ← find_table K pml4 map s;
  match pt with
  | None => Done s
  | Some pt =>
      pte ← load_entry s pt (P_i map);
      Done (store_entry pt (P_i map) (set_present 0 pte) s)
  end.

Definition _unmap_memory : Z → Z → mmu → outcome mmu := unmap_page id.
Definition unmap_current_memory (virtual_address : Z) (s : mmu) : outcome mmu :=
  unmap_page TO_KERNEL_MAP (get_pml4 s) virtual_address s.

(** ** Permissions: these walks do not test [present] *)
Definition page_table_of (K : Z → Z) (pml4 : Z) (map : page_map_index) (s : mmu) : outcome Z :=
  pde ← load_entry s pml4 (PDP_i map);
  pde ← load_entry s (entry_table K pde) (PD_i map);
  pde ← load_entry s (entry_table K pde) (PT_i map);
  Done (entry_table K pde).

Definition set_perms_at (K : Z → Z) (pml4 address permissions : Z) (s : mmu) : outcome mmu :=
  let map := address_to_map address in
  pt ← page_table_of K pml4 map s;
  pte ← load_entry s pt (P_i map);
  Done (store_entry pt (P_i map)
          (set_perms (Z.land permissions 1) (Z.shiftr (Z.land permissions 2) 1)
             (Z.shiftr (Z.land permissions 4) 2) (Z.shiftr (Z.land permissions 8) 3) pte) s).

Definition set_page_perms : Z → Z → Z → mmu → outcome mmu := set_perms_at id.
Definition set_page_perms_hh : Z → Z → Z → mmu → outcome mmu := set_perms_at TO_KERNEL_MAP.

Definition entry_perms (pte : page_entry) : Z :=
  let result := writeable pte in
  let result := u8 (Z.lor result (Z.shiftl (user_access pte) 1)) in
  let result := u8 (Z.lor result (Z.shiftl (execution_disabled pte) 2)) in
  u8 (Z.lor result (Z.shiftl (cache_disabled pte) 3)).

Definition perms_at (K : Z → Z) (pml4 address : Z) (s : mmu) : outcome Z :=
  let map := address_to_map address in
  pt ← page_table_of K pml4 map s;
  pte ← load_entry s pt (P_i map);
  Done (entry_perms pte).

Definition get_page_perms : Z → Z → mmu → outcome Z := perms_at id.
Definition get_page_perms_hh : Z → Z → mmu → outcome Z := perms_at TO_KERNEL_MAP.

(** [for (i = start; i < end; i += 0x1000)] on the rounded range *)
Definition protect_range (K : Z → Z) (pml4 address size permissions : Z) (s : mmu) : outcome mmu :=
  let start := address in
  let fin := u64 (start + size) in
  let start := Z.land start (Z.lnot 0xfff) in
  let fin := Z.land (u64 (fin + 0xfff)) (Z.lnot 0xfff) in
  for_up (Z.to_nat ((fin - start) / PAGESIZE)) 0
    (λ k s, set_perms_at K pml4 (start + k * PAGESIZE) permissions s) s.

Definition mprotect : Z → Z → Z → Z → mmu → outcome mmu := protect_range id.
Definition mprotect_hh : Z → Z → Z → Z → mmu → outcome mmu := protect_range TO_KERNEL_MAP.
Definition mprotect_current (address size permissions : Z) (s : mmu) : outcome mmu :=
  mprotect_hh (get_pml4 s) address size permissions s.

Definition is_present (pml4 address : Z) (s : mmu) : outcome Z :=
  let map := address_to_map address in
  pt ← page_table_of id pml4 map s;
  pte ← load_entry s pt (P_i map);
  Done (present pte).

Definition is_executable (pml4 address : Z) (s : mmu) : outcome Z :=
  let map := address_to_map address in
  pt ← page_table_of id pml4 map s;
  pte ← load_entry s pt (P_i map);
  Done (b2z (execution_disabled pte =? 0)).

(** The user bit is tested at each level. *)
Definition is_user_access (pml4 address : Z) (s : mmu) : outcome Z :=
  let map := address_to_map address in
  pde ← load_entry s pml4 (PDP_i map);
  if user_access pde =? 0 then Done 0 else
  pde ← load_entry s (entry_table id pde) (PD_i map);
  if user_access pde =? 0 then Done 0 else
  pde ← load_entry s (entry_table id pde) (PT_i map);
  if user_access pde =? 0 then Done 0 else
  pte ← load_entry s (entry_table id pde) (P_i map);
  Done (user_access pte).

(** ** Directories *)

(** The copy of the lowest level that [_duplicate_pd] visits: the present entries of
    [pt] are stored again in [new_pt]. *)
Definition copy_present (pt new_pt : Z) (s : mmu) : outcome mmu :=
  for_up 512 0 (λ k s,
    pte ← load_entry s pt k;
    if present pte =? 0 then Done s else Done (store_entry new_pt k pte s)) s.

(** Entry [j] of the directory [pd], for its copy [new_pd]. *)
Definition duplicate_entry (pd new_pd j : Z) (s : mmu) : outcome mmu :=
  pde ← load_entry s pd j;
  if present pde =? 0 then Done s else
  let pt := entry_table id pde in
  '(new_pt, s) ← request_frame s;
  if new_pt =? 0 then Panic "ERROR: Could not allocate page for new PT" else
  let s := copy_table new_pt pt s in
  let s := store_entry new_pd j (set_ppn (Z.shiftr new_pt 12) pde) s in
  copy_present pt new_pt s.

(** Entry [i] of [father], for the new directory [pml]. *)
Definition duplicate_directory (father pml i : Z) (s : mmu) : outcome mmu :=
  pde ← load_entry s father i;
  if present pde =? 0 then Done s else
  let pd := entry_table id pde in
  '(new_pd, s) ← request_frame s;
  if new_pd =? 0 then Panic "ERROR: Could not allocate page for new PD" else
  let s := copy_table new_pd pd s in
  let s := store_entry pml i (set_ppn (Z.shiftr new_pd 12) pde) s in
  for_up 512 0 (λ j s, duplicate_entry pd new_pd j s) s.

Definition duplicate_tables (err : string) (father start fin : Z) (s : mmu) : outcome (Z * mmu) :=
  '(pml, s) ← request_frame s;
  if pml =? 0 then Panic err else
  let s := zero_table pml s in
  s ← for_up (Z.to_nat (fin - start)) start (λ i s, duplicate_directory father pml i s) s;
  Done (pml, s).

Definition _duplicate_pd (father start fin : Z) (s : mmu) : outcome (Z * mmu) :=
  '(pml, s) ← duplicate_tables "ERROR: Could not allocate page for new PML4" father start fin s;
  Done (TO_KERNEL_MAP pml, s).

Definition duplicate_current_pml4 (s : mmu) : outcome (Z * mmu) :=
  _duplicate_pd (get_pml4 s) 0 512 s.
Definition duplicate_current_kernel_pml4 (s : mmu) : outcome (Z * mmu) :=
  _duplicate_pd (get_pml4 s) 256 512 s.

Definition swap_pml4 (pml : Z) (s : mmu) : outcome (Z * mmu) :=
  if pml =? 0 then Panic "ERROR: Tried to swap to NULL PML4" else
  let old := get_pml4 s in
  if old =? pml then Done (old, s) else Done (old, set_pml4 pml s).

Definition invalidate_current_pml4 (s : mmu) : mmu := set_pml4 (get_pml4 s) s.

(** Start-up: the boot loader's tables are duplicated, all memory below
    [last_available_page_address] is mapped at [IDENTITY_MAP_START] and the new tables
    are installed.  [virtual_start] is the load address the boot loader reports and
    [linker_kstart] the one the kernel was linked for. *)
Definition init_paging (virtual_start linker_kstart : Z) (s : mmu) : outcome mmu :=
  let original := cr3 s in
  '(pml4, s) ← duplicate_tables "ERROR: Could not allocate page for PML4" original 0 512 s;
  let last_page := last_available_page_address (memory (frames s)) in
  s ← for_up (Z.to_nat ((last_page + PAGESIZE - 1) / PAGESIZE)) 0
        (λ k s, _map_memory pml4 (TO_KERNEL_MAP (k * PAGESIZE)) (k * PAGESIZE) PAGE_WRITE_BIT s) s;
  let s := with_cr3 pml4 s in
  if negb (linker_kstart =? virtual_start)
  then Panic "init_paging: kernel virtual address does not match KERNEL_START" else
  Done (with_frames (offset_memory IDENTITY_MAP_START (frames s)) s).

(** ** The interface the heap is written against *)
#[global] Instance mmu_service : PageService mmu := {|
  ps_request_page := request_frame;
  ps_get_pml4 := get_pml4;
  ps_map_current_memory := map_current_memory;
  ps_map_memory := map_memory;
  ps_virtual_to_physical := virtual_to_physical;
  ps_request_current_page_at := request_current_page_at;
|}.
