(* ===== verification/PagingSpec.v ===== *)
(** * What the page table routines do

    [tables_ok s W] says that the tables of [s] form a forest labelled by [W]: a frame's
    label gives its level, and a present entry [i] of a frame labelled [x] leads to a
    frame labelled [child x i].  With levels as labels this excludes stray accesses;
    with paths as labels it also says that no table is shared. *)
From S2P Require Import Prelude PageAlloc PageService Paging.
From stdpp Require Import strings.
#[local] Open Scope Z_scope.

(** ** Reading and writing entries *)
Lemma lookup_zero_entries f n t g i :
  zero_entries f n t !! (g, i) =
  if decide (g = f ∧ 0 ≤ i < Z.of_nat n) then Some zero_entry else t !! (g, i).
Proof.
  revert t. induction n as [|n IH]; intros t; cbn [zero_entries].
  - rewrite decide_False by lia. done.
  - rewrite IH. destruct (decide ((f, Z.of_nat n) = (g, i))) as [E|E].
    + injection E as -> <-. rewrite lookup_insert_eq. repeat case_decide; try done; lia.
    + rewrite lookup_insert_ne by done.
      assert (¬ (g = f ∧ i = Z.of_nat n)) by (intros [-> ->]; done).
      repeat case_decide; try done; lia.
Qed.

Lemma tables_zero_table p s g i :
  tables (zero_table p s) !! (g, i) =
  if decide (g = frame_of p ∧ 0 ≤ i < 512) then Some zero_entry else tables s !! (g, i).
Proof. apply lookup_zero_entries. Qed.

Lemma tables_store_eq p i e s : tables (store_entry p i e s) !! (frame_of p, i) = Some e.
Proof. apply lookup_insert_eq. Qed.
Lemma tables_store_ne p i e s k :
  k ≠ (frame_of p, i) → tables (store_entry p i e s) !! k = tables s !! k.
Proof. intros. by apply lookup_insert_ne. Qed.

Lemma load_entry_at s p i e : tables s !! (frame_of p, i) = Some e → load_entry s p i = Done e.
Proof. unfold load_entry. by intros ->. Qed.

(** ** Indices *)
Definition map_index_ok (m : page_map_index) : Prop :=
  0 ≤ PDP_i m < 512 ∧ 0 ≤ PD_i m < 512 ∧ 0 ≤ PT_i m < 512 ∧ 0 ≤ P_i m < 512.

Lemma land_511 x : Z.land x 0x1ff = x mod 512.
Proof. change 0x1ff with (Z.ones 9). by rewrite Z.land_ones by lia. Qed.

Lemma address_to_map_eq a :
  address_to_map a =
  {| PDP_i := a / 2 ^ 39 mod 512; PD_i := a / 2 ^ 30 mod 512;
     PT_i := a / 2 ^ 21 mod 512; P_i := a / 2 ^ 12 mod 512 |}.
Proof.
  unfold address_to_map. rewrite !land_511, !Z.shiftr_shiftr, !Z.shiftr_div_pow2 by lia. done.
Qed.

Lemma address_to_map_ok a : map_index_ok (address_to_map a).
Proof. rewrite address_to_map_eq. unfold map_index_ok. cbn. split_and!; apply Z.mod_pos_bound; lia. Qed.

(** ** The two ways to reach a table *)
Record reaches (K R : Z → Z) : Prop := {
  reach_frame a : 0 ≤ a < 2 ^ 40 → frame_of (K a) = a;
  reach_back a : 0 ≤ a < 2 ^ 40 → R (K a) = a;
}.

Lemma reaches_id : reaches id id.
Proof.
  constructor; [|done]. intros a Ha. unfold frame_of, id, IDENTITY_MAP_START.
  destruct (Z.leb_spec 0xffffA00000000000 a); lia.
Qed.

Lemma reaches_kernel : reaches TO_KERNEL_MAP FROM_KERNEL_MAP.
Proof.
  constructor; intros a Ha; unfold TO_KERNEL_MAP, FROM_KERNEL_MAP, frame_of, IDENTITY_MAP_START;
    unwrap; [|lia].
  destruct (Z.leb_spec 0xffffA00000000000 (a + 0xffffA00000000000)); lia.
Qed.

Lemma entry_table_eq K e :
  0 ≤ page_ppn e < 2 ^ 28 → entry_table K e = K (page_ppn e * PAGESIZE).
Proof.
  intros He. unfold entry_table. rewrite shiftl12, u64_small; [done|]. unfold PAGESIZE. lia.
Qed.

(** ** The allocator behind the tables

    Past the first request the cursor is positive; then [request_page] returns or
    panics as long as the bit after the last page is readable too. *)
Definition pmm_live (a : pmm) : Prop :=
  pmm_wf a ∧ 0 < last_requested a ∧ is_Some (page_used a (total_available_pages (memory a))).

Lemma request_page_rop a :
  pmm_live a → returns_or_panics (request_page a) ∧
  ∀ p a', request_page a = Done (p, a') → pmm_live a'.
Proof.
  intros (Hwf & Hc & Hk). assert (Hcur := wf_cursor _ Hwf). assert (Ht := wf_total _ Hwf).
  set (body := search_step a (u64 (last_requested a - 1))).
  set (Q := λ l, 1 ≤ l ≤ total_available_pages (memory a)).
  assert (∀ l, Q l → returns_or_panics (body l) ∧ ∀ y, body l = Done (inl y) → Q y) as Hbody.
  { intros l Hl. unfold Q in *. assert (is_Some (page_used a l)) as [b Hb].
    { destruct (decide (l = total_available_pages (memory a))) as [->|]; [done|].
      apply (wf_known _ Hwf). lia. }
    unfold body. rewrite search_step_eq, Hb. destruct b; [|split; [apply rop_done|done]].
    cbn. case_match; zbool; case_match; zbool; split; auto with machine; intros; simplify_eq;
      unwrap; lia. }
  assert (returns_or_panics (loop (search_fuel a) body (last_requested a))) as [[i Hi]|[why Hi]].
  { apply (rop_loop Q); [done|unfold Q; lia|]. apply search_ends; [done|lia]. }
  - assert (1 ≤ i) as Hi1.
    { eapply (loop_inv Q (λ i, 1 ≤ i) _ body); [..|exact Hi]; [by intros; eapply Hbody| |unfold Q; lia].
      intros l w Hl. unfold body. rewrite search_step_eq. unfold Q in Hl.
      destruct (page_used a l) as [[]|]; [cbn; by repeat case_match|intros; simplify_eq; lia|done]. }
    destruct (search_sound a Hwf _ _ _ _ Hcur Hi) as [Hir Hf].
    rewrite (request_page_found a i Hwf Hir Hf Hi).
    split; [apply rop_done|]. intros p a' [= <- <-]. split_and!.
    + by apply allocated_wf.
    + cbn. lia.
    + cbn [memory allocated]. rewrite page_used_allocated by done. by case_decide.
  - unfold request_page. fold body. rewrite Hi. split; [apply rop_panic|done].
Qed.

(** ** Well-formed tables *)
Section labels.
Context {X : Type} (level : X → nat) (child : X → Z → X).
Hypothesis level_child : ∀ x i k, level x = S k → level (child x i) = k.

Record tables_ok (s : mmu) (W : gmap Z X) : Prop := {
  tk_known f x i : W !! f = Some x → 0 ≤ i < 512 → is_Some (tables s !! (f, i));
  tk_range f x i e :
    W !! f = Some x → 0 ≤ i < 512 → tables s !! (f, i) = Some e → 0 ≤ page_ppn e < 2 ^ 28;
  tk_child f x k i e :
    W !! f = Some x → level x = S k → 0 ≤ i < 512 → tables s !! (f, i) = Some e →
    present e ≠ 0 → W !! (page_ppn e * PAGESIZE) = Some (child x i);
  tk_frame f x : W !! f = Some x → 0 ≤ f < 2 ^ 40 ∧ f mod PAGESIZE = 0;
  tk_pmm : pmm_wf (frames s);
  tk_low : last_available_page_address (memory (frames s)) < 2 ^ 40;
  tk_aligned : first_available_page_addr (memory (frames s)) mod PAGESIZE = 0;
  tk_fresh i :
    0 ≤ i ≤ total_available_pages (memory (frames s)) → page_used (frames s) i = Some false →
    W !! page_addr (frames s) i = None;
}.

(** A present entry and where it leads. *)
Definition points (s : mmu) (f i g : Z) : Prop :=
  ∃ e, tables s !! (f, i) = Some e ∧ present e ≠ 0 ∧ 0 ≤ page_ppn e < 2 ^ 28 ∧
       page_ppn e * PAGESIZE = g.

(** A new frame: it has no label, and labelling it needs only its entries. *)
Lemma request_frame_fresh s W p s' :
  tables_ok s W → request_frame s = Done (p, s') →
  tables_ok s' W ∧ tables s' = tables s ∧ cr3 s' = cr3 s ∧ W !! p = None ∧
  0 ≤ p < 2 ^ 40 ∧ p mod PAGESIZE = 0 ∧
  (∀ i, 0 ≤ i ≤ total_available_pages (memory (frames s')) →
        page_used (frames s') i = Some false → page_addr (frames s') i ≠ p).
Proof.
  intros Hok Hrun. unfold request_frame in Hrun. inv_done. simplify_eq.
  match goal with H : request_page _ = Done _ |- _ => 
    destruct (request_page_inv _ _ _ (tk_pmm _ _ Hok) H) as (i & Hi & Hf & -> & ->) end.
  assert (∀ j, page_used (allocated i (frames s)) j =
               if decide (j = i) then Some true else page_used (frames s) j) as Hu
    by (intros j; by apply page_used_allocated).
  destruct (tk_pmm _ _ Hok) as [? ? Hlast ? _ _ _].
  assert (Hlow := tk_low _ _ Hok). assert (Hal := tk_aligned _ _ Hok).
  split_and!; try done.
  - constructor; try apply Hok.
    + by apply allocated_wf; [apply Hok|..].
    + intros j Hj. cbn [frames with_frames]. rewrite Hu. case_decide; [done|].
      by apply (tk_fresh _ _ Hok).
  - by apply Hok.
  - unfold page_addr, PAGESIZE in *. lia.
  - unfold page_addr, PAGESIZE in *. lia.
  - unfold page_addr, PAGESIZE in *. dlia.
  - intros j Hj. cbn [frames with_frames]. rewrite Hu. case_decide; [done|].
    intros _ E. by apply (page_addr_inj (frames s)) in E.
Qed.

(** Labelling a new, cleared table below an entry that was not present. *)
Lemma link_table_ok K R s W t i x k pde p s1 :
  reaches K R → tables_ok s W → W !! frame_of t = Some x → level x = S k → 0 ≤ i < 512 →
  request_frame s = Done (p, s1) →
  let s2 := store_entry t i (point_entry 1 1 1 (Z.shiftr (R (K p)) 12) pde) (zero_table (K p) s1) in
  tables_ok s2 (<[p := child x i]> W) ∧ points s2 (frame_of t) i p ∧ W !! p = None ∧
  (∀ j, 0 ≤ j < 512 → tables s2 !! (p, j) = Some zero_entry) ∧
  (∀ f j, f ≠ p → (f, j) ≠ (frame_of t, i) → tables s2 !! (f, j) = tables s !! (f, j)).
Proof.
  intros HK Hok Ht Hx Hi Hrq s2.
  destruct (request_frame_fresh _ _ _ _ Hok Hrq) as (Hok1 & Et & _ & Hp & Hp40 & Hpal & Hpu).
  assert (frame_of t ≠ p) as Hne by (intros E; congruence).
  assert (Z.shiftr (R (K p)) 12 * PAGESIZE = p) as Hppn.
  { rewrite (reach_back _ _ HK), Z.shiftr_div_pow2 by lia. unfold PAGESIZE in *. dlia. }
  assert (Hread : ∀ f j, tables s2 !! (f, j) =
    if decide ((f, j) = (frame_of t, i)) then Some (point_entry 1 1 1 (Z.shiftr (R (K p)) 12) pde)
    else if decide (f = p ∧ 0 ≤ j < 512) then Some zero_entry else tables s !! (f, j)).
  { intros f j. unfold s2. destruct (decide ((f, j) = (frame_of t, i))) as [E|E].
    - rewrite E. apply tables_store_eq.
    - rewrite tables_store_ne by done. rewrite tables_zero_table, (reach_frame _ _ HK), Et by lia. done. }
  assert (present (point_entry 1 1 1 (Z.shiftr (R (K p)) 12) pde) = 1 ∧
          page_ppn (point_entry 1 1 1 (Z.shiftr (R (K p)) 12) pde) * PAGESIZE = p ∧
          0 ≤ page_ppn (point_entry 1 1 1 (Z.shiftr (R (K p)) 12) pde) < 2 ^ 28) as (Hnp & Hnn & Hnr).
  { cbn [present page_ppn point_entry]. rewrite (wrap_small 28) by (unfold PAGESIZE in *; lia).
    split_and!; [done|done|unfold PAGESIZE in *; lia..]. }
  assert (frames s2 = frames s1) as Ef by done. clearbody s2. split_and!; [..|done| |].
  - constructor; rewrite ?Ef; try apply Hok1.
    + intros f y j Hf Hj. rewrite Hread. case_decide; [done|]. case_decide as Hd; [done|].
      apply lookup_insert_Some in Hf as [[<- <-]|[? Hf]]; [tauto|]. by eapply (tk_known _ _ Hok).
    + intros f y j e Hf Hj. rewrite Hread. case_decide; [by intros [= <-]|].
      case_decide as Hd; [by intros [= <-]|].
      apply lookup_insert_Some in Hf as [[<- <-]|[? Hf]]; [tauto|]. by eapply (tk_range _ _ Hok).
    + intros f y q j e Hf Hq Hj. rewrite Hread. intros He Hpr.
      destruct (decide ((f, j) = (frame_of t, i))) as [E|E].
      * simplify_eq. rewrite lookup_insert_ne in Hf by done. simplify_eq.
        by rewrite Hnn, lookup_insert_eq.
      * destruct (decide (f = p ∧ 0 ≤ j < 512)); [by simplify_eq|].
        apply lookup_insert_Some in Hf as [[<- <-]|[? Hf]]; [tauto|].
        assert (W !! (page_ppn e * PAGESIZE) = Some (child y j)) as Hc by (by eapply (tk_child _ _ Hok)).
        rewrite lookup_insert_ne; [done|congruence].
    + intros f y [[<- <-]|[? Hf]]%lookup_insert_Some; [done|]. by eapply (tk_frame _ _ Hok).
    + intros j Hj Hu. rewrite lookup_insert_ne by (apply not_eq_sym; auto).
      by apply (tk_fresh _ _ Hok1).
  - eexists. rewrite Hread, decide_True by done. split_and!; [done|by rewrite Hnp|lia..|done].
  - intros j Hj. rewrite Hread, decide_False by congruence. by rewrite decide_True.
  - intros f j Hf Hfj. rewrite Hread, decide_False by done. rewrite decide_False; [done|tauto].
Qed.

(** The leaf entry an index path leads to, when it is present. *)
Fixpoint walk (s : mmu) (f : Z) (ix : list Z) : option page_entry :=
  match ix with
  | [] => None
  | i :: ix =>
      e ← tables s !! (f, i);
      if present e =? 0 then None else
      match ix with [] => Some e | _ => walk s (page_ppn e * PAGESIZE) ix end
  end.

(** What a step that only adds tables leaves unchanged. *)
Record extends (s s' : mmu) (W W' : gmap Z X) : Prop := {
  ext_ok : tables_ok s' W';
  ext_sub : W ⊆ W';
  ext_cr3 : cr3 s' = cr3 s;
  ext_points f x i g : W !! f = Some x → points s f i g → points s' f i g;
  ext_walk f x ix :
    W !! f = Some x → List.length ix = S (level x) → Forall (λ i, 0 ≤ i < 512) ix →
    walk s' f ix = walk s f ix;
}.

Lemma extends_refl s W : tables_ok s W → extends s s W W.
Proof. by constructor. Qed.

Lemma extends_trans s1 s2 s3 W1 W2 W3 :
  extends s1 s2 W1 W2 → extends s2 s3 W2 W3 → extends s1 s3 W1 W3.
Proof.
  intros [? Hs ? Hp Hw] [? Hs' ? Hp' Hw']. constructor; try done.
  - by etrans.
  - congruence.
  - intros f x i g Hf Hpt. eapply Hp'; [|by eapply Hp]. by eapply lookup_weaken.
  - intros f x ix Hf Hl Hi. rewrite <- (Hw f x ix) by done. eapply Hw'; [|done..].
    by eapply lookup_weaken.
Qed.

(** Linking a cleared table changes no translation. *)
Lemma link_extends s s' W t i x k p pde :
  tables_ok s W → W !! t = Some x → level x = S k → W !! p = None →
  tables s !! (t, i) = Some pde → present pde = 0 →
  tables_ok s' (<[p := child x i]> W) → points s' t i p → cr3 s' = cr3 s →
  (∀ j, 0 ≤ j < 512 → tables s' !! (p, j) = Some zero_entry) →
  (∀ f j, f ≠ p → (f, j) ≠ (t, i) → tables s' !! (f, j) = tables s !! (f, j)) →
  extends s s' W (<[p := child x i]> W).
Proof.
  intros Hok Ht Hx Hp Hpde Hnp Hok' Hpt Hcr Hz Hsame. constructor; try done.
  - by apply insert_subseteq.
  - intros f y j g Hf (e & He & Hpr & Hr). exists e.
    rewrite Hsame; [done|congruence|]. intros E. simplify_eq.
  - intros f y ix. revert f y. induction ix as [|j ix IH]; intros f y Hf Hl Hi; [done|].
    apply Forall_cons in Hi as [Hj Hi]. cbn [walk].
    destruct (decide ((f, j) = (t, i))) as [E|E].
    + simplify_eq. rewrite Hpde. destruct Hpt as (e & He & Hpr & _ & Hg). rewrite He. cbn.
      rewrite Hnp. cbn. rewrite (proj2 (Z.eqb_neq _ _)) by done.
      destruct ix as [|j' ix]; [cbn in Hl; lia|]. apply Forall_cons in Hi as [Hj' _].
      rewrite Hg. cbn [walk]. by rewrite Hz.
    + rewrite Hsame; [|congruence|done]. destruct (tables s !! (f, j)) as [e|] eqn:He; [|done]. cbn.
      destruct (Z.eqb_spec (present e) 0); [done|]. destruct ix as [|j' ix]; [done|].
      cbn in Hl. destruct (level y) as [|q] eqn:Hy; [lia|].
      eapply IH; [by eapply (tk_child _ _ Hok)| |done].
      rewrite (level_child _ _ _ Hy). cbn. lia.
Qed.

Lemma get_table_ok K R err s W t i x k t' s' :
  reaches K R → tables_ok s W → W !! frame_of t = Some x → level x = S k → 0 ≤ i < 512 →
  get_table K R err t i s = Done (t', s') →
  ∃ W', extends s s' W W' ∧ W' !! frame_of t' = Some (child x i) ∧
        points s' (frame_of t) i (frame_of t').
Proof.
  intros HK Hok Ht Hx Hi Hrun. unfold get_table in Hrun.
  destruct (tk_known _ _ Hok _ _ i Ht Hi) as [pde Hpde].
  rewrite (load_entry_at _ _ _ _ Hpde), bind_done in Hrun.
  destruct (Z.eqb_spec (present pde) 0) as [Hnp|Hpr].
  - apply bind_done_inv in Hrun as ([p s1] & Hrq & Hrun). case_match; [done|]. simplify_eq.
    destruct (link_table_ok K R s W t i x k pde p s1 HK Hok Ht Hx Hi Hrq) as (Hok2 & Hpt & Hp & Hz & Hsame).
    destruct (request_frame_fresh _ _ _ _ Hok Hrq) as (_ & _ & Hcr & _ & Hp40 & _).
    rewrite (reach_frame _ _ HK) by done.
    exists (<[p := child x i]> W). rewrite lookup_insert_eq. split_and!; try done.
    by eapply link_extends.
  - simplify_eq. exists W. assert (Hc := tk_child _ _ Hok _ _ _ _ _ Ht Hx Hi Hpde Hpr).
    assert (Hr := tk_range _ _ Hok _ _ _ _ Ht Hi Hpde).
    rewrite entry_table_eq by done. destruct (tk_frame _ _ Hok _ _ Hc) as [Hc40 _].
    rewrite (reach_frame _ _ HK) by done.
    split_and!; [by apply extends_refl|done|]. by exists pde.
Qed.

(** ** Mapping a page *)
Definition mapped_entry (p flags : Z) (e : page_entry) : page_entry :=
  set_perms (WRITE_BIT_SET flags) (USER_BIT_SET flags) (NX_BIT_SET flags) (CACHE_BIT_SET flags)
    (set_present 1 (set_ppn (Z.shiftr p 12) e)).

Definition store_at (f i : Z) (e : page_entry) (s : mmu) : mmu :=
  with_tables (<[(f, i) := e]> (tables s)) s.

(** The chain of present entries from [f0] to the page table of [m]. *)
Definition leads (s : mmu) (W : gmap Z X) (f0 : Z) (x : X) (m : page_map_index) (f3 : Z) : Prop :=
  ∃ f1 f2, points s f0 (PDP_i m) f1 ∧ points s f1 (PD_i m) f2 ∧ points s f2 (PT_i m) f3 ∧
    W !! f0 = Some x ∧ W !! f1 = Some (child x (PDP_i m)) ∧
    W !! f2 = Some (child (child x (PDP_i m)) (PD_i m)) ∧
    W !! f3 = Some (child (child (child x (PDP_i m)) (PD_i m)) (PT_i m)).

Lemma map_page_ok K R pml4 v p flags s W x s' :
  reaches K R → tables_ok s W → W !! frame_of pml4 = Some x → level x = 3%nat →
  map_page K R pml4 v p flags s = Done s' →
  ∃ W' s3 f3 e, extends s s3 W W' ∧ leads s3 W' (frame_of pml4) x (address_to_map v) f3 ∧
    tables s3 !! (f3, P_i (address_to_map v)) = Some e ∧
    s' = store_at f3 (P_i (address_to_map v)) (mapped_entry p flags e) s3.
Proof.
  intros HK Hok Hx Hl Hrun. destruct (address_to_map_ok v) as (B0 & B1 & B2 & B3).
  unfold map_page in Hrun. do 2 (case_match; [done|]).
  apply bind_done_inv in Hrun as ([t1 s1] & R1 & Hrun).
  apply bind_done_inv in Hrun as ([t2 s2] & R2 & Hrun).
  apply bind_done_inv in Hrun as ([t3 s3] & R3 & Hrun).
  destruct (get_table_ok _ _ _ _ _ _ _ _ _ _ _ HK Hok Hx Hl B0 R1) as (W1 & E1 & L1 & P1).
  apply level_child with (i := PDP_i (address_to_map v)) in Hl as Hl1.
  destruct (get_table_ok _ _ _ _ _ _ _ _ _ _ _ HK (ext_ok _ _ _ _ E1) L1 Hl1 B1 R2) as (W2 & E2 & L2 & P2).
  apply level_child with (i := PD_i (address_to_map v)) in Hl1 as Hl2.
  destruct (get_table_ok _ _ _ _ _ _ _ _ _ _ _ HK (ext_ok _ _ _ _ E2) L2 Hl2 B2 R3) as (W3 & E3 & L3 & P3).
  destruct (tk_known _ _ (ext_ok _ _ _ _ E3) _ _ _ L3 B3) as [e He].
  rewrite (load_entry_at _ _ _ _ He), bind_done in Hrun. simplify_eq.
  exists W3, s3, (frame_of t3), e. split_and!; [|eexists _, _; split_and!|done|done].
  - eapply extends_trans; [eapply extends_trans|]; done.
  - eapply ext_points; [exact E3| |]. { eapply lookup_weaken, E2. by eapply lookup_weaken, E1. }
    eapply ext_points; [exact E2| |done]. by eapply lookup_weaken, E1.
  - eapply ext_points; [exact E3| |done]. by eapply lookup_weaken, E2.
  - done.
  - eapply lookup_weaken, E3. eapply lookup_weaken, E2. by eapply lookup_weaken, E1.
  - eapply lookup_weaken, E3. by eapply lookup_weaken, E2.
  - by eapply lookup_weaken, E3.
  - done.
Qed.

Definition path_of (m : page_map_index) : list Z := [PDP_i m; PD_i m; PT_i m; P_i m].

Lemma path_of_ok v : Forall (λ i, 0 ≤ i < 512) (path_of (address_to_map v)).
Proof. destruct (address_to_map_ok v) as (? & ? & ? & ?). by repeat (apply Forall_cons_2; [done|]). Qed.

Lemma tables_store_at f i e s k :
  tables (store_at f i e s) !! k = if decide (k = (f, i)) then Some e else tables s !! k.
Proof. cbn. rewrite lookup_insert. by repeat case_decide. Qed.

(** An entry of a page table proper may be anything. *)
Lemma store_leaf_ok s W f x i e :
  tables_ok s W → W !! f = Some x → level x = 0%nat → 0 ≤ page_ppn e < 2 ^ 28 →
  tables_ok (store_at f i e s) W.
Proof.
  intros Hok Hf Hx He. constructor; try apply Hok.
  - intros g y j Hg Hj. rewrite tables_store_at. case_decide; [done|]. by eapply (tk_known _ _ Hok).
  - intros g y j e' Hg Hj. rewrite tables_store_at. case_decide; [by intros [= <-]|].
    by eapply (tk_range _ _ Hok).
  - intros g y k j e' Hg Hy Hj. rewrite tables_store_at. case_decide; [simplify_eq; lia|].
    by eapply (tk_child _ _ Hok).
Qed.

Lemma points_store_leaf s (W : gmap Z X) f x i e g y j h :
  W !! f = Some x → level x = 0%nat → W !! g = Some y → level y ≠ 0%nat →
  points s g j h → points (store_at f i e s) g j h.
Proof.
  intros Hf Hx Hg Hy (e' & He' & Hr). exists e'. rewrite tables_store_at, decide_False; [done|].
  intros E. simplify_eq.
Qed.

Lemma walk_points s f i g ix : points s f i g → ix ≠ [] → walk s f (i :: ix) = walk s g ix.
Proof.
  intros (e & He & Hp & _ & Hg) Hix. cbn. rewrite He. cbn.
  rewrite (proj2 (Z.eqb_neq _ _)), Hg by done. by destruct ix.
Qed.

Lemma walk_leads s W f0 x m f3 :
  leads s W f0 x m f3 → walk s f0 (path_of m) = walk s f3 [P_i m].
Proof.
  intros (f1 & f2 & P1 & P2 & P3 & _). unfold path_of.
  by rewrite (walk_points _ _ _ _ _ P1), (walk_points _ _ _ _ _ P2), (walk_points _ _ _ _ _ P3).
Qed.

Lemma leads_level s W f0 x m f3 :
  leads s W f0 x m f3 → level x = 3%nat → ∃ y, W !! f3 = Some y ∧ level y = 0%nat.
Proof.
  intros (f1 & f2 & _ & _ & _ & _ & _ & _ & H3) Hx. eexists. split; [exact H3|].
  by do 3 (apply level_child).
Qed.

Lemma leads_store s W f0 x m f3 g y i e :
  leads s W f0 x m f3 → level x = 3%nat → W !! g = Some y → level y = 0%nat →
  leads (store_at g i e s) W f0 x m f3.
Proof.
  intros (f1 & f2 & P1 & P2 & P3 & H0 & H1 & H2 & H3) Hx Hg Hy.
  apply level_child with (i := PDP_i m) in Hx as Hx1. apply level_child with (i := PD_i m) in Hx1 as Hx2.
  exists f1, f2. split_and!; try done; by (eapply points_store_leaf; try done; lia).
Qed.

(** One level of a walk that stops at an entry that is not present. *)
Lemma next_table_walk K R s W t x k i ix :
  reaches K R → tables_ok s W → W !! frame_of t = Some x → level x = S k → 0 ≤ i < 512 → ix ≠ [] →
  (next_table K t i s = Done None ∧ walk s (frame_of t) (i :: ix) = None) ∨
  ∃ g, next_table K t i s = Done (Some g) ∧ points s (frame_of t) i (frame_of g) ∧
       W !! frame_of g = Some (child x i).
Proof.
  intros HK Hok Ht Hx Hi Hix. destruct (tk_known _ _ Hok _ _ i Ht Hi) as [e He].
  unfold next_table. rewrite (load_entry_at _ _ _ _ He), bind_done. cbn [walk]. rewrite He. cbn.
  destruct (Z.eqb_spec (present e) 0) as [H0|H0]; [by left|right].
  assert (Hc := tk_child _ _ Hok _ _ _ _ _ Ht Hx Hi He H0).
  assert (Hr := tk_range _ _ Hok _ _ _ _ Ht Hi He).
  destruct (tk_frame _ _ Hok _ _ Hc) as [Hcb _]. rewrite entry_table_eq by done.
  eexists. split; [done|]. rewrite (reach_frame _ _ HK) by done. split; [|done]. by exists e.
Qed.

Lemma find_table_walk K R s W pml4 x m :
  reaches K R → tables_ok s W → W !! frame_of pml4 = Some x → level x = 3%nat → map_index_ok m →
  (find_table K pml4 m s = Done None ∧ walk s (frame_of pml4) (path_of m) = None) ∨
  ∃ g, find_table K pml4 m s = Done (Some g) ∧ leads s W (frame_of pml4) x m (frame_of g).
Proof.
  intros HK Hok Hp Hx (B0 & B1 & B2 & B3). unfold find_table, path_of.
  destruct (next_table_walk K R s W pml4 x _ (PDP_i m) [PD_i m; PT_i m; P_i m] HK Hok Hp Hx B0) as
    [[-> ->]|(g1 & -> & P1 & H1)]; [done|by left|]. rewrite bind_done. cbv beta iota.
  apply level_child with (i := PDP_i m) in Hx as Hx1.
  rewrite (walk_points _ _ _ _ _ P1) by done.
  destruct (next_table_walk K R s W _ _ _ (PD_i m) [PT_i m; P_i m] HK Hok H1 Hx1 B1) as
    [[-> ->]|(g2 & -> & P2 & H2)]; [done|by left|]. rewrite bind_done. cbv beta iota.
  apply level_child with (i := PD_i m) in Hx1 as Hx2.
  rewrite (walk_points _ _ _ _ _ P2) by done.
  destruct (next_table_walk K R s W _ _ _ (PT_i m) [P_i m] HK Hok H2 Hx2 B2) as
    [[-> ->]|(g3 & -> & P3 & H3)]; [done|by left|right].
  exists g3. split; [done|]. by eexists _, _.
Qed.

Definition translation (o : option page_entry) : Z :=
  match o with Some e => page_ppn e * PAGESIZE | None => 0 end.

(** [virtual_to_physical] is the walk. *)
Lemma virtual_to_physical_walk s W pml4 x v :
  tables_ok s W → W !! frame_of pml4 = Some x → level x = 3%nat →
  virtual_to_physical pml4 v s =
  Done (translation (walk s (frame_of pml4) (path_of (address_to_map v)))).
Proof.
  intros Hok Hp Hx. assert (Hm := address_to_map_ok v). unfold virtual_to_physical.
  destruct (find_table_walk id id s W pml4 x (address_to_map v) reaches_id Hok Hp Hx Hm) as
    [[-> ->]|(g & -> & Hld)]; [done|]. rewrite bind_done. cbv beta iota.
  rewrite (walk_leads _ _ _ _ _ _ Hld).
  destruct (leads_level _ _ _ _ _ _ Hld Hx) as (y & Hy & _). destruct Hm as (_ & _ & _ & B3).
  destruct (tk_known _ _ Hok _ _ _ Hy B3) as [e He].
  rewrite (load_entry_at _ _ _ _ He), bind_done. cbn [walk]. rewrite He. cbn.
  destruct (present e =? 0); [done|]. cbn. rewrite shiftl12, u64_small; [done|].
  assert (Hr := tk_range _ _ Hok _ _ _ _ Hy B3 He). unfold PAGESIZE. lia.
Qed.

(** The permission walks, where the directories are present. *)
Lemma page_table_of_leads K R s W pml4 x m f3 :
  reaches K R → tables_ok s W → leads s W (frame_of pml4) x m f3 →
  ∃ t, page_table_of K pml4 m s = Done t ∧ frame_of t = f3.
Proof.
  intros HK Hok (f1 & f2 & (e0 & E0 & _ & R0 & <-) & (e1 & E1 & _ & R1 & <-) & (e2 & E2 & _ & R2 & <-) & _ & H1 & H2 & H3).
  unfold page_table_of. rewrite (load_entry_at _ _ _ _ E0), bind_done, entry_table_eq by done.
  assert (∀ f y, W !! f = Some y → frame_of (K f) = f) as HF.
  { intros f y Hf. apply (reach_frame _ _ HK). by apply (tk_frame _ _ Hok _ _ Hf). }
  rewrite (load_entry_at _ _ _ e1), bind_done, entry_table_eq by (done || by rewrite (HF _ _ H1)).
  rewrite (load_entry_at _ _ _ e2), bind_done, entry_table_eq by (done || by rewrite (HF _ _ H2)).
  eexists. split; [done|]. by apply (HF _ _ H3).
Qed.

(** ** Mapping returns or panics *)
Definition live_ok (s : mmu) (W : gmap Z X) : Prop := tables_ok s W ∧ pmm_live (frames s).

Lemma request_frame_rop s W :
  live_ok s W → returns_or_panics (request_frame s) ∧
  ∀ x, request_frame s = Done x → live_ok x.2 W ∧ cr3 x.2 = cr3 s.
Proof.
  intros [Hok Hlv]. destruct (request_page_rop _ Hlv) as [Hret Hpost].
  split.
  - unfold request_frame. destruct Hret as [[[p a] ->]|[why ->]]; [apply rop_done|apply rop_panic].
  - intros [p s'] E. destruct (request_frame_fresh _ _ _ _ Hok E) as (Hok' & _ & Hcr & _).
    split; [split; [done|]|done]. unfold request_frame in E. inv_done. simplify_eq. by eapply Hpost.
Qed.

Lemma get_table_rop K R err s W t i x k :
  reaches K R → live_ok s W → W !! frame_of t = Some x → level x = S k → 0 ≤ i < 512 →
  returns_or_panics (get_table K R err t i s) ∧
  ∀ r, get_table K R err t i s = Done r →
    ∃ W', extends s r.2 W W' ∧ live_ok r.2 W' ∧ W' !! frame_of r.1 = Some (child x i).
Proof.
  intros HK [Hok Hlv] Ht Hx Hi. destruct (tk_known _ _ Hok _ _ i Ht Hi) as [pde Hpde].
  destruct (request_frame_rop s W (conj Hok Hlv)) as [Hret Hpost].
  assert (Hshape : returns_or_panics (get_table K R err t i s) ∧
    ∀ r, get_table K R err t i s = Done r → pmm_live (frames r.2)).
  { unfold get_table. rewrite (load_entry_at _ _ _ _ Hpde), bind_done. case_match.
    - apply (rop_bind (λ x, pmm_live (frames x.2))); [done|intros y Hy; by apply Hpost in Hy as [[_ ?] _]|].
      intros [p s1] Hl1. case_match; [by split; [apply rop_panic|]|].
      split; [apply rop_done|]. by intros r [= <-].
    - split; [apply rop_done|]. by intros r [= <-]. }
  destruct Hshape as [Hr1 Hr2]. split; [done|]. intros [t' s'] E.
  destruct (get_table_ok _ _ _ _ _ _ _ _ _ _ _ HK Hok Ht Hx Hi E) as (W' & He & Hl & _).
  exists W'. split_and!; try done. split; [apply He|by apply (Hr2 _ E)].
Qed.

Lemma map_page_rop K R pml4 v p flags s W x :
  reaches K R → live_ok s W → W !! frame_of pml4 = Some x → level x = 3%nat →
  returns_or_panics (map_page K R pml4 v p flags s) ∧
  ∀ s', map_page K R pml4 v p flags s = Done s' →
    ∃ W', live_ok s' W' ∧ W ⊆ W' ∧ cr3 s' = cr3 s.
Proof.
  intros HK Hlv Hx Hl. destruct (address_to_map_ok v) as (B0 & B1 & B2 & B3).
  unfold map_page. do 2 (case_match; [by split; [apply rop_panic|]|]).
  eapply rop_bind; [by eapply get_table_rop|by eapply get_table_rop|].
  intros [t1 s1] (W1 & E1 & Hlv1 & L1). cbn [fst snd] in *.
  apply level_child with (i := PDP_i (address_to_map v)) in Hl as Hl1.
  eapply rop_bind; [by eapply get_table_rop|by eapply get_table_rop|].
  intros [t2 s2] (W2 & E2 & Hlv2 & L2). cbn [fst snd] in *.
  apply level_child with (i := PD_i (address_to_map v)) in Hl1 as Hl2.
  eapply rop_bind; [by eapply get_table_rop|by eapply get_table_rop|].
  intros [t3 s3] (W3 & E3 & [Hok3 Hlv3] & L3). cbn [fst snd] in *.
  apply level_child with (i := PT_i (address_to_map v)) in Hl2 as Hl3.
  destruct (tk_known _ _ Hok3 _ _ _ L3 B3) as [e He].
  rewrite (load_entry_at _ _ _ _ He), bind_done. split; [apply rop_done|]. intros s' [= <-].
  assert (HE := extends_trans _ _ _ _ _ _ (extends_trans _ _ _ _ _ _ E1 E2) E3).
  exists W3. split_and!; [split|apply HE|apply HE]; [|done].
  eapply (store_leaf_ok s3 W3 (frame_of t3)); [done..|]. cbn. apply wrap_range. lia.
Qed.
End labels.

(** ** The two labellings *)
Abbreviation levels_ok := (tables_ok id (λ k (_ : Z), pred k)).
Abbreviation paths_ok := (tables_ok (λ π : list Z, (3 - List.length π)%nat) (λ π i, π ++ [i])).

Lemma level_child_levels (x : nat) (i : Z) k : id x = S k → id (pred x) = k.
Proof. unfold id. lia. Qed.
Lemma level_child_paths (π : list Z) (i : Z) k :
  (3 - List.length π)%nat = S k → (3 - List.length (π ++ [i]))%nat = k.
Proof. rewrite length_app. cbn. lia. Qed.

Lemma mapped_perms p flags e :
  0 ≤ flags < 256 → entry_perms (mapped_entry p flags e) = Z.land flags 15.
Proof.
  intros Hf. change (entry_perms (mapped_entry p flags e)) with (entry_perms (mapped_entry 0 flags zero_entry)).
  apply Z.eqb_eq.
  by apply (range_check (λ f, entry_perms (mapped_entry 0 f zero_entry) =? Z.land f 15) 0 256).
Qed.

Lemma land_fff x : Z.land x 0xfff = x mod PAGESIZE.
Proof. change 0xfff with (Z.ones 12). by rewrite Z.land_ones by lia. Qed.

Lemma mapped_ppn p flags e :
  p mod PAGESIZE = 0 → page_ppn (mapped_entry p flags e) * PAGESIZE = p mod 2 ^ 40.
Proof.
  intros Hp. cbn [page_ppn mapped_entry set_perms set_present set_ppn].
  rewrite Z.shiftr_div_pow2 by lia. unfold wrap, PAGESIZE in *. dlia.
Qed.

Lemma map_page_aligned K R pml4 v p flags s s' :
  map_page K R pml4 v p flags s = Done s' → v mod PAGESIZE = 0 ∧ p mod PAGESIZE = 0.
Proof.
  unfold map_page. rewrite !land_fff.
  destruct (Z.eqb_spec (v mod PAGESIZE) 0), (Z.eqb_spec (p mod PAGESIZE) 0); done.
Qed.

(** C14: mapping a page and asking for it back. On well-formed tables [map_memory] returns
    or panics; after it returns [virtual_to_physical] gives the physical address that was
    mapped, cut to 40 bits, [get_page_perms_hh] gives the low four permission flags, and
    the tables are still well formed. *)
Theorem map_translates pml4 v p flags s L :
  levels_ok s L → pmm_live (frames s) → L !! frame_of pml4 = Some 3%nat → 0 ≤ flags < 256 →
  returns_or_panics (map_memory pml4 v p flags s) ∧
  ∀ s', map_memory pml4 v p flags s = Done s' →
    virtual_to_physical pml4 v s' = Done (p mod 2 ^ 40) ∧
    get_page_perms_hh pml4 v s' = Done (Z.land flags 15) ∧
    ∃ L', levels_ok s' L' ∧ L ⊆ L'.
Proof.
  intros Hok Hlv Hp Hf. split.
  { eapply (map_page_rop _ _ level_child_levels _ _ _ _ _ _ _ L 3%nat reaches_kernel); done. }
  intros s' E. destruct (map_page_aligned _ _ _ _ _ _ _ _ E) as [_ Hal].
  destruct (map_page_ok _ _ level_child_levels _ _ _ _ _ _ _ L _ _ reaches_kernel Hok Hp eq_refl E) as
    (L' & s3 & f3 & e & Hext & Hld & He & ->).
  set (i3 := P_i (address_to_map v)) in *. set (e' := mapped_entry p flags e).
  destruct (leads_level _ _ level_child_levels _ _ _ _ _ _ Hld eq_refl) as (y & Hy & Hy0).
  assert (Hld' := leads_store _ _ level_child_levels _ _ _ _ _ _ _ _ i3 e' Hld eq_refl Hy Hy0).
  assert (Hok' : levels_ok (store_at f3 i3 e' s3) L').
  { eapply store_leaf_ok; [apply Hext|done|done|]. cbn. apply wrap_range. lia. }
  assert (L' !! frame_of pml4 = Some 3%nat) as Hp' by (eapply lookup_weaken, Hext; done).
  split_and!.
  - rewrite (virtual_to_physical_walk _ _ level_child_levels _ L' _ 3%nat) by done.
    rewrite (walk_leads _ _ _ _ _ _ _ Hld'). cbn [walk].
    rewrite tables_store_at, decide_True by done. cbn [mbind option_bind].
    change (present e' =? 0) with false. cbv iota. cbn [translation]. f_equal. by apply mapped_ppn.
  - unfold get_page_perms_hh, perms_at.
    destruct (page_table_of_leads _ _ _ _ _ _ _ _ _ _ reaches_kernel Hok' Hld') as (t & -> & Ht).
    rewrite bind_done. fold i3. rewrite (load_entry_at _ _ _ e'), bind_done.
    + unfold e'. by rewrite mapped_perms.
    + by rewrite Ht, tables_store_at, decide_True.
  - exists L'. split; [done|apply Hext].
Qed.

(** ** What a step does not touch, when no table is shared *)
Definition path3 (m : page_map_index) : list Z := [PDP_i m; PD_i m; PT_i m].

Lemma leads_path s W f0 m f3 :
  leads (λ π i, π ++ [i]) s W f0 [] m f3 → W !! f3 = Some (path3 m).
Proof. by intros (f1 & f2 & _ & _ & _ & _ & _ & _ & H3). Qed.

Lemma slot_path s s' W f0 f0' m m' f f' :
  leads (λ π i, π ++ [i]) s W f0 [] m f → leads (λ π i, π ++ [i]) s' W f0' [] m' f' →
  (f, P_i m) = (f', P_i m') → m = m'.
Proof.
  intros H%leads_path H'%leads_path E. injection E as -> Ei. rewrite H in H'.
  destruct m, m'. unfold path3 in *. cbn in *. by simplify_eq.
Qed.

(** Writing one page table entry changes the translation of no other path. *)
Lemma walk_store_other s W g ρ i e f π ix :
  paths_ok s W → W !! g = Some ρ → List.length ρ = 3%nat →
  W !! f = Some π → (List.length π + List.length ix = 4)%nat → Forall (λ i, 0 ≤ i < 512) ix →
  π ++ ix ≠ ρ ++ [i] → walk (store_at g i e s) f ix = walk s f ix.
Proof.
  intros Hok Hg Hρ. revert f π. induction ix as [|j ix IH]; intros f π Hf Hlen Hix Hne; [done|].
  apply Forall_cons in Hix as [Hj Hix]. cbn [walk]. rewrite tables_store_at, decide_False.
  - destruct (tables s !! (f, j)) as [e'|] eqn:He; [|done]. cbn.
    destruct (Z.eqb_spec (present e') 0); [done|]. destruct ix as [|j' ix]; [done|].
    cbn in Hlen. eapply (IH _ (π ++ [j])); [|rewrite length_app; cbn; lia|done|by rewrite <- app_assoc].
    eapply (tk_child _ _ _ _ Hok f π (2 - List.length π)); try done. lia.
  - intros E. simplify_eq. rewrite Hρ in Hlen. destruct ix; [done|cbn in Hlen; lia].
Qed.

Lemma path_of_inj m m' : path_of m = path_of m' → m = m'.
Proof. destruct m, m'. cbn. intros. by simplify_eq. Qed.

(** mapping a page changes no other translation: for every address of another page,
    [virtual_to_physical] gives the same answer before and after, provided the directory
    shares none of its tables; new tables are unshared too. *)
Theorem map_frame pml4 v p flags s s' W v' :
  paths_ok s W → W !! frame_of pml4 = Some [] →
  map_memory pml4 v p flags s = Done s' → address_to_map v' ≠ address_to_map v →
  virtual_to_physical pml4 v' s' = virtual_to_physical pml4 v' s ∧
  ∃ W', paths_ok s' W' ∧ W ⊆ W'.
Proof.
  intros Hok Hp E Hne.
  destruct (map_page_ok _ _ level_child_paths _ _ _ _ _ _ _ W _ _ reaches_kernel Hok Hp eq_refl E) as
    (W' & s3 & f3 & e & Hext & Hld & He & ->).
  assert (Hp' : W' !! frame_of pml4 = Some []) by (eapply lookup_weaken, Hext; done).
  destruct (leads_level _ _ level_child_paths _ _ _ _ _ _ Hld eq_refl) as (y & Hy & Hy0).
  assert (Hok' : paths_ok (store_at f3 (P_i (address_to_map v)) (mapped_entry p flags e) s3) W').
  { eapply store_leaf_ok; [apply Hext|done|done|]. cbn. apply wrap_range. lia. }
  split; [|exists W'; split; [done|apply Hext]].
  rewrite (virtual_to_physical_walk _ _ level_child_paths _ W' _ []) by done.
  rewrite (virtual_to_physical_walk _ _ level_child_paths s W _ []) by done.
  do 2 f_equal. rewrite (walk_store_other s3 W' _ (path3 (address_to_map v)) _ _ _ []).
  - eapply ext_walk; [exact Hext|exact Hp|done|apply path_of_ok].
  - apply Hext.
  - by apply leads_path in Hld.
  - done.
  - done.
  - done.
  - apply path_of_ok.
  - intros Eq. by apply Hne, path_of_inj.
Qed.

(** unmapping removes exactly one page: [unmap_current_memory] always returns, the
    page translates to NULL afterwards, and every other page of the current directory
    translates as before. *)
Theorem unmap_translates v s W :
  paths_ok s W → W !! frame_of (get_pml4 s) = Some [] →
  ∃ s', unmap_current_memory v s = Done s' ∧ paths_ok s' W ∧
    virtual_to_physical (get_pml4 s) v s' = Done 0 ∧
    ∀ v', address_to_map v' ≠ address_to_map v →
      virtual_to_physical (get_pml4 s) v' s' = virtual_to_physical (get_pml4 s) v' s.
Proof.
  intros Hok Hp. assert (Hm := address_to_map_ok v). unfold unmap_current_memory, unmap_page.
  destruct (find_table_walk _ _ level_child_paths TO_KERNEL_MAP FROM_KERNEL_MAP s W (get_pml4 s) []
              (address_to_map v) reaches_kernel Hok Hp eq_refl Hm) as [[-> Hw]|(g & -> & Hld)];
    rewrite bind_done; cbv beta iota.
  { exists s. split_and!; try done.
    by rewrite (virtual_to_physical_walk _ _ level_child_paths s W _ []), Hw by done. }
  destruct (leads_level _ _ level_child_paths _ _ _ _ _ _ Hld eq_refl) as (y & Hy & Hy0).
  destruct Hm as (_ & _ & _ & B3). destruct (tk_known _ _ _ _ Hok _ _ _ Hy B3) as [e He].
  rewrite (load_entry_at _ _ _ _ He), bind_done. set (i3 := P_i (address_to_map v)) in *.
  change (store_entry g i3 (set_present 0 e) s) with (store_at (frame_of g) i3 (set_present 0 e) s).
  assert (Hok' : paths_ok (store_at (frame_of g) i3 (set_present 0 e) s) W).
  { eapply store_leaf_ok; [done..|]. exact (tk_range _ _ _ _ Hok _ _ _ _ Hy B3 He). }
  eexists. split; [done|]. split; [done|]. split.
  - rewrite (virtual_to_physical_walk _ _ level_child_paths _ W _ []) by done.
    assert (Hld' := leads_store _ _ level_child_paths _ _ _ _ _ _ _ _ i3 (set_present 0 e) Hld eq_refl Hy Hy0).
    rewrite (walk_leads _ _ _ _ _ _ _ Hld'). cbn [walk].
    by rewrite tables_store_at, decide_True.
  - intros v' Hne. rewrite !(virtual_to_physical_walk _ _ level_child_paths _ W _ []) by done.
    do 2 f_equal. apply (walk_store_other s W _ (path3 (address_to_map v)) _ _ _ []); try done.
    + by apply leads_path in Hld.
    + apply path_of_ok.
    + intros Eq. by apply Hne, path_of_inj.
Qed.

(** ** Permissions over a range *)
Definition with_perms (q : Z) (e : page_entry) : page_entry :=
  set_perms (Z.land q 1) (Z.shiftr (Z.land q 2) 1) (Z.shiftr (Z.land q 4) 2)
    (Z.shiftr (Z.land q 8) 3) e.

Lemma with_perms_entry q e : 0 ≤ q < 256 → entry_perms (with_perms q e) = Z.land q 15.
Proof.
  intros Hf. change (entry_perms (with_perms q e)) with (entry_perms (with_perms q zero_entry)).
  apply Z.eqb_eq. by apply (range_check (λ f, entry_perms (with_perms f zero_entry) =? Z.land f 15) 0 256).
Qed.

Abbreviation leads' := (leads (λ π i, π ++ [i])).

(** One turn of [mprotect]. *)
Lemma set_perms_at_ok pml4 a q s W f :
  paths_ok s W → W !! frame_of pml4 = Some [] → leads' s W (frame_of pml4) [] (address_to_map a) f →
  ∃ e, tables s !! (f, P_i (address_to_map a)) = Some e ∧
    set_page_perms_hh pml4 a q s = Done (store_at f (P_i (address_to_map a)) (with_perms q e) s) ∧
    paths_ok (store_at f (P_i (address_to_map a)) (with_perms q e) s) W.
Proof.
  intros Hok Hp Hld. assert (Hf := leads_path _ _ _ _ _ Hld).
  destruct (address_to_map_ok a) as (_ & _ & _ & B3).
  destruct (tk_known _ _ _ _ Hok _ _ _ Hf B3) as [e He]. exists e. split; [done|].
  unfold set_page_perms_hh, set_perms_at.
  destruct (page_table_of_leads _ _ _ _ _ _ _ _ _ _ reaches_kernel Hok Hld) as (t & -> & <-).
  rewrite bind_done, (load_entry_at _ _ _ _ He), bind_done. split; [done|].
  eapply store_leaf_ok; [done..|]. exact (tk_range _ _ _ _ Hok _ _ _ _ Hf B3 He).
Qed.

Section mprotect.
Context (s : mmu) (W : gmap Z (list Z)) (pml4 start q : Z).
Hypothesis Hok : paths_ok s W.
Hypothesis Hp : W !! frame_of pml4 = Some [].
Hypothesis Hq : 0 ≤ q < 256.
Let pg k := address_to_map (start + k * PAGESIZE).

(** After [k] turns the first [k] pages have the permissions, the others are as before. *)
Definition protected (k : Z) (t : mmu) : Prop :=
  paths_ok t W ∧ (∀ m f, leads' s W (frame_of pml4) [] m f → leads' t W (frame_of pml4) [] m f) ∧
  (∀ j f, 0 ≤ j < k → leads' s W (frame_of pml4) [] (pg j) f →
     ∃ e, tables t !! (f, P_i (pg j)) = Some e ∧ entry_perms e = Z.land q 15) ∧
  (∀ m f, leads' s W (frame_of pml4) [] m f → (∀ j, 0 ≤ j < k → m ≠ pg j) →
     tables t !! (f, P_i m) = tables s !! (f, P_i m)).

Lemma protected_step k t f :
  0 ≤ k → leads' s W (frame_of pml4) [] (pg k) f → protected k t →
  ∃ t', set_page_perms_hh pml4 (start + k * PAGESIZE) q t = Done t' ∧ protected (k + 1) t'.
Proof.
  intros Hk Hld (Hokt & Hlt & Hdone & Hrest).
  destruct (set_perms_at_ok pml4 (start + k * PAGESIZE) q t W f Hokt Hp (Hlt _ _ Hld)) as (e & He & -> & Hok').
  fold (pg k) in *. eexists. split; [done|]. split_and!; [done|..].
  - intros m g Hm. eapply (leads_store _ _ level_child_paths); [by apply Hlt|done| |].
    + by apply leads_path in Hld.
    + done.
  - intros j g Hj Hg. rewrite tables_store_at. case_decide as E.
    + eexists. split; [done|by apply with_perms_entry].
    + apply Hdone; [|done]. destruct (decide (j = k)) as [->|]; [|lia].
      exfalso. apply E. f_equal. assert (Hg1 := leads_path _ _ _ _ _ Hg).
      destruct Hg as (g1 & g2 & (a0 & A0 & _ & _ & <-) & (a1 & A1 & _ & _ & <-) & (a2 & A2 & _ & _ & <-) & _).
      destruct Hld as (h1 & h2 & (c0 & C0 & _ & _ & <-) & (c1 & C1 & _ & _ & <-) & (c2 & C2 & _ & _ & <-) & _).
      by simplify_eq.
  - intros m g Hm Hne. rewrite tables_store_at, decide_False.
    + apply Hrest; [done|]. intros j Hj. apply Hne. lia.
    + intros E. apply (Hne k); [lia|]. by eapply (slot_path s s W).
Qed.

Lemma protect_loop n :
  (∀ k, 0 ≤ k < Z.of_nat n → ∃ f, leads' s W (frame_of pml4) [] (pg k) f) →
  ∃ t, for_up n 0 (λ k t, set_page_perms_hh pml4 (start + k * PAGESIZE) q t) s = Done t ∧
       protected (Z.of_nat n) t.
Proof.
  intros Hall. apply (for_up_total protected n 0).
  - intros k t Hk Ht. destruct (Hall k) as [f Hf]; [lia|].
    eapply protected_step; [lia|done|done].
  - split_and!; [done|done| |done]. intros j f Hj. lia.
Qed.
End mprotect.

(** The pages [mprotect] visits for [size] bytes at [address]. *)
Definition page_of (a : Z) : Z := a / PAGESIZE * PAGESIZE.

Lemma land_not_fff x : Z.land x (Z.lnot 0xfff) = page_of x.
Proof.
  unfold page_of. change 0xfff with (Z.ones 12). rewrite <- Z.ldiff_land, Z.ldiff_ones_r by lia.
  rewrite shiftl12. by rewrite Z.shiftr_div_pow2 by lia.
Qed.

Lemma address_to_map_page a b : a / PAGESIZE = b / PAGESIZE → address_to_map a = address_to_map b.
Proof.
  intros E. rewrite !address_to_map_eq.
  assert (∀ x n, 0 ≤ n → x / 2 ^ (12 + n) = x / PAGESIZE / 2 ^ n) as H.
  { intros x n Hn. rewrite Z.pow_add_r by lia. change (2 ^ 12) with PAGESIZE.
    rewrite Z.div_div; [done|unfold PAGESIZE; lia|lia]. }
  change (2 ^ 39) with (2 ^ (12 + 27)). change (2 ^ 30) with (2 ^ (12 + 18)).
  change (2 ^ 21) with (2 ^ (12 + 9)). rewrite !H by lia. change (2 ^ 12) with PAGESIZE.
  by rewrite E.
Qed.

Lemma get_perms_leads pml4 a s W f e :
  paths_ok s W → leads' s W (frame_of pml4) [] (address_to_map a) f →
  tables s !! (f, P_i (address_to_map a)) = Some e →
  get_page_perms_hh pml4 a s = Done (entry_perms e).
Proof.
  intros Hok Hld He. unfold get_page_perms_hh, perms_at.
  destruct (page_table_of_leads _ _ _ _ _ _ _ _ _ _ reaches_kernel Hok Hld) as (t & -> & <-).
  by rewrite bind_done, (load_entry_at _ _ _ _ He), bind_done.
Qed.

(** The loop bounds of [mprotect]: its [k]-th page is the one of some byte of the range,
    and every byte of the range is on one of its pages. *)
Lemma mprotect_pages address size n :
  0 ≤ address → 0 < size → n = (page_of (address + size + 0xfff) - page_of address) / PAGESIZE →
  0 ≤ n ∧
  (∀ k, 0 ≤ k < n → ∃ a, address ≤ a < address + size ∧
     address_to_map a = address_to_map (page_of address + k * PAGESIZE)) ∧
  (∀ a, address ≤ a < address + size → ∃ k, 0 ≤ k < n ∧
     address_to_map a = address_to_map (page_of address + k * PAGESIZE)).
Proof.
  intros Ha Hs ->. unfold page_of, PAGESIZE. split_and!; [dlia|..].
  - intros k Hk. exists (Z.max address (address / 4096 * 4096 + k * 4096)). split; [dlia|].
    apply address_to_map_page. unfold PAGESIZE. dlia.
  - intros a Hr. exists (a / 4096 - address / 4096). split; [dlia|].
    apply address_to_map_page. unfold PAGESIZE. dlia.
Qed.

(** [mprotect] sets the permissions of every page it covers and of no other. If the
    directories of the range are present, it returns, each page that has a byte of the
    range then carries the low four permission bits, every mapped page outside keeps its
    entry, and the tables stay well formed. *)
Theorem mprotect_range s W pml4 address size q :
  paths_ok s W → W !! frame_of pml4 = Some [] → 0 ≤ q < 256 →
  0 ≤ address → 0 < size → address + size + PAGESIZE ≤ 2 ^ 48 →
  (∀ a, address ≤ a < address + size →
     ∃ f, leads' s W (frame_of pml4) [] (address_to_map a) f) →
  ∃ s', mprotect_hh pml4 address size q s = Done s' ∧ paths_ok s' W ∧
    (∀ a, address ≤ a < address + size → get_page_perms_hh pml4 a s' = Done (Z.land q 15)) ∧
    (∀ a f, leads' s W (frame_of pml4) [] (address_to_map a) f →
       (∀ b, address ≤ b < address + size → address_to_map a ≠ address_to_map b) →
       get_page_perms_hh pml4 a s' = get_page_perms_hh pml4 a s).
Proof.
  intros Hok Hp Hq Ha Hs Hb Hall. unfold mprotect_hh, protect_range.
  rewrite (u64_small (address + size)), (u64_small (address + size + 0xfff)) by (unfold PAGESIZE in *; lia).
  rewrite !land_not_fff.
  destruct (mprotect_pages address size _ Ha Hs eq_refl) as (Hn & Hin & Hout).
  set (n := (page_of (address + size + 0xfff) - page_of address) / PAGESIZE) in *.
  destruct (protect_loop s W pml4 (page_of address) q Hok Hp Hq (Z.to_nat n)) as
    (t & Ht & Hokt & Hlt & Hdone & Hrest).
  { intros k Hk. destruct (Hin k) as (a & Hr & <-); [lia|]. by apply Hall. }
  exists t. split_and!; [done|done|..].
  - intros a Hr. destruct (Hall a Hr) as [f Hf]. destruct (Hout a Hr) as (k & Hk & E).
    rewrite E in Hf. destruct (Hdone k f) as (e & He & He'); [lia|done|].
    rewrite <- E in *. rewrite <- He'. eapply get_perms_leads; [done|by apply Hlt|done].
  - intros a f Hf Hne. destruct (address_to_map_ok a) as (_ & _ & _ & B3).
    destruct (tk_known _ _ _ _ Hok _ _ _ (leads_path _ _ _ _ _ Hf) B3) as [e He].
    rewrite (get_perms_leads pml4 a s W f e) by done.
    eapply get_perms_leads; [done|by apply Hlt|]. rewrite Hrest; [done|done|].
    intros j Hj. destruct (Hin j) as (b & Hr & <-); [lia|]. by apply Hne.
Qed.


(** ** The page tables serve the heap

    One labelling covers the current directory and the directories in use. *)
Definition mmu_ok (T : list Z) (s : mmu) : Prop :=
  ∃ L : gmap Z nat, live_ok id (λ k (_ : Z), pred k) s L ∧
    L !! frame_of (get_pml4 s) = Some 3%nat ∧ ∀ t, t ∈ T → L !! frame_of t = Some 3%nat.

Lemma mmu_ok_grow T s s' L L' :
  L ⊆ L' → cr3 s' = cr3 s → L !! frame_of (get_pml4 s) = Some 3%nat →
  (∀ t, t ∈ T → L !! frame_of t = Some 3%nat) → live_ok id (λ k (_ : Z), pred k) s' L' → mmu_ok T s'.
Proof.
  intros Hs Hc Hp HT Hl. exists L'. split_and!; [done|..].
  - unfold get_pml4. rewrite Hc. by eapply lookup_weaken.
  - intros t Ht. eapply lookup_weaken, Hs. by apply HT.
Qed.

Lemma mmu_map_ok T t v p f s :
  mmu_ok T s → t ∈ get_pml4 s :: T → returns_or_panics (map_memory_hh t v p f s) ∧
  ∀ s', map_memory_hh t v p f s = Done s' → mmu_ok T s'.
Proof.
  intros (L & Hl & Hp & HT) Ht.
  assert (L !! frame_of t = Some 3%nat) as Hlt by (apply elem_of_cons in Ht as [->|]; auto).
  destruct (map_page_rop _ _ level_child_levels _ _ t v p f s L 3%nat reaches_kernel Hl Hlt eq_refl) as [Hr Hpost].
  split; [done|]. intros s' (L' & Hl' & Hs & Hc)%Hpost. by eapply mmu_ok_grow.
Qed.

Lemma mmu_request_ok T s :
  mmu_ok T s → returns_or_panics (request_frame s) ∧
  ∀ a s', request_frame s = Done (a, s') → mmu_ok T s' ∧ get_pml4 s' = get_pml4 s.
Proof.
  intros (L & Hl & Hp & HT). destruct (request_frame_rop _ _ _ _ Hl) as [Hr Hpost].
  split; [done|]. intros a s' [Hl' Hc]%Hpost. cbn in *. unfold get_pml4 in *. rewrite Hc.
  split; [|done]. exists L. split_and!; [done| |done]. unfold get_pml4. by rewrite Hc.
Qed.

Lemma mmu_request_at_ok T v f s :
  mmu_ok T s → returns_or_panics (request_current_page_at v f s) ∧
  ∀ a s', request_current_page_at v f s = Done (a, s') → a = v ∧ mmu_ok T s'.
Proof.
  intros Hs. unfold request_current_page_at, request_page_at.
  destruct (mmu_request_ok T s Hs) as [Hr Hpost].
  cut (returns_or_panics (request_current_page_at v f s) ∧
    ∀ x, request_current_page_at v f s = Done x → x.1 = v ∧ mmu_ok T x.2).
  { intros [H1 H2]. split; [done|]. intros a s' E. by apply (H2 (a, s')). }
  unfold request_current_page_at, request_page_at.
  apply (rop_bind (λ x, mmu_ok T x.2 ∧ get_pml4 x.2 = get_pml4 s)); [done|by intros [a x]; apply Hpost|].
  intros [a s1] [Hs1 Hg]. cbn in Hs1, Hg. case_match; [by split; [apply rop_panic|]|].
  destruct (mmu_map_ok T (get_pml4 s) v a f s1 Hs1) as [Hm1 Hm2]; [rewrite Hg; left|].
  apply (rop_bind (mmu_ok T)); [done|done|]. intros s2 Hs2. split; [apply rop_done|]. by intros x [= <-].
Qed.

#[global] Instance mmu_service_ok : PageServiceOk mmu.
Proof.
  refine {| ps_ok := mmu_ok |}; cbn.
  - intros T T' s HT (L & Hl & Hp & Ht). exists L. split_and!; [done..|]. auto.
  - intros T s (L & Hl & Hp & Ht). exists L. split_and!; [done..|].
    intros t [->|]%elem_of_cons; auto.
  - intros T s Hs. destruct (mmu_request_ok T s Hs) as [Hr Hpost]. split; [done|].
    intros a s' E. by apply (Hpost a s' E).
  - intros T v p f s Hs. apply mmu_map_ok; [done|left].
  - intros T t v p f s Hs Ht. apply mmu_map_ok; [done|by right].
  - intros T v f s Hs. by apply mmu_request_at_ok.
  - intros T t v s (L & [Hok _] & _ & HT) Ht. left. eexists.
    apply (virtual_to_physical_walk _ _ level_child_levels _ L _ 3%nat); [done|by apply HT|done].
Defined.

(** ** Instances for the witnesses: one empty directory in a frame of the allocator *)
Definition root0 : Z := 0x100000.
Definition mmu0 : mmu :=
  {| tables := zero_entries root0 512 ∅; frames := demo 0x0f 0 4; cr3 := root0 |}.

Lemma mmu0_table i : 0 ≤ i < 512 → tables mmu0 !! (root0, i) = Some zero_entry.
Proof.
  intros Hi. cbn -[zero_entries root0]. by rewrite lookup_zero_entries, decide_True.
Qed.

Lemma mmu0_live : pmm_live (frames mmu0).
Proof. split_and!; [by apply demo_wf|done|by eexists]. Qed.

Lemma mmu0_ok {X} (level : X → nat) (child : X → Z → X) x :
  tables_ok level child mmu0 {[root0 := x]}.
Proof.
  constructor.
  - intros f y i [<- <-]%lookup_singleton_Some Hi. by rewrite mmu0_table.
  - intros f y i e [<- <-]%lookup_singleton_Some Hi. rewrite mmu0_table by done. by intros [= <-].
  - intros f y k i e [<- <-]%lookup_singleton_Some _ Hi. rewrite mmu0_table by done. by intros [= <-].
  - intros f y [<- <-]%lookup_singleton_Some. done.
  - by apply mmu0_live.
  - done.
  - done.
  - intros i Hi Hu. apply lookup_singleton_ne. unfold page_addr. cbn [frames mmu0 demo memory first_available_page_addr].
    unfold root0, PAGESIZE. intros E. assert (i = 0) as -> by lia. by vm_compute in Hu.
Qed.

Lemma map_translates_witness :
  ∃ s', map_memory (TO_KERNEL_MAP root0) 0x400000 0x7000 3 mmu0 = Done s' ∧
    virtual_to_physical (TO_KERNEL_MAP root0) 0x400000 s' = Done 0x7000 ∧
    get_page_perms_hh (TO_KERNEL_MAP root0) 0x400000 s' = Done 3.
Proof.
  destruct (map_translates (TO_KERNEL_MAP root0) 0x400000 0x7000 3 mmu0 {[root0 := 3%nat]}) as [_ H];
    [apply mmu0_ok|apply mmu0_live|done|done|].
  destruct (is_done_returns (map_memory (TO_KERNEL_MAP root0) 0x400000 0x7000 3 mmu0)) as [s' E];
    [by vm_compute|].
  exists s'. destruct (H s' E) as (H1 & H2 & _). split; [exact E|split; [exact H1|exact H2]].
Defined.

(** A mapped page, for the witnesses on permissions and unmapping. *)
Lemma map_leads pml4 v p flags s s' W :
  paths_ok s W → W !! frame_of pml4 = Some [] → map_memory pml4 v p flags s = Done s' →
  ∃ W' f, paths_ok s' W' ∧ W' !! frame_of pml4 = Some [] ∧ cr3 s' = cr3 s ∧
    leads' s' W' (frame_of pml4) [] (address_to_map v) f.
Proof.
  intros Hok Hp E.
  destruct (map_page_ok _ _ level_child_paths _ _ _ _ _ _ _ W _ _ reaches_kernel Hok Hp eq_refl E) as
    (W' & s3 & f3 & e & Hext & Hld & He & ->).
  destruct (leads_level _ _ level_child_paths _ _ _ _ _ _ Hld eq_refl) as (y & Hy & Hy0).
  exists W', f3. split_and!.
  - eapply store_leaf_ok; [apply Hext|done|done|]. cbn. apply wrap_range. lia.
  - eapply lookup_weaken, Hext. done.
  - apply Hext.
  - by eapply (leads_store _ _ level_child_paths).
Qed.

Lemma map_frame_witness :
  ∃ s', map_memory (TO_KERNEL_MAP root0) 0x400000 0x7000 3 mmu0 = Done s' ∧
    virtual_to_physical (TO_KERNEL_MAP root0) 0x401000 s' =
    virtual_to_physical (TO_KERNEL_MAP root0) 0x401000 mmu0.
Proof.
  destruct (is_done_returns (map_memory (TO_KERNEL_MAP root0) 0x400000 0x7000 3 mmu0)) as [s' E];
    [by vm_compute|].
  exists s'. split; [exact E|].
  apply (map_frame (TO_KERNEL_MAP root0) 0x400000 0x7000 3 mmu0 s' {[root0 := []]} 0x401000);
    [apply mmu0_ok|done|exact E|done].
Defined.

Lemma unmap_translates_witness :
  ∃ s s', map_memory (get_pml4 mmu0) 0x400000 0x7000 3 mmu0 = Done s ∧
    unmap_current_memory 0x400000 s = Done s' ∧
    virtual_to_physical (get_pml4 s) 0x400000 s' = Done 0.
Proof.
  destruct (is_done_returns (map_memory (get_pml4 mmu0) 0x400000 0x7000 3 mmu0)) as [s E];
    [by vm_compute|].
  destruct (map_leads (get_pml4 mmu0) _ _ _ _ _ _ (mmu0_ok _ _ []) eq_refl E) as (W & f & Hok & Hp & Hc & _).
  destruct (unmap_translates 0x400000 s W Hok) as (s' & H1 & _ & H2 & _).
  - unfold get_pml4 in *. rewrite Hc. exact Hp.
  - exists s, s'. split; [exact E|split; [exact H1|exact H2]].
Defined.

Lemma mprotect_range_witness :
  ∃ s s', map_memory (get_pml4 mmu0) 0x400000 0x7000 3 mmu0 = Done s ∧
    mprotect_hh (get_pml4 mmu0) 0x400010 0x20 5 s = Done s' ∧
    get_page_perms_hh (get_pml4 mmu0) 0x400010 s' = Done 5.
Proof.
  destruct (is_done_returns (map_memory (get_pml4 mmu0) 0x400000 0x7000 3 mmu0)) as [s E];
    [by vm_compute|].
  destruct (map_leads (get_pml4 mmu0) _ _ _ _ _ _ (mmu0_ok _ _ []) eq_refl E) as (W & f & Hok & Hp & Hc & Hld).
  destruct (mprotect_range s W (get_pml4 mmu0) 0x400010 0x20 5) as (s' & H1 & _ & H2 & _);
    [exact Hok|exact Hp|lia|lia|lia|unfold PAGESIZE; lia| |].
  - intros a Ha. exists f. rewrite (address_to_map_page a 0x400000) by (unfold PAGESIZE; dlia). exact Hld.
  - exists s, s'. split; [exact E|split; [exact H1|apply H2; lia]].
Defined.

(** ** Duplicated directories share their page tables *)
Definition duplicate_then_map : outcome (Z * Z) :=
  s ← map_memory (get_pml4 mmu0) 0x400000 0x7000 3 mmu0;
  '(copy, s) ← duplicate_current_pml4 s;
  before ← virtual_to_physical (get_pml4 s) 0x400000 s;
  s ← map_memory copy 0x400000 0x9000 3 s;
  after ← virtual_to_physical (get_pml4 s) 0x400000 s;
  Done (before, after).

(** a duplicated directory is not independent: after [duplicate_current_pml4],
    remapping a page in the copy remaps it in the original directory as well, since the
    copy stops one level above the page tables. *)
Theorem duplicate_shares_page_tables : duplicate_then_map = Done (0x7000, 0x9000).
Proof. by vm_compute. Qed.
