(* ===== verification/PagingCopy.v ===== *)
(** * Copies of an address space (src/src/memory/paging.c, _duplicate_pd)

    The two upper levels below the root are copied and the page tables shared.  [s0] and [W0]
    are the state and the labelling before the copy; every table the copy writes is new.  While
    the copy runs tables are labelled by their level, which sharing allows.  Completed tables get
    the labels the copy of the root asks for, which is possible when a table that is shared has
    the same label below the copy as below the original. *)
From stdpp Require Import strings.
From S2P Require Import Prelude PageAlloc PageService Paging PagingSpec.
#[local] Open Scope Z_scope.

Abbreviation below := (λ (k : nat) (_ : Z), pred k).
Abbreviation labelled := (tables_ok id below).

Lemma for_up_ext {S} (f g : Z → S → outcome S) n i s : (∀ i s, f i s = g i s) → for_up n i f s = for_up n i g s.
Proof. intros E. revert i s. induction n as [|n IH]; intros i s; [done|]. cbn. rewrite E. destruct (g i s); cbn; auto. Qed.

Lemma child_label s L f k i e :
  labelled s L → L !! f = Some (S k) → 0 ≤ i < 512 → tables s !! (f, i) = Some e → present e ≠ 0 →
  L !! (page_ppn e * PAGESIZE) = Some k.
Proof. intros Hok Hf Hi He Hp. exact (tk_child _ _ _ _ Hok f (S k) k i e Hf eq_refl Hi He Hp). Qed.

(** ** Writing tables *)
Lemma lookup_copy_entries d f n t g i :
  d ≠ f →
  copy_entries d f n t !! (g, i) = if decide (g = d ∧ 0 ≤ i < Z.of_nat n) then t !! (f, i) else t !! (g, i).
Proof.
  intros Hd. revert t. induction n as [|n IH]; intros t; cbn [copy_entries].
  - rewrite decide_False by lia. done.
  - rewrite IH. assert (E : ∀ a b, (match t !! (f, Z.of_nat n) with
         | Some e => <[(d, Z.of_nat n) := e]> t | None => delete (d, Z.of_nat n) t end) !! (a, b) =
       if decide ((a, b) = (d, Z.of_nat n)) then t !! (f, Z.of_nat n) else t !! (a, b)).
    { intros a b. destruct (t !! (f, Z.of_nat n)) as [e|]; rewrite ?lookup_insert, ?lookup_delete;
        repeat case_decide; congruence. }
    rewrite !E, (decide_False (P := (f, i) = (d, Z.of_nat n))) by congruence.
    destruct (decide (g = d)) as [->|]; [|rewrite !decide_False by (congruence || tauto); done].
    destruct (decide (i = Z.of_nat n)) as [->|].
    + rewrite decide_False, !decide_True by (lia || done). done.
    + rewrite (decide_False (P := (d, i) = _)) by congruence. repeat case_decide; done || lia.
Qed.

Lemma tables_copy_table d p s g i :
  frame_of d ≠ frame_of p →
  tables (copy_table d p s) !! (g, i) =
  if decide (g = frame_of d ∧ 0 ≤ i < 512) then tables s !! (frame_of p, i) else tables s !! (g, i).
Proof. apply lookup_copy_entries. Qed.

(** An entry may be stored when it leads one level down. *)
Lemma store_ok s L f k i e :
  labelled s L → L !! f = Some k → 0 ≤ page_ppn e < 2 ^ 28 →
  (∀ j, k = S j → present e ≠ 0 → L !! (page_ppn e * PAGESIZE) = Some j) → labelled (store_at f i e s) L.
Proof.
  intros Hok Hf Hr Hc. constructor; try apply Hok.
  - intros g y j Hg Hj. rewrite tables_store_at. case_decide; [done|]. by eapply (tk_known _ _ _ _ Hok).
  - intros g y j e' Hg Hj. rewrite tables_store_at. case_decide; [by intros [= <-]|]. by eapply (tk_range _ _ _ _ Hok).
  - intros g y q j e' Hg Hy Hj. rewrite tables_store_at. case_decide as E; [|by eapply (tk_child _ _ _ _ Hok)].
    intros [= <-] Hp. unfold id in Hy. simplify_eq. by apply Hc.
Qed.

(** A new table may be labelled when its entries lead one level down. *)
Lemma new_table_ok s L k p s1 s2 :
  labelled s L → request_frame s = Done (p, s1) → frames s2 = frames s1 →
  (∀ f j, f ≠ p → tables s2 !! (f, j) = tables s !! (f, j)) →
  (∀ j, 0 ≤ j < 512 → ∃ e, tables s2 !! (p, j) = Some e ∧ 0 ≤ page_ppn e < 2 ^ 28 ∧
    ∀ q, k = S q → present e ≠ 0 → L !! (page_ppn e * PAGESIZE) = Some q) →
  labelled s2 (<[p := k]> L) ∧ L !! p = None ∧ 0 ≤ p < 2 ^ 40 ∧ p mod PAGESIZE = 0.
Proof.
  intros Hok Hrq Hf Hsame Hnew.
  destruct (request_frame_fresh _ _ _ _ _ _ Hok Hrq) as (Hok1 & Et & _ & Hp & Hp40 & Hpal & Hpu).
  split_and!; try done; try lia. constructor; rewrite ?Hf; try apply Hok1.
  - intros f y j [[<- <-]|[Hne Hl]]%lookup_insert_Some Hj.
    + destruct (Hnew j Hj) as (e & -> & _). by eexists.
    + rewrite Hsame by done. by eapply (tk_known _ _ _ _ Hok).
  - intros f y j e [[<- <-]|[Hne Hl]]%lookup_insert_Some Hj.
    + destruct (Hnew j Hj) as (e' & -> & Hr & _). by intros [= <-].
    + rewrite Hsame by done. by eapply (tk_range _ _ _ _ Hok).
  - intros f y q j e [[<- <-]|[Hne Hl]]%lookup_insert_Some Hy Hj He Hpr.
    + destruct (Hnew j Hj) as (e' & He' & _ & Hc). unfold id in Hy. simplify_eq.
      specialize (Hc q eq_refl Hpr). rewrite lookup_insert_ne by congruence. done.
    + rewrite Hsame in He by done.
      assert (L !! (page_ppn e * PAGESIZE) = Some (pred y)) as Hc by (by eapply (tk_child _ _ _ _ Hok)).
      rewrite lookup_insert_ne by congruence. done.
  - intros f y [[<- <-]|[Hne Hl]]%lookup_insert_Some; [done|]. by eapply (tk_frame _ _ _ _ Hok).
  - intros j Hj Hu. rewrite lookup_insert_ne by (apply not_eq_sym; auto). by apply (tk_fresh _ _ _ _ Hok1).
Qed.

(** A walk is decided by the tables of its levels. *)
Lemma walk_same s s' L f k ix :
  labelled s L → L !! f = Some k → length ix = S k → Forall (λ i, 0 ≤ i < 512) ix →
  (∀ g j i, L !! g = Some j → (j ≤ k)%nat → tables s' !! (g, i) = tables s !! (g, i)) → walk s' f ix = walk s f ix.
Proof.
  intros Hok. revert f k. induction ix as [|i ix IH]; intros f k Hf Hl Hi Hs; [done|].
  apply Forall_cons in Hi as [Hi Hix]. cbn [walk]. rewrite (Hs f k i Hf) by lia.
  destruct (tables s !! (f, i)) as [e|] eqn:He; [|done]. cbn. destruct (Z.eqb_spec (present e) 0); [done|].
  destruct ix as [|j ix]; [done|]. destruct k as [|k]; [cbn in Hl; lia|].
  apply (IH _ k); [by eapply child_label|cbn in *; lia|done|]. intros g q r Hg Hq. apply (Hs g q r Hg). lia.
Qed.

(** ** The copy *)
Section copying.
Context {X : Type} (level : X → nat) (child : X → Z → X).
Hypothesis level_child : ∀ x i k, level x = S k → level (child x i) = k.
Context (s0 : mmu) (W0 : gmap Z X).
Hypothesis base0 : tables_ok level child s0 W0.

Definition L0 : gmap Z nat := level <$> W0.

Lemma L0_label f x : W0 !! f = Some x → L0 !! f = Some (level x).
Proof. intros Hf. unfold L0. by rewrite lookup_fmap, Hf. Qed.

Lemma L0_none f : L0 !! f = None → W0 !! f = None.
Proof. unfold L0. rewrite lookup_fmap. by destruct (W0 !! f). Qed.

Lemma base : labelled s0 L0.
Proof.
  constructor; try apply base0.
  - intros f k i Hf. unfold L0 in Hf. rewrite lookup_fmap in Hf. apply fmap_Some in Hf as (x & Hf & ->).
    by eapply (tk_known _ _ _ _ base0).
  - intros f k i e Hf. unfold L0 in Hf. rewrite lookup_fmap in Hf. apply fmap_Some in Hf as (x & Hf & ->).
    by eapply (tk_range _ _ _ _ base0).
  - intros f k q i e Hf Hq Hi He Hp. unfold L0 in Hf |- *. rewrite lookup_fmap in Hf |- *.
    apply fmap_Some in Hf as (x & Hf & ->). unfold id in Hq.
    rewrite (tk_child _ _ _ _ base0 f x q i e Hf Hq Hi He Hp). cbn. rewrite (level_child _ _ _ Hq), Hq. done.
  - intros f k Hf. unfold L0 in Hf. rewrite lookup_fmap in Hf. apply fmap_Some in Hf as (x & Hf & ->).
    by eapply (tk_frame _ _ _ _ base0).
  - intros i Hi Hu. unfold L0. rewrite lookup_fmap. by rewrite (tk_fresh _ _ _ _ base0).
Qed.

(** Tables whose labels are [x] and [y] may share what lies [k] levels below them. *)
Fixpoint alike (k : nat) (x y : X) : Prop :=
  match k with O => x = y | S k => ∀ i, alike k (child x i) (child y i) end.

(** What holds while the copy runs: the tables there were are unchanged. *)
Record during (s : mmu) (L : gmap Z nat) : Prop := {
  du_ok : labelled s L;
  du_live : pmm_live (frames s);
  du_sub : L0 ⊆ L;
  du_cr3 : cr3 s = cr3 s0;
  du_old f k i : L0 !! f = Some k → tables s !! (f, i) = tables s0 !! (f, i);
}.

(** Growth that leaves the labelled tables alone, apart from the entries [P] selects. *)
Definition grows (P : Z → Z → Prop) (s s' : mmu) (L L' : gmap Z nat) : Prop :=
  during s' L' ∧ L ⊆ L' ∧ ∀ f k i, L !! f = Some k → ¬ P f i → tables s' !! (f, i) = tables s !! (f, i).

(** The entry [i] of [f] leads to a table labelled [x]. *)
Definition leads_to (s : mmu) (D : gmap Z X) (f i : Z) (x : X) : Prop :=
  ∀ e, tables s !! (f, i) = Some e → present e ≠ 0 → (D ∪ W0) !! (page_ppn e * PAGESIZE) = Some x.

(** [D] labels completed tables, among those that are new since [L]. *)
Record completed (s : mmu) (L L' : gmap Z nat) (D : gmap Z X) : Prop := {
  cd_new f x : D !! f = Some x → L !! f = None ∧ L' !! f = Some (level x);
  cd_child f x k i : D !! f = Some x → level x = S k → 0 ≤ i < 512 → leads_to s D f i (child x i);
}.

(** [inner] completes the copy [new] of a table [old], both of level [k]. *)
Definition completes (k : nat) (inner : Z → Z → mmu → outcome mmu) : Prop :=
  ∀ s L old new x y, during s L → W0 !! old = Some x → level x = k → level y = k → alike k x y →
  L !! new = Some k → L0 !! new = None →
  (∀ i, 0 ≤ i < 512 → tables s !! (new, i) = tables s0 !! (old, i)) →
  returns_or_panics (inner old new s) ∧
  ∀ s', inner old new s = Done s' →
    ∃ L' D, grows (λ f _, f = new) s s' L L' ∧ completed s' L L' D ∧
      (∀ i, 0 ≤ i < 512 → leads_to s' D new i (child y i)) ∧
      ∀ ix, length ix = S k → Forall (λ i, 0 ≤ i < 512) ix → walk s' new ix = walk s0 old ix.

Lemma frame_of_label s L f k : labelled s L → L !! f = Some k → frame_of f = f.
Proof. intros Hok Hf. apply (reach_frame _ _ reaches_id). by apply (tk_frame _ _ _ _ Hok f k). Qed.

Lemma copy_present_completes : completes 1 copy_present.
Proof.
  intros s L old new x y Hd Hx Hlx Hly Hxy Hn Hn0 Hsame. pose proof (du_ok _ _ Hd) as Hok.
  assert (Ho : L0 !! old = Some 1%nat) by (rewrite (L0_label _ _ Hx); congruence).
  assert (Eo := frame_of_label _ _ _ _ base Ho). assert (En := frame_of_label _ _ _ _ Hok Hn).
  assert (Hrun : copy_present old new s = Done s).
  { unfold copy_present.
    destruct (for_up_total (λ _ x, x = s) 512 0 (λ k s, pte ← load_entry s old k;
      if present pte =? 0 then Done s else Done (store_entry new k pte s)) s) as (z & E & ->); [|done|done].
    intros i z Hi ->. destruct (tk_known _ _ _ _ base _ _ i Ho Hi) as [e He].
    rewrite (load_entry_at s old i e) by (by rewrite Eo, (du_old _ _ Hd old 1)). rewrite bind_done.
    case_match; [by eexists|]. eexists. split; [done|]. unfold store_entry, with_tables. rewrite En, insert_id; [by destruct s|].
    rewrite Hsame by done. done. }
  rewrite Hrun. split; [apply rop_done|]. intros s' [= <-]. exists L, ∅. split; [done|]. split_and!.
  - split; intros f z; by rewrite lookup_empty.
  - intros i Hi e He Hp. rewrite Hsame in He by done. rewrite (left_id_L ∅ (∪)). rewrite <- (Hxy i).
    by eapply (tk_child _ _ _ _ base0).
  - intros [|i ix] Hl Hi; [done|]. apply Forall_cons in Hi as [Hi Hix]. cbn [walk]. rewrite Hsame by done.
    destruct (tables s0 !! (old, i)) as [e|] eqn:He; [|done]. cbn. destruct (Z.eqb_spec (present e) 0); [done|].
    destruct ix as [|j ix]; [done|].
    assert (L0 !! (page_ppn e * PAGESIZE) = Some 0%nat) as Hc by (eapply child_label; [apply base|done..]).
    eapply (walk_same s0 s L0); [apply base|exact Hc|cbn in *; lia|done|]. intros g q r Hg _. by apply (du_old _ _ Hd g q).
Qed.

(** The step both levels of the copy consist of. *)
Definition dup_step (err : string) (inner : Z → Z → mmu → outcome mmu) (father new j : Z) (s : mmu) : outcome mmu :=
  pde ← load_entry s father j;
  if present pde =? 0 then Done s else
  let pt := entry_table id pde in
  '(p, s) ← request_frame s;
  if p =? 0 then Panic err else
  let s := copy_table p pt s in
  let s := store_entry new j (set_ppn (Z.shiftr p 12) pde) s in
  inner pt p s.

(** A frame's number in an entry leads back to it. *)
Lemma set_ppn_frame p e :
  0 ≤ p < 2 ^ 40 → p mod PAGESIZE = 0 →
  page_ppn (set_ppn (Z.shiftr p 12) e) * PAGESIZE = p ∧ 0 ≤ page_ppn (set_ppn (Z.shiftr p 12) e) < 2 ^ 28.
Proof.
  intros Hp Ha. cbn [page_ppn set_ppn]. rewrite Z.shiftr_div_pow2 by lia. unfold PAGESIZE in *.
  change (2 ^ 12) with 0x1000. rewrite (wrap_small 28) by dlia. dlia.
Qed.

(** The frame, the copy of the table and the entry that leads to it. *)
Lemma dup_link s L k pt new j pde p s1 (s2 := store_entry new j (set_ppn (Z.shiftr p 12) pde) (copy_table p pt s1)) :
  during s L → L0 !! pt = Some k → L !! new = Some (S k) → L0 !! new = None → 0 ≤ j < 512 →
  request_frame s = Done (p, s1) →
  during s2 (<[p := k]> L) ∧ L !! p = None ∧ (∀ i, 0 ≤ i < 512 → tables s2 !! (p, i) = tables s0 !! (pt, i)) ∧
  tables s2 !! (new, j) = Some (set_ppn (Z.shiftr p 12) pde) ∧
  page_ppn (set_ppn (Z.shiftr p 12) pde) * PAGESIZE = p ∧
  ∀ f q i, L !! f = Some q → ¬ (f = new ∧ i = j) → tables s2 !! (f, i) = tables s !! (f, i).
Proof.
  intros Hd Hpt Hn Hn0 Hj Hrq. pose proof (du_ok _ _ Hd) as Hok.
  destruct (request_frame_fresh _ _ _ _ _ _ Hok Hrq) as (Hok1 & Et & Hcr & Hp & Hp40 & Hpal & _).
  assert (Hlv : pmm_live (frames s1)) by (destruct (request_frame_rop id below s L) as [_ K];
    [split; [done|apply Hd]|]; destruct (K _ Hrq) as [[_ ?] _]; done).
  assert (Hpp : p ≠ pt) by (intros ->; eapply lookup_weaken in Hpt; [|apply Hd]; congruence).
  assert (Hpn : p ≠ new) by congruence.
  assert (Fp : frame_of p = p) by (by apply (reach_frame _ _ reaches_id)).
  assert (Fpt := frame_of_label _ _ _ _ base Hpt). assert (Fn := frame_of_label _ _ _ _ Hok Hn).
  destruct (set_ppn_frame p pde Hp40 Hpal) as [Hpg Hpr].
  assert (Hcp : ∀ g i, tables (copy_table p pt s1) !! (g, i) =
    if decide (g = p ∧ 0 ≤ i < 512) then tables s0 !! (pt, i) else tables s !! (g, i)).
  { intros g i. rewrite tables_copy_table by congruence. rewrite Fp, Fpt, Et.
    case_decide; [|done]. by rewrite (du_old _ _ Hd pt k). }
  destruct (new_table_ok s L k p s1 (copy_table p pt s1) Hok Hrq) as (Hok2 & _); [done|..].
  { intros f i Hf. rewrite Hcp. by rewrite decide_False by tauto. }
  { intros i Hi. rewrite Hcp, decide_True by done. destruct (tk_known _ _ _ _ base pt k i Hpt Hi) as [e He].
    exists e. split; [done|]. split; [by eapply (tk_range _ _ _ _ base)|]. intros q -> Hpe.
    eapply lookup_weaken; [|apply Hd]. by eapply (child_label _ _ _ _ _ _ base). }
  assert (Hst : ∀ g i, tables s2 !! (g, i) = if decide ((g, i) = (new, j)) then Some (set_ppn (Z.shiftr p 12) pde)
    else tables (copy_table p pt s1) !! (g, i)).
  { intros g i. unfold s2, store_entry. rewrite Fn. apply (tables_store_at new j). }
  split_and!; [|done| | |done|].
  - constructor; [|done|by etrans; [apply Hd|apply insert_subseteq]|cbn; rewrite Hcr; apply Hd|].
    + unfold s2, store_entry. rewrite Fn. apply (store_ok _ _ new (S k)); [done|by rewrite lookup_insert_ne|done|].
      intros q [= <-] _. rewrite Hpg. apply lookup_insert_eq.
    + intros f q i Hf. rewrite Hst, decide_False by congruence. rewrite Hcp, decide_False; [by eapply du_old|].
      intros [-> _]. eapply lookup_weaken in Hf; [|apply Hd]. congruence.
  - intros i Hi. rewrite Hst, decide_False by congruence. by rewrite Hcp, decide_True.
  - by rewrite Hst, decide_True.
  - intros f q i Hf Hne. rewrite Hst, decide_False by (intros [= -> ->]; tauto). rewrite Hcp, decide_False; [done|].
    intros [-> _]. congruence.
Qed.

(** Labels of completed tables stay as more are completed. *)
Lemma leads_mono s s' D D' f i x :
  tables s' !! (f, i) = tables s !! (f, i) → D ⊆ D' → (∀ g z, D' !! g = Some z → W0 !! g = None) →
  leads_to s D f i x → leads_to s' D' f i x.
Proof.
  intros Hs HD Hn Hl e He Hp. rewrite Hs in He. specialize (Hl e He Hp).
  apply lookup_union_Some_raw in Hl as [Hl|[Hl Hw]]; apply lookup_union_Some_raw; [left; by eapply lookup_weaken|].
  destruct (D' !! (page_ppn e * PAGESIZE)) eqn:E; [apply Hn in E; congruence|by right].
Qed.

Lemma completed_apart s s' L L' D : during s L → completed s' L L' D → ∀ g z, D !! g = Some z → W0 !! g = None.
Proof.
  intros Hd Hc g z Hg. apply (cd_new _ _ _ _ Hc) in Hg as [Hg _]. apply L0_none.
  destruct (L0 !! g) eqn:E; [|done]. eapply lookup_weaken in E; [|apply Hd]. congruence.
Qed.

Lemma dup_step_ok err inner k s L father new j x y :
  completes k inner → during s L → W0 !! father = Some x → level x = S k → level y = S k →
  alike k (child x j) (child y j) → L !! new = Some (S k) → L0 !! new = None → 0 ≤ j < 512 →
  (∀ e, tables s0 !! (father, j) = Some e → present e = 0 → ∃ e', tables s !! (new, j) = Some e' ∧ present e' = 0) →
  returns_or_panics (dup_step err inner father new j s) ∧
  ∀ s', dup_step err inner father new j s = Done s' →
    ∃ L' D, grows (λ f i, f = new ∧ i = j) s s' L L' ∧ completed s' L L' D ∧ leads_to s' D new j (child y j) ∧
      ∀ ix, length ix = S k → Forall (λ i, 0 ≤ i < 512) ix → walk s' new (j :: ix) = walk s0 father (j :: ix).
Proof.
  intros Hin Hd Hx Hlx Hly Hxy Hn Hn0 Hj Habs. unfold dup_step.
  assert (Hfa : L0 !! father = Some (S k)) by (rewrite (L0_label _ _ Hx); congruence).
  destruct (tk_known _ _ _ _ base father _ j Hfa Hj) as [pde He].
  assert (Ff := frame_of_label _ _ _ _ base Hfa).
  rewrite (load_entry_at s father j pde) by (rewrite Ff; by rewrite (du_old _ _ Hd father (S k))). rewrite bind_done.
  destruct (Z.eqb_spec (present pde) 0) as [H0|H0].
  - split; [apply rop_done|]. intros s' [= <-]. destruct (Habs pde He H0) as (e' & Ee & Hp'). exists L, ∅. split_and!; [done|..].
    + split; intros f z; by rewrite lookup_empty.
    + intros e He'. congruence.
    + intros ix _ _. cbn [walk]. rewrite Ee, He. cbn. by rewrite Hp', H0.
  - assert (Hr := tk_range _ _ _ _ base _ _ _ _ Hfa Hj He). rewrite entry_table_eq by done. unfold id.
    assert (Hpx := tk_child _ _ _ _ base0 _ _ _ _ _ Hx Hlx Hj He H0). set (pt := page_ppn pde * PAGESIZE) in *.
    assert (Hlc : level (child x j) = k) by (by apply level_child).
    assert (Hpt : L0 !! pt = Some k) by (rewrite (L0_label _ _ Hpx); congruence).
    destruct (request_frame_rop id below s L) as [Hrop _]; [split; apply Hd|].
    destruct Hrop as [[[p s1] Hrq]|[why ->]]; [|by split; [apply rop_panic|]]. rewrite Hrq, bind_done.
    case_match; [by split; [apply rop_panic|]|].
    destruct (dup_link s L k pt new j pde p s1 Hd Hpt Hn Hn0 Hj Hrq) as (Hd2 & Hp & Hcopy & Hent & Hpg & Hfr).
    assert (Hlc' : level (child y j) = k) by (by apply level_child).
    assert (Hp0 : L0 !! p = None).
    { destruct (L0 !! p) eqn:E; [|done]. eapply lookup_weaken in E; [|apply Hd]. congruence. }
    destruct (Hin _ _ pt p _ _ Hd2 Hpx Hlc Hlc' Hxy) as [Hret Hpost]; [apply lookup_insert_eq|done|done|].
    split; [done|]. intros s' E. destruct (Hpost s' E) as (L' & D & (Hd' & Hsub & Hsame) & Hc & Hle & Hw).
    assert (HDp : D !! p = None).
    { destruct (D !! p) eqn:Ed; [|done]. apply (cd_new _ _ _ _ Hc) in Ed as [Ed _]. by rewrite lookup_insert_eq in Ed. }
    assert (Hnew : completed s' L L' (<[p := child y j]> D) ∧ leads_to s' (<[p := child y j]> D) new j (child y j)).
    { assert (Hcn : ∀ f z, <[p := child y j]> D !! f = Some z → L !! f = None ∧ L' !! f = Some (level z)).
      { intros f z [[<- <-]|[Hne Hz]]%lookup_insert_Some.
        - split; [done|]. rewrite Hlc'. eapply lookup_weaken, Hsub. apply lookup_insert_eq.
        - apply (cd_new _ _ _ _ Hc) in Hz as [Hz Hz']. rewrite lookup_insert_ne in Hz by exact Hne. split; [exact Hz|exact Hz']. }
      assert (Hap : ∀ g z, <[p := child y j]> D !! g = Some z → W0 !! g = None).
      { intros g z [Hg _]%Hcn. apply L0_none. destruct (L0 !! g) eqn:Eg; [|done].
        eapply lookup_weaken in Eg; [|apply Hd]. congruence. }
      assert (HDs : D ⊆ <[p := child y j]> D) by (by apply insert_subseteq).
      split; [split; [done|]|].
      - intros f z q i Hz Hq Hi. apply (leads_mono s' s' D); [reflexivity|exact HDs|exact Hap|].
        apply lookup_insert_Some in Hz as [[<- <-]|[Hne Hz]]; [apply Hle; exact Hi|].
        eapply (cd_child _ _ _ _ Hc); [exact Hz|exact Hq|exact Hi].
      - intros e He' _. rewrite (Hsame new (S k) j) in He'; [|rewrite lookup_insert_ne by congruence; done|congruence].
        rewrite Hent in He'. injection He' as <-. rewrite Hpg. apply lookup_union_Some_l. apply lookup_insert_eq. }
    exists L', (<[p := child y j]> D). split; [|split; [apply Hnew|split; [apply Hnew|]]].
    + split; [done|]. split; [etrans; [by apply insert_subseteq|done]|]. intros f q i Hf Hne.
      rewrite (Hsame f q i); [by eapply Hfr|rewrite lookup_insert_ne by congruence; done|congruence].
    + intros ix Hl Hi. cbn [walk]. rewrite (Hsame new (S k) j); [|rewrite lookup_insert_ne by congruence; done|congruence].
      rewrite Hent, He. cbn [mbind option_bind].
      change (present (set_ppn (Z.shiftr p 12) pde)) with (present pde). destruct (Z.eqb_spec (present pde) 0); [done|].
      destruct ix as [|i ix]; [done|]. rewrite Hpg. by apply Hw.
Qed.

(** Later steps leave the part of the copy that is complete alone. *)
Lemma walk_kept (P : Z → Prop) k s s' L L' new j ix :
  during s L → L !! new = Some (S k) → 0 ≤ j < 512 → grows (λ f i, f = new ∧ P i) s s' L L' → ¬ P j →
  length ix = S k → Forall (λ i, 0 ≤ i < 512) ix → walk s' new (j :: ix) = walk s new (j :: ix).
Proof.
  intros Hd Hn Hj (_ & _ & Hs) HP Hl Hi. cbn [walk]. rewrite (Hs new _ j Hn) by tauto.
  destruct (tables s !! (new, j)) as [e|] eqn:He; [|done]. cbn. destruct (Z.eqb_spec (present e) 0); [done|].
  destruct ix as [|i ix]; [done|]. eapply (walk_same s s' L _ k); [apply Hd|by apply (child_label s L new k j e (du_ok _ _ Hd))|done|done|].
  intros g q r Hg Hq. apply (Hs g q r Hg). intros [-> _]. rewrite Hn in Hg. injection Hg as <-. lia.
Qed.

(** A step and those that follow it. *)
Lemma dup_join s s1 s' L L1 L' D1 D2 new start n k :
  during s L → L !! new = Some (S k) →
  grows (λ f i, f = new ∧ i = start) s s1 L L1 → completed s1 L L1 D1 →
  grows (λ f i, f = new ∧ start + 1 ≤ i < start + 1 + Z.of_nat n) s1 s' L1 L' → completed s' L1 L' D2 →
  grows (λ f i, f = new ∧ start ≤ i < start + Z.of_nat (S n)) s s' L L' ∧ completed s' L L' (D1 ∪ D2) ∧
  ∀ j x, (leads_to s1 D1 new start x ∧ j = start) ∨ leads_to s' D2 new j x → leads_to s' (D1 ∪ D2) new j x.
Proof.
  intros Hd Hn (Hd1 & Hs1 & Hf1) Hc1 (Hd2 & Hs2 & Hf2) Hc2.
  assert (Hn1 : L1 !! new = Some (S k)) by (by eapply lookup_weaken).
  assert (Hdis : D1 ##ₘ D2).
  { apply map_disjoint_spec. intros g a b Ha Hb. apply (cd_new _ _ _ _ Hc1) in Ha as [_ Ha].
    apply (cd_new _ _ _ _ Hc2) in Hb as [Hb _]. congruence. }
  assert (Hcn : ∀ g z, (D1 ∪ D2) !! g = Some z → L !! g = None ∧ L' !! g = Some (level z)).
  { intros g z [Hz|Hz]%lookup_union_Some; [|..|done].
    - apply (cd_new _ _ _ _ Hc1) in Hz as [? Hz]. split; [done|]. by eapply lookup_weaken.
    - apply (cd_new _ _ _ _ Hc2) in Hz as [Hz ?]. split; [|done]. destruct (L !! g) eqn:Eg; [|done].
      eapply lookup_weaken in Eg; [|exact Hs1]. congruence. }
  assert (Hap : ∀ g z, (D1 ∪ D2) !! g = Some z → W0 !! g = None).
  { intros g z [Hz _]%Hcn. apply L0_none. destruct (L0 !! g) eqn:Eg; [|done]. eapply lookup_weaken in Eg; [|apply Hd]. congruence. }
  assert (HD1 : D1 ⊆ D1 ∪ D2) by apply map_union_subseteq_l. assert (HD2 : D2 ⊆ D1 ∪ D2) by (by apply map_union_subseteq_r).
  split; [|split].
  - split; [done|]. split; [by etrans|]. intros f q i Hf Hne.
    rewrite (Hf2 f q i); [|by eapply lookup_weaken|intros [-> ?]; apply Hne; split; [done|lia]].
    apply (Hf1 f q i Hf). intros [-> ->]. apply Hne. split; [done|lia].
  - split; [exact Hcn|]. intros f z q i Hz Hq Hi. apply lookup_union_Some in Hz as [Hz|Hz]; [| |done].
    + pose proof (cd_new _ _ _ _ Hc1 f z Hz) as [Hl Hl1].
      apply (leads_mono s1 s' D1); [|exact HD1|exact Hap|by eapply (cd_child _ _ _ _ Hc1)].
      apply (Hf2 f _ i Hl1). intros [-> _]. congruence.
    + apply (leads_mono s' s' D2); [done|exact HD2|exact Hap|by eapply (cd_child _ _ _ _ Hc2)].
  - intros j x [[Hl ->]|Hl].
    + apply (leads_mono s1 s' D1); [|exact HD1|exact Hap|done]. apply (Hf2 new _ start Hn1). lia.
    + by apply (leads_mono s' s' D2).
Qed.

Lemma dup_loop err inner k father new x y n : ∀ start s L,
  completes k inner → during s L → W0 !! father = Some x → level x = S k → level y = S k →
  L !! new = Some (S k) → L0 !! new = None → 0 ≤ start → start + Z.of_nat n ≤ 512 →
  (∀ j, start ≤ j < start + Z.of_nat n → alike k (child x j) (child y j)) →
  (∀ j e, start ≤ j < start + Z.of_nat n → tables s0 !! (father, j) = Some e → present e = 0 →
    ∃ e', tables s !! (new, j) = Some e' ∧ present e' = 0) →
  returns_or_panics (for_up n start (λ j s, dup_step err inner father new j s) s) ∧
  ∀ s', for_up n start (λ j s, dup_step err inner father new j s) s = Done s' →
    ∃ L' D, grows (λ f i, f = new ∧ start ≤ i < start + Z.of_nat n) s s' L L' ∧ completed s' L L' D ∧
      (∀ j, start ≤ j < start + Z.of_nat n → leads_to s' D new j (child y j)) ∧
      ∀ j ix, start ≤ j < start + Z.of_nat n → length ix = S k → Forall (λ i, 0 ≤ i < 512) ix →
        walk s' new (j :: ix) = walk s0 father (j :: ix).
Proof.
  induction n as [|n IH]; intros start s L Hin Hd Hx Hlx Hly Hn Hn0 H0 H512 Hal Habs; cbn [for_up].
  - split; [apply rop_done|]. intros s' [= <-]. exists L, ∅. split; [done|]. split; [|split; intros; lia].
    split; intros f z; by rewrite lookup_empty.
  - destruct (dup_step_ok err inner k s L father new start x y Hin Hd Hx Hlx Hly) as [Hret Hpost];
      [apply Hal; lia|done|done|lia|intros e; apply Habs; lia|].
    destruct Hret as [[s1 E1]|[why E1]]; rewrite E1; [|by split; [apply rop_panic|]]. rewrite bind_done.
    destruct (Hpost s1 E1) as (L1 & D1 & (Hd1 & Hs1 & Hf1) & Hc1 & Hl1 & Hw1).
    assert (Hn1 : L1 !! new = Some (S k)) by (by eapply lookup_weaken).
    destruct (IH (start + 1) s1 L1 Hin Hd1 Hx Hlx Hly Hn1 Hn0) as [Hr2 Hp2]; [lia|lia|intros; apply Hal; lia| |].
    { intros j e Hj He Hp. rewrite (Hf1 new (S k) j Hn) by lia. apply (Habs j e); [lia|done..]. }
    split; [done|]. intros s' E. destruct (Hp2 s' E) as (L' & D2 & Hg2 & Hc2 & Hl2 & Hw2). exists L', (D1 ∪ D2).
    destruct (dup_join s s1 s' L L1 L' D1 D2 new start n k) as (Hj1 & Hj2 & Hj3); try done.
    split; [done|]. split; [done|]. split.
    + intros j Hj. destruct (decide (j = start)) as [->|]; [by apply Hj3; left|].
      apply Hj3. right. apply Hl2. lia.
    + intros j ix Hj Hl Hi. destruct (decide (j = start)) as [->|]; [|apply Hw2; [lia|done..]].
      rewrite (walk_kept (λ i, start + 1 ≤ i < start + 1 + Z.of_nat n) k s1 s' L1 L'); try done; try lia. by apply Hw1.
Qed.

Lemma dup_table_completes err inner k :
  completes k inner → completes (S k) (λ old new s, for_up 512 0 (λ j s, dup_step err inner old new j s) s).
Proof.
  intros Hin s L old new x y Hd Hx Hlx Hly Hxy Hn Hn0 Hsame.
  destruct (dup_loop err inner k old new x y 512 0 s L Hin Hd Hx Hlx Hly Hn Hn0) as [Hret Hpost]; [done|done|done| |].
  { intros j e Hj He Hp. exists e. split; [|done]. rewrite Hsame by lia. done. }
  split; [done|]. intros s' E. destruct (Hpost s' E) as (L' & D & (Hd' & Hs & Hf) & Hc & Hl & Hw). exists L', D. split.
  - split; [done|]. split; [done|]. intros f q i Hq Hne. apply (Hf f q i Hq). tauto.
  - split; [done|]. split; [intros i Hi; apply Hl; lia|].
    intros [|j ix] Hle Hi; [done|]. apply Forall_cons in Hi as [Hj Hi]. apply Hw; [lia|cbn in Hle; lia|done].
Qed.

(** Labels that refine the levels. *)
Lemma relabel s L (W : gmap Z X) :
  labelled s L → (∀ f x, W !! f = Some x → L !! f = Some (level x)) →
  (∀ f x k i e, W !! f = Some x → level x = S k → 0 ≤ i < 512 → tables s !! (f, i) = Some e → present e ≠ 0 →
    W !! (page_ppn e * PAGESIZE) = Some (child x i)) →
  tables_ok level child s W.
Proof.
  intros Hok HL Hc. constructor; try apply Hok.
  - intros f x i Hf. eapply (tk_known _ _ _ _ Hok). by apply HL.
  - intros f x i e Hf. eapply (tk_range _ _ _ _ Hok). by apply HL.
  - exact Hc.
  - intros f x Hf. eapply (tk_frame _ _ _ _ Hok). by apply HL.
  - intros i Hi Hu. destruct (W !! page_addr (frames s) i) eqn:E; [|done]. apply HL in E.
    by rewrite (tk_fresh _ _ _ _ Hok i Hi Hu) in E.
Qed.

Lemma completed_labels s L' D p y :
  during s L' → completed s L0 L' D → L0 !! p = None → D !! p = None → L' !! p = Some (level y) →
  (∀ k i, level y = S k → 0 ≤ i < 512 → leads_to s D p i (child y i)) →
  tables_ok level child s (<[p := y]> (D ∪ W0)) ∧ W0 ⊆ <[p := y]> (D ∪ W0).
Proof.
  intros Hd Hc Hp HDp HLp Hl. assert (Hap : ∀ g z, D !! g = Some z → W0 !! g = None).
  { intros g z Hg. apply (cd_new _ _ _ _ Hc) in Hg as [Hg _]. by apply L0_none. }
  assert (Hdis : D ##ₘ W0) by (apply map_disjoint_spec; intros g a b Ha Hb; apply Hap in Ha; congruence).
  assert (Hin : ∀ g z, (D ∪ W0) !! g = Some z → <[p := y]> (D ∪ W0) !! g = Some z).
  { intros g z Hg. rewrite lookup_insert_ne; [done|]. intros ->.
    apply lookup_union_Some in Hg as [Hg|Hg]; [congruence| |done]. apply L0_none in Hp. congruence. }
  split.
  - apply (relabel _ L'); [apply Hd|..].
    + intros f x [[<- <-]|[_ [Hx|Hx]%lookup_union_Some]]%lookup_insert_Some; [done| | |done].
      * by apply (cd_new _ _ _ _ Hc).
      * eapply lookup_weaken; [|apply Hd]. by apply L0_label.
    + intros f x k i e Hf Hk Hi He Hpr. apply Hin.
      apply lookup_insert_Some in Hf as [[<- <-]|[_ [Hx|Hx]%lookup_union_Some]]; [by eapply Hl| | |done].
      * by eapply (cd_child _ _ _ _ Hc).
      * rewrite (du_old _ _ Hd f _ i (L0_label _ _ Hx)) in He.
        apply lookup_union_Some_r; [done|]. by eapply (tk_child _ _ _ _ base0).
  - apply map_subseteq_spec. intros g z Hg. apply Hin. by apply lookup_union_Some_r.
Qed.

(** The whole directory: the entries from [start] on are copied, the others are empty. *)
Lemma duplicate_tables_ok err father start fin x (y : Z → X) :
  pmm_live (frames s0) → W0 !! frame_of father = Some x → level x = 3%nat → (∀ p, level (y p) = 3%nat) →
  0 ≤ start ≤ fin → fin ≤ 512 → (∀ p j, start ≤ j < fin → alike 2 (child x j) (child (y p) j)) →
  returns_or_panics (duplicate_tables err father start fin s0) ∧
  ∀ pml s', duplicate_tables err father start fin s0 = Done (pml, s') →
    ∃ W', live_ok level child s' W' ∧ W0 ⊆ W' ∧ cr3 s' = cr3 s0 ∧ W0 !! pml = None ∧ W' !! pml = Some (y pml) ∧
      0 ≤ pml < 2 ^ 40 ∧
      (∀ f z i, W0 !! f = Some z → tables s' !! (f, i) = tables s0 !! (f, i)) ∧
      ∀ j ix, 0 ≤ j < 512 → length ix = 3%nat → Forall (λ i, 0 ≤ i < 512) ix →
        walk s' pml (j :: ix) = if decide (start ≤ j < fin) then walk s0 (frame_of father) (j :: ix) else None.
Proof.
  intros Hlv Hx Hlx Hly Hst Hfin Hal. unfold duplicate_tables. pose proof base as Hbase.
  assert (Hfa : L0 !! frame_of father = Some 3%nat) by (rewrite (L0_label _ _ Hx); congruence).
  destruct (request_frame_rop id below s0 L0) as [Hrop Hrp]; [done|].
  destruct Hrop as [[[p s1] Hrq]|[why ->]]; [|by split; [apply rop_panic|]]. destruct (Hrp _ Hrq) as [[_ Hlv1] _].
  destruct (request_frame_fresh _ _ _ _ _ _ Hbase Hrq) as (_ & Et & Hcr & Hp & Hp40 & _).
  assert (Fp : frame_of p = p) by (by apply (reach_frame _ _ reaches_id)). rewrite Hrq, bind_done.
  case_match; [by split; [apply rop_panic|]|].
  destruct (new_table_ok s0 L0 3 p s1 (zero_table p s1) Hbase Hrq) as (Hok1 & _); [done|..].
  { intros f i Hf. rewrite tables_zero_table, Fp, Et, decide_False by tauto. done. }
  { intros i Hi. exists zero_entry. by rewrite tables_zero_table, Fp, decide_True. }
  assert (Hd1 : during (zero_table p s1) (<[p := 3%nat]> L0)).
  { constructor; [done|done|by apply insert_subseteq|done|]. intros f k i Hf.
    rewrite tables_zero_table, Fp, Et, decide_False by (intros [-> _]; congruence). done. }
  rewrite (for_up_ext _ (λ i x, dup_step "ERROR: Could not allocate page for new PD"
    (λ pd new_pd s, for_up 512 0 (λ j s, dup_step "ERROR: Could not allocate page for new PT" copy_present pd new_pd j s) s)
    (frame_of father) p i x)).
  2: { intros i z. unfold duplicate_directory, dup_step, load_entry. by rewrite (frame_of_label _ _ _ _ Hbase Hfa). }
  destruct (dup_loop "ERROR: Could not allocate page for new PD" _ 2 (frame_of father) p x (y p) (Z.to_nat (fin - start)) start _ _
    (dup_table_completes "ERROR: Could not allocate page for new PT" _ 1 copy_present_completes) Hd1 Hx Hlx (Hly p)) as [Hret Hpost];
    [apply lookup_insert_eq|done|lia|lia|intros j Hj; apply Hal; lia| |].
  { intros j e Hj _ _. exists zero_entry. rewrite tables_zero_table, Fp, decide_True by lia. done. }
  destruct Hret as [[s2 E2]|[why E2]]; rewrite E2; [|by split; [apply rop_panic|]]. rewrite bind_done.
  split; [apply rop_done|]. intros pml s' [= <- <-]. destruct (Hpost s2 E2) as (L2 & D & (Hd2 & Hs2 & Hf2) & Hc & Hl & Hw).
  assert (Hp2 : L2 !! p = Some 3%nat) by (eapply lookup_weaken, Hs2; apply lookup_insert_eq).
  assert (Hz : ∀ j, 0 ≤ j < 512 → ¬ (start ≤ j < fin) → tables s2 !! (p, j) = Some zero_entry).
  { intros j Hj Hr. rewrite (Hf2 p 3%nat j); [|apply lookup_insert_eq|lia]. by rewrite tables_zero_table, Fp, decide_True. }
  assert (HDp : D !! p = None).
  { destruct (D !! p) eqn:Ed; [|done]. apply (cd_new _ _ _ _ Hc) in Ed as [Ed _]. by rewrite lookup_insert_eq in Ed. }
  assert (Hc' : completed s2 L0 L2 D).
  { split; [|apply Hc]. intros f z Hz'. apply (cd_new _ _ _ _ Hc) in Hz' as [Hz1 Hz2]. split; [|exact Hz2].
    by apply lookup_insert_None in Hz1 as [? _]. }
  destruct (completed_labels s2 L2 D p (y p) Hd2 Hc' Hp HDp) as [Hok Hsub]; [by rewrite Hly|..].
  { intros k j _ Hj. destruct (decide (start ≤ j < fin)); [apply Hl; lia|]. intros e He. rewrite Hz in He by done. by simplify_eq. }
  exists (<[p := y p]> (D ∪ W0)). split; [split; [exact Hok|apply Hd2]|]. split; [exact Hsub|]. split; [apply Hd2|].
  split; [by apply L0_none|]. split; [apply lookup_insert_eq|]. split; [done|]. split.
  { intros f z i Hf. apply (du_old _ _ Hd2 f _ i (L0_label _ _ Hf)). }
  intros j ix Hj Hle Hi. case_decide; [apply Hw; [lia|done..]|]. cbn [walk]. by rewrite Hz.
Qed.

(** What the copy translates: the addresses from entry [start] of its root on. *)
Lemma duplicate_labels start x (y : Z → X) :
  pmm_live (frames s0) → W0 !! frame_of (get_pml4 s0) = Some x → level x = 3%nat → (∀ p, level (y p) = 3%nat) →
  0 ≤ start ≤ 512 → (∀ p j, start ≤ j < 512 → alike 2 (child x j) (child (y p) j)) →
  returns_or_panics (_duplicate_pd (get_pml4 s0) start 512 s0) ∧
  ∀ copy s', _duplicate_pd (get_pml4 s0) start 512 s0 = Done (copy, s') →
    ∃ W', live_ok level child s' W' ∧ W0 ⊆ W' ∧ W0 !! frame_of copy = None ∧ W' !! frame_of copy = Some (y (frame_of copy)) ∧
      get_pml4 s' = get_pml4 s0 ∧
      (∀ pml4 z v, W0 !! frame_of pml4 = Some z → level z = 3%nat →
        virtual_to_physical pml4 v s' = virtual_to_physical pml4 v s0) ∧
      ∀ v, virtual_to_physical copy v s' =
        if decide (start ≤ PDP_i (address_to_map v)) then virtual_to_physical (get_pml4 s0) v s0 else Done 0.
Proof.
  intros Hlv Hg Hlx Hly Hst Hal. unfold _duplicate_pd.
  destruct (duplicate_tables_ok "ERROR: Could not allocate page for new PML4" (get_pml4 s0) start 512 x y Hlv Hg Hlx Hly)
    as [Hret Hpost]; [lia|lia|done|].
  destruct Hret as [[[p s1] E]|[why E]]; rewrite E; [|by split; [apply rop_panic|]]. rewrite bind_done.
  split; [apply rop_done|]. intros copy s' [= <- <-].
  destruct (Hpost p s1 E) as (W' & [Hok' Hlv'] & Hs & Hcr & Hn & Hp & Hp40 & Hold & Hw).
  rewrite !(reach_frame _ _ reaches_kernel) by done. exists W'. split; [done|]. split; [done|]. split; [done|]. split; [done|].
  split; [unfold get_pml4; by rewrite Hcr|]. split.
  - intros pml4 z v Hz Hlz. assert (Hz' : W' !! frame_of pml4 = Some z) by (by eapply lookup_weaken).
    rewrite (virtual_to_physical_walk _ _ level_child s1 W' _ z v Hok' Hz' Hlz).
    rewrite (virtual_to_physical_walk _ _ level_child s0 W0 _ z v base0 Hz Hlz). do 2 f_equal.
    eapply (walk_same s0 s1 L0); [apply base|by apply L0_label|by rewrite Hlz|apply path_of_ok|].
    intros f k i Hf _. unfold L0 in Hf. rewrite lookup_fmap in Hf. apply fmap_Some in Hf as (u & Hu & _). by eapply Hold.
  - intros v. assert (Hp' : W' !! frame_of (TO_KERNEL_MAP p) = Some (y p)) by (by rewrite (reach_frame _ _ reaches_kernel)).
    rewrite (virtual_to_physical_walk _ _ level_child s1 W' _ (y p) v Hok' Hp' (Hly p)).
    rewrite (virtual_to_physical_walk _ _ level_child s0 W0 _ x v base0 Hg Hlx).
    rewrite (reach_frame _ _ reaches_kernel) by done.
    unfold path_of at 1. destruct (address_to_map_ok v) as (B0 & B1 & B2 & B3).
    rewrite Hw by first [done | repeat (apply Forall_cons; split; [done|]); done]. repeat case_decide; done || lia.
Qed.
End copying.

(** ** Duplication *)
Lemma alike_levels k (x : nat) : alike below k x x.
Proof. revert x. induction k as [|k IH]; intros x; [done|]. intros i. apply IH. Qed.

Lemma duplicate_pd_ok start s (L : gmap Z nat) :
  live_ok id below s L → L !! frame_of (get_pml4 s) = Some 3%nat → 0 ≤ start ≤ 512 →
  returns_or_panics (_duplicate_pd (get_pml4 s) start 512 s) ∧
  ∀ copy s', _duplicate_pd (get_pml4 s) start 512 s = Done (copy, s') →
    ∃ L', live_ok id below s' L' ∧ L ⊆ L' ∧ L !! frame_of copy = None ∧ L' !! frame_of copy = Some 3%nat ∧
      get_pml4 s' = get_pml4 s ∧
      ∀ v, virtual_to_physical (get_pml4 s) v s' = virtual_to_physical (get_pml4 s) v s ∧
        virtual_to_physical copy v s' =
          if decide (start ≤ PDP_i (address_to_map v)) then virtual_to_physical (get_pml4 s) v s else Done 0.
Proof.
  intros [Hok Hlv] Hg Hst.
  destruct (duplicate_labels id below level_child_levels s L Hok start 3%nat (λ _, 3%nat) Hlv Hg) as [Hret Hpost];
    [done|done|done|intros p j _; apply alike_levels|].
  split; [done|]. intros copy s' E. destruct (Hpost copy s' E) as (L' & H1 & H2 & H3 & H4 & H5 & H6 & H7).
  exists L'. split_and!; try done. intros v. split; [by eapply H6|apply H7].
Qed.

(** C15: A duplicated address space translates as the current one.  From well-formed tables both
    duplications return or panic.  When they return, the tables are well formed with the copy, a
    new directory, among them, the current directory is in place and translates every address as
    before; the copy made by [duplicate_current_pml4] translates every address as the current
    directory does, and that of [duplicate_current_kernel_pml4] the addresses of the upper half
    and no other. *)
Theorem duplicate_translates s (L : gmap Z nat) :
  live_ok id below s L → L !! frame_of (get_pml4 s) = Some 3%nat →
  let kept copy s' (translates : Z → Prop) :=
    ∃ L', live_ok id below s' L' ∧ L ⊆ L' ∧ L !! frame_of copy = None ∧ L' !! frame_of copy = Some 3%nat ∧
      get_pml4 s' = get_pml4 s ∧
      ∀ v, virtual_to_physical (get_pml4 s) v s' = virtual_to_physical (get_pml4 s) v s ∧ translates v in
  (returns_or_panics (duplicate_current_pml4 s) ∧
   ∀ copy s', duplicate_current_pml4 s = Done (copy, s') →
     kept copy s' (λ v, virtual_to_physical copy v s' = virtual_to_physical (get_pml4 s) v s)) ∧
  (returns_or_panics (duplicate_current_kernel_pml4 s) ∧
   ∀ copy s', duplicate_current_kernel_pml4 s = Done (copy, s') →
     kept copy s' (λ v, virtual_to_physical copy v s' =
       if decide (256 ≤ PDP_i (address_to_map v)) then virtual_to_physical (get_pml4 s) v s else Done 0)).
Proof.
  intros Hl Hg kept. split.
  - destruct (duplicate_pd_ok 0 s L Hl Hg) as [Hret Hpost]; [done|]. split; [done|]. intros copy s' E.
    destruct (Hpost copy s' E) as (L' & H1 & H2 & H3 & H4 & H5 & H6). exists L'. split_and!; try done.
    intros v. destruct (H6 v) as [Ha Hb]. rewrite decide_True in Hb by apply address_to_map_ok. done.
  - destruct (duplicate_pd_ok 256 s L Hl Hg) as [Hret Hpost]; [done|]. split; [done|]. intros copy s' E.
    destruct (Hpost copy s' E) as (L' & H1 & H2 & H3 & H4 & H5 & H6). by exists L'.
Qed.

Lemma duplicate_translates_witness :
  ∃ s copy s', map_memory (get_pml4 mmu0) 0x400000 0x7000 3 mmu0 = Done s ∧
    duplicate_current_pml4 s = Done (copy, s') ∧ virtual_to_physical copy 0x400000 s' = Done 0x7000.
Proof.
  destruct (is_done_returns (map_memory (get_pml4 mmu0) 0x400000 0x7000 3 mmu0)) as [s E]; [by vm_compute|].
  destruct (map_page_rop _ _ level_child_levels _ _ (get_pml4 mmu0) 0x400000 0x7000 3 mmu0 {[root0 := 3%nat]} 3%nat
    reaches_kernel (conj (mmu0_ok _ _ _) mmu0_live) eq_refl eq_refl) as [_ K].
  destruct (K s E) as (L & Hl & Hs & Hc).
  destruct (duplicate_translates s L Hl) as [[_ Hp] _].
  { unfold get_pml4. rewrite Hc. apply (lookup_weaken _ _ _ _ (eq_refl : {[root0 := 3%nat]} !! frame_of (TO_KERNEL_MAP (cr3 mmu0)) = Some 3%nat) Hs). }
  destruct (is_done_returns (s ← map_memory (get_pml4 mmu0) 0x400000 0x7000 3 mmu0; duplicate_current_pml4 s)) as [[copy s'] E'];
    [by vm_compute|].
  rewrite E in E'. cbn [mbind outcome_bind] in E'. exists s, copy, s'. split; [exact E|]. split; [exact E'|].
  destruct (Hp copy s' E') as (_ & _ & _ & _ & _ & _ & Hv). destruct (Hv 0x400000) as [_ ->].
  unfold get_pml4. rewrite Hc. change (TO_KERNEL_MAP (cr3 mmu0)) with (get_pml4 mmu0).
  assert (T : (s ← map_memory (get_pml4 mmu0) 0x400000 0x7000 3 mmu0; virtual_to_physical (get_pml4 mmu0) 0x400000 s) = Done 0x7000)
    by (by vm_compute).
  rewrite E in T. exact T.
Defined.
