(* ===== verification/AddressSpace.v ===== *)
(** * Address spaces (src/src/memory/paging.c)

    The page tables of several directories: the lower half of each is its own, the page tables
    of the upper half are shared by all.  A table is labelled with the directory it belongs to
    and its path; the page tables proper of the upper half belong to no directory. *)
From stdpp Require Import gmap.
From S2P Require Import Prelude PageAlloc PageService Paging PagingSpec PagingCopy.
#[local] Open Scope Z_scope.

(** The owner and the path. *)
Definition space : Type := Z * list Z.
Definition slevel (x : space) : nat := 3 - length x.2.
Definition schild (x : space) (i : Z) : space :=
  let π := (x.2 ++ [i])%list in
  (if decide (length π = 3%nat ∧ 256 ≤ hd 0 π) then 0 else x.1, π).

Lemma level_child_spaces x i k : slevel x = S k → slevel (schild x i) = k.
Proof. unfold slevel, schild. cbn. rewrite length_app. cbn. lia. Qed.

Abbreviation spaces_ok := (live_ok slevel schild).

(** A directory in use. *)
Definition directory (W : gmap Z space) (t : Z) : Prop := W !! frame_of t = Some (frame_of t, []).

(** The addresses of the lower half. *)
Definition user_half (v : Z) : Prop := PDP_i (address_to_map v) < 256.

Lemma descend_root r m :
  foldl schild (r, []) (path3 m) = (if decide (256 ≤ PDP_i m) then 0 else r, path3 m).
Proof. unfold path3, schild. cbn. repeat case_decide; try done; intuition lia. Qed.

(** Different pages, or the same one of the lower half in different directories. *)
Lemma slots_differ r r' (m m' : page_map_index) :
  m' ≠ m ∨ (r' ≠ r ∧ PDP_i m < 256) →
  (if decide (256 ≤ PDP_i m') then 0 else r', path3 m') ≠ (if decide (256 ≤ PDP_i m) then 0 else r, path3 m) ∨ P_i m' ≠ P_i m.
Proof.
  destruct m as [a b c d], m' as [a' b' c' d']. unfold path3. cbn [PDP_i PD_i PT_i P_i]. intros Hne.
  destruct (decide (d' = d)) as [->|]; [left|by right]. intros E. pose proof (f_equal fst E) as Eo.
  pose proof (f_equal snd E) as Ep. cbn [fst snd] in Eo, Ep. injection Ep as -> -> ->.
  destruct Hne as [Hne|[Hne Hu]]; [done|]. repeat case_decide; lia || congruence.
Qed.

(** ** One entry *)

(** Storing an entry of a page table changes the walks that end in it and no other. *)
Lemma walk_store_label s W g y i e f x ix :
  tables_ok slevel schild s W → W !! g = Some y → slevel y = 0%nat → W !! f = Some x →
  length ix = S (slevel x) → Forall (λ i, 0 ≤ i < 512) ix →
  foldl schild x (removelast ix) ≠ y ∨ List.last ix 0 ≠ i →
  walk (store_at g i e s) f ix = walk s f ix.
Proof.
  intros Hok Hg Hy. revert f x. induction ix as [|j ix IH]; intros f x Hf Hl Hix Hne; [done|].
  apply Forall_cons in Hix as [Hj Hix]. cbn [walk]. rewrite tables_store_at, decide_False.
  - destruct (tables s !! (f, j)) as [e'|] eqn:He; [|done]. cbn.
    destruct (Z.eqb_spec (present e') 0); [done|]. destruct ix as [|j' ix]; [done|].
    cbn in Hl. destruct (slevel x) as [|k] eqn:Hx; [lia|].
    eapply (IH _ (schild x j)); [by eapply (tk_child _ _ _ _ Hok)|rewrite (level_child_spaces _ _ _ Hx); cbn; lia|done|exact Hne].
  - intros E. simplify_eq. rewrite Hy in Hl. destruct ix; [|done]. cbn in Hne. tauto.
Qed.

(** ** Mapping *)

(** A step that adds tables and sets one entry. *)
Lemma map_spaces pml4 v p flags s W :
  spaces_ok s W → directory W pml4 →
  returns_or_panics (map_memory pml4 v p flags s) ∧
  ∀ s', map_memory pml4 v p flags s = Done s' →
    ∃ W', spaces_ok s' W' ∧ W ⊆ W' ∧ cr3 s' = cr3 s ∧
      (0 ≤ p < 2 ^ 40 → virtual_to_physical pml4 v s' = Done p) ∧
      ∀ pml4' v', directory W pml4' →
        address_to_map v' ≠ address_to_map v ∨ (frame_of pml4' ≠ frame_of pml4 ∧ user_half v) →
        virtual_to_physical pml4' v' s' = virtual_to_physical pml4' v' s.
Proof.
  intros [Hok Hlv] Hd.
  destruct (map_page_rop _ _ level_child_spaces _ _ pml4 v p flags s W _ reaches_kernel (conj Hok Hlv) Hd eq_refl) as [Hret Hpost].
  split; [exact Hret|]. intros s' E. destruct (Hpost s' E) as (_ & [_ Hlv'] & _ & _). destruct (map_page_aligned _ _ _ _ _ _ _ _ E) as [_ Hal].
  destruct (map_page_ok _ _ level_child_spaces _ _ _ _ _ _ _ W _ _ reaches_kernel Hok Hd eq_refl E) as
    (W' & s3 & f3 & e & Hext & Hld & He & ->).
  set (i3 := P_i (address_to_map v)) in *. set (e' := mapped_entry p flags e) in *.
  destruct (leads_level _ _ level_child_spaces _ _ _ _ _ _ Hld eq_refl) as (y & Hy & Hy0).
  assert (Hld' := leads_store _ _ level_child_spaces _ _ _ _ _ _ _ _ i3 e' Hld eq_refl Hy Hy0).
  assert (Hok' : tables_ok slevel schild (store_at f3 i3 e' s3) W').
  { eapply store_leaf_ok; [apply Hext|done|done|]. cbn. apply wrap_range. lia. }
  assert (Hy' : W' !! f3 = Some (foldl schild (frame_of pml4, []) (path3 (address_to_map v)))).
  { destruct Hld as (f1 & f2 & _ & _ & _ & _ & _ & _ & Hf3). exact Hf3. }
  assert (Hdir : ∀ t, directory W t → directory W' t) by (intros t Ht; eapply lookup_weaken; [exact Ht|apply Hext]).
  exists W'. split; [done|]. split; [apply Hext|]. split; [apply Hext|]. split.
  - intros Hp. rewrite (virtual_to_physical_walk _ _ level_child_spaces _ W' _ (frame_of pml4, [])) by (done || by apply Hdir).
    rewrite (walk_leads _ _ _ _ _ _ _ Hld'). cbn [walk].
    rewrite tables_store_at, decide_True by done. cbn [mbind option_bind].
    change (present e' =? 0) with false. cbv iota. cbn [translation]. f_equal. unfold e'. rewrite mapped_ppn by done.
    by apply Z.mod_small.
  - intros pml4' v' Hd' Hne.
    rewrite (virtual_to_physical_walk _ _ level_child_spaces _ W' _ (frame_of pml4', [])) by (done || by apply Hdir).
    rewrite (virtual_to_physical_walk _ _ level_child_spaces s W _ (frame_of pml4', [])) by done.
    do 2 f_equal. rewrite (walk_store_label s3 W' f3 y i3 e' _ (frame_of pml4', [])).
    + eapply ext_walk; [exact Hext|exact Hd'|done|apply path_of_ok].
    + apply Hext.
    + done.
    + done.
    + by apply Hdir.
    + done.
    + apply path_of_ok.
    + assert (y = foldl schild (frame_of pml4, []) (path3 (address_to_map v))) as -> by congruence.
      change (removelast (path_of (address_to_map v'))) with (path3 (address_to_map v')).
      change (List.last (path_of (address_to_map v')) 0) with (P_i (address_to_map v')). rewrite !descend_root.
      by apply slots_differ.
Qed.

(** ** A new address space *)
Lemma new_space s W :
  spaces_ok s W → directory W (get_pml4 s) →
  returns_or_panics (duplicate_current_kernel_pml4 s) ∧
  ∀ copy s', duplicate_current_kernel_pml4 s = Done (copy, s') →
    ∃ W', spaces_ok s' W' ∧ W ⊆ W' ∧ W !! frame_of copy = None ∧ directory W' copy ∧ get_pml4 s' = get_pml4 s ∧
      (∀ t v, directory W t → virtual_to_physical t v s' = virtual_to_physical t v s) ∧
      ∀ v, virtual_to_physical copy v s' =
        if decide (user_half v) then Done 0 else virtual_to_physical (get_pml4 s) v s.
Proof.
  intros [Hok Hlv] Hd.
  destruct (duplicate_labels slevel schild level_child_spaces s W Hok 256 _ (λ p, (p, [])) Hlv Hd) as [Hret Hpost]; try done.
  { intros p j Hj a b. unfold schild. cbn. rewrite !decide_True by (split; [done|lia]).
    repeat (case_decide; try (destruct_and!; done)); done. }
  split; [exact Hret|]. intros copy s' E.
  destruct (Hpost copy s' E) as (W' & H1 & H2 & H3 & H4 & H5 & H6 & H7). exists W'. split_and!; try done.
  - intros t v Ht. by eapply H6.
  - intros v. rewrite H7. unfold user_half. repeat case_decide; done || lia.
Qed.

(** C2: Address spaces are isolated.  With the lower half of every directory its own and the
    page tables of the upper half shared, a new directory translates the upper half as the current
    one does and nothing else; mapping a page returns or panics, keeps the tables well formed,
    translates that page as asked, and changes no other translation of the directory and, when
    the page is in the lower half, no translation of any other directory. *)
Theorem address_spaces_isolated s W :
  spaces_ok s W →
  (∀ pml4 v p flags, directory W pml4 → 0 ≤ p < 2 ^ 40 →
    returns_or_panics (map_memory pml4 v p flags s) ∧
    ∀ s', map_memory pml4 v p flags s = Done s' →
      (∃ W', spaces_ok s' W' ∧ W ⊆ W') ∧ virtual_to_physical pml4 v s' = Done p ∧
      ∀ pml4' v', directory W pml4' →
        address_to_map v' ≠ address_to_map v ∨ (frame_of pml4' ≠ frame_of pml4 ∧ user_half v) →
        virtual_to_physical pml4' v' s' = virtual_to_physical pml4' v' s) ∧
  (directory W (get_pml4 s) →
    returns_or_panics (duplicate_current_kernel_pml4 s) ∧
    ∀ copy s', duplicate_current_kernel_pml4 s = Done (copy, s') →
      (∃ W', spaces_ok s' W' ∧ W ⊆ W' ∧ directory W' copy) ∧ W !! frame_of copy = None ∧
      (∀ t v, directory W t → virtual_to_physical t v s' = virtual_to_physical t v s) ∧
      ∀ v, virtual_to_physical copy v s' = if decide (user_half v) then Done 0 else virtual_to_physical (get_pml4 s) v s).
Proof.
  intros Hs. split.
  - intros pml4 v p flags Hd Hp. destruct (map_spaces pml4 v p flags s W Hs Hd) as [Hret Hpost]. split; [exact Hret|].
    intros s' E. destruct (Hpost s' E) as (W' & H1 & H2 & _ & H3 & H4). split_and!; [by exists W'|by apply H3|exact H4].
  - intros Hd. destruct (new_space s W Hs Hd) as [Hret Hpost]. split; [exact Hret|]. intros copy s' E.
    destruct (Hpost copy s' E) as (W' & H1 & H2 & H3 & H4 & _ & H5 & H6). split_and!; [by exists W'|done|exact H5|exact H6].
Qed.

Lemma address_spaces_isolated_witness :
  ∃ copy s1 s2, duplicate_current_kernel_pml4 mmu0 = Done (copy, s1) ∧ map_memory copy 0x400000 0x7000 3 s1 = Done s2 ∧
    virtual_to_physical copy 0x400000 s2 = Done 0x7000 ∧ virtual_to_physical (get_pml4 mmu0) 0x400000 s2 = Done 0.
Proof.
  assert (H0 : spaces_ok mmu0 {[root0 := (root0, [])]}) by (split; [apply mmu0_ok|apply mmu0_live]).
  destruct (address_spaces_isolated mmu0 {[root0 := (root0, [])]} H0) as [_ Hdup].
  destruct Hdup as [_ Hdup]; [by vm_compute|].
  destruct (is_done_returns ('(c, s) ← duplicate_current_kernel_pml4 mmu0; s' ← map_memory c 0x400000 0x7000 3 s; Done (c, s, s')))
    as [[[copy s1] s2] E]; [by vm_compute|].
  apply bind_done_inv in E as ([c s] & E1 & E). apply bind_done_inv in E as (s' & E2 & [= -> -> ->]).
  destruct (Hdup copy s1 E1) as ((W & Hs & Hsub & Hc) & Hfr & Hold & _).
  destruct (address_spaces_isolated s1 W Hs) as [Hmap _].
  destruct (Hmap copy 0x400000 0x7000 3 Hc) as [_ Hm]; [lia|]. destruct (Hm s2 E2) as (_ & Ht & Ho).
  exists copy, s1, s2. split; [exact E1|]. split; [exact E2|]. split; [exact Ht|].
  rewrite Ho, Hold; [vm_compute; reflexivity|vm_compute; reflexivity|exact (lookup_weaken _ _ _ _ (eq_refl : {[root0 := (root0, [])]} !! frame_of (get_pml4 mmu0) = Some (frame_of (get_pml4 mmu0), [])) Hsub)|].
  right. split; [|vm_compute; reflexivity]. intros Ef. rewrite <- Ef in Hfr. vm_compute in Hfr. discriminate Hfr.
Defined.
