(* ===== verification/Heap.v ===== *)
(** * The heap and stack allocator (src/src/memory/heap.c, heap.h)

    A heap is a descending chain of segments: [mainSegment] at the top, [next] going
    to lower addresses, [lastSegment] at [heapEnd].  The memory model keeps the
    segment headers as typed cells and the rest as bytes; a write in one view makes
    what it overlaps unknown in the other, so that reading a clobbered header or an
    overwritten byte is a [Fault] and never a stale value.  Page frames and page
    tables are reached through [PageService]. *)
From S2P Require Import Prelude Dll Concurrency PageAlloc PageService Paging.
From stdpp Require Import strings.
#[local] Open Scope Z_scope.

Definition HEAP_SIGNATURE : Z := 0xcafebabe.

(** ** Data *)
Record heap_segment_header := {
  seg_free : Z;
  seg_length : Z;
  seg_next : Z;
  seg_last : Z;
  seg_isStack : Z;
  seg_signature : Z;
}.

(** sizeof(struct heap_segment_header): 40 bytes of fields, aligned to 16. *)
Definition HDR : Z := 48.

Definition zero_header : heap_segment_header :=
  {| seg_free := 0; seg_length := 0; seg_next := 0; seg_last := 0;
     seg_isStack := 0; seg_signature := 0 |}.

Definition set_free v x := {| seg_free := v; seg_length := seg_length x; seg_next := seg_next x;
  seg_last := seg_last x; seg_isStack := seg_isStack x; seg_signature := seg_signature x |}.
Definition set_length v x := {| seg_free := seg_free x; seg_length := v; seg_next := seg_next x;
  seg_last := seg_last x; seg_isStack := seg_isStack x; seg_signature := seg_signature x |}.
Definition set_next v x := {| seg_free := seg_free x; seg_length := seg_length x; seg_next := v;
  seg_last := seg_last x; seg_isStack := seg_isStack x; seg_signature := seg_signature x |}.
Definition set_last v x := {| seg_free := seg_free x; seg_length := seg_length x;
  seg_next := seg_next x; seg_last := v; seg_isStack := seg_isStack x;
  seg_signature := seg_signature x |}.
Definition set_isStack v x := {| seg_free := seg_free x; seg_length := seg_length x;
  seg_next := seg_next x; seg_last := seg_last x; seg_isStack := v;
  seg_signature := seg_signature x |}.
Definition set_signature v x := {| seg_free := seg_free x; seg_length := seg_length x;
  seg_next := seg_next x; seg_last := seg_last x; seg_isStack := seg_isStack x;
  seg_signature := v |}.

Record heap := {
  heapEnd : Z;
  lastStack : Z;
  lastSegment : Z;
  mainSegment : Z;
  totalSize : Z;
  usedSize : Z;
  freeSize : Z;
  isKernel : Z;
  ready : Z;
  heap_lock : spinlock_t;
  stack_lock : spinlock_t;
}.

Definition with_heapEnd v h := {| heapEnd := v; lastStack := lastStack h;
  lastSegment := lastSegment h; mainSegment := mainSegment h; totalSize := totalSize h;
  usedSize := usedSize h; freeSize := freeSize h; isKernel := isKernel h; ready := ready h;
  heap_lock := heap_lock h; stack_lock := stack_lock h |}.
Definition with_lastStack v h := {| heapEnd := heapEnd h; lastStack := v;
  lastSegment := lastSegment h; mainSegment := mainSegment h; totalSize := totalSize h;
  usedSize := usedSize h; freeSize := freeSize h; isKernel := isKernel h; ready := ready h;
  heap_lock := heap_lock h; stack_lock := stack_lock h |}.
Definition with_lastSegment v h := {| heapEnd := heapEnd h; lastStack := lastStack h;
  lastSegment := v; mainSegment := mainSegment h; totalSize := totalSize h;
  usedSize := usedSize h; freeSize := freeSize h; isKernel := isKernel h; ready := ready h;
  heap_lock := heap_lock h; stack_lock := stack_lock h |}.
Definition with_sizes t u f h := {| heapEnd := heapEnd h; lastStack := lastStack h;
  lastSegment := lastSegment h; mainSegment := mainSegment h; totalSize := t;
  usedSize := u; freeSize := f; isKernel := isKernel h; ready := ready h;
  heap_lock := heap_lock h; stack_lock := stack_lock h |}.
Definition with_heap_lock l h := {| heapEnd := heapEnd h; lastStack := lastStack h;
  lastSegment := lastSegment h; mainSegment := mainSegment h; totalSize := totalSize h;
  usedSize := usedSize h; freeSize := freeSize h; isKernel := isKernel h; ready := ready h;
  heap_lock := l; stack_lock := stack_lock h |}.
Definition with_stack_lock l h := {| heapEnd := heapEnd h; lastStack := lastStack h;
  lastSegment := lastSegment h; mainSegment := mainSegment h; totalSize := totalSize h;
  usedSize := usedSize h; freeSize := freeSize h; isKernel := isKernel h; ready := ready h;
  heap_lock := heap_lock h; stack_lock := l |}.

(** ** Memory *)
Record kmem := { hdrs : gmap Z heap_segment_header; bytes : gmap Z Z }.

(** The headers that a write of [n] bytes at [a] does not touch. *)
Definition clobber (a n : Z) (m : gmap Z heap_segment_header) : gmap Z heap_segment_header :=
  filter (λ x, x.1 + HDR ≤ a ∨ a + n ≤ x.1 ∨ n ≤ 0) m.

Fixpoint forget {A} (m : gmap Z A) (a : Z) (n : nat) : gmap Z A :=
  match n with O => m | S n => forget (delete a m) (a + 1) n end.

Definition load_hdr (m : kmem) (a : Z) : outcome heap_segment_header := known (hdrs m !! a).

Definition store_hdr (a : Z) (x : heap_segment_header) (m : kmem) : kmem :=
  {| hdrs := <[a := x]> (clobber a HDR (hdrs m)); bytes := forget (bytes m) a (Z.to_nat HDR) |}.

(** An assignment to fields of the header at [a]. *)
Definition upd_hdr (a : Z) (f : heap_segment_header → heap_segment_header) (m : kmem)
    : outcome kmem :=
  x ← load_hdr m a; Done (store_hdr a (f x) m).

(** [memset(header, 0, sizeof(struct heap_segment_header))]: both views are known. *)
Definition zero_hdr (a : Z) (m : kmem) : kmem :=
  {| hdrs := <[a := zero_header]> (clobber a HDR (hdrs m));
     bytes := fill (bytes m) a 0 (Z.to_nat HDR) |}.

Definition memset_mem (a v n : Z) (m : kmem) : kmem :=
  {| hdrs := clobber a n (hdrs m); bytes := fill (bytes m) a (u8 v) (Z.to_nat n) |}.

(** Copies the known bytes, in increasing order as [memcpy] does. *)
Fixpoint copy_bytes (m : gmap Z Z) (d s : Z) (n : nat) : gmap Z Z :=
  match n with
  | O => m
  | S n => copy_bytes (match m !! s with Some v => <[d := v]> m | None => delete d m end)
             (d + 1) (s + 1) n
  end.

Definition memcpy_mem (d s n : Z) (m : kmem) : kmem :=
  {| hdrs := clobber d n (hdrs m); bytes := copy_bytes (bytes m) d s (Z.to_nat n) |}.

(** ** Segments *)
Definition GetHeapSegmentHeader (address : Z) : Z := u64 (address - HDR).

Definition splitSegment (cheap : heap) (segment size : Z) (m : kmem)
    : outcome (Z * heap * kmem) :=
  sg ← load_hdr m segment;
  if seg_length sg <=? u64 (size + HDR) then Done (0, cheap, m) else
  if negb (seg_signature sg =? HEAP_SIGNATURE)
  then Panic "Invalid heap segment signature split" else
  let newSegment := u64 (segment + seg_length sg - size) in
  let m := zero_hdr newSegment m in
  m ← upd_hdr newSegment (λ x, set_signature HEAP_SIGNATURE (set_next segment
         (set_isStack 0 (set_length size (set_free 1 x))))) m;
  sg ← load_hdr m segment;
  m ← upd_hdr newSegment (set_last (seg_last sg)) m;
  sg ← load_hdr m segment;
  let cheap := if seg_next sg =? 0 then with_lastSegment segment cheap else cheap in
  m ← (if negb (seg_last sg =? 0) then upd_hdr (seg_last sg) (set_next newSegment) m else Done m);
  m ← upd_hdr segment (set_last newSegment) m;
  m ← upd_hdr segment (λ x, set_length (u64 (seg_length x - u64 (size + HDR))) x) m;
  Done (newSegment, cheap, m).

Definition MergeThisToNext (header : Z) (m : kmem) : outcome kmem :=
  h ← load_hdr m header;
  let next := seg_next h in
  m ← upd_hdr next (λ x, set_length (u64 (seg_length x + u64 (seg_length h + HDR))) x) m;
  m ← upd_hdr next (set_last (seg_last h)) m;
  m ← upd_hdr (seg_last h) (set_next next) m;
  Done (zero_hdr header m).

Definition MergeLastToThis (header : Z) (m : kmem) : outcome kmem :=
  h ← load_hdr m header;
  let last := seg_last h in
  l ← load_hdr m last;
  m ← upd_hdr header (λ x, set_length (u64 (seg_length x + u64 (seg_length l + HDR))) x) m;
  m ← upd_hdr header (set_last (seg_last l)) m;
  h ← load_hdr m header;
  m ← upd_hdr (seg_last h) (set_next header) m;
  Done (zero_hdr last m).

Definition MergeLastAndThisToNext (header : Z) (m : kmem) : outcome kmem :=
  m ← MergeLastToThis header m;
  MergeThisToNext header m.

(** ** free *)

(** [cheap->freeSize += header->length + sizeof; cheap->usedSize -= ...] *)
Definition account_free (len : Z) (h : heap) : heap :=
  with_sizes (totalSize h) (u64 (usedSize h - u64 (len + HDR))) (u64 (freeSize h + u64 (len + HDR))) h.

Definition account_used (len : Z) (h : heap) : heap :=
  with_sizes (totalSize h) (u64 (usedSize h + u64 (len + HDR))) (u64 (freeSize h - u64 (len + HDR))) h.

Definition _free (address : Z) (cheap : heap) (m : kmem) : outcome (heap * kmem) :=
  if ready cheap =? 0 then Done (cheap, m) else
  if address =? 0 then Done (cheap, m) else
  let header := u64 (address - HDR) in
  h ← load_hdr m header;
  if negb (seg_signature h =? HEAP_SIGNATURE) then Panic "Invalid free, signature" else
  if negb (seg_free h =? 0) then Panic "Invalid free, double free" else
  m ← upd_hdr header (set_free 1) m;
  h ← load_hdr m header;
  let cheap := account_free (seg_length h) cheap in
  both ← (if negb (seg_next h =? 0) && negb (seg_last h =? 0) then
            nx ← load_hdr m (seg_next h);
            if negb (seg_free nx =? 0) then
              la ← load_hdr m (seg_last h); Done (negb (seg_free la =? 0))
            else Done false
          else Done false);
  if (both : bool) then m ← MergeLastAndThisToNext header m; Done (cheap, m) else
  lastFree ← (if negb (seg_last h =? 0)
              then la ← load_hdr m (seg_last h); Done (negb (seg_free la =? 0)) else Done false);
  if (lastFree : bool) then m ← MergeLastToThis header m; Done (cheap, m) else
  nextFree ← (if negb (seg_next h =? 0)
              then nx ← load_hdr m (seg_next h); Done (negb (seg_free nx =? 0)) else Done false);
  if (nextFree : bool) then m ← MergeThisToNext header m; Done (cheap, m) else
  Done (cheap, m).

(** ** malloc *)

(** The memory and the page service state. *)
Record kst (P : Type) := { mem : kmem; pages : P }.
Arguments mem {P}.
Arguments pages {P}.
Arguments Build_kst {P}.

(** What the walk of [_malloc] ends with: the block it took, or no fit. *)
Inductive walk_result :=
| Took (address : Z) (cheap : heap) (m : kmem)
| NoFit.

Definition malloc_step (cheap : heap) (m : kmem) (size : Z) (currentSegment : Z)
    : outcome (Z + walk_result) :=
  let sizeWithHeader := u64 (size + HDR) in
  c ← load_hdr m currentSegment;
  if negb (seg_signature c =? HEAP_SIGNATURE)
  then Panic "Invalid heap segment signature malloc" else
  let advance : outcome (Z + walk_result) :=
    if seg_next c =? 0 then Done (inr NoFit) else
    if seg_next c =? currentSegment then Panic "Current segment cycle" else
    Done (inl (seg_next c)) in
  if negb (seg_free c =? 0) then
    if seg_length c >? sizeWithHeader then
      '(taken, cheap, m) ← splitSegment cheap currentSegment size m;
      m ← upd_hdr taken (set_free 0) m;
      t ← load_hdr m taken;
      Done (inr (Took (u64 (taken + HDR)) (account_used (seg_length t) cheap) m))
    else if seg_length c =? size then
      m ← upd_hdr currentSegment (set_free 0) m;
      t ← load_hdr m currentSegment;
      Done (inr (Took (u64 (currentSegment + HDR)) (account_used (seg_length t) cheap) m))
    else advance
  else advance.

Definition round16 (size : Z) : Z :=
  if size mod 0x10 >? 0 then u64 (u64 (size - size mod 0x10) + 0x10) else size.

(** The chain has no more segments than there are header cells. *)
Definition walk_fuel (m : kmem) : nat := S (base.size (hdrs m)).

(** The segment [expand_heap] writes at the new [heapEnd]: it replaces the last
    segment if that one is free, and follows it otherwise. *)
Definition relink_last (cheap : heap) (length : Z) (m : kmem) : outcome (heap * kmem) :=
  let newSegment := heapEnd cheap in
  grow ← (if negb (lastSegment cheap =? 0) then
            l ← load_hdr m (lastSegment cheap);
            Done (negb (seg_free l =? 0) && negb (seg_last l =? 0))
          else Done false);
  if (grow : bool) then
    l ← load_hdr m (lastSegment cheap);
    let size := u64 (seg_length l + length) in
    let m := store_hdr newSegment
      {| seg_free := 1; seg_length := u64 (size - HDR); seg_next := 0; seg_last := seg_last l;
         seg_isStack := 0; seg_signature := HEAP_SIGNATURE |} m in
    m ← upd_hdr (seg_last l) (set_next newSegment) m;
    Done (with_lastSegment newSegment cheap, m)
  else
    let m := store_hdr newSegment
      {| seg_free := 1; seg_length := u64 (length - HDR); seg_next := 0;
         seg_last := lastSegment cheap; seg_isStack := 0; seg_signature := HEAP_SIGNATURE |} m in
    m ← (if negb (lastSegment cheap =? 0)
         then upd_hdr (lastSegment cheap) (set_next newSegment) m else Done m);
    Done (with_lastSegment newSegment cheap, m).

Section WithPages.
Context {P : Type} `{PageService P}.

(** One turn of the page loop of [expand_heap]; [pd] is the current directory. *)
Definition expand_page (pd pml4 perms : Z) (s : heap * P) : outcome (heap * P) :=
  let '(cheap, p) := s in
  '(new_page, p) ← ps_request_page p;
  let cheap := with_heapEnd (u64 (heapEnd cheap - PAGESIZE)) cheap in
  p ← ps_map_current_memory (heapEnd cheap) new_page perms p;
  p ← (if negb (pd =? pml4) then ps_map_memory pml4 (heapEnd cheap) new_page perms p
       else Done p);
  if heapEnd cheap =? 0 then Panic "Failed to expand heap" else
  Done (cheap, p).

Definition expand_heap (pml4 : Z) (cheap : heap) (length : Z) (s : kst P)
    : outcome (heap * kst P) :=
  let length := u64 (length + HDR) in
  let length := if negb (length mod PAGESIZE =? 0)
                then u64 (u64 (length - length mod PAGESIZE) + PAGESIZE) else length in
  let pgs := length / PAGESIZE in
  let pgs := if negb (length mod PAGESIZE =? 0) then pgs + 1 else pgs in
  let perms := if isKernel cheap =? 0 then Z.lor PAGE_WRITE_BIT PAGE_USER_BIT else PAGE_WRITE_BIT in
  let pd := ps_get_pml4 (pages s) in
  '(cheap, p) ← for_up (Z.to_nat pgs) 0 (λ _ x, expand_page pd pml4 perms x) (cheap, pages s);
  '(cheap, m) ← relink_last cheap length (mem s);
  let cheap := with_sizes (u64 (totalSize cheap + u64 (length + HDR))) (usedSize cheap)
                 (u64 (freeSize cheap + u64 (length + HDR))) cheap in
  Done (cheap, Build_kst m p).

(** [_malloc] calls itself after each expansion; [depth] bounds the calls. *)
Fixpoint malloc_rec (depth : nat) (pml4 : Z) (cheap : heap) (size : Z) (s : kst P)
    : outcome (Z * heap * kst P) :=
  match depth with
  | O => OutOfFuel
  | S depth =>
      if ready cheap =? 0 then Done (0, cheap, s) else
      if size =? 0 then Done (0, cheap, s) else
      let size := round16 size in
      r ← loop (walk_fuel (mem s)) (malloc_step cheap (mem s) size) (mainSegment cheap);
      match r with
      | Took address cheap m => Done (address, cheap, Build_kst m (pages s))
      | NoFit =>
          '(cheap, s) ← expand_heap pml4 cheap size s;
          malloc_rec depth pml4 cheap size s
      end
  end.

(** Two expansions always suffice: [malloc_total]. *)
Definition _malloc := malloc_rec 3.

Definition _calloc (pml4 : Z) (cheap : heap) (num size : Z) (s : kst P)
    : outcome (Z * heap * kst P) :=
  if ready cheap =? 0 then Done (0, cheap, s) else
  '(ptr, cheap, s) ← _malloc pml4 cheap (u64 (num * size)) s;
  Done (ptr, cheap, Build_kst (memset_mem ptr 0 (u64 (num * size)) (mem s)) (pages s)).

Definition _realloc (pml4 : Z) (cheap : heap) (buffer size : Z) (s : kst P)
    : outcome (Z * heap * kst P) :=
  if ready cheap =? 0 then Done (0, cheap, s) else
  '(newBuffer, cheap, s) ← _malloc pml4 cheap size s;
  if newBuffer =? 0 then Done (0, cheap, s) else
  if buffer =? 0 then Done (newBuffer, cheap, s) else
  h ← load_hdr (mem s) (GetHeapSegmentHeader buffer);
  let oldSize := if size <? seg_length h then size else seg_length h in
  let m := memcpy_mem newBuffer buffer oldSize (mem s) in
  '(cheap, m) ← _free buffer cheap m;
  Done (newBuffer, cheap, Build_kst m (pages s)).

(** ** Start-up and stacks *)
(** The page requests and mappings of [_initHeap] for the first heap page [he] and the
    first stack page [ls]. *)
Definition init_pages (pml4 perms he ls : Z) (p : P) : outcome P :=
  '(_, p) ← ps_request_current_page_at he perms p;
  '(_, p) ← ps_request_current_page_at ls perms p;
  let pd := ps_get_pml4 p in
  if negb (pd =? pml4) then
    physical ← ps_virtual_to_physical pd he p;
    p ← ps_map_memory pml4 he physical perms p;
    physical ← ps_virtual_to_physical pd ls p;
    ps_map_memory pml4 ls physical perms p
  else Done p.

Definition _initHeap (pml4 : Z) (cheap : heap) (heapStart heapEndAddr stackStart stackEnd user : Z)
    (s : kst P) : outcome (heap * kst P) :=
  let perms := if negb (user =? 0) then Z.lor PAGE_WRITE_BIT PAGE_USER_BIT else PAGE_WRITE_BIT in
  let he := u64 (heapEndAddr - PAGESIZE) in
  let ls := u64 (stackEnd - PAGESIZE) in
  p ← init_pages pml4 perms he ls (pages s);
  let main := u64 (he + (PAGESIZE - HDR)) in
  let nxt := u64 (main - PAGESIZE + HDR) in
  let m := store_hdr main
    {| seg_free := 0; seg_length := 0; seg_next := nxt; seg_last := 0; seg_isStack := 0;
       seg_signature := HEAP_SIGNATURE |} (mem s) in
  let m := store_hdr nxt
    {| seg_free := 1; seg_length := PAGESIZE - HDR - HDR; seg_next := 0; seg_last := main;
       seg_isStack := 0; seg_signature := HEAP_SIGNATURE |} m in
  Done ({| heapEnd := he; lastStack := ls; lastSegment := nxt; mainSegment := main;
           totalSize := u64 (totalSize cheap + PAGESIZE); usedSize := usedSize cheap;
           freeSize := u64 (freeSize cheap + PAGESIZE); isKernel := b2z (user =? 0); ready := 1;
           heap_lock := unlocked; stack_lock := unlocked |}, Build_kst m p).

Definition heap_safeguard (cheap : heap) : Z := ready cheap.

(** One turn of the page loop of [_stackalloc]. *)
Definition stack_page (pd pml4 perms : Z) (s : heap * P) : outcome (heap * P) :=
  let '(cheap, p) := s in
  let cheap := with_lastStack (u64 (lastStack cheap - PAGESIZE)) cheap in
  '(a, p) ← ps_request_current_page_at (lastStack cheap) perms p;
  let cheap := with_lastStack a cheap in
  if lastStack cheap =? 0 then Panic "Out of memory" else
  p ← (if negb (pd =? pml4) then
         physical ← ps_virtual_to_physical pd (lastStack cheap) p;
         ps_map_memory pml4 (lastStack cheap) physical perms p
       else Done p);
  Done (cheap, p).

Definition _stackalloc (pml4 : Z) (cheap : heap) (length : Z) (s : kst P)
    : outcome (Z * heap * kst P) :=
  let pgs := length / PAGESIZE in
  let pgs := if negb (length mod PAGESIZE =? 0) then pgs + 1 else pgs in
  let perms := if isKernel cheap =? 0 then Z.lor PAGE_WRITE_BIT PAGE_USER_BIT else PAGE_WRITE_BIT in
  let pd := ps_get_pml4 (pages s) in
  '(cheap, p) ← for_up (Z.to_nat pgs) 0 (λ _ x, stack_page pd pml4 perms x) (cheap, pages s);
  let address := lastStack cheap in
  Done (address, with_lastStack (u64 (lastStack cheap - PAGESIZE)) cheap, Build_kst (mem s) p).

(** ** The kernel's heaps and their locked entry points *)
Record kernel := {
  kcpu : cpu;
  kmemory : kst P;
  kernelGlobalHeap : heap;
  kernelSleepHeap : heap;
  kernelSignalHeap : heap;
}.

Definition with_global (c : cpu) (s : kst P) (h : heap) (k : kernel) : kernel :=
  {| kcpu := c; kmemory := s; kernelGlobalHeap := h; kernelSleepHeap := kernelSleepHeap k;
     kernelSignalHeap := kernelSignalHeap k |}.
Definition with_sleep (c : cpu) (s : kst P) (h : heap) (k : kernel) : kernel :=
  {| kcpu := c; kmemory := s; kernelGlobalHeap := kernelGlobalHeap k; kernelSleepHeap := h;
     kernelSignalHeap := kernelSignalHeap k |}.
Definition with_signal (c : cpu) (s : kst P) (h : heap) (k : kernel) : kernel :=
  {| kcpu := c; kmemory := s; kernelGlobalHeap := kernelGlobalHeap k;
     kernelSleepHeap := kernelSleepHeap k; kernelSignalHeap := h |}.

(** [LOCK_HEAP(h); body; UNLOCK_HEAP(h);] *)
Definition locked_heap {A} (c : cpu) (h : heap) (s : kst P)
    (body : heap → kst P → outcome (A * heap * kst P)) : outcome (A * cpu * heap * kst P) :=
  '(c, l) ← acquire_spinlock c (heap_lock h);
  '(r, h, s) ← body (with_heap_lock l h) s;
  let '(c, l) := release_spinlock c (heap_lock h) in
  Done (r, c, with_heap_lock l h, s).

(** [LOCK_STACK(h); body; UNLOCK_STACK(h);] *)
Definition locked_stack {A} (c : cpu) (h : heap) (s : kst P)
    (body : heap → kst P → outcome (A * heap * kst P)) : outcome (A * cpu * heap * kst P) :=
  '(c, l) ← acquire_spinlock c (stack_lock h);
  '(r, h, s) ← body (with_stack_lock l h) s;
  let '(c, l) := release_spinlock c (stack_lock h) in
  Done (r, c, with_stack_lock l h, s).

Definition free_body (address : Z) (h : heap) (s : kst P) : outcome (unit * heap * kst P) :=
  '(h, m) ← _free address h (mem s); Done (tt, h, Build_kst m (pages s)).

Definition kmalloc (size : Z) (k : kernel) : outcome (Z * kernel) :=
  '(r, c, h, s) ← locked_heap (kcpu k) (kernelGlobalHeap k) (kmemory k)
    (λ h s, _malloc (ps_get_pml4 (pages s)) h size s);
  Done (r, with_global c s h k).

Definition kfree (address : Z) (k : kernel) : outcome kernel :=
  '(_, c, h, s) ← locked_heap (kcpu k) (kernelGlobalHeap k) (kmemory k) (free_body address);
  Done (with_global c s h k).

Definition kcalloc (num size : Z) (k : kernel) : outcome (Z * kernel) :=
  '(r, c, h, s) ← locked_heap (kcpu k) (kernelGlobalHeap k) (kmemory k)
    (λ h s, _calloc (ps_get_pml4 (pages s)) h num size s);
  Done (r, with_global c s h k).

Definition krealloc (buffer size : Z) (k : kernel) : outcome (Z * kernel) :=
  '(r, c, h, s) ← locked_heap (kcpu k) (kernelGlobalHeap k) (kmemory k)
    (λ h s, _realloc (ps_get_pml4 (pages s)) h buffer size s);
  Done (r, with_global c s h k).

Definition kstackalloc (length : Z) (k : kernel) : outcome (Z * kernel) :=
  '(r, c, h, s) ← locked_stack (kcpu k) (kernelGlobalHeap k) (kmemory k)
    (λ h s, _stackalloc (ps_get_pml4 (pages s)) h length s);
  Done (r, with_global c s h k).

Definition smalloc (size : Z) (k : kernel) : outcome (Z * kernel) :=
  '(r, c, h, s) ← locked_heap (kcpu k) (kernelSleepHeap k) (kmemory k)
    (λ h s, _malloc (ps_get_pml4 (pages s)) h size s);
  Done (r, with_sleep c s h k).

Definition sfree (address : Z) (k : kernel) : outcome kernel :=
  '(_, c, h, s) ← locked_heap (kcpu k) (kernelSleepHeap k) (kmemory k) (free_body address);
  Done (with_sleep c s h k).

Definition sigmalloc (size : Z) (k : kernel) : outcome (Z * kernel) :=
  '(r, c, h, s) ← locked_heap (kcpu k) (kernelSignalHeap k) (kmemory k)
    (λ h s, _malloc (ps_get_pml4 (pages s)) h size s);
  Done (r, with_signal c s h k).

Definition sigfree (address : Z) (k : kernel) : outcome kernel :=
  '(_, c, h, s) ← locked_heap (kcpu k) (kernelSignalHeap k) (kmemory k) (free_body address);
  Done (with_signal c s h k).

Definition init_heap (k : kernel) : outcome kernel :=
  let pml4 s := ps_get_pml4 (pages s) in
  '(g, s) ← _initHeap (pml4 (kmemory k)) (kernelGlobalHeap k) 0xffffffff60000000
     0xffffffff6ffff000 0xffffffff70000000 0xffffffff7ffff000 0 (kmemory k);
  '(sl, s) ← _initHeap (pml4 s) (kernelSleepHeap k) 0xffffffff80000000
     0xffffffff8ffff000 0xffffffff90000000 0xffffffff9ffff000 0 s;
  '(sg, s) ← _initHeap (pml4 s) (kernelSignalHeap k) 0xffffffffa0000000
     0xffffffffaffff000 0xffffffffb0000000 0xffffffffbffff000 0 s;
  Done {| kcpu := kcpu k; kmemory := s; kernelGlobalHeap := g; kernelSleepHeap := sl;
          kernelSignalHeap := sg |}.

(** The user side works on the heap of a task, whose directory is [task->pd]. *)
Definition create_user_heap (task_pd : Z) (cheap : heap) (s : kst P) : outcome (heap * kst P) :=
  _initHeap (TO_KERNEL_MAP task_pd) cheap 0x00007fff60000000 0x00007fff6ffff000
    0x00007fff70000000 0x00007fff7ffff000 1 s.

Definition umalloc (task_pd size : Z) (c : cpu) (h : heap) (s : kst P)
    : outcome (Z * cpu * heap * kst P) :=
  locked_heap c h s (λ h s, _malloc (TO_KERNEL_MAP task_pd) h size s).

Definition ufree (address : Z) (c : cpu) (h : heap) (s : kst P)
    : outcome (unit * cpu * heap * kst P) :=
  locked_heap c h s (free_body address).

Definition ucalloc (task_pd num size : Z) (c : cpu) (h : heap) (s : kst P)
    : outcome (Z * cpu * heap * kst P) :=
  locked_heap c h s (λ h s, _calloc (TO_KERNEL_MAP task_pd) h num size s).

Definition urealloc (task_pd buffer size : Z) (c : cpu) (h : heap) (s : kst P)
    : outcome (Z * cpu * heap * kst P) :=
  locked_heap c h s (λ h s, _realloc (TO_KERNEL_MAP task_pd) h buffer size s).

Definition ustackalloc (task_pd length : Z) (c : cpu) (h : heap) (s : kst P)
    : outcome (Z * cpu * heap * kst P) :=
  locked_stack c h s (λ h s, _stackalloc (TO_KERNEL_MAP task_pd) h length s).
End WithPages.
