(* ===== verification/HeapInv.v ===== *)
(** * The invariant of the heap, and what its operations do to the chain

    [heap_inv h m l] relates the heap record, the memory and the list [l] of
    segments from [mainSegment] down.  The lemmas give the effect of splitting,
    merging, growing and walking as operations on [l]. *)
From S2P Require Import Prelude Dll Concurrency PageAlloc PageService Heap.
#[local] Open Scope Z_scope.

(** ** Memory *)
Lemma lookup_clobber a n m b :
  clobber a n m !! b = if decide (b + HDR ≤ a ∨ a + n ≤ b ∨ n ≤ 0) then m !! b else None.
Proof.
  unfold clobber. rewrite map_lookup_filter. destruct (m !! b) as [x|]; cbn; [|by case_decide].
  repeat case_guard; repeat case_decide; naive_solver.
Qed.

Lemma lookup_forget {A} (m : gmap Z A) a n x :
  forget m a n !! x = if decide (a ≤ x < a + Z.of_nat n) then None else m !! x.
Proof.
  revert m a. induction n as [|n IH]; intros m a; cbn [forget].
  - rewrite decide_False by lia. done.
  - rewrite IH. destruct (decide (x = a)) as [->|Hne].
    + rewrite (decide_True (P := a ≤ a < _)) by lia. case_decide; [lia|]. apply lookup_delete_eq.
    + rewrite lookup_delete_ne by done. repeat case_decide; auto; lia.
Qed.

Section memory.
Implicit Types (m : kmem) (a b x : Z).

Lemma hdrs_store_eq m a v : hdrs (store_hdr a v m) !! a = Some v.
Proof. apply lookup_insert_eq. Qed.
Lemma hdrs_store_ne m a v b :
  b + HDR ≤ a ∨ a + HDR ≤ b → hdrs (store_hdr a v m) !! b = hdrs m !! b.
Proof.
  intros Hb. cbn. rewrite lookup_insert_ne by (unfold HDR in *; lia).
  rewrite lookup_clobber, decide_True; [done|tauto].
Qed.
Lemma bytes_store_ne m a v x :
  x < a ∨ a + HDR ≤ x → bytes (store_hdr a v m) !! x = bytes m !! x.
Proof.
  intros Hx. unfold store_hdr, HDR in *. cbn [bytes].
  rewrite lookup_forget, decide_False by lia. done.
Qed.

Lemma hdrs_zero_eq m a : hdrs (zero_hdr a m) !! a = Some zero_header.
Proof. apply lookup_insert_eq. Qed.
Lemma hdrs_zero_ne m a b :
  b + HDR ≤ a ∨ a + HDR ≤ b → hdrs (zero_hdr a m) !! b = hdrs m !! b.
Proof.
  intros Hb. cbn. rewrite lookup_insert_ne by (unfold HDR in *; lia).
  rewrite lookup_clobber, decide_True; [done|tauto].
Qed.
Lemma bytes_zero_ne m a x :
  x < a ∨ a + HDR ≤ x → bytes (zero_hdr a m) !! x = bytes m !! x.
Proof.
  intros Hx. unfold zero_hdr, HDR in *. cbn [bytes].
  rewrite lookup_fill, decide_False by lia. done.
Qed.

Lemma upd_hdr_at m a f v : hdrs m !! a = Some v → upd_hdr a f m = Done (store_hdr a (f v) m).
Proof. unfold upd_hdr, load_hdr. by intros ->. Qed.
Lemma load_hdr_at m a v : hdrs m !! a = Some v → load_hdr m a = Done v.
Proof. unfold load_hdr. by intros ->. Qed.
End memory.

(** Reads back headers and bytes through a sequence of stores at known distances. *)
Ltac far := unfold HDR in *; lia.
Ltac mem_read :=
  repeat first
    [ rewrite hdrs_store_eq | rewrite hdrs_zero_eq
    | rewrite hdrs_store_ne by far | rewrite hdrs_zero_ne by far
    | rewrite bytes_store_ne by far | rewrite bytes_zero_ne by far ].
Ltac mem_step :=
  first [ erewrite load_hdr_at by (mem_read; first [eassumption|reflexivity])
        | erewrite upd_hdr_at by (mem_read; first [eassumption|reflexivity]) ];
  rewrite ?bind_done; cbv beta.

(** ** The chain *)
#[global] Instance segment_link : LinkNode heap_segment_header (Z * Z) := λ d nx la,
  {| seg_free := d.1; seg_length := d.2; seg_next := nx; seg_last := la; seg_isStack := 0;
     seg_signature := HEAP_SIGNATURE |}.

Abbreviation chain := (list (Z * (Z * Z))).

(** Segments go down from [top] without overlapping, at multiples of 16. *)
Fixpoint layout (top : Z) (l : chain) : Prop :=
  match l with
  | [] => True
  | (a, (f, n)) :: l =>
      (f = 0 ∨ f = 1) ∧ 0 ≤ n ∧ a mod 16 = 0 ∧ n mod 16 = 0 ∧ 0 < a ∧
      a + HDR + n ≤ top ∧ layout a l
  end.

(** No two neighbours are free; [f] is the flag of what precedes the list. *)
Fixpoint coalesced (f : Z) (l : chain) : Prop :=
  match l with
  | [] => True
  | (_, (g, _)) :: l => ¬ (f ≠ 0 ∧ g ≠ 0) ∧ coalesced g l
  end.

Fixpoint last_flag (f : Z) (l : chain) : Z :=
  match l with [] => f | (_, (g, _)) :: l => last_flag g l end.

(** The allocated blocks: payload address and length. *)
Definition live (l : chain) : list (Z * Z) :=
  (λ x, (x.1 + HDR, x.2.2)) <$> filter (λ x, x.2.1 = 0) (tail l).

(** The space of all segments below the main one, headers included. *)
Fixpoint span (l : chain) : Z :=
  match l with [] => 0 | (_, (_, n)) :: l => n + HDR + span l end.

Definition used (b : list (Z * Z)) : Z := foldr (λ x s, x.2 + HDR + s) 0 b.

Record heap_inv (h : heap) (m : kmem) (l : chain) : Prop := {
  inv_dseg : dseg (hdrs m) 0 l 0;
  inv_layout : layout (2 ^ 64 - 1) l;
  inv_main : ∃ rest, l = (mainSegment h, (0, 0)) :: rest ∧ rest ≠ [];
  inv_last : lastSegment h = lst_addr 0 l;
  inv_end : heapEnd h = lst_addr 0 l;
  inv_page : heapEnd h mod PAGESIZE = 0;
  inv_ready : ready h ≠ 0;
  inv_coalesced : coalesced 0 l;
  inv_used : usedSize h = u64 (used (live l));
  inv_total : totalSize h = u64 (usedSize h + freeSize h);
}.

(** The contents of every block of [b] are the same in both memories. *)
Definition same_contents (b : list (Z * Z)) (m m' : kmem) : Prop :=
  ∀ a n x, (a, n) ∈ b → a ≤ x < a + n → bytes m' !! x = bytes m !! x.

(** Two blocks are apart, headers included. *)
Definition apart (b c : Z * Z) : Prop := b.1 + b.2 + HDR ≤ c.1 ∨ c.1 + c.2 + HDR ≤ b.1.

(** ** Lemmas on the chain *)
Section chain.
Implicit Types (l : chain) (a n f top : Z).

Lemma layout_app top l1 l2 :
  layout top (l1 ++ l2) ↔ layout top l1 ∧ layout (lst_addr top l1) l2.
Proof.
  revert top. induction l1 as [|[a [f n]] l1 IH]; intros top; cbn; [tauto|].
  rewrite IH. tauto.
Qed.

Lemma layout_lst top l : layout top l → lst_addr top l ≤ top.
Proof.
  revert top. induction l as [|[a [f n]] l IH]; intros top; cbn; [lia|].
  intros (? & ? & ? & ? & ? & ? & Hl). apply IH in Hl. far.
Qed.

Lemma layout_weaken top top' l : top ≤ top' → layout top l → layout top' l.
Proof. destruct l as [|[a [f n]] l]; cbn; [done|]. intros ? (?&?&?&?&?&?&?). split_and!; try done; lia. Qed.

(** Every segment lies below [top] and not below the last one. *)
Lemma layout_elem top l a f n :
  layout top l → (a, (f, n)) ∈ l →
  (f = 0 ∨ f = 1) ∧ 0 ≤ n ∧ a mod 16 = 0 ∧ n mod 16 = 0 ∧ 0 < a ∧
  a + HDR + n ≤ top ∧ lst_addr top l ≤ a.
Proof.
  revert top. induction l as [|[b [g k]] l IH]; intros top Hl Ha; [by apply elem_of_nil in Ha|].
  cbn in *. destruct Hl as (? & ? & ? & ? & ? & ? & Hl).
  apply elem_of_cons in Ha as [?|Ha]; simplify_eq.
  - apply layout_lst in Hl. split_and!; done || lia.
  - destruct (IH _ Hl Ha) as (? & ? & ? & ? & ? & ? & ?). split_and!; try done; far.
Qed.

Lemma layout_addr top l a : layout top l → a ∈ l.*1 → a + HDR ≤ top ∧ lst_addr top l ≤ a ∧ 0 < a.
Proof.
  intros Hl ([b [f n]] & -> & Hb)%list_elem_of_fmap. cbn.
  apply (layout_elem _ _ _ _ _ Hl) in Hb as (?&?&?&?&?&?&?). lia.
Qed.

Lemma layout_NoDup top l : layout top l → NoDup l.*1.
Proof.
  revert top. induction l as [|[a [f n]] l IH]; intros top; cbn; [constructor|].
  intros (? & ? & ? & ? & ? & ? & Hl). constructor; [|by eapply IH].
  intros Ha. apply (layout_addr _ _ _ Hl) in Ha. far.
Qed.

Lemma lst_addr_dep p q l : l ≠ [] → lst_addr p l = lst_addr q l.
Proof. by destruct l as [|[]]. Qed.

Lemma coalesced_app f l1 l2 :
  coalesced f (l1 ++ l2) ↔ coalesced f l1 ∧ coalesced (last_flag f l1) l2.
Proof.
  revert f. induction l1 as [|[a [g n]] l1 IH]; intros f; cbn; [tauto|]. rewrite IH. tauto.
Qed.

Lemma last_flag_app f l1 l2 : last_flag f (l1 ++ l2) = last_flag (last_flag f l1) l2.
Proof. revert f. induction l1 as [|[a [g n]] l1 IH]; intros f; cbn; auto. Qed.

Lemma span_app l1 l2 : span (l1 ++ l2) = span l1 + span l2.
Proof. induction l1 as [|[a [g n]] l1 IH]; cbn; lia. Qed.

Lemma used_app b1 b2 : used (b1 ++ b2) = used b1 + used b2.
Proof. unfold used. induction b1 as [|x b1 IH]; cbn; lia. Qed.

Lemma used_perm b1 b2 : b1 ≡ₚ b2 → used b1 = used b2.
Proof. unfold used. induction 1; cbn; lia. Qed.

Definition live' (l : chain) : list (Z * Z) :=
  (λ x, (x.1 + HDR, x.2.2)) <$> filter (λ x, x.2.1 = 0) l.

Lemma live_cons x l : live (x :: l) = live' l.
Proof. done. Qed.
Lemma live'_app l1 l2 : live' (l1 ++ l2) = live' l1 ++ live' l2.
Proof. unfold live'. by rewrite filter_app, fmap_app. Qed.
Lemma live'_used a n l : live' ((a, (0, n)) :: l) = (a + HDR, n) :: live' l.
Proof. done. Qed.
Lemma live'_free a f n l : f ≠ 0 → live' ((a, (f, n)) :: l) = live' l.
Proof. intros. unfold live'. rewrite filter_cons_False; done. Qed.

Lemma elem_of_live' l a n : (a, n) ∈ live' l ↔ (a - HDR, (0, n)) ∈ l.
Proof.
  unfold live'. rewrite list_elem_of_fmap. split.
  - intros ([b [f k]] & ? & [? Hb]%list_elem_of_filter). cbn in *. simplify_eq.
    by replace (b + HDR - HDR) with b by lia.
  - intros Ha. exists (a - HDR, (0, n)). cbn. split; [f_equal; lia|].
    by apply list_elem_of_filter.
Qed.
End chain.

(** [x] is in no header of the chain; a step that writes only headers of [l]. *)
Definition off_headers (l : chain) (x : Z) : Prop := ∀ b, b ∈ l.*1 → x < b ∨ b + HDR ≤ x.
Definition only_headers (l : chain) (m m' : kmem) : Prop :=
  ∀ x, off_headers l x → bytes m' !! x = bytes m !! x.

Lemma layout_around top l1 a f n l2 :
  layout top (l1 ++ (a, (f, n)) :: l2) →
  (∀ b, b ∈ l1.*1 → a + HDR + n ≤ b) ∧ (∀ b, b ∈ l2.*1 → b + HDR ≤ a ∧ 0 < b).
Proof.
  rewrite layout_app. cbn. intros (Hl1 & ? & ? & ? & ? & ? & ? & Hl2). split; intros b Hb.
  - apply (layout_addr _ _ _ Hl1) in Hb. lia.
  - apply (layout_addr _ _ _ Hl2) in Hb. far.
Qed.

(** The payload of a segment is off every header of the chain. *)
Lemma payload_off_headers top l c f k x :
  layout top l → (c, (f, k)) ∈ l → c + HDR ≤ x < c + HDR + k → off_headers l x.
Proof.
  intros Hl (l1 & l2 & ->)%list_elem_of_split Hx b Hb.
  destruct (layout_around _ _ _ _ _ _ Hl) as [H1 H2].
  rewrite fmap_app in Hb. apply elem_of_app in Hb as [Hb|Hb].
  - apply H1 in Hb. lia.
  - cbn in Hb. apply elem_of_cons in Hb as [->|Hb]; [lia|]. apply H2 in Hb. far.
Qed.

Lemma only_headers_same top l b m m' :
  layout top l → only_headers l m m' → (∀ x, x ∈ b → x ∈ live' l) → same_contents b m m'.
Proof.
  intros Hl Hm Hb a n x Ha%Hb%elem_of_live' Hx. apply Hm.
  eapply payload_off_headers; [done..|]. lia.
Qed.

(** ** Splitting *)
Ltac seg_cbn :=
  cbn [seg_free seg_length seg_next seg_last seg_isStack seg_signature set_free set_length
       set_next set_last set_isStack set_signature zero_header link_mk segment_link fst snd
       GetHeapSegmentHeader].

(** Closes the goals left by an operation: the cells of the new chain are read back
    through the stores, and the untouched parts are framed. *)
Ltac addr_of_list :=
  match goal with
  | Hu : (∀ b, b ∈ ?l.*1 → _), Hc : ?c ∈ ?l.*1 |- _ => apply Hu in Hc
  end.
Ltac read_cells :=
  rewrite dseg_app; cbn [dseg hd_addr]; split_and!; try done; try lia;
  try (mem_read; reflexivity);
  (let y := fresh "y" in let Hy := fresh "Hy" in
   eapply dseg_frame; [|eassumption]; intros y Hy; repeat addr_of_list; mem_read; done).
Ltac read_bytes :=
  let x := fresh "x" in let Hx := fresh "Hx" in
  intros x Hx;
  repeat first [ rewrite bytes_store_ne by (apply Hx; rewrite ?fmap_app; set_solver)
               | rewrite bytes_zero_ne by (apply Hx; rewrite ?fmap_app; set_solver) ];
  done.

Lemma split_chain h m l1 b e a n l2 size :
  let l := l1 ++ (b, e) :: (a, (1, n)) :: l2 in
  let new := a + n - size in
  let l' := l1 ++ (b, e) :: (new, (1, size)) :: (a, (1, n - (size + HDR))) :: l2 in
  dseg (hdrs m) 0 l 0 → layout (2 ^ 64 - 1) l → 0 ≤ size → size mod 16 = 0 → size + HDR < n →
  ∃ m', splitSegment h a size m =
          Done (new, if hd_addr l2 0 =? 0 then with_lastSegment a h else h, m') ∧
        dseg (hdrs m') 0 l' 0 ∧ layout (2 ^ 64 - 1) l' ∧ only_headers l' m m'.
Proof.
  intros l new l' Hd Hl Hs Hs16 Hn. subst l l'.
  assert (Hl' := Hl). rewrite layout_app in Hl'. destruct e as [fe ne]. cbn in Hl'.
  destruct Hl' as (_ & ? & ? & ? & ? & ? & Hbt & ? & ? & Ha16 & ? & ? & ? & Hl2).
  destruct (layout_around _ _ _ _ _ _ Hl) as [Hup _].
  rewrite cons_middle, app_assoc in Hl.
  destruct (layout_around _ _ _ _ _ _ Hl) as [_ Hdn].
  assert (lst_addr (2 ^ 64 - 1) l1 ≤ 2 ^ 64 - 1)
    by (apply layout_lst; rewrite <- app_assoc in Hl; by apply layout_app in Hl as [? _]).
  rewrite dseg_app in Hd. cbn in Hd. destruct Hd as (Hd1 & Hb0 & Hb & Ha0 & Ha & Hd2).
  unfold splitSegment, new in *. clear new.
  mem_step. seg_cbn. unfold HDR in *. unwrap.
  rewrite (proj2 (Z.leb_gt _ _)), Z.eqb_refl by lia. cbn [negb].
  do 4 (mem_step; seg_cbn).
  rewrite (proj2 (Z.eqb_neq b 0)) by lia. cbn [negb].
  do 3 (mem_step; seg_cbn). unwrap.
  eexists. split; [reflexivity|]. split; [read_cells|]. split; [|read_bytes].
  rewrite <- app_assoc, layout_app in Hl. rewrite layout_app. cbn. unfold HDR.
  split_and!; try tauto; try dlia; auto.
Qed.


(** ** Merging: a segment is absorbed by the one below it *)
Section merge.
Context (m : kmem) (l1 : chain) (b : Z) (e : Z * Z) (a f n c g k : Z) (l2 : chain).
Let l := l1 ++ (b, e) :: (a, (f, n)) :: (c, (g, k)) :: l2.
Let l' := l1 ++ (b, e) :: (c, (g, k + (n + HDR))) :: l2.
Hypothesis Hd : dseg (hdrs m) 0 l 0.
Hypothesis Hl : layout (2 ^ 64 - 1) l.

(** The distances between the cells that a merge touches. *)
Lemma merge_facts :
  (∀ x, x ∈ l1.*1 → b + HDR ≤ x) ∧ (∀ x, x ∈ l2.*1 → x + HDR ≤ c ∧ 0 < x) ∧
  a + HDR + n ≤ b ∧ c + HDR + k ≤ a ∧ 0 < c ∧ 0 ≤ k ∧ 0 ≤ n ∧ b + HDR < 2 ^ 64.
Proof.
  clear Hd. unfold l in Hl. destruct e as [fe ne].
  destruct (layout_around _ _ _ _ _ _ Hl) as [Hup _].
  rewrite layout_app in Hl. cbn in Hl. destruct Hl as (Hl1 & ? & ? & ? & ? & ? & ? & ? & ? & ? & ? & ? & ? & ? & ? & ? & ? & ? & ? & Hl2).
  apply layout_lst in Hl1. split_and!; try lia; try far.
  - intros x Hx%Hup. lia.
  - intros x Hx%(layout_addr _ _ _ Hl2). lia.
Qed.

Lemma merge_layout : layout (2 ^ 64 - 1) l'.
Proof.
  clear Hd. unfold l, l' in *. destruct e as [fe ne]. rewrite layout_app in *. cbn in *.
  destruct Hl as (Hl1 & ? & ? & ? & ? & ? & ? & ? & ? & ? & ? & ? & ? & ? & ? & ? & ? & ? & ? & Hl2).
  unfold HDR in *. split_and!; try done; dlia.
Qed.

Lemma merge_this_to_next :
  ∃ m', MergeThisToNext a m = Done m' ∧ dseg (hdrs m') 0 l' 0 ∧ only_headers l m m' ∧
        hdrs m' !! a = Some zero_header.
Proof.
  destruct merge_facts as (Hup & Hdn & ? & ? & ? & ? & ? & ?).
  unfold l, l' in *. rewrite dseg_app in Hd. cbn in Hd.
  destruct Hd as (Hd1 & Hb0 & Hb & Ha0 & Ha & Hc0 & Hc & Hd2).
  unfold MergeThisToNext. mem_step. seg_cbn. unfold HDR in *. unwrap.
  do 3 (mem_step; seg_cbn). unwrap. eexists. split; [reflexivity|].
  split; [read_cells|]. split; [read_bytes|]. by mem_read.
Qed.

Lemma merge_last_to_this :
  ∃ m', MergeLastToThis c m = Done m' ∧ dseg (hdrs m') 0 l' 0 ∧ only_headers l m m' ∧
        hdrs m' !! a = Some zero_header.
Proof.
  destruct merge_facts as (Hup & Hdn & ? & ? & ? & ? & ? & ?).
  unfold l, l' in *. rewrite dseg_app in Hd. cbn in Hd.
  destruct Hd as (Hd1 & Hb0 & Hb & Ha0 & Ha & Hc0 & Hc & Hd2).
  unfold MergeLastToThis. do 2 (mem_step; seg_cbn). unfold HDR in *. unwrap.
  do 4 (mem_step; seg_cbn). unwrap. eexists. split; [reflexivity|].
  split; [read_cells|]. split; [read_bytes|]. by mem_read.
Qed.
End merge.

(** ** Changing the flag of a segment *)
Lemma set_free_chain m l1 a f n l2 v :
  let l := l1 ++ (a, (f, n)) :: l2 in
  let l' := l1 ++ (a, (v, n)) :: l2 in
  dseg (hdrs m) 0 l 0 → layout (2 ^ 64 - 1) l → v = 0 ∨ v = 1 →
  ∃ m', upd_hdr a (set_free v) m = Done m' ∧ dseg (hdrs m') 0 l' 0 ∧
        layout (2 ^ 64 - 1) l' ∧ only_headers l m m'.
Proof.
  intros l l' Hd Hl Hv. subst l l'. destruct (layout_around _ _ _ _ _ _ Hl) as [Hup Hdn].
  rewrite dseg_app in Hd. cbn in Hd. destruct Hd as (Hd1 & Ha0 & Ha & Hd2).
  rewrite layout_app in Hl. cbn in Hl.
  erewrite upd_hdr_at by done. eexists. split; [reflexivity|]. split; [read_cells|].
  split; [rewrite layout_app; cbn; tauto|read_bytes].
Qed.

(** ** The bookkeeping of a step that moves a block between used and free *)
Lemma live'_main h m l : heap_inv h m l → live' l = (mainSegment h + HDR, 0) :: live l.
Proof. intros Hi. destruct (inv_main _ _ _ Hi) as (rest & -> & _). done. Qed.

Lemma heap_inv_free h m l m' l' a n :
  heap_inv h m l → dseg (hdrs m') 0 l' 0 → layout (2 ^ 64 - 1) l' →
  (∃ rest, l' = (mainSegment h, (0, 0)) :: rest ∧ rest ≠ []) →
  lst_addr 0 l' = lst_addr 0 l → coalesced 0 l' → live' l ≡ₚ (a, n) :: live' l' →
  heap_inv (account_free n h) m' l' ∧ live l ≡ₚ (a, n) :: live l'.
Proof.
  intros Hi Hd Hl Hm Hlst Hc Hp.
  assert (live l ≡ₚ (a, n) :: live l') as Hp'.
  { rewrite (live'_main _ _ _ Hi) in Hp. destruct Hm as (rest & -> & _).
    rewrite live'_used, Permutation_swap in Hp. by apply Permutation_cons_inv in Hp. }
  split; [|done]. destruct Hi.
  constructor; cbn; try done; try congruence.
  - rewrite inv_used0, (used_perm _ _ Hp'). cbn [used foldr snd].
    autorewrite with wrap64. unfold used. f_equal. lia.
  - rewrite inv_total0. unfold u64, wrap. dlia.
Qed.

Lemma heap_inv_used h m l m' l' a n :
  heap_inv h m l → dseg (hdrs m') 0 l' 0 → layout (2 ^ 64 - 1) l' →
  (∃ rest, l' = (mainSegment h, (0, 0)) :: rest ∧ rest ≠ []) →
  lst_addr 0 l' = lst_addr 0 l → coalesced 0 l' → live' l' ≡ₚ (a, n) :: live' l →
  heap_inv (account_used n h) m' l' ∧ live l' ≡ₚ (a, n) :: live l.
Proof.
  intros Hi Hd Hl Hm Hlst Hc Hp.
  assert (live l' ≡ₚ (a, n) :: live l) as Hp'.
  { rewrite (live'_main _ _ _ Hi) in Hp. destruct Hm as (rest & -> & _).
    rewrite live'_used, Permutation_swap in Hp. by apply Permutation_cons_inv in Hp. }
  split; [|done]. destruct Hi.
  constructor; cbn; try done; try congruence.
  - rewrite inv_used0, (used_perm _ _ Hp'). cbn [used foldr snd].
    autorewrite with wrap64. unfold used. f_equal. lia.
  - rewrite inv_total0. unfold u64, wrap. dlia.
Qed.

(** ** free *)

(** What is left at the header of a block that has been freed. *)
Definition retired (m : kmem) (a : Z) : Prop :=
  ∃ x, hdrs m !! a = Some x ∧ (seg_signature x ≠ HEAP_SIGNATURE ∨ seg_free x ≠ 0).

Lemma retired_zero m a : hdrs m !! a = Some zero_header → retired m a.
Proof. intros H. exists zero_header. split; [done|by left]. Qed.

Lemma retired_free m l1 a n l2 p q :
  dseg (hdrs m) p (l1 ++ (a, (1, n)) :: l2) q → retired m a.
Proof. intros [_ H]%dseg_lookup. eexists. split; [exact H|by right]. Qed.

Lemma only_headers_trans l l' m1 m2 m3 :
  (∀ x, off_headers l x → off_headers l' x) →
  only_headers l m1 m2 → only_headers l' m2 m3 → only_headers l m1 m3.
Proof. intros Hx H1 H2 x H. rewrite H2, H1; auto. Qed.

Lemma off_headers_mono l l' x :
  (∀ b, b ∈ l'.*1 → b ∈ l.*1) → off_headers l x → off_headers l' x.
Proof. intros H Hx b Hb. auto. Qed.

(** The four outcomes of a release, on the chain; [b] and [c] are the neighbours. *)
Inductive released : chain → Z → Z → chain → Prop :=
| rel_alone l1 a n l2 :
    last_flag 0 l1 = 0 → match l2 with [] => True | (_, (g, _)) :: _ => g = 0 end →
    released (l1 ++ (a, (0, n)) :: l2) a n (l1 ++ (a, (1, n)) :: l2)
| rel_last l1 b nb a n l2 :
    match l2 with [] => True | (_, (g, _)) :: _ => g = 0 end →
    released (l1 ++ (b, (1, nb)) :: (a, (0, n)) :: l2) a n
             (l1 ++ (a, (1, n + (nb + HDR))) :: l2)
| rel_next l1 a n c k l2 :
    last_flag 0 l1 = 0 →
    released (l1 ++ (a, (0, n)) :: (c, (1, k)) :: l2) a n
             (l1 ++ (c, (1, k + (n + HDR))) :: l2)
| rel_both l1 b nb a n c k l2 :
    released (l1 ++ (b, (1, nb)) :: (a, (0, n)) :: (c, (1, k)) :: l2) a n
             (l1 ++ (c, (1, k + (n + (nb + HDR) + HDR))) :: l2).

Lemma released_live l a n l' : released l a n l' → live' l ≡ₚ (a + HDR, n) :: live' l'.
Proof.
  destruct 1; rewrite !live'_app, ?live'_used, ?live'_free by done;
    rewrite ?live'_used, ?live'_free by done; by rewrite <- Permutation_middle.
Qed.

Lemma released_span l a n l' : released l a n l' → span l' = span l.
Proof. destruct 1; rewrite !span_app; cbn; lia. Qed.

Lemma released_lst l a n l' p : released l a n l' → lst_addr p l' = lst_addr p l.
Proof. by destruct 1; rewrite !lst_addr_app. Qed.

Lemma released_coalesced l a n l' : released l a n l' → coalesced 0 l → coalesced 0 l'.
Proof.
  destruct 1; rewrite !coalesced_app; cbn; try (destruct l2 as [|[? [? ?]]]; cbn); intuition lia.
Qed.

Lemma released_main h l a n l' :
  released l a n l' → a ≠ mainSegment h →
  (∃ rest, l = (mainSegment h, (0, 0)) :: rest ∧ rest ≠ []) →
  (∃ rest, l' = (mainSegment h, (0, 0)) :: rest ∧ rest ≠ []).
Proof.
  destruct 1; intros Ha (rest & Hr & _); destruct l1 as [|x l0]; simplify_list_eq;
    (eexists; split; [reflexivity|by destruct l0]).
Qed.

(** Both merges, in the form [_free] uses them: [l0] is what precedes. *)
Lemma merge_either m l0 a f n c g k l2 :
  let l := l0 ++ (a, (f, n)) :: (c, (g, k)) :: l2 in
  let l' := l0 ++ (c, (g, k + (n + HDR))) :: l2 in
  dseg (hdrs m) 0 l 0 → layout (2 ^ 64 - 1) l → l0 ≠ [] →
  layout (2 ^ 64 - 1) l' ∧
  (∃ m', MergeThisToNext a m = Done m' ∧ dseg (hdrs m') 0 l' 0 ∧ only_headers l m m' ∧
         retired m' a) ∧
  (∃ m', MergeLastToThis c m = Done m' ∧ dseg (hdrs m') 0 l' 0 ∧ only_headers l m m').
Proof.
  intros l l' Hd Hl Hl0. subst l l'.
  destruct l0 as [|[b e] l1 _] using rev_ind; [done|].
  rewrite <- !app_assoc in *. cbn [app] in *. split; [by eapply merge_layout|]. split.
  - edestruct merge_this_to_next as (m' & ? & ? & ? & ?); [done..|].
    exists m'. split_and!; try done. by apply retired_zero.
  - edestruct merge_last_to_this as (m' & ? & ? & ? & ?); [done..|]. by exists m'.
Qed.

(** [o] leaves the chain in which the block [a] of [l] is released. *)
Definition frees_to (l : chain) (a n : Z) (m : kmem) (o : outcome kmem) : Prop :=
  ∃ m' l', o = Done m' ∧ released l a n l' ∧ dseg (hdrs m') 0 l' 0 ∧
           layout (2 ^ 64 - 1) l' ∧ only_headers l m m' ∧ retired m' a.

Lemma only_headers_addr l l' m m' : l.*1 = l'.*1 → only_headers l m m' → only_headers l' m m'.
Proof. intros E H x Hx. apply H. intros b Hb. apply Hx. by rewrite <- E. Qed.

(** The four ways [_free] ends; in [m] the block [a] is already marked free. *)
Section endings.
Context (m : kmem) (l1 : chain) (a n : Z) (l2 : chain).
Let l := l1 ++ (a, (0, n)) :: l2.
Hypothesis Hd : dseg (hdrs m) 0 (l1 ++ (a, (1, n)) :: l2) 0.
Hypothesis Hl : layout (2 ^ 64 - 1) (l1 ++ (a, (1, n)) :: l2).

Lemma end_alone :
  last_flag 0 l1 = 0 → match l2 with [] => True | (_, (g, _)) :: _ => g = 0 end →
  frees_to l a n m (Done m).
Proof.
  intros H1 H2. eexists _, _. split_and!; [done|by apply rel_alone|done|done|done|].
  by eapply retired_free.
Qed.

Lemma end_next c k l3 :
  l2 = (c, (1, k)) :: l3 → l1 ≠ [] → last_flag 0 l1 = 0 → frees_to l a n m (MergeThisToNext a m).
Proof.
  unfold l. intros -> Hl1 Hf.
  destruct (merge_either _ _ _ _ _ _ _ _ _ Hd Hl Hl1) as (Hly & (m' & Hm & Hd' & Ho & Hr) & _).
  eexists _, _. split_and!; [done|by apply rel_next|done|done| |done].
  eapply only_headers_addr, Ho. by rewrite !fmap_app.
Qed.

Lemma end_last l0 b nb :
  l1 = l0 ++ [(b, (1, nb))] → l0 ≠ [] → match l2 with [] => True | (_, (g, _)) :: _ => g = 0 end →
  frees_to l a n m (MergeLastToThis a m).
Proof.
  unfold l. intros -> Hl0 Hg. rewrite <- !app_assoc in *. cbn [app] in *.
  destruct (merge_either _ _ _ _ _ _ _ _ _ Hd Hl Hl0) as (Hly & _ & m' & Hm & Hd' & Ho).
  eexists _, _. split_and!; [done|by apply rel_last|done|done| |by eapply retired_free].
  eapply only_headers_addr, Ho. by rewrite !fmap_app.
Qed.

Lemma end_both l0 b nb c k l3 :
  l1 = l0 ++ [(b, (1, nb))] → l0 ≠ [] → l2 = (c, (1, k)) :: l3 →
  frees_to l a n m (MergeLastAndThisToNext a m).
Proof.
  unfold l. intros -> Hl0 ->. rewrite <- !app_assoc in *. cbn [app] in *.
  destruct (merge_either _ _ _ _ _ _ _ _ _ Hd Hl Hl0) as (Hly & _ & m' & Hm & Hd' & Ho).
  destruct (merge_either _ _ _ _ _ _ _ _ _ Hd' Hly Hl0) as (Hly2 & (m2 & Hm2 & Hd2 & Ho2 & Hr) & _).
  unfold MergeLastAndThisToNext. rewrite Hm, bind_done.
  eexists _, _. split_and!; [done|by apply rel_both|done|done| |done].
  eapply only_headers_trans; [|eapply only_headers_addr, Ho; by rewrite !fmap_app|exact Ho2].
  intros x. apply off_headers_mono. rewrite !fmap_app. set_solver.
Qed.
End endings.

Definition next_is_free (l2 : chain) : bool :=
  match l2 with [] => false | (_, (g, _)) :: _ => negb (g =? 0) end.

Lemma free_choice m l0 b fb nb a n l2 :
  let l1 := l0 ++ [(b, (fb, nb))] in
  dseg (hdrs m) 0 (l1 ++ (a, (1, n)) :: l2) 0 →
  layout (2 ^ 64 - 1) (l1 ++ (a, (1, n)) :: l2) → (fb ≠ 0 → l0 ≠ []) →
  frees_to (l1 ++ (a, (0, n)) :: l2) a n m
   (if next_is_free l2 then
      if negb (fb =? 0) then MergeLastAndThisToNext a m else MergeThisToNext a m
    else if negb (fb =? 0) then MergeLastToThis a m else Done m).
Proof.
  intros l1 Hd Hl Hl0. assert (l1 ≠ []) by (subst l1; by destruct l0).
  assert (fb = 0 ∨ fb = 1) as Hfb by (by apply (layout_elem _ _ b fb nb Hl); set_solver).
  assert (last_flag 0 l1 = fb) as Hlf by (subst l1; by rewrite last_flag_app).
  destruct l2 as [|[c [g k]] l3]; cbn [next_is_free].
  - destruct Hfb as [-> | ->]; cbn [Z.eqb negb]; [by apply end_alone|by eapply end_last; eauto].
  - assert (g = 0 ∨ g = 1) as Hg by (by apply (layout_elem _ _ c g k Hl); set_solver).
    destruct Hfb as [-> | ->], Hg as [-> | ->]; cbn [Z.eqb negb].
    + by apply end_alone.
    + by eapply end_next.
    + by eapply end_last; eauto.
    + by eapply end_both; eauto.
Qed.

Lemma free_chain h m l1 a n l2 :
  let l := l1 ++ (a, (0, n)) :: l2 in
  heap_inv h m l → l1 ≠ [] →
  ∃ m' l', _free (a + HDR) h m = Done (account_free n h, m') ∧ released l a n l' ∧
    dseg (hdrs m') 0 l' 0 ∧ layout (2 ^ 64 - 1) l' ∧ only_headers l m m' ∧ retired m' a.
Proof.
  intros l Hi Hl1. destruct Hi as [Hd Hl Hmain _ _ _ Hr _ _ _]. subst l.
  destruct (set_free_chain m l1 a 0 n l2 1 Hd Hl (or_intror eq_refl)) as (m1 & Hm1 & Hd1 & Hly1 & Ho1).
  destruct (dseg_lookup _ _ _ _ _ _ _ Hd) as [Ha0 Ha].
  destruct (dseg_lookup _ _ _ _ _ _ _ Hd1) as [_ Ha1].
  assert (a < 2 ^ 64 ∧ 0 < a).
  { apply (layout_elem _ _ a 0 n) in Hl; [far|set_solver]. }
  unfold _free.
  rewrite (proj2 (Z.eqb_neq _ _) Hr), (proj2 (Z.eqb_neq (a + HDR) 0)) by far.
  replace (a + HDR - HDR) with a by lia. unwrap.
  rewrite (load_hdr_at _ _ _ Ha), bind_done. seg_cbn. rewrite !Z.eqb_refl. cbn [negb].
  rewrite Hm1, bind_done, (load_hdr_at _ _ _ Ha1), bind_done. seg_cbn.
  destruct l1 as [|[b [fb nb]] l0 _] using rev_ind; [done|].
  assert (fb ≠ 0 → l0 ≠ []) as Hl0.
  { intros Hfb ->. destruct Hmain as (rest & Hmain & _). simplify_list_eq. }
  destruct (free_choice _ _ _ _ _ _ _ _ Hd1 Hly1 Hl0) as (m' & l' & Hm' & ? & ? & ? & ? & ?).
  exists m', l'. split; [|split_and!; try done; by eapply only_headers_trans; [|exact Ho1|]].
  rewrite lst_addr_snoc. rewrite <- app_assoc in Hd1. cbn [app] in Hd1.
  destruct (dseg_lookup _ _ _ _ _ _ _ Hd1) as [Hb0 Hb].
  rewrite (proj2 (Z.eqb_neq b 0)), (load_hdr_at _ _ _ Hb), bind_done by done. seg_cbn.
  destruct l2 as [|[c [g k]] l3]; cbn [hd_addr next_is_free] in *.
  - rewrite ?bind_done; by destruct (fb =? 0); simplify_eq/=; rewrite ?Hm'.
  - rewrite cons_middle, app_assoc, cons_middle, app_assoc in Hd1.
    destruct (dseg_lookup _ _ _ _ _ _ _ Hd1) as [Hc0 Hc].
    rewrite (proj2 (Z.eqb_neq c 0)), (load_hdr_at _ _ _ Hc), bind_done by done. seg_cbn.
    cbn [negb andb]. rewrite ?bind_done. cbv beta. seg_cbn.
    by destruct (g =? 0), (fb =? 0); simplify_eq/=; rewrite ?Hm'.
Qed.

(** ** malloc: the walk *)

(** The segments the walk of [_malloc] takes: free, and long enough to be split or
    exactly as long as asked. *)
Definition fits (size : Z) (x : Z * (Z * Z)) : bool :=
  negb (x.2.1 =? 0) && ((x.2.2 >? size + HDR) || (x.2.2 =? size)).

Lemma step_skip h m size a f n nx la :
  hdrs m !! a = Some (link_mk (f, n) nx la) → 0 ≤ size → size + HDR < 2 ^ 64 →
  fits size (a, (f, n)) = false → nx ≠ a →
  malloc_step h m size a = Done (if nx =? 0 then inr NoFit else inl nx).
Proof.
  intros Ha Hs Hs' Hf Hne. unfold malloc_step. rewrite (load_hdr_at _ _ _ Ha), bind_done. seg_cbn.
  rewrite Z.eqb_refl. cbn [negb]. rewrite (u64_small (size + HDR)) by far.
  unfold fits in Hf. cbn in Hf. rewrite (proj2 (Z.eqb_neq nx a) Hne).
  destruct (f =? 0), (n >? size + HDR), (n =? size); cbn in *; try done; by destruct (nx =? 0).
Qed.

Lemma walk_skip h m size fuel top p l1 x l2 :
  dseg (hdrs m) p (l1 ++ x :: l2) 0 → layout top (l1 ++ x :: l2) →
  0 ≤ size → size + HDR < 2 ^ 64 → Forall (λ y, fits size y = false) l1 →
  loop (List.length l1 + fuel) (malloc_step h m size) (hd_addr (l1 ++ x :: l2) 0)
  = loop fuel (malloc_step h m size) x.1.
Proof.
  intros Hd Hl Hs Hs' Hf. revert p top Hd Hl. induction l1 as [|[a [f n]] l1 IH]; intros p top Hd Hl.
  - by destruct x.
  - apply Forall_cons in Hf as [Hfa Hf]. cbn [app dseg layout hd_addr List.length loop Nat.add] in *.
    destruct Hd as (Ha0 & Ha & Hd), Hl as (? & ? & ? & ? & ? & ? & Hl).
    assert (0 < hd_addr (l1 ++ x :: l2) 0 < a).
    { destruct l1 as [|[b [g k]] l1]; destruct x as [y [fy ny]]; cbn in *; far. }
    rewrite (step_skip _ _ _ _ _ _ _ _ Ha), bind_done by (done || lia).
    rewrite (proj2 (Z.eqb_neq _ _)) by lia. by eapply IH.
Qed.

Lemma walk_none h m size top p l :
  dseg (hdrs m) p l 0 → layout top l → l ≠ [] →
  0 ≤ size → size + HDR < 2 ^ 64 → Forall (λ y, fits size y = false) l →
  loop (List.length l) (malloc_step h m size) (hd_addr l 0) = Done NoFit.
Proof.
  intros Hd Hl Hne Hs Hs' Hf. destruct l as [|[a [f n]] l _] using rev_ind; [done|].
  apply Forall_app in Hf as [Hf [Hx _]%Forall_cons].
  rewrite length_app. cbn [List.length].
  rewrite (walk_skip _ _ _ _ _ _ _ _ _ Hd Hl) by done.
  apply dseg_app in Hd as [_ (Ha0 & Ha & _)]. cbn [hd_addr] in Ha. cbn [loop fst].
  by rewrite (step_skip _ _ _ _ _ _ _ _ Ha) by (done || congruence).
Qed.

Lemma with_lastSegment_id h a : lastSegment h = a → with_lastSegment a h = h.
Proof. intros <-. by destruct h. Qed.

(** What the walk leaves when it takes a block: only headers are written, and the
    chain has one more live block. *)
Definition takes (h : heap) (m : kmem) (l : chain) (size : Z) (w : walk_result) : Prop :=
  ∃ r h' m' l', w = Took r h' m' ∧ heap_inv h' m' l' ∧ live l' ≡ₚ (r, size) :: live l ∧
    span l' = span l ∧ only_headers l' m m'.

Section take.
Context (h : heap) (m : kmem) (l1 : chain) (a n : Z) (l2 : chain) (size : Z).
Let l := l1 ++ (a, (1, n)) :: l2.
Hypothesis Hi : heap_inv h m l.
Hypothesis Hs : 0 ≤ size.
Hypothesis Hs16 : size mod 16 = 0.

(** The segment before one that is free. *)
Lemma take_above : ∃ l0 b e, l1 = l0 ++ [(b, e)].
Proof.
  destruct (inv_main _ _ _ Hi) as (rest & Hr & _). unfold l in Hr.
  destruct l1 as [|[b e] l0 _] using rev_ind; simplify_list_eq. by eexists _, _, _.
Qed.

Lemma take_main f k l3 :
  ∃ rest, l1 ++ (a, (f, k)) :: l3 = (mainSegment h, (0, 0)) :: rest ∧ rest ≠ [].
Proof.
  destruct (inv_main _ _ _ Hi) as (rest & Hr & _). unfold l in Hr.
  destruct l1 as [|x l0]; simplify_list_eq. eexists. split; [reflexivity|]. by destruct l0.
Qed.

Lemma take_exact :
  n = size → size + HDR < 2 ^ 64 →
  ∃ w, malloc_step h m size a = Done (inr w) ∧ takes h m l size w.
Proof.
  intros Hn Hb. destruct (dseg_lookup _ _ _ _ _ _ _ (inv_dseg _ _ _ Hi)) as [Ha0 Ha].
  destruct (set_free_chain _ _ _ _ _ _ 0 (inv_dseg _ _ _ Hi) (inv_layout _ _ _ Hi)) as
    (m' & Hm' & Hd' & Hl' & Ho); [by left|].
  destruct (dseg_lookup _ _ _ _ _ _ _ Hd') as [_ Ha'].
  destruct (heap_inv_used h m l m' _ (a + HDR) n Hi Hd' Hl') as [Hi' Hlive];
    [by eapply take_main|unfold l; by rewrite !lst_addr_app| | |].
  - generalize (inv_coalesced _ _ _ Hi). unfold l. rewrite !coalesced_app. cbn.
    destruct l2 as [|[? [? ?]]]; cbn; intuition.
  - unfold l. rewrite !live'_app, live'_used, live'_free by done. by rewrite <- Permutation_middle.
  - subst n. eexists. split; [|eexists _, _, _, _; split; [reflexivity|]; split; [exact Hi'|]].
    + unfold malloc_step. rewrite (load_hdr_at _ _ _ Ha), bind_done. seg_cbn.
      rewrite !Z.eqb_refl. cbn [negb Z.eqb]. rewrite (u64_small (size + HDR)) by far.
      rewrite gtb_false, Hm', bind_done by far.
      rewrite (load_hdr_at _ _ _ Ha'), bind_done. seg_cbn.
      rewrite (u64_small (a + HDR)); [done|]. apply (layout_elem _ _ a 0 size) in Hl'; [far|set_solver].
    + split_and!; [done|unfold l; by rewrite !span_app|].
      eapply only_headers_addr, Ho. by rewrite !fmap_app.
Qed.

Let rest := n - (size + HDR).

Lemma take_split_segment :
  size + HDR < n →
  let l' := l1 ++ (a + n - size, (1, size)) :: (a, (1, rest)) :: l2 in
  ∃ m', splitSegment h a size m = Done (a + n - size, h, m') ∧
        dseg (hdrs m') 0 l' 0 ∧ layout (2 ^ 64 - 1) l' ∧ only_headers l' m m'.
Proof.
  intros Hn. destruct Hi as [Hd Hl Hm Hlast _ _ _ _ _ _]. unfold l in *.
  destruct take_above as (l0 & b & e & El1). rewrite El1 in Hd, Hl.
  rewrite <- app_assoc in Hd, Hl. cbn [app] in Hd, Hl.
  destruct (split_chain h m l0 b e a n l2 size) as (m1 & Hm1 & Hd1 & Hl1 & Ho1); [done..|].
  rewrite El1. rewrite <- app_assoc. cbn [app]. exists m1. split; [|done]. rewrite Hm1.
  destruct (Z.eqb_spec (hd_addr l2 0) 0) as [H0|H0]; [|done].
  rewrite with_lastSegment_id; [done|]. rewrite Hlast, lst_addr_app. cbn.
  destruct l2 as [|[c [g k]] l3]; [done|]. cbn in H0. subst c.
  destruct e. rewrite layout_app in Hl. cbn in Hl. intuition lia.
Qed.

Lemma take_split :
  size + HDR < n → ∃ w, malloc_step h m size a = Done (inr w) ∧ takes h m l size w.
Proof.
  intros Hn. destruct (dseg_lookup _ _ _ _ _ _ _ (inv_dseg _ _ _ Hi)) as [Ha0 Ha].
  assert (Hla := layout_elem _ _ a 1 n (inv_layout _ _ _ Hi) ltac:(unfold l; set_solver)).
  destruct (take_split_segment Hn) as (m1 & Hm1 & Hd1 & Hl1 & Ho1).
  destruct (set_free_chain _ _ _ _ _ _ 0 Hd1 Hl1) as (m2 & Hm2 & Hd2 & Hl2 & Ho2); [by left|].
  destruct (dseg_lookup _ _ _ _ _ _ _ Hd2) as [_ Hx].
  destruct (heap_inv_used h m l m2 _ (a + n - size + HDR) size Hi Hd2 Hl2) as [Hi' Hlive];
    [ |unfold l; by rewrite !lst_addr_app| | |].
  - destruct (take_main 1 n l2) as (r & Hr & _). destruct l1 as [|y l0]; simplify_list_eq.
    eexists. split; [done|]. by destruct l0.
  - generalize (inv_coalesced _ _ _ Hi). unfold l. rewrite !coalesced_app. cbn.
    destruct l2 as [|[? [? ?]]]; cbn; intuition.
  - unfold l. rewrite !live'_app, live'_used, !live'_free by done. by rewrite <- Permutation_middle.
  - eexists. split; [|eexists _, _, _, _; split; [reflexivity|]; split; [exact Hi'|]].
    + unfold malloc_step. rewrite (load_hdr_at _ _ _ Ha), bind_done. seg_cbn.
      rewrite !Z.eqb_refl. cbn [negb Z.eqb]. rewrite (u64_small (size + HDR)) by far.
      rewrite gtb_true, Hm1, bind_done, Hm2, bind_done by far.
      rewrite (load_hdr_at _ _ _ Hx), bind_done. seg_cbn.
      by rewrite (u64_small (a + n - size + HDR)) by far.
    + split_and!; [done|unfold l; rewrite !span_app; cbn; lia|].
      eapply only_headers_trans; [|eapply only_headers_addr, Ho1|eapply only_headers_addr, Ho2];
        [done|by rewrite !fmap_app..].
Qed.
End take.

Lemma first_fit size l :
  Exists (λ x, fits size x = true) l →
  ∃ l1 x l2, l = l1 ++ x :: l2 ∧ Forall (λ y, fits size y = false) l1 ∧ fits size x = true.
Proof.
  induction l as [|y l IH]; [by intros ?%Exists_nil|].
  destruct (fits size y) eqn:Hy; [by exists [], y, l|].
  intros [?|(l1 & x & l2 & -> & ? & ?)%IH]%Exists_cons; [congruence|].
  exists (y :: l1), x, l2. split_and!; [done|by constructor|done].
Qed.

Section walk.
Context (h : heap) (m : kmem) (l : chain) (size : Z).
Hypothesis Hi : heap_inv h m l.
Hypothesis Hs : 0 ≤ size.
Hypothesis Hs16 : size mod 16 = 0.
Hypothesis Hs64 : size + HDR < 2 ^ 64.

Lemma walk_start : mainSegment h = hd_addr l 0 ∧ (List.length l ≤ walk_fuel m)%nat ∧ l ≠ [].
Proof.
  destruct (inv_main _ _ _ Hi) as (rest & E & _). split_and!; [by rewrite E| |by rewrite E].
  unfold walk_fuel. apply le_S. eapply dseg_size; [|apply (inv_dseg _ _ _ Hi)].
  eapply layout_NoDup, Hi.
Qed.

(** The walk takes the first segment that fits. *)
Lemma walk_takes :
  Exists (λ x, fits size x = true) l →
  ∃ w, loop (walk_fuel m) (malloc_step h m size) (mainSegment h) = Done w ∧ takes h m l size w.
Proof.
  intros (l1 & [a [f n]] & l2 & E & Hno & Hx)%first_fit.
  destruct walk_start as (-> & Hlen & _).
  assert (Hf := layout_elem _ _ a f n (inv_layout _ _ _ Hi) ltac:(rewrite E; set_solver)).
  assert (∃ w, malloc_step h m size a = Done (inr w) ∧ takes h m l size w) as (w & Hw & Ht).
  { rewrite E in *. unfold fits in Hx. cbn in Hx.
    apply andb_prop in Hx as [Hfn Hor]. destruct Hf as ([-> | ->] & _); [done|].
    destruct (Z.gtb_spec n (size + HDR)); [by apply take_split|].
    apply take_exact; try done. cbn in Hor. by apply Z.eqb_eq in Hor. }
  exists w. split; [|done]. eapply (loop_fuel_mono (List.length l1 + 1)).
  - rewrite E. erewrite walk_skip; [| |rewrite <- E; apply Hi|done..].
    + cbn [loop fst]. by rewrite Hw.
    + rewrite <- E. apply Hi.
  - rewrite E, length_app in Hlen. cbn in Hlen. lia.
Qed.

Lemma walk_no_fit :
  Forall (λ x, fits size x = false) l →
  loop (walk_fuel m) (malloc_step h m size) (mainSegment h) = Done NoFit.
Proof.
  intros Hno. destruct walk_start as (-> & Hlen & Hne).
  eapply loop_fuel_mono; [|exact Hlen]. by eapply walk_none; try apply Hi.
Qed.
End walk.
