(* ===== verification/HeapGrow.v ===== *)
(** * Growing the heap, and the termination of [_malloc]

    The page loop of [expand_heap], its effect on the chain, and the argument that
    at most two expansions lead to a segment that fits. *)
From S2P Require Import Prelude Dll Concurrency PageAlloc PageService Heap HeapInv.
#[local] Open Scope Z_scope.

(** The bytes [expand_heap] adds for a request of [size] bytes. *)
Definition page_up (size : Z) : Z := (size + HDR + PAGESIZE - 1) / PAGESIZE * PAGESIZE.

Lemma page_up_bounds size :
  0 ≤ size → size + HDR ≤ page_up size < size + HDR + PAGESIZE ∧
  page_up size mod PAGESIZE = 0 ∧ PAGESIZE ≤ page_up size.
Proof. unfold page_up, HDR, PAGESIZE. intros. dlia. Qed.

(** The rounding of [expand_heap] is [page_up]. *)
Lemma expand_length size :
  0 ≤ size → size + HDR + PAGESIZE < 2 ^ 64 →
  (if negb (u64 (size + HDR) mod PAGESIZE =? 0)
   then u64 (u64 (u64 (size + HDR) - u64 (size + HDR) mod PAGESIZE) + PAGESIZE)
   else u64 (size + HDR)) = page_up size.
Proof.
  intros H0 H1. unfold page_up, HDR, PAGESIZE in *. rewrite (u64_small (size + 48)) by lia.
  destruct (Z.eqb_spec ((size + 48) mod 4096) 0); cbn [negb]; [dlia|].
  rewrite (u64_small (size + 48 - _)) by dlia. rewrite u64_small by dlia. dlia.
Qed.

(** The chain after [L] more bytes: the last segment is replaced by a longer one if
    it is free, and followed by a new one otherwise. *)
Inductive grown (L : Z) : chain → chain → Prop :=
| grown_last l a n : grown L (l ++ [(a, (1, n))]) (l ++ [(a - L, (1, n + L - HDR))])
| grown_new l a n : grown L (l ++ [(a, (0, n))]) (l ++ [(a, (0, n)); (a - L, (1, L - HDR))]).

Lemma grown_exists L top l :
  l ≠ [] → layout top l → ∃ l', grown L l l'.
Proof.
  intros Hne Hl. destruct l as [|[a [f n]] l _] using rev_ind; [done|].
  apply layout_app in Hl as [_ (Hf & _)].
  destruct Hf as [-> | ->]; eexists; [apply grown_new|apply grown_last].
Qed.

(** The bookkeeping of [expand_heap] once the chain is relinked. *)
Lemma heap_inv_grown h m l l' m' he L :
  heap_inv h m l → grown L l l' → he = lst_addr 0 l - L → he mod PAGESIZE = 0 →
  dseg (hdrs m') 0 l' 0 → layout (2 ^ 64 - 1) l' →
  heap_inv (with_sizes (u64 (totalSize h + u64 (L + HDR))) (usedSize h)
              (u64 (freeSize h + u64 (L + HDR)))
              (with_lastSegment he (with_heapEnd he h))) m' l' ∧ live l' = live l.
Proof.
  intros Hi Hg -> Hp Hd Hl.
  assert (live' l' = live' l) as Hlive.
  { destruct Hg; rewrite !live'_app, ?live'_used, ?live'_free by done; done. }
  assert (∃ rest, l' = (mainSegment h, (0, 0)) :: rest ∧ rest ≠ []) as Hm.
  { destruct (inv_main _ _ _ Hi) as (rest & Hr & Hne).
    destruct Hg as [l1|l1]; destruct l1 as [|x l1]; simplify_list_eq;
      eexists; (split; [reflexivity|]); by destruct l1. }
  assert (live l' = live l) as Hlive'.
  { rewrite (live'_main _ _ _ Hi) in Hlive. destruct Hm as (rest & -> & _).
    rewrite live'_used in Hlive. by injection Hlive. }
  split; [|done]. destruct Hi as [? ? ? ? ? ? ? ? ? Htot]. constructor; cbn; try done.
  - destruct Hg; by rewrite !lst_addr_app.
  - destruct Hg; by rewrite !lst_addr_app.
  - destruct Hg; rewrite !coalesced_app in *; cbn in *; intuition.
  - congruence.
  - rewrite Htot. unfold u64, wrap. dlia.
Qed.

Section grow.
Context {P : Type} `{PageServiceOk P} (pml4 : Z).

Definition lowered (h : heap) (k : Z) (s : heap * P) : Prop :=
  0 ≤ k ∧ s.1 = with_heapEnd (heapEnd h - k * PAGESIZE) h ∧
  0 < heapEnd h - k * PAGESIZE ∧ ps_ok [pml4] s.2.

Lemma expand_page_lowered pd perms h k s :
  heapEnd h mod PAGESIZE = 0 → heapEnd h < 2 ^ 64 → lowered h k s →
  returns_or_panics (expand_page pd pml4 perms s) ∧
  ∀ s', expand_page pd pml4 perms s = Done s' → lowered h (k + 1) s'.
Proof.
  destruct s as [h' p]. intros Hpg He (Hk & Hh & Hpos & Hp). cbn in Hh, Hp. subst h'.
  unfold expand_page. cbn [heapEnd with_heapEnd].
  assert (PAGESIZE ≤ heapEnd h - k * PAGESIZE) by (unfold PAGESIZE in *; dlia).
  replace (heapEnd h - k * PAGESIZE - PAGESIZE) with (heapEnd h - (k + 1) * PAGESIZE) by lia.
  rewrite (u64_small (heapEnd h - (k + 1) * PAGESIZE)) by (unfold PAGESIZE in *; lia).
  apply (rop_bind (λ x, ps_ok [pml4] x.2));
    [by eapply ps_request_page_ok|by intros [a s] ?; eapply ps_request_page_ok|].
  intros [np p1] Hp1.
  apply (rop_bind (ps_ok [pml4])); [by eapply ps_map_current_memory_ok|by intros ?; eapply ps_map_current_memory_ok|].
  intros p2 Hp2. apply (rop_bind (ps_ok [pml4])).
  - case_match; [by eapply ps_map_memory_ok; [|left]|apply rop_done].
  - case_match; [by intros ?; eapply ps_map_memory_ok; [|left]|by intros ? [= <-]].
  - intros p3 Hp3. cbn [heapEnd].
    destruct (Z.eqb_spec (heapEnd h - (k + 1) * PAGESIZE) 0); [by split; [apply rop_panic|]|].
    split; [apply rop_done|]. intros s' [= <-]. split_and!; try done; unfold PAGESIZE in *; lia.
Qed.

(** The page loop lowers [heapEnd] page by page and never reaches 0. *)
Lemma expand_page_loop pd perms h p k :
  ps_ok [pml4] p → heapEnd h mod PAGESIZE = 0 → 0 < heapEnd h < 2 ^ 64 →
  let o := for_up k 0 (λ _ x, expand_page pd pml4 perms x) (h, p) in
  returns_or_panics o ∧ ∀ s, o = Done s → lowered h (Z.of_nat k) s.
Proof.
  intros Hp Hpg He o. apply (rop_for_up (lowered h)).
  - intros i x Hx. apply expand_page_lowered; [done|lia|done].
  - split_and!; [done| |lia|done]. rewrite Z.mul_0_l, Z.sub_0_r. by destruct h.
Qed.

End grow.

(** The segment part of [expand_heap], on the heap lowered by [L]. *)
Lemma relink_chain h m l l' L :
  let he := lst_addr 0 l - L in
  heap_inv h m l → grown L l l' → 0 < he → he mod 16 = 0 → HDR ≤ L → L mod 16 = 0 →
  ∃ m', relink_last (with_heapEnd he h) L m
          = Done (with_lastSegment he (with_heapEnd he h), m') ∧
        dseg (hdrs m') 0 l' 0 ∧ layout (2 ^ 64 - 1) l' ∧ only_headers l' m m'.
Proof.
  intros he Hi Hg Hpos H16 HL HL16. unfold he in *. clear he.
  destruct Hi as [Hd Hl Hm Hlast _ _ _ _ _ _]. unfold relink_last.
  cbn [lastSegment heapEnd with_heapEnd]. rewrite Hlast.
  destruct Hg as [l a n|l a n]; rewrite lst_addr_snoc in *.
  - destruct l as [|[b [fe ne]] l0 _] using rev_ind.
    { destruct Hm as (rest & Hm & _). simplify_list_eq. }
    rewrite <- app_assoc in *. cbn [app] in *.
    destruct (layout_around _ _ _ _ _ _ Hl) as [Hup _].
    assert (Hla := layout_elem _ _ a 1 n Hl ltac:(set_solver)).
    apply dseg_app in Hd as (Hd1 & Hb0 & Hb & Ha0 & Ha & _). cbn in Hb, Ha.
    apply layout_app in Hl as (Hl1 & Hl). cbn in Hl.
    rewrite (proj2 (Z.eqb_neq a 0)) by lia. cbn [negb].
    repeat (mem_step; seg_cbn; rewrite ?(proj2 (Z.eqb_neq b 0)) by lia; cbn [negb andb Z.eqb]).
    unfold HDR in *. unwrap.
    eexists. split; [reflexivity|]. split; [read_cells|]. split; [|read_bytes].
    rewrite layout_app. cbn. unfold HDR. split_and!; try (tauto || lia || dlia).
  - destruct (layout_around _ _ _ _ _ _ Hl) as [Hup _].
    assert (Hla := layout_elem _ _ a 0 n Hl ltac:(set_solver)).
    apply dseg_app in Hd as (Hd1 & Ha0 & Ha & _). cbn in Ha.
    apply layout_app in Hl as (Hl1 & Hl). cbn in Hl.
    rewrite (proj2 (Z.eqb_neq a 0)) by lia. cbn [negb].
    repeat (mem_step; seg_cbn; cbn [negb andb Z.eqb]).
    unfold HDR in *. unwrap.
    eexists. split; [reflexivity|]. split; [read_cells|]. split; [|read_bytes].
    rewrite layout_app. cbn. unfold HDR. split_and!; try (tauto || lia || dlia).
Qed.

Lemma inv_addr_range h m l : heap_inv h m l → 0 < lst_addr 0 l < 2 ^ 64.
Proof.
  intros Hi. destruct (inv_main _ _ _ Hi) as (rest & -> & _).
  assert (Hl := inv_layout _ _ _ Hi).
  assert (lst_addr 0 ((mainSegment h, (0, 0)) :: rest) ∈ ((mainSegment h, (0, 0)) :: rest).*1) as Hin
    by (by apply lst_addr_elem).
  apply (layout_addr _ _ _ Hl) in Hin. far.
Qed.

Section malloc.
Context {P : Type} `{PageServiceOk P} (pml4 : Z).
Implicit Types (s : kst P) (l : chain).

(** [expand_heap] returns or panics, and grows the chain by [page_up size]. *)
Lemma expand_chain h size s l :
  heap_inv h (mem s) l → ps_ok [pml4] (pages s) → 0 ≤ size → size + HDR + PAGESIZE < 2 ^ 64 →
  returns_or_panics (expand_heap pml4 h size s) ∧
  ∀ r, expand_heap pml4 h size s = Done r →
    ps_ok [pml4] (pages r.2) ∧ ∃ l', grown (page_up size) l l' ∧ heap_inv r.1 (mem r.2) l' ∧
      live l' = live l ∧ only_headers l' (mem s) (mem r.2).
Proof.
  intros Hi Hp Hs0 Hs1. destruct (page_up_bounds size Hs0) as (Hb & Hm & Hpg).
  assert (Hbase := inv_end _ _ _ Hi). assert (Hmod := inv_page _ _ _ Hi).
  assert (0 < lst_addr 0 l < 2 ^ 64).
  { apply (inv_addr_range _ _ _ Hi). }
  unfold expand_heap. rewrite expand_length by done. cbv zeta.
  rewrite Hm. cbn [negb Z.eqb].
  eapply (rop_bind (lowered pml4 h (page_up size / PAGESIZE))).
  - apply expand_page_loop; [done|done|lia].
  - intros a Ha. eapply expand_page_loop in Ha; [|done|done|lia].
    rewrite Z2Nat.id in Ha by (unfold PAGESIZE in *; dlia). done.
  - intros [h1 p1] (_ & Hh1 & Hpos & Hp1). cbn in Hh1, Hp1. subst h1.
    replace (heapEnd h - _) with (lst_addr 0 l - page_up size) in * by (unfold PAGESIZE in *; dlia).
    destruct (inv_main _ _ _ Hi) as (rest & Hrest & _).
    destruct (grown_exists (page_up size) (2 ^ 64 - 1) l) as [l' Hg];
      [by rewrite Hrest|apply Hi|].
    destruct (relink_chain h (mem s) l l' (page_up size)) as (m' & Hm' & Hd' & Hl' & Ho);
      [done..|unfold PAGESIZE, HDR in *; dlia|lia|unfold PAGESIZE in *; dlia|].
    destruct (heap_inv_grown h (mem s) l l' m' _ (page_up size) Hi Hg eq_refl) as [Hi' Hlive];
      [unfold PAGESIZE in *; dlia|done..|].
    rewrite Hm', bind_done. split; [apply rop_done|]. intros b [= <-]. split; [done|].
    by exists l'.
Qed.

(** After two growths the last segment fits. *)
Lemma two_growths size l l1 l2 top :
  0 ≤ size → layout top l → grown (page_up size) l l1 → grown (page_up size) l1 l2 →
  Exists (λ x, fits size x = true) l2.
Proof.
  intros Hs Hl Hg1 Hg2. destruct (page_up_bounds size Hs) as (Hb & _ & Hpg).
  assert (∃ l0 a n, l1 = l0 ++ [(a, (1, n))] ∧ size ≤ n) as (l0 & a & n & -> & Hn).
  { destruct Hg1 as [l0 a n|l0 a n].
    - eexists _, _, _. split; [done|]. apply layout_app in Hl as [_ (_ & ? & _)]. lia.
    - eexists (l0 ++ [_]), _, _. rewrite <- app_assoc. split; [done|]. lia. }
  inversion Hg2 as [l3 b k E|l3 b k E]; apply app_inj_tail in E as [-> E]; simplify_eq.
  apply Exists_app. right. apply Exists_cons. left. unfold fits. cbn.
  unfold PAGESIZE, HDR in *. by rewrite gtb_true by lia.
Qed.

(** What [_malloc] promises: a panic, or one more live block of [size] bytes that
    leaves the contents of the others alone. *)
Definition malloc_done (s : kst P) (l : chain) (size : Z) (x : Z * heap * kst P) : Prop :=
  let '(r, h', s') := x in
  ∃ l', heap_inv h' (mem s') l' ∧ live l' ≡ₚ (r, size) :: live l ∧
        same_contents (live l) (mem s) (mem s') ∧ ps_ok [pml4] (pages s').

Definition malloc_post (s : kst P) (l : chain) (size : Z) (o : outcome (Z * heap * kst P)) : Prop :=
  returns_or_panics o ∧ ∀ x, o = Done x → malloc_done s l size x.

Lemma same_contents_trans b m1 m2 m3 :
  same_contents b m1 m2 → same_contents b m2 m3 → same_contents b m1 m3.
Proof. intros H1 H2 a n x Ha Hx. by rewrite (H2 a n), (H1 a n). Qed.

Lemma live_in_live' h m l l' b :
  heap_inv h m l' → live l' ≡ₚ b ++ live l → ∀ x, x ∈ live l → x ∈ live' l'.
Proof.
  intros Hi Hp x Hx. rewrite (live'_main _ _ _ Hi), Hp. set_solver.
Qed.

(** A request that some segment satisfies is served without growing the heap. *)
Lemma malloc_rec_fits d h size s l :
  heap_inv h (mem s) l → ps_ok [pml4] (pages s) → 0 < size → size mod 16 = 0 → size + HDR < 2 ^ 64 →
  Exists (λ x, fits size x = true) l →
  ∃ r h' m', malloc_rec (S d) pml4 h size s = Done (r, h', Build_kst m' (pages s)) ∧
    malloc_done s l size (r, h', Build_kst m' (pages s)).
Proof.
  intros Hi Hp Hs H16 H64 Hf. cbn [malloc_rec].
  rewrite (proj2 (Z.eqb_neq _ _) (inv_ready _ _ _ Hi)), (proj2 (Z.eqb_neq size 0)) by lia.
  assert (round16 size = size) as -> by (unfold round16; by rewrite H16).
  destruct (walk_takes h (mem s) l size) as (w & Hw & r & h' & m' & l' & -> & Hi' & Hlive & _ & Ho);
    [done|lia|done..|].
  rewrite Hw, bind_done. exists r, h', m'. split; [done|]. exists l'. split_and!; try done.
  eapply only_headers_same; [apply Hi'|done|]. by eapply (live_in_live' _ _ _ _ [_]).
Qed.

(** One level of [_malloc]: it serves the request, or grows the heap and retries. *)
Lemma malloc_rec_step d h size s l :
  heap_inv h (mem s) l → ps_ok [pml4] (pages s) → 0 < size → size mod 16 = 0 →
  size + HDR + PAGESIZE < 2 ^ 64 →
  (∀ h' s' l', grown (page_up size) l l' → heap_inv h' (mem s') l' → ps_ok [pml4] (pages s') →
     malloc_post s' l' size (malloc_rec d pml4 h' size s')) →
  malloc_post s l size (malloc_rec (S d) pml4 h size s).
Proof.
  intros Hi Hp Hs H16 H64 IH. assert (size + HDR < 2 ^ 64) by (unfold PAGESIZE in *; lia).
  destruct (Exists_dec (λ x, fits size x = true) l) as [Hf|Hf].
  { destruct (malloc_rec_fits d h size s l) as (r & h' & m' & -> & Hd); [done..|].
    split; [apply rop_done|]. by intros x [= <-]. }
  apply not_Exists_Forall in Hf; [|apply _].
  cbn [malloc_rec].
  rewrite (proj2 (Z.eqb_neq _ _) (inv_ready _ _ _ Hi)), (proj2 (Z.eqb_neq size 0)) by lia.
  assert (round16 size = size) as -> by (unfold round16; by rewrite H16).
  rewrite (walk_no_fit h (mem s) l size), bind_done; [|done|lia|done|].
  2: { eapply Forall_impl; [exact Hf|]. intros x. cbn. by destruct (fits size x). }
  destruct (expand_chain h size s l) as [Hret Hpost]; [done|done|lia|done|].
  apply (rop_bind (λ r, expand_heap pml4 h size s = Done r)); [done|done|].
  intros [h1 s1] He. apply Hpost in He as (Hp1 & l1 & Hg & Hi1 & Hlive & Ho). cbn [fst snd] in *.
  destruct (IH h1 s1 l1 Hg Hi1 Hp1) as [Hr Hx]. split; [done|].
  intros [[r h2] s2] E. destruct (Hx _ E) as (l2 & Hi2 & Hl2 & Hsc & Hp2).
  rewrite Hlive in *. exists l2. split_and!; try done.
  eapply same_contents_trans; [|exact Hsc]. eapply only_headers_same; [apply Hi1|done|].
  eapply (live_in_live' _ _ _ _ []); [exact Hi1|]. by rewrite Hlive.
Qed.

(** Two expansions are enough. *)
Lemma malloc_rec_ok h size s l :
  heap_inv h (mem s) l → ps_ok [pml4] (pages s) → 0 < size → size mod 16 = 0 →
  size + HDR + PAGESIZE < 2 ^ 64 → malloc_post s l size (malloc_rec 3 pml4 h size s).
Proof.
  intros Hi Hp Hs H16 H64. apply malloc_rec_step; try done.
  intros h1 s1 l1 Hg1 Hi1 Hp1. apply malloc_rec_step; try done.
  intros h2 s2 l2 Hg2 Hi2 Hp2.
  destruct (malloc_rec_fits 0 h2 size s2 l2) as (r & h' & m' & -> & Hd); try done.
  - unfold PAGESIZE in *; lia.
  - eapply two_growths; [|apply (inv_layout _ _ _ Hi)|done..]. lia.
  - split; [apply rop_done|]. by intros x [= <-].
Qed.
End malloc.
