(* ===== verification/HeapSpec.v ===== *)
(** * What the allocators promise

    The theorems on [_malloc], [_free], [_calloc], [_realloc], [_stackalloc] and
    [init_heap], for any page service that keeps [PageServiceOk]. *)
From S2P Require Import Prelude Dll Concurrency PageAlloc PageService Heap HeapInv HeapGrow.
From stdpp Require Import strings.
#[local] Open Scope Z_scope.

(** ** Disjointness of the live blocks *)
Lemma apart_sym b c : apart b c → apart c b.
Proof. unfold apart. tauto. Qed.

Lemma pairwise_perm b b' : b ≡ₚ b' → ForallOrdPairs apart b → ForallOrdPairs apart b'.
Proof.
  induction 1 as [|x b b' Hp IH|x y b|b1 b2 b3 _ IH1 _ IH2]; intros Hf; auto.
  - inversion Hf as [|? ? Hx Hb]; subst. constructor; [by rewrite <- Hp|auto].
  - inversion Hf as [|? ? Hx Hb]; subst. inversion Hb as [|? ? Hy Hb']; subst.
    inversion Hx as [|? ? Hxy Hx']; subst.
    constructor; [constructor; [by apply apart_sym|done]|by constructor].
Qed.

Lemma layout_pairwise top l : layout top l → ForallOrdPairs apart (live' l).
Proof.
  revert top. induction l as [|[a [f n]] l IH]; intros top Hl; [constructor|].
  cbn in Hl. destruct Hl as (Hf & ? & ? & ? & ? & ? & Hl). destruct Hf as [-> | ->].
  - rewrite live'_used. constructor; [|by eapply IH]. apply Forall_forall.
    intros [c k] Hc%elem_of_live'. apply (layout_elem _ _ _ _ _ Hl) in Hc. right. cbn. lia.
  - rewrite live'_free by done. by eapply IH.
Qed.

Lemma live_pairwise h m l : heap_inv h m l → ForallOrdPairs apart (live l).
Proof.
  intros Hi. assert (Hf := layout_pairwise _ _ (inv_layout _ _ _ Hi)).
  rewrite (live'_main _ _ _ Hi) in Hf. by inversion Hf.
Qed.

(** The rounding of the request. *)
Lemma round16_spec size :
  0 < size → size + 16 < 2 ^ 64 →
  round16 size mod 16 = 0 ∧ size ≤ round16 size < size + 16.
Proof.
  intros H0 H1. unfold round16. destruct (Z.gtb_spec (size mod 16) 0) as [H|H].
  - rewrite (u64_small (size - _)) by dlia. rewrite u64_small by dlia. dlia.
  - dlia.
Qed.

Lemma round16_aligned size : size mod 16 = 0 → round16 size = size.
Proof. intros H. unfold round16. by rewrite H. Qed.

(** The effect of releasing a live block. *)
Lemma free_ok h m l a n :
  heap_inv h m l → (a, n) ∈ live l →
  ∃ m' l', _free a h m = Done (account_free n h, m') ∧ heap_inv (account_free n h) m' l' ∧
    live l ≡ₚ (a, n) :: live l' ∧ span l' = span l ∧ same_contents (live l) m m' ∧
    retired m' (a - HDR).
Proof.
  intros Hi Ha. destruct (inv_main _ _ _ Hi) as (rest & El & Hne).
  assert ((a - HDR, (0, n)) ∈ rest) as (l1 & l2 & Er)%list_elem_of_split
    by (apply elem_of_live'; by rewrite El in Ha).
  assert (l = ((mainSegment h, (0, 0)) :: l1) ++ (a - HDR, (0, n)) :: l2) as El'
    by (by rewrite El, Er).
  destruct (free_chain h m ((mainSegment h, (0, 0)) :: l1) (a - HDR) n l2) as
    (m' & l' & Hf & Hrel & Hd & Hl & Ho & Hret); [by rewrite <- El'|done|].
  rewrite <- El' in *. replace (a - HDR + HDR) with a in * by lia.
  destruct (heap_inv_free h m l m' l' a n) as [Hi' Hlive]; try done.
  - eapply released_main; [done| |by exists rest]. intros E.
    assert (Hnd := layout_NoDup _ _ (inv_layout _ _ _ Hi)). rewrite El' in Hnd. cbn in Hnd.
    apply NoDup_cons in Hnd as [Hnd _]. apply Hnd. rewrite fmap_app, <- E. set_solver.
  - by eapply released_lst.
  - eapply released_coalesced; [done|apply Hi].
  - rewrite (released_live _ _ _ _ Hrel). by replace (a - HDR + HDR) with a by lia.
  - exists m', l'. split_and!; try done; [by eapply released_span|].
    eapply only_headers_same; [apply Hi|done|]. by eapply (live_in_live' _ _ _ _ []).
Qed.

(** C13: [_free] is correct. Releasing a live block of a well-formed heap returns, the
    heap is again well formed (in particular fully coalesced) without that block, no
    space is lost, and no live block's contents change. *)
Theorem free_correct h m l a n :
  heap_inv h m l → (a, n) ∈ live l →
  ∃ h' m' l', _free a h m = Done (h', m') ∧ heap_inv h' m' l' ∧
    live l ≡ₚ (a, n) :: live l' ∧ span l' = span l ∧ same_contents (live l) m m' ∧
    totalSize h' = totalSize h.
Proof.
  intros Hi Ha. destruct (free_ok h m l a n Hi Ha) as (m' & l' & ? & ? & ? & ? & ? & _).
  by exists (account_free n h), m', l'.
Qed.

(** C35: freeing a block twice always panics: right after a live block has been
    released, releasing the same address again is caught by the signature or by the
    free flag, whichever merge took place. *)
Theorem double_free_panics h m l a n h' m' :
  heap_inv h m l → (a, n) ∈ live l → _free a h m = Done (h', m') →
  ∃ why, _free a h' m' = Panic why.
Proof.
  intros Hi Ha Hf. destruct (free_ok h m l a n Hi Ha) as (m1 & l' & Hf' & Hi' & _ & _ & _ & x & Hx & Hb).
  rewrite Hf in Hf'. simplify_eq.
  assert (0 < a - HDR ∧ a - HDR < 2 ^ 64).
  { assert ((a - HDR, (0, n)) ∈ l) as Hin.
    { apply elem_of_live'. rewrite (live'_main _ _ _ Hi). set_solver. }
    apply (layout_elem _ _ _ _ _ (inv_layout _ _ _ Hi)) in Hin. unfold HDR in *; lia. }
  unfold _free. rewrite (proj2 (Z.eqb_neq _ _) (inv_ready _ _ _ Hi')).
  rewrite (proj2 (Z.eqb_neq a 0)) by (unfold HDR in *; lia). unwrap.
  rewrite (load_hdr_at _ _ _ Hx), bind_done.
  destruct (Z.eqb_spec (seg_signature x) HEAP_SIGNATURE); [|by eexists].
  destruct (Z.eqb_spec (seg_free x) 0); [tauto|by eexists].
Qed.

(** ** Writing into a live block *)
Lemma live_elem h m l a n :
  heap_inv h m l → (a, n) ∈ live l →
  (a - HDR, (0, n)) ∈ l ∧ 0 < a - HDR ∧ 0 ≤ n ∧ a + n < 2 ^ 64 ∧ n mod 16 = 0.
Proof.
  intros Hi Ha. assert ((a - HDR, (0, n)) ∈ l) as Hin.
  { apply elem_of_live'. rewrite (live'_main _ _ _ Hi). set_solver. }
  split; [done|]. apply (layout_elem _ _ _ _ _ (inv_layout _ _ _ Hi)) in Hin. lia.
Qed.

Lemma heap_inv_payload h m l a n k bs :
  heap_inv h m l → (a, n) ∈ live l → k ≤ n →
  heap_inv h {| hdrs := clobber a k (hdrs m); bytes := bs |} l.
Proof.
  intros Hi Ha Hk. destruct (live_elem _ _ _ _ _ Hi Ha) as ((l1 & l2 & El)%list_elem_of_split & ? & ? & _).
  assert (Hl := inv_layout _ _ _ Hi). rewrite El in Hl.
  destruct (layout_around _ _ _ _ _ _ Hl) as [Hup Hdn].
  destruct Hi. constructor; try done. eapply dseg_frame; [|done]. intros b Hb. cbn.
  rewrite lookup_clobber, decide_True; [done|]. rewrite El, fmap_app in Hb. cbn in Hb.
  apply elem_of_app in Hb as [Hb%Hup|[->|Hb%Hdn]%elem_of_cons]; unfold HDR in *; lia.
Qed.

Lemma lookup_copy m d s n x :
  d + Z.of_nat n ≤ s ∨ s + Z.of_nat n ≤ d →
  copy_bytes m d s n !! x = if decide (d ≤ x < d + Z.of_nat n) then m !! (s + (x - d)) else m !! x.
Proof.
  revert m d s. induction n as [|n IH]; intros m d s Hsep; cbn [copy_bytes].
  - rewrite decide_False by lia. done.
  - rewrite IH by lia. set (m1 := match m !! s with Some v => <[d:=v]> m | None => delete d m end).
    assert (m1 !! d = m !! s) as Hd.
    { unfold m1. destruct (m !! s) eqn:E; [by rewrite lookup_insert_eq|apply lookup_delete_eq]. }
    assert (∀ y, y ≠ d → m1 !! y = m !! y) as Hne.
    { intros y Hy. unfold m1. destruct (m !! s); [by rewrite lookup_insert_ne|by rewrite lookup_delete_ne]. }
    repeat case_decide; try lia; try (rewrite Hne by lia; f_equal; lia).
    replace x with d by lia. rewrite Hd. f_equal. lia.
Qed.

(** Two different live blocks do not share a byte. *)
Lemma live_disjoint h m l a n b k x :
  heap_inv h m l → live l ≡ₚ (a, n) :: b → (k ∈ b) → k.1 ≤ x < k.1 + k.2 → ¬ (a ≤ x < a + n).
Proof.
  intros Hi Hp Hk Hx Hx'. assert (Hpw := live_pairwise _ _ _ Hi).
  apply (pairwise_perm _ _ Hp) in Hpw. inversion Hpw as [|? ? Hf _]; subst.
  rewrite Forall_forall in Hf. specialize (Hf _ Hk). unfold apart, HDR in Hf. cbn in Hf. lia.
Qed.

Section spec.
Context {P : Type} `{PageServiceOk P}.
Implicit Types (s : kst P).

Lemma malloc_rec_round d pml4 h size s :
  0 < size → size + 16 < 2 ^ 64 →
  malloc_rec d pml4 h size s = malloc_rec d pml4 h (round16 size) s.
Proof.
  intros H0' H1'. destruct (round16_spec size H0' H1') as (H16 & Hb & _).
  destruct d as [|d]; [done|]. cbn [malloc_rec].
  rewrite (round16_aligned (round16 size)) by done.
  by rewrite (proj2 (Z.eqb_neq size 0)), (proj2 (Z.eqb_neq (round16 size) 0)) by lia.
Qed.

(** The result of [_malloc], as its theorems and those of its callers use it. *)
Lemma malloc_ok pml4 h size s l :
  heap_inv h (mem s) l → ps_ok [pml4] (pages s) → 0 < size → size + HDR + PAGESIZE + 16 < 2 ^ 64 →
  malloc_post pml4 s l (round16 size) (_malloc pml4 h size s).
Proof.
  intros Hi Hp Hs H64. destruct (round16_spec size) as (H16 & Hb & Hb');
    [done|unfold HDR, PAGESIZE in *; lia|].
  unfold _malloc. rewrite malloc_rec_round; [|done|unfold HDR, PAGESIZE in *; lia].
  by apply malloc_rec_ok; try lia.
Qed.

(** C12: [_malloc] is correct. On a well-formed heap a request of [size] bytes returns
    or panics (it never faults, spins or recurses for ever), and when it returns the
    block is 16-byte aligned, has at least [size] bytes, is apart from every block
    that was live, the heap is again well formed with exactly this block added, and
    the contents of the other blocks are unchanged. *)
Theorem malloc_correct pml4 h size s l :
  heap_inv h (mem s) l → ps_ok [pml4] (pages s) → 0 < size → size + HDR + PAGESIZE + 16 < 2 ^ 64 →
  returns_or_panics (_malloc pml4 h size s) ∧
  ∀ r h' s', _malloc pml4 h size s = Done (r, h', s') →
    r mod 16 = 0 ∧ size ≤ round16 size < size + 16 ∧
    Forall (apart (r, round16 size)) (live l) ∧ same_contents (live l) (mem s) (mem s') ∧
    ps_ok [pml4] (pages s') ∧
    ∃ l', heap_inv h' (mem s') l' ∧ live l' ≡ₚ (r, round16 size) :: live l.
Proof.
  intros Hi Hp Hs H64. destruct (malloc_ok pml4 h size s l) as [Hret Hpost]; [done..|].
  split; [done|]. intros r h' s' E. destruct (Hpost _ E) as (l' & Hi' & Hl' & Hsc & Hp').
  assert (size + 16 < 2 ^ 64) as Hb by (unfold HDR, PAGESIZE in *; lia).
  destruct (round16_spec size Hs Hb) as (_ & Hr).
  assert ((r, round16 size) ∈ live' l') as Hin by (rewrite (live'_main _ _ _ Hi'), Hl'; set_solver).
  apply elem_of_live', (layout_elem _ _ _ _ _ (inv_layout _ _ _ Hi')) in Hin.
  assert (Hpw := live_pairwise _ _ _ Hi').
  apply (pairwise_perm _ _ Hl') in Hpw. inversion Hpw; subst.
  split_and!; try done; try lia; [unfold HDR in *; dlia|by exists l'].
Qed.

(** a request that some free segment can serve is served without growing: if a
    free segment is longer than the rounded size plus a header, or exactly as long,
    [_malloc] returns, and the page service is not called. *)
Theorem malloc_served pml4 h size s l :
  heap_inv h (mem s) l → ps_ok [pml4] (pages s) → 0 < size → size + HDR + 16 < 2 ^ 64 →
  Exists (λ x, fits (round16 size) x = true) l →
  ∃ r h' m', _malloc pml4 h size s = Done (r, h', Build_kst m' (pages s)) ∧
    malloc_done pml4 s l (round16 size) (r, h', Build_kst m' (pages s)).
Proof.
  intros Hi Hp Hs H64 Hf. assert (size + 16 < 2 ^ 64) as Hb by (unfold HDR in *; lia).
  destruct (round16_spec size Hs Hb) as (H16 & Hr & Hr').
  unfold _malloc. rewrite malloc_rec_round by done. apply malloc_rec_fits; try done; lia.
Qed.

(** [_calloc] returns zeroed memory: whenever [num * size] does not overflow, the
    [num * size] bytes of the returned block read 0, the heap is well formed with this
    block added, and the other blocks keep their contents. *)
Theorem calloc_zeroes pml4 h num size s l :
  heap_inv h (mem s) l → ps_ok [pml4] (pages s) → 0 < num * size →
  num * size + HDR + PAGESIZE + 16 < 2 ^ 64 →
  returns_or_panics (_calloc pml4 h num size s) ∧
  ∀ r h' s', _calloc pml4 h num size s = Done (r, h', s') →
    (∀ x, r ≤ x < r + num * size → bytes (mem s') !! x = Some 0) ∧
    same_contents (live l) (mem s) (mem s') ∧
    ∃ l', heap_inv h' (mem s') l' ∧ live l' ≡ₚ (r, round16 (num * size)) :: live l.
Proof.
  intros Hi Hp Hs H64. assert (num * size + 16 < 2 ^ 64) as Hb by (unfold HDR, PAGESIZE in *; lia).
  destruct (round16_spec _ Hs Hb) as (_ & Hr & _).
  unfold _calloc. rewrite (proj2 (Z.eqb_neq _ _) (inv_ready _ _ _ Hi)).
  rewrite (u64_small (num * size)) by (unfold HDR, PAGESIZE in *; lia).
  destruct (malloc_ok pml4 h (num * size) s l Hi Hp Hs H64) as [[[[[r h1] s1] E]|[why ->]] Hpost];
    [|by split; [apply rop_panic|]].
  rewrite E, bind_done. split; [apply rop_done|]. intros ? ? ? [= <- <- <-].
  destruct (Hpost _ E) as (l' & Hi' & Hl' & Hsc & _). cbn [mem bytes memset_mem].
  split_and!.
  - intros x Hx. by rewrite lookup_fill, Z2Nat.id, decide_True by lia.
  - intros a n x Ha Hx. rewrite <- (Hsc a n x Ha Hx). cbn. rewrite lookup_fill, Z2Nat.id by lia.
    rewrite decide_False; [done|]. intros Hx'.
    eapply (live_disjoint h1 _ l' r _ _ (a, n) x Hi' Hl' Ha Hx). lia.
  - exists l'. split; [|done]. eapply heap_inv_payload; [done| |exact Hr]. rewrite Hl'. set_solver.
Qed.

(** The copy and the release of [_realloc], once the new block [r] is live. *)
Lemma realloc_move h m l r k b n size rest :
  heap_inv h m l → live l ≡ₚ (r, k) :: (b, n) :: rest → 0 < size ≤ k →
  let c := Z.min size n in
  ∃ h' m' l', _free b h (memcpy_mem r b c m) = Done (h', m') ∧ heap_inv h' m' l' ∧
    live l' ≡ₚ (r, k) :: rest ∧ same_contents rest m m' ∧
    ∀ i, 0 ≤ i < c → bytes m' !! (r + i) = bytes m !! (b + i).
Proof.
  intros Hi Hl Hk c. assert ((r, k) ∈ live l ∧ (b, n) ∈ live l) as [Hr Hb] by (rewrite Hl; set_solver).
  destruct (live_elem _ _ _ _ _ Hi Hb) as (_ & _ & Hn & _).
  assert (Hi1 : heap_inv h (memcpy_mem r b c m) l) by (eapply heap_inv_payload; [done..|lia]).
  destruct (free_ok _ _ _ _ _ Hi1 Hb) as (m' & l' & Hf & Hi' & Hl' & _ & Hsc & _).
  assert (r + k ≤ b ∨ b + n ≤ r).
  { assert (Hpw := pairwise_perm _ _ Hl (live_pairwise _ _ _ Hi)).
    inversion Hpw as [|? ? Hx _]; subst. apply Forall_cons in Hx as [Hx _].
    unfold apart, HDR in Hx. cbn in Hx. lia. }
  eexists _, m', l'. split_and!; [done|done| | |].
  - rewrite Hl, (Permutation_swap (b, n)) in Hl'. by apply Permutation_cons_inv in Hl' as ->.
  - intros a q x Ha Hx. rewrite (Hsc a q x) by (rewrite ?Hl; set_solver). cbn.
    rewrite lookup_copy, decide_False; [done| |lia].
    intros Hx'. eapply (live_disjoint _ _ _ r k _ (a, q) x Hi Hl); [set_solver|done|lia].
  - intros i Hi'i. rewrite (Hsc r k) by (done || lia). cbn.
    rewrite lookup_copy, decide_True by lia. f_equal. lia.
Qed.

(** [_realloc] moves a block: the new block starts with the first
    [min(size, old length)] bytes of the old one, the old one is released, and every
    other live block keeps its contents. *)
Theorem realloc_preserves pml4 h b n size s l rest :
  heap_inv h (mem s) l → ps_ok [pml4] (pages s) → live l ≡ₚ (b, n) :: rest → 0 < size →
  size + HDR + PAGESIZE + 16 < 2 ^ 64 →
  returns_or_panics (_realloc pml4 h b size s) ∧
  ∀ r h' s', _realloc pml4 h b size s = Done (r, h', s') →
    (∀ i, 0 ≤ i < Z.min size n → bytes (mem s') !! (r + i) = bytes (mem s) !! (b + i)) ∧
    same_contents rest (mem s) (mem s') ∧
    ∃ l', heap_inv h' (mem s') l' ∧ live l' ≡ₚ (r, round16 size) :: rest.
Proof.
  intros Hi Hp Hl Hs H64. assert (size + 16 < 2 ^ 64) as Hb64 by (unfold HDR, PAGESIZE in *; lia).
  destruct (round16_spec _ Hs Hb64) as (_ & Hr & _).
  assert ((b, n) ∈ live l) as Hb by (rewrite Hl; set_solver).
  unfold _realloc. rewrite (proj2 (Z.eqb_neq _ _) (inv_ready _ _ _ Hi)).
  destruct (malloc_ok pml4 h size s l Hi Hp Hs H64) as [[[[[r h1] s1] E]|[why ->]] Hpost];
    [|by split; [apply rop_panic|]].
  destruct (Hpost _ E) as (l1 & Hi1 & Hl1 & Hsc & _). rewrite E, bind_done. cbv beta iota.
  assert ((b, n) ∈ live l1 ∧ (r, round16 size) ∈ live l1) as [Hb1 Hr1] by (rewrite Hl1; set_solver).
  destruct (live_elem _ _ _ _ _ Hi1 Hr1) as (_ & ? & _).
  destruct (live_elem _ _ _ _ _ Hi1 Hb1) as ((q1 & q2 & Eq)%list_elem_of_split & ? & ? & ? & _).
  assert (Hd := inv_dseg _ _ _ Hi1). rewrite Eq in Hd. apply dseg_lookup in Hd as [_ Hd].
  rewrite (proj2 (Z.eqb_neq r 0)), (proj2 (Z.eqb_neq b 0)) by (unfold HDR in *; lia).
  unfold GetHeapSegmentHeader. rewrite (u64_small (b - HDR)) by (unfold HDR in *; lia).
  rewrite (load_hdr_at _ _ _ Hd), bind_done. seg_cbn.
  replace (if size <? n then size else n) with (Z.min size n) by (destruct (Z.ltb_spec size n); lia).
  destruct (realloc_move h1 (mem s1) l1 r (round16 size) b n size rest) as
    (h' & m' & l' & Hf & Hi' & Hl' & Hsc' & Hcp); [done|by rewrite Hl1, Hl|lia|].
  rewrite Hf, bind_done. split; [apply rop_done|]. intros ? ? ? [= <- <- <-]. cbn [mem].
  split_and!.
  - intros i Hi0. rewrite Hcp by done. apply (Hsc b n); [done|lia].
  - eapply same_contents_trans; [|exact Hsc']. intros a q x Ha. apply Hsc. rewrite Hl. set_solver.
  - by exists l'.
Qed.

(** sizes within 15 bytes of [2^64] wrap to 0 in the rounding: if any free segment
    is longer than a header, [_malloc] then returns a non-null block with no bytes in
    it, instead of failing. *)
Theorem malloc_size_wraps pml4 h size s l :
  heap_inv h (mem s) l → 2 ^ 64 - 16 < size < 2 ^ 64 →
  Exists (λ x, fits 0 x = true) l →
  ∃ r h' m' l', _malloc pml4 h size s = Done (r, h', Build_kst m' (pages s)) ∧ r ≠ 0 ∧
    heap_inv h' m' l' ∧ live l' ≡ₚ (r, 0) :: live l.
Proof.
  intros Hi Hs Hf. assert (round16 size = 0) as Hr.
  { unfold round16. rewrite gtb_true by dlia. rewrite (u64_small (size - _)) by dlia.
    unfold u64, wrap. dlia. }
  unfold _malloc. cbn [malloc_rec].
  rewrite (proj2 (Z.eqb_neq _ _) (inv_ready _ _ _ Hi)), (proj2 (Z.eqb_neq size 0)), Hr by lia.
  destruct (walk_takes h (mem s) l 0) as (w & Hw & r & h' & m' & l' & -> & Hi' & Hlive & _);
    [done..|].
  rewrite Hw, bind_done. exists r, h', m', l'. split_and!; try done.
  assert ((r, 0) ∈ live l') as Hin by (rewrite Hlive; set_solver).
  apply (live_elem _ _ _ _ _ Hi') in Hin. unfold HDR in *; lia.
Qed.

(** ** A client of the heap

    A client allocates and releases; it holds the blocks it was given and names the
    one to release by its position. *)
Inductive request := Malloc (size : Z) | Free (i : nat).

Definition client : Type := heap * kst P * list (Z * Z).

Definition serve (pml4 : Z) (q : request) (st : client) : outcome client :=
  let '(h, s, bs) := st in
  match q with
  | Malloc size =>
      '(r, h, s) ← _malloc pml4 h size s; Done (h, s, (r, round16 size) :: bs)
  | Free i =>
      match bs !! i with
      | Some (a, _) =>
          '(h, m) ← _free a h (mem s); Done (h, Build_kst m (pages s), delete i bs)
      | None => Done st
      end
  end.

Fixpoint serve_all (pml4 : Z) (qs : list request) (st : client) : outcome client :=
  match qs with
  | [] => Done st
  | q :: qs => st ← serve pml4 q st; serve_all pml4 qs st
  end.

Definition request_ok (q : request) : Prop :=
  match q with Malloc size => 0 < size ∧ size + HDR + PAGESIZE + 16 < 2 ^ 64 | Free _ => True end.

Definition client_inv (pml4 : Z) (st : client) : Prop :=
  let '(h, s, bs) := st in ∃ l, heap_inv h (mem s) l ∧ live l ≡ₚ bs ∧ ps_ok [pml4] (pages s).

Lemma serve_inv pml4 q st :
  request_ok q → client_inv pml4 st →
  returns_or_panics (serve pml4 q st) ∧ ∀ st', serve pml4 q st = Done st' → client_inv pml4 st'.
Proof.
  destruct st as [[h s] bs]. intros Hq (l & Hi & Hl & Hp). destruct q as [size|i]; cbn in Hq |- *.
  - destruct Hq as [H0' H1']. destruct (malloc_ok pml4 h size s l Hi Hp H0' H1') as [Hret Hpost].
    apply (rop_bind (malloc_done pml4 s l (round16 size))); [done|done|].
    intros [[r h1] s1] (l1 & Hi1 & Hl1 & _ & Hp1). split; [apply rop_done|].
    intros st' [= <-]. exists l1. by rewrite Hl1, Hl.
  - destruct (bs !! i) as [[a n]|] eqn:Hbi; [|split; [apply rop_done|]].
    + assert ((a, n) ∈ live l) as Ha by (rewrite Hl; by eapply list_elem_of_lookup_2).
      destruct (free_ok _ _ _ _ _ Hi Ha) as (m1 & l1 & -> & Hi1 & Hl1 & _). rewrite bind_done.
      split; [apply rop_done|]. intros st' [= <-]. exists l1. split_and!; [done| |done].
      rewrite Hl, (delete_Permutation bs i (a, n)) in Hl1 by done.
      by apply Permutation_cons_inv in Hl1 as ->.
    + intros st' [= <-]. by exists l.
Qed.

(** C1: whatever a client does with the heap, as long as it releases only blocks it
    holds, nothing goes wrong: every sequence of requests ends normally or in a panic
    (never in a fault, a spin or an endless walk), the heap stays well formed, its live
    blocks are exactly the client's, and these never overlap. *)
Theorem heap_client_safe pml4 qs st :
  Forall request_ok qs → client_inv pml4 st →
  returns_or_panics (serve_all pml4 qs st) ∧
  ∀ h s bs, serve_all pml4 qs st = Done (h, s, bs) →
    client_inv pml4 (h, s, bs) ∧ ForallOrdPairs apart bs.
Proof.
  intros Hqs Hst. cut (returns_or_panics (serve_all pml4 qs st) ∧
    ∀ st', serve_all pml4 qs st = Done st' → client_inv pml4 st').
  { intros [Hret Hpost]. split; [done|]. intros h s bs E. specialize (Hpost _ E).
    split; [done|]. destruct Hpost as (l & Hi & Hl & _).
    by eapply pairwise_perm, live_pairwise. }
  revert st Hst. induction Hqs as [|q qs Hq Hqs IH]; intros st Hst; cbn [serve_all].
  - split; [apply rop_done|]. by intros st' [= <-].
  - destruct (serve_inv pml4 q st Hq Hst) as [Hret Hpost].
    by apply (rop_bind (client_inv pml4)).
Qed.

(** ** Start-up *)

(** The chain of a fresh heap that ends at [he]: the main segment in the last 48 bytes
    of the page below [he], and one free segment with the rest of the page. *)
Definition init_chain (he : Z) : chain :=
  [(he - HDR, (0, 0)); (he - PAGESIZE, (1, PAGESIZE - HDR - HDR))].

Definition init_mem (he : Z) (m : kmem) : kmem :=
  store_hdr (he - PAGESIZE) (link_mk (1, PAGESIZE - HDR - HDR) 0 (he - HDR))
    (store_hdr (he - HDR) (link_mk (0, 0) (he - PAGESIZE) 0) m).

Lemma init_pages_ok pml4 perms he ls (p : P) :
  ps_ok [pml4] p → returns_or_panics (init_pages pml4 perms he ls p) ∧
            ∀ p', init_pages pml4 perms he ls p = Done p' → ps_ok [pml4] p'.
Proof.
  intros Hp. unfold init_pages.
  apply (rop_bind (λ x, ps_ok [pml4] x.2));
    [by eapply ps_request_current_page_at_ok|by intros [a s] ?; eapply ps_request_current_page_at_ok|].
  intros [a1 p1] Hp1.
  apply (rop_bind (λ x, ps_ok [pml4] x.2));
    [by eapply ps_request_current_page_at_ok|by intros [a s] ?; eapply ps_request_current_page_at_ok|].
  intros [a2 p2] Hp2. cbn in Hp2. case_match; [|split; [apply rop_done|by intros ? [= <-]]].
  apply ps_get_pml4_ok in Hp2. set (pd := ps_get_pml4 p2) in *.
  apply (rop_bind (λ _, True));
    [by eapply ps_virtual_to_physical_ok; [|left]|done|]. intros ph1 _.
  apply (rop_bind (ps_ok [pd; pml4])).
  { by eapply ps_map_memory_ok; [|right; left]. }
  { by intros ?; eapply ps_map_memory_ok; [|right; left]. }
  intros p3 Hp3.
  apply (rop_bind (λ _, True));
    [by eapply ps_virtual_to_physical_ok; [|left]|done|]. intros ph2 _.
  apply (ps_ok_sub [pml4]) in Hp3; [|set_solver].
  split; [by eapply ps_map_memory_ok; [|left]|by intros ?; eapply ps_map_memory_ok; [|left]].
Qed.

Definition blank (h : heap) : Prop := usedSize h = 0 ∧ totalSize h = u64 (freeSize h).

Lemma initHeap_inv h m he :
  he mod PAGESIZE = 0 → 2 * PAGESIZE ≤ he < 2 ^ 64 →
  ready h ≠ 0 → usedSize h = 0 → totalSize h = u64 (usedSize h + freeSize h) →
  heapEnd h = he - PAGESIZE → lastSegment h = he - PAGESIZE → mainSegment h = he - HDR →
  heap_inv h (init_mem he m) (init_chain he).
Proof.
  intros Hp Hb Hr Hu Ht He Hl Hm. unfold init_mem, init_chain. constructor; cbn -[store_hdr]; try done.
  - unfold PAGESIZE in *. split_and!; try (unfold HDR; lia); mem_read; done.
  - unfold PAGESIZE, HDR in *. split_and!; try lia; dlia.
  - rewrite Hm. by eexists.
  - rewrite He. unfold PAGESIZE in *. dlia.
  - intuition.
Qed.

Lemma initHeap_ok pml4 cheap hs he ss se user s :
  he mod PAGESIZE = 0 → 2 * PAGESIZE ≤ he < 2 ^ 64 → blank cheap → ps_ok [pml4] (pages s) →
  let o := _initHeap pml4 cheap hs he ss se user s in
  returns_or_panics o ∧
  ∀ r, o = Done r → ps_ok [pml4] (pages r.2) ∧ mem r.2 = init_mem he (mem s) ∧
    heap_inv r.1 (mem r.2) (init_chain he) ∧ lastStack r.1 = u64 (se - PAGESIZE).
Proof.
  intros Hpg Hb [Hu Ht] Hp. unfold _initHeap. cbv zeta.
  rewrite (u64_small (he - PAGESIZE)) by (unfold PAGESIZE in *; lia).
  replace (he - PAGESIZE + (PAGESIZE - HDR)) with (he - HDR) by lia.
  rewrite (u64_small (he - HDR)) by (unfold PAGESIZE, HDR in *; lia).
  replace (he - HDR - PAGESIZE + HDR) with (he - PAGESIZE) by lia.
  rewrite (u64_small (he - PAGESIZE)) by (unfold PAGESIZE in *; lia).
  set (perms := if negb (user =? 0) then _ else _).
  destruct (init_pages_ok pml4 perms (he - PAGESIZE) (u64 (se - PAGESIZE)) (pages s) Hp) as [Hret Hok].
  apply (rop_bind (ps_ok [pml4])); [done|done|]. intros p' Hp'. split; [apply rop_done|].
  intros r [= <-]. cbn [fst snd mem pages lastStack]. split_and!; try done.
  apply initHeap_inv; try done. cbn. rewrite Hu, Ht. unfold u64, wrap. dlia.
Qed.

Lemma heap_inv_far h m l a x :
  heap_inv h m l → (∀ b, b ∈ l.*1 → b + HDR ≤ a ∨ a + HDR ≤ b) →
  heap_inv h (store_hdr a x m) l.
Proof.
  intros Hi Ha. destruct Hi. constructor; try done. eapply dseg_frame; [|done].
  intros b Hb. by rewrite hdrs_store_ne by auto.
Qed.

(** Setting up another heap, elsewhere, leaves a fresh one alone. *)
Lemma init_chain_far h m he he' :
  heap_inv h m (init_chain he) → he + PAGESIZE ≤ he' →
  heap_inv h (init_mem he' m) (init_chain he).
Proof.
  intros Hi Hle. unfold init_mem. do 2 (apply heap_inv_far; [|unfold init_chain; cbn;
    intros b [->|[->|[]%elem_of_nil]%elem_of_cons]%elem_of_cons; unfold HDR, PAGESIZE in *; lia]).
  done.
Qed.

(** start-up leaves three well-formed heaps. On zeroed heap records [init_heap]
    returns or panics, and when it returns the global, the sleep and the signal heap
    are all well formed in the final memory, each with its one free segment and no
    live block, in pages that do not overlap. *)
Theorem init_heap_ready k :
  blank (kernelGlobalHeap k) → blank (kernelSleepHeap k) → blank (kernelSignalHeap k) →
  ps_ok [] (pages (kmemory k)) →
  returns_or_panics (init_heap k) ∧
  ∀ k', init_heap k = Done k' →
    let m := mem (kmemory k') in
    heap_inv (kernelGlobalHeap k') m (init_chain 0xffffffff6ffff000) ∧
    heap_inv (kernelSleepHeap k') m (init_chain 0xffffffff8ffff000) ∧
    heap_inv (kernelSignalHeap k') m (init_chain 0xffffffffaffff000) ∧
    (∀ he, live (init_chain he) = []).
Proof.
  intros Hg Hs Hn Hp%ps_get_pml4_ok. unfold init_heap. cbv zeta.
  eapply rop_bind; [by apply initHeap_ok|by apply initHeap_ok|].
  intros [g s1] (Hp1%ps_current_ok & Hm1 & Hi1 & _). cbn [fst snd] in *.
  eapply rop_bind; [by apply initHeap_ok|by apply initHeap_ok|].
  intros [sl s2] (Hp2%ps_current_ok & Hm2 & Hi2 & _). cbn [fst snd] in *.
  eapply rop_bind; [by apply initHeap_ok|by apply initHeap_ok|].
  intros [sg s3] (Hp3 & Hm3 & Hi3 & _). cbn [fst snd] in *.
  split; [apply rop_done|]. intros k' [= <-]. cbn [kernelGlobalHeap kernelSleepHeap kernelSignalHeap kmemory].
  split_and!; try done; rewrite Hm3; [|by rewrite Hm2 in *; apply init_chain_far].
  apply init_chain_far; [|done]. rewrite Hm2. by apply init_chain_far.
Qed.

(** ** Stacks *)
Definition stack_bytes (length : Z) : Z := (length + PAGESIZE - 1) / PAGESIZE * PAGESIZE.

Definition stacked (pml4 pd : Z) (h : heap) (k : Z) (x : heap * P) : Prop :=
  0 ≤ k ∧ x.1 = with_lastStack (lastStack h - k * PAGESIZE) h ∧
  0 < lastStack h - k * PAGESIZE ∧ ps_ok [pd; pml4] x.2.

Lemma stack_page_stacked pd pml4 perms h k x :
  lastStack h mod PAGESIZE = 0 → lastStack h < 2 ^ 64 → stacked pml4 pd h k x →
  returns_or_panics (stack_page pd pml4 perms x) ∧
  ∀ y, stack_page pd pml4 perms x = Done y → stacked pml4 pd h (k + 1) y.
Proof.
  destruct x as [h' p]. intros Hpg He (Hk & Hh & Hpos & Hp). cbn in Hh, Hp. subst h'.
  unfold stack_page. cbn [lastStack with_lastStack].
  assert (PAGESIZE ≤ lastStack h - k * PAGESIZE) by (unfold PAGESIZE in *; dlia).
  replace (lastStack h - k * PAGESIZE - PAGESIZE) with (lastStack h - (k + 1) * PAGESIZE) by lia.
  rewrite (u64_small (lastStack h - (k + 1) * PAGESIZE)) by (unfold PAGESIZE in *; lia).
  apply (rop_bind (λ r, r.1 = lastStack h - (k + 1) * PAGESIZE ∧ ps_ok [pd; pml4] r.2));
    [by eapply ps_request_current_page_at_ok|by intros [a q] ?; eapply ps_request_current_page_at_ok|].
  intros [a p1] [Ha Hp1]. cbn [fst snd lastStack] in *. subst a.
  destruct (Z.eqb_spec (lastStack h - (k + 1) * PAGESIZE) 0); [by split; [apply rop_panic|]|].
  apply (rop_bind (ps_ok [pd; pml4])).
  - case_match; [|apply rop_done].
    apply (rop_bind (λ _, True) (λ _, True)); [by eapply ps_virtual_to_physical_ok; [|left]|done|].
    intros ph _. split; [by eapply ps_map_memory_ok; [|right; left]|done].
  - case_match; [|by intros ? [= <-]].
    intros p2 (ph & _ & E)%bind_done_inv. by eapply ps_map_memory_ok; [|right; left|].
  - intros p3 Hp3. split; [apply rop_done|]. intros y [= <-].
    split_and!; try done; unfold PAGESIZE in *; lia.
Qed.

Lemma stackalloc_ok pml4 h length s :
  ps_ok [pml4] (pages s) → lastStack h mod PAGESIZE = 0 → 0 < lastStack h < 2 ^ 64 → 0 ≤ length →
  returns_or_panics (_stackalloc pml4 h length s) ∧
  ∀ r, _stackalloc pml4 h length s = Done r →
    r.1.1 = lastStack h - stack_bytes length ∧ 0 < r.1.1 ∧
    lastStack r.1.2 = r.1.1 - PAGESIZE ∧ mem r.2 = mem s ∧ ps_ok [pml4] (pages r.2).
Proof.
  intros Hp Hpg Hb Hlen. unfold _stackalloc. cbv zeta.
  set (pgs := if negb (length mod PAGESIZE =? 0) then _ else _).
  assert (pgs * PAGESIZE = stack_bytes length ∧ 0 ≤ pgs) as [Hpgs Hpgs0].
  { unfold pgs, stack_bytes, PAGESIZE. destruct (Z.eqb_spec (length mod 4096) 0); cbn [negb]; dlia. }
  set (perms := if isKernel h =? 0 then _ else _).
  set (pd := ps_get_pml4 (pages s)).
  assert (ps_ok [pd; pml4] (pages s)) as Hpd by (by apply ps_get_pml4_ok).
  destruct (rop_for_up (stacked pml4 pd h) (Z.to_nat pgs) 0
    (λ _ x, stack_page pd pml4 perms x) (h, pages s)) as [Hret Hpost].
  { intros k x Hx. apply stack_page_stacked; [done|lia|done]. }
  { split_and!; [done| |lia|done]. rewrite Z.mul_0_l, Z.sub_0_r. by destruct h. }
  apply (rop_bind (stacked pml4 pd h pgs)); [done|intros x Hx; by apply Hpost in Hx; rewrite Z2Nat.id in Hx|].
  intros [h' p'] (_ & Hh & Hpos & Hp'%(ps_ok_sub [pml4])); [|set_solver]. cbn in Hh, Hp'. subst h'.
  split; [apply rop_done|]. intros r [= <-]. cbn [fst snd lastStack with_lastStack mem pages].
  rewrite Hpgs in *. split_and!; try done; try lia.
  apply u64_small. unfold stack_bytes, PAGESIZE in *. dlia.
Qed.

(** C36: stacks do not touch. Two successive stack allocations return or panic, and the
    second stack ends exactly one page below the first: the page in between is never
    handed out, so that running off the end of a stack does not reach another one. *)
Theorem stackalloc_guard_page pml4 h len1 len2 s :
  ps_ok [pml4] (pages s) → lastStack h mod PAGESIZE = 0 → 0 < lastStack h < 2 ^ 64 →
  0 ≤ len1 → 0 ≤ len2 → stack_bytes len1 + PAGESIZE < lastStack h →
  returns_or_panics (_stackalloc pml4 h len1 s) ∧
  ∀ a1 h1 s1, _stackalloc pml4 h len1 s = Done (a1, h1, s1) →
    len1 ≤ stack_bytes len1 ∧ a1 + stack_bytes len1 = lastStack h ∧
    returns_or_panics (_stackalloc pml4 h1 len2 s1) ∧
    ∀ a2 h2 s2, _stackalloc pml4 h1 len2 s1 = Done (a2, h2, s2) →
      len2 ≤ stack_bytes len2 ∧ a2 + stack_bytes len2 + PAGESIZE = a1 ∧ 0 < a2.
Proof.
  intros Hp Hpg Hb Hl1 Hl2 Hroom.
  assert (∀ n, 0 ≤ n → n ≤ stack_bytes n ∧ stack_bytes n mod PAGESIZE = 0) as Hsb.
  { intros n Hn. unfold stack_bytes, PAGESIZE. dlia. }
  destruct (Hsb _ Hl1) as [? ?], (Hsb _ Hl2) as [? ?].
  destruct (stackalloc_ok pml4 h len1 s) as [Hret Hpost]; [done..|]. split; [done|].
  intros a1 h1 s1 E1. destruct (Hpost _ E1) as (Ha1 & Hpos1 & Hls1 & _ & Hp1). cbn [fst snd] in *.
  destruct (stackalloc_ok pml4 h1 len2 s1) as [Hret2 Hpost2];
    [done|rewrite Hls1; unfold PAGESIZE in *; dlia|unfold PAGESIZE in *; lia|done|].
  split_and!; [done|lia|done|]. intros a2 h2 s2 E2.
  destruct (Hpost2 _ E2) as (Ha2 & Hpos2 & _). cbn [fst snd] in *. lia.
Qed.
End spec.

(** ** Instances for the witnesses: frames handed out in order, a heap of one page *)
#[local] Instance bump_service : PageService Z := {|
  ps_request_page p := if p <? 0x100000 then Done (p, p + PAGESIZE) else Panic "No free pages available!";
  ps_get_pml4 _ := 0;
  ps_map_current_memory _ _ _ p := Done p;
  ps_map_memory _ _ _ _ p := Done p;
  ps_virtual_to_physical _ v _ := Done v;
  ps_request_current_page_at v _ p :=
    if p <? 0x100000 then Done (v, p + PAGESIZE) else Panic "No free pages available!";
|}.

#[local] Instance bump_service_ok : PageServiceOk Z.
Proof.
  refine {| ps_ok _ _ := True |}; cbn.
  all: intros; try case_match; split_and?; eauto with machine; naive_solver.
Defined.

Lemma bump_ok T (p : Z) : ps_ok T p.
Proof. exact I. Qed.

Definition blank_heap : heap :=
  {| heapEnd := 0; lastStack := 0; lastSegment := 0; mainSegment := 0; totalSize := 0;
     usedSize := 0; freeSize := 0; isKernel := 0; ready := 0; heap_lock := unlocked;
     stack_lock := unlocked |}.

Definition heap0 : heap :=
  {| heapEnd := 0x40000; lastStack := 0x80000; lastSegment := 0x40000; mainSegment := 0x40fd0;
     totalSize := PAGESIZE; usedSize := 0; freeSize := PAGESIZE; isKernel := 1; ready := 1;
     heap_lock := unlocked; stack_lock := unlocked |}.
Definition st0 : kst Z := Build_kst (init_mem 0x41000 {| hdrs := ∅; bytes := ∅ |}) 0.
Definition chain0 : chain := init_chain 0x41000.

Lemma heap0_inv : heap_inv heap0 (mem st0) chain0.
Proof. apply initHeap_inv; done. Qed.

Lemma malloc_correct_witness :
  ∃ r h' s', _malloc 0 heap0 20 st0 = Done (r, h', s') ∧ r mod 16 = 0 ∧
    ∃ l', heap_inv h' (mem s') l' ∧ live l' ≡ₚ [(r, 32)].
Proof.
  destruct (malloc_correct 0 heap0 20 st0 chain0 heap0_inv (bump_ok [0] 0)) as [_ H]; [done..|].
  eexists _, _, _. split; [vm_compute; reflexivity|]. 
  edestruct H as (H1 & _ & _ & _ & _ & H2); [vm_compute; reflexivity|]. split; [exact H1|exact H2].
Defined.

Lemma malloc_served_witness :
  ∃ r h' m', _malloc 0 heap0 4000 st0 = Done (r, h', Build_kst m' 0) ∧
    malloc_done 0 st0 chain0 4000 (r, h', Build_kst m' 0).
Proof.
  apply (malloc_served 0 heap0 4000 st0 chain0 heap0_inv (bump_ok [0] 0)); [done..|].
  apply Exists_cons; right. apply Exists_cons; left. reflexivity.
Defined.

(** The same heap with a block of 32 bytes taken from the top of its page. *)
Definition heap1 : heap := with_sizes PAGESIZE 80 (PAGESIZE - 80) heap0.
Definition chain1 : chain := [(0x40fd0, (0, 0)); (0x40f80, (0, 32)); (0x40000, (1, 3920))].
Definition st1 : kst Z :=
  Build_kst {| hdrs := {[ 0x40fd0 := link_mk (0, 0) 0x40f80 0;
                          0x40f80 := link_mk (0, 32) 0x40000 0x40fd0;
                          0x40000 := link_mk (1, 3920) 0 0x40f80 ]};
               bytes := fill ∅ 0x40fb0 7 32 |} 0.

Lemma heap1_inv : heap_inv heap1 (mem st1) chain1.
Proof.
  constructor; try done.
  - cbn. unfold HDR. split_and!; try done; lia.
  - by eexists.
  - cbn. intuition.
Qed.

Lemma free_correct_witness :
  ∃ h' m' l', _free 0x40fb0 heap1 (mem st1) = Done (h', m') ∧ heap_inv h' m' l' ∧
    live chain1 ≡ₚ (0x40fb0, 32) :: live l' ∧ span l' = span chain1 ∧
    same_contents (live chain1) (mem st1) m' ∧ totalSize h' = PAGESIZE.
Proof. apply (free_correct heap1 (mem st1) chain1 0x40fb0 32 heap1_inv). by left. Defined.

Lemma double_free_panics_witness :
  ∃ h' m', _free 0x40fb0 heap1 (mem st1) = Done (h', m') ∧
    ∃ why, _free 0x40fb0 h' m' = Panic why.
Proof.
  eexists _, _. split; [vm_compute; reflexivity|].
  eapply (double_free_panics heap1 (mem st1) chain1 0x40fb0 32 _ _ heap1_inv); [by left|].
  vm_compute; reflexivity.
Defined.

Lemma calloc_zeroes_witness :
  ∃ r h' s', _calloc 0 heap1 3 20 st1 = Done (r, h', s') ∧
    (∀ x, r ≤ x < r + 60 → bytes (mem s') !! x = Some 0) ∧
    same_contents (live chain1) (mem st1) (mem s').
Proof.
  destruct (calloc_zeroes 0 heap1 3 20 st1 chain1 heap1_inv (bump_ok [0] 0)) as [_ H]; [done..|].
  eexists _, _, _. split; [vm_compute; reflexivity|].
  edestruct H as (H1 & H2 & _); [vm_compute; reflexivity|]. split; [exact H1|exact H2].
Defined.

Lemma realloc_preserves_witness :
  ∃ r h' s', _realloc 0 heap1 0x40fb0 4096 st1 = Done (r, h', s') ∧
    ∀ i, 0 ≤ i < 32 → bytes (mem s') !! (r + i) = bytes (mem st1) !! (0x40fb0 + i).
Proof.
  destruct (realloc_preserves 0 heap1 0x40fb0 32 4096 st1 chain1 [] heap1_inv (bump_ok [0] 0)) as [_ H];
    [done..|].
  eexists _, _, _. split; [vm_compute; reflexivity|].
  edestruct H as (H1 & _); [vm_compute; reflexivity|]. exact H1.
Defined.

Lemma malloc_size_wraps_witness :
  ∃ r h' m' l', _malloc 0 heap0 (2 ^ 64 - 1) st0 = Done (r, h', Build_kst m' 0) ∧ r ≠ 0 ∧
    heap_inv h' m' l' ∧ live l' ≡ₚ [(r, 0)].
Proof.
  apply (malloc_size_wraps 0 heap0 (2 ^ 64 - 1) st0 chain0 heap0_inv); [done|].
  apply Exists_cons; right. apply Exists_cons; left. reflexivity.
Defined.

Lemma heap_client_safe_witness :
  ∃ h s bs, serve_all 0 [Malloc 5000; Malloc 100; Free 1; Malloc 8; Free 1] (heap0, st0, [])
            = Done (h, s, bs) ∧ client_inv 0 (h, s, bs) ∧ ForallOrdPairs apart bs.
Proof.
  destruct (heap_client_safe 0 [Malloc 5000; Malloc 100; Free 1; Malloc 8; Free 1] (heap0, st0, [])) as [_ H].
  - repeat constructor.
  - exists chain0. split_and!; [apply heap0_inv|done|apply bump_ok].
  - eexists _, _, _. split; [vm_compute; reflexivity|]. apply H. vm_compute; reflexivity.
Defined.

Definition kernel0 : kernel (P := Z) :=
  {| kcpu := {| rflags := IF_BIT |}; kmemory := Build_kst {| hdrs := ∅; bytes := ∅ |} 0;
     kernelGlobalHeap := blank_heap; kernelSleepHeap := blank_heap; kernelSignalHeap := blank_heap |}.

Lemma init_heap_ready_witness :
  ∃ k', init_heap kernel0 = Done k' ∧
    heap_inv (kernelGlobalHeap k') (mem (kmemory k')) (init_chain 0xffffffff6ffff000).
Proof.
  destruct (init_heap_ready kernel0) as [_ H]; [done..|apply bump_ok|].
  eexists. split; [vm_compute; reflexivity|]. apply H. vm_compute; reflexivity.
Defined.

Lemma stackalloc_guard_page_witness :
  ∃ h1 s1, _stackalloc 0 heap0 0x2001 st0 = Done (0x7d000, h1, s1) ∧
    ∀ a2 h2 s2, _stackalloc 0 h1 100 s1 = Done (a2, h2, s2) → a2 + PAGESIZE + PAGESIZE = 0x7d000.
Proof.
  destruct (stackalloc_guard_page 0 heap0 0x2001 100 st0 (bump_ok [0] 0)) as [_ H]; [done..|].
  eexists _, _. split; [vm_compute; reflexivity|].
  edestruct H as (_ & _ & _ & H2); [vm_compute; reflexivity|].
  intros a2 h2 s2 E. apply H2 in E as (_ & E & _). exact E.
Defined.
