(* ===== verification/KernelHeap.v ===== *)
(** * The kernel's heaps as allocators

    [kmalloc]/[kfree], [smalloc]/[sfree] and [sigmalloc]/[sigfree] take the heap's
    spinlock, run the operation and release it. *)
From S2P Require Import Prelude Dll Concurrency PageAlloc PageService Paging PagingSpec Heap HeapInv HeapGrow HeapSpec Alloc.
#[local] Open Scope Z_scope.

(** ** The operations leave the locks of the heap and its stacks alone *)
Definition fixed (h : heap) : spinlock_t * spinlock_t * Z := (heap_lock h, stack_lock h, lastStack h).

Lemma splitSegment_fixed h a size m t h' m' :
  splitSegment h a size m = Done (t, h', m') → fixed h' = fixed h.
Proof.
  unfold splitSegment. intros Hr. apply bind_done_inv in Hr as (sg & _ & Hr).
  do 2 (case_match; [by simplify_eq|]).
  repeat (apply bind_done_inv in Hr as (? & _ & Hr)). simplify_eq. by case_match.
Qed.

Lemma malloc_step_fixed h m size c w :
  malloc_step h m size c = Done (inr w) → ∀ a h' m', w = Took a h' m' → fixed h' = fixed h.
Proof.
  intros Hr a h' m' ->. unfold malloc_step in Hr. apply bind_done_inv in Hr as (sg & _ & Hr).
  repeat case_match; try done.
  - apply bind_done_inv in Hr as ([[t h1] m1] & Hs & Hr).
    repeat (apply bind_done_inv in Hr as (? & _ & Hr)). simplify_eq.
    exact (splitSegment_fixed _ _ _ _ _ _ _ Hs).
  - repeat (apply bind_done_inv in Hr as (? & _ & Hr)). by simplify_eq.
Qed.

Lemma walk_fixed h m size c a h' m' fuel :
  loop fuel (malloc_step h m size) c = Done (Took a h' m') → fixed h' = fixed h.
Proof.
  intros Hr. eapply (loop_inv (λ _, True)
    (λ w, ∀ a h' m', w = Took a h' m' → fixed h' = fixed h)); [..|exact Hr|done]; try done.
  intros x w _. apply malloc_step_fixed.
Qed.

Section locks.
Context {P : Type} `{PageService P}.

Lemma expand_page_fixed pd pml4 perms x y :
  expand_page pd pml4 perms x = Done y → fixed y.1 = fixed x.1.
Proof.
  destruct x as [h p]. unfold expand_page. intros Hr.
  apply bind_done_inv in Hr as ([np p1] & _ & Hr). repeat (apply bind_done_inv in Hr as (? & _ & Hr)).
  case_match; by simplify_eq.
Qed.

Lemma relink_last_fixed h L m h' m' : relink_last h L m = Done (h', m') → fixed h' = fixed h.
Proof.
  unfold relink_last. intros Hr. apply bind_done_inv in Hr as (g & _ & Hr).
  case_match; repeat (apply bind_done_inv in Hr as (? & _ & Hr)); by simplify_eq.
Qed.

Lemma expand_heap_fixed pml4 h size (s : kst P) h' s' :
  expand_heap pml4 h size s = Done (h', s') → fixed h' = fixed h.
Proof.
  unfold expand_heap. intros Hr. apply bind_done_inv in Hr as ([h1 p1] & Hl & Hr).
  apply bind_done_inv in Hr as ([h2 m2] & Hm & Hr). simplify_eq. unfold fixed at 1. cbn [heap_lock stack_lock lastStack with_sizes]. change (_, _, _) with (fixed h2).
  rewrite (relink_last_fixed _ _ _ _ _ Hm).
  apply (for_up_inv (λ _ x, fixed x.1 = fixed h)) in Hl; [done| |done].
  intros k x y _ Hx E. by rewrite (expand_page_fixed _ _ _ _ _ E).
Qed.

Lemma malloc_rec_fixed d pml4 h size (s : kst P) r h' s' :
  malloc_rec d pml4 h size s = Done (r, h', s') → fixed h' = fixed h.
Proof.
  revert h size s. induction d as [|d IH]; intros h size s; cbn [malloc_rec]; [done|].
  do 2 (case_match; [by intros; simplify_eq|]). intros Hr.
  apply bind_done_inv in Hr as (w & Hw & Hr). destruct w as [a h1 m1|].
  - simplify_eq. by eapply walk_fixed.
  - apply bind_done_inv in Hr as ([h1 s1] & He & Hr).
    rewrite (IH _ _ _ Hr). by eapply expand_heap_fixed.
Qed.

Lemma malloc_rec_lock d pml4 h size (s : kst P) r h' s' :
  malloc_rec d pml4 h size s = Done (r, h', s') → heap_lock h' = heap_lock h.
Proof. intros E%malloc_rec_fixed. by injection E. Qed.
End locks.

Lemma heap_inv_lock h m l x : heap_inv h m l → heap_inv (with_heap_lock x h) m l.
Proof. by intros []. Qed.

(** ** One locked heap of the kernel; [get] and [put] select it *)
Section locked.
Context {P : Type} `{PageServiceOk P}.
Context (get : kernel (P := P) → heap) (put : cpu → kst P → heap → kernel (P := P) → kernel (P := P)).
Hypothesis get_put : ∀ c s h k, get (put c s h k) = h.
Hypothesis mem_put : ∀ c s h k, kmemory (put c s h k) = s.
Hypothesis cpu_put : ∀ c s h k, kcpu (put c s h k) = c.

Definition locked_malloc (size : Z) (k : kernel (P := P)) : outcome (Z * kernel (P := P)) :=
  '(r, c, h, s) ← locked_heap (kcpu k) (get k) (kmemory k)
    (λ h s, _malloc (ps_get_pml4 (pages s)) h size s);
  Done (r, put c s h k).

Definition locked_free (address : Z) (k : kernel (P := P)) : outcome (kernel (P := P)) :=
  '(_, c, h, s) ← locked_heap (kcpu k) (get k) (kmemory k) (free_body address);
  Done (put c s h k).

(** The lock is free and the heap well formed with the live blocks [b]. *)
Definition heap_ready (b : list (Z * Z)) (k : kernel (P := P)) : Prop :=
  mut (heap_lock (get k)) = 0 ∧ ps_ok [] (pages (kmemory k)) ∧
  ∃ l, heap_inv (get k) (mem (kmemory k)) l ∧ live l ≡ₚ b.

Lemma take_lock k :
  mut (heap_lock (get k)) = 0 →
  ∃ c x, acquire_spinlock (kcpu k) (heap_lock (get k)) = Done (c, x) ∧
    release_spinlock c x = (kcpu k, {| flags := rflags (kcpu k); mut := 0 |}).
Proof.
  intros Hm. destruct (acquire_spinlock (kcpu k) (heap_lock (get k))) as [[c x]| | | |] eqn:E;
    try (unfold acquire_spinlock in E; by rewrite Hm in E).
  exists c, x. split; [done|]. by eapply release_acquire.
Qed.

Lemma locked_malloc_ok size b k :
  heap_ready b k → 0 < size → size + HDR + PAGESIZE + 16 < 2 ^ 64 →
  returns_or_panics (locked_malloc size k) ∧
  ∀ r k', locked_malloc size k = Done (r, k') →
    heap_ready ((r, round16 size) :: b) k' ∧ kcpu k' = kcpu k ∧
    same_contents b (mem (kmemory k)) (mem (kmemory k')).
Proof.
  intros (Hm & Hp%ps_current_ok & l & Hi & Hl) Hs H64. unfold locked_malloc, locked_heap.
  destruct (take_lock k Hm) as (c & x & -> & Hrel). rewrite bind_done.
  destruct (malloc_ok (ps_get_pml4 (pages (kmemory k))) (with_heap_lock x (get k)) size (kmemory k) l) as [Hret Hpost];
    [by apply heap_inv_lock|done..|].
  destruct Hret as [[[[r h1] s1] E]|[why E]]; rewrite E; [|by split; [apply rop_panic|]].
  rewrite !bind_done. destruct (Hpost _ E) as (l' & Hi' & Hl' & Hsc & Hp').
  apply malloc_rec_lock in E as Elk. rewrite Elk. cbn [heap_lock with_heap_lock].
  rewrite Hrel, bind_done. split; [apply rop_done|]. intros ? ? [= <- <-].
  unfold heap_ready. rewrite get_put, mem_put, cpu_put. split_and!; try done.
  - eapply ps_ok_sub; [|exact Hp']. set_solver.
  - exists l'. split; [by apply heap_inv_lock|]. by rewrite Hl', Hl.
  - intros a n y Ha. apply Hsc. by rewrite Hl.
Qed.

Lemma locked_free_ok a n b k :
  heap_ready ((a, n) :: b) k →
  ∃ k', locked_free a k = Done k' ∧ heap_ready b k' ∧ kcpu k' = kcpu k ∧
    same_contents b (mem (kmemory k)) (mem (kmemory k')).
Proof.
  intros (Hm & Hp & l & Hi & Hl). unfold locked_free, locked_heap.
  destruct (take_lock k Hm) as (c & x & -> & Hrel). rewrite bind_done.
  destruct (free_ok (with_heap_lock x (get k)) (mem (kmemory k)) l a n) as (m' & l' & Hf & Hi' & Hl' & _ & Hsc & _);
    [by apply heap_inv_lock|rewrite Hl; left|].
  unfold free_body. rewrite Hf, !bind_done. cbn [heap_lock account_free with_sizes with_heap_lock].
  rewrite Hrel, bind_done. eexists. split; [done|].
  unfold heap_ready. rewrite get_put, mem_put, cpu_put. split_and!; try done.
  - exists l'. split; [by apply heap_inv_lock|]. rewrite Hl in Hl'. by apply Permutation_cons_inv in Hl'.
  - intros y q z Hy. apply Hsc. rewrite Hl. by right.
Qed.

(** ** As an allocator *)
Lemma ready_NoDup b k : heap_ready b k → NoDup b.*1 ∧ ∀ a, a ∈ b.*1 → a ≠ 0.
Proof.
  intros (_ & _ & l & Hi & Hl).
  assert (Hnn : ∀ x, x ∈ b → 0 ≤ x.2 ∧ x.1 ≠ 0).
  { intros [a n] Ha. rewrite <- Hl in Ha. apply (live_elem _ _ _ _ _ Hi) in Ha.
    unfold HDR in *. cbn. lia. }
  split; [|intros a ([a' n] & -> & Ha)%list_elem_of_fmap; by apply Hnn in Ha as [_ ?]].
  assert (Hpw := pairwise_perm _ _ Hl (live_pairwise _ _ _ Hi)). clear Hl Hi.
  induction Hpw as [|[a n] b Ha Hpw IH]; cbn; constructor.
  - intros ([c q] & E & Hc)%list_elem_of_fmap. cbn in E. subst c.
    rewrite Forall_forall in Ha. specialize (Ha _ Hc). unfold apart, HDR in Ha. cbn in Ha.
    assert (0 ≤ n ∧ 0 ≤ q) by (split; [apply (Hnn (a, n)); left|apply (Hnn (a, q)); by right]). lia.
  - apply IH. intros x Hx. apply Hnn. by right.
Qed.

Definition locked_allocator : Allocator (kernel (P := P)) :=
  {| al_malloc := locked_malloc; al_free := locked_free |}.

(** The addresses of the live blocks. *)
Definition blocks_ready (L : gset Z) (k : kernel (P := P)) : Prop :=
  ∃ b, heap_ready b k ∧ L = list_to_set b.*1.

(** Both operations leave the processor flags as they were. *)
Lemma locked_malloc_blocks L size k :
  blocks_ready L k → 0 < size < 2 ^ 32 → returns_or_panics (locked_malloc size k) ∧
  ∀ r k', locked_malloc size k = Done (r, k') →
    (r ∉ L) ∧ blocks_ready ({[r]} ∪ L) k' ∧ kcpu k' = kcpu k.
Proof.
  intros (b & Hb & ->) Hs.
  destruct (locked_malloc_ok size b k Hb) as [Hret Hpost]; [lia|unfold HDR, PAGESIZE; lia|].
  split; [done|]. intros r k' E. destruct (Hpost r k' E) as (Hb' & Hc & _).
  destruct (ready_NoDup _ _ Hb') as [Hnd _]. cbn in Hnd. apply NoDup_cons in Hnd as [Hr _].
  split_and!; [by rewrite elem_of_list_to_set|by eexists|done].
Qed.

Lemma locked_free_blocks L a k :
  blocks_ready L k → a ∈ L →
  ∃ k', locked_free a k = Done k' ∧ blocks_ready (L ∖ {[a]}) k' ∧ kcpu k' = kcpu k.
Proof.
  intros (b & Hb & ->) Ha%elem_of_list_to_set.
  apply list_elem_of_fmap in Ha as ([a' n] & -> & (b1 & b2 & ->)%list_elem_of_split).
  assert (Hb' : heap_ready ((a', n) :: b1 ++ b2) k).
  { destruct Hb as (Hm & Hp & l & Hi & Hl). split_and!; [done..|]. exists l. split; [done|].
    by rewrite Hl, <- Permutation_middle. }
  destruct (locked_free_ok a' n _ k Hb') as (k' & Hf & Hk' & Hc & _). exists k'. split_and!; [done| |done].
  eexists. split; [exact Hk'|].
  destruct (ready_NoDup _ _ Hb') as [Hnd _]. cbn in Hnd. apply NoDup_cons in Hnd as [Hr _].
  rewrite fmap_app in *. cbn. rewrite !list_to_set_app_L, list_to_set_cons.
  apply set_eq. intros x.
  assert (x ∈ b1.*1 ++ b2.*1 → x ≠ a') by (by intros Hx ->). set_solver.
Qed.

Lemma locked_allocator_ok : @AllocatorOk (kernel (P := P)) locked_allocator.
Proof.
  refine {| al_ok := blocks_ready |}.
  - intros L k a (b & Hb & ->) Ha%elem_of_list_to_set. by apply (ready_NoDup _ _ Hb).
  - intros L size k Hb Hs. destruct (locked_malloc_blocks L size k Hb Hs) as [Hret Hpost].
    split; [done|]. intros r k' E. by destruct (Hpost r k' E) as (? & ? & _).
  - intros L a k Hb Ha. destruct (locked_free_blocks L a k Hb Ha) as (k' & ? & ? & _). by exists k'.
Defined.
End locked.

(** ** The three heaps *)
Section kernel_heaps.
Context {P : Type} `{PageServiceOk P}.

Definition kmalloc_allocator : Allocator (kernel (P := P)) :=
  {| al_malloc := kmalloc; al_free := kfree |}.
Definition smalloc_allocator : Allocator (kernel (P := P)) :=
  {| al_malloc := smalloc; al_free := sfree |}.
Definition sigmalloc_allocator : Allocator (kernel (P := P)) :=
  {| al_malloc := sigmalloc; al_free := sigfree |}.

Lemma kmalloc_allocator_ok : @AllocatorOk (kernel (P := P)) kmalloc_allocator.
Proof. by apply (locked_allocator_ok kernelGlobalHeap with_global). Defined.
Lemma smalloc_allocator_ok : @AllocatorOk (kernel (P := P)) smalloc_allocator.
Proof. by apply (locked_allocator_ok kernelSleepHeap with_sleep). Defined.
Lemma sigmalloc_allocator_ok : @AllocatorOk (kernel (P := P)) sigmalloc_allocator.
Proof. by apply (locked_allocator_ok kernelSignalHeap with_signal). Defined.

(** The sleep heap, with the processor flags. *)
Lemma smalloc_blocks L size (k : kernel (P := P)) :
  blocks_ready kernelSleepHeap L k → 0 < size < 2 ^ 32 → returns_or_panics (smalloc size k) ∧
  ∀ r k', smalloc size k = Done (r, k') →
    (r ∉ L) ∧ blocks_ready kernelSleepHeap ({[r]} ∪ L) k' ∧ kcpu k' = kcpu k.
Proof. by apply (locked_malloc_blocks kernelSleepHeap with_sleep). Qed.

Lemma sfree_blocks L a (k : kernel (P := P)) :
  blocks_ready kernelSleepHeap L k → a ∈ L →
  ∃ k', sfree a k = Done k' ∧ blocks_ready kernelSleepHeap (L ∖ {[a]}) k' ∧ kcpu k' = kcpu k.
Proof. by apply (locked_free_blocks kernelSleepHeap with_sleep). Qed.

(** [kmalloc] and [kfree] are the locked heap. With the lock free and the heap well
    formed [kmalloc] returns or panics; when it returns the lock is free again, the
    flags register is what it was, the block is added to the live blocks and the others
    keep their contents; [kfree] of the block then returns and restores the live blocks,
    and with the lock held [kmalloc] waits for ever. *)
Theorem kmalloc_kfree size b (k : kernel (P := P)) :
  0 < size → size + HDR + PAGESIZE + 16 < 2 ^ 64 →
  (heap_ready kernelGlobalHeap b k →
     returns_or_panics (kmalloc size k) ∧
     ∀ r k1, kmalloc size k = Done (r, k1) →
       heap_ready kernelGlobalHeap ((r, round16 size) :: b) k1 ∧ kcpu k1 = kcpu k ∧
       same_contents b (mem (kmemory k)) (mem (kmemory k1)) ∧
       ∃ k2, kfree r k1 = Done k2 ∧ heap_ready kernelGlobalHeap b k2 ∧ kcpu k2 = kcpu k ∧
         same_contents b (mem (kmemory k)) (mem (kmemory k2))) ∧
  (mut (heap_lock (kernelGlobalHeap k)) ≠ 0 → kmalloc size k = Spin).
Proof.
  intros Hs H64. split.
  - intros Hb. destruct (locked_malloc_ok kernelGlobalHeap with_global ltac:(done) ltac:(done) ltac:(done)
      size b k Hb Hs H64) as [Hret Hpost].
    split; [done|]. intros r k1 E. destruct (Hpost r k1 E) as (Hb1 & Hc1 & Hsc1).
    destruct (locked_free_ok kernelGlobalHeap with_global ltac:(done) ltac:(done) ltac:(done)
      r (round16 size) b k1 Hb1) as (k2 & Hf & Hb2 & Hc2 & Hsc2).
    split_and!; [done..|]. exists k2. split_and!; [done|done|congruence|].
    by eapply same_contents_trans.
  - intros Hm. unfold kmalloc, locked_heap, acquire_spinlock.
    by rewrite (proj2 (Z.eqb_neq _ _) Hm).
Qed.
End kernel_heaps.

(** A kernel whose heap grows through the page tables of [mmu0]. *)
Definition kernel1 : kernel (P := mmu) :=
  {| kcpu := {| rflags := 0x202 |}; kmemory := Build_kst (mem st0) mmu0;
     kernelGlobalHeap := heap0; kernelSleepHeap := blank_heap; kernelSignalHeap := blank_heap |}.

Lemma kernel1_ready : heap_ready kernelGlobalHeap [] kernel1.
Proof.
  split_and!; [done| |exists chain0; split; [apply heap0_inv|done]].
  exists {[root0 := 3%nat]}. split_and!; [split; [apply mmu0_ok|apply mmu0_live]|done|].
  by intros t ?%elem_of_nil.
Qed.

Lemma kernel1_alloc : @al_ok _ _ kmalloc_allocator_ok ∅ kernel1.
Proof. exists []. split; [apply kernel1_ready|done]. Qed.

Lemma kmalloc_kfree_witness :
  ∃ r k1 k2, kmalloc 5000 kernel1 = Done (r, k1) ∧ kfree r k1 = Done k2 ∧ kcpu k2 = kcpu kernel1.
Proof.
  destruct (kmalloc_kfree 5000 [] kernel1) as [H _]; [lia|unfold HDR, PAGESIZE; lia|].
  destruct (H kernel1_ready) as [_ H1].
  destruct (is_done_returns (kmalloc 5000 kernel1)) as [[r k1] E]; [by vm_compute|].
  destruct (H1 r k1 E) as (_ & _ & _ & k2 & H2 & _ & H3 & _).
  exists r, k1, k2. split; [exact E|split; [exact H2|exact H3]].
Defined.
