(* ===== verification/KernelStack.v ===== *)
(** * Stacks from the kernel heap (src/src/memory/heap.c, _stackalloc, kstackalloc)

    Stacks are carved downwards from the top of the heap's range, a page of it left unmapped
    below each.  The lemmas say where a stack lies and that the blocks of the heap are left
    alone. *)
From stdpp Require Import gmap.
From S2P Require Import Prelude Dll Concurrency PageAlloc PageService Paging Heap HeapInv HeapGrow HeapSpec Alloc KernelHeap.
#[local] Open Scope Z_scope.

Section stacks.
Context {P : Type} `{PageServiceOk P}.
Implicit Types k : kernel (P := P).

(** The stack lock is free. *)
Definition stacks_ready k : Prop := mut (stack_lock (kernelGlobalHeap k)) = 0.

(** [kmalloc] does not touch the stacks. *)
Lemma kmalloc_stacks size k r k' :
  kmalloc size k = Done (r, k') →
  stack_lock (kernelGlobalHeap k') = stack_lock (kernelGlobalHeap k) ∧
  lastStack (kernelGlobalHeap k') = lastStack (kernelGlobalHeap k).
Proof.
  unfold kmalloc, locked_heap. intros E. apply bind_done_inv in E as ([[[r1 c1] h1] s1] & E & [= <- <-]).
  apply bind_done_inv in E as ([c l] & _ & E). apply bind_done_inv in E as ([[r2 h2] s2] & E & E').
  apply malloc_rec_fixed in E. destruct (release_spinlock c (heap_lock h2)) as [c3 l3]. injection E' as -> -> <- ->.
  unfold fixed in E. cbn in *. by injection E.
Qed.

Lemma heap_inv_stack h m l v x : heap_inv h m l → heap_inv (with_stack_lock x (with_lastStack v h)) m l.
Proof. by intros []. Qed.

(** One page of a stack in the current directory. *)
Lemma stack_page_ok pd perms h (p : P) :
  ps_ok [] p →
  returns_or_panics (stack_page pd pd perms (h, p)) ∧
  ∀ h' p', stack_page pd pd perms (h, p) = Done (h', p') → ps_ok [] p' ∧ h' = with_lastStack (u64 (lastStack h - PAGESIZE)) h.
Proof.
  intros Hp. unfold stack_page. cbn [lastStack with_lastStack].
  destruct (ps_request_current_page_at_ok [] (u64 (lastStack h - PAGESIZE)) perms p Hp) as [Hret Hpost].
  destruct Hret as [[[a p1] E]|[why E]]; rewrite E; [|by split; [apply rop_panic|]].
  destruct (Hpost a p1 E) as [-> Hp1]. rewrite bind_done. case_match; [by split; [apply rop_panic|]|].
  rewrite Z.eqb_refl. cbn [negb]. rewrite !bind_done. split; [apply rop_done|]. by intros h' p' [= <- <-].
Qed.

Lemma stack_pages n pd perms : ∀ i h (p : P),
  ps_ok [] p →
  returns_or_panics (for_up n i (λ _ x, stack_page pd pd perms x) (h, p)) ∧
  ∀ h' p', for_up n i (λ _ x, stack_page pd pd perms x) (h, p) = Done (h', p') →
    ps_ok [] p' ∧ (∃ v, h' = with_lastStack v h) ∧
    (Z.of_nat n * PAGESIZE ≤ lastStack h < 2 ^ 64 → lastStack h' = lastStack h - Z.of_nat n * PAGESIZE).
Proof.
  induction n as [|n IH]; intros i h p Hp; cbn [for_up].
  - split; [apply rop_done|]. intros h' p' [= <- <-]. split_and!; [done|exists (lastStack h); by destruct h|lia].
  - destruct (stack_page_ok pd perms h p Hp) as [Hret Hpost].
    destruct Hret as [[[h1 p1] E]|[why E]]; rewrite E; [|by split; [apply rop_panic|]].
    destruct (Hpost h1 p1 E) as [Hp1 ->]. rewrite bind_done.
    destruct (IH (i + 1) (with_lastStack (u64 (lastStack h - PAGESIZE)) h) p1 Hp1) as [Hr2 Hp2].
    split; [done|]. intros h' p' E'. destruct (Hp2 h' p' E') as (Hok & (v & ->) & Hv).
    split_and!; [done|by exists v|]. intros Hrange. rewrite Hv; cbn [lastStack with_lastStack];
      rewrite u64_small; unfold PAGESIZE in *; lia.
Qed.

(** [kstackalloc] returns the lowest address of a stack that ends where the last one began. *)
Lemma kstackalloc_ok n L k :
  blocks_ready kernelGlobalHeap L k → stacks_ready k → 0 ≤ n → n mod PAGESIZE = 0 →
  returns_or_panics (kstackalloc n k) ∧
  ∀ a k', kstackalloc n k = Done (a, k') →
    blocks_ready kernelGlobalHeap L k' ∧ stacks_ready k' ∧ kcpu k' = kcpu k ∧
    (n + PAGESIZE ≤ lastStack (kernelGlobalHeap k) < 2 ^ 64 →
      a = lastStack (kernelGlobalHeap k) - n ∧ lastStack (kernelGlobalHeap k') = a - PAGESIZE).
Proof.
  intros (b & (Hm & Hp & l & Hi & Hl) & ->) Hs Hn Hmod. unfold kstackalloc, locked_stack, _stackalloc. cbn [pages].
  destruct (acquire_spinlock (kcpu k) (stack_lock (kernelGlobalHeap k))) as [[c x]| | | |] eqn:E;
    try (unfold acquire_spinlock in E; by rewrite Hs in E).
  pose proof (release_acquire _ _ _ _ E) as Hrel. rewrite !bind_done.
  rewrite Hmod, Z.eqb_refl. cbn [negb].
  destruct (stack_pages (Z.to_nat (n / PAGESIZE)) (ps_get_pml4 (pages (kmemory k)))
    (if isKernel (with_stack_lock x (kernelGlobalHeap k)) =? 0 then Z.lor PAGE_WRITE_BIT PAGE_USER_BIT else PAGE_WRITE_BIT)
    0 (with_stack_lock x (kernelGlobalHeap k)) (pages (kmemory k)) Hp) as [Hret Hpost].
  destruct Hret as [[[h1 p1] E1]|[why E1]]; rewrite E1; [|by split; [apply rop_panic|]].
  destruct (Hpost h1 p1 E1) as (Hp1 & (v & ->) & Hv). rewrite !bind_done. cbn [stack_lock with_stack_lock with_lastStack].
  rewrite Hrel, !bind_done. split; [apply rop_done|]. intros a k' [= <- <-]. cbn [lastStack with_lastStack with_stack_lock] in *.
  split_and!; [| done | done |].
  - exists b. split; [|done]. split_and!; [done|done|]. exists l. split; [|done]. cbn. by destruct Hi.
  - assert (Hq : n = n / PAGESIZE * PAGESIZE) by (pose proof (Z.div_mod n PAGESIZE); unfold PAGESIZE in *; lia).
    intros Hrange. assert (0 ≤ n / PAGESIZE) by (apply Z.div_pos; unfold PAGESIZE; lia).
    rewrite Z2Nat.id in Hv by done. rewrite <- Hq in Hv. cbn. rewrite Hv by (unfold PAGESIZE in *; lia).
    rewrite u64_small by (unfold PAGESIZE in *; lia). lia.
Qed.
End stacks.
