(* ===== verification/LinkedList.v ===== *)
(** * Linked lists (src/src/util/lists.c, lists.h)

    Lists and nodes live in blocks taken from the kernel heap: [lists] and [nodes] hold
    the structures by address, [heap_of] is the allocator.  A freed block is no longer
    readable. *)
From S2P Require Import Prelude Dll PageService Alloc.
From stdpp Require Import gmap.
#[local] Open Scope Z_scope.

Record node := { n_data : Z; n_next : Z; n_prev : Z }.
Record linked_list := { ll_size : Z; ll_head : Z; ll_tail : Z }.

#[global] Instance node_link : LinkNode node Z := λ d nx pv,
  {| n_data := d; n_next := nx; n_prev := pv |}.

Record lstore (A : Type) := { nodes : gmap Z node; lists : gmap Z linked_list; heap_of : A }.
Arguments nodes {A}.
Arguments lists {A}.
Arguments heap_of {A}.
Arguments Build_lstore {A}.

(** sizeof(struct linked_list) and sizeof(struct node). *)
Definition LIST_SIZE : Z := 24.
Definition NODE_SIZE : Z := 24.

Section ops.
Context {A : Type} `{Allocator A}.
Implicit Types s : lstore A.

Definition get_list s (p : Z) : outcome linked_list := known (lists s !! p).
Definition put_list (p : Z) (l : linked_list) s : lstore A :=
  Build_lstore (nodes s) (<[p := l]> (lists s)) (heap_of s).
Definition get_node s (p : Z) : outcome node := known (nodes s !! p).
Definition put_node (p : Z) (n : node) s : lstore A :=
  Build_lstore (<[p := n]> (nodes s)) (lists s) (heap_of s).

Definition set_next (p v : Z) s : outcome (lstore A) :=
  n ← get_node s p; Done (put_node p {| n_data := n_data n; n_next := v; n_prev := n_prev n |} s).
Definition set_prev (p v : Z) s : outcome (lstore A) :=
  n ← get_node s p; Done (put_node p {| n_data := n_data n; n_next := n_next n; n_prev := v |} s).
Definition set_head (p v : Z) s : outcome (lstore A) :=
  l ← get_list s p; Done (put_list p {| ll_size := ll_size l; ll_head := v; ll_tail := ll_tail l |} s).
Definition set_tail (p v : Z) s : outcome (lstore A) :=
  l ← get_list s p; Done (put_list p {| ll_size := ll_size l; ll_head := ll_head l; ll_tail := v |} s).
Definition set_size (p v : Z) s : outcome (lstore A) :=
  l ← get_list s p; Done (put_list p {| ll_size := v; ll_head := ll_head l; ll_tail := ll_tail l |} s).

Definition kfree_node (p : Z) s : outcome (lstore A) :=
  h ← al_free p (heap_of s); Done (Build_lstore (delete p (nodes s)) (lists s) h).
Definition kfree_list (p : Z) s : outcome (lstore A) :=
  h ← al_free p (heap_of s); Done (Build_lstore (nodes s) (delete p (lists s)) h).

Definition linked_list_create s : outcome (Z * lstore A) :=
  '(p, h) ← al_malloc LIST_SIZE (heap_of s);
  Done (p, Build_lstore (nodes s) (<[p := {| ll_size := 0; ll_head := 0; ll_tail := 0 |}]> (lists s)) h).

Definition linked_list_add (list data : Z) s : outcome (lstore A) :=
  '(n, h) ← al_malloc NODE_SIZE (heap_of s);
  let s := Build_lstore (<[n := {| n_data := data; n_next := 0; n_prev := 0 |}]> (nodes s)) (lists s) h in
  l ← get_list s list;
  s ← (if ll_size l =? 0 then
         s ← set_head list n s;
         set_tail list n s
       else
         s ← set_next (ll_tail l) n s;
         s ← set_prev n (ll_tail l) s;
         set_tail list n s);
  l ← get_list s list;
  set_size list (s32 (ll_size l + 1)) s.

(** The body of the match in [linked_list_remove] and [linked_list_remove_at]. *)
Definition unlink_node (list p : Z) s : outcome (lstore A) :=
  n ← get_node s p;
  s ← (if negb (n_prev n =? 0) then set_next (n_prev n) (n_next n) s
       else set_head list (n_next n) s);
  n ← get_node s p;
  s ← (if negb (n_next n =? 0) then set_prev (n_next n) (n_prev n) s
       else set_tail list (n_prev n) s);
  s ← kfree_node p s;
  l ← get_list s list;
  set_size list (s32 (ll_size l - 1)) s.

(** No walk visits more nodes than there are. *)
Definition walk_fuel s : nat := S (size (nodes s)).

Definition linked_list_remove (list data : Z) s : outcome (lstore A) :=
  l ← get_list s list;
  loop (walk_fuel s) (λ p : Z,
    if p =? 0 then Done (inr s) else
    n ← get_node s p;
    if n_data n =? data then s ← unlink_node list p s; Done (inr s) else Done (inl (n_next n)))
    (ll_head l).

Definition linked_list_remove_at (list index : Z) s : outcome (lstore A) :=
  l ← get_list s list;
  loop (walk_fuel s) (λ '(p, i),
    if p =? 0 then Done (inr s) else
    n ← get_node s p;
    if i =? index then s ← unlink_node list p s; Done (inr s)
    else Done (inl (n_next n, s32 (i + 1))))
    (ll_head l, 0).

Definition linked_list_remove_all (list : Z) s : outcome (lstore A) :=
  l ← get_list s list;
  s ← loop (walk_fuel s) (λ '(p, s),
        if p =? 0 then Done (inr s) else
        n ← get_node s p;
        s ← kfree_node p s;
        Done (inl (n_next n, s)))
        (ll_head l, s);
  s ← set_size list 0 s;
  s ← set_head list 0 s;
  set_tail list 0 s.

Definition linked_list_destroy (list : Z) s : outcome (lstore A) :=
  s ← linked_list_remove_all list s;
  kfree_list list s.

Definition linked_list_get (list index : Z) s : outcome Z :=
  l ← get_list s list;
  loop (walk_fuel s) (λ '(p, i),
    if p =? 0 then Done (inr 0) else
    n ← get_node s p;
    if i =? index then Done (inr (n_data n)) else Done (inl (n_next n, s32 (i + 1))))
    (ll_head l, 0).

Definition linked_list_get_first (list : Z) s : outcome Z :=
  l ← get_list s list; n ← get_node s (ll_head l); Done (n_data n).

Definition linked_list_get_last (list : Z) s : outcome Z :=
  l ← get_list s list; n ← get_node s (ll_tail l); Done (n_data n).

Definition linked_list_size (list : Z) s : outcome Z :=
  l ← get_list s list; Done (ll_size l).

Definition linked_list_index_of (list data : Z) s : outcome Z :=
  l ← get_list s list;
  loop (walk_fuel s) (λ '(p, i),
    if p =? 0 then Done (inr (-1)) else
    n ← get_node s p;
    if n_data n =? data then Done (inr i) else Done (inl (n_next n, s32 (i + 1))))
    (ll_head l, 0).
End ops.

(** ** The contract: a list is a sequence of data pointers *)
Inductive list_op :=
| Add (d : Z) | Remove (d : Z) | RemoveAt (i : Z) | RemoveAll
| Get (i : Z) | GetFirst | GetLast | Size | IndexOf (d : Z).

Fixpoint remove_first (d : Z) (l : list Z) : list Z :=
  match l with [] => [] | x :: l => if x =? d then l else x :: remove_first d l end.

Fixpoint index_from (d i : Z) (l : list Z) : Z :=
  match l with [] => -1 | x :: l => if x =? d then i else index_from d (i + 1) l end.

Definition at_index (i : Z) (l : list Z) : option Z := if i <? 0 then None else l !! Z.to_nat i.

(** The result of the operation and the new contents; [None]: the operation
    dereferences NULL. *)
Definition list_spec (op : list_op) (l : list Z) : option (Z * list Z) :=
  match op with
  | Add d => Some (0, l ++ [d])
  | Remove d => Some (0, remove_first d l)
  | RemoveAt i => Some (0, if i <? 0 then l else delete (Z.to_nat i) l)
  | RemoveAll => Some (0, [])
  | Get i => Some (default 0 (at_index i l), l)
  | GetFirst => x ← head l; Some (x, l)
  | GetLast => x ← last l; Some (x, l)
  | Size => Some (Z.of_nat (List.length l), l)
  | IndexOf d => Some (index_from d 0 l, l)
  end.

Section exec.
Context {A : Type} `{Allocator A}.

Definition list_exec (op : list_op) (list : Z) (s : lstore A) : outcome (Z * lstore A) :=
  match op with
  | Add d => s ← linked_list_add list d s; Done (0, s)
  | Remove d => s ← linked_list_remove list d s; Done (0, s)
  | RemoveAt i => s ← linked_list_remove_at list i s; Done (0, s)
  | RemoveAll => s ← linked_list_remove_all list s; Done (0, s)
  | Get i => r ← linked_list_get list i s; Done (r, s)
  | GetFirst => r ← linked_list_get_first list s; Done (r, s)
  | GetLast => r ← linked_list_get_last list s; Done (r, s)
  | Size => r ← linked_list_size list s; Done (r, s)
  | IndexOf d => r ← linked_list_index_of list d s; Done (r, s)
  end.
End exec.
