(* ===== verification/LinkedListSpec.v ===== *)
(** * Linked lists implement sequences

    [list_rep s p F l]: the list structure at [p] holds the nodes [l]; [F] are the
    other blocks in use. *)
From stdpp Require Import gmap.
From S2P Require Import Prelude Dll PageService Alloc Paging Heap KernelHeap LinkedList.
#[local] Open Scope Z_scope.

Section spec.
Context {A : Type} `{AllocatorOk A}.
Implicit Types (s : lstore A) (l : list (Z * Z)) (F : gset Z).

Record list_rep s (p : Z) F l : Prop := {
  lr_list : lists s !! p =
    Some {| ll_size := Z.of_nat (List.length l); ll_head := hd_addr l 0; ll_tail := lst_addr 0 l |};
  lr_nodes : dseg (nodes s) 0 l 0;
  lr_nodup : NoDup l.*1;
  lr_heap : al_ok (list_to_set l.*1 ∪ F) (heap_of s);
  lr_frame : ∀ a, a ∈ l.*1 → a ∉ F;
  lr_null : nodes s !! 0 = None;
}.

(** Nodes of other lists keep their contents. *)
Definition others_kept F s s' : Prop := ∀ a, a ∈ F → nodes s' !! a = nodes s !! a.

Lemma rep_node s p F l1 a d l2 :
  list_rep s p F (l1 ++ (a, d) :: l2) →
  a ≠ 0 ∧ get_node s a = Done {| n_data := d; n_next := hd_addr l2 0; n_prev := lst_addr 0 l1 |}.
Proof.
  intros Hr. destruct (dseg_lookup _ _ _ _ _ _ _ (lr_nodes _ _ _ _ Hr)) as [Ha E].
  split; [done|]. unfold get_node. by rewrite E.
Qed.

Lemma rep_list s p F l :
  list_rep s p F l → get_list s p =
  Done {| ll_size := Z.of_nat (List.length l); ll_head := hd_addr l 0; ll_tail := lst_addr 0 l |}.
Proof. intros Hr. unfold get_list. by rewrite (lr_list _ _ _ _ Hr). Qed.

Lemma rep_fuel s p F l : list_rep s p F l → (List.length l < walk_fuel s)%nat.
Proof.
  intros Hr. unfold walk_fuel. enough (List.length l ≤ size (nodes s))%nat by lia.
  eapply dseg_size; [apply Hr|apply (lr_nodes _ _ _ _ Hr)].
Qed.

Lemma set_size_ok s p (l : linked_list) v :
  lists s !! p = Some l → set_size p v s =
  Done (put_list p {| ll_size := v; ll_head := ll_head l; ll_tail := ll_tail l |} s).
Proof. intros E. unfold set_size, get_list. by rewrite E. Qed.

Lemma get_list_ok s p (l : linked_list) : lists s !! p = Some l → get_list s p = Done l.
Proof. unfold get_list. by intros ->. Qed.

Lemma get_node_ok s a n : nodes s !! a = Some n → get_node s a = Done n.
Proof. unfold get_node. by intros ->. Qed.

(** ** Taking a node out *)
Lemma relink_prev s p F l1 a d l2 :
  list_rep s p F (l1 ++ (a, d) :: l2) →
  ∃ s1, (if negb (lst_addr 0 l1 =? 0) then set_next (lst_addr 0 l1) (hd_addr l2 0) s
         else set_head p (hd_addr l2 0) s) = Done s1 ∧
    heap_of s1 = heap_of s ∧
    lists s1 !! p = Some {| ll_size := Z.of_nat (List.length (l1 ++ (a, d) :: l2));
                            ll_head := hd_addr (l1 ++ l2) 0;
                            ll_tail := lst_addr 0 (l1 ++ (a, d) :: l2) |} ∧
    (∀ l0 b e, l1 = l0 ++ [(b, e)] → nodes s1 !! b = Some (link_mk e (hd_addr l2 0) (lst_addr 0 l0))) ∧
    (∀ b, b = 0 ∨ b ≠ lst_addr 0 l1 → nodes s1 !! b = nodes s !! b).
Proof.
  intros Hr. destruct l1 as [|[b e] l0 _] using rev_ind.
  - cbn [lst_addr Z.eqb negb]. unfold set_head. rewrite (rep_list _ _ _ _ Hr), bind_done.
    eexists. split; [done|]. cbn. rewrite lookup_insert_eq. split_and!; try done.
    by intros [].
  - rewrite lst_addr_snoc. rewrite <- app_assoc in *. cbn [app] in *.
    destruct (rep_node _ _ _ _ _ _ _ Hr) as [Hb0 Eb]. cbn [hd_addr] in Eb.
    rewrite (proj2 (Z.eqb_neq b 0)) by done. cbn [negb]. unfold set_next. rewrite Eb, bind_done.
    eexists. split; [done|]. cbn. split_and!; try done.
    + rewrite (lr_list _ _ _ _ Hr). do 2 f_equal. rewrite !hd_addr_app. by destruct l0 as [|[]].
    + intros l3 c x E. apply app_inj_tail in E as [<- [= <- <-]]. by rewrite lookup_insert_eq.
    + intros c Hc. apply lookup_insert_ne. naive_solver.
Qed.

Lemma rep_nodup_mid s p F l1 a d l2 :
  list_rep s p F (l1 ++ (a, d) :: l2) →
  NoDup (l1 ++ l2).*1 ∧ (a ∉ (l1 ++ l2).*1) ∧ (lst_addr 0 l1 = 0 ∨ lst_addr 0 l1 ∉ l2.*1).
Proof.
  intros Hr. destruct (nodup_mid _ _ _ _ (lr_nodup _ _ _ _ Hr)) as (Hn & H1 & H2 & H12).
  split_and!; [done|by rewrite fmap_app, not_elem_of_app|].
  destruct l1 as [|x l1]; [by left|right]. apply H12. by apply lst_addr_elem.
Qed.

(** A block of another structure is none of the nodes. *)
Lemma rep_outside s p F l1 a d l2 b :
  list_rep s p F (l1 ++ (a, d) :: l2) → b ∈ F →
  a ≠ b ∧ (b = 0 ∨ b ≠ lst_addr 0 l1) ∧ (b = 0 ∨ b ≠ hd_addr l2 0).
Proof.
  intros Hr Hb. pose proof (lr_frame _ _ _ _ Hr) as HF. rewrite fmap_app in HF. cbn in HF.
  split_and!.
  - intros ->. apply (HF b); [set_solver|done].
  - destruct l1 as [|x l1]; [cbn; destruct (decide (b = 0)); auto|right]. intros ->.
    apply (HF _) in Hb; [done|]. apply elem_of_app. left. by apply lst_addr_elem.
  - destruct l2 as [|[c x] l2]; [cbn; destruct (decide (b = 0)); auto|right]. cbn. intros ->.
    apply (HF c); [set_solver|done].
Qed.

(** The second half: the next node, or the tail of the list. *)
Lemma relink_next s1 p sz hd tl l1 a d l2 :
  lists s1 !! p = Some {| ll_size := sz; ll_head := hd; ll_tail := tl |} →
  tl = lst_addr 0 (l1 ++ (a, d) :: l2) →
  (∀ b e l3, l2 = (b, e) :: l3 → b ≠ 0 ∧ nodes s1 !! b = Some (link_mk e (hd_addr l3 0) a)) →
  ∃ s2, (if negb (hd_addr l2 0 =? 0) then set_prev (hd_addr l2 0) (lst_addr 0 l1) s1
         else set_tail p (lst_addr 0 l1) s1) = Done s2 ∧
    heap_of s2 = heap_of s1 ∧
    lists s2 !! p = Some {| ll_size := sz; ll_head := hd; ll_tail := lst_addr 0 (l1 ++ l2) |} ∧
    (∀ b e l3, l2 = (b, e) :: l3 → nodes s2 !! b = Some (link_mk e (hd_addr l3 0) (lst_addr 0 l1))) ∧
    (∀ b, b = 0 ∨ b ≠ hd_addr l2 0 → nodes s2 !! b = nodes s1 !! b).
Proof.
  intros El -> Hn. destruct l2 as [|[b e] l3].
  - cbn [hd_addr Z.eqb negb]. unfold set_tail, get_list. rewrite El. cbn.
    eexists. split; [done|]. cbn. rewrite lookup_insert_eq, app_nil_r. split_and!; done.
  - destruct (Hn b e l3 eq_refl) as [Hb Eb]. cbn [hd_addr].
    rewrite (proj2 (Z.eqb_neq b 0)) by done. cbn [negb]. unfold set_prev, get_node. rewrite Eb. cbn.
    eexists. split; [done|]. cbn. split_and!; try done.
    + rewrite El. do 2 f_equal. by rewrite !lst_addr_app.
    + intros c x l4 [= <- <- <-]. by rewrite lookup_insert_eq.
    + intros c Hc. apply lookup_insert_ne. naive_solver.
Qed.

Lemma unlink_ok s p F l1 a d l2 :
  list_rep s p F (l1 ++ (a, d) :: l2) → Z.of_nat (List.length (l1 ++ (a, d) :: l2)) < 2 ^ 31 →
  ∃ s', unlink_node p a s = Done s' ∧ list_rep s' p F (l1 ++ l2) ∧ others_kept F s s'.
Proof.
  intros Hr Hlen. destruct (rep_node _ _ _ _ _ _ _ Hr) as [Ha Ea].
  destruct (rep_nodup_mid _ _ _ _ _ _ _ Hr) as (Hnd & Hanot & Hl1).
  destruct (relink_prev _ _ _ _ _ _ _ Hr) as (s1 & E1 & Hh1 & Hl & Hlast & Hk1).
  assert (a ≠ lst_addr 0 l1) as Hal.
  { intros ->. destruct l1 as [|x l1]; [done|]. apply Hanot. rewrite fmap_app. apply elem_of_app. left.
    by apply lst_addr_elem. }
  destruct (relink_next s1 p _ _ _ l1 a d l2 Hl eq_refl) as (s2 & E2 & Hh2 & Hl2 & Hfst & Hk2).
  { intros b e l3 ->. pose proof (lr_nodes _ _ _ _ Hr) as Hd. rewrite dseg_app in Hd. cbn in Hd.
    destruct Hd as (_ & _ & _ & Hb & Eb & _). split; [done|]. rewrite Hk1; [done|].
    right. intros ->. destruct Hl1 as [|Hl1]; [done|]. apply Hl1. by left. }
  pose proof (lr_heap _ _ _ _ Hr) as Hal0.
  destruct (al_free_ok _ a _ Hal0) as (h' & Ef & Hok); [rewrite fmap_app; cbn; set_solver|].
  unfold unlink_node. rewrite Ea, bind_done. cbn [n_prev n_next]. rewrite E1, bind_done.
  unfold get_node at 1. rewrite Hk1 by (by right). unfold get_node in Ea. rewrite Ea, bind_done.
  cbn [n_prev n_next]. rewrite E2, bind_done. unfold kfree_node. rewrite Hh2, Hh1, Ef, !bind_done.
  unfold get_list at 1. cbn [lists]. rewrite Hl2. cbn [known]. rewrite bind_done.
  erewrite set_size_ok by exact Hl2. cbn. eexists. split; [done|]. split.
  - split; cbn.
    + rewrite lookup_insert_eq. do 2 f_equal. rewrite !length_app in *. cbn in *.
      rewrite s32_small by lia. lia.
    + apply dseg_unlink with (nodes s) a d; try done; [apply Hr| | |].
      * intros l0 b e ->. pose proof (lr_nodes _ _ _ _ Hr) as Hd. rewrite <- app_assoc in Hd.
        apply dseg_lookup in Hd as [Hb _]. rewrite lst_addr_snoc in *.
        rewrite lookup_delete_ne, Hk2; [by apply Hlast| |done]. right. intros ->.
        destruct Hl1 as [|Hl1]; [done|]. destruct l2 as [|[c x] l2]; cbn in *; [done|].
        apply Hl1. by left.
      * intros b e l3 ->. rewrite lookup_delete_ne; [by eapply Hfst|].
        intros ->. apply Hanot. rewrite !fmap_app. set_solver.
      * intros b Hb Hb1 Hb2. rewrite lookup_delete_ne by (intros ->; done).
        rewrite Hk2, Hk1 by auto. done.
    + done.
    + replace (list_to_set (l1 ++ l2).*1 ∪ F)
        with ((list_to_set (l1 ++ (a, d) :: l2).*1 ∪ F) ∖ {[a]} : gset Z); [done|].
      pose proof (lr_frame _ _ _ _ Hr a). rewrite !fmap_app in *. cbn in *. apply leibniz_equiv.
      set_solver.
    + intros b Hb. apply (lr_frame _ _ _ _ Hr). rewrite fmap_app in *. cbn. set_solver.
    + rewrite lookup_delete_ne by done. rewrite Hk2, Hk1 by auto. apply Hr.
  - intros b Hb. cbn. destruct (rep_outside _ _ _ _ _ _ _ _ Hr Hb) as (Hb0 & Hb1 & Hb2).
    rewrite lookup_delete_ne, Hk2, Hk1 by done. done.
Qed.

(** ** Walks *)
Lemma remove_walk d s p F fuel l1 l2 :
  list_rep s p F (l1 ++ l2) → Z.of_nat (List.length (l1 ++ l2)) < 2 ^ 31 →
  (List.length l2 < fuel)%nat →
  ∃ s' l', loop fuel (λ q : Z,
      if q =? 0 then Done (inr s) else
      n ← get_node s q;
      if n_data n =? d then s ← unlink_node p q s; Done (inr s) else Done (inl (n_next n)))
      (hd_addr l2 0) = Done s' ∧
    l'.*2 = l1.*2 ++ remove_first d l2.*2 ∧ list_rep s' p F l' ∧ others_kept F s s'.
Proof.
  revert l1 l2. induction fuel as [|fuel IH]; intros l1 [|[a x] l2] Hr Hlen Hf; cbn in Hf; [lia|lia| |].
  - exists s, l1. cbn. rewrite !app_nil_r in *. by split_and!.
  - cbn [loop hd_addr]. destruct (rep_node _ _ _ _ _ _ _ Hr) as [Ha Ea].
    rewrite (proj2 (Z.eqb_neq _ _) Ha), Ea, bind_done. cbn [n_data n_next fmap list_fmap snd remove_first].
    destruct (Z.eqb_spec x d).
    + destruct (unlink_ok _ _ _ _ _ _ _ Hr Hlen) as (s' & E & Hr' & Hk).
      rewrite E. exists s', (l1 ++ l2). by rewrite fmap_app.
    + destruct (IH (l1 ++ [(a, x)]) l2) as (s' & l' & E & Hl' & Hr' & Hk);
        [by rewrite <- app_assoc..|lia|].
      exists s', l'. cbn. rewrite E, Hl', fmap_app, <- app_assoc. done.
Qed.

Lemma remove_at_walk ix s p F fuel l1 l2 :
  list_rep s p F (l1 ++ l2) → Z.of_nat (List.length (l1 ++ l2)) < 2 ^ 31 →
  (List.length l2 < fuel)%nat → ¬ (0 ≤ ix < Z.of_nat (List.length l1)) →
  ∃ s' l', loop fuel (λ '(q, i),
      if q =? 0 then Done (inr s) else
      n ← get_node s q;
      if i =? ix then s ← unlink_node p q s; Done (inr s)
      else Done (inl (n_next n, s32 (i + 1))))
      (hd_addr l2 0, Z.of_nat (List.length l1)) = Done s' ∧
    l' = (if ix <? 0 then l1 ++ l2 else delete (Z.to_nat ix) (l1 ++ l2)) ∧
    list_rep s' p F l' ∧ others_kept F s s'.
Proof.
  revert l1 l2. induction fuel as [|fuel IH]; intros l1 [|[a x] l2] Hr Hlen Hf Hix; cbn in Hf; [lia|lia| |].
  - eexists s, _. cbn. rewrite !app_nil_r in *. split_and!; try done.
    destruct (Z.ltb_spec ix 0); [done|]. by rewrite delete_take_drop, take_ge, drop_ge, app_nil_r by lia.
  - cbn [loop hd_addr]. destruct (rep_node _ _ _ _ _ _ _ Hr) as [Ha Ea].
    rewrite (proj2 (Z.eqb_neq _ _) Ha), Ea, bind_done. cbn [n_data n_next].
    destruct (Z.eqb_spec (Z.of_nat (List.length l1)) ix) as [<-|Hne].
    + destruct (unlink_ok _ _ _ _ _ _ _ Hr Hlen) as (s' & E & Hr' & Hk).
      rewrite E. eexists s', _. rewrite !bind_done. split_and!; try done.
      destruct (Z.ltb_spec (Z.of_nat (List.length l1)) 0); [lia|].
      by rewrite Nat2Z.id, delete_middle.
    + rewrite bind_done. rewrite length_app in Hlen. cbn in Hlen.
      destruct (IH (l1 ++ [(a, x)]) l2) as (s' & l' & E & Hl' & Hr' & Hk);
        [rewrite <- app_assoc; try done; rewrite length_app; cbn; lia..|lia|rewrite length_app; cbn; lia|].
      exists s', l'. rewrite <- app_assoc in Hl'. cbn in Hl'. split_and!; try done.
      rewrite <- E. rewrite s32_small by lia. rewrite length_app. cbn [List.length]. do 3 f_equal. lia.
Qed.

(** [linked_list_get] and [linked_list_index_of] leave the store alone. *)
Lemma get_walk ix s p F fuel l1 l2 :
  list_rep s p F (l1 ++ l2) → Z.of_nat (List.length (l1 ++ l2)) < 2 ^ 31 →
  (List.length l2 < fuel)%nat → ¬ (0 ≤ ix < Z.of_nat (List.length l1)) →
  loop fuel (λ '(q, i),
    if q =? 0 then Done (inr 0) else
    n ← get_node s q;
    if i =? ix then Done (inr (n_data n)) else Done (inl (n_next n, s32 (i + 1))))
    (hd_addr l2 0, Z.of_nat (List.length l1)) = Done (default 0 (at_index ix (l1 ++ l2).*2)).
Proof.
  unfold at_index. revert l1 l2.
  induction fuel as [|fuel IH]; intros l1 [|[a x] l2] Hr Hlen Hf Hix; cbn in Hf; [lia|lia| |].
  - cbn. destruct (Z.ltb_spec ix 0); [done|]. rewrite app_nil_r.
    rewrite lookup_ge_None_2; [done|]. rewrite length_fmap. lia.
  - cbn [loop hd_addr]. destruct (rep_node _ _ _ _ _ _ _ Hr) as [Ha Ea].
    rewrite (proj2 (Z.eqb_neq _ _) Ha), Ea, bind_done. cbn [n_data n_next].
    destruct (Z.eqb_spec (Z.of_nat (List.length l1)) ix) as [<-|Hne].
    + rewrite bind_done. destruct (Z.ltb_spec (Z.of_nat (List.length l1)) 0); [lia|].
      rewrite Nat2Z.id, fmap_app, lookup_app_r; rewrite length_fmap; [|lia]. by rewrite Nat.sub_diag.
    + rewrite bind_done. rewrite length_app in Hlen. cbn in Hlen.
      assert ((l1 ++ (a, x) :: l2) = (l1 ++ [(a, x)]) ++ l2) as El by (by rewrite <- app_assoc).
      rewrite El in *. rewrite <- (IH (l1 ++ [(a, x)]) l2) by
        (first [exact Hr|rewrite ?length_app; cbn; lia]).
      rewrite s32_small by lia. rewrite length_app. cbn [List.length]. do 2 f_equal. lia.
Qed.

Lemma index_walk d s p F fuel l1 l2 :
  list_rep s p F (l1 ++ l2) → Z.of_nat (List.length (l1 ++ l2)) < 2 ^ 31 →
  (List.length l2 < fuel)%nat →
  loop fuel (λ '(q, i),
    if q =? 0 then Done (inr (-1)) else
    n ← get_node s q;
    if n_data n =? d then Done (inr i) else Done (inl (n_next n, s32 (i + 1))))
    (hd_addr l2 0, Z.of_nat (List.length l1)) =
  Done (index_from d (Z.of_nat (List.length l1)) l2.*2).
Proof.
  revert l1 l2.
  induction fuel as [|fuel IH]; intros l1 [|[a x] l2] Hr Hlen Hf; cbn in Hf; [lia|lia|done|].
  cbn [loop hd_addr]. destruct (rep_node _ _ _ _ _ _ _ Hr) as [Ha Ea].
  rewrite (proj2 (Z.eqb_neq _ _) Ha), Ea, bind_done. cbn [n_data n_next].
  cbn [fmap list_fmap snd index_from]. destruct (Z.eqb_spec x d); [done|].
  rewrite bind_done. rewrite length_app in Hlen. cbn in Hlen.
  assert ((l1 ++ (a, x) :: l2) = (l1 ++ [(a, x)]) ++ l2) as El by (by rewrite <- app_assoc).
  rewrite El in Hr. rewrite s32_small by lia.
  replace (Z.of_nat (List.length l1) + 1) with (Z.of_nat (List.length (l1 ++ [(a, x)])))
    by (rewrite length_app; cbn; lia).
  apply IH; [done|rewrite !length_app; cbn; lia|lia].
Qed.

(** ** Emptying *)
Lemma free_walk fuel F q l s :
  dseg (nodes s) q l 0 →
  NoDup l.*1 → al_ok (list_to_set l.*1 ∪ F) (heap_of s) → (∀ a, a ∈ l.*1 → a ∉ F) →
  nodes s !! 0 = None → (List.length l < fuel)%nat →
  ∃ s', loop fuel (λ '(q, s),
      if q =? 0 then Done (inr s) else
      n ← get_node s q;
      s ← kfree_node q s;
      Done (inl (n_next n, s))) (hd_addr l 0, s) = Done s' ∧
    lists s' = lists s ∧ al_ok F (heap_of s') ∧ nodes s' !! 0 = None ∧ others_kept F s s'.
Proof.
  revert q l s. induction fuel as [|fuel IH]; intros q [|[a d] l] s Hd Hnd Hal HF Hz Hf; cbn in Hf; [lia|lia| |].
  - exists s. cbn in *. rewrite (left_id_L ∅ (∪)) in Hal. by split_and!.
  - cbn [loop hd_addr]. cbn in Hd. destruct Hd as (Ha & Ea & Hd).
    cbn in Hnd. apply NoDup_cons in Hnd as [Hanot Hnd].
    rewrite (proj2 (Z.eqb_neq _ _) Ha). rewrite (get_node_ok _ _ _ Ea).
    destruct (al_free_ok _ a _ Hal) as (h' & Ef & Hok); [cbn; set_solver|].
    rewrite bind_done. 
    replace (kfree_node a s) with (Done (Build_lstore (delete a (nodes s)) (lists s) h'))
      by (unfold kfree_node; by rewrite Ef). rewrite !bind_done. cbn [n_next link_mk node_link].
    destruct (IH a l (Build_lstore (delete a (nodes s)) (lists s) h'))
      as (s' & E & Hl & Hal' & H0' & Hk); cbn; [|done| | | |lia|].
    + eapply dseg_frame; [|exact Hd]. intros b Hb. apply lookup_delete_ne. by intros ->.
    + replace (list_to_set l.*1 ∪ F) with ((list_to_set ((a, d) :: l).*1 ∪ F) ∖ {[a]} : gset Z); [done|].
      pose proof (HF a). cbn in *. apply leibniz_equiv. set_solver.
    + intros b Hb. apply HF. by right.
    + by rewrite lookup_delete_ne.
    + exists s'. split_and!; try done. intros b Hb. rewrite (Hk b Hb). cbn.
      apply lookup_delete_ne. intros ->. apply (HF b); [by left|done].
Qed.

Lemma remove_all_ok s p F l :
  list_rep s p F l →
  ∃ s', linked_list_remove_all p s = Done s' ∧ list_rep s' p F [] ∧ others_kept F s s'.
Proof.
  intros Hr. unfold linked_list_remove_all. rewrite (rep_list _ _ _ _ Hr), bind_done. cbn [ll_head].
  destruct (free_walk (walk_fuel s) F 0 l s) as (s1 & E & Hl & Hal & H0' & Hk);
    [apply Hr..|eapply rep_fuel, Hr|].
  rewrite E, bind_done. erewrite set_size_ok by (rewrite Hl; apply (lr_list _ _ _ _ Hr)).
  rewrite bind_done. unfold set_head, get_list. cbn. rewrite lookup_insert_eq. cbn.
  unfold set_tail, get_list. cbn. rewrite lookup_insert_eq. cbn.
  eexists. split; [done|]. split; [|done]. split; cbn; try done.
  - by rewrite lookup_insert_eq.
  - constructor.
  - by rewrite (left_id_L ∅ (∪)).
  - by intros a ?%elem_of_nil.
Qed.

(** ** Adding *)
Lemma link_last_ok s p F l r d h' :
  list_rep s p F l → r ≠ 0 → r ∉ l.*1 →
  let s0 := Build_lstore (<[r := {| n_data := d; n_next := 0; n_prev := 0 |}]> (nodes s)) (lists s) h' in
  ∃ s1, (if Z.of_nat (List.length l) =? 0 then
           s ← set_head p r s0; set_tail p r s
         else
           s ← set_next (lst_addr 0 l) r s0; s ← set_prev r (lst_addr 0 l) s; set_tail p r s) = Done s1 ∧
    heap_of s1 = h' ∧
    lists s1 !! p = Some {| ll_size := Z.of_nat (List.length l); ll_head := hd_addr (l ++ [(r, d)]) 0;
                            ll_tail := r |} ∧
    (∀ l0 b e, l = l0 ++ [(b, e)] → nodes s1 !! b = Some (link_mk e r (lst_addr 0 l0))) ∧
    nodes s1 !! r = Some (link_mk d 0 (lst_addr 0 l)) ∧
    (∀ b, b = 0 ∨ b ≠ lst_addr 0 l → b ≠ r → nodes s1 !! b = nodes s !! b).
Proof.
  intros Hr Hr0 Hrl s0. pose proof (lr_list _ _ _ _ Hr) as El.
  destruct l as [|[b e] l _] using rev_ind.
  - cbn [List.length Z.of_nat Z.eqb]. unfold set_head, get_list, s0. cbn. rewrite El. cbn.
    unfold set_tail, get_list. cbn. rewrite lookup_insert_eq. cbn.
    eexists. split; [done|]. cbn. rewrite !lookup_insert_eq. split_and!; try done.
    + by intros [].
    + intros b _ Hb. by apply lookup_insert_ne.
  - rewrite lst_addr_snoc, length_app in *. cbn [List.length] in *.
    destruct (dseg_lookup _ _ _ _ _ _ _ (lr_nodes _ _ _ _ Hr)) as [Hb Eb].
    assert (b ≠ r) as Hbr by (intros ->; apply Hrl; rewrite fmap_app; set_solver).
    rewrite (proj2 (Z.eqb_neq _ _)) by lia. unfold set_next, s0.
    erewrite get_node_ok by (cbn; rewrite lookup_insert_ne by done; exact Eb). rewrite !bind_done.
    unfold set_prev. erewrite get_node_ok by (cbn; rewrite lookup_insert_ne, lookup_insert_eq by done; done).
    rewrite !bind_done. unfold set_tail, get_list. cbn. rewrite El. cbn.
    eexists. split; [done|]. cbn. rewrite lookup_insert_eq. split_and!; try done.
    + do 2 f_equal. by destruct l as [|[]].
    + intros l0 c x E. apply app_inj_tail in E as [<- [= <- <-]].
      by rewrite lookup_insert_ne, lookup_insert_eq by done.
    + by rewrite lookup_insert_eq.
    + intros c Hc Hc'. rewrite !lookup_insert_ne; naive_solver.
Qed.

Lemma add_ok s p F l d :
  list_rep s p F l → Z.of_nat (List.length l) < 2 ^ 31 - 1 →
  returns_or_panics (linked_list_add p d s) ∧
  ∀ s', linked_list_add p d s = Done s' →
    (∃ a, list_rep s' p F (l ++ [(a, d)])) ∧ others_kept F s s'.
Proof.
  intros Hr Hlen. unfold linked_list_add.
  destruct (al_malloc_ok _ NODE_SIZE _ (lr_heap _ _ _ _ Hr)) as [Hrop Hm]; [unfold NODE_SIZE; lia|].
  apply (rop_bind (λ '(r, h'), (r ∉ (list_to_set l.*1 ∪ F : gset Z)) ∧
    al_ok ({[r]} ∪ (list_to_set l.*1 ∪ F)) h')); [done|intros [r h']; apply Hm|].
  intros [r h'] [Hnot Hok]. assert (r ≠ 0) as Hr0 by (eapply al_nonnull; [exact Hok|set_solver]).
  assert (r ∉ l.*1) as Hrl by set_solver. assert (r ∉ F) as HrF by set_solver.
  destruct (link_last_ok s p F l r d h' Hr Hr0 Hrl) as (s1 & E & Hh & Hl & Hlast & Hnew & Hk).
  erewrite get_list_ok by apply (lr_list _ _ _ _ Hr).
  rewrite bind_done. cbn [ll_size ll_tail]. rewrite E, bind_done.
  rewrite (get_list_ok _ _ _ Hl), bind_done.
  erewrite set_size_ok by exact Hl. split; [apply rop_done|]. intros s' [= <-]. split.
  - exists r. split; cbn.
    + rewrite lookup_insert_eq, lst_addr_snoc, length_app. cbn. rewrite s32_small by lia.
      do 2 f_equal. lia.
    + apply (dseg_snoc (nodes s)); try done; [apply Hr..|]. intros b Hb Hb'. apply Hk; [by right|by intros ->].
    + rewrite fmap_app. apply NoDup_app. split_and!; [apply Hr| |apply NoDup_singleton].
      intros b Hb ->%list_elem_of_singleton. done.
    + rewrite Hh. eapply (eq_rect _ (λ X, al_ok X h') Hok). rewrite fmap_app. cbn. set_solver.
    + intros b. rewrite fmap_app. intros [Hb|Hb]%elem_of_app; [by apply (lr_frame _ _ _ _ Hr)|].
      cbn in Hb. by apply list_elem_of_singleton in Hb as ->.
    + rewrite Hk by auto. apply Hr.
  - intros b Hb. apply Hk; [|by intros ->].
    destruct l as [|x l]; [cbn; destruct (decide (b = 0)); auto|right]. intros ->.
    eapply (lr_frame _ _ _ _ Hr); [|exact Hb]. by apply lst_addr_elem.
Qed.

(** ** Reads *)
Lemma get_first_ok s p F l :
  list_rep s p F l →
  linked_list_get_first p s = match l with [] => Fault | (_, d) :: _ => Done d end.
Proof.
  intros Hr. unfold linked_list_get_first. rewrite (rep_list _ _ _ _ Hr), bind_done. cbn [ll_head].
  destruct l as [|[a d] l]; cbn [hd_addr].
  - unfold get_node. by rewrite (lr_null _ _ _ _ Hr).
  - destruct (rep_node _ _ _ [] _ _ _ Hr) as [_ ->]. done.
Qed.

Lemma get_last_ok s p F l :
  list_rep s p F l →
  linked_list_get_last p s = match last l.*2 with None => Fault | Some d => Done d end.
Proof.
  intros Hr. unfold linked_list_get_last. rewrite (rep_list _ _ _ _ Hr), bind_done. cbn [ll_tail].
  destruct l as [|[a d] l _] using rev_ind.
  - cbn. unfold get_node. by rewrite (lr_null _ _ _ _ Hr).
  - rewrite lst_addr_snoc, fmap_app. cbn. rewrite last_snoc.
    destruct (rep_node _ _ _ _ _ _ [] Hr) as [_ ->]. done.
Qed.

(** C29: the doubly linked list of lists.c implements a sequence of pointers.  Every
    operation on a well-formed list returns the value the sequence gives and leaves a
    well-formed list with the contents the sequence has after it: adding at the end,
    removing the first occurrence or by index, emptying, reading by index, first and
    last, size and search.  Only the first and last element of an empty list fault.
    An operation stops otherwise only when the allocator panics, and the nodes of other
    lists are not touched. *)
Theorem linked_list_refines op s p F l :
  list_rep s p F l → Z.of_nat (List.length l) < 2 ^ 31 - 1 →
  match list_spec op l.*2 with
  | None => list_exec op p s = Fault
  | Some (r, ds) =>
      returns_or_panics (list_exec op p s) ∧
      ∀ r' s', list_exec op p s = Done (r', s') →
        r' = r ∧ (∃ l', l'.*2 = ds ∧ list_rep s' p F l') ∧ others_kept F s s'
  end.
Proof.
  intros Hr Hlen. pose proof (rep_fuel _ _ _ _ Hr) as Hf. pose proof (rep_list _ _ _ _ Hr) as El.
  assert (∀ (o : outcome Z) v, o = Done v → returns_or_panics (r ← o; Done (r, s)) ∧
    ∀ r' s', (r ← o; Done (r, s)) = Done (r', s') →
      r' = v ∧ (∃ l', l'.*2 = l.*2 ∧ list_rep s' p F l') ∧ others_kept F s s') as Hread.
  { intros o v ->. rewrite bind_done. split; [apply rop_done|]. intros ? ? [= <- <-]. split_and!; eauto.
    done. }
  assert (∀ (o : outcome (lstore A)) s1 l1, o = Done s1 → list_rep s1 p F l1 → others_kept F s s1 →
    returns_or_panics (s ← o; Done (0, s)) ∧
    ∀ r' s', (s ← o; Done (0, s)) = Done (r', s') →
      r' = 0 ∧ (∃ l', l'.*2 = l1.*2 ∧ list_rep s' p F l') ∧ others_kept F s s') as Hwrite.
  { intros o s1 l1 -> Hr1 Hk. rewrite bind_done. split; [apply rop_done|]. intros ? ? [= <- <-].
    split_and!; eauto. }
  destruct op as [d|d|i| |i| | | |d]; cbn [list_spec list_exec].
  - destruct (add_ok s p F l d Hr Hlen) as [Hrop Ha].
    destruct Hrop as [[s1 E]|[why E]]; rewrite E.
    + destruct (Ha _ E) as [[a Hr1] Hk]. rewrite bind_done. split; [apply rop_done|].
      intros ? ? [= <- <-]. split_and!; [done| |done]. eexists. split; [|exact Hr1]. by rewrite fmap_app.
    + split; [apply rop_panic|done].
  - destruct (remove_walk d s p F (walk_fuel s) [] l) as (s1 & l1 & E & El1 & Hr1 & Hk); [done|cbn; lia|done|].
    cbn in El1. rewrite <- El1. apply (Hwrite _ s1); [|done|done].
    unfold linked_list_remove. by rewrite El, bind_done.
  - destruct (remove_at_walk i s p F (walk_fuel s) [] l) as (s1 & l1 & E & El1 & Hr1 & Hk);
      [done|cbn; lia|done|cbn; lia|].
    cbn in El1. replace (if i <? 0 then _ else _) with l1.*2
      by (rewrite El1; case_match; [done|apply list_fmap_delete]).
    apply (Hwrite _ s1); [|done|done]. unfold linked_list_remove_at. by rewrite El, bind_done.
  - destruct (remove_all_ok s p F l Hr) as (s1 & E & Hr1 & Hk). by apply (Hwrite _ s1 []).
  - apply Hread. unfold linked_list_get. rewrite El, bind_done.
    apply (get_walk i s p F (walk_fuel s) [] l); [done|cbn; lia|done|cbn; lia].
  - rewrite (get_first_ok s p F l Hr). destruct l as [|[a d] l]; [done|]. by apply Hread.
  - rewrite (get_last_ok s p F l Hr). destruct (last l.*2); [|done]. by apply Hread.
  - apply Hread. unfold linked_list_size. by rewrite El, bind_done, length_fmap.
  - apply Hread. unfold linked_list_index_of. rewrite El, bind_done.
    apply (index_walk d s p F (walk_fuel s) [] l); [done|cbn; lia|done].
Qed.

(** Creating a list gives an empty one in a block that was not in use; destroying it
    gives back every block it holds. *)
Lemma create_ok s F :
  al_ok F (heap_of s) → nodes s !! 0 = None →
  returns_or_panics (linked_list_create s) ∧
  ∀ p s', linked_list_create s = Done (p, s') → (p ∉ F) ∧ list_rep s' p ({[p]} ∪ F) [].
Proof.
  intros Hal Hz. unfold linked_list_create.
  destruct (al_malloc_ok _ LIST_SIZE _ Hal) as [Hrop Hm]; [unfold LIST_SIZE; lia|].
  destruct Hrop as [[[r h'] E]|[why E]]; rewrite E; [|by split; [apply rop_panic|]].
  destruct (Hm _ _ E) as [Hnot Hok]. rewrite bind_done. split; [apply rop_done|].
  intros p s' [= <- <-]. split; [done|]. split; cbn; try done.
  - by rewrite lookup_insert_eq.
  - constructor.
  - by rewrite (left_id_L ∅ (∪)).
  - by intros a ?%elem_of_nil.
Qed.

(** [linked_list_destroy] gives back exactly the nodes of the list and the list
    structure itself: the allocator has the same blocks in use as before the list was
    created, and the structure is gone. *)
Lemma linked_list_destroy_frees s p F l :
  list_rep s p ({[p]} ∪ F) l → p ∉ F →
  ∃ s', linked_list_destroy p s = Done s' ∧ al_ok F (heap_of s') ∧ lists s' !! p = None ∧
    others_kept F s s'.
Proof.
  intros Hr Hp. unfold linked_list_destroy.
  destruct (remove_all_ok s p _ l Hr) as (s1 & -> & Hr1 & Hk). rewrite bind_done.
  unfold kfree_list. pose proof (lr_heap _ _ _ _ Hr1) as Hal.
  destruct (al_free_ok _ p _ Hal) as (h' & -> & Hok); [set_solver|]. rewrite bind_done.
  eexists. split; [done|]. cbn. split_and!.
  - eapply (eq_rect _ (λ X, al_ok X h') Hok). cbn. set_solver.
  - apply lookup_delete_eq.
  - intros b Hb. apply Hk. set_solver.
Qed.
End spec.

(** ** On the kernel heap *)
#[local] Existing Instance kmalloc_allocator.
#[local] Existing Instance kmalloc_allocator_ok.

Definition lstore1 : lstore (kernel (P := mmu)) := Build_lstore ∅ ∅ kernel1.

Lemma linked_list_refines_witness :
  ∃ p s1 s2, linked_list_create lstore1 = Done (p, s1) ∧ list_exec (Add 42) p s1 = Done (0, s2) ∧
    ∃ l, l.*2 = [42] ∧ list_rep s2 p ({[p]} ∪ ∅) l.
Proof.
  destruct (create_ok lstore1 ∅ kernel1_alloc eq_refl) as [_ Hc].
  destruct (is_done_returns (linked_list_create lstore1)) as [[p s1] E1]; [by vm_compute|].
  destruct (Hc p s1 E1) as [_ Hr].
  destruct (is_done_returns ('(p, s) ← linked_list_create lstore1; list_exec (Add 42) p s))
    as [[r s2] E2]; [by vm_compute|].
  rewrite E1, bind_done in E2.
  destruct (linked_list_refines (Add 42) s1 p ({[p]} ∪ ∅) [] Hr) as [_ H]; [cbn; lia|].
  destruct (H r s2 E2) as (-> & Hl & _). exists p, s1, s2. split_and!; [exact E1|exact E2|exact Hl].
Defined.
