(* ===== verification/CircularBuffer.v ===== *)
(** * The circular byte buffer (src/src/util/lists.c, lists.h)

    One block of the kernel heap holds the structure and, after it, the data bytes.
    A byte that was never written is [None]: reading it, or copying past the end of the
    data area or of the source, is a fault. *)
From stdpp Require Import gmap.
From S2P Require Import Prelude PageService Alloc Paging Heap KernelHeap.
#[local] Open Scope Z_scope.

Record circular_buffer := {
  cb_size : Z;
  cb_dataSize : Z;
  cb_tailOffset : Z;
  cb_headOffset : Z;
  cb_buffer : list (option Z);
}.

(** [memcpy(&buffer[off], src, size)]: [size] is converted to [uint64_t]. *)
Definition copy_in (buf : list (option Z)) (off : Z) (src : list Z) (size : Z)
  : outcome (list (option Z)) :=
  let n := u64 size in
  if n =? 0 then Done buf else
  if (0 <=? off) && (off + n <=? Z.of_nat (List.length buf)) && (n <=? Z.of_nat (List.length src)) then
    Done (take (Z.to_nat off) buf ++ (Some <$> take (Z.to_nat n) src)
          ++ drop (Z.to_nat (off + n)) buf)
  else Fault.

(** [memcpy(dst, &buffer[off], size)]: the bytes that arrive at [dst]. *)
Definition copy_out (buf : list (option Z)) (off size : Z) : outcome (list Z) :=
  let n := u64 size in
  if n =? 0 then Done [] else
  if (0 <=? off) && (off + n <=? Z.of_nat (List.length buf)) then
    known (mapM id (take (Z.to_nat n) (drop (Z.to_nat off) buf)))
  else Fault.

Definition CircularBufferReset (c : circular_buffer) : circular_buffer :=
  {| cb_size := cb_size c; cb_dataSize := 0; cb_tailOffset := -1; cb_headOffset := -1;
     cb_buffer := cb_buffer c |}.

Definition CircularBufferGetCapacity (c : circular_buffer) : Z := cb_size c.
Definition CircularBufferGetSize (c : circular_buffer) : Z := cb_size c.
Definition CircularBufferGetDataSize (c : circular_buffer) : Z := cb_dataSize c.

Definition CircularBufferPush (c : circular_buffer) (src : list Z) (length : Z)
  : outcome circular_buffer :=
  if length =? 0 then Done c else
  let '(writableLen, pSrc) :=
    if length >? cb_size c then (cb_size c, drop (Z.to_nat (length - cb_size c)) src)
    else (length, src) in
  let tail := cb_tailOffset c in
  let head := cb_headOffset c in
  '(buf, tail', resetHead) ←
    (if s32 (tail + writableLen) <? cb_size c then
       b ← copy_in (cb_buffer c) (tail + 1) pSrc writableLen;
       Done (b, s32 (tail + writableLen), (tail <? head) && (s32 (tail + writableLen) >=? head))
     else
       let remainSize := s32 (cb_size c - tail - 1) in
       b ← copy_in (cb_buffer c) (tail + 1) pSrc remainSize;
       let coverSize := s32 (writableLen - remainSize) in
       b ← copy_in b 0 (drop (Z.to_nat remainSize) pSrc) coverSize;
       Done (b, s32 (coverSize - 1), if tail <? head then true else coverSize >? head));
  let head := if head =? -1 then 0 else head in
  Done
    (if (resetHead : bool) then
       {| cb_size := cb_size c; cb_dataSize := cb_size c; cb_tailOffset := tail';
          cb_headOffset := if s32 (tail' + 1) <? cb_size c then s32 (tail' + 1) else 0;
          cb_buffer := buf |}
     else
       {| cb_size := cb_size c;
          cb_dataSize := if tail' >=? head then s32 (tail' - head + 1)
                         else s32 (cb_size c - (head - tail' - 1));
          cb_tailOffset := tail'; cb_headOffset := head; cb_buffer := buf |}).

(** [dataOut] is [false] for a NULL pointer; the result is the return value, the bytes
    stored at [dataOut] and the buffer. *)
Definition inter_circularBuffer_read (c : circular_buffer) (length : Z) (dataOut resetHead : bool)
  : outcome (Z * list Z * circular_buffer) :=
  if (cb_dataSize c =? 0) || (length =? 0) then Done (0, [], c) else
  let rdLen := if cb_dataSize c <? length then cb_dataSize c else length in
  let size := cb_size c in
  let head := cb_headOffset c in
  let tail := cb_tailOffset c in
  let get off len := if dataOut then copy_out (cb_buffer c) off len else Done [] in
  '(out, head', tail') ←
    (if head <=? tail then
       out ← get head rdLen;
       let h := s32 (head + rdLen) in
       Done (out, if h >? tail then -1 else h, if h >? tail then -1 else tail)
     else if s32 (head + rdLen) <=? size then
       out ← get head rdLen;
       let h := s32 (head + rdLen) in
       Done (out, if h =? size then 0 else h, tail)
     else
       let frg1Len := s32 (size - head) in
       out1 ← get head frg1Len;
       let frg2len := s32 (rdLen - frg1Len) in
       out2 ← get 0 frg2len;
       Done (out1 ++ out2, if frg2len >? tail then -1 else frg2len,
             if frg2len >? tail then -1 else tail));
  Done (rdLen, out,
        if resetHead then
          {| cb_size := size; cb_dataSize := s32 (cb_dataSize c - rdLen); cb_tailOffset := tail';
             cb_headOffset := head'; cb_buffer := cb_buffer c |}
        else c).

Definition CircularBufferPop (c : circular_buffer) (length : Z) (dataOut : bool) :=
  inter_circularBuffer_read c length dataOut true.
Definition CircularBufferRead (c : circular_buffer) (length : Z) (dataOut : bool) :=
  inter_circularBuffer_read c length dataOut false.

(** sizeof(struct s_circularBuffer) *)
Definition CB_HDR : Z := 24.

Section alloc.
Context {A : Type} `{Allocator A}.

Definition CircularBufferCreate (size : Z) (h : A) : outcome (Z * circular_buffer * A) :=
  let totalSize := s32 (CB_HDR + size) in
  '(p, h) ← al_malloc (u64 totalSize) h;
  Done (p, CircularBufferReset
             {| cb_size := size; cb_dataSize := 0; cb_tailOffset := 0; cb_headOffset := 0;
                cb_buffer := replicate (Z.to_nat size) None |}, h).

(** The fields reset before [kfree] die with the block. *)
Definition CircularBufferkfree (p : Z) (h : A) : outcome A := al_free p h.
End alloc.

(** ** The contract: a queue that keeps the newest bytes *)
Definition push_spec (size : Z) (q data : list Z) : list Z :=
  drop (List.length (q ++ data) - Z.to_nat size) (q ++ data).

(** Where the byte [i] after position [p] is. *)
Definition pos (size p i : Z) : Z := if p + i <? size then p + i else p + i - size.

Record holds (c : circular_buffer) (q : list Z) : Prop := {
  hs_size : 1 ≤ cb_size c < 2 ^ 30;
  hs_length : Z.of_nat (List.length (cb_buffer c)) = cb_size c;
  hs_dataSize : cb_dataSize c = Z.of_nat (List.length q);
  hs_fits : Z.of_nat (List.length q) ≤ cb_size c;
  hs_empty : q = [] → cb_headOffset c = -1 ∧ cb_tailOffset c = -1;
  hs_offsets : q ≠ [] → 0 ≤ cb_headOffset c < cb_size c ∧
    cb_tailOffset c = pos (cb_size c) (cb_headOffset c) (Z.of_nat (List.length q) - 1);
  hs_bytes : ∀ i x, q !! i = Some x →
    cb_buffer c !! Z.to_nat (pos (cb_size c) (cb_headOffset c) (Z.of_nat i)) = Some (Some x);
}.

(** *** Copies *)
Lemma copy_in_ok buf off src n :
  0 ≤ off → 0 ≤ n < 2 ^ 64 → off + n ≤ Z.of_nat (List.length buf) → n ≤ Z.of_nat (List.length src) →
  ∃ b, copy_in buf off src n = Done b ∧ List.length b = List.length buf ∧
    ∀ k, b !! k = if decide (off ≤ Z.of_nat k < off + n) then Some <$> src !! (k - Z.to_nat off)%nat
                  else buf !! k.
Proof.
  intros Ho Hn Hb Hs. unfold copy_in. rewrite u64_small by done.
  destruct (Z.eqb_spec n 0) as [->|Hn0].
  { exists buf. split_and!; try done. intros k. rewrite decide_False by lia. done. }
  rewrite !(proj2 (Z.leb_le _ _)) by lia. cbn [andb]. eexists. split; [done|].
  split.
  - rewrite !length_app, length_fmap, !length_take, length_drop. lia.
  - intros k. case_decide as Hk.
    + rewrite lookup_app_r; rewrite length_take; [|lia].
      rewrite lookup_app_l by (rewrite length_fmap, length_take; lia).
      rewrite list_lookup_fmap, lookup_take_lt by lia. do 2 f_equal. lia.
    + destruct (decide (Z.of_nat k < off)).
      * rewrite lookup_app_l by (rewrite length_take; lia). by rewrite lookup_take_lt by lia.
      * rewrite lookup_app_r; rewrite length_take; [|lia].
        rewrite lookup_app_r; rewrite length_fmap, length_take; [|lia].
        rewrite lookup_drop. f_equal. lia.
Qed.

Lemma copy_out_ok buf off n q :
  0 ≤ off → 0 ≤ n < 2 ^ 64 → off + n ≤ Z.of_nat (List.length buf) → List.length q = Z.to_nat n →
  (∀ i x, q !! i = Some x → buf !! (Z.to_nat off + i)%nat = Some (Some x)) →
  copy_out buf off n = Done q.
Proof.
  intros Ho Hn Hb Hq Hbytes. unfold copy_out. rewrite u64_small by done.
  destruct (Z.eqb_spec n 0) as [->|Hn0]; [by destruct q|].
  rewrite !(proj2 (Z.leb_le _ _)) by lia. cbn [andb].
  replace (take (Z.to_nat n) (drop (Z.to_nat off) buf)) with (Some <$> q).
  { clear. induction q as [|x q IH]; [done|]. cbn. cbn in IH. destruct (mapM id (Some <$> q)); naive_solver. }
  apply list_eq. intros i. rewrite list_lookup_fmap.
  destruct (q !! i) as [x|] eqn:E; cbn.
  - pose proof (lookup_lt_Some _ _ _ E). rewrite lookup_take_lt, lookup_drop by lia.
    symmetry. by apply Hbytes.
  - symmetry. apply lookup_ge_None in E. apply lookup_ge_None. rewrite length_take, length_drop. lia.
Qed.

(** *** Push *)
Lemma holds_cases c q (n := Z.of_nat (List.length q)) :
  holds c q →
  n = 0 ∧ q = [] ∧ cb_headOffset c = -1 ∧ cb_tailOffset c = -1 ∨
  0 < n ≤ cb_size c ∧ 0 ≤ cb_headOffset c < cb_size c ∧ 0 ≤ cb_tailOffset c < cb_size c ∧
  cb_tailOffset c = pos (cb_size c) (cb_headOffset c) (n - 1).
Proof.
  intros Hh. pose proof (hs_fits _ _ Hh). subst n. destruct q as [|x q].
  - left. by destruct (hs_empty _ _ Hh eq_refl).
  - right. destruct (hs_offsets _ _ Hh) as [? E]; [done|]. cbn [List.length] in *.
    unfold pos in *. case_match; zbool; lia.
Qed.

(** The bytes land after the tail, the other cells keep theirs, and the head is overrun
    exactly when old and new bytes together do not fit. *)
Lemma push_write c q pSrc w :
  holds c q → 1 ≤ w ≤ cb_size c → Z.of_nat (List.length pSrc) = w →
  ∃ b,
    (if s32 (cb_tailOffset c + w) <? cb_size c then
       b ← copy_in (cb_buffer c) (cb_tailOffset c + 1) pSrc w;
       Done (b, s32 (cb_tailOffset c + w),
         (cb_tailOffset c <? cb_headOffset c) && (s32 (cb_tailOffset c + w) >=? cb_headOffset c))
     else
       let remainSize := s32 (cb_size c - cb_tailOffset c - 1) in
       b ← copy_in (cb_buffer c) (cb_tailOffset c + 1) pSrc remainSize;
       let coverSize := s32 (w - remainSize) in
       b ← copy_in b 0 (drop (Z.to_nat remainSize) pSrc) coverSize;
       Done (b, s32 (coverSize - 1),
         if cb_tailOffset c <? cb_headOffset c then true else coverSize >? cb_headOffset c)) =
    Done (b, pos (cb_size c) (cb_tailOffset c) w, cb_dataSize c + w >? cb_size c) ∧
    Z.of_nat (List.length b) = cb_size c ∧
    ∀ i, 0 ≤ i < cb_size c →
      b !! Z.to_nat (pos (cb_size c) (cb_tailOffset c + 1) i) =
      if decide (i < w) then Some <$> pSrc !! Z.to_nat i
      else cb_buffer c !! Z.to_nat (pos (cb_size c) (cb_tailOffset c + 1) i).
Proof.
  intros Hh Hw Hl. pose proof (holds_cases _ _ Hh) as Hds.
  pose proof (hs_size _ _ Hh) as Hsz. pose proof (hs_length _ _ Hh) as Hlen.
  rewrite (hs_dataSize _ _ Hh). set (n := Z.of_nat (List.length q)) in *.
  rewrite (s32_small (cb_tailOffset c + w)), (s32_small (cb_size c - cb_tailOffset c - 1)) by lia.
  cbn zeta. rewrite (s32_small (w - _)), (s32_small (_ - 1)) by lia.
  destruct (Z.ltb_spec (cb_tailOffset c + w) (cb_size c)) as [Hfit|Hfit].
  - destruct (copy_in_ok (cb_buffer c) (cb_tailOffset c + 1) pSrc w) as (b & E & Hb & Hk); [lia..|].
    rewrite E, bind_done. exists b. split_and!; [|lia|].
    + f_equal. f_equal; [f_equal|]; unfold pos in *;
        repeat case_match; zbool; try lia;
        destruct (Z.ltb_spec (cb_tailOffset c) (cb_headOffset c));
        destruct (Z.geb_spec (cb_tailOffset c + w) (cb_headOffset c));
        destruct (Z.gtb_spec (n + w) (cb_size c)); cbn; try done; lia.
    + intros i Hi. rewrite Hk. unfold pos. destruct (Z.ltb_spec (cb_tailOffset c + 1 + i) (cb_size c));
        repeat case_decide; try done; try lia; do 2 f_equal; lia.
  - destruct (copy_in_ok (cb_buffer c) (cb_tailOffset c + 1) pSrc (cb_size c - cb_tailOffset c - 1))
      as (b1 & E1 & Hb1 & Hk1); [lia..|].
    destruct (copy_in_ok b1 0 (drop (Z.to_nat (cb_size c - cb_tailOffset c - 1)) pSrc)
      (w - (cb_size c - cb_tailOffset c - 1))) as (b & E & Hb & Hk); [lia..|rewrite length_drop; lia|].
    rewrite E1, bind_done, E, bind_done. exists b. split_and!; [|lia|].
    + f_equal. f_equal; [f_equal|]; unfold pos in *; repeat case_match; zbool; try lia;
        destruct (Z.ltb_spec (cb_tailOffset c) (cb_headOffset c));
        destruct (Z.gtb_spec (w - (cb_size c - cb_tailOffset c - 1)) (cb_headOffset c));
        destruct (Z.gtb_spec (n + w) (cb_size c)); cbn; try done; lia.
    + intros i Hi. rewrite Hk, Hk1, lookup_drop. unfold pos.
      destruct (Z.ltb_spec (cb_tailOffset c + 1 + i) (cb_size c)); repeat case_decide; try done; try lia; do 2 f_equal; lia.
Qed.

Lemma push_spec_suffix size q data w :
  0 ≤ size → w = Z.min size (Z.of_nat (List.length data)) →
  push_spec size q data =
  drop (Z.to_nat (Z.of_nat (List.length q) + w - size))
    (q ++ drop (Z.to_nat (Z.of_nat (List.length data) - w)) data).
Proof.
  intros Hs ->. unfold push_spec. rewrite length_app.
  destruct (decide (Z.of_nat (List.length data) ≤ size)) as [Hd|Hd].
  - rewrite Z.min_r, Z.sub_diag by lia. f_equal. lia.
  - rewrite Z.min_l by lia. rewrite !drop_app_ge by lia. rewrite drop_drop. f_equal. lia.
Qed.

(** The byte at [i] of the new contents, and where it lies relative to the old tail. *)
Lemma holds_pushed c q pSrc b w :
  holds c q → 1 ≤ w ≤ cb_size c → Z.of_nat (List.length pSrc) = w →
  Z.of_nat (List.length b) = cb_size c →
  (∀ i, 0 ≤ i < cb_size c →
     b !! Z.to_nat (pos (cb_size c) (cb_tailOffset c + 1) i) =
     if decide (i < w) then Some <$> pSrc !! Z.to_nat i
     else cb_buffer c !! Z.to_nat (pos (cb_size c) (cb_tailOffset c + 1) i)) →
  let n := Z.of_nat (List.length q) in
  let tail := pos (cb_size c) (cb_tailOffset c) w in
  let full := n + w >? cb_size c in
  holds {| cb_size := cb_size c; cb_dataSize := if full then cb_size c else n + w;
           cb_tailOffset := tail;
           cb_headOffset := if full then pos (cb_size c) tail 1
                            else if cb_headOffset c =? -1 then 0 else cb_headOffset c;
           cb_buffer := b |}
    (drop (Z.to_nat (n + w - cb_size c)) (q ++ pSrc)).
Proof.
  intros Hh Hw Hl Hb Hk n tail full. pose proof (holds_cases _ _ Hh) as Hds. fold n in Hds.
  pose proof (hs_size _ _ Hh) as Hsz. pose proof (hs_fits _ _ Hh) as Hfits. fold n in Hfits.
  assert (Hfull : full = true ∧ n + w > cb_size c ∨ full = false ∧ n + w ≤ cb_size c).
  { subst full. destruct (Z.gtb_spec (n + w) (cb_size c)); [left|right]; split; [done|lia|done|lia]. }
  assert (Hlen : Z.of_nat (List.length (drop (Z.to_nat (n + w - cb_size c)) (q ++ pSrc))) =
    if full then cb_size c else n + w).
  { rewrite length_drop, length_app. destruct Hfull as [[-> ?]|[-> ?]]; lia. }
  split; cbn; try done.
  - destruct Hfull as [[-> ?]|[-> ?]]; lia.
  - intros E. rewrite E in Hlen. cbn in Hlen. destruct Hfull as [[E' ?]|[E' ?]]; rewrite E' in Hlen; lia.
  - intros _. rewrite Hlen. subst tail. unfold pos in *.
    destruct Hfull as [[-> ?]|[-> ?]]; repeat case_match; zbool; lia.
  - intros i x Hx. rewrite lookup_drop in Hx.
    pose proof (lookup_lt_Some _ _ _ Hx) as Hi. rewrite length_app in Hi.
    set (D := Z.to_nat (n + w - cb_size c)) in *.
    destruct (decide (D + i < List.length q)%nat) as [Hold|Hnew].
    + rewrite lookup_app_l in Hx by done.
      assert (Hj : pos (cb_size c)
        (if full then pos (cb_size c) tail 1 else if cb_headOffset c =? -1 then 0 else cb_headOffset c)
        (Z.of_nat i) = pos (cb_size c) (cb_tailOffset c + 1) (cb_size c - n + Z.of_nat (D + i)) ∧
        pos (cb_size c) (cb_tailOffset c + 1) (cb_size c - n + Z.of_nat (D + i)) =
        pos (cb_size c) (cb_headOffset c) (Z.of_nat (D + i))).
      { subst tail D. unfold pos in *. destruct Hfull as [[-> ?]|[-> ?]]; repeat case_match; zbool; lia. }
      destruct Hj as [-> Hj]. rewrite Hk by (subst D n; lia). rewrite decide_False by (subst D n; lia).
      rewrite Hj. by apply (hs_bytes _ _ Hh).
    + rewrite lookup_app_r in Hx by lia.
      assert (Hj : pos (cb_size c)
        (if full then pos (cb_size c) tail 1 else if cb_headOffset c =? -1 then 0 else cb_headOffset c)
        (Z.of_nat i) = pos (cb_size c) (cb_tailOffset c + 1) (Z.of_nat (D + i) - n)).
      { subst tail D. unfold pos in *. destruct Hfull as [[-> ?]|[-> ?]]; repeat case_match; zbool; lia. }
      rewrite Hj, Hk by (subst D n; lia). rewrite decide_True by (subst D n; lia).
      replace (Z.to_nat (Z.of_nat (D + i) - n)) with (D + i - List.length q)%nat by (subst n; lia).
      by rewrite Hx.
Qed.

Lemma push_ok c q data :
  holds c q → Z.of_nat (List.length data) < 2 ^ 31 →
  ∃ c', CircularBufferPush c data (Z.of_nat (List.length data)) = Done c' ∧
    cb_size c' = cb_size c ∧ holds c' (push_spec (cb_size c) q data).
Proof.
  intros Hh Hm. pose proof (hs_size _ _ Hh) as Hsz. unfold CircularBufferPush.
  destruct (Z.eqb_spec (Z.of_nat (List.length data)) 0) as [E|E].
  { exists c. split_and!; try done. destruct data; [|done]. unfold push_spec. rewrite app_nil_r.
    pose proof (hs_fits _ _ Hh). by replace (_ - _)%nat with 0%nat by lia. }
  set (w := Z.min (cb_size c) (Z.of_nat (List.length data))).
  set (pSrc := drop (Z.to_nat (Z.of_nat (List.length data) - w)) data).
  replace (if _ >? _ then _ else _) with (w, pSrc); last first.
  { subst w pSrc. destruct (Z.gtb_spec (Z.of_nat (List.length data)) (cb_size c)).
    - by rewrite Z.min_l by lia.
    - by rewrite Z.min_r, Z.sub_diag by lia. }
  assert (Hl : Z.of_nat (List.length pSrc) = w) by (subst pSrc w; rewrite length_drop; lia).
  destruct (push_write c q pSrc w Hh ltac:(lia) Hl) as (b & Ew & Hb & Hk).
  cbn zeta in *. rewrite Ew, bind_done.
  pose proof (holds_pushed c q pSrc b w Hh ltac:(lia) Hl Hb Hk) as Hp. cbn zeta in Hp.
  rewrite (push_spec_suffix _ _ _ w) by (subst w; lia). fold pSrc.
  cbn beta iota. eexists. split; [done|]. split; [by destruct (cb_dataSize c + w >? cb_size c)|].
  eapply (eq_rect _ (λ x, holds x _) Hp). rewrite (hs_dataSize _ _ Hh).
  pose proof (holds_cases _ _ Hh) as Hds.
  destruct (Z.gtb_spec (Z.of_nat (List.length q) + w) (cb_size c)) as [Hf|Hf]; unfold pos in *;
    f_equal; repeat case_match; zbool; rewrite ?s32_small in * by lia; lia.
Qed.

(** *** Read and pop *)
Lemma holds_dropped c q k h t :
  holds c q → 0 < k ≤ Z.of_nat (List.length q) →
  (k = Z.of_nat (List.length q) → h = -1 ∧ t = -1) →
  (k < Z.of_nat (List.length q) → h = pos (cb_size c) (cb_headOffset c) k ∧ t = cb_tailOffset c) →
  holds {| cb_size := cb_size c; cb_dataSize := Z.of_nat (List.length q) - k; cb_tailOffset := t;
           cb_headOffset := h; cb_buffer := cb_buffer c |} (drop (Z.to_nat k) q).
Proof.
  intros Hh Hk He Hn. pose proof (holds_cases _ _ Hh) as Hds. pose proof (hs_size _ _ Hh).
  split; cbn; try apply Hh; rewrite ?length_drop; [lia|lia| | |].
  - intros E%(f_equal List.length). rewrite length_drop in E. cbn in E. apply He. lia.
  - intros E. assert (k ≠ Z.of_nat (List.length q)).
    { intros ->. by rewrite Nat2Z.id, drop_all in E. }
    destruct Hn as [-> ->]; [lia|]. unfold pos in *. repeat case_match; zbool; lia.
  - intros i x Hx. rewrite lookup_drop in Hx. pose proof (lookup_lt_Some _ _ _ Hx).
    destruct Hn as [-> _]; [lia|]. apply (hs_bytes _ _ Hh) in Hx. rewrite <- Hx. do 2 f_equal.
    unfold pos in *. repeat case_match; zbool; lia.
Qed.

(** A run of bytes that does not cross the end of the data area. *)
Lemma copy_out_run c q off i n :
  holds c q → 0 ≤ i → 0 ≤ n → i + n ≤ Z.of_nat (List.length q) →
  (∀ j, i ≤ j < i + n → pos (cb_size c) (cb_headOffset c) j = off + j - i) → 0 ≤ off →
  off + n ≤ cb_size c →
  copy_out (cb_buffer c) off n = Done (take (Z.to_nat n) (drop (Z.to_nat i) q)).
Proof.
  intros Hh Hi Hn Hq Hp Ho Hs. pose proof (hs_size _ _ Hh). pose proof (hs_length _ _ Hh).
  apply copy_out_ok; try lia.
  - rewrite length_take, length_drop. lia.
  - intros k x Hx. pose proof (lookup_lt_Some _ _ _ Hx) as Hk. rewrite length_take, length_drop in Hk.
    rewrite lookup_take_lt, lookup_drop in Hx by lia. apply (hs_bytes _ _ Hh) in Hx. rewrite <- Hx.
    f_equal. rewrite Hp by lia. lia.
Qed.

Lemma read_ok c q len dataOut resetHead (n := Nat.min (Z.to_nat len) (List.length q)) :
  holds c q → 0 ≤ len < 2 ^ 31 →
  ∃ c', inter_circularBuffer_read c len dataOut resetHead =
    Done (Z.of_nat n, if dataOut then take n q else [], c') ∧
    cb_size c' = cb_size c ∧ if resetHead then holds c' (drop n q) else c' = c.
Proof.
  intros Hh Hlen. pose proof (holds_cases _ _ Hh) as Hds. pose proof (hs_size _ _ Hh) as Hsz.
  unfold inter_circularBuffer_read. rewrite (hs_dataSize _ _ Hh).
  destruct (decide (n = 0%nat)) as [Hn|Hn].
  { replace ((_ =? 0) || _) with true by (symmetry; apply orb_true_iff; rewrite !Z.eqb_eq; lia).
    exists c. rewrite Hn. split; [by destruct dataOut|]. by destruct resetHead. }
  rewrite !(proj2 (Z.eqb_neq _ _)) by lia. cbn [orb]. cbn beta zeta.
  replace (if Z.of_nat (List.length q) <? len then _ else _) with (Z.of_nat n)
    by (subst n; case_match; zbool; lia).
  assert (Hget : ∀ off i m, 0 ≤ i → 0 ≤ m → i + m ≤ Z.of_nat (List.length q) →
    (∀ j, i ≤ j < i + m → pos (cb_size c) (cb_headOffset c) j = off + j - i) → 0 ≤ off →
    off + m ≤ cb_size c →
    (if dataOut then copy_out (cb_buffer c) off m else Done []) =
    Done (if dataOut then take (Z.to_nat m) (drop (Z.to_nat i) q) else [])).
  { intros off i m. destruct dataOut; [|done]. by apply copy_out_run. }
  enough (∃ h t, (if cb_headOffset c <=? cb_tailOffset c then _
                  else if s32 (cb_headOffset c + Z.of_nat n) <=? cb_size c then _ else _) =
      Done (if dataOut then take n q else [], h, t) ∧
      (Z.of_nat n = Z.of_nat (List.length q) → h = -1 ∧ t = -1) ∧
      (Z.of_nat n < Z.of_nat (List.length q) →
         h = pos (cb_size c) (cb_headOffset c) (Z.of_nat n) ∧ t = cb_tailOffset c))
    as (h & t & -> & He & Hne).
  { rewrite bind_done. eexists. split; [done|]. destruct resetHead; [|done]. split; [done|].
    rewrite s32_small by lia. rewrite <- (Nat2Z.id n) at 2. apply holds_dropped; try done; lia. }
  rewrite (s32_small (cb_headOffset c + Z.of_nat n)), (s32_small (cb_size c - _)) by lia.
  destruct (Z.leb_spec (cb_headOffset c) (cb_tailOffset c)).
  - rewrite (Hget _ 0) by (unfold pos in *; intros; repeat case_match; zbool; lia).
    rewrite bind_done, Nat2Z.id. eexists _, _. split; [done|].
    unfold pos in *. repeat case_match; zbool; lia.
  - destruct (Z.leb_spec (cb_headOffset c + Z.of_nat n) (cb_size c)).
    + rewrite (Hget _ 0) by (unfold pos in *; intros; repeat case_match; zbool; lia).
      rewrite bind_done, Nat2Z.id. eexists _, _. split; [done|].
      unfold pos in *. repeat case_match; zbool; lia.
    + rewrite (s32_small (Z.of_nat n - _)) by lia.
      rewrite (Hget (cb_headOffset c) 0 (cb_size c - cb_headOffset c)) by (unfold pos in *; intros; repeat case_match; zbool; lia).
      rewrite bind_done. rewrite (Hget 0 (cb_size c - cb_headOffset c) (Z.of_nat n - (cb_size c - cb_headOffset c)))
        by (unfold pos in *; intros; repeat case_match; zbool; lia).
      rewrite bind_done. eexists _, _. split.
      * do 3 f_equal. destruct dataOut; [|done]. cbn [Z.to_nat drop].
        rewrite take_take_drop. f_equal. lia.
      * unfold pos in *. repeat case_match; zbool; lia.
Qed.

(** *** Sequences of operations *)
Inductive cb_op := Push (data : list Z) | Pop (len : Z) | Read (len : Z) | Clear.

(** The bytes an operation delivers. *)
Definition cb_step (op : cb_op) (c : circular_buffer) : outcome (list Z * circular_buffer) :=
  match op with
  | Push data => c ← CircularBufferPush c data (Z.of_nat (List.length data)); Done ([], c)
  | Pop len => '(_, out, c) ← CircularBufferPop c len true; Done (out, c)
  | Read len => '(_, out, c) ← CircularBufferRead c len true; Done (out, c)
  | Clear => Done ([], CircularBufferReset c)
  end.

Definition queue_step (size : Z) (op : cb_op) (q : list Z) : list Z * list Z :=
  match op with
  | Push data => ([], push_spec size q data)
  | Pop len => (take (Z.to_nat len) q, drop (Z.to_nat len) q)
  | Read len => (take (Z.to_nat len) q, q)
  | Clear => ([], [])
  end.

Fixpoint cb_run (ops : list cb_op) (c : circular_buffer) : outcome (list (list Z)) :=
  match ops with
  | [] => Done []
  | op :: ops => '(out, c) ← cb_step op c; outs ← cb_run ops c; Done (out :: outs)
  end.

Fixpoint queue_run (size : Z) (ops : list cb_op) (q : list Z) : list (list Z) :=
  match ops with
  | [] => []
  | op :: ops => let '(out, q) := queue_step size op q in out :: queue_run size ops q
  end.

(** Lengths are non-negative [int]s. *)
Definition op_fits (op : cb_op) : Prop :=
  match op with
  | Push data => Z.of_nat (List.length data) < 2 ^ 31
  | Pop len | Read len => 0 ≤ len < 2 ^ 31
  | Clear => True
  end.

Lemma take_min {T} n (l : list T) : take (Nat.min n (List.length l)) l = take n l.
Proof. destruct (decide (n ≤ List.length l)%nat); [by rewrite Nat.min_l by lia|]. rewrite !take_ge; [done|lia..]. Qed.
Lemma drop_min {T} n (l : list T) : drop (Nat.min n (List.length l)) l = drop n l.
Proof. destruct (decide (n ≤ List.length l)%nat); [by rewrite Nat.min_l by lia|]. rewrite !drop_ge; [done|lia..]. Qed.

Lemma reset_holds c :
  1 ≤ cb_size c < 2 ^ 30 → Z.of_nat (List.length (cb_buffer c)) = cb_size c →
  holds (CircularBufferReset c) [].
Proof. intros Hs Hl. split; cbn; try done. lia. Qed.

Lemma step_ok op c q :
  holds c q → op_fits op →
  ∃ c', cb_step op c = Done ((queue_step (cb_size c) op q).1, c') ∧ cb_size c' = cb_size c ∧
    holds c' (queue_step (cb_size c) op q).2.
Proof.
  intros Hh Hf. destruct op as [data|len|len|]; cbn [cb_step queue_step fst snd op_fits] in *.
  - destruct (push_ok c q data Hh Hf) as (c' & -> & Hs & Hh'). by exists c'.
  - destruct (read_ok c q len true true Hh Hf) as (c' & E & Hs & Hh'). unfold CircularBufferPop.
    rewrite E, bind_done, take_min. rewrite drop_min in Hh'. by exists c'.
  - destruct (read_ok c q len true false Hh Hf) as (c' & E & Hs & ->). unfold CircularBufferRead.
    rewrite E, bind_done, take_min. by exists c.
  - eexists. split_and!; [done|done|]. apply reset_holds; apply Hh.
Qed.

(** C30: the circular buffer is a byte queue.  Over every sequence of pushes, pops, reads
    and resets on a fresh buffer of capacity [size], each read or pop delivers exactly the
    bytes a queue would, in order, where a push that does not fit drops the oldest bytes;
    no operation touches a byte outside the buffer or one that was never written. *)
Theorem circular_buffer_refines {A} `{Allocator A} size ops (h h' : A) p c :
  1 ≤ size < 2 ^ 30 → Forall op_fits ops →
  CircularBufferCreate size h = Done (p, c, h') →
  cb_run ops c = Done (queue_run size ops []).
Proof.
  intros Hs Hf Hc. unfold CircularBufferCreate in Hc.
  apply bind_done_inv in Hc as ([p' h1] & _ & [= <- <- <-]).
  match goal with |- cb_run _ ?c0 = _ => set (c := c0) end.
  assert (Hh : holds c []) by (apply reset_holds; cbn; rewrite ?length_replicate; lia).
  assert (Hsz : cb_size c = size) by done. clearbody c. revert c Hsz Hh. generalize (@nil Z).
  induction Hf as [|op ops Hop Hf IH]; intros q c Hsz Hh; [done|]. cbn [cb_run queue_run].
  destruct (step_ok op c q Hh Hop) as (c' & -> & Hs' & Hh'). rewrite Hsz in *.
  destruct (queue_step size op q) as [out q']. cbn [fst snd] in *. rewrite bind_done.
  by rewrite (IH q' c' ltac:(done) Hh').
Qed.

Lemma circular_buffer_refines_witness :
  ∃ p c h, CircularBufferCreate (H := kmalloc_allocator) 4 kernel1 = Done (p, c, h) ∧
    cb_run [Push [1; 2; 3]; Pop 2; Push [4; 5; 6; 7]; Read 10] c = Done [[]; [1; 2]; []; [4; 5; 6; 7]].
Proof.
  destruct (is_done_returns (CircularBufferCreate (H := kmalloc_allocator) 4 kernel1))
    as [[[p c] h] E]; [by vm_compute|].
  exists p, c, h. split; [exact E|].
  apply (circular_buffer_refines (H := kmalloc_allocator) 4
    [Push [1; 2; 3]; Pop 2; Push [4; 5; 6; 7]; Read 10] kernel1 h p c); [lia| |exact E].
  repeat constructor; cbn; lia.
Defined.
