(* ===== verification/Pit.v ===== *)
(** * The timer (src/src/sched/pit.c, pit.h)

    Port writes and interrupt masking are the output of the operations that perform
    them.  The wakeup handler is a code address; 0 is NULL. *)
From S2P Require Import Prelude.
#[local] Open Scope Z_scope.

Record pit := {
  boot_epoch : Z;
  hertz : Z;
  timer_ticks : Z;
  preemption_ticks : Z;
  preemption_enabled : Z;
  wakeup_call : Z;          (** [wakeup_handler] *)
  wakeup_ticks : Z;
}.

Inductive pit_io := Outb (port value : Z) | Unmask (irq : Z) | Mask (irq : Z).

Definition PIT_A : Z := 0x40.
Definition PIT_CONTROL : Z := 0x43.
Definition PIT_MASK : Z := 0xFF.
Definition PIT_SET : Z := 0x36.
Definition PIT_IRQ : Z := 0x22.

(** A division by zero is a processor fault. *)
Definition timer_phase (hz : Z) : outcome (list pit_io) :=
  if s32 (6 * hz) =? 0 then Fault else
  let divisor := Z.quot (7159090 + Z.quot 6 2) (s32 (6 * hz)) in
  Done [Outb PIT_CONTROL PIT_SET; Outb PIT_A (Z.land divisor PIT_MASK);
        Outb PIT_A (Z.land (Z.shiftr divisor 8) PIT_MASK)].

(** [boot] is what [get_boot_time()] returns. *)
Definition init_pit (boot hz : Z) : outcome (pit * list pit_io) :=
  io ← timer_phase hz;
  Done ({| boot_epoch := boot; hertz := u64 hz; timer_ticks := 0; preemption_ticks := 0;
           preemption_enabled := 0; wakeup_call := 0; wakeup_ticks := 0 |}, io ++ [Unmask PIT_IRQ]).

Definition disable_pit : list pit_io := [Mask PIT_IRQ].

Definition tick (p : pit) : pit :=
  {| boot_epoch := boot_epoch p; hertz := hertz p; timer_ticks := u64 (timer_ticks p + 1);
     preemption_ticks := preemption_ticks p; preemption_enabled := preemption_enabled p;
     wakeup_call := wakeup_call p; wakeup_ticks := wakeup_ticks p |}.

(** [wakeup] calls the handler it returns. *)
Definition wakeup (p : pit) : option Z :=
  if negb (wakeup_call p =? 0) && negb (wakeup_ticks p =? 0) then Some (wakeup_call p) else None.

Definition requires_wakeup (p : pit) : bool :=
  negb (wakeup_call p =? 0) && negb (wakeup_ticks p =? 0) && (timer_ticks p mod wakeup_ticks p =? 0).

Definition seconds_to_ticks (p : pit) (seconds : Z) : Z := u64 (seconds * hertz p).

Definition ticks_to_seconds (p : pit) (ticks : Z) : Z :=
  if hertz p =? 0 then 0 else
  if ticks =? 0 then 0 else
  if ticks <? hertz p then 1 else
  ticks / hertz p.

Definition ticks_to_ms (p : pit) (ticks : Z) : Z :=
  if hertz p =? 0 then 0 else
  if ticks =? 0 then 0 else
  if u64 (ticks * 1000) <? hertz p then 1000 else
  u64 (ticks * 1000) / hertz p.

Definition ms_to_ticks (p : pit) (ms : Z) : Z :=
  let cuak := u64 (ms * hertz p) in
  if cuak <? 1000 then 1 else cuak / 1000.

Definition set_wakeup_call (handler ticks : Z) (p : pit) : pit :=
  {| boot_epoch := boot_epoch p; hertz := hertz p; timer_ticks := timer_ticks p;
     preemption_ticks := preemption_ticks p; preemption_enabled := preemption_enabled p;
     wakeup_call := if handler =? 0 then 0 else handler;
     wakeup_ticks := if handler =? 0 then 0 else ticks |}.

Definition set_preeption_ticks (ticks : Z) (p : pit) : pit :=
  {| boot_epoch := boot_epoch p; hertz := hertz p; timer_ticks := timer_ticks p;
     preemption_ticks := ticks; preemption_enabled := preemption_enabled p;
     wakeup_call := wakeup_call p; wakeup_ticks := wakeup_ticks p |}.

Definition set_enabled (v : Z) (p : pit) : pit :=
  {| boot_epoch := boot_epoch p; hertz := hertz p; timer_ticks := timer_ticks p;
     preemption_ticks := preemption_ticks p; preemption_enabled := v;
     wakeup_call := wakeup_call p; wakeup_ticks := wakeup_ticks p |}.

Definition preempt_toggle (p : pit) : pit := set_enabled (b2z (preemption_enabled p =? 0)) p.
Definition enable_preemption (p : pit) : pit := set_enabled 1 p.

Definition requires_preemption (p : pit) : bool :=
  if (preemption_enabled p =? 0) || (preemption_ticks p =? 0) then false else
  timer_ticks p mod preemption_ticks p =? 0.

Definition get_ticks_since_boot (p : pit) : Z := timer_ticks p.

Definition get_epoch (p : pit) : Z := u64 (boot_epoch p + ticks_to_seconds p (timer_ticks p)).

(** What the interrupt handler does on a tick, after [tick] itself: wake the sleepers,
    preempt, or nothing (src/src/io/interrupts.c, global_interrupt_handler). *)
Inductive tick_action := Wakeup | Preempt | Nothing.

Definition pit_action (p : pit) : tick_action :=
  if requires_wakeup p then Wakeup else if requires_preemption p then Preempt else Nothing.

(** ** Properties *)
Lemma iter_tick n p :
  0 ≤ timer_ticks p → timer_ticks p + Z.of_nat n < 2 ^ 64 →
  timer_ticks (Nat.iter n tick p) = timer_ticks p + Z.of_nat n ∧
  hertz (Nat.iter n tick p) = hertz p ∧
  preemption_ticks (Nat.iter n tick p) = preemption_ticks p ∧
  preemption_enabled (Nat.iter n tick p) = preemption_enabled p ∧
  wakeup_call (Nat.iter n tick p) = wakeup_call p ∧ wakeup_ticks (Nat.iter n tick p) = wakeup_ticks p.
Proof.
  intros H0. induction n as [|n IH]; intros Hn; [cbn; split_and!; lia|].
  destruct IH as (Ht & ?); [lia|]. change (Nat.iter (S n) tick p) with (tick (Nat.iter n tick p)).
  cbn -[Nat.iter]. split; [|done]. rewrite Ht. unwrap. lia.
Qed.

Lemma pit_action_cases p :
  wakeup_call p ≠ 0 → wakeup_ticks p ≠ 0 → preemption_enabled p ≠ 0 → preemption_ticks p ≠ 0 →
  (pit_action p = Wakeup ↔ (wakeup_ticks p | timer_ticks p)) ∧
  (pit_action p = Preempt ↔ (preemption_ticks p | timer_ticks p) ∧ ¬ (wakeup_ticks p | timer_ticks p)).
Proof.
  intros H1 H2 H3 H4. unfold pit_action, requires_wakeup, requires_preemption.
  rewrite !(proj2 (Z.eqb_neq _ _)) by done. cbn [negb andb orb].
  rewrite <- !Z.mod_divide by done. repeat case_match; zbool; split; split; intros; try done; lia.
Qed.

(** The first multiple of [k] at or after [t]. *)
Lemma next_multiple k t : 0 < k → ∃ d, 0 ≤ d < k ∧ (k | t + d).
Proof.
  intros Hk. exists ((- t) mod k). split; [apply Z.mod_pos_bound; lia|].
  apply Z.mod_divide; [lia|]. rewrite Zplus_mod_idemp_r. by rewrite Z.add_opp_diag_r.
Qed.

(** C34: with the wakeup call every [w] ticks and preemption every [q] ticks, sleepers
    are woken within any [w] consecutive ticks.  A tick that wakes sleepers does not
    preempt: the running task is preempted within any [2 * q] consecutive ticks unless
    [w] divides [q], and then it is never preempted. *)
Theorem timer_service p w q :
  wakeup_call p ≠ 0 → preemption_enabled p ≠ 0 → wakeup_ticks p = w → preemption_ticks p = q →
  0 < w → 0 < q → 0 ≤ timer_ticks p → timer_ticks p + w + 2 * q < 2 ^ 64 →
  (∃ n, Z.of_nat n < w ∧ pit_action (Nat.iter n tick p) = Wakeup) ∧
  (¬ (w | q) → ∃ n, Z.of_nat n < 2 * q ∧ pit_action (Nat.iter n tick p) = Preempt) ∧
  ((w | q) → ∀ n, timer_ticks p + Z.of_nat n < 2 ^ 64 → pit_action (Nat.iter n tick p) ≠ Preempt).
Proof.
  intros Hc He Hw Hq Hw0 Hq0 Ht Hb.
  assert (Hact : ∀ n, timer_ticks p + Z.of_nat n < 2 ^ 64 →
    (pit_action (Nat.iter n tick p) = Wakeup ↔ (w | timer_ticks p + Z.of_nat n)) ∧
    (pit_action (Nat.iter n tick p) = Preempt ↔
       (q | timer_ticks p + Z.of_nat n) ∧ ¬ (w | timer_ticks p + Z.of_nat n))).
  { intros n Hn. destruct (iter_tick n p Ht Hn) as (E1 & _ & E2 & E3 & E4 & E5).
    rewrite <- E1, <- Hw, <- Hq, <- E5, <- E2. apply pit_action_cases; congruence || lia. }
  split_and!.
  - destruct (next_multiple w (timer_ticks p) Hw0) as (d & Hd & Hm).
    exists (Z.to_nat d). split; [lia|]. apply Hact; [lia|]. by rewrite Z2Nat.id by lia.
  - intros Hndiv. destruct (next_multiple q (timer_ticks p) Hq0) as (d & Hd & Hm).
    destruct (decide ((timer_ticks p + d) mod w = 0)) as [E|E].
    + exists (Z.to_nat (d + q)). split; [lia|]. apply Hact; [lia|]. rewrite Z2Nat.id by lia.
      rewrite Z.add_assoc. split; [by apply Z.divide_add_r; [|apply Z.divide_refl]|].
      intros Hdiv. apply Hndiv. apply (Z.divide_add_cancel_r w (timer_ticks p + d)); [|done].
      by apply Z.mod_divide; [lia|].
    + exists (Z.to_nat d). split; [lia|]. apply Hact; [lia|]. rewrite Z2Nat.id by lia.
      split; [done|]. intros Hdiv. by apply E, Z.mod_divide; [lia|].
  - intros Hdiv n Hn Hp. apply Hact in Hp as [Hp Hnw]; [|done]. apply Hnw.
    by eapply Z.divide_trans.
Qed.

(** The values the kernel boots with: 1000 Hz, sleepers every 100 ticks, preemption
    every 50. *)
Definition booted_pit : pit :=
  {| boot_epoch := 0; hertz := 1000; timer_ticks := 0; preemption_ticks := 50;
     preemption_enabled := 1; wakeup_call := 0x1000; wakeup_ticks := 100 |}.

Lemma timer_service_witness :
  ∃ n, Z.of_nat n < 100 ∧ pit_action (Nat.iter n tick booted_pit) = Preempt.
Proof.
  destruct (timer_service booted_pit 100 50) as (_ & H & _); cbn; try lia.
  apply H. intros [z Hz]. lia.
Defined.
