(* ===== verification/Scheduler.v ===== *)
(** * The scheduler (src/src/sched/scheduler.c, scheduler.h, src/src/proc/process.h)

    Tasks and queued signals are structures at addresses of the kernel heaps.  The
    processor-local state a switch sets up (the TSS stacks of src/src/arch/tss.c, the two
    GS bases of src/src/proc/syscall.c) and the pending end-of-interrupt flag of
    src/src/devices/apic/apic.c are part of the state.  A context switch is recorded as
    the pair of contexts handed to [newctxswtch], a call of a signal handler as its
    address and arguments. *)
From Stdlib Require Import String.
From stdpp Require Import gmap.
From S2P Require Import Prelude Concurrency PageService Pit Heap.
#[local] Open Scope string_scope.
#[local] Open Scope Z_scope.

Definition KERNEL_TASK : Z := 0.
Definition USER_TASK : Z := 1.
Definition TASK_EXECUTING : Z := 0.
Definition TASK_READY : Z := 1.
Definition TASK_STOPPED : Z := 2.
Definition TASK_UNINTERRUPTIBLE : Z := 3.
Definition TASK_INTERRUPTIBLE : Z := 4.
Definition TASK_ZOMBIE : Z := 5.
Definition TASK_CREATED : Z := 6.
Definition TASK_FREE : Z := 7.
Definition TASK_IDLE : Z := 8.
Definition SIGKILL : Z := 9.
Definition TASK_SIGNAL_MAX : Z := 0x20.

(** What [create_task] fixes for good. *)
Record task_static := {
  privilege : Z;
  processor : Z;
  context : Z;
  stack_base : Z;
  stack_top : Z;
  alt_stack_base : Z;
  alt_stack_top : Z;
  fxsave_region : Z;      (** the address of the region *)
  task_pd : Z;
  ppid : Z;
  parent : Z;
  entry : Z;
}.

Record task := {
  state : Z;
  pid : Z;
  exit_code : Z;
  exit_signal : Z;
  signal_queue : Z;
  signal_handlers : list Z;
  cpu_time : Z;
  last_scheduled : Z;
  task_next : Z;
  task_prev : Z;
  static : task_static;
}.

Record task_signal := {
  sig_signal : Z;
  signal_data : Z;
  signal_data_size : Z;
  sig_next : Z;
}.

Inductive sched_event :=
| Switch (old new fxsave fxrstor : Z)
| CallHandler (handler signal data size : Z).

Definition with_state v t :=
  {| state := v; pid := pid t; exit_code := exit_code t; exit_signal := exit_signal t;
     signal_queue := signal_queue t; signal_handlers := signal_handlers t; cpu_time := cpu_time t;
     last_scheduled := last_scheduled t; task_next := task_next t; task_prev := task_prev t;
     static := static t |}.
Definition with_pid v t :=
  {| state := state t; pid := v; exit_code := exit_code t; exit_signal := exit_signal t;
     signal_queue := signal_queue t; signal_handlers := signal_handlers t; cpu_time := cpu_time t;
     last_scheduled := last_scheduled t; task_next := task_next t; task_prev := task_prev t;
     static := static t |}.
Definition with_exit c g t :=
  {| state := state t; pid := pid t; exit_code := c; exit_signal := g;
     signal_queue := signal_queue t; signal_handlers := signal_handlers t; cpu_time := cpu_time t;
     last_scheduled := last_scheduled t; task_next := task_next t; task_prev := task_prev t;
     static := static t |}.
Definition with_queue q t :=
  {| state := state t; pid := pid t; exit_code := exit_code t; exit_signal := exit_signal t;
     signal_queue := q; signal_handlers := signal_handlers t; cpu_time := cpu_time t;
     last_scheduled := last_scheduled t; task_next := task_next t; task_prev := task_prev t;
     static := static t |}.
Definition with_handlers h t :=
  {| state := state t; pid := pid t; exit_code := exit_code t; exit_signal := exit_signal t;
     signal_queue := signal_queue t; signal_handlers := h; cpu_time := cpu_time t;
     last_scheduled := last_scheduled t; task_next := task_next t; task_prev := task_prev t;
     static := static t |}.
Definition with_times c l t :=
  {| state := state t; pid := pid t; exit_code := exit_code t; exit_signal := exit_signal t;
     signal_queue := signal_queue t; signal_handlers := signal_handlers t; cpu_time := c;
     last_scheduled := l; task_next := task_next t; task_prev := task_prev t; static := static t |}.
Definition with_links n p t :=
  {| state := state t; pid := pid t; exit_code := exit_code t; exit_signal := exit_signal t;
     signal_queue := signal_queue t; signal_handlers := signal_handlers t; cpu_time := cpu_time t;
     last_scheduled := last_scheduled t; task_next := n; task_prev := p; static := static t |}.

Section sched.
Context {P : Type} `{PageService P}.

Record sched := {
  tasks : gmap Z task;
  signals : gmap Z task_signal;
  task_head : Z;
  current_task : Z;
  irq_disable_counter : Z;
  scheduler_ready : Z;
  apic_eoi_required : Z;
  apic_last_interrupt : Z;
  tss_rsp : gmap Z (list Z);      (** [cpu->tss->rsp] of the processors that are ready *)
  gs_base : Z;
  kernel_gs_base : Z;
  timer : pit;
  kern : kernel (P := P);
  events : list sched_event;
}.
Implicit Types s : sched.

Definition with_tasks m s :=
  {| tasks := m; signals := signals s; task_head := task_head s; current_task := current_task s;
     irq_disable_counter := irq_disable_counter s; scheduler_ready := scheduler_ready s;
     apic_eoi_required := apic_eoi_required s; apic_last_interrupt := apic_last_interrupt s;
     tss_rsp := tss_rsp s; gs_base := gs_base s; kernel_gs_base := kernel_gs_base s;
     timer := timer s; kern := kern s; events := events s |}.
Definition with_signals m k s :=
  {| tasks := tasks s; signals := m; task_head := task_head s; current_task := current_task s;
     irq_disable_counter := irq_disable_counter s; scheduler_ready := scheduler_ready s;
     apic_eoi_required := apic_eoi_required s; apic_last_interrupt := apic_last_interrupt s;
     tss_rsp := tss_rsp s; gs_base := gs_base s; kernel_gs_base := kernel_gs_base s;
     timer := timer s; kern := k; events := events s |}.
Definition with_head v s :=
  {| tasks := tasks s; signals := signals s; task_head := v; current_task := current_task s;
     irq_disable_counter := irq_disable_counter s; scheduler_ready := scheduler_ready s;
     apic_eoi_required := apic_eoi_required s; apic_last_interrupt := apic_last_interrupt s;
     tss_rsp := tss_rsp s; gs_base := gs_base s; kernel_gs_base := kernel_gs_base s;
     timer := timer s; kern := kern s; events := events s |}.
Definition with_current v s :=
  {| tasks := tasks s; signals := signals s; task_head := task_head s; current_task := v;
     irq_disable_counter := irq_disable_counter s; scheduler_ready := scheduler_ready s;
     apic_eoi_required := apic_eoi_required s; apic_last_interrupt := apic_last_interrupt s;
     tss_rsp := tss_rsp s; gs_base := gs_base s; kernel_gs_base := kernel_gs_base s;
     timer := timer s; kern := kern s; events := events s |}.
Definition with_counter v s :=
  {| tasks := tasks s; signals := signals s; task_head := task_head s; current_task := current_task s;
     irq_disable_counter := v; scheduler_ready := scheduler_ready s;
     apic_eoi_required := apic_eoi_required s; apic_last_interrupt := apic_last_interrupt s;
     tss_rsp := tss_rsp s; gs_base := gs_base s; kernel_gs_base := kernel_gs_base s;
     timer := timer s; kern := kern s; events := events s |}.
Definition with_cpu (c : cpu) s :=
  {| tasks := tasks s; signals := signals s; task_head := task_head s; current_task := current_task s;
     irq_disable_counter := irq_disable_counter s; scheduler_ready := scheduler_ready s;
     apic_eoi_required := apic_eoi_required s; apic_last_interrupt := apic_last_interrupt s;
     tss_rsp := tss_rsp s; gs_base := gs_base s; kernel_gs_base := kernel_gs_base s;
     timer := timer s;
     kern := {| kcpu := c; kmemory := kmemory (kern s); kernelGlobalHeap := kernelGlobalHeap (kern s);
                kernelSleepHeap := kernelSleepHeap (kern s);
                kernelSignalHeap := kernelSignalHeap (kern s) |}; events := events s |}.
Definition with_gs u k s :=
  {| tasks := tasks s; signals := signals s; task_head := task_head s; current_task := current_task s;
     irq_disable_counter := irq_disable_counter s; scheduler_ready := scheduler_ready s;
     apic_eoi_required := apic_eoi_required s; apic_last_interrupt := apic_last_interrupt s;
     tss_rsp := tss_rsp s; gs_base := u; kernel_gs_base := k; timer := timer s; kern := kern s;
     events := events s |}.
Definition with_tss m s :=
  {| tasks := tasks s; signals := signals s; task_head := task_head s; current_task := current_task s;
     irq_disable_counter := irq_disable_counter s; scheduler_ready := scheduler_ready s;
     apic_eoi_required := apic_eoi_required s; apic_last_interrupt := apic_last_interrupt s;
     tss_rsp := m; gs_base := gs_base s; kernel_gs_base := kernel_gs_base s; timer := timer s;
     kern := kern s; events := events s |}.
Definition with_ready v s :=
  {| tasks := tasks s; signals := signals s; task_head := task_head s; current_task := current_task s;
     irq_disable_counter := irq_disable_counter s; scheduler_ready := v;
     apic_eoi_required := apic_eoi_required s; apic_last_interrupt := apic_last_interrupt s;
     tss_rsp := tss_rsp s; gs_base := gs_base s; kernel_gs_base := kernel_gs_base s;
     timer := timer s; kern := kern s; events := events s |}.
Definition with_timer v s :=
  {| tasks := tasks s; signals := signals s; task_head := task_head s; current_task := current_task s;
     irq_disable_counter := irq_disable_counter s; scheduler_ready := scheduler_ready s;
     apic_eoi_required := apic_eoi_required s; apic_last_interrupt := apic_last_interrupt s;
     tss_rsp := tss_rsp s; gs_base := gs_base s; kernel_gs_base := kernel_gs_base s;
     timer := v; kern := kern s; events := events s |}.
Definition with_eoi r i s :=
  {| tasks := tasks s; signals := signals s; task_head := task_head s; current_task := current_task s;
     irq_disable_counter := irq_disable_counter s; scheduler_ready := scheduler_ready s;
     apic_eoi_required := r; apic_last_interrupt := i;
     tss_rsp := tss_rsp s; gs_base := gs_base s; kernel_gs_base := kernel_gs_base s;
     timer := timer s; kern := kern s; events := events s |}.
Definition log e s :=
  {| tasks := tasks s; signals := signals s; task_head := task_head s; current_task := current_task s;
     irq_disable_counter := irq_disable_counter s; scheduler_ready := scheduler_ready s;
     apic_eoi_required := apic_eoi_required s; apic_last_interrupt := apic_last_interrupt s;
     tss_rsp := tss_rsp s; gs_base := gs_base s; kernel_gs_base := kernel_gs_base s;
     timer := timer s; kern := kern s; events := events s ++ [e] |}.

Definition get_task_at s (a : Z) : outcome task := known (tasks s !! a).
Definition upd_task (a : Z) (f : task → task) s : outcome sched :=
  t ← get_task_at s a; Done (with_tasks (<[a := f t]> (tasks s)) s).

(** ** The scheduler lock: a nesting counter *)
Definition lock_scheduler s : sched := with_counter (s32 (irq_disable_counter s + 1)) s.
Definition unlock_scheduler s : sched := with_counter (s32 (irq_disable_counter s - 1)) s.

(** ** Choosing the next task *)
Definition runnable (t : task) : bool := (state t =? TASK_READY) || (state t =? TASK_EXECUTING).

(** Following [next] visits no task twice before it ends. *)
Definition task_fuel s : nat := S (size (tasks s)).

(** The search: the first runnable task after the current one, which is the last
    candidate itself. *)
Definition schedule_search s : outcome Z :=
  loop (task_fuel s) (λ current : Z,
    c ← get_task_at s current;
    let current := if task_next c =? 0 then task_head s else task_next c in
    c ← get_task_at s current;
    if runnable c then Done (inr current)
    else if current =? current_task s then Done (inr 0)
    else Done (inl current))
    (current_task s).

Definition schedule s : outcome (Z * sched) :=
  next_task ← schedule_search s;
  next_task ←
    (if next_task =? 0 then
       t ← get_task_at s (task_head s);
       if negb (state t =? TASK_IDLE) then Panic "Idle task is not valid or at head"
       else Done (task_head s)
     else Done next_task);
  if next_task =? 0 then Panic "No tasks found, not even idle!!!" else
  let prev_task := current_task s in
  c ← get_task_at s prev_task;
  s ← (if state c =? TASK_EXECUTING then upd_task prev_task (with_state TASK_READY) s else Done s);
  let s := with_current next_task s in
  c ← get_task_at s next_task;
  s ← (if state c =? TASK_READY then upd_task next_task (with_state TASK_EXECUTING) s else Done s);
  Done (prev_task, s).

(** ** Signals *)
(** [sigfree] leaves the contents of the structure in place. *)
Definition process_signals s : outcome sched :=
  t ← get_task_at s (current_task s);
  if signal_queue t =? 0 then Done s else
  let current := signal_queue t in
  c ← known (signals s !! current);
  s ← upd_task (current_task s) (with_queue (if negb (sig_next c =? 0) then sig_next c else 0)) s;
  handler ← (if sig_signal c <? 0 then Fault else known (signal_handlers t !! Z.to_nat (sig_signal c)));
  k ← sigfree current (kern s);
  let s := with_signals (signals s) k s in
  c ← known (signals s !! current);
  if negb (handler =? 0)
  then Done (log (CallHandler handler (sig_signal c) (signal_data c) (signal_data_size c)) s)
  else Done s.

(** ** Switching *)
Definition eoi_pending s : Z :=
  if negb (apic_eoi_required s =? 0) then apic_last_interrupt s else 0.

(** [tss_set_stack]: entry 0 for ring 0, entry 2 for ring 3. *)
Definition tss_set_stack (c : Z) (stack dpl : Z) s : outcome sched :=
  rsp ← known (tss_rsp s !! c);
  Done (with_tss (<[c := <[Z.to_nat (if dpl =? 0 then 0 else dpl - 1) := stack]> rsp]> (tss_rsp s)) s).

(** The code [yield] and [go] share: load the stacks and the GS base of the current
    task. *)
Definition load_task s : outcome sched :=
  t ← get_task_at s (current_task s);
  let st := static t in
  _ ← known (tss_rsp s !! processor st);
  if privilege st =? KERNEL_TASK then
    let s := with_gs (gs_base s) (context st) s in
    s ← tss_set_stack (processor st) (stack_top st) 0 s;
    tss_set_stack (processor st) (alt_stack_top st) 3 s
  else
    let s := with_gs (context st) (kernel_gs_base s) s in
    s ← tss_set_stack (processor st) (stack_top st) 3 s;
    tss_set_stack (processor st) (alt_stack_top st) 0 s.

Definition yield s : outcome sched :=
  let s := with_cpu (cli (kcpu (kern s))) s in
  if negb (irq_disable_counter s =? 0) || (scheduler_ready s =? 0)
  then Done (with_cpu (sti (kcpu (kern s))) s) else
  _ ← panic_unless (eoi_pending s =? 0) "EOI pending";
  let now := get_ticks_since_boot (timer s) in
  s ← upd_task (current_task s)
        (λ t, if negb (last_scheduled t =? 0)
              then with_times (u64 (cpu_time t + (now - last_scheduled t))) (last_scheduled t) t
              else t) s;
  '(prev, s) ← schedule s;
  s ← upd_task (current_task s) (λ t, with_times (cpu_time t) now t) s;
  s ← process_signals s;
  s ← load_task s;
  p ← get_task_at s prev;
  t ← get_task_at s (current_task s);
  Done (log (Switch (context (static p)) (context (static t))
                    (fxsave_region (static p)) (fxsave_region (static t))) s).

Definition block_task (reason : Z) s : outcome sched :=
  let s := lock_scheduler s in
  s ← upd_task (current_task s) (with_state reason) s;
  s ← yield s;
  Done (unlock_scheduler s).

Definition unblock_task (t : Z) s : outcome sched :=
  let s := lock_scheduler s in
  s ← upd_task t (with_state TASK_READY) s;
  s ← yield s;
  Done (unlock_scheduler s).


(** ** The task list *)
(** The lock taken at the start is released on every return. *)
Definition add_task (t : Z) s : outcome sched :=
  let s := lock_scheduler s in
  if task_head s =? 0 then Done (unlock_scheduler (with_head t s)) else
  last ← loop (task_fuel s) (λ current : Z,
           c ← get_task_at s current;
           if negb (task_next c =? 0) then Done (inl (task_next c)) else Done (inr current))
           (task_head s);
  s ← upd_task last (λ x, with_links t (task_prev x) x) s;
  s ← upd_task t (λ x, with_links (task_next x) last x) s;
  Done (unlock_scheduler s).

Definition remove_task (t : Z) s : outcome sched :=
  let s := lock_scheduler s in
  x ← get_task_at s t;
  if task_prev x =? 0 then
    let s := with_head (task_next x) s in
    s ← (if negb (task_head s =? 0)
         then upd_task (task_head s) (λ y, with_links (task_next y) 0 y) s else Done s);
    Done (unlock_scheduler s)
  else
    s ← upd_task (task_prev x) (λ y, with_links (task_next x) (task_prev y) y) s;
    x ← get_task_at s t;
    s ← (if negb (task_next x =? 0)
         then upd_task (task_next x) (λ y, with_links (task_next y) (task_prev x) y) s else Done s);
    Done (unlock_scheduler s).

(** [get_task] and [get_status] walk the list the same way, between a lock and an unlock
    that leave the counter as it was. *)
Definition find_task (found : task → bool) s : outcome Z :=
  if task_head s =? 0 then Done 0 else
  h ← get_task_at s (task_head s);
  if found h then Done (task_head s) else
  loop (task_fuel s) (λ current : Z,
    c ← get_task_at s current;
    if task_next c =? 0 then Done (inr 0) else
    n ← get_task_at s (task_next c);
    if found n then Done (inr (task_next c)) else Done (inl (task_next c)))
    (task_head s).

Definition get_task (p : Z) s : outcome Z := find_task (λ t, pid t =? p) s.
Definition get_status (st : Z) s : outcome Z := find_task (λ t, state t =? st) s.

(** An [int16_t] takes 65536 values. *)
Definition get_free_pid s : outcome Z :=
  loop (Z.to_nat 65536) (λ p : Z,
    t ← get_task p s;
    if negb (t =? 0) then Done (inl (s16 (p + 1))) else Done (inr p))
    1.

Definition get_current_task s : Z := current_task s.

(** ** State changes *)
Definition exit s : outcome sched :=
  let s := lock_scheduler s in
  s ← upd_task (current_task s) (λ t, with_state TASK_ZOMBIE (with_exit 0 (exit_signal t) t)) s;
  Done (unlock_scheduler s).

Definition kill_task (p : Z) s : outcome sched :=
  let s := lock_scheduler s in
  t ← get_task p s;
  if t =? 0 then Done (unlock_scheduler s) else
  s ← upd_task t (λ t, with_state TASK_ZOMBIE (with_exit 0 SIGKILL t)) s;
  Done (unlock_scheduler s).

Definition pause_task (t : Z) s : outcome sched :=
  s ← upd_task t (with_state TASK_UNINTERRUPTIBLE) (lock_scheduler s); Done (unlock_scheduler s).

Definition resume_task (t : Z) s : outcome sched :=
  s ← upd_task t (with_state TASK_READY) (lock_scheduler s); Done (unlock_scheduler s).

(** A signal number outside the table is a store outside the array. *)
Definition subscribe_signal (sig handler : Z) s : outcome sched :=
  let s := lock_scheduler s in
  t ← get_task_at s (current_task s);
  if (sig <? 0) || (Z.of_nat (List.length (signal_handlers t)) <=? sig) then Fault else
  s ← upd_task (current_task s) (λ t, with_handlers (<[Z.to_nat sig := handler]> (signal_handlers t)) t) s;
  Done (unlock_scheduler s).

(** sizeof(struct task_signal) *)
Definition SIGNAL_SIZE : Z := 32.

Definition signal_fuel s : nat := S (size (signals s)).

Definition add_signal (p sig data sz : Z) s : outcome sched :=
  let s := lock_scheduler s in
  t ← get_task p s;
  if t =? 0 then Done (unlock_scheduler s) else
  '(a, k) ← sigmalloc SIGNAL_SIZE (kern s);
  let s := with_signals (<[a := {| sig_signal := sig; signal_data := data; signal_data_size := sz;
                                   sig_next := 0 |}]> (signals s)) k s in
  x ← get_task_at s t;
  s ← (if signal_queue x =? 0 then upd_task t (with_queue a) s
       else
         last ← loop (signal_fuel s) (λ current : Z,
                  c ← known (signals s !! current);
                  if negb (sig_next c =? 0) then Done (inl (sig_next c)) else Done (inr current))
                  (signal_queue x);
         c ← known (signals s !! last);
         Done (with_signals (<[last := {| sig_signal := sig_signal c; signal_data := signal_data c;
                                          signal_data_size := signal_data_size c; sig_next := a |}]>
                               (signals s)) (kern s) s));
  Done (unlock_scheduler s).
End sched.
Arguments sched P : clear implicits.
