(* ===== verification/SchedulerSpec.v ===== *)
(** * What the scheduler guarantees

    The tasks form a doubly linked list; seen from the current task it is a ring, the
    order in which [schedule] considers the tasks. *)
From Stdlib Require Import String.
From stdpp Require Import gmap.
From S2P Require Import Prelude Dll Concurrency PageService Pit Paging Heap KernelHeap Scheduler.
#[local] Open Scope string_scope.
#[local] Open Scope list_scope.
#[local] Open Scope Z_scope.

#[global] Instance task_link : LinkNode task task := λ t n p, with_links n p t.

Section spec.
Context {P : Type} `{PageService P}.
Implicit Types (s : sched P) (l R : list (Z * task)).

Record task_list s l : Prop := {
  tl_head : task_head s = hd_addr l 0;
  tl_nodes : dseg (tasks s) 0 l 0;
  tl_nodup : NoDup l.*1;
}.

(** [R]: the tasks in the order of the search; the current one comes last. *)
Definition ring s R : Prop :=
  ∃ l1 c tc l2, task_list s (l1 ++ (c, tc) :: l2) ∧ current_task s = c ∧ R = l2 ++ l1 ++ [(c, tc)].

Fixpoint first_runnable R : Z :=
  match R with [] => 0 | (a, t) :: R => if runnable t then a else first_runnable R end.

Lemma get_task_ok s a t : tasks s !! a = Some t → get_task_at s a = Done t.
Proof. unfold get_task_at. by intros ->. Qed.

Lemma upd_task_ok s a f t :
  tasks s !! a = Some t → upd_task a f s = Done (with_tasks (<[a := f t]> (tasks s)) s).
Proof. intros E. unfold upd_task. by rewrite (get_task_ok _ _ _ E). Qed.

(** ** The search *)
Definition cyc_next s (t : task) : Z := if task_next t =? 0 then task_head s else task_next t.

Fixpoint chain s (a : Z) R : Prop :=
  match R with
  | [] => True
  | (b, t) :: R =>
      (∃ x, tasks s !! a = Some x ∧ cyc_next s x = b) ∧
      (∃ y, tasks s !! b = Some y ∧ runnable y = runnable t) ∧ chain s b R
  end.

Lemma chain_app s a R1 R2 : chain s a R1 → chain s (lst_addr a R1) R2 → chain s a (R1 ++ R2).
Proof.
  revert a. induction R1 as [|[b t] R1 IH]; intros a; [done|]. cbn.
  intros (Hx & Hy & H1) H2. split_and!; [done..|]. by apply IH.
Qed.

Lemma chain_segment s l1 a t seg l2 :
  task_list s (l1 ++ (a, t) :: seg ++ l2) → chain s a seg.
Proof.
  revert l1 a t. induction seg as [|[b u] seg IH]; intros l1 a t Hl; [done|]. cbn [chain].
  pose proof (dseg_lookup _ _ _ _ _ _ _ (tl_nodes _ _ Hl)) as [_ Ea].
  assert (Hl' : task_list s ((l1 ++ [(a, t)]) ++ (b, u) :: seg ++ l2)) by (by rewrite <- app_assoc).
  pose proof (dseg_lookup _ _ _ _ _ _ _ (tl_nodes _ _ Hl')) as [Hb Eb].
  split_and!.
  - eexists. split; [exact Ea|]. unfold cyc_next. cbn. by rewrite (proj2 (Z.eqb_neq b 0)) by done.
  - eexists. split; [exact Eb|done].
  - by eapply IH.
Qed.

Lemma chain_ring s l1 c tc l2 :
  task_list s (l1 ++ (c, tc) :: l2) → chain s c (l2 ++ l1 ++ [(c, tc)]).
Proof.
  intros Hl. apply chain_app.
  { apply (chain_segment s l1 c tc l2 []). by rewrite app_nil_r. }
  (* the last task leads back to the head *)
  assert (∃ x, tasks s !! lst_addr c l2 = Some x ∧ cyc_next s x = hd_addr (l1 ++ [(c, tc)]) 0) as Hx.
  { assert (Hlast : ∃ l3 u, l1 ++ (c, tc) :: l2 = l3 ++ [(lst_addr c l2, u)]).
    { destruct l2 as [|[b u] l3 _] using rev_ind; [by exists l1, tc|].
      rewrite lst_addr_snoc. exists (l1 ++ (c, tc) :: l3), u. by rewrite <- app_assoc. }
    destruct Hlast as (l3 & u & E). pose proof (tl_nodes _ _ Hl) as Hd. rewrite E in Hd.
    apply dseg_lookup in Hd as [_ Ed]. eexists. split; [exact Ed|]. unfold cyc_next. cbn.
    rewrite (tl_head _ _ Hl). by destruct l1 as [|[]]. }
  assert (Hseg : ∀ seg, (∃ l4, l1 ++ (c, tc) :: l2 = seg ++ l4) → seg ≠ [] → hd_addr seg 0 = hd_addr (l1 ++ [(c, tc)]) 0 →
    chain s (lst_addr c l2) seg).
  { intros [|[b u] seg] (l4 & E) Hne Hhd; [done|]. cbn in Hhd. cbn [chain].
    rewrite E in Hl. pose proof (dseg_lookup _ _ [] _ _ _ _ (tl_nodes _ _ Hl)) as [Hb Eb]. split_and!.
    - destruct Hx as (x & Ex & Hx). exists x. split; [done|]. congruence.
    - eexists. split; [exact Eb|done].
    - by apply (chain_segment s [] b u seg l4). }
  apply Hseg; [|by destruct l1|done]. exists l2. by rewrite <- app_assoc.
Qed.

Lemma search_chain s fuel a R c tc :
  chain s a (R ++ [(c, tc)]) → c ∉ R.*1 → current_task s = c → (List.length R < fuel)%nat →
  loop fuel (λ current : Z,
    c ← get_task_at s current;
    let current := if task_next c =? 0 then task_head s else task_next c in
    c ← get_task_at s current;
    if runnable c then Done (inr current)
    else if current =? current_task s then Done (inr 0)
    else Done (inl current)) a = Done (first_runnable (R ++ [(c, tc)])).
Proof.
  intros Hch Hc Hcur. revert a fuel Hch Hc.
  induction R as [|[b t] R IH]; intros a fuel Hch Hc Hf; destruct fuel as [|fuel]; cbn in Hf; try lia;
    cbn in Hch; destruct Hch as ((x & Ex & Hx) & (y & Ey & Hy) & Hch); cbn [loop];
    rewrite (get_task_ok _ _ _ Ex), bind_done; cbn zeta; unfold cyc_next in Hx; rewrite Hx;
    rewrite (get_task_ok _ _ _ Ey), bind_done, Hy; cbn [app first_runnable].
  - destruct (runnable tc); [done|]. by rewrite Hcur, Z.eqb_refl.
  - destruct (runnable t); [done|]. cbn in Hc.
    rewrite (proj2 (Z.eqb_neq b (current_task s))) by (rewrite Hcur; set_solver).
    apply IH; [done|set_solver|lia].
Qed.

Lemma first_runnable_app R1 R2 :
  (∀ a t, (a, t) ∈ R1 → runnable t = false) → first_runnable (R1 ++ R2) = first_runnable R2.
Proof.
  induction R1 as [|[a t] R1 IH]; intros Hn; [done|]. cbn. rewrite (Hn a t) by left.
  apply IH. intros b u Hb. eapply Hn. by right.
Qed.

Lemma ring_nodup s R : ring s R → NoDup R.*1.
Proof.
  intros (l1 & c & tc & l2 & Hl & _ & ->). 
  enough ((l2 ++ l1 ++ [(c, tc)]).*1 ≡ₚ (l1 ++ (c, tc) :: l2).*1) as -> by apply Hl.
  apply fmap_Permutation. rewrite Permutation_app_comm, <- app_assoc. done.
Qed.

Lemma ring_size s R : ring s R → (List.length R < task_fuel s)%nat.
Proof.
  intros (l1 & c & tc & l2 & Hl & _ & ->). unfold task_fuel.
  pose proof (dseg_size _ _ _ _ (tl_nodup _ _ Hl) (tl_nodes _ _ Hl)) as Hsz.
  rewrite !length_app in *. cbn in *. lia.
Qed.

Lemma schedule_search_ok s R : ring s R → schedule_search s = Done (first_runnable R).
Proof.
  intros Hr. pose proof (ring_nodup _ _ Hr) as Hnd. pose proof (ring_size _ _ Hr) as Hsz.
  destruct Hr as (l1 & c & tc & l2 & Hl & Hc & ->). unfold schedule_search.
  rewrite app_assoc in *. rewrite length_app in Hsz. cbn in Hsz. subst c.
  apply search_chain; [| |done|lia].
  - rewrite <- app_assoc. by apply chain_ring.
  - rewrite fmap_app in Hnd. cbn in Hnd. apply NoDup_app in Hnd as (_ & Hnd & _).
    intros Hin. apply (Hnd _ Hin). by left.
Qed.

(** ** Changing the state of a task *)
(** From state [v] to state [w]. *)
Definition shift (v w : Z) (t : task) : task := if state t =? v then with_state w t else t.

Definition upd_at (a : Z) (f : task → task) l : list (Z * task) :=
  (λ x : Z * task, if x.1 =? a then (x.1, f x.2) else x) <$> l.

Lemma upd_at_fst a f l : (upd_at a f l).*1 = l.*1.
Proof.
  unfold upd_at. rewrite <- list_fmap_compose. apply list_fmap_ext. intros i [b t] _. cbn.
  by destruct (b =? a).
Qed.

Lemma upd_at_app a f l1 l2 : upd_at a f (l1 ++ l2) = upd_at a f l1 ++ upd_at a f l2.
Proof. apply fmap_app. Qed.

Lemma upd_at_notin a f l : a ∉ l.*1 → upd_at a f l = l.
Proof.
  induction l as [|[b t] l IH]; [done|]. cbn. intros Hn.
  rewrite (proj2 (Z.eqb_neq b a)) by set_solver. f_equal. apply IH. set_solver.
Qed.

Lemma upd_at_mid a f l1 t l2 :
  NoDup (l1 ++ (a, t) :: l2).*1 → upd_at a f (l1 ++ (a, t) :: l2) = l1 ++ (a, f t) :: l2.
Proof.
  rewrite fmap_app. cbn. intros (_ & Hn1 & Hn2)%NoDup_app. apply NoDup_cons in Hn2 as [Hn2 _].
  assert (a ∉ l1.*1) by (intros Ha; apply (Hn1 a Ha); by left).
  rewrite upd_at_app, upd_at_notin by done. f_equal.
  change (upd_at a f ((a, t) :: l2)) with ((if a =? a then (a, f t) else (a, t)) :: upd_at a f l2).
  by rewrite Z.eqb_refl, upd_at_notin.
Qed.

(** An update that ignores the links. *)
Definition link_free (f : task → task) : Prop := ∀ n p t, f (with_links n p t) = with_links n p (f t).

Lemma shift_link_free v w : link_free (shift v w).
Proof. intros n p t. unfold shift. cbn. by destruct (state t =? v). Qed.

Lemma upd_task_list s l a f :
  task_list s l → a ∈ l.*1 → link_free f →
  ∃ m x, tasks s !! a = Some x ∧ m = <[a := f x]> (tasks s) ∧ upd_task a f s = Done (with_tasks m s) ∧
    task_list (with_tasks m s) (upd_at a f l).
Proof.
  intros Hl Ha Hf. apply list_elem_of_fmap in Ha as ([a' t] & -> & (l1 & l2 & ->)%list_elem_of_split).
  cbn [fst]. destruct (dseg_lookup _ _ _ _ _ _ _ (tl_nodes _ _ Hl)) as [Ha Ea].
  eexists _, _. split_and!; [exact Ea|done|by apply upd_task_ok|].
  pose proof (tl_nodup _ _ Hl) as Hnd. split; cbn.
  - rewrite (tl_head _ _ Hl), upd_at_mid by done. by rewrite !hd_addr_app.
  - rewrite upd_at_mid by done. eapply dseg_payload; [apply (tl_nodes _ _ Hl)| |].
    + rewrite lookup_insert_eq. f_equal. apply Hf.
    + intros b Hb. apply lookup_insert_ne. intros ->. rewrite fmap_app in Hnd. cbn in Hnd.
      apply NoDup_app in Hnd as (_ & Hn1 & Hn2). apply NoDup_cons in Hn2 as [Hn2 _].
      rewrite fmap_app in Hb. apply elem_of_app in Hb as [Hb|Hb]; [|done]. apply (Hn1 b Hb). by left.
  - by rewrite upd_at_fst.
Qed.

(** [if (t->state == v) t->state = w;] *)
Lemma cond_upd_list s l a v w :
  task_list s l → a ∈ l.*1 →
  ∃ m, (c ← get_task_at s a; if state c =? v then upd_task a (with_state w) s else Done s) =
         Done (with_tasks m s) ∧
    task_list (with_tasks m s) (upd_at a (shift v w) l).
Proof.
  intros Hl Ha. destruct (upd_task_list s l a (shift v w) Hl Ha (shift_link_free v w))
    as (m & x & Ex & -> & Hu & Hl').
  eexists. split; [|exact Hl']. rewrite (get_task_ok _ _ _ Ex), bind_done.
  unfold shift. destruct (state x =? v).
  - by rewrite (upd_task_ok _ _ _ _ Ex).
  - rewrite insert_id by done. by destruct s.
Qed.

(** ** [schedule] *)
(** The current task gives up the processor, the chosen one takes it. *)
Definition handover (c n : Z) R : list (Z * task) :=
  upd_at n (shift TASK_READY TASK_EXECUTING) (upd_at c (shift TASK_EXECUTING TASK_READY) R).

Lemma handover_app c n R1 R2 : handover c n (R1 ++ R2) = handover c n R1 ++ handover c n R2.
Proof. unfold handover. by rewrite !upd_at_app. Qed.

Lemma handover_fst c n R : (handover c n R).*1 = R.*1.
Proof. unfold handover. by rewrite !upd_at_fst. Qed.

Lemma ring_current s R : ring s R → ∃ R' t, R = R' ++ [(current_task s, t)].
Proof. intros (l1 & c & tc & l2 & _ & -> & ->). exists (l2 ++ l1), tc. by rewrite <- app_assoc. Qed.

(** The ring seen from another of its tasks. *)
Lemma rotate {T} (l1 l2 X Y : list T) c a :
  X ++ a :: Y = l2 ++ l1 ++ [c] →
  ∃ m1 m2, l1 ++ c :: l2 = m1 ++ a :: m2 ∧ Y ++ X ++ [a] = m2 ++ m1 ++ [a].
Proof.
  intros E. apply app_eq_app in E as (l & [[-> E]|[-> E]]).
  - (* in [l1 ++ [c]] *)
    apply app_eq_app in E as (l' & [[-> E]|[-> E]]); destruct l' as [|y l']; cbn in E.
    + injection E as -> ->. exists l, l2. by rewrite app_nil_r, <- !app_assoc.
    + injection E as <- ->. exists l, (l' ++ c :: l2). by rewrite <- !app_assoc.
    + injection E as -> <-. exists l1, l2. by rewrite app_nil_r, <- !app_assoc.
    + injection E as _ E. by destruct l'.
  - destruct l as [|y l]; cbn in E.
    + destruct l1 as [|x l1]; cbn in E; injection E as -> ->.
      * exists [], X. by rewrite app_nil_r.
      * exists [], (l1 ++ c :: X). by rewrite !app_nil_r, <- !app_assoc.
    + injection E as <- ->. exists (l1 ++ c :: X), l. by rewrite <- !app_assoc.
Qed.

Lemma handover_ring s X a t Y :
  ring s (X ++ (a, t) :: Y) →
  ∃ l, task_list s l ∧ current_task s ∈ l.*1 ∧ a ∈ l.*1 ∧
    ∀ m, task_list (with_tasks m s) (handover (current_task s) a l) →
      ring (with_current a (with_tasks m s)) (handover (current_task s) a (Y ++ X ++ [(a, t)])).
Proof.
  intros (l1 & c & tc & l2 & Hl & Hc & E).
  destruct (rotate _ _ _ _ _ _ E) as (m1 & m2 & E1 & E2).
  exists (l1 ++ (c, tc) :: l2). split_and!; [done|rewrite fmap_app; set_solver|rewrite E1, fmap_app; set_solver|].
  clear Hl. rewrite E1. intros m Hl.
  change ((a, t) :: m2) with ([(a, t)] ++ m2) in Hl. rewrite !handover_app in Hl.
  assert (∃ t', handover (current_task s) a [(a, t)] = [(a, t')]) as (t' & Et).
  { unfold handover. cbn. repeat case_match; cbn; repeat case_match; eauto. }
  rewrite E2, !handover_app, Et in *.
  exists (handover (current_task s) a m1), a, t', (handover (current_task s) a m2). split_and!; try done.
  by destruct Hl.
Qed.

(** The second half of [schedule]: hand the processor from the current task to [n]. *)
Lemma schedule_handover s l n :
  task_list s l → current_task s ∈ l.*1 → n ∈ l.*1 →
  ∃ m,
    (c ← get_task_at s (current_task s);
     s' ← (if state c =? TASK_EXECUTING then upd_task (current_task s) (with_state TASK_READY) s else Done s);
     let s' := with_current n s' in
     c ← get_task_at s' n;
     s' ← (if state c =? TASK_READY then upd_task n (with_state TASK_EXECUTING) s' else Done s');
     Done (current_task s, s')) = Done (current_task s, with_current n (with_tasks m s)) ∧
    task_list (with_tasks m s) (handover (current_task s) n l).
Proof.
  intros Hl Hc Hn.
  destruct (cond_upd_list s l (current_task s) TASK_EXECUTING TASK_READY Hl Hc) as (m1 & E1 & Hl1).
  destruct (get_task_at s (current_task s)) as [c| | | |]; try done.
  rewrite bind_done in E1. rewrite bind_done, E1, bind_done. cbn zeta.
  destruct (cond_upd_list (with_current n (with_tasks m1 s)) (upd_at (current_task s) (shift TASK_EXECUTING TASK_READY) l)
    n TASK_READY TASK_EXECUTING) as (m2 & E2 & Hl2).
  { by destruct Hl1. }
  { by rewrite upd_at_fst. }
  destruct (get_task_at (with_current n (with_tasks m1 s)) n) as [d| | | |]; try done.
  rewrite bind_done in E2. rewrite bind_done, E2. exists m2. split; [done|]. by destruct Hl2.
Qed.

Lemma schedule_next s X a t Y :
  ring s (X ++ (a, t) :: Y) → (∀ b u, (b, u) ∈ X → runnable u = false) → runnable t = true →
  ∃ m, schedule s = Done (current_task s, with_current a (with_tasks m s)) ∧
    ring (with_current a (with_tasks m s)) (handover (current_task s) a (Y ++ X ++ [(a, t)])).
Proof.
  intros Hr HX Ht. pose proof (schedule_search_ok _ _ Hr) as Es.
  rewrite first_runnable_app in Es by done. cbn [first_runnable] in Es. rewrite Ht in Es.
  destruct (handover_ring _ _ _ _ _ Hr) as (l & Hl & Hc & Ha & Hring).
  assert (Ha0 : a ≠ 0) by (by eapply dseg_nonzero; [apply (tl_nodes _ _ Hl)|]).
  destruct (schedule_handover s l a Hl Hc Ha) as (m & Em & Hm). exists m. split.
  - unfold schedule. rewrite Es, bind_done, (proj2 (Z.eqb_neq _ _) Ha0), bind_done.
    rewrite (proj2 (Z.eqb_neq _ _) Ha0). exact Em.
  - by apply Hring.
Qed.

(** With nothing to run, the idle task at the head of the list. *)
Lemma schedule_idle s R :
  ring s R → (∀ b u, (b, u) ∈ R → runnable u = false) →
  ∃ h t, tasks s !! task_head s = Some t ∧ h = task_head s ∧
    if state t =? TASK_IDLE
    then ∃ m X u Y, R = X ++ (h, u) :: Y ∧ state u = TASK_IDLE ∧
      schedule s = Done (current_task s, with_current h (with_tasks m s)) ∧
      ring (with_current h (with_tasks m s)) (handover (current_task s) h (Y ++ X ++ [(h, u)]))
    else schedule s = Panic "Idle task is not valid or at head".
Proof.
  intros Hr Hn. pose proof (schedule_search_ok _ _ Hr) as Es.
  assert (first_runnable R = 0) as E0.
  { rewrite <- (app_nil_r R). by rewrite first_runnable_app. }
  rewrite E0 in Es. pose proof Hr as (l1 & c & tc & l2 & Hl & _ & ER).
  assert (Hh : ∃ t l3, l1 ++ (c, tc) :: l2 = (task_head s, t) :: l3).
  { rewrite (tl_head _ _ Hl). destruct l1 as [|[b u] l1]; cbn; eauto. }
  destruct Hh as (t & l3 & El). pose proof Hl as Hl0. rewrite El in Hl0.
  destruct (dseg_lookup _ _ [] _ _ _ _ (tl_nodes _ _ Hl0)) as [Hh0 Eh].
  eexists _, _. split; [exact Eh|]. split; [done|]. cbn [state link_mk task_link with_links].
  assert (Hin : (task_head s, t) ∈ R).
  { assert ((task_head s, t) ∈ l1 ++ (c, tc) :: l2) as Hin by (rewrite El; left).
    rewrite ER. set_solver. }
  apply list_elem_of_split in Hin as (X & Y & ->).
  unfold schedule. rewrite Es, bind_done. cbn [Z.eqb].
  rewrite (get_task_ok _ _ _ Eh), bind_done. cbn [state link_mk task_link with_links].
  destruct (Z.eqb_spec (state t) TASK_IDLE); cbn [negb]; [|done].
  destruct (handover_ring _ _ _ _ _ Hr) as (l & Hl' & Hc & Ha & Hring).
  destruct (schedule_handover s l _ Hl' Hc Ha) as (m & Em & Hm).
  exists m, X, t, Y. split_and!; [done|done| |by apply Hring].
  rewrite bind_done, (proj2 (Z.eqb_neq _ _) Hh0). exact Em.
Qed.

(** ** Who holds the processor *)
(** Only the current task is marked as executing. *)
Definition exclusive s R : Prop :=
  ∀ a t, (a, t) ∈ R → state t = TASK_EXECUTING → a = current_task s.

Lemma handover_elem c n R a t :
  (a, t) ∈ handover c n R → ∃ u, (a, u) ∈ R ∧ runnable t = runnable u ∧
    (state t = TASK_EXECUTING → a ≠ n → state u = TASK_EXECUTING ∧ a ≠ c) ∧
    (a = n → state t ≠ TASK_READY).
Proof.
  unfold handover, upd_at. intros ([b v] & E & ([b' w] & E' & Hin)%list_elem_of_fmap)%list_elem_of_fmap.
  exists w. cbn in *. unfold shift, runnable in *.
  destruct (Z.eqb_spec b' c), (Z.eqb_spec b n); simplify_eq; cbn in *;
    repeat case_match; simplify_eq; zbool; cbn in *;
    unfold TASK_EXECUTING, TASK_READY in *; split_and!; try done; try lia; intros; try lia.
Qed.

Lemma handover_one c n a t : ∃ t', handover c n [(a, t)] = [(a, t')] ∧ runnable t' = runnable t.
Proof.
  unfold handover, upd_at, shift, runnable, TASK_READY, TASK_EXECUTING. cbn.
  destruct (a =? c), (a =? n) eqn:En; cbn; rewrite ?En; cbn;
    destruct (state t =? 0) eqn:E0, (state t =? 1) eqn:E1; cbn; rewrite ?En, ?E0, ?E1; cbn;
    eexists; split_and!; try done; cbn; rewrite ?E0, ?E1; done.
Qed.

Lemma handover_self c a t :
  ∃ t', handover c a [(a, t)] = [(a, t')] ∧ runnable t' = runnable t ∧ state t' ≠ TASK_READY ∧
    (runnable t = false → t' = t).
Proof.
  unfold handover, upd_at, shift, runnable, TASK_READY, TASK_EXECUTING. cbn.
  destruct (a =? c); cbn; rewrite Z.eqb_refl;
    destruct (state t =? 0) eqn:E0, (state t =? 1) eqn:E1; cbn; rewrite ?E0, ?E1; cbn;
    eexists; split_and!; try done; zbool; cbn; rewrite ?E0, ?E1; lia || done.
Qed.

Lemma first_runnable_split R :
  (∀ b u, (b, u) ∈ R → runnable u = false) ∨
  ∃ X a t Y, R = X ++ (a, t) :: Y ∧ (∀ b u, (b, u) ∈ X → runnable u = false) ∧ runnable t = true ∧
    first_runnable R = a.
Proof.
  induction R as [|[a t] R IH]; [left; by intros b u ?%elem_of_nil|].
  cbn [first_runnable]. destruct (runnable t) eqn:Ht.
  - right. exists [], a, t, R. split_and!; [done|by intros b u ?%elem_of_nil|done|done].
  - destruct IH as [IH|(X & b & u & Y & -> & HX & Hu & Ef)].
    + left. intros b u [[= -> ->]|Hb]%elem_of_cons; [done|by eapply IH].
    + right. exists ((a, t) :: X), b, u, Y. split_and!; try done.
      intros c v [[= -> ->]|Hc]%elem_of_cons; [done|by eapply HX].
Qed.

Lemma handover_exclusive s R R' n m :
  exclusive s R → (∀ x, x ∈ R' → x ∈ R) →
  exclusive (with_current n (with_tasks m s)) (handover (current_task s) n R').
Proof.
  intros Hex Hsub a t Hin Ht. cbn. destruct (handover_elem _ _ _ _ _ Hin) as (u & Hu & _ & Hx & _).
  destruct (decide (a = n)) as [|Hne]; [done|]. destruct (Hx Ht Hne) as [Hu' Hne'].
  exfalso. apply Hne'. eapply Hex; [|exact Hu']. by apply Hsub.
Qed.

Lemma ring_first_nonzero s X a t Y : ring s (X ++ (a, t) :: Y) → a ≠ 0.
Proof.
  intros Hr. destruct (handover_ring _ _ _ _ _ Hr) as (l & Hl & _ & Ha & _).
  by eapply dseg_nonzero; [apply (tl_nodes _ _ Hl)|].
Qed.

(** C16: [schedule] gives the processor to the first runnable task after the current one
    in list order (the current one itself is the last candidate), or to the idle task at
    the head of the list when nothing is runnable, and panics only when that task is not
    idle.  The task list keeps its tasks, the chosen runnable task is marked as
    executing, and at most the current task is marked so. *)
Theorem schedule_spec s R :
  ring s R → exclusive s R →
  (∃ s' R' t, schedule s = Done (current_task s, s') ∧ ring s' R' ∧ exclusive s' R' ∧
     R'.*1 ≡ₚ R.*1 ∧
     current_task s' = (if first_runnable R =? 0 then task_head s else first_runnable R) ∧
     (current_task s', t) ∈ R' ∧
     state t = (if first_runnable R =? 0 then TASK_IDLE else TASK_EXECUTING)) ∨
  (first_runnable R = 0 ∧ schedule s = Panic "Idle task is not valid or at head" ∧
     ∃ t, tasks s !! task_head s = Some t ∧ state t ≠ TASK_IDLE).
Proof.
  intros Hr Hex. destruct (first_runnable_split R) as [Hn|(X & a & t & Y & -> & HX & Ht & Ef)].
  - assert (first_runnable R = 0) as E0 by (rewrite <- (app_nil_r R); by rewrite first_runnable_app).
    rewrite E0. cbn [Z.eqb]. destruct (schedule_idle s R Hr Hn) as (h & th & Eh & -> & Hi).
    destruct (Z.eqb_spec (state th) TASK_IDLE) as [Hidle|Hidle]; [left|right; eauto].
    destruct Hi as (m & X & u & Y & -> & Hu & Es & Hr').
    destruct (handover_self (current_task s) (task_head s) u) as (u' & Eu & Hru & Hne & Hsame).
    eexists _, _, u'. split_and!; [exact Es|exact Hr'|eapply handover_exclusive; [exact Hex|set_solver]| |done| |].
    + rewrite handover_fst. apply fmap_Permutation. by rewrite (Permutation_app_comm Y), <- app_assoc.
    + rewrite !handover_app, Eu. set_solver.
    + rewrite Hsame; [done|]. apply (Hn (task_head s) u). set_solver.
  - rewrite Ef. assert (a ≠ 0) as Ha by (by eapply ring_first_nonzero).
    rewrite (proj2 (Z.eqb_neq _ _) Ha). left.
    destruct (schedule_next _ _ _ _ _ Hr HX Ht) as (m & Es & Hr').
    destruct (handover_self (current_task s) a t) as (u' & Eu & Hru & Hne & Hsame).
    eexists _, _, u'. split_and!; [exact Es|exact Hr'|eapply handover_exclusive; [exact Hex|set_solver]| |done| |].
    + rewrite handover_fst. apply fmap_Permutation. by rewrite (Permutation_app_comm Y), <- app_assoc.
    + rewrite !handover_app, Eu. set_solver.
    + unfold runnable in Hru, Ht. rewrite Ht in Hru. apply orb_true_iff in Hru. rewrite !Z.eqb_eq in Hru. tauto.
Qed.

Fixpoint schedule_n (n : nat) s : outcome (sched P) :=
  match n with O => Done s | S n => '(_, s) ← schedule s; schedule_n n s end.

Lemma schedule_reaches k s X a t Y :
  List.length X = k → ring s (X ++ (a, t) :: Y) → runnable t = true →
  ∃ n s', (1 ≤ n ≤ S k)%nat ∧ schedule_n n s = Done s' ∧ current_task s' = a.
Proof.
  revert s X a t Y. induction (lt_wf k) as [k _ IH]. intros s X a t Y Hk Hr Ht.
  destruct (first_runnable_split X) as [HX|(X1 & b & u & X2 & -> & HX1 & Hu & _)].
  - destruct (schedule_next s X a t Y Hr HX Ht) as (m & E & _).
    exists 1%nat, (with_current a (with_tasks m s)). split; [lia|]. cbn [schedule_n]. rewrite E. done.
  - rewrite <- app_assoc in Hr. cbn in Hr.
    destruct (schedule_next _ _ _ _ _ Hr HX1 Hu) as (m & E & Hr').
    rewrite <- app_assoc in Hr'. cbn in Hr'. rewrite handover_app in Hr'.
    set (s1 := with_current b (with_tasks m s)) in *.
    destruct (handover_one (current_task s) b a t) as (t' & Et & Ht'). rewrite Ht in Ht'.
    change ((a, t) :: Y ++ X1 ++ [(b, u)]) with ([(a, t)] ++ Y ++ X1 ++ [(b, u)]) in Hr'.
    rewrite handover_app, Et in Hr'. cbn [app] in Hr'.
    rewrite length_app in Hk. cbn in Hk.
    assert (List.length (handover (current_task s) b X2) = List.length X2) as Hlen
      by (unfold handover, upd_at; by rewrite !length_fmap).
    destruct (IH (List.length X2) ltac:(lia) s1 _ _ _ _ Hlen Hr' Ht')
      as (n & s' & Hn & En & Hc).
    exists (S n), s'. split; [lia|]. cbn [schedule_n]. rewrite E. done.
Qed.

(** C4: no runnable task starves. If the states of the tasks change only by scheduling,
    every runnable task gets the processor within as many calls of [schedule] as there
    are tasks. *)
Theorem schedule_fair s R a t :
  ring s R → (a, t) ∈ R → runnable t = true →
  ∃ n s', (1 ≤ n ≤ List.length R)%nat ∧ schedule_n n s = Done s' ∧ current_task s' = a.
Proof.
  intros Hr Hin Ht. apply list_elem_of_split in Hin as (X & Y & ->).
  destruct (schedule_reaches (List.length X) s X a t Y eq_refl Hr Ht) as (n & s' & Hn & E & Hc).
  exists n, s'. split; [|done]. rewrite length_app. cbn. lia.
Qed.
End spec.

(** ** A kernel with an idle task and two others *)
Definition static0 : task_static :=
  {| privilege := KERNEL_TASK; processor := 0; context := 0; stack_base := 0; stack_top := 0;
     alt_stack_base := 0; alt_stack_top := 0; fxsave_region := 0; task_pd := 0; ppid := 0;
     parent := 0; entry := 0 |}.

Definition task0 (st p n q : Z) : task :=
  {| state := st; pid := p; exit_code := 0; exit_signal := 0; signal_queue := 0;
     signal_handlers := replicate 32 0; cpu_time := 0; last_scheduled := 0; task_next := n;
     task_prev := q; static := static0 |}.

Definition sched0 : sched mmu :=
  {| tasks := list_to_map [(0x1000, task0 TASK_IDLE 0 0x2000 0);
                           (0x2000, task0 TASK_EXECUTING 1 0x3000 0x1000);
                           (0x3000, task0 TASK_READY 2 0 0x2000)];
     signals := ∅; task_head := 0x1000; current_task := 0x2000; irq_disable_counter := 0;
     scheduler_ready := 1; apic_eoi_required := 0; apic_last_interrupt := 0;
     tss_rsp := {[0 := [0; 0; 0]]}; gs_base := 0; kernel_gs_base := 0; timer := booted_pit;
     kern := kernel1; events := [] |}.

Definition ring0 : list (Z * task) :=
  [(0x3000, task0 TASK_READY 2 0 0); (0x1000, task0 TASK_IDLE 0 0 0);
   (0x2000, task0 TASK_EXECUTING 1 0 0)].

Lemma sched0_ring : ring sched0 ring0.
Proof.
  exists [(0x1000, task0 TASK_IDLE 0 0 0)], 0x2000, (task0 TASK_EXECUTING 1 0 0),
    [(0x3000, task0 TASK_READY 2 0 0)].
  split; [|done]. split; [done| |].
  - repeat split; done.
  - repeat constructor; set_solver.
Qed.

Lemma sched0_exclusive : exclusive sched0 ring0.
Proof.
  intros a t Ht He. unfold ring0 in Ht. rewrite !elem_of_cons, elem_of_nil in Ht.
  destruct Ht as [[= -> ->]|[[= -> ->]|[[= -> ->]|[]]]]; done.
Qed.

Lemma schedule_spec_witness :
  ∃ s' R', schedule sched0 = Done (0x2000, s') ∧ ring s' R' ∧ exclusive s' R' ∧ current_task s' = 0x3000.
Proof.
  destruct (schedule_spec sched0 ring0 sched0_ring sched0_exclusive)
    as [(s' & R' & t & E & Hr & He & _ & Hc & _)|[E _]].
  - exists s', R'. split_and!; [exact E|exact Hr|exact He|exact Hc].
  - exfalso. vm_compute in E. discriminate.
Defined.

Lemma schedule_fair_witness :
  ∃ n s', (1 ≤ n ≤ 3)%nat ∧ schedule_n n sched0 = Done s' ∧ current_task s' = 0x3000.
Proof.
  apply (schedule_fair sched0 ring0 0x3000 (task0 TASK_READY 2 0 0)); [apply sched0_ring| |reflexivity].
  left.
Defined.
