(* ===== verification/TaskSpec.v ===== *)
(** * The task list, process ids, blocking and signals *)
From Stdlib Require Import String.
From stdpp Require Import gmap.
From S2P Require Import Prelude Dll Concurrency PageService Pit Paging Alloc Heap KernelHeap Scheduler SchedulerSpec.
#[local] Open Scope list_scope.
#[local] Open Scope Z_scope.

Section spec.
Context {P : Type} `{PageService P}.
Implicit Types (s : sched P) (l : list (Z * task)).

Lemma list_fuel s l : task_list s l → (List.length l < task_fuel s)%nat.
Proof.
  intros Hl. unfold task_fuel.
  pose proof (dseg_size _ _ _ _ (tl_nodup _ _ Hl) (tl_nodes _ _ Hl)). lia.
Qed.

Lemma list_task s l1 a t l2 :
  task_list s (l1 ++ (a, t) :: l2) →
  a ≠ 0 ∧ get_task_at s a = Done (with_links (hd_addr l2 0) (lst_addr 0 l1) t).
Proof.
  intros Hl. destruct (dseg_lookup _ _ _ _ _ _ _ (tl_nodes _ _ Hl)) as [Ha Ea].
  split; [done|by apply get_task_ok].
Qed.

(** The scheduler lock only counts. *)
Lemma list_counter v s l : task_list s l → task_list (with_counter v s) l.
Proof. by intros []. Qed.

Lemma unlock_lock s :
  - 2 ^ 31 ≤ irq_disable_counter s < 2 ^ 31 - 1 →
  s32 (s32 (irq_disable_counter s + 1) - 1) = irq_disable_counter s.
Proof. intros Hc. rewrite (s32_small (_ + 1)) by lia. rewrite s32_small; lia. Qed.

(** ** Searching *)
Fixpoint first_found (found : task → bool) l : Z :=
  match l with [] => 0 | (a, t) :: l => if found t then a else first_found found l end.

Definition ignores_links (found : task → bool) : Prop := ∀ n p t, found (with_links n p t) = found t.

Lemma find_walk found s fuel l1 a t l2 :
  ignores_links found → task_list s (l1 ++ (a, t) :: l2) → (List.length l2 < fuel)%nat →
  loop fuel (λ current : Z,
    c ← get_task_at s current;
    if task_next c =? 0 then Done (inr 0) else
    n ← get_task_at s (task_next c);
    if found n then Done (inr (task_next c)) else Done (inl (task_next c))) a =
  Done (first_found found l2).
Proof.
  intros Hig. revert l1 a t l2.
  induction fuel as [|fuel IH]; intros l1 a t l2 Hl Hf; [lia|]. cbn [loop].
  destruct (list_task _ _ _ _ _ Hl) as [_ ->]. rewrite bind_done. cbn [task_next with_links].
  destruct l2 as [|[b u] l2]; [done|]. cbn [hd_addr first_found].
  assert (Hl' : task_list s ((l1 ++ [(a, t)]) ++ (b, u) :: l2)) by (by rewrite <- app_assoc).
  destruct (list_task _ _ _ _ _ Hl') as [Hb ->].
  rewrite (proj2 (Z.eqb_neq _ _) Hb), bind_done, Hig.
  destruct (found u); [done|]. cbn in Hf. eapply IH; [exact Hl'|lia].
Qed.

Lemma find_task_ok found s l :
  ignores_links found → task_list s l → find_task found s = Done (first_found found l).
Proof.
  intros Hig Hl. pose proof (list_fuel _ _ Hl) as Hfu. unfold find_task. rewrite (tl_head _ _ Hl).
  destruct l as [|[a t] l]; [done|]. cbn [hd_addr first_found].
  destruct (list_task _ [] _ _ _ Hl) as [Ha ->]. rewrite (proj2 (Z.eqb_neq _ _) Ha), bind_done, Hig.
  destruct (found t); [done|]. cbn in Hfu. eapply (find_walk _ _ _ []); [done|exact Hl|lia].
Qed.

Lemma get_task_find p s l : task_list s l → get_task p s = Done (first_found (λ t, pid t =? p) l).
Proof. by apply find_task_ok. Qed.

(** ** Adding and removing *)
Lemma add_walk s fuel l1 a t l2 :
  task_list s (l1 ++ (a, t) :: l2) → (List.length l2 < fuel)%nat →
  loop fuel (λ current : Z,
    c ← get_task_at s current;
    if negb (task_next c =? 0) then Done (inl (task_next c)) else Done (inr current)) a =
  Done (lst_addr a l2).
Proof.
  revert l1 a t l2. induction fuel as [|fuel IH]; intros l1 a t l2 Hl Hf; [lia|]. cbn [loop].
  destruct (list_task _ _ _ _ _ Hl) as [_ ->]. rewrite bind_done. cbn [task_next with_links].
  destruct l2 as [|[b u] l2]; [done|]. cbn [hd_addr lst_addr].
  assert (Hl' : task_list s ((l1 ++ [(a, t)]) ++ (b, u) :: l2)) by (by rewrite <- app_assoc).
  destruct (list_task _ _ _ _ _ Hl') as [Hb _]. rewrite (proj2 (Z.eqb_neq _ _) Hb). cbn [negb].
  rewrite bind_done. cbn in Hf. eapply IH; [exact Hl'|lia].
Qed.

(** The parts of the state no list operation touches. *)
Definition same_rest s s' : Prop :=
  current_task s' = current_task s ∧ irq_disable_counter s' = irq_disable_counter s ∧
  kern s' = kern s ∧ signals s' = signals s ∧ events s' = events s.

Lemma add_task_ok s l a x :
  - 2 ^ 31 ≤ irq_disable_counter s < 2 ^ 31 - 1 →
  task_list s l → a ≠ 0 → a ∉ l.*1 → tasks s !! a = Some x → task_next x = 0 → task_prev x = 0 →
  ∃ s', add_task a s = Done s' ∧ task_list s' (l ++ [(a, x)]) ∧ same_rest s s'.
Proof.
  intros Hcnt Hl Ha Hna Ex Hn Hp. unfold add_task. cbn [task_head lock_scheduler with_counter].
  assert (with_links 0 0 x = x) as Exx by (destruct x; cbn in *; by subst).
  pose proof (list_fuel _ _ Hl) as Hfu. rewrite (tl_head _ _ Hl).
  destruct l as [|[b t] l].
  - cbn [hd_addr Z.eqb]. eexists. split; [done|]. split; [|split_and!; try done; by apply unlock_lock].
    split; [done| |apply NoDup_singleton]. cbn. split_and!; try done. rewrite Ex. f_equal. by symmetry.
  - cbn [hd_addr]. destruct (list_task _ [] _ _ _ Hl) as [Hb _].
    rewrite (proj2 (Z.eqb_neq _ _) Hb). cbn in Hfu.
    set (s1 := lock_scheduler s). assert (Hl1 : task_list s1 ((b, t) :: l)) by (by apply list_counter).
    change (task_fuel s1) with (task_fuel s).
    rewrite (add_walk s1 _ [] b t l Hl1) by lia. rewrite bind_done.
    assert (∃ l0 c u, (b, t) :: l = l0 ++ [(c, u)] ∧ c = lst_addr b l) as (l0 & c & u & El & Ec).
    { destruct l as [|[c u] l _] using rev_ind; [by exists [], b, t|].
      exists ((b, t) :: l), c, u. by rewrite lst_addr_snoc. }
    rewrite <- Ec. rewrite El in *. pose proof (tl_nodes _ _ Hl1) as Hd.
    destruct (dseg_lookup _ _ _ _ _ _ _ Hd) as [Hc0 Ecu].
    assert (c ≠ a) as Hca by (intros ->; apply Hna; rewrite fmap_app; set_solver).
    rewrite (upd_task_ok _ _ _ _ Ecu), bind_done.
    erewrite upd_task_ok by (cbn; rewrite lookup_insert_ne by done; exact Ex). rewrite bind_done.
    eexists. split; [done|]. split; [|split_and!; try done; by apply unlock_lock]. split; cbn.
    + rewrite (tl_head _ _ Hl). by destruct l0 as [|[]].
    + apply (dseg_snoc (tasks s)); try done; [apply Hl..| | |].
      * intros l3 d v E. apply app_inj_tail in E as [<- [= <- <-]].
        by rewrite lookup_insert_ne, lookup_insert_eq by done.
      * rewrite lookup_insert_eq. f_equal. rewrite lst_addr_snoc. unfold link_mk, task_link.
        destruct x; cbn in *; by subst.
      * intros d Hd' Hd2. rewrite lst_addr_snoc in Hd2.
        rewrite !lookup_insert_ne; [done|done|by intros ->].
    + rewrite fmap_app. apply NoDup_app. split_and!; [apply Hl| |apply NoDup_singleton].
      intros d Hd' ->%list_elem_of_singleton. done.
Qed.

(** Relinking the node after the one that is taken out. *)
Lemma relink_after s b l2 :
  (∀ c v l3, l2 = (c, v) :: l3 → c ≠ 0 ∧ ∃ q, tasks s !! c = Some (with_links (hd_addr l3 0) q v)) →
  ∃ m, (if negb (hd_addr l2 0 =? 0)
        then upd_task (hd_addr l2 0) (λ y, with_links (task_next y) b y) s else Done s) =
       Done (with_tasks m s) ∧
    (∀ c v l3, l2 = (c, v) :: l3 → m !! c = Some (with_links (hd_addr l3 0) b v)) ∧
    (∀ c, c ∉ l2.*1 ∨ c ≠ hd_addr l2 0 → m !! c = tasks s !! c).
Proof.
  intros Hn. destruct l2 as [|[c v] l3]; cbn [hd_addr].
  - exists (tasks s). split; [by destruct s|]. split_and!; done.
  - destruct (Hn c v l3 eq_refl) as (Hc & q & Ec). rewrite (proj2 (Z.eqb_neq _ _) Hc). cbn [negb].
    rewrite (upd_task_ok _ _ _ _ Ec). eexists. split; [done|]. split.
    + intros ? ? ? [= <- <- <-]. by rewrite lookup_insert_eq.
    + intros d Hd. apply lookup_insert_ne. intros ->. cbn in Hd. set_solver.
Qed.

Lemma next_node s l1 a t l2 :
  task_list s (l1 ++ (a, t) :: l2) →
  ∀ c v l3, l2 = (c, v) :: l3 → c ≠ 0 ∧ tasks s !! c = Some (with_links (hd_addr l3 0) a v).
Proof.
  intros Hl c v l3 ->. pose proof (tl_nodes _ _ Hl) as Hd.
  change ((a, t) :: (c, v) :: l3) with ([(a, t)] ++ (c, v) :: l3) in Hd. rewrite app_assoc in Hd.
  apply dseg_lookup in Hd. by rewrite lst_addr_snoc in Hd.
Qed.

Lemma remove_first_ok s a t l2 :
  task_list s ((a, t) :: l2) →
  ∃ m, (if negb (hd_addr l2 0 =? 0)
        then upd_task (hd_addr l2 0) (λ y, with_links (task_next y) 0 y) (with_head (hd_addr l2 0) s)
        else Done (with_head (hd_addr l2 0) s)) = Done (with_tasks m (with_head (hd_addr l2 0) s)) ∧
    task_list (with_tasks m (with_head (hd_addr l2 0) s)) l2.
Proof.
  intros Hl. destruct (nodup_mid [] _ _ _ (tl_nodup _ _ Hl)) as (Hnd & _ & _ & _).
  pose proof (next_node s [] a t l2 Hl) as Hn.
  destruct (relink_after (with_head (hd_addr l2 0) s) 0 l2) as (m & E & Hm1 & Hm2).
  { intros c v l3 E. destruct (Hn c v l3 E). eauto. }
  exists m. split; [done|]. split; [done| |done]. cbn.
  apply (dseg_unlink (tasks s) _ [] a t); [apply Hl| |done| |done].
  - by intros [].
  - intros b Hb _ Hb2. by apply Hm2; right.
Qed.

Lemma remove_inner_ok s l0 b u a t l2 :
  task_list s ((l0 ++ [(b, u)]) ++ (a, t) :: l2) →
  ∃ m, (s' ← upd_task b (λ y, with_links (hd_addr l2 0) (task_prev y) y) s;
        x ← get_task_at s' a;
        if negb (task_next x =? 0)
        then upd_task (task_next x) (λ y, with_links (task_next y) (task_prev x) y) s' else Done s') =
       Done (with_tasks m s) ∧ task_list (with_tasks m s) ((l0 ++ [(b, u)]) ++ l2).
Proof.
  intros Hl. destruct (nodup_mid _ _ _ _ (tl_nodup _ _ Hl)) as (Hnd & Ha1 & Ha2 & H12).
  pose proof (next_node s _ a t l2 Hl) as Hn. rewrite fmap_app in Ha1, H12. cbn in Ha1, H12.
  destruct (dseg_lookup _ _ _ _ _ _ _ (tl_nodes _ _ Hl)) as [Ha Ea]. rewrite lst_addr_snoc in Ea.
  assert (Hl' : task_list s (l0 ++ (b, u) :: (a, t) :: l2)) by (by rewrite <- app_assoc in Hl).
  destruct (dseg_lookup _ _ _ _ _ _ _ (tl_nodes _ _ Hl')) as [Hb Eb].
  assert (b ≠ a ∧ b ∉ l2.*1) as [Hba Hb2] by (split; [set_solver|apply H12; set_solver]).
  rewrite (upd_task_ok _ _ _ _ Eb), bind_done. cbn [with_links task_prev link_mk task_link hd_addr].
  set (m1 := <[b := _]> (tasks s)).
  erewrite get_task_ok by (cbn; unfold m1; rewrite lookup_insert_ne by done; exact Ea). rewrite bind_done.
  cbn [with_links task_prev task_next link_mk task_link].
  destruct (relink_after (with_tasks m1 s) b l2) as (m & E & Hm1 & Hm2).
  { intros c v l3 E. destruct (Hn c v l3 E) as [Hc Ec]. split; [done|]. eexists. cbn. unfold m1.
    rewrite lookup_insert_ne; [exact Ec|]. intros ->. apply Hb2. rewrite E. by left. }
  exists m. split; [exact E|]. split; [cbn; rewrite (tl_head _ _ Hl)| |done].
  { rewrite <- !app_assoc. by destruct l0 as [|[]]. }
  cbn. apply (dseg_unlink (tasks s) _ (l0 ++ [(b, u)]) a t); [apply Hl| | | |done].
  - intros l3 c v E'. apply app_inj_tail in E' as [<- [= <- <-]].
    rewrite Hm2 by (by left). cbn. unfold m1. by rewrite lookup_insert_eq.
  - rewrite lst_addr_snoc. exact Hm1.
  - intros c Hc Hc1 Hc2. rewrite lst_addr_snoc in Hc1. rewrite Hm2 by (by right). cbn. unfold m1.
    by apply lookup_insert_ne.
Qed.

Lemma remove_task_ok s l1 a t l2 :
  - 2 ^ 31 ≤ irq_disable_counter s < 2 ^ 31 - 1 →
  task_list s (l1 ++ (a, t) :: l2) →
  ∃ s', remove_task a s = Done s' ∧ task_list s' (l1 ++ l2) ∧ same_rest s s'.
Proof.
  intros Hcnt Hl. unfold remove_task. set (s1 := lock_scheduler s).
  assert (Hl1 : task_list s1 (l1 ++ (a, t) :: l2)) by (by apply list_counter).
  destruct (list_task _ _ _ _ _ Hl1) as [Ha Ea]. rewrite Ea, bind_done.
  cbn [task_prev task_next with_links].
  destruct l1 as [|[b u] l0 _] using rev_ind.
  - cbn [lst_addr Z.eqb]. destruct (remove_first_ok s1 a t l2 Hl1) as (m & E & Hl2).
    cbn [task_head with_head]. cbn zeta. rewrite E, bind_done. eexists. split; [done|].
    split; [by apply list_counter|]. split_and!; try done. by apply unlock_lock.
  - rewrite lst_addr_snoc. destruct (remove_inner_ok s1 l0 b u a t l2 Hl1) as (m & E & Hl2).
    assert (b ≠ 0) as Hb.
    { rewrite <- app_assoc in Hl1. by destruct (list_task _ _ _ _ _ Hl1). }
    rewrite (proj2 (Z.eqb_neq _ _) Hb).
    destruct (upd_task b _ s1) as [s2| | | |]; try done. rewrite bind_done in E. rewrite bind_done.
    destruct (get_task_at s2 a) as [x| | | |]; try done. rewrite bind_done in E. rewrite bind_done, E, bind_done.
    eexists. split; [done|]. split; [by apply list_counter|]. split_and!; try done. by apply unlock_lock.
Qed.

(** C19: the task list is a sequence of tasks. [add_task] appends a task that is not in
    it, [remove_task] takes a task out wherever it stands and keeps the order of the
    others, and [get_task] returns the first task with the given process id, or NULL;
    none of them changes anything else and the nesting of the scheduler lock is what it
    was. *)
Theorem task_list_refines s l :
  - 2 ^ 31 ≤ irq_disable_counter s < 2 ^ 31 - 1 → task_list s l →
  (∀ a x, a ≠ 0 → a ∉ l.*1 → tasks s !! a = Some x → task_next x = 0 → task_prev x = 0 →
     ∃ s', add_task a s = Done s' ∧ task_list s' (l ++ [(a, x)]) ∧ same_rest s s') ∧
  (∀ l1 a t l2, l = l1 ++ (a, t) :: l2 →
     ∃ s', remove_task a s = Done s' ∧ task_list s' (l1 ++ l2) ∧ same_rest s s') ∧
  (∀ p, get_task p s = Done (first_found (λ t, pid t =? p) l)).
Proof.
  intros Hc Hl. split_and!.
  - intros a x Ha Hna Ex Hn Hp. by apply add_task_ok.
  - intros l1 a t l2 ->. by apply (remove_task_ok s l1 a t l2).
  - intros p. by apply get_task_find.
Qed.

(** ** Process ids *)
Definition pids l : list Z := (λ x : Z * task, pid x.2) <$> l.

Lemma first_found_pid s l p :
  task_list s l → first_found (λ t, pid t =? p) l = 0 ↔ p ∉ pids l.
Proof.
  intros Hl. assert (Hnz : ∀ a, a ∈ l.*1 → a ≠ 0) by (intros a; by eapply dseg_nonzero, Hl).
  clear Hl. induction l as [|[a t] l IH]; [by split; [intros _ ?%elem_of_nil|]|]. cbn.
  rewrite not_elem_of_cons. destruct (Z.eqb_spec (pid t) p) as [->|Hne].
  - split; [intros ->; exfalso; by apply (Hnz 0); [left|]|naive_solver].
  - rewrite IH; [naive_solver|]. intros b Hb. apply Hnz. by right.
Qed.

Lemma used_pids l p :
  (∀ q, 1 ≤ q < p → q ∈ pids l) → p - 1 ≤ Z.of_nat (List.length l).
Proof.
  intros Hq. destruct (decide (p ≤ 1)); [lia|].
  assert (Hsub : seqZ 1 (p - 1) ⊆+ pids l).
  { apply NoDup_submseteq; [apply NoDup_seqZ|]. intros q Hin%elem_of_seqZ. apply Hq. lia. }
  apply submseteq_length in Hsub. unfold pids in Hsub. rewrite length_seqZ, length_fmap in Hsub. lia.
Qed.

Lemma free_pid_loop s l fuel p :
  task_list s l → Z.of_nat (List.length l) < 32767 → 1 ≤ p →
  (∀ q, 1 ≤ q < p → q ∈ pids l) → Z.of_nat (List.length l) + 2 - p ≤ Z.of_nat fuel →
  ∃ r, loop fuel (λ p : Z,
      t ← get_task p s;
      if negb (t =? 0) then Done (inl (s16 (p + 1))) else Done (inr p)) p = Done r ∧
    p ≤ r ∧ (r ∉ pids l) ∧ ∀ q, 1 ≤ q < r → q ∈ pids l.
Proof.
  intros Hl Hlen. revert p. induction fuel as [|fuel IH]; intros p Hp Hq Hf.
  { pose proof (used_pids l p Hq). lia. }
  cbn [loop]. rewrite (get_task_find _ _ _ Hl), bind_done.
  destruct (Z.eqb_spec (first_found (λ t, pid t =? p) l) 0) as [E|E]; cbn [negb]; rewrite bind_done.
  - exists p. split_and!; [done|lia|by apply (first_found_pid s l p Hl)|done].
  - assert (Hin : p ∈ pids l).
    { destruct (decide (p ∈ pids l)); [done|]. exfalso. by apply E, (first_found_pid s l p Hl). }
    assert (Hq' : ∀ q, 1 ≤ q < p + 1 → q ∈ pids l).
    { intros q Hb. destruct (decide (q = p)) as [->|]; [done|]. apply Hq. lia. }
    pose proof (used_pids l (p + 1) Hq').
    replace (s16 (p + 1)) with (p + 1) by (symmetry; apply swrap_small; lia).
    destruct (IH (p + 1)) as (r & -> & ? & Hr); [lia|done|lia|]. exists r. split; [done|].
    split; [lia|done].
Qed.

(** with fewer than 32767 tasks [get_free_pid] returns, and returns the smallest
    positive process id no task has. *)
Theorem get_free_pid_fresh s l :
  task_list s l → Z.of_nat (List.length l) < 32767 →
  ∃ p, get_free_pid s = Done p ∧ 1 ≤ p ≤ Z.of_nat (List.length l) + 1 ∧ (p ∉ pids l) ∧
    ∀ q, 1 ≤ q < p → q ∈ pids l.
Proof.
  intros Hl Hlen. destruct (free_pid_loop s l (Z.to_nat 65536) 1 Hl Hlen) as (r & E & Hr & Hnot & Hq);
    [lia|intros; lia|lia|].
  exists r. split; [exact E|]. pose proof (used_pids l r Hq). split_and!; try done; lia.
Qed.

(** ** Blocking *)
Lemma yield_locked s :
  irq_disable_counter s ≠ 0 → yield s = Done (with_cpu (sti (cli (kcpu (kern s)))) s).
Proof.
  intros Hc. unfold yield. cbn [irq_disable_counter with_cpu kern kcpu].
  rewrite (proj2 (Z.eqb_neq _ _) Hc). cbn. done.
Qed.

(** What remains of blocking and unblocking: the state of one task, and [sti]. *)
Definition after_block (a v : Z) (t : task) s : sched P :=
  with_cpu (sti (cli (kcpu (kern s)))) (with_tasks (<[a := with_state v t]> (tasks s)) s).

Lemma locked_yield_ok s a v t :
  0 ≤ irq_disable_counter s < 2 ^ 31 - 1 → tasks s !! a = Some t →
  (s ← upd_task a (with_state v) (lock_scheduler s); s ← yield s; Done (unlock_scheduler s)) =
  Done (after_block a v t s).
Proof.
  intros Hc Et. erewrite (upd_task_ok (lock_scheduler s)) by exact Et. rewrite bind_done.
  rewrite yield_locked by (cbn; rewrite s32_small; lia). rewrite bind_done.
  unfold after_block, unlock_scheduler, lock_scheduler, with_counter, with_tasks, with_cpu. cbn -[sti cli].
  by rewrite unlock_lock by lia.
Qed.

(** [block_task] and [unblock_task] never switch tasks.  They call [yield] while they
    hold the scheduler lock, so [yield] returns at once: they change the state of the one
    task and turn the interrupts on, the current task, in its blocked state, goes on
    running, and no context switch is recorded. *)
Theorem block_task_keeps_running s t a u reason :
  0 ≤ irq_disable_counter s < 2 ^ 31 - 1 →
  tasks s !! current_task s = Some t → tasks s !! a = Some u →
  block_task reason s = Done (after_block (current_task s) reason t s) ∧
  unblock_task a s = Done (after_block a TASK_READY u s) ∧
  (∀ b v x, let s' := after_block b v x s in
    current_task s' = current_task s ∧ events s' = events s ∧ interrupts_on (kcpu (kern s')) = true).
Proof.
  intros Hc Et Eu. split_and!.
  - by apply locked_yield_ok.
  - by apply locked_yield_ok.
  - intros b v x s'. split_and!; [done|done|]. unfold interrupts_on, s', after_block.
    cbn [kern with_cpu kcpu]. by rewrite testbit_sti, orb_true_r.
Qed.
End spec.

(** ** Signals *)
Section signals.
Context {P : Type} `{PageServiceOk P}.
Implicit Types (s : sched P).
#[local] Existing Instance sigmalloc_allocator.
#[local] Existing Instance sigmalloc_allocator_ok.

(** A signal: its number, the data pointer and the size. *)
Definition signal_of (x : Z * Z * Z) (nx : Z) : task_signal :=
  {| sig_signal := x.1.1; signal_data := x.1.2; signal_data_size := x.2; sig_next := nx |}.

Definition hd_sig (l : list (Z * (Z * Z * Z))) : Z := match l with [] => 0 | (a, _) :: _ => a end.

Fixpoint sseg (m : gmap Z task_signal) (l : list (Z * (Z * Z * Z))) : Prop :=
  match l with
  | [] => True
  | (a, x) :: l => a ≠ 0 ∧ m !! a = Some (signal_of x (hd_sig l)) ∧ sseg m l
  end.

(** The signals [q] are waiting for the task at [a]; [F] are the other blocks of the
    signal heap. *)
Definition pending s (a : Z) (q : list (Z * Z * Z)) (F : gset Z) : Prop :=
  ∃ t l, tasks s !! a = Some t ∧ signal_queue t = hd_sig l ∧ sseg (signals s) l ∧ l.*2 = q ∧
    NoDup l.*1 ∧ al_ok (list_to_set l.*1 ∪ F) (kern s) ∧ (∀ b, b ∈ l.*1 → b ∉ F).

Lemma sseg_frame m m' l : (∀ a, a ∈ l.*1 → m' !! a = m !! a) → sseg m l → sseg m' l.
Proof.
  induction l as [|[a x] l IH]; [done|]. cbn. intros Hm (Ha & Ea & Hl). split_and!; [done| |].
  - rewrite Hm; [done|by left].
  - apply IH; [|done]. intros b Hb. apply Hm. by right.
Qed.

Lemma sseg_size m l : sseg m l → NoDup l.*1 → (List.length l ≤ size m)%nat.
Proof.
  intros Hl Hnd. rewrite <- size_dom, <- (length_fmap fst), <- (size_list_to_set (C := gset Z)) by done.
  apply subseteq_size. intros a. rewrite elem_of_list_to_set, elem_of_dom.
  clear Hnd. induction l as [|[b x] l IH]; cbn; [by intros ?%elem_of_nil|].
  destruct Hl as (_ & Eb & Hl). intros [->|Ha]%elem_of_cons; eauto.
Qed.

(** One signal is taken off the queue and its block given back. *)
Lemma process_signals_ok s q F sig data sz t h :
  pending s (current_task s) ((sig, data, sz) :: q) F →
  tasks s !! current_task s = Some t → 0 ≤ sig → signal_handlers t !! Z.to_nat sig = Some h →
  ∃ s', process_signals s = Done s' ∧ current_task s' = current_task s ∧
    pending s' (current_task s) q F ∧
    events s' = events s ++ (if h =? 0 then [] else [CallHandler h sig data sz]) ∧
    ∃ nx, tasks s' !! current_task s = Some (with_queue nx t).
Proof.
  intros (t' & l & Et' & Eq & Hl & Elq & Hnd & Hal & HF) Et Hsig Hh. rewrite Et in Et'. injection Et' as <-.
  destruct l as [|[a x] l]; [done|]. cbn in Elq. injection Elq as -> Elq. cbn in Hl, Eq.
  destruct Hl as (Ha & Ea & Hl). cbn in Hnd. apply NoDup_cons in Hnd as [Hna Hnd].
  destruct (al_free_ok _ a _ Hal) as (k & Ek & Hk); [cbn; set_solver|]. cbn [al_free sigmalloc_allocator] in Ek.
  unfold process_signals. rewrite (get_task_ok _ _ _ Et), bind_done, Eq.
  rewrite (proj2 (Z.eqb_neq _ _) Ha), Ea. cbn [known]. rewrite bind_done.
  rewrite (upd_task_ok _ _ _ _ Et), bind_done.
  cbn [sig_signal signal_of fst snd sig_next]. destruct (Z.ltb_spec sig 0); [lia|].
  rewrite Hh. cbn [known kern with_tasks]. rewrite bind_done, Ek, bind_done.
  cbn [signals with_signals with_tasks]. rewrite Ea. cbn [known]. rewrite bind_done.
  cbn [sig_signal signal_data signal_data_size signal_of fst snd].
  assert ((if negb (hd_sig l =? 0) then hd_sig l else 0) = hd_sig l) as ->
    by (destruct (Z.eqb_spec (hd_sig l) 0); cbn; congruence).
  set (m := <[current_task s := _]> (tasks s)).
  assert (Hp : ∀ s', tasks s' = m → signals s' = signals s → kern s' = k → pending s' (current_task s) q F).
  { intros s' E1 E2 E3. exists (with_queue (hd_sig l) t), l. rewrite E1, E2, E3. unfold m.
    rewrite lookup_insert_eq. split_and!; try done.
    - eapply (eq_rect _ (λ X, al_ok X k) Hk). pose proof (HF a). cbn in *. set_solver.
    - intros b Hb. apply HF. by right. }
  destruct (h =? 0); cbn [negb]; eexists; (split; [done|]); cbn; rewrite ?app_nil_r; split_and!; try done;
    try (by apply Hp); exists (hd_sig l); unfold m; by rewrite lookup_insert_eq.
Qed.

(** The walk to the end of the queue. *)
Lemma queue_walk s fuel a x l :
  sseg (signals s) ((a, x) :: l) → (List.length l < fuel)%nat →
  ∃ l0 b y, (a, x) :: l = l0 ++ [(b, y)] ∧
  loop fuel (λ current : Z,
    c ← known (signals s !! current);
    if negb (sig_next c =? 0) then Done (inl (sig_next c)) else Done (inr current)) a = Done b.
Proof.
  revert a x l. induction fuel as [|fuel IH]; intros a x l Hl Hf; [lia|]. cbn [loop].
  destruct Hl as (Ha & Ea & Hl). rewrite Ea. cbn [known]. rewrite bind_done. cbn [sig_next signal_of].
  destruct l as [|[b y] l]; [by exists [], a, x|]. cbn [hd_sig].
  assert (b ≠ 0) as Hb by apply Hl. rewrite (proj2 (Z.eqb_neq _ _) Hb). cbn [negb].
  cbn in Hf. destruct (IH b y l Hl ltac:(lia)) as (l0 & c & z & E & EL).
  exists ((a, x) :: l0), c, z. split; [by rewrite E|]. rewrite bind_done. exact EL.
Qed.

Lemma sseg_snoc m m' l0 b y a x :
  sseg m (l0 ++ [(b, y)]) → NoDup (l0 ++ [(b, y)]).*1 → a ≠ 0 →
  m' !! b = Some (signal_of y a) → m' !! a = Some (signal_of x 0) →
  (∀ c, c ≠ b → c ≠ a → m' !! c = m !! c) → a ∉ (l0 ++ [(b, y)]).*1 →
  sseg m' ((l0 ++ [(b, y)]) ++ [(a, x)]).
Proof.
  intros Hl Hnd Ha Eb Ea Hm Hna. induction l0 as [|[c z] l0 IH]; cbn in *.
  - destruct Hl as (? & _ & _). done.
  - destruct Hl as (Hc & Ec & Hl). apply NoDup_cons in Hnd as [Hcn Hnd]. split_and!; [done| |].
    + rewrite Hm; [|rewrite fmap_app in Hcn; set_solver|set_solver]. rewrite Ec. by destruct l0 as [|[]].
    + apply IH; [done|done|set_solver].
Qed.

Lemma add_signal_ok s l q F p a sig data sz :
  - 2 ^ 31 ≤ irq_disable_counter s < 2 ^ 31 - 1 →
  task_list s l → first_found (λ t, pid t =? p) l = a → a ≠ 0 → pending s a q F →
  returns_or_panics (add_signal p sig data sz s) ∧
  ∀ s', add_signal p sig data sz s = Done s' →
    pending s' a (q ++ [(sig, data, sz)]) F ∧ current_task s' = current_task s ∧
    events s' = events s ∧ irq_disable_counter s' = irq_disable_counter s.
Proof.
  intros Hcnt Hl Ef Ha (t & L & Et & Eq & HL & ELq & Hnd & Hal & HF).
  unfold add_signal. rewrite (get_task_find p (lock_scheduler s) l) by (by apply list_counter).
  rewrite Ef, bind_done, (proj2 (Z.eqb_neq _ _) Ha). cbn [kern lock_scheduler with_counter].
  destruct (al_malloc_ok _ SIGNAL_SIZE _ Hal) as [Hrop Hm]; [unfold SIGNAL_SIZE; lia|].
  apply (rop_bind (λ '(r, k'), (r ∉ (list_to_set L.*1 ∪ F : gset Z)) ∧
    al_ok ({[r]} ∪ (list_to_set L.*1 ∪ F)) k')); [done|intros [r k']; apply Hm|].
  intros [r k'] [Hnot Hok]. assert (r ≠ 0) as Hr0 by (eapply al_nonnull; [exact Hok|set_solver]).
  assert (HrL : r ∉ L.*1) by set_solver. assert (HrF : r ∉ F) by set_solver.
  set (s1 := with_signals _ k' (lock_scheduler s)).
  assert (Hp : ∀ s2 nq L', tasks s2 = <[a := with_queue nq t]> (tasks s) ∨ tasks s2 = tasks s ∧ nq = signal_queue t →
    kern s2 = k' → sseg (signals s2) (L ++ [(r, (sig, data, sz))]) → nq = hd_sig L' →
    L' = L ++ [(r, (sig, data, sz))] → pending s2 a (q ++ [(sig, data, sz)]) F).
  { intros s2 nq L' Hts Hks Hsg -> ->. exists (with_queue (hd_sig (L ++ [(r, (sig, data, sz))])) t), (L ++ [(r, (sig, data, sz))]).
    split_and!; try done.
    - destruct Hts as [->|[-> E]]; [by rewrite lookup_insert_eq|]. rewrite Et. rewrite E. by destruct t.
    - by rewrite fmap_app, ELq.
    - rewrite fmap_app. apply NoDup_app. split_and!; [done| |apply NoDup_singleton].
      intros b Hb ->%list_elem_of_singleton. done.
    - rewrite Hks. eapply (eq_rect _ (λ X, al_ok X k') Hok). rewrite fmap_app. cbn. set_solver.
    - intros b. rewrite fmap_app. intros [Hb|Hb]%elem_of_app; [by apply HF|].
      cbn in Hb. by apply list_elem_of_singleton in Hb as ->. }
  rewrite (get_task_ok s1 a t Et), bind_done, Eq.
  destruct L as [|[b x] L].
  - cbn [hd_sig Z.eqb]. rewrite (upd_task_ok s1 a _ t Et), bind_done. split; [apply rop_done|].
    intros s' [= <-]. split; [|split_and!; try done; by apply unlock_lock].
    apply (Hp _ r [(r, (sig, data, sz))]); try done; [by left|]. cbn. split_and!; try done.
    by rewrite lookup_insert_eq.
  - cbn [hd_sig]. rewrite (proj2 (Z.eqb_neq b 0)) by apply HL.
    assert (HL1 : sseg (signals s1) ((b, x) :: L)).
    { eapply sseg_frame; [|exact HL]. intros c Hc. apply lookup_insert_ne. by intros ->. }
    destruct (queue_walk s1 (signal_fuel s1) b x L HL1) as (L0 & c & y & EL & ELoop).
    { pose proof (sseg_size _ _ HL1 Hnd) as Hsz. unfold signal_fuel. cbn in Hsz |- *. lia. }
    rewrite ELoop, bind_done. rewrite EL in *.
    assert (Hc : signals s1 !! c = Some (signal_of y 0) ∧ c ≠ r).
    { split; [|intros ->; apply HrL; rewrite fmap_app; set_solver].
      clear -HL1. induction L0 as [|[d z] L0 IH]; cbn in HL1; [by destruct HL1 as (_ & ? & _)|].
      apply IH, HL1. }
    destruct Hc as [Ec Hcr]. rewrite Ec. cbn [known]. rewrite !bind_done. split; [apply rop_done|].
    intros s' [= <-]. split; [|split_and!; try done; by apply unlock_lock].
    apply (Hp _ (signal_queue t) ((L0 ++ [(c, y)]) ++ [(r, (sig, data, sz))])); try done; [by right| |].
    + cbn. apply (sseg_snoc (signals s)); try done; [by rewrite lookup_insert_eq| |].
      * rewrite lookup_insert_ne by done. by rewrite lookup_insert_eq.
      * intros d Hd Hd'. by rewrite !lookup_insert_ne by done.
    + rewrite Eq. by destruct L0 as [|[]].
Qed.

(** C18: signals are delivered in the order they were sent, one per switch.  [add_signal]
    puts a signal behind those already waiting for the task with the given process id; on
    a task with waiting signals [process_signals] takes the first one off the queue, gives
    its block back and calls the handler the task registered for it, if any, with the
    data it was sent with. *)
Theorem signals_fifo s l q F p a :
  - 2 ^ 31 ≤ irq_disable_counter s < 2 ^ 31 - 1 →
  task_list s l → first_found (λ t, pid t =? p) l = a → a ≠ 0 → pending s a q F →
  (∀ sig data sz,
     returns_or_panics (add_signal p sig data sz s) ∧
     ∀ s', add_signal p sig data sz s = Done s' → pending s' a (q ++ [(sig, data, sz)]) F ∧
       current_task s' = current_task s ∧ events s' = events s) ∧
  (∀ sig data sz q' t h,
     q = (sig, data, sz) :: q' → current_task s = a → tasks s !! a = Some t →
     0 ≤ sig → signal_handlers t !! Z.to_nat sig = Some h →
     ∃ s', process_signals s = Done s' ∧ pending s' a q' F ∧ current_task s' = a ∧
       events s' = events s ++ (if h =? 0 then [] else [CallHandler h sig data sz])).
Proof.
  intros Hc Hl Ef Ha Hp. split.
  - intros sig data sz. destruct (add_signal_ok s l q F p a sig data sz Hc Hl Ef Ha Hp) as [Hrop Hs].
    split; [done|]. intros s' E. by destruct (Hs s' E) as (? & ? & ? & _).
  - intros sig data sz q' t h -> Ecur Et Hsig Hh. rewrite <- Ecur in Hp, Et.
    destruct (process_signals_ok s q' F sig data sz t h Hp Et Hsig Hh) as (s' & E & Ec' & Hp' & Ee & _).
    exists s'. rewrite <- Ecur. split_and!; done.
Qed.
End signals.

(** ** Witnesses *)
Lemma sched0_list :
  task_list sched0 [(0x1000, task0 TASK_IDLE 0 0 0); (0x2000, task0 TASK_EXECUTING 1 0 0);
                    (0x3000, task0 TASK_READY 2 0 0)].
Proof. split; [done|repeat split; done|repeat constructor; set_solver]. Qed.

Lemma task_list_refines_witness :
  ∃ s', remove_task 0x2000 sched0 = Done s' ∧
    task_list s' [(0x1000, task0 TASK_IDLE 0 0 0); (0x3000, task0 TASK_READY 2 0 0)].
Proof.
  destruct (task_list_refines sched0 _ ltac:(cbn; lia) sched0_list) as (_ & Hr & _).
  destruct (Hr [(0x1000, task0 TASK_IDLE 0 0 0)] 0x2000 (task0 TASK_EXECUTING 1 0 0)
    [(0x3000, task0 TASK_READY 2 0 0)] eq_refl) as (s' & E & Hl & _).
  exists s'. split; [exact E|exact Hl].
Defined.

Lemma get_free_pid_fresh_witness : ∃ p, get_free_pid sched0 = Done p ∧ 1 ≤ p ≤ 4.
Proof.
  destruct (get_free_pid_fresh sched0 _ sched0_list ltac:(cbn; lia)) as (p & E & Hp & _).
  exists p. split; [exact E|exact Hp].
Defined.

Lemma block_task_keeps_running_witness :
  block_task TASK_INTERRUPTIBLE sched0 =
  Done (after_block 0x2000 TASK_INTERRUPTIBLE (task0 TASK_EXECUTING 1 0x3000 0x1000) sched0).
Proof.
  apply (block_task_keeps_running sched0 (task0 TASK_EXECUTING 1 0x3000 0x1000) 0x3000
    (task0 TASK_READY 2 0 0x2000) TASK_INTERRUPTIBLE); [cbn; lia|reflexivity|reflexivity].
Defined.

(** The signal heap of this kernel is ready and empty. *)
Definition kernel2 : kernel (P := mmu) :=
  {| kcpu := kcpu kernel1; kmemory := kmemory kernel1; kernelGlobalHeap := kernelSignalHeap kernel1;
     kernelSleepHeap := kernelSleepHeap kernel1; kernelSignalHeap := kernelGlobalHeap kernel1 |}.

Definition sched1 : sched mmu := with_signals ∅ kernel2 sched0.

Lemma sched1_pending : pending sched1 0x2000 [] ∅.
Proof.
  exists (task0 TASK_EXECUTING 1 0x3000 0x1000), []. split_and!; try done.
  - by apply NoDup_nil.
  - exists []. split; [apply kernel1_ready|done].
Qed.

Lemma signals_fifo_witness :
  ∃ s', add_signal 1 9 0x77 8 sched1 = Done s' ∧ pending s' 0x2000 [(9, 0x77, 8)] ∅.
Proof.
  destruct (signals_fifo sched1 [(0x1000, task0 TASK_IDLE 0 0 0); (0x2000, task0 TASK_EXECUTING 1 0 0);
    (0x3000, task0 TASK_READY 2 0 0)] [] ∅ 1 0x2000) as [Ha _];
    [cbn; lia|destruct sched0_list; split; assumption|reflexivity|lia|apply sched1_pending|].
  destruct (is_done_returns (add_signal 1 9 0x77 8 sched1)) as [s' E]; [by vm_compute|].
  exists s'. split; [exact E|]. apply (Ha 9 0x77 8), E.
Defined.
