(* ===== verification/Sleep.v ===== *)
(** * Sleeping and waking up (src/src/sched/sline.c, sline.h)

    Two queues of sleepers, one ordered by nothing but arrival for timed sleeps and one
    for tasks that wait for an address, under one spinlock.  The entries are blocks of
    the sleep heap. *)
From stdpp Require Import gmap.
From S2P Require Import Prelude Dll Concurrency PageService Pit Heap Scheduler.
#[local] Open Scope Z_scope.

Definition SLEEP_AWAITING_IO : Z := 1.

Record sleep_entry := {
  started_at : Z;
  expires_in : Z;
  sleep_reason : Z;
  sq_task : Z;
}.

Record sleep_queue := { sq_entry : sleep_entry; sq_prev : Z; sq_next : Z }.

#[global] Instance sleep_link : LinkNode sleep_queue sleep_entry := λ e n p,
  {| sq_entry := e; sq_prev := p; sq_next := n |}.

(** sizeof(struct sleep_queue) *)
Definition SQ_SIZE : Z := 48.

Section sleep.
Context {P : Type} `{PageService P}.

Record sline := {
  queues : gmap Z sleep_queue;
  sleep_time_queue_head : Z;
  sleep_reason_queue_head : Z;
  sleep_lock : spinlock_t;
  sch : sched P;
}.
Implicit Types s : sline.

Definition with_queues m s := {| queues := m; sleep_time_queue_head := sleep_time_queue_head s;
  sleep_reason_queue_head := sleep_reason_queue_head s; sleep_lock := sleep_lock s; sch := sch s |}.
Definition with_time_head v s := {| queues := queues s; sleep_time_queue_head := v;
  sleep_reason_queue_head := sleep_reason_queue_head s; sleep_lock := sleep_lock s; sch := sch s |}.
Definition with_reason_head v s := {| queues := queues s; sleep_time_queue_head := sleep_time_queue_head s;
  sleep_reason_queue_head := v; sleep_lock := sleep_lock s; sch := sch s |}.
Definition with_lock l s := {| queues := queues s; sleep_time_queue_head := sleep_time_queue_head s;
  sleep_reason_queue_head := sleep_reason_queue_head s; sleep_lock := l; sch := sch s |}.
Definition with_sch x s := {| queues := queues s; sleep_time_queue_head := sleep_time_queue_head s;
  sleep_reason_queue_head := sleep_reason_queue_head s; sleep_lock := sleep_lock s; sch := x |}.
Definition with_kern k s := with_sch (with_signals (signals (sch s)) k (sch s)) s.

Definition get_sq s (a : Z) : outcome sleep_queue := known (queues s !! a).
Definition set_sq_next (a v : Z) s : outcome sline :=
  q ← get_sq s a; Done (with_queues (<[a := {| sq_entry := sq_entry q; sq_prev := sq_prev q; sq_next := v |}]> (queues s)) s).
Definition set_sq_prev (a v : Z) s : outcome sline :=
  q ← get_sq s a; Done (with_queues (<[a := {| sq_entry := sq_entry q; sq_prev := v; sq_next := sq_next q |}]> (queues s)) s).

Definition acquire s : outcome sline :=
  '(c, l) ← acquire_spinlock (kcpu (kern (sch s))) (sleep_lock s);
  Done (with_lock l (with_sch (with_cpu c (sch s)) s)).
Definition release s : sline :=
  let '(c, l) := release_spinlock (kcpu (kern (sch s))) (sleep_lock s) in
  with_lock l (with_sch (with_cpu c (sch s)) s).

(** [if (sq->task->state == TASK_UNINTERRUPTIBLE) sq->task->state = TASK_READY;] *)
Definition resume (t : Z) s : outcome sline :=
  x ← get_task_at (sch s) t;
  if state x =? TASK_UNINTERRUPTIBLE
  then c ← upd_task t (with_state TASK_READY) (sch s); Done (with_sch c s)
  else Done s.

(** Take the entry [a] out of the queue whose head [set_head] stores, and free it. *)
Definition unlink_sq (set_head : Z → sline → sline) (a : Z) s : outcome sline :=
  q ← get_sq s a;
  s ← (if negb (sq_prev q =? 0) then set_sq_next (sq_prev q) (sq_next q) s
       else Done (set_head (sq_next q) s));
  s ← (if negb (sq_next q =? 0) then set_sq_prev (sq_next q) (sq_prev q) s else Done s);
  k ← sfree a (kern (sch s));
  Done (with_queues (delete a (queues s)) (with_kern k s)).

Definition sq_fuel s : nat := S (size (queues s)).

Definition expired (now : Z) (e : sleep_entry) : bool :=
  negb (expires_in e =? 0) && (u64 (now - started_at e) >=? expires_in e).

Definition wakeup_handler s : outcome sline :=
  s ← acquire s;
  s ← loop (sq_fuel s) (λ '(a, s),
        if a =? 0 then Done (inr s) else
        q ← get_sq s a;
        if sq_task (sq_entry q) =? 0 then Done (inl (sq_next q, s)) else
        if expired (get_ticks_since_boot (timer (sch s))) (sq_entry q) then
          s ← resume (sq_task (sq_entry q)) s;
          s ← unlink_sq with_time_head a s;
          Done (inl (sq_next q, s))
        else Done (inl (sq_next q, s)))
        (sleep_time_queue_head s, s);
  Done (release s).

(** The two sleeping calls insert a fresh entry at the head of their queue. *)
Definition push_sleeper (head : sline → Z) (set_head : Z → sline → sline) (e : sleep_entry) (s : sline)
  : outcome sline :=
  '(a, k) ← smalloc SQ_SIZE (kern (sch s));
  let s := with_queues (<[a := {| sq_entry := e; sq_prev := 0; sq_next := 0 |}]> (queues s))
             (with_kern k s) in
  s ← (if negb (head s =? 0) then
         s ← set_sq_prev (head s) a s; set_sq_next a (head s) s
       else Done s);
  let s := set_head a s in
  c ← upd_task (sq_task e) (with_state TASK_UNINTERRUPTIBLE) (sch s);
  Done (with_sch c s).

Definition _tsleep (ticks : Z) s : outcome sline :=
  s ← acquire s;
  let ctask := get_current_task (sch s) in
  if ctask =? 0 then Done (release s) else
  s ← push_sleeper sleep_time_queue_head with_time_head
        {| started_at := get_ticks_since_boot (timer (sch s)); expires_in := ticks;
           sleep_reason := SLEEP_AWAITING_IO; sq_task := ctask |} s;
  Done (release s).

Definition _ssleep (seconds : Z) s : outcome sline :=
  _tsleep (ms_to_ticks (timer (sch s)) (u64 (seconds * 1000))) s.

Definition _msleep (milliseconds : Z) s : outcome sline :=
  _tsleep (ms_to_ticks (timer (sch s)) milliseconds) s.

(** The last statement takes the lock again instead of releasing it. *)
Definition _ksleep (addr : Z) s : outcome sline :=
  s ← acquire s;
  let ctask := get_current_task (sch s) in
  if ctask =? 0 then Done (release s) else
  s ← push_sleeper sleep_reason_queue_head with_reason_head
        {| started_at := get_ticks_since_boot (timer (sch s)); expires_in := 0;
           sleep_reason := addr; sq_task := ctask |} s;
  acquire s.

Definition _kwakeup (addr : Z) s : outcome sline :=
  s ← acquire s;
  s ← loop (sq_fuel s) (λ '(a, s),
        if a =? 0 then Done (inr s) else
        q ← get_sq s a;
        if sleep_reason (sq_entry q) =? addr then
          if sq_task (sq_entry q) =? 0 then Done (inl (sq_next q, s)) else
          s ← resume (sq_task (sq_entry q)) s;
          s ← unlink_sq with_reason_head a s;
          Done (inl (sq_next q, s))
        else Done (inl (sq_next q, s)))
        (sleep_reason_queue_head s, s);
  Done (release s).

(** [handler]: the address of [wakeup_handler]. *)
Definition init_sline (handler : Z) s : sline :=
  with_sch (with_timer (set_wakeup_call handler 100 (timer (sch s))) (sch s)) s.
End sleep.
Arguments sline P : clear implicits.
