(* ===== verification/SleepSpec.v ===== *)
(** * What the sleep queues guarantee *)
From stdpp Require Import gmap.
From S2P Require Import Prelude Dll Concurrency PageService Pit Paging Alloc Heap KernelHeap Scheduler SchedulerSpec TaskSpec Sleep.
#[local] Open Scope Z_scope.

Section spec.
Context {P : Type} `{PageServiceOk P}.
Implicit Types (s : sline P) (l k r : list (Z * sleep_entry)) (F : gset Z).

(** ** One of the two queues: where its head is kept *)
Context (head : sline P → Z) (set_head : Z → sline P → sline P).
Hypothesis head_set : ∀ v s, head (set_head v s) = v.
Hypothesis head_sch : ∀ v s, sch (set_head v s) = sch s ∧ queues (set_head v s) = queues s ∧
  sleep_lock (set_head v s) = sleep_lock s.
Hypothesis head_queues : ∀ m s, head (with_queues m s) = head s.
Hypothesis head_with_sch : ∀ x s, head (with_sch x s) = head s.
Hypothesis head_with_lock : ∀ x s, head (with_lock x s) = head s.

(** The sleepers [l] of the queue; [F] are the other blocks of the sleep heap. *)
Record sleepers s l F : Prop := {
  sl_head : head s = hd_addr l 0;
  sl_nodes : dseg (queues s) 0 l 0;
  sl_nodup : NoDup l.*1;
  sl_blocks : blocks_ready kernelSleepHeap (list_to_set l.*1 ∪ F) (kern (sch s));
  sl_frame : ∀ a, a ∈ l.*1 → a ∉ F;
}.

(** Of the scheduler only the tasks and the heaps change. *)
Definition sch_kept (x y : sched P) : Prop := y = with_tasks (tasks y) (with_signals (signals x) (kern y) x).

(** What the operations on the queue do not touch. *)
Record kept F s s' : Prop := {
  k_cpu : kcpu (kern (sch s')) = kcpu (kern (sch s));
  k_sch : sch_kept (sch s) (sch s');
  k_lock : sleep_lock s' = sleep_lock s;
  k_queues : ∀ a, a ∈ F → queues s' !! a = queues s !! a;
}.

Lemma sch_kept_refl x : sch_kept x x.
Proof. by destruct x. Qed.

Lemma sch_kept_trans x y z : sch_kept x y → sch_kept y z → sch_kept x z.
Proof. unfold sch_kept. intros Hxy Hyz. rewrite Hyz at 1. rewrite Hxy. done. Qed.

Lemma kept_refl F s : kept F s s.
Proof. split; [done|apply sch_kept_refl|done..]. Qed.

Lemma kept_trans F s1 s2 s3 : kept F s1 s2 → kept F s2 s3 → kept F s1 s3.
Proof.
  intros [] []. split; [congruence|by eapply sch_kept_trans|congruence|].
  intros a Ha. by rewrite k_queues1, k_queues0.
Qed.

Lemma k_timer F s s' : kept F s s' → timer (sch s') = timer (sch s).
Proof. intros [_ E _ _]. by rewrite E. Qed.

Lemma get_sq_ok s a q : queues s !! a = Some q → get_sq s a = Done q.
Proof. unfold get_sq. by intros ->. Qed.

Lemma sleepers_node s k a e r F :
  sleepers s (k ++ (a, e) :: r) F →
  a ≠ 0 ∧ get_sq s a = Done {| sq_entry := e; sq_prev := lst_addr 0 k; sq_next := hd_addr r 0 |}.
Proof.
  intros Hs. destruct (dseg_lookup _ _ _ _ _ _ _ (sl_nodes _ _ _ Hs)) as [Ha Ea].
  split; [done|by apply get_sq_ok].
Qed.

(** *** Taking an entry out *)
(** A store to the [next] of the entry before, or to the head. *)
Lemma relink_before s k a e r F :
  sleepers s (k ++ (a, e) :: r) F →
  ∃ s1, (if negb (lst_addr 0 k =? 0) then set_sq_next (lst_addr 0 k) (hd_addr r 0) s
         else Done (set_head (hd_addr r 0) s)) = Done s1 ∧
    sch s1 = sch s ∧ sleep_lock s1 = sleep_lock s ∧ head s1 = hd_addr (k ++ r) 0 ∧
    (∀ k0 b x, k = k0 ++ [(b, x)] → queues s1 !! b = Some (link_mk x (hd_addr r 0) (lst_addr 0 k0))) ∧
    (∀ b, b = 0 ∨ b ≠ lst_addr 0 k → queues s1 !! b = queues s !! b).
Proof.
  intros Hs. destruct k as [|[b x] k0 _] using rev_ind.
  - cbn [lst_addr Z.eqb negb]. eexists. split; [done|].
    destruct (head_sch (hd_addr r 0) s) as (E1 & E2 & E3). rewrite E1, E2, E3, head_set.
    split_and!; try done. by intros [].
  - rewrite lst_addr_snoc. rewrite <- app_assoc in *. cbn [app] in *.
    destruct (sleepers_node _ _ _ _ _ _ Hs) as [Hb Eb]. cbn [hd_addr] in Eb.
    rewrite (proj2 (Z.eqb_neq b 0)) by done. cbn [negb]. unfold set_sq_next. rewrite Eb, bind_done.
    eexists. split; [done|]. rewrite head_queues. cbn. split_and!; try done.
    + rewrite (sl_head _ _ _ Hs). by destruct k0 as [|[]].
    + intros k1 c y E. apply app_inj_tail in E as [<- [= <- <-]]. by rewrite lookup_insert_eq.
    + intros c Hc. apply lookup_insert_ne. naive_solver.
Qed.

(** A store to the [prev] of the entry after, if there is one. *)
Lemma relink_after_sq s1 k a r :
  (∀ b x r', r = (b, x) :: r' → b ≠ 0 ∧ queues s1 !! b = Some (link_mk x (hd_addr r' 0) a)) →
  ∃ m, (if negb (hd_addr r 0 =? 0) then set_sq_prev (hd_addr r 0) (lst_addr 0 k) s1 else Done s1) =
       Done (with_queues m s1) ∧
    (∀ b x r', r = (b, x) :: r' → m !! b = Some (link_mk x (hd_addr r' 0) (lst_addr 0 k))) ∧
    (∀ b, b = 0 ∨ b ≠ hd_addr r 0 → m !! b = queues s1 !! b).
Proof.
  intros Hn. destruct r as [|[b x] r].
  - exists (queues s1). split; [by destruct s1|]. split_and!; done.
  - destruct (Hn b x r eq_refl) as [Hb Eb]. cbn [hd_addr]. rewrite (proj2 (Z.eqb_neq b 0)) by done.
    cbn [negb]. unfold set_sq_prev. rewrite (get_sq_ok _ _ _ Eb), bind_done. eexists. split; [done|].
    cbn. split.
    + intros c y r' [= <- <- <-]. by rewrite lookup_insert_eq.
    + intros c Hc. apply lookup_insert_ne. naive_solver.
Qed.

(** Addresses around one entry. *)
Lemma sleepers_mid s k a e r F :
  sleepers s (k ++ (a, e) :: r) F →
  a ≠ lst_addr 0 k ∧ (∀ b x r', r = (b, x) :: r' → b ≠ 0 ∧ b ≠ lst_addr 0 k ∧ b ≠ a) ∧
  (∀ b, b ∈ F → b ≠ a ∧ (b = 0 ∨ b ≠ lst_addr 0 k) ∧ (b = 0 ∨ b ≠ hd_addr r 0)).
Proof.
  intros Hs. destruct (nodup_mid _ _ _ _ (sl_nodup _ _ _ Hs)) as (_ & Hk & Hr & Hkr).
  destruct (sleepers_node _ _ _ _ _ _ Hs) as [Ha _]. split_and!.
  - intros E. destruct k as [|x k]; [done|]. apply Hk. rewrite E. by apply lst_addr_elem.
  - intros b x r' ->. assert (Hb : b ≠ 0).
    { eapply dseg_nonzero; [apply (sl_nodes _ _ _ Hs)|]. rewrite fmap_app. set_solver. }
    split_and!; [done| |set_solver]. destruct k as [|y k]; [done|].
    intros ->. eapply (Hkr (lst_addr 0 (y :: k))); [by apply lst_addr_elem|by left].
  - intros b Hb. pose proof (sl_frame _ _ _ Hs) as HF. rewrite fmap_app in HF. cbn in HF. split_and!.
    + intros ->. apply (HF a); [set_solver|done].
    + destruct k as [|y k]; [cbn; destruct (decide (b = 0)); auto|right]. intros ->.
      eapply HF; [|exact Hb]. apply elem_of_app. left. by apply lst_addr_elem.
    + destruct r as [|[c x] r]; [cbn; destruct (decide (b = 0)); auto|right]. cbn. intros ->.
      apply (HF c); [set_solver|done].
Qed.

Lemma unlink_sq_ok s k a e r F :
  sleepers s (k ++ (a, e) :: r) F →
  ∃ s', unlink_sq set_head a s = Done s' ∧ sleepers s' (k ++ r) F ∧ kept F s s' ∧
    tasks (sch s') = tasks (sch s).
Proof.
  intros Hs. destruct (sleepers_node _ _ _ _ _ _ Hs) as [Ha Ea].
  destruct (sleepers_mid _ _ _ _ _ _ Hs) as (Hak & Hr & HF).
  destruct (nodup_mid _ _ _ _ (sl_nodup _ _ _ Hs)) as (Hnd & Hk' & Hr' & Hkr).
  destruct (relink_before _ _ _ _ _ _ Hs) as (s1 & E1 & Es1 & El1 & Eh1 & Hlast & Hk1).
  destruct (relink_after_sq s1 k a r) as (m & E2 & Hfst & Hk2).
  { intros b x r' Er. destruct (Hr b x r' Er) as (Hb & Hbk & _). split; [done|]. rewrite Hk1 by auto.
    pose proof (sl_nodes _ _ _ Hs) as Hd. rewrite Er in Hd. rewrite dseg_app in Hd. cbn in Hd.
    by destruct Hd as (_ & _ & _ & _ & ? & _). }
  destruct (sfree_blocks _ a _ (sl_blocks _ _ _ Hs)) as (kk & Ek & Hb & Hc);
    [rewrite fmap_app; cbn; set_solver|].
  unfold unlink_sq. rewrite Ea, bind_done. cbn [sq_prev sq_next]. rewrite E1, bind_done, E2, bind_done.
  cbn [kern sch with_queues]. rewrite Es1, Ek, bind_done. eexists. split; [done|].
  split; [|split; [|cbn; by rewrite Es1]].
  - split; unfold with_kern; rewrite ?head_queues, ?head_with_sch, ?head_queues; cbn; try done.
    + apply dseg_unlink with (queues s) a e; try done; [apply Hs| | |].
      * intros k0 b x ->. rewrite lst_addr_snoc in *.
        assert (b ∈ (k0 ++ [(b, x)]).*1) as Hbk by (rewrite fmap_app; set_solver).
        rewrite lookup_delete_ne, Hk2; [by apply Hlast| |done]. right. intros ->.
        destruct r as [|[c y] r]; cbn in *; [|by eapply (Hkr c); [done|left]].
        pose proof (sl_nodes _ _ _ Hs) as Hd. rewrite <- app_assoc in Hd. by apply dseg_lookup in Hd as [? _].
      * intros b x r' Er. destruct (Hr b x r' Er) as (_ & _ & Hba). rewrite lookup_delete_ne by done.
        by eapply Hfst.
      * intros b Hin Hb1 Hb2. rewrite lookup_delete_ne; [by rewrite Hk2, Hk1 by auto|].
        intros ->. rewrite fmap_app in Hin. set_solver.
    + eapply (eq_rect _ (λ X, blocks_ready _ X kk) Hb). pose proof (sl_frame _ _ _ Hs a) as Hfa.
      rewrite !fmap_app in *. cbn in *. set_solver.
    + intros b Hin. apply (sl_frame _ _ _ Hs). rewrite fmap_app in *. cbn. set_solver.
  - split; cbn; rewrite ?Es1; try done. intros b Hin. destruct (HF b Hin) as (? & ? & ?).
    rewrite lookup_delete_ne, Hk2, Hk1 by done. done.
Qed.

(** *** Waking *)
Definition wake_task : Z → gmap Z task → gmap Z task := alter (shift TASK_UNINTERRUPTIBLE TASK_READY).

Lemma resume_ok s t x :
  tasks (sch s) !! t = Some x →
  resume t s = Done (with_sch (with_tasks (wake_task t (tasks (sch s))) (sch s)) s).
Proof.
  intros Ex. unfold resume. rewrite (get_task_ok _ _ _ Ex), bind_done.
  assert (wake_task t (tasks (sch s)) = <[t := shift TASK_UNINTERRUPTIBLE TASK_READY x]> (tasks (sch s))) as ->.
  { apply map_eq. intros i. unfold wake_task. destruct (decide (i = t)) as [->|].
    - by rewrite lookup_alter_eq, lookup_insert_eq, Ex.
    - by rewrite lookup_alter_ne, lookup_insert_ne. }
  unfold shift. destruct (state x =? TASK_UNINTERRUPTIBLE).
  - by rewrite (upd_task_ok _ _ _ _ Ex).
  - rewrite insert_id by done. by destruct s as [? ? ? ? []].
Qed.

(** The entries [wake] selects, and the tasks after they are woken. *)
Context (wake : pit → sleep_entry → bool).

Fixpoint woken (p : pit) l (m : gmap Z task) : gmap Z task :=
  match l with
  | [] => m
  | (_, e) :: l => woken p l (if wake p e then wake_task (sq_task e) m else m)
  end.

Definition asleep (p : pit) l : list (Z * sleep_entry) := filter (λ x, wake p x.2 = false) l.

Lemma asleep_cons p a e l :
  asleep p ((a, e) :: l) = if wake p e then asleep p l else (a, e) :: asleep p l.
Proof. unfold asleep. rewrite filter_cons. cbn. destruct (wake p e); by case_decide. Qed.

Definition wake_step : Z * sline P → outcome ((Z * sline P) + sline P) := λ '(a, s),
  if a =? 0 then Done (inr s) else
  q ← get_sq s a;
  if wake (timer (sch s)) (sq_entry q) then
    s ← resume (sq_task (sq_entry q)) s;
    s ← unlink_sq set_head a s;
    Done (inl (sq_next q, s))
  else Done (inl (sq_next q, s)).

Lemma wake_walk fuel k r s F p :
  timer (sch s) = p → sleepers s (k ++ r) F → (List.length r < fuel)%nat →
  (∀ a e, (a, e) ∈ r → wake p e = true → is_Some (tasks (sch s) !! sq_task e)) →
  ∃ s', loop fuel wake_step (hd_addr r 0, s) = Done s' ∧ sleepers s' (k ++ asleep p r) F ∧
    kept F s s' ∧ tasks (sch s') = woken p r (tasks (sch s)).
Proof.
  revert k r s. induction fuel as [|fuel IH]; intros k r s Hp Hs Hf Ht; [lia|].
  destruct r as [|[a e] r].
  - exists s. split_and!; [done|done|apply kept_refl|done].
  - cbn in Hf. destruct (sleepers_node _ _ _ _ _ _ Hs) as [Ha Ea]. rewrite asleep_cons.
    cbn [loop hd_addr woken]. cbn [wake_step]. rewrite (proj2 (Z.eqb_neq _ _) Ha), Ea, bind_done.
    cbn [sq_entry sq_next]. rewrite Hp. destruct (wake p e) eqn:Hw.
    + destruct (Ht a e) as [x Ex]; [left|done|]. rewrite (resume_ok _ _ _ Ex), bind_done.
      set (s1 := with_sch _ s).
      assert (Hs1 : sleepers s1 (k ++ (a, e) :: r) F).
      { unfold s1. destruct Hs. split; [by rewrite head_with_sch|done..]. }
      assert (Hk1 : kept F s s1) by (by split).
      destruct (unlink_sq_ok _ _ _ _ _ _ Hs1) as (s2 & -> & Hs2 & Hk2 & Et2). rewrite !bind_done.
      destruct (IH k r s2) as (s' & E & Hs' & Hk' & Et'); [|done|lia| |].
      * by rewrite (k_timer _ _ _ Hk2).
      * intros b e' Hb Hw'. rewrite Et2. cbn. unfold wake_task. destruct (decide (sq_task e' = sq_task e)) as [->|].
        -- rewrite lookup_alter_eq, Ex. by eexists.
        -- rewrite lookup_alter_ne by done. apply (Ht b); [by right|done].
      * exists s'. split_and!; try done.
        -- eapply kept_trans; [exact Hk1|]. by eapply kept_trans.
        -- rewrite Et', Et2. done.
    + rewrite bind_done. destruct (IH (k ++ [(a, e)]) r s) as (s' & E & Hs' & Hk' & Et');
        [done|by rewrite <- app_assoc|lia|intros b e' Hb; apply (Ht b); by right|].
      exists s'. rewrite <- app_assoc in Hs'. done.
Qed.

(** *** The whole handler: under the lock, which is free again at the end *)
(** Taking or releasing the lock changes it and the processor flags. *)
Definition relock (c : cpu) (x : spinlock_t) s : sline P := with_lock x (with_sch (with_cpu c (sch s)) s).

Lemma relock_sleepers c x s l F : sleepers s l F → sleepers (relock c x s) l F.
Proof. intros []. split; try done. unfold relock. by rewrite head_with_lock, head_with_sch. Qed.

Lemma acquire_relock s :
  mut (sleep_lock s) = 0 →
  ∃ c x, acquire s = Done (relock c x s) ∧ mut x = 1 ∧
    release_spinlock c x = (kcpu (kern (sch s)), {| flags := rflags (kcpu (kern (sch s))); mut := 0 |}).
Proof.
  intros Hm. unfold acquire. destruct (acquire_spinlock (kcpu (kern (sch s))) (sleep_lock s))
    as [[c x]| | | |] eqn:E; try (unfold acquire_spinlock in E; by rewrite Hm in E).
  exists c, x. split_and!; [done| |by apply release_acquire in E].
  unfold acquire_spinlock in E. rewrite Hm in E. by injection E as _ <-.
Qed.

(** Between [acquire] and [release] the flags are those the lock saved. *)
Lemma release_kept F s c x s' :
  release_spinlock c x = (kcpu (kern (sch s)), {| flags := rflags (kcpu (kern (sch s))); mut := 0 |}) →
  kept F (relock c x s) s' →
  release s' = relock (kcpu (kern (sch s))) {| flags := rflags (kcpu (kern (sch s))); mut := 0 |} s'.
Proof.
  intros Hr Hk. unfold release. rewrite (k_cpu _ _ _ Hk), (k_lock _ _ _ Hk).
  change (kcpu (kern (sch (relock c x s)))) with c. change (sleep_lock (relock c x s)) with x.
  by rewrite Hr.
Qed.

Lemma sleepers_fuel s l F : sleepers s l F → (List.length l < sq_fuel s)%nat.
Proof.
  intros Hs. unfold sq_fuel. pose proof (dseg_size _ _ _ _ (sl_nodup _ _ _ Hs) (sl_nodes _ _ _ Hs)). lia.
Qed.

Lemma handler_ok s l F (p := timer (sch s)) :
  mut (sleep_lock s) = 0 → sleepers s l F →
  (∀ a e, (a, e) ∈ l → wake p e = true → is_Some (tasks (sch s) !! sq_task e)) →
  ∃ s', (s ← acquire s; s ← loop (sq_fuel s) wake_step (head s, s); Done (release s)) = Done s' ∧
    sleepers s' (asleep p l) F ∧ tasks (sch s') = woken p l (tasks (sch s)) ∧
    kcpu (kern (sch s')) = kcpu (kern (sch s)) ∧ mut (sleep_lock s') = 0 ∧
    (∀ a, a ∈ F → queues s' !! a = queues s !! a) ∧ sch_kept (sch s) (sch s').
Proof.
  intros Hm Hs Ht. destruct (acquire_relock s Hm) as (c & x & -> & Hx & Hrel). rewrite bind_done.
  assert (Hs1 := relock_sleepers c x _ _ _ Hs). pose proof (sleepers_fuel _ _ _ Hs1).
  rewrite (sl_head _ _ _ Hs1).
  destruct (wake_walk (sq_fuel (relock c x s)) [] l (relock c x s) F p eq_refl Hs1)
    as (s2 & -> & Hs2 & Hk & Et); [done|done|]. rewrite bind_done.
  rewrite (release_kept F s c x s2 Hrel Hk). eexists. split; [done|].
  split_and!; [by apply relock_sleepers|done|done|done|apply (k_queues _ _ _ Hk)|].
  eapply (sch_kept_trans (sch s) (sch (relock c x s))); [done|].
  eapply (sch_kept_trans _ (sch s2)); [apply (k_sch _ _ _ Hk)|done].
Qed.

(** *** Going to sleep *)
(** A fresh entry goes before the first one. *)
Lemma link_front s1 a e l :
  head s1 = hd_addr l 0 → queues s1 !! a = Some (link_mk e 0 0) →
  (∀ b x r, l = (b, x) :: r → b ≠ 0 ∧ b ≠ a ∧ queues s1 !! b = Some (link_mk x (hd_addr r 0) 0)) →
  ∃ m, (if negb (hd_addr l 0 =? 0) then
          s2 ← set_sq_prev (hd_addr l 0) a s1; set_sq_next a (head s2) s2
        else Done s1) = Done (with_queues m s1) ∧
    m !! a = Some (link_mk e (hd_addr l 0) 0) ∧
    (∀ b x r, l = (b, x) :: r → m !! b = Some (link_mk x (hd_addr r 0) a)) ∧
    (∀ b, b ≠ a → b = 0 ∨ b ≠ hd_addr l 0 → m !! b = queues s1 !! b).
Proof.
  intros Eh Ea Hl. destruct l as [|[b x] r].
  - exists (queues s1). split; [by destruct s1|]. split_and!; done.
  - destruct (Hl b x r eq_refl) as (Hb & Hba & Eb). cbn [hd_addr].
    rewrite (proj2 (Z.eqb_neq _ _) Hb). cbn [negb]. unfold set_sq_prev.
    rewrite (get_sq_ok _ _ _ Eb), !bind_done, head_queues, Eh.
    unfold set_sq_next. erewrite get_sq_ok by (cbn; rewrite lookup_insert_ne by done; exact Ea).
    rewrite bind_done. eexists. split; [done|]. cbn. split_and!.
    + by rewrite lookup_insert_eq.
    + intros c y r' [= <- <- <-]. by rewrite lookup_insert_ne, lookup_insert_eq by done.
    + intros c Hc Hc'. rewrite !lookup_insert_ne; naive_solver.
Qed.

Lemma push_sleeper_ok s l F e x :
  sleepers s l F → tasks (sch s) !! sq_task e = Some x →
  returns_or_panics (push_sleeper head set_head e s) ∧
  ∀ s', push_sleeper head set_head e s = Done s' →
    (∃ a, sleepers s' ((a, e) :: l) F) ∧ kept F s s' ∧
    tasks (sch s') = <[sq_task e := with_state TASK_UNINTERRUPTIBLE x]> (tasks (sch s)).
Proof.
  intros Hs Ex. unfold push_sleeper.
  destruct (smalloc_blocks _ SQ_SIZE _ (sl_blocks _ _ _ Hs)) as [Hrop Hm]; [unfold SQ_SIZE; lia|].
  apply (rop_bind (λ '(r, k'), (r ∉ (list_to_set l.*1 ∪ F : gset Z)) ∧
    blocks_ready kernelSleepHeap ({[r]} ∪ (list_to_set l.*1 ∪ F)) k' ∧ kcpu k' = kcpu (kern (sch s))));
    [done|intros [r k']; apply Hm|].
  intros [a k'] (Hnot & Hok & Hc).
  assert (Ha0 : a ≠ 0) by (eapply (al_nonnull (AllocatorOk := smalloc_allocator_ok)); [exact Hok|set_solver]).
  assert (Hal : a ∉ l.*1) by set_solver. assert (HaF : a ∉ F) by set_solver. cbn zeta.
  set (s1 := with_queues _ (with_kern k' s)).
  assert (Eh : head s1 = hd_addr l 0).
  { unfold s1, with_kern. by rewrite head_queues, head_with_sch, (sl_head _ _ _ Hs). }
  destruct (link_front s1 a e l) as (m & Em & Hm1 & Hm2 & Hm3);
    [done|cbn; by rewrite lookup_insert_eq| |].
  { intros b x' r El. subst l. destruct (sleepers_node _ [] _ _ _ _ Hs) as [Hb _]. split; [done|].
    split; [set_solver|]. cbn. rewrite lookup_insert_ne by set_solver.
    pose proof (sl_nodes _ _ _ Hs) as Hd. cbn in Hd. apply Hd. }
  rewrite Eh, Em, bind_done. set (s2 := set_head a _).
  destruct (head_sch a (with_queues m s1)) as (E1 & E2 & E3). fold s2 in E1, E2, E3.
  erewrite (upd_task_ok (sch s2)) by (rewrite E1; exact Ex). rewrite bind_done. split; [apply rop_done|].
  intros s' [= <-]. split_and!.
  - exists a. split; rewrite ?head_with_sch; cbn.
    + by unfold s2; rewrite head_set.
    + rewrite E2. cbn. split_and!; [done|done|]. destruct l as [|[b x'] r]; [done|].
      eapply dseg_relink_first; [apply (sl_nodes _ _ _ Hs)|by eapply Hm2|].
      intros c Hc'. pose proof (sl_nodup _ _ _ Hs) as Hnd. cbn in Hnd. apply NoDup_cons in Hnd as [Hnd _].
      rewrite Hm3; [|set_solver|right; cbn; by intros ->]. cbn. apply lookup_insert_ne. set_solver.
    + apply NoDup_cons. split; [done|apply Hs].
    + rewrite E1. cbn. eapply (eq_rect _ (λ X, blocks_ready _ X k') Hok). set_solver.
    + intros b [->|Hb]%elem_of_cons; [done|]. by apply (sl_frame _ _ _ Hs).
  - split; cbn; rewrite ?E1, ?E3; try done. intros b Hb. rewrite E2. cbn.
    rewrite Hm3; [|by intros ->|].
    + cbn. apply lookup_insert_ne. by intros ->.
    + destruct l as [|[c x'] r]; [cbn; destruct (decide (b = 0)); auto|right]. cbn. intros ->.
      eapply (sl_frame _ _ _ Hs); [|exact Hb]. by left.
  - cbn. by rewrite E1.
Qed.
End spec.

(** ** The two queues *)
Section queues.
Context {P : Type} `{PageServiceOk P}.
Implicit Types (s : sline P) (F : gset Z).

Definition time_wake (p : pit) (e : sleep_entry) : bool :=
  negb (sq_task e =? 0) && expired (get_ticks_since_boot p) e.
Definition reason_wake (addr : Z) (p : pit) (e : sleep_entry) : bool :=
  (sleep_reason e =? addr) && negb (sq_task e =? 0).

Definition time_sleepers s l F := sleepers sleep_time_queue_head s l F.
Definition reason_sleepers s l F := sleepers sleep_reason_queue_head s l F.

(** The tasks of the sleepers exist. *)
Definition tasks_known s (l : list (Z * sleep_entry)) : Prop :=
  ∀ a e, (a, e) ∈ l → sq_task e ≠ 0 → is_Some (tasks (sch s) !! sq_task e).

Lemma wakeup_handler_ok s l F (p := timer (sch s)) :
  mut (sleep_lock s) = 0 → tasks_known s l → time_sleepers s l F →
  ∃ s', wakeup_handler s = Done s' ∧ time_sleepers s' (asleep time_wake p l) F ∧
    tasks (sch s') = woken time_wake p l (tasks (sch s)) ∧
    kcpu (kern (sch s')) = kcpu (kern (sch s)) ∧ mut (sleep_lock s') = 0 ∧
    (∀ a, a ∈ F → queues s' !! a = queues s !! a) ∧ sch_kept (sch s) (sch s').
Proof.
  intros Hm Ht Hs. edestruct (handler_ok sleep_time_queue_head with_time_head) with (wake := time_wake)
    as (s' & E & Hrest); [done..|exact Hm|exact Hs| |].
  - intros a e Hin Hw. apply (Ht a e Hin). unfold time_wake in Hw.
    apply andb_true_iff in Hw as [Hw _]. apply negb_true_iff, Z.eqb_neq in Hw. done.
  - exists s'. split; [|exact Hrest]. rewrite <- E. unfold wakeup_handler.
    apply bind_ext. intros s1. f_equal. apply loop_ext. intros [a s2]. cbn [wake_step].
    destruct (a =? 0); [done|]. apply bind_ext. intros q. unfold time_wake.
    by destruct (sq_task (sq_entry q) =? 0).
Qed.

(** C17: waking is exact.  [wakeup_handler] removes from the time queue exactly the
    sleepers whose interval has passed and [_kwakeup addr] removes from the other queue
    exactly those that wait for [addr]; each of their tasks that is in the
    uninterruptible state becomes ready, no other task and nothing else of the scheduler
    changes; the others stay
    queued in their order, the blocks of the removed entries are given back, the lock is
    free again and the processor flags are what they were. *)
Theorem wakeup_exact s l F addr (p := timer (sch s)) :
  mut (sleep_lock s) = 0 → tasks_known s l →
  (time_sleepers s l F →
   ∃ s', wakeup_handler s = Done s' ∧ time_sleepers s' (asleep time_wake p l) F ∧
     tasks (sch s') = woken time_wake p l (tasks (sch s)) ∧
     kcpu (kern (sch s')) = kcpu (kern (sch s)) ∧ mut (sleep_lock s') = 0 ∧
     (∀ a, a ∈ F → queues s' !! a = queues s !! a) ∧ sch_kept (sch s) (sch s')) ∧
  (reason_sleepers s l F →
   ∃ s', _kwakeup addr s = Done s' ∧ reason_sleepers s' (asleep (reason_wake addr) p l) F ∧
     tasks (sch s') = woken (reason_wake addr) p l (tasks (sch s)) ∧
     kcpu (kern (sch s')) = kcpu (kern (sch s)) ∧ mut (sleep_lock s') = 0 ∧
     (∀ a, a ∈ F → queues s' !! a = queues s !! a) ∧ sch_kept (sch s) (sch s')).
Proof.
  intros Hm Ht. split; intros Hs.
  - by apply wakeup_handler_ok.
  - edestruct (handler_ok sleep_reason_queue_head with_reason_head) with (wake := reason_wake addr)
      as (s' & E & Hrest); [done..|exact Hm|exact Hs| |].
    + intros a e Hin Hw. apply (Ht a e Hin). unfold reason_wake in Hw.
      apply andb_true_iff in Hw as [_ Hw]. apply negb_true_iff, Z.eqb_neq in Hw. done.
    + exists s'. split; [|exact Hrest]. rewrite <- E. unfold _kwakeup.
      apply bind_ext. intros s1. f_equal. apply loop_ext. intros [a s2]. cbn [wake_step].
      destruct (a =? 0); [done|]. apply bind_ext. intros q. unfold reason_wake.
      destruct (sleep_reason (sq_entry q) =? addr); [|done]. by destruct (sq_task (sq_entry q) =? 0).
Qed.

(** [_tsleep] puts the current task to sleep: it is uninterruptible, with an entry
    for the given interval from now at the front of the time queue, the lock is free and
    the flags are what they were; it stops only when the sleep heap does.  Before the
    scheduler has a current task it does nothing. *)
Theorem tsleep_sleeps s l F ticks x (c := current_task (sch s)) :
  mut (sleep_lock s) = 0 → time_sleepers s l F →
  (c = 0 → ∃ s', _tsleep ticks s = Done s' ∧ queues s' = queues s ∧ tasks (sch s') = tasks (sch s)) ∧
  (c ≠ 0 → tasks (sch s) !! c = Some x →
   returns_or_panics (_tsleep ticks s) ∧
   ∀ s', _tsleep ticks s = Done s' →
     (∃ a, time_sleepers s' ((a, {| started_at := get_ticks_since_boot (timer (sch s)); expires_in := ticks;
                                    sleep_reason := SLEEP_AWAITING_IO; sq_task := c |}) :: l) F) ∧
     tasks (sch s') = <[c := with_state TASK_UNINTERRUPTIBLE x]> (tasks (sch s)) ∧
     kcpu (kern (sch s')) = kcpu (kern (sch s)) ∧ mut (sleep_lock s') = 0).
Proof.
  intros Hm Hs. destruct (acquire_relock s Hm) as (cp & lk & Ea & Hlk & Hrel).
  unfold _tsleep. rewrite Ea, bind_done. cbn zeta.
  change (get_current_task (sch (relock cp lk s))) with c.
  change (timer (sch (relock cp lk s))) with (timer (sch s)). split.
  - intros ->. cbn [Z.eqb]. eexists. split; [done|]. unfold release. by destruct (release_spinlock _ _).
  - intros Hc Ex. rewrite (proj2 (Z.eqb_neq _ _) Hc).
    assert (Hs1 : time_sleepers (relock cp lk s) l F) by (by apply relock_sleepers).
    edestruct (push_sleeper_ok sleep_time_queue_head with_time_head) with (e := {|
      started_at := get_ticks_since_boot (timer (sch s)); expires_in := ticks;
      sleep_reason := SLEEP_AWAITING_IO; sq_task := c |}) as [Hrop Hp]; [done..|exact Hs1|exact Ex|].
    destruct Hrop as [[s2 E]|[why E]]; rewrite E; [|by split; [apply rop_panic|]].
    rewrite bind_done. split; [apply rop_done|]. intros s' [= <-].
    destruct (Hp s2 E) as ([a Hs2] & Hk & Et). rewrite (release_kept F s cp lk s2 Hrel Hk).
    split_and!; [|done..]. exists a. by apply relock_sleepers.
Qed.

(** [_ksleep] never returns to a task: after it has queued the task it takes the
    sleep lock it already holds, so it waits for ever with interrupts off, unless the
    sleep heap panics first. *)
Theorem ksleep_deadlocks s l F addr x (c := current_task (sch s)) :
  mut (sleep_lock s) = 0 → reason_sleepers s l F → c ≠ 0 → tasks (sch s) !! c = Some x →
  _ksleep addr s = Spin ∨ ∃ why, _ksleep addr s = Panic why.
Proof.
  intros Hm Hs Hc Ex. destruct (acquire_relock s Hm) as (cp & lk & Ea & Hlk & Hrel).
  unfold _ksleep. rewrite Ea, bind_done. cbn zeta.
  change (get_current_task (sch (relock cp lk s))) with c. rewrite (proj2 (Z.eqb_neq _ _) Hc).
  change (timer (sch (relock cp lk s))) with (timer (sch s)).
  assert (Hs1 : reason_sleepers (relock cp lk s) l F) by (by apply relock_sleepers).
  edestruct (push_sleeper_ok sleep_reason_queue_head with_reason_head) with (e := {|
    started_at := get_ticks_since_boot (timer (sch s)); expires_in := 0;
    sleep_reason := addr; sq_task := c |}) as [Hrop Hp]; [done..|exact Hs1|exact Ex|].
  destruct Hrop as [[s2 E]|[why E]]; rewrite E; [left|right; by eexists].
  destruct (Hp s2 E) as (_ & Hk & _). rewrite bind_done. unfold acquire, acquire_spinlock.
  rewrite (k_lock _ _ _ Hk). cbn [relock with_lock sleep_lock]. by rewrite Hlk.
Qed.
End queues.

(** ** Witnesses *)
(** The sleep heap of this kernel is ready and empty. *)
Definition kernel3 : kernel (P := mmu) :=
  {| kcpu := kcpu kernel1; kmemory := kmemory kernel1; kernelGlobalHeap := kernelSleepHeap kernel1;
     kernelSleepHeap := kernelGlobalHeap kernel1; kernelSignalHeap := kernelSignalHeap kernel1 |}.

Definition sline0 : sline mmu :=
  {| queues := ∅; sleep_time_queue_head := 0; sleep_reason_queue_head := 0; sleep_lock := unlocked;
     sch := with_timer (tick (tick booted_pit)) (with_signals ∅ kernel3 sched0) |}.

Lemma sline0_empty head :
  (∀ s : sline mmu, s = sline0 → head s = 0) → sleepers head sline0 [] ∅.
Proof.
  intros Hh. split; try done; [by apply Hh|by apply NoDup_nil|].
  exists []. split; [apply kernel1_ready|done].
Qed.

(** The current task has been asleep for two ticks and wanted one. *)
Definition entry0 : sleep_entry :=
  {| started_at := 0; expires_in := 1; sleep_reason := SLEEP_AWAITING_IO; sq_task := 0x2000 |}.

Lemma one_sleeper :
  ∃ s a, mut (sleep_lock s) = 0 ∧ tasks_known s [(a, entry0)] ∧ time_sleepers s [(a, entry0)] ∅ ∧
    timer (sch s) = timer (sch sline0).
Proof.
  destruct (push_sleeper_ok sleep_time_queue_head with_time_head ltac:(done) ltac:(done) ltac:(done) ltac:(done) ltac:(done)
    sline0 [] ∅ entry0 (task0 TASK_EXECUTING 1 0x3000 0x1000)) as [_ Hp];
    [by apply sline0_empty; intros s ->|done|].
  destruct (is_done_returns (push_sleeper sleep_time_queue_head with_time_head entry0 sline0))
    as [s E]; [by vm_compute|].
  destruct (Hp s E) as ([a Hs] & Hk & Et). exists s, a. split_and!.
  - by rewrite (k_lock _ _ _ Hk).
  - intros b e [= -> ->]%list_elem_of_singleton _. rewrite Et. cbn [sq_task entry0].
    rewrite lookup_insert_eq. by eexists.
  - exact Hs.
  - by rewrite (k_timer _ _ _ Hk).
Qed.

Lemma wakeup_exact_witness :
  ∃ s s' a, time_sleepers s [(a, entry0)] ∅ ∧ wakeup_handler s = Done s' ∧ time_sleepers s' [] ∅.
Proof.
  destruct one_sleeper as (s & a & Hm & Ht & Hs & Et).
  destruct (wakeup_exact s [(a, entry0)] ∅ 0 Hm Ht) as [Hw _].
  destruct (Hw Hs) as (s' & E & Hs' & _). exists s, s', a.
  split; [exact Hs|split; [exact E|]]. rewrite Et in Hs'. exact Hs'.
Defined.

Lemma tsleep_sleeps_witness :
  ∃ s' a e, _tsleep 5 sline0 = Done s' ∧ time_sleepers s' [(a, e)] ∅.
Proof.
  destruct (tsleep_sleeps sline0 [] ∅ 5 (task0 TASK_EXECUTING 1 0x3000 0x1000)) as [_ H];
    [reflexivity|apply sline0_empty; intros s ->; reflexivity|].
  destruct (is_done_returns (_tsleep 5 sline0)) as [s' E]; [by vm_compute|].
  destruct H as [_ H]; [discriminate|reflexivity|]. destruct (H s' E) as ([a Ha] & _).
  eexists s', a, _. split; [exact E|exact Ha].
Defined.

Lemma ksleep_deadlocks_witness :
  _ksleep 0x99 sline0 = Spin ∨ ∃ why, _ksleep 0x99 sline0 = Panic why.
Proof.
  apply (ksleep_deadlocks sline0 [] ∅ 0x99 (task0 TASK_EXECUTING 1 0x3000 0x1000));
    [reflexivity|apply sline0_empty; intros s ->; reflexivity|discriminate|reflexivity].
Defined.
