(* ===== verification/CString.v ===== *)
(** * Characters, strings and byte access (src/src/util/ctype.c, string.c)

    Memory is a map from addresses to bytes; reading an address that holds none is a
    fault.  A [char] is signed.  The routines of string.c that only report themselves as
    undefined (memchr, memmove, strcoll, strerror, strpbrk, strspn, strxfrm) are not
    modelled. *)
From stdpp Require Import gmap.
From S2P Require Import Prelude.
#[local] Open Scope Z_scope.

(** ** ctype.c *)
Definition isupper (c : Z) : bool := (c >=? 65) && (c <=? 90).
Definition islower (c : Z) : bool := (c >=? 97) && (c <=? 122).
Definition isalpha (c : Z) : bool := isupper c || islower c.
Definition isdigit (c : Z) : bool := (c >=? 48) && (c <=? 57).
Definition isalnum (c : Z) : bool := isalpha c || isdigit c.
Definition iscntrl (c : Z) : bool := ((c >=? 0) && (c <=? 31)) || (c =? 127).
Definition isgraph (c : Z) : bool := (c >=? 33) && (c <=? 126).
Definition isprint (c : Z) : bool := (c >=? 32) && (c <=? 126).
Definition ispunct (c : Z) : bool := isgraph c && negb (isalnum c).
Definition isspace (c : Z) : bool := (c =? 32) || (c =? 9).
Definition isxdigit (c : Z) : bool :=
  isdigit c || ((c >=? 97) && (c <=? 102)) || ((c >=? 65) && (c <=? 70)).
Definition tolower (c : Z) : Z := if isupper c then c + 32 else c.
Definition toupper (c : Z) : Z := if islower c then c - 32 else c.

(** ** Memory *)
Abbreviation bytes_mem := (gmap Z Z).

Definition byte_at (m : bytes_mem) (a : Z) : outcome Z := known (m !! a).
Definition char_at (m : bytes_mem) (a : Z) : outcome Z := b ← byte_at m a; Done (s8 b).

(** A store needs a cell that exists. *)
Definition put (a v : Z) (m : bytes_mem) : outcome bytes_mem :=
  _ ← byte_at m a; Done (<[a := u8 v]> m).

(** Each iteration of a scan reads a cell it has not read before. *)
Definition scan_fuel (m : bytes_mem) : nat := S (size m).

(** ** Block operations *)
Definition memset (dest val size : Z) (m : bytes_mem) : outcome bytes_mem :=
  for_up (Z.to_nat size) 0 (λ i m, put (dest + i) val m) m.

Definition memcpy (dest src size : Z) (m : bytes_mem) : outcome bytes_mem :=
  for_up (Z.to_nat size) 0 (λ i m, b ← byte_at m (src + i); put (dest + i) b m) m.

Definition zerocheck (dest size : Z) (m : bytes_mem) : outcome Z :=
  loop (S (Z.to_nat size)) (λ i,
    if negb (i <? size) then Done (inr (-1)) else
    b ← byte_at m (dest + i);
    if negb (b =? 0) then Done (inr (s32 i)) else Done (inl (i + 1))) 0.

Definition memcmp (dest src size : Z) (m : bytes_mem) : outcome Z :=
  loop (S (Z.to_nat size)) (λ i,
    if negb (i <? size) then Done (inr 0) else
    d ← byte_at m (dest + i);
    c ← byte_at m (src + i);
    if negb (d =? c) then Done (inr 1) else Done (inl (i + 1))) 0.

(** ** Strings *)
Definition STR_MAX_SIZE : Z := 65536.

Definition strlen (str : Z) (m : bytes_mem) : outcome Z :=
  loop (S (Z.to_nat STR_MAX_SIZE)) (λ len,
    c ← char_at m (str + len);
    if negb (c =? 0) && (len <? STR_MAX_SIZE) then Done (inl (len + 1)) else Done (inr len)) 0.

(** The end of a string, where its terminator is. *)
Definition find_end (p : Z) (m : bytes_mem) : outcome Z :=
  loop (scan_fuel m) (λ p,
    c ← char_at m p; if negb (c =? 0) then Done (inl (p + 1)) else Done (inr p)) p.

Definition strcpy (dest src : Z) (m : bytes_mem) : outcome bytes_mem :=
  '(i, m) ← loop (scan_fuel m) (λ '(i, m),
     c ← char_at m (src + i);
     if negb (c =? 0) then m ← put (dest + i) c m; Done (inl (i + 1, m)) else Done (inr (i, m))) (0, m);
  put (dest + i) 0 m.

Definition strncpy (dest src n : Z) (m : bytes_mem) : outcome bytes_mem :=
  len ← strlen src m;
  let n := if len <? n then len else n in
  '(i, m) ← loop (scan_fuel m) (λ '(i, m),
     if negb (i <? n) then Done (inr (i, m)) else
     c ← char_at m (src + i);
     if negb (c =? 0) then m ← put (dest + i) c m; Done (inl (i + 1, m)) else Done (inr (i, m))) (0, m);
  put (dest + i) 0 m.

Definition strcat (dest src : Z) (m : bytes_mem) : outcome (Z * bytes_mem) :=
  d ← find_end dest m;
  '(d, m) ← loop (scan_fuel m) (λ '(d, s, m),
     c ← char_at m s;
     if negb (c =? 0) then m ← put d c m; Done (inl (d + 1, s + 1, m)) else Done (inr (d, m)))
     (d, src, m);
  m ← put d 0 m;
  Done (dest, m).

Definition strncat (dest src n : Z) (m : bytes_mem) : outcome (Z * bytes_mem) :=
  d ← find_end dest m;
  '(d, m) ← loop (scan_fuel m) (λ '(d, s, n, m),
     c ← char_at m s;
     if negb (c =? 0) && (n >? 0) then m ← put d c m; Done (inl (d + 1, s + 1, n - 1, m))
     else Done (inr (d, m)))
     (d, src, n, m);
  m ← put d 0 m;
  Done (dest, m).

Definition strchr (str ch : Z) (m : bytes_mem) : outcome Z :=
  loop (scan_fuel m) (λ p,
    c ← char_at m p;
    if c =? ch then Done (inr p)
    else if negb (c =? 0) then Done (inl (p + 1)) else Done (inr 0)) str.

Definition strrchr (str ch : Z) (m : bytes_mem) : outcome Z :=
  loop (scan_fuel m) (λ '(p, last),
    c ← char_at m p;
    let last := if c =? ch then p else last in
    if negb (c =? 0) then Done (inl (p + 1, last)) else Done (inr last)) (str, 0).

(** Is [c] one of the characters of the string at [set]? *)
Definition in_set (c set : Z) (m : bytes_mem) : outcome bool :=
  loop (scan_fuel m) (λ r,
    d ← char_at m r;
    if d =? 0 then Done (inr false) else if c =? d then Done (inr true) else Done (inl (r + 1))) set.

Definition strcspn (str reject : Z) (m : bytes_mem) : outcome Z :=
  loop (scan_fuel m) (λ count,
    c ← char_at m (str + count);
    if c =? 0 then Done (inr count) else
    hit ← in_set c reject m;
    if (hit : bool) then Done (inr count) else Done (inl (count + 1))) 0.

(** The inner loop: the needle is a prefix of the string at [h]. *)
Definition prefix_at (h n : Z) (m : bytes_mem) : outcome bool :=
  loop (scan_fuel m) (λ '(h, n),
    a ← char_at m h;
    b ← char_at m n;
    if (a =? b) && negb (b =? 0) then Done (inl (h + 1, n + 1)) else Done (inr (b =? 0))) (h, n).

Definition strstr (haystack needle : Z) (m : bytes_mem) : outcome Z :=
  loop (scan_fuel m) (λ h,
    c ← char_at m h;
    if c =? 0 then Done (inr 0) else
    hit ← prefix_at h needle m;
    if (hit : bool) then Done (inr h) else Done (inl (h + 1))) haystack.

Definition strcmp (s1 s2 : Z) (m : bytes_mem) : outcome Z :=
  loop (scan_fuel m) (λ '(s1, s2),
    a ← char_at m s1;
    b ← char_at m s2;
    if negb (a =? 0) && negb (b =? 0) && (a =? b) then Done (inl (s1 + 1, s2 + 1))
    else Done (inr (a - b))) (s1, s2).

(** The difference is taken of unsigned characters. *)
Definition strncmp (s1 s2 n : Z) (m : bytes_mem) : outcome Z :=
  if n =? 0 then Done 0 else
  loop (scan_fuel m) (λ '(s1, s2, n),
    a ← byte_at m s1;
    b ← byte_at m s2;
    if negb (a =? b) then Done (inr (a - b)) else
    if a =? 0 then Done (inr 0) else
    if n - 1 =? 0 then Done (inr 0) else Done (inl (s1 + 1, s2 + 1, n - 1))) (s1, s2, n).

(** ** Numbers *)
Definition skip_while (p : Z → bool) (a : Z) (m : bytes_mem) : outcome Z :=
  loop (scan_fuel m) (λ a, c ← char_at m a; if p c then Done (inl (a + 1)) else Done (inr a)) a.

Definition digit_value (c : Z) : Z :=
  if isdigit c then c - 48 else
  if isxdigit c then
    if (c >=? 97) && (c <=? 102) then c - 97 + 10 else
    if (c >=? 65) && (c <=? 70) then c - 65 + 10 else 0
  else 0.

Definition atou64 (nptr : Z) (m : bytes_mem) : outcome Z :=
  nptr ← skip_while isspace nptr m;
  c0 ← char_at m nptr;
  '(base, nptr) ←
    (if c0 =? 48 then
       c1 ← char_at m (nptr + 1);
       if c1 =? 120 then Done (16, nptr + 2)
       else if c1 =? 98 then Done (2, nptr + 2) else Done (10, nptr)
     else Done (10, nptr));
  nptr ← skip_while (λ c, negb (isdigit c)) nptr m;
  len ← strlen nptr m;
  '(result, _) ← for_up (Z.to_nat len) 0 (λ i '(result, multiplier),
     c ← char_at m (nptr + (len - i - 1));
     Done (u64 (result + u64 (digit_value c * multiplier)), u64 (multiplier * base))) (0, 1);
  Done result.

Definition atou8 (nptr : Z) (m : bytes_mem) : outcome Z := r ← atou64 nptr m; Done (u8 r).

Definition ULLONG_MAX : Z := 2 ^ 64 - 1.

(** One digit of [strtoull]; [None]: the character ends the number. *)
Definition ull_digit (c base : Z) : option Z :=
  let v := if isdigit c then Some (c - 48)
           else if isalpha c then Some (c - (if isupper c then 65 - 10 else 97 - 10))
           else None in
  v ← v; if v >=? base then None else Some v.

(** The result and, for a non-NULL [endptr], the address stored in it. *)
Definition strtoull (nptr base : Z) (m : bytes_mem) : outcome (Z * Z) :=
  s ← skip_while isspace nptr m;
  c ← char_at m s;
  let s := s + 1 in
  '(neg, c, s) ←
    (if c =? 45 then c ← char_at m s; Done (true, c, s + 1)
     else if c =? 43 then c ← char_at m s; Done (false, c, s + 1)
     else Done (false, c, s));
  '(base, c, s) ←
    (if ((base =? 0) || (base =? 16)) && (c =? 48) then
       x ← char_at m s;
       if (x =? 120) || (x =? 88) then c ← char_at m (s + 1); Done (16, c, s + 2)
       else Done (base, c, s)
     else Done (base, c, s));
  let base := if base =? 0 then (if c =? 48 then 8 else 10) else base in
  if base =? 0 then Fault else
  let cutoff := ULLONG_MAX / u64 base in
  let cutlim := s32 (ULLONG_MAX mod u64 base) in
  '(acc, any, s) ← loop (scan_fuel m) (λ '(c, s, acc, any),
     match ull_digit c base with
     | None => Done (inr (acc, any, s))
     | Some v =>
         let '(acc, any) :=
           if (any <? 0) || (acc >? cutoff) || ((acc =? cutoff) && (v >? cutlim)) then (acc, -1)
           else (u64 (u64 (acc * base) + v), 1) in
         c ← char_at m s;
         Done (inl (c, s + 1, acc, any))
     end) (c, s, 0, 0);
  let acc := if any <? 0 then ULLONG_MAX else if (neg : bool) then u64 (- acc) else acc in
  Done (acc, if negb (any =? 0) then s - 1 else nptr).

(** ** Tokens: [last] is the static pointer *)
(** One round of the inner loop over the delimiters; after a leading delimiter it goes on
    from the same [d]. *)
Definition strtok_delim : Z * Z * Z * bytes_mem → outcome (Z * Z * Z * bytes_mem + option Z * Z * Z * bytes_mem) :=
  λ '(d, start, last, m),
    c ← char_at m d;
    if c =? 0 then Done (inr (None, start, last, m)) else
    l ← char_at m last;
    if l =? c then
      m ← put last 0 m;
      if start =? last then Done (inl (d, last + 1, last + 1, m))
      else Done (inr (Some start, start, last + 1, m))
    else Done (inl (d + 1, start, last, m)).

Definition strtok (s delim last : Z) (m : bytes_mem) : outcome (Z * Z * bytes_mem) :=
  if (s =? 0) && (last =? 0) then Done (0, last, m) else
  let last := if negb (s =? 0) then s else last in
  loop (scan_fuel m) (λ '(start, last, m),
    c ← char_at m last;
    if c =? 0 then Done (inr (if start =? last then 0 else start, last, m)) else
    '(r, start, last, m) ← loop (scan_fuel m * scan_fuel m) strtok_delim (delim, start, last, m);
    match (r : option Z) with
    | Some t => Done (inr (t, last, m))
    | None => Done (inl (start, last + 1, m))
    end) (last, last, m).

(** ** Little-endian access *)
Definition store16 (dest value : Z) (m : bytes_mem) : outcome bytes_mem :=
  m ← put dest value m; put (dest + 1) (Z.shiftr value 8) m.

Definition store32 (dest value : Z) (m : bytes_mem) : outcome bytes_mem :=
  m ← put dest value m;
  m ← put (dest + 1) (Z.shiftr value 8) m;
  m ← put (dest + 2) (Z.shiftr value 16) m;
  put (dest + 3) (Z.shiftr value 24) m.

(** A byte shifted by less than 32 is an [int]; the [uint64_t] it is or-ed into
    receives its sign extension. *)
Definition load16 (src : Z) (m : bytes_mem) : outcome Z :=
  b0 ← byte_at m src; b1 ← byte_at m (src + 1);
  Done (u16 (Z.lor b0 (Z.shiftl b1 8))).

Definition load32 (src : Z) (m : bytes_mem) : outcome Z :=
  b0 ← byte_at m src; b1 ← byte_at m (src + 1); b2 ← byte_at m (src + 2); b3 ← byte_at m (src + 3);
  Done (u32 (Z.lor (Z.lor (Z.lor b0 (Z.shiftl b1 8)) (Z.shiftl b2 16)) (s32 (Z.shiftl b3 24)))).

Definition low_bytes (src : Z) (m : bytes_mem) : outcome Z :=
  b0 ← byte_at m src; b1 ← byte_at m (src + 1); b2 ← byte_at m (src + 2); b3 ← byte_at m (src + 3);
  Done (Z.lor (Z.lor (Z.lor b0 (Z.shiftl b1 8)) (Z.shiftl b2 16)) (u64 (s32 (Z.shiftl b3 24)))).

Definition load48 (src : Z) (m : bytes_mem) : outcome Z :=
  v ← low_bytes src m; b4 ← byte_at m (src + 4); b5 ← byte_at m (src + 5);
  Done (Z.lor (Z.lor v (Z.shiftl b4 32)) (Z.shiftl b5 40)).

Definition load64 (src : Z) (m : bytes_mem) : outcome Z :=
  v ← load48 src m; b6 ← byte_at m (src + 6); b7 ← byte_at m (src + 7);
  Done (Z.lor (Z.lor v (Z.shiftl b6 48)) (Z.shiftl b7 56)).

(** ** Properties *)
(** *** Byte order *)
(** The bytes at an address. *)
Definition holds_bytes (m : bytes_mem) (a : Z) (l : list Z) : Prop :=
  ∀ i b, l !! i = Some b → m !! (a + Z.of_nat i) = Some b.

Fixpoint le_value (l : list Z) : Z :=
  match l with [] => 0 | b :: l => b + 256 * le_value l end.

Lemma byte_done m a l i b : holds_bytes m a l → l !! i = Some b → byte_at m (a + Z.of_nat i) = Done b.
Proof. intros Hl E. unfold byte_at. by rewrite (Hl i b E). Qed.

(** Four bytes, of which the last is sign extended. *)
Lemma low_bytes_ok m a b0 b1 b2 b3 l :
  holds_bytes m a (b0 :: b1 :: b2 :: b3 :: l) → is_byte b0 → is_byte b1 → is_byte b2 → is_byte b3 →
  low_bytes a m =
  Done (le_value [b0; b1; b2; b3] + if b3 <? 128 then 0 else Z.ones 32 * 2 ^ 32).
Proof.
  unfold is_byte. intros Hl H0 H1 H2 H3. unfold low_bytes.
  pose proof (byte_done _ _ _ 0 _ Hl eq_refl) as E0. rewrite Z.add_0_r in E0.
  rewrite E0, bind_done.
  rewrite (byte_done _ _ _ 1 _ Hl eq_refl : byte_at m (a + 1) = _), bind_done.
  rewrite (byte_done _ _ _ 2 _ Hl eq_refl : byte_at m (a + 2) = _), bind_done.
  rewrite (byte_done _ _ _ 3 _ Hl eq_refl : byte_at m (a + 3) = _), bind_done.
  f_equal. rewrite (lor_add b0 b1 8) by lia. rewrite (lor_add _ b2 16) by lia.
  assert (Hs : u64 (s32 (Z.shiftl b3 24)) = Z.shiftl (b3 + if b3 <? 128 then 0 else Z.ones 40 - 255) 24).
  { rewrite !Z.shiftl_mul_pow2 by lia. unfold s32, swrap, u64, wrap.
    change (Z.ones 40) with (2 ^ 40 - 1).
    rewrite (Z.mod_small (b3 * 2 ^ 24)) by lia. destruct (Z.ltb_spec b3 128).
    - destruct (Z.ltb_spec (b3 * 2 ^ 24) (2 ^ (32 - 1))); [|lia]. rewrite Z.mod_small; lia.
    - destruct (Z.ltb_spec (b3 * 2 ^ 24) (2 ^ (32 - 1))); [lia|].
      rewrite <- (Z.mod_add _ 1) by lia. rewrite Z.mod_small; lia. }
  rewrite Hs, lor_add by lia. cbn [le_value]. destruct (b3 <? 128); [lia|].
  change (Z.ones 40) with (2 ^ 40 - 1). change (Z.ones 32) with (2 ^ 32 - 1). lia.
Qed.

(** A byte above bit 32 is lost among the ones of the sign extension. *)
Lemma lor_high_ones v b k :
  0 ≤ v < 2 ^ 32 → is_byte b → 32 ≤ k ≤ 56 →
  Z.lor (v + Z.ones 32 * 2 ^ 32) (Z.shiftl b k) = v + Z.ones 32 * 2 ^ 32.
Proof.
  intros Hv Hb Hk. rewrite <- (lor_add v (Z.ones 32) 32) by lia. rewrite <- Z.lor_assoc. f_equal.
  replace (Z.shiftl b k) with (Z.shiftl (Z.shiftl b (k - 32)) 32) by (rewrite Z.shiftl_shiftl; f_equal; lia).
  rewrite <- Z.shiftl_lor. f_equal. rewrite Z.lor_comm.
  assert (0 ≤ Z.shiftl b (k - 32) < 2 ^ 32).
  { unfold is_byte in Hb. rewrite Z.shiftl_mul_pow2 by lia.
    assert (2 ^ (k - 32) ≤ 2 ^ 24) by (apply Z.pow_le_mono_r; lia).
    assert (0 < 2 ^ (k - 32)) by (apply Z.pow_pos_nonneg; lia). nia. }
  apply Z.lor_ones_low; [lia|]. destruct (decide (Z.shiftl b (k - 32) = 0)) as [->|]; [done|].
  apply Z.log2_lt_pow2; lia.
Qed.

Lemma load48_ok m a b0 b1 b2 b3 b4 b5 l :
  holds_bytes m a (b0 :: b1 :: b2 :: b3 :: b4 :: b5 :: l) →
  is_byte b0 → is_byte b1 → is_byte b2 → is_byte b3 → is_byte b4 → is_byte b5 →
  load48 a m =
  Done (if b3 <? 128 then le_value [b0; b1; b2; b3; b4; b5]
        else le_value [b0; b1; b2; b3] + Z.ones 32 * 2 ^ 32).
Proof.
  intros Hl H0 H1 H2 H3 H4 H5. unfold load48. rewrite (low_bytes_ok m a b0 b1 b2 b3 (b4 :: b5 :: l)) by done.
  rewrite bind_done.
  rewrite (byte_done _ _ _ 4 _ Hl eq_refl : byte_at m (a + 4) = _), bind_done.
  rewrite (byte_done _ _ _ 5 _ Hl eq_refl : byte_at m (a + 5) = _), bind_done. f_equal.
  unfold is_byte in *. destruct (b3 <? 128).
  - rewrite (lor_add _ b4 32) by (cbn; lia). rewrite (lor_add _ b5 40) by (cbn; lia). cbn. lia.
  - rewrite !lor_high_ones by (unfold is_byte; cbn; lia). done.
Qed.

(** The bytes [store32] leaves. *)
Lemma store32_ok m a v :
  (∀ i, 0 ≤ i < 4 → is_Some (m !! (a + i))) →
  ∃ m', store32 a v m = Done m' ∧
    holds_bytes m' a [u8 v; u8 (Z.shiftr v 8); u8 (Z.shiftr v 16); u8 (Z.shiftr v 24)].
Proof.
  intros Hm. unfold store32, put, byte_at.
  destruct (Hm 0) as [x0 E0]; [lia|]. rewrite Z.add_0_r in E0.
  destruct (Hm 1) as [x1 E1]; [lia|]. destruct (Hm 2) as [x2 E2]; [lia|]. destruct (Hm 3) as [x3 E3]; [lia|].
  rewrite E0. cbn [known]. rewrite !bind_done.
  rewrite lookup_insert_ne, E1 by lia. cbn [known]. rewrite !bind_done.
  rewrite !lookup_insert_ne, E2 by lia. cbn [known]. rewrite !bind_done.
  rewrite !lookup_insert_ne, E3 by lia. cbn [known]. rewrite !bind_done.
  eexists. split; [done|]. intros [|[|[|[|]]]] b Hb; cbn in Hb; simplify_eq; cbn;
    rewrite ?Z.add_0_r; rewrite ?lookup_insert_ne by lia; by rewrite lookup_insert_eq.
Qed.

Lemma load32_ok m a v :
  holds_bytes m a [u8 v; u8 (Z.shiftr v 8); u8 (Z.shiftr v 16); u8 (Z.shiftr v 24)] →
  0 ≤ v < 2 ^ 32 → load32 a m = Done v.
Proof.
  intros Hl Hv. unfold load32. pose proof (byte_done _ _ _ 0 _ Hl eq_refl) as E0. rewrite Z.add_0_r in E0.
  rewrite E0, bind_done.
  rewrite (byte_done _ _ _ 1 _ Hl eq_refl : byte_at m (a + 1) = _), bind_done.
  rewrite (byte_done _ _ _ 2 _ Hl eq_refl : byte_at m (a + 2) = _), bind_done.
  rewrite (byte_done _ _ _ 3 _ Hl eq_refl : byte_at m (a + 3) = _), bind_done. f_equal.
  rewrite !Z.shiftr_div_pow2 by lia. pose proof (u8_range v). pose proof (u8_range (v / 2 ^ 8)).
  pose proof (u8_range (v / 2 ^ 16)). pose proof (u8_range (v / 2 ^ 24)).
  rewrite (lor_add (u8 v) _ 8), (lor_add _ (u8 (v / 2 ^ 16)) 16) by lia.
  assert (Hs : ∃ q, s32 (Z.shiftl (u8 (v / 2 ^ 24)) 24) = Z.shiftl (u8 (v / 2 ^ 24) + 256 * q) 24).
  { rewrite Z.shiftl_mul_pow2 by lia. unfold s32, swrap. rewrite Z.mod_small by lia.
    case_match; [exists 0|exists (-1)]; rewrite Z.shiftl_mul_pow2; lia. }
  destruct Hs as [q ->]. rewrite lor_add by lia. unfold u32, u8, wrap in *.
  symmetry. apply (Z.mod_unique_pos _ _ q); [lia|]. dlia.
Qed.

(** [load32] gives back what [store32] stored.  [load64] reads eight bytes in little
    endian order only when the fourth is below 128: otherwise the promotion of
    [byte << 24] to a negative [int] sets all upper 32 bits and the last four bytes are
    ignored. *)
Theorem load_store_bytes m a v b0 b1 b2 b3 b4 b5 b6 b7 :
  (∀ i, 0 ≤ i < 4 → is_Some (m !! (a + i))) → 0 ≤ v < 2 ^ 32 →
  Forall is_byte [b0; b1; b2; b3; b4; b5; b6; b7] →
  (∃ m', store32 a v m = Done m' ∧ load32 a m' = Done v) ∧
  (∀ c, holds_bytes m c [b0; b1; b2; b3; b4; b5; b6; b7] →
    load64 c m = Done (if b3 <? 128 then le_value [b0; b1; b2; b3; b4; b5; b6; b7]
                       else le_value [b0; b1; b2; b3] + (2 ^ 64 - 2 ^ 32))).
Proof.
  intros Hm Hv Hb. split.
  - destruct (store32_ok m a v Hm) as (m' & E & Hh). exists m'. split; [done|].
    by rewrite (load32_ok _ _ _ Hh Hv).
  - intros c Hc. rewrite !Forall_cons in Hb. destruct Hb as (H0 & H1 & H2 & H3 & H4 & H5 & H6 & H7 & _).
    unfold load64. rewrite (load48_ok m c b0 b1 b2 b3 b4 b5 [b6; b7]) by done. rewrite bind_done.
    rewrite (byte_done _ _ _ 6 _ Hc eq_refl : byte_at m (c + 6) = _), bind_done.
    rewrite (byte_done _ _ _ 7 _ Hc eq_refl : byte_at m (c + 7) = _), bind_done. f_equal.
    destruct (b3 <? 128).
    + unfold is_byte in *. rewrite (lor_add _ b6 48) by (cbn; lia).
      rewrite (lor_add _ b7 56) by (cbn; lia). cbn. lia.
    + rewrite !lor_high_ones by (unfold is_byte in *; cbn; lia). done.
Qed.

Lemma load_store_bytes_witness :
  ∃ m', store32 0 0xdeadbeef (list_to_map ((λ i, (i, 0)) <$> seqZ 0 8)) = Done m' ∧
    load32 0 m' = Done 0xdeadbeef.
Proof.
  apply (load_store_bytes (list_to_map ((λ i, (i, 0)) <$> seqZ 0 8)) 0 0xdeadbeef 0 0 0 0 0 0 0 0).
  - intros i Hi. assert (i = 0 ∨ i = 1 ∨ i = 2 ∨ i = 3) as [->|[->|[->| ->]]] by lia; by eexists.
  - lia.
  - repeat constructor; done.
Defined.

(** *** C strings *)
(** The characters of a string: non-zero bytes, then the terminator. *)
Record cstr (m : bytes_mem) (a : Z) (l : list Z) : Prop := {
  cs_bytes : holds_bytes m a l;
  cs_chars : Forall (λ b, 0 < b < 256) l;
  cs_end : m !! (a + Z.of_nat (List.length l)) = Some 0;
}.

Lemma cstr_nil m a : cstr m a [] → char_at m a = Done 0.
Proof. intros [_ _ He]. cbn in He. rewrite Z.add_0_r in He. unfold char_at, byte_at. by rewrite He. Qed.

Lemma s8_nonzero b : 0 < b < 256 → s8 b ≠ 0.
Proof. unfold s8, swrap. intros Hb. rewrite Z.mod_small by lia. case_match; zbool; lia. Qed.

Lemma s8_inj b c : 0 ≤ b < 256 → 0 ≤ c < 256 → s8 b = s8 c → b = c.
Proof.
  unfold s8, swrap. intros Hb Hc. rewrite !Z.mod_small by lia. repeat case_match; zbool; lia.
Qed.

Lemma cstr_cons m a b l :
  cstr m a (b :: l) → byte_at m a = Done b ∧ char_at m a = Done (s8 b) ∧ 0 < b < 256 ∧ cstr m (a + 1) l.
Proof.
  intros [Hb Hc He]. apply Forall_cons in Hc as [Hb0 Hc].
  pose proof (byte_done _ _ _ 0 _ Hb eq_refl) as E. rewrite Z.add_0_r in E.
  split_and!; [done| |lia|lia|].
  - unfold char_at. by rewrite E.
  - split; [|done|].
    + intros i x Hx. rewrite <- (Hb (S i) x Hx). f_equal. lia.
    + rewrite <- He. f_equal. cbn. lia.
Qed.

(** A scan never needs more steps than the memory has cells. *)
(** A string and its terminator occupy distinct bytes of the memory. *)
Lemma cstr_size m a l : cstr m a l → (List.length l < size m)%nat.
Proof.
  intros Hs. rewrite <- size_dom. set (n := Z.of_nat (List.length l) + 1).
  assert (Hsz : size (list_to_set (seqZ a n) : gset Z) = S (List.length l)).
  { rewrite size_list_to_set by apply NoDup_seqZ. rewrite length_seqZ. subst n. lia. }
  enough (S (List.length l) ≤ size (dom m))%nat by lia. rewrite <- Hsz. apply subseteq_size.
  intros b. rewrite elem_of_list_to_set, elem_of_seqZ, elem_of_dom. intros Hb.
  destruct (decide (b = a + Z.of_nat (List.length l))) as [->|].
  { exists 0. apply (cs_end _ _ _ Hs). }
  destruct (lookup_lt_is_Some_2 l (Z.to_nat (b - a))) as [x Ex]; [subst n; lia|].
  exists x. rewrite <- (cs_bytes _ _ _ Hs _ _ Ex). f_equal. lia.
Qed.

Lemma cstr_fuel m a l : cstr m a l → (List.length l < scan_fuel m)%nat.
Proof. intros Hs. unfold scan_fuel. pose proof (cstr_size _ _ _ Hs). lia. Qed.

(** The difference of the first characters that differ, as signed [char]s. *)
Fixpoint str_diff (x y : list Z) : Z :=
  match x, y with
  | [], [] => 0
  | [], c :: _ => - s8 c
  | b :: _, [] => s8 b
  | b :: x, c :: y => if b =? c then str_diff x y else s8 b - s8 c
  end.

Lemma str_diff_zero x y :
  Forall (λ b, 0 < b < 256) x → Forall (λ b, 0 < b < 256) y → str_diff x y = 0 ↔ x = y.
Proof.
  intros Hx. revert y. induction Hx as [|b x Hb Hx IH]; intros [|c y] Hy; cbn; try done;
    try (apply Forall_cons in Hy as [Hc Hy]).
  - pose proof (s8_nonzero c Hc). split; [lia|done].
  - pose proof (s8_nonzero b Hb). split; [lia|done].
  - destruct (Z.eqb_spec b c) as [->|Hne].
    + rewrite IH by done. naive_solver.
    + split; [|naive_solver]. intros E. exfalso. apply Hne, s8_inj; lia.
Qed.

Lemma strcmp_loop m fuel a b x y :
  cstr m a x → cstr m b y → (List.length x < fuel)%nat →
  loop fuel (λ '(s1, s2),
    a ← char_at m s1;
    b ← char_at m s2;
    if negb (a =? 0) && negb (b =? 0) && (a =? b) then Done (inl (s1 + 1, s2 + 1))
    else Done (inr (a - b))) (a, b) = Done (str_diff x y).
Proof.
  revert a b x y. induction fuel as [|fuel IH]; intros a b x y Hx Hy Hf; [lia|]. cbn [loop].
  destruct x as [|c x]; [rewrite (cstr_nil _ _ Hx)|apply cstr_cons in Hx as (_ & -> & Hc & Hx)];
    rewrite bind_done;
    (destruct y as [|d y]; [rewrite (cstr_nil _ _ Hy)|apply cstr_cons in Hy as (_ & -> & Hd & Hy)];
     rewrite bind_done); cbn [str_diff].
  - done.
  - cbn. f_equal.
  - rewrite (proj2 (Z.eqb_neq _ _) (s8_nonzero c Hc)). cbn. f_equal. lia.
  - rewrite (proj2 (Z.eqb_neq _ _) (s8_nonzero c Hc)), (proj2 (Z.eqb_neq _ _) (s8_nonzero d Hd)). cbn [negb andb].
    destruct (Z.eqb_spec c d) as [->|Hne].
    + rewrite Z.eqb_refl, bind_done. cbn in Hf. apply IH; [done|done|lia].
    + rewrite (proj2 (Z.eqb_neq (s8 c) (s8 d))); [done|]. intros E. apply Hne, s8_inj; lia.
Qed.

(** [strcmp] on two strings returns, and returns the difference of the first
    characters that differ, zero exactly for equal strings.  The characters are compared
    as signed [char]s. *)
Theorem strcmp_spec m a b x y :
  cstr m a x → cstr m b y →
  strcmp a b m = Done (str_diff x y) ∧ (strcmp a b m = Done 0 ↔ x = y).
Proof.
  intros Hx Hy. assert (E : strcmp a b m = Done (str_diff x y)) by (apply strcmp_loop; by eauto using cstr_fuel).
  split; [done|]. rewrite E, <- (str_diff_zero x y) by (by eapply cs_chars).
  split; [by intros [= ->]|by intros ->].
Qed.

(** *** Concatenation *)
Lemma find_end_ok m a l : cstr m a l → find_end a m = Done (a + Z.of_nat (List.length l)).
Proof.
  intros Hs. unfold find_end. generalize (cstr_fuel _ _ _ Hs). generalize (scan_fuel m). intros fuel.
  revert a l Hs. induction fuel as [|fuel IH]; intros a l Hs Hf; [lia|]. cbn [loop].
  destruct l as [|b l].
  - rewrite (cstr_nil _ _ Hs). cbn. f_equal. lia.
  - apply cstr_cons in Hs as (_ & -> & Hb & Hs). rewrite bind_done.
    rewrite (proj2 (Z.eqb_neq _ _) (s8_nonzero b Hb)). cbn [negb]. rewrite bind_done.
    cbn in Hf. rewrite (IH _ l Hs) by lia. f_equal. cbn. lia.
Qed.

(** The bytes [l] written from [a] on. *)
Fixpoint write_bytes (m : bytes_mem) (a : Z) (l : list Z) : bytes_mem :=
  match l with [] => m | b :: l => write_bytes (<[a := b]> m) (a + 1) l end.

Lemma write_bytes_outside m a l b :
  ¬ (a ≤ b < a + Z.of_nat (List.length l)) → write_bytes m a l !! b = m !! b.
Proof.
  revert m a. induction l as [|x l IH]; intros m a Hb; [done|]. cbn in *.
  rewrite IH by lia. by rewrite lookup_insert_ne by lia.
Qed.

Lemma write_bytes_inside m a l : holds_bytes (write_bytes m a l) a l.
Proof.
  revert m a. induction l as [|x l IH]; intros m a i b Hb; [done|]. destruct i as [|i]; cbn in *.
  - injection Hb as ->. rewrite write_bytes_outside, Z.add_0_r by lia. by rewrite lookup_insert_eq.
  - rewrite <- (IH (<[a := x]> m) (a + 1) i b Hb). f_equal. lia.
Qed.

Lemma cstr_frame m m' a l :
  (∀ b, a ≤ b ≤ a + Z.of_nat (List.length l) → m' !! b = m !! b) → cstr m a l → cstr m' a l.
Proof.
  intros Hm [Hb Hc He]. split; [|done|].
  - intros i x Hx. pose proof (lookup_lt_Some _ _ _ Hx). rewrite Hm by lia. by apply Hb.
  - rewrite Hm by lia. done.
Qed.

Lemma put_ok m a v : is_Some (m !! a) → put a v m = Done (<[a := u8 v]> m).
Proof. intros [x E]. unfold put, byte_at. by rewrite E. Qed.

Lemma u8_s8 b : 0 ≤ b < 256 → u8 (s8 b) = b.
Proof.
  intros Hb. unfold u8, wrap, s8, swrap. rewrite (Z.mod_small b) by lia. case_match; zbool.
  - apply Z.mod_small. lia.
  - rewrite <- (Z.mod_add _ 1) by lia. rewrite Z.mod_small; lia.
Qed.

Lemma strcat_loop m fuel d s y :
  cstr m s y → (∀ i, 0 ≤ i < Z.of_nat (List.length y) → is_Some (m !! (d + i))) →
  (d + Z.of_nat (List.length y) ≤ s ∨ s + Z.of_nat (List.length y) < d) →
  (List.length y < fuel)%nat →
  loop fuel (λ '(d, s, m),
     c ← char_at m s;
     if negb (c =? 0) then m ← put d c m; Done (inl (d + 1, s + 1, m)) else Done (inr (d, m)))
     (d, s, m) = Done (d + Z.of_nat (List.length y), write_bytes m d y).
Proof.
  revert m d s y. induction fuel as [|fuel IH]; intros m d s y Hy Hd Hsep Hf; [lia|]. cbn [loop].
  destruct y as [|b y].
  - rewrite (cstr_nil _ _ Hy). cbn. do 2 f_equal. lia.
  - apply cstr_cons in Hy as (_ & -> & Hb & Hy). rewrite bind_done.
    rewrite (proj2 (Z.eqb_neq _ _) (s8_nonzero b Hb)). cbn [negb List.length] in *.
    rewrite put_ok by (rewrite <- (Z.add_0_r d); apply Hd; lia). rewrite !bind_done, u8_s8 by lia.
    rewrite (IH _ (d + 1) (s + 1) y).
    + cbn [write_bytes]. do 2 f_equal. lia.
    + eapply cstr_frame; [|exact Hy]. intros c Hc. apply lookup_insert_ne. lia.
    + intros i Hi. destruct (decide (d = d + 1 + i)); [lia|]. rewrite lookup_insert_ne by lia.
      rewrite <- Z.add_assoc. apply Hd. lia.
    + lia.
    + lia.
Qed.

(** [strcat] on two strings that do not overlap, with room after the first, returns
    and leaves the concatenation at the destination, terminated; it writes nothing
    outside the bytes of the appended part and its terminator. *)
Theorem strcat_spec m d s x y (e := d + Z.of_nat (List.length x)) :
  cstr m d x → cstr m s y →
  (∀ i, 0 ≤ i ≤ Z.of_nat (List.length y) → is_Some (m !! (e + i))) →
  (e + Z.of_nat (List.length y) < s ∨ s + Z.of_nat (List.length y) < d) →
  ∃ m', strcat d s m = Done (d, m') ∧ cstr m' d (x ++ y) ∧ cstr m' s y ∧
    (∀ b, ¬ (e ≤ b ≤ e + Z.of_nat (List.length y)) → m' !! b = m !! b).
Proof.
  intros Hx Hy Hroom Hsep. unfold strcat. rewrite (find_end_ok _ _ _ Hx), bind_done. fold e.
  rewrite (strcat_loop _ _ _ _ y Hy) by (subst e; eauto using cstr_fuel with lia).
  rewrite bind_done. rewrite put_ok by (rewrite write_bytes_outside by lia; apply Hroom; lia).
  rewrite bind_done. set (m' := <[_ := _]> _). exists m'. split; [done|].
  assert (Hout : ∀ b, ¬ (e ≤ b ≤ e + Z.of_nat (List.length y)) → m' !! b = m !! b).
  { intros b Hb. unfold m'. rewrite lookup_insert_ne by lia. apply write_bytes_outside. lia. }
  split_and!; [|eapply cstr_frame; [|exact Hy]; intros b Hb; apply Hout; subst e; lia|done].
  split.
  - intros i b Hb. apply lookup_app_Some in Hb as [Hb|[Hi Hb]].
    + pose proof (lookup_lt_Some _ _ _ Hb). rewrite Hout by (subst e; lia). by apply (cs_bytes _ _ _ Hx).
    + pose proof (lookup_lt_Some _ _ _ Hb). unfold m'. rewrite lookup_insert_ne by (subst e; lia).
      rewrite <- (write_bytes_inside m e y _ _ Hb). f_equal. subst e. lia.
  - apply Forall_app. split; [apply Hx|apply Hy].
  - unfold m'. rewrite length_app. replace (d + _) with (e + Z.of_nat (List.length y)) by (subst e; lia).
    by rewrite lookup_insert_eq.
Qed.

(** *** Decimal numbers *)
Fixpoint dec_value (l : list Z) : Z :=
  match l with [] => 0 | b :: l => (b - 48) * 10 ^ Z.of_nat (List.length l) + dec_value l end.

Definition digit (b : Z) : Prop := 48 ≤ b ≤ 57.

Lemma digit_char b : digit b → 0 < b < 256 ∧ s8 b = b ∧ isdigit b = true ∧ isspace b = false.
Proof.
  unfold digit. intros Hb. split_and!; [lia|lia| | |].
  - unfold s8, swrap. rewrite Z.mod_small by lia. by rewrite (proj2 (Z.ltb_lt b (2 ^ (8 - 1)))) by lia.
  - unfold isdigit. apply andb_true_iff. rewrite Z.geb_le, Z.leb_le. lia.
  - unfold isspace. by rewrite !(proj2 (Z.eqb_neq _ _)) by lia.
Qed.

Lemma u64_mul_r x y : u64 (x * u64 y) = u64 (x * y).
Proof. apply Zmult_mod_idemp_r. Qed.
Lemma u64_mul_l x y : u64 (u64 x * y) = u64 (x * y).
Proof. apply Zmult_mod_idemp_l. Qed.
#[local] Hint Rewrite u64_mul_r u64_mul_l : wrap64.

Lemma strlen_loop m fuel a n l :
  cstr m (a + n) l → n + Z.of_nat (List.length l) < STR_MAX_SIZE → (List.length l < fuel)%nat →
  loop fuel (λ len,
    c ← char_at m (a + len);
    if negb (c =? 0) && (len <? STR_MAX_SIZE) then Done (inl (len + 1)) else Done (inr len)) n =
  Done (n + Z.of_nat (List.length l)).
Proof.
  revert n l. induction fuel as [|fuel IH]; intros n l Hl Hn Hf; [lia|]. cbn [loop].
  destruct l as [|b l].
  - rewrite (cstr_nil _ _ Hl). cbn. f_equal. lia.
  - apply cstr_cons in Hl as (_ & -> & Hb & Hl). rewrite bind_done.
    rewrite (proj2 (Z.eqb_neq _ _) (s8_nonzero b Hb)). cbn [List.length] in *.
    rewrite (proj2 (Z.ltb_lt n STR_MAX_SIZE)) by lia. cbn [negb andb]. rewrite bind_done.
    rewrite (IH (n + 1) l); [f_equal; lia|by rewrite Z.add_assoc|lia|lia].
Qed.

Lemma strlen_ok m a l :
  cstr m a l → Z.of_nat (List.length l) < STR_MAX_SIZE → strlen a m = Done (Z.of_nat (List.length l)).
Proof.
  intros Hl Hn. unfold strlen. rewrite (strlen_loop m _ a 0 l); [done|by rewrite Z.add_0_r|done|].
  unfold STR_MAX_SIZE in *. lia.
Qed.

(** [skip_while] stops at once on a character that does not satisfy the test. *)
Lemma skip_none m a c p : char_at m a = Done c → p c = false → skip_while p a m = Done a.
Proof. intros E Hp. unfold skip_while, scan_fuel. cbn [loop]. by rewrite E, bind_done, Hp. Qed.

(** The digits from the last one on; after [i] of them the last [i] are summed. *)
Lemma digits_loop m a l k i :
  cstr m a l → Forall digit l → (k + i = List.length l)%nat →
  for_up k (Z.of_nat i) (λ j '(result, multiplier),
     c ← char_at m (a + (Z.of_nat (List.length l) - j - 1));
     Done (u64 (result + u64 (digit_value c * multiplier)), u64 (multiplier * 10)))
     (u64 (dec_value (drop k l)), u64 (10 ^ Z.of_nat i)) =
  Done (u64 (dec_value l), u64 (10 ^ Z.of_nat (List.length l))).
Proof.
  intros Hl Hd. revert i. induction k as [|k IH]; intros i Hki; cbn [for_up].
  - replace i with (List.length l) by lia. done.
  - destruct (lookup_lt_is_Some_2 l k) as [b Hb]; [lia|].
    assert (Hdig : digit b) by (by eapply Forall_lookup_1 in Hd).
    destruct (digit_char b Hdig) as (Hb0 & Hs8 & Hisd & _).
    assert (Hc : char_at m (a + (Z.of_nat (List.length l) - Z.of_nat i - 1)) = Done b).
    { replace (Z.of_nat (List.length l) - Z.of_nat i - 1) with (Z.of_nat k) by lia.
      unfold char_at. rewrite (byte_done _ _ _ _ _ (cs_bytes _ _ _ Hl) Hb). by rewrite bind_done, Hs8. }
    rewrite Hc, !bind_done. replace (Z.of_nat i + 1) with (Z.of_nat (S i)) by lia.
    rewrite <- (IH (S i)) by lia. f_equal. unfold digit_value. rewrite Hisd.
    rewrite (drop_S _ _ _ Hb). cbn [dec_value]. rewrite length_drop.
    replace (List.length l - S k)%nat with i by lia. autorewrite with wrap64. f_equal; f_equal; [lia|].
    replace (Z.of_nat (S i)) with (Z.of_nat i + 1) by lia. rewrite Z.pow_add_r by lia. lia.
Qed.

(** A scan for a digit runs over the terminator. *)
Lemma skip_overrun m a l :
  cstr m a l → Forall (λ b, ¬ digit b) l → m !! (a + Z.of_nat (List.length l) + 1) = None →
  skip_while (λ c, negb (isdigit c)) a m = Fault.
Proof.
  intros Hl Hnd Hend. pose proof (cstr_size _ _ _ Hl) as Hf. unfold skip_while, scan_fuel.
  revert a l Hl Hnd Hend Hf. generalize (size m) as fuel.
  induction fuel as [|fuel IH]; intros a l Hl Hnd Hend Hf; [lia|]. cbn [loop]. destruct l as [|b l].
  - rewrite (cstr_nil _ _ Hl), bind_done. cbn [isdigit negb andb Z.geb Z.compare Z.leb]. rewrite bind_done.
    cbn [List.length] in Hend. rewrite Z.add_0_r in Hend.
    unfold char_at, byte_at. rewrite Hend. done.
  - apply cstr_cons in Hl as (_ & -> & Hb & Hl). apply Forall_cons in Hnd as [Hb' Hnd]. rewrite bind_done.
    cbn [List.length] in *.
    assert (isdigit (s8 b) = false) as ->.
    { unfold isdigit, s8, swrap, digit in *. rewrite Z.mod_small by lia.
      apply andb_false_iff. rewrite Z.geb_leb, !Z.leb_gt. case_match; zbool; lia. }
    cbn [negb]. rewrite bind_done. apply (IH _ l); [done|done| |lia]. rewrite <- Hend. f_equal. lia.
Qed.

(** [atou64] reads a decimal string as its value modulo 2^64.  Behind the prefix 0x it
    skips everything that is not a decimal digit, the terminator included: a hexadecimal
    number of letters only is read past its end, a fault where no memory follows. *)
Theorem atou64_spec m a l :
  (cstr m a l → Forall digit l → l ≠ [] → head l ≠ Some 48 → Z.of_nat (List.length l) < STR_MAX_SIZE →
   atou64 a m = Done (u64 (dec_value l))) ∧
  (cstr m a (48 :: 120 :: l) → Forall (λ b, ¬ digit b) l → m !! (a + Z.of_nat (List.length l) + 3) = None →
   atou64 a m = Fault).
Proof.
  split.
  - intros Hl Hd Hne H0 Hn. destruct l as [|b l]; [done|].
    pose proof Hl as (_ & Hc & _ & _)%cstr_cons.
    destruct (digit_char b) as (_ & Hs8 & Hdg & Hsp); [by apply Forall_cons in Hd as [??]|].
    rewrite Hs8 in Hc. unfold atou64. rewrite (skip_none _ _ _ _ Hc Hsp), bind_done, Hc, bind_done.
    assert (b ≠ 48) by (cbn in H0; congruence). rewrite (proj2 (Z.eqb_neq b 48)) by done. rewrite bind_done.
    rewrite (skip_none _ _ _ _ Hc) by (by rewrite Hdg). rewrite bind_done.
    rewrite (strlen_ok _ _ _ Hl Hn), bind_done, Nat2Z.id.
    pose proof (digits_loop m a (b :: l) (List.length (b :: l)) 0 Hl Hd ltac:(lia)) as E.
    rewrite drop_all in E. change (u64 (dec_value [])) with 0 in E. change (u64 (10 ^ Z.of_nat 0)) with 1 in E.
    change (Z.of_nat 0) with 0 in E. rewrite E. done.
  - intros Hl Hnd Hend. pose proof Hl as (_ & Hc & _ & (_ & Hc1 & _ & Hl2)%cstr_cons)%cstr_cons.
    unfold atou64. rewrite (skip_none _ _ _ _ Hc) by done. rewrite bind_done, Hc, bind_done.
    change (s8 48 =? 48) with true. cbv iota. rewrite Hc1, bind_done.
    change (s8 120 =? 120) with true. cbv iota. rewrite bind_done.
    replace (a + 2) with (a + 1 + 1) by lia. rewrite (skip_overrun _ _ _ Hl2 Hnd); [done|].
    rewrite <- Hend. f_equal. lia.
Qed.

(** A memory that holds the bytes [l] from [a] on, and nothing else. *)
Definition mem_of (a : Z) (l : list Z) : bytes_mem := write_bytes ∅ a l.

Lemma mem_of_cstr (a : Z) l l' :
  Forall (λ b, 0 < b < 256) l → cstr (mem_of a (l ++ 0 :: l')) a l.
Proof.
  intros Hc. pose proof (write_bytes_inside ∅ a (l ++ 0 :: l')) as H. split; [|done|].
  - intros i b Hi. apply H. by apply lookup_app_l_Some.
  - apply H. by rewrite lookup_app_r, Nat.sub_diag by lia.
Qed.

Lemma atou64_spec_witness :
  atou64 16 (mem_of 16 [49; 50; 51; 0]) = Done 123 ∧
  atou64 16 (mem_of 16 [48; 120; 102; 102; 0]) = Fault.
Proof.
  split.
  - apply (atou64_spec (mem_of 16 [49; 50; 51; 0]) 16 [49; 50; 51]).
    + apply (mem_of_cstr 16 [49; 50; 51] []). by repeat constructor.
    + by repeat constructor.
    + done.
    + done.
    + done.
  - apply (atou64_spec (mem_of 16 [48; 120; 102; 102; 0]) 16 [102; 102]).
    + apply (mem_of_cstr 16 [48; 120; 102; 102] []). by repeat constructor.
    + repeat constructor; unfold digit; lia.
    + by vm_compute.
Defined.

(** The strings of the witnesses: "ab" at 0, "ac" at 8 and four bytes of room. *)
Definition two_strings : bytes_mem := mem_of 0 [97; 98; 0; 0; 0; 0; 0; 0; 97; 99; 0].

Lemma two_strings_first : cstr two_strings 0 [97; 98].
Proof. apply (mem_of_cstr 0 [97; 98]). by repeat constructor. Qed.

Lemma two_strings_second : cstr two_strings 8 [97; 99].
Proof.
  split; [|by repeat constructor|by vm_compute].
  intros i b Hi. do 2 (destruct i as [|i]; [injection Hi as <-; by vm_compute|]). done.
Qed.

Lemma strcmp_spec_witness : strcmp 0 8 two_strings = Done (-1) ∧ (strcmp 0 8 two_strings = Done 0 ↔ [97; 98] = [97; 99]).
Proof. exact (strcmp_spec two_strings 0 8 [97; 98] [97; 99] two_strings_first two_strings_second). Defined.

Lemma strcat_spec_witness :
  ∃ m', strcat 0 8 two_strings = Done (0, m') ∧ cstr m' 0 [97; 98; 97; 99].
Proof.
  destruct (strcat_spec two_strings 0 8 [97; 98] [97; 99]) as (m' & E & Hc & _).
  - exact two_strings_first.
  - exact two_strings_second.
  - intros i Hi. assert (i = 0 ∨ i = 1 ∨ i = 2) as [->|[->| ->]] by (cbn in Hi; lia); by eexists.
  - left. done.
  - exists m'. exact (conj E Hc).
Defined.

(** *** Tokens *)
Lemma strtok_delim_ok d start last m :
  strtok_delim (d, start, last, m) =
  (c ← char_at m d;
   if c =? 0 then Done (inr (None, start, last, m)) else
   l ← char_at m last;
   if l =? c then
     m ← put last 0 m;
     if start =? last then Done (inl (d, last + 1, last + 1, m))
     else Done (inr (Some start, start, last + 1, m))
   else Done (inl (d + 1, start, last, m))).
Proof. done. Qed.

(** A string of one delimiter: behind it the outer loop steps over the terminator and
    reads on. *)
Theorem strtok_overrun m s delim c last :
  s ≠ 0 → cstr m s [c] → cstr m delim [c] → (s + 1 < delim ∨ delim + 1 < s) →
  m !! (s + 2) = None → strtok s delim last m = Fault.
Proof.
  intros Hs0 Hs Hd Hsep Hend. unfold strtok. rewrite (proj2 (Z.eqb_neq s 0) Hs0). cbn [andb negb].
  pose proof (cstr_size _ _ _ Hs) as Hf. cbn in Hf.
  pose proof Hs as (Hs1 & Hsc & Hc & Hs')%cstr_cons. pose proof Hd as (Hd1 & Hdc & _ & Hd')%cstr_cons.
  apply cstr_nil in Hs', Hd'. pose proof (s8_nonzero c Hc) as Hn.
  assert (Hcell : is_Some (m !! s)) by (unfold byte_at in Hs1; destruct (m !! s); [by eexists|done]).
  assert (Hfr : ∀ a, a ≠ s → char_at (<[s := u8 0]> m) a = char_at m a).
  { intros a Ha. unfold char_at, byte_at. by rewrite lookup_insert_ne by done. }
  assert (Hin : ∀ n, loop (3 + n) strtok_delim (delim, s, s, m) = Done (None, s + 1, s + 1, <[s := u8 0]> m)).
  { intros n. cbn [Nat.add loop]. rewrite strtok_delim_ok.
    rewrite Hdc, bind_done, (proj2 (Z.eqb_neq _ _) Hn), Hsc, bind_done, Z.eqb_refl, put_ok, bind_done by done.
    rewrite Z.eqb_refl, bind_done, strtok_delim_ok, (Hfr delim), Hdc, bind_done, (proj2 (Z.eqb_neq _ _) Hn) by lia.
    rewrite (Hfr (s + 1)), Hs', bind_done, (proj2 (Z.eqb_neq 0 _)), bind_done by (done || lia).
    by rewrite strtok_delim_ok, (Hfr (delim + 1)), Hd', bind_done by lia. }
  unfold scan_fuel. destruct (size m) as [|[|n]] eqn:Esz; [lia|lia|]. cbn [loop].
  rewrite Hsc, bind_done, (proj2 (Z.eqb_neq _ _) Hn), Esz.
  replace (S (S (S n)) * S (S (S n)))%nat with (3 + (6 + n * n + 5 * n + n))%nat by lia.
  rewrite Hin, !bind_done. replace (s + 1 + 1) with (s + 2) by lia.
  assert (Hf2 : char_at m (s + 2) = Fault) by (unfold char_at, byte_at; by rewrite Hend).
  by rewrite (Hfr (s + 2)), Hf2 by lia.
Qed.
