(* ===== verification/Interrupts.v ===== *)
(** * Interrupts (src/src/io/interrupts.c, idt.c, src/src/devices/apic/apic.c)

    The dispatch of an interrupt through the table of handlers, the bookkeeping of the
    end-of-interrupt signal, and what the timer interrupt does after the tick: wake the
    sleepers or preempt the running task.  The interrupt descriptor table is a list of
    gates.

    Handlers of devices, of system calls and those hooked by drivers are a parameter
    ([device]); the address of [wakeup_handler], which [init_sline] hands to the timer, is
    another.  The two serial handlers read a port and print. *)
From Stdlib Require Import String.
From stdpp Require Import gmap.
From S2P Require Import Prelude Concurrency PageService Pit Heap Scheduler Sleep.
#[local] Open Scope string_scope.
#[local] Open Scope Z_scope.

Definition DYNAMIC_HANDLER : Z := 0x90.
Definition PCIA_IRQ : Z := 0x2b.
Definition SR1_IRQ : Z := 0x23.
Definition SR2_IRQ : Z := 0x24.
Definition IDT_TA_InterruptGate : Z := 0x8E.
Definition IS_EXCEPTION (n : Z) : bool := n <? 32.

(** ** Gates *)
Record idtdescentry := Gate {
  offset0 : Z; selector : Z; ist : Z; type_attr : Z; offset1 : Z; offset2 : Z;
}.

Definition set_offset (e : idtdescentry) (offset : Z) : idtdescentry :=
  Gate (u16 (Z.land offset 0xffff)) (selector e) (ist e) (type_attr e)
       (u16 (Z.shiftr (Z.land offset 0xffff0000) 16))
       (u32 (Z.shiftr (Z.land offset 0xffffffff00000000) 32)).

Definition get_offset (e : idtdescentry) : Z :=
  Z.lor (Z.lor (offset0 e) (u64 (Z.shiftl (offset1 e) 16))) (u64 (Z.shiftl (offset2 e) 32)).

Definition set_idt_gate (handler entry_offset type_attr ist selector : Z) (idt : list idtdescentry) :
    outcome (list idtdescentry) :=
  e ← known (idt !! Z.to_nat entry_offset);
  let e := set_offset e handler in
  Done (<[Z.to_nat entry_offset := Gate (offset0 e) selector ist type_attr (offset1 e) (offset2 e)]> idt).

(** ** The state *)
Inductive irq_handler :=
| NoHandler
| Exception        (** [interrupt_exception_handler] *)
| DoubleFault | GPFault | PageFault
| PciInt | PitInt | Serial1Int | Serial2Int | SyscallInt
| Hooked (handler : Z).

(** Which of its two names the [tty] of a task points to. *)
Inductive tty_name := regular_tty | io_tty.

Section irqs.
Context {P : Type} `{PageService P}.

Record irqs := Irqs {
  dynamic_interrupt_handlers : list irq_handler;
  dynamic_interrupt : Z;
  interrupts_ready : Z;
  task_tty : gmap Z tty_name;
  lapic_eoi : list Z;             (** the processors whose EOI register was written *)
  sl : sline P;
}.
Implicit Types q : irqs.

Definition with_dynamic v q := Irqs (dynamic_interrupt_handlers q) v (interrupts_ready q) (task_tty q) (lapic_eoi q) (sl q).
Definition with_table t q := Irqs t (dynamic_interrupt q) (interrupts_ready q) (task_tty q) (lapic_eoi q) (sl q).
Definition with_irq_ready v q := Irqs (dynamic_interrupt_handlers q) (dynamic_interrupt q) v (task_tty q) (lapic_eoi q) (sl q).
Definition with_tty m q := Irqs (dynamic_interrupt_handlers q) (dynamic_interrupt q) (interrupts_ready q) m (lapic_eoi q) (sl q).
Definition with_lapic l q := Irqs (dynamic_interrupt_handlers q) (dynamic_interrupt q) (interrupts_ready q) (task_tty q) l (sl q).
Definition with_sl x q := Irqs (dynamic_interrupt_handlers q) (dynamic_interrupt q) (interrupts_ready q) (task_tty q) (lapic_eoi q) x.
Definition on_sched (x : sched P) q := with_sl (with_sch x (sl q)) q.

(** ** End of interrupt *)
Definition notify_eoi_required (n : Z) q : outcome irqs :=
  let s := sch (sl q) in
  if negb (apic_eoi_required s =? 0) then Panic "EOI already requested" else
  Done (on_sched (with_eoi 1 n s) q).

Definition local_apic_eoi (cpu_id n : Z) q : outcome irqs :=
  let s := sch (sl q) in
  if apic_eoi_required s =? 0 then Panic "No EOI was requested" else
  if negb (n =? apic_last_interrupt s) then Panic "Invalid EOI request" else
  Done (with_lapic (lapic_eoi q ++ [cpu_id])%list (on_sched (with_eoi 0 (apic_last_interrupt s) s) q)).

(** ** Handlers *)
Context (device : irq_handler → Z → irqs → outcome irqs) (wakeup_address : Z).

Definition run_handler (h : irq_handler) (cpu_id : Z) q : outcome irqs :=
  match h with
  | NoHandler => Panic "No handler for interrupt !"
  | Exception => Panic "Exception"
  | DoubleFault => Panic "Double fault"
  | GPFault => Panic "General protection fault"
  | PageFault => Panic "Page fault"
  | PitInt => Done (on_sched (with_timer (tick (timer (sch (sl q)))) (sch (sl q))) q)
  | Serial1Int | Serial2Int => Done q
  | PciInt | SyscallInt | Hooked _ => device h cpu_id q
  end.

(** [wakeup] calls the address it was given. *)
Definition call_wakeup q : outcome irqs :=
  match wakeup (timer (sch (sl q))) with
  | None => Done q
  | Some a => if a =? wakeup_address then s ← wakeup_handler (sl q); Done (with_sl s q) else Fault
  end.

Definition set_task_tty (t : Z) (v : tty_name) q : outcome irqs :=
  if t =? 0 then Done q else
  _ ← known (task_tty q !! t); Done (with_tty (<[t := v]> (task_tty q)) q).

(** What follows the handler of the timer interrupt. *)
Definition pit_service (cpu_id n : Z) q : outcome irqs :=
  let p := timer (sch (sl q)) in
  if requires_wakeup p then q ← call_wakeup q; local_apic_eoi cpu_id n q
  else if requires_preemption p then
    q ← local_apic_eoi cpu_id n q;
    s ← yield (sch (sl q));
    Done (on_sched s q)
  else local_apic_eoi cpu_id n q.

Definition global_interrupt_handler (n cpu_id : Z) q : outcome irqs :=
  q ← (if negb (IS_EXCEPTION n) then notify_eoi_required n q else Done q);
  handler ← known (dynamic_interrupt_handlers q !! Z.to_nat n);
  '(handler, q) ←
    (if n =? DYNAMIC_HANDLER then
       if negb (dynamic_interrupt q =? 0) && negb (dynamic_interrupt q =? DYNAMIC_HANDLER) then
         h ← (if dynamic_interrupt q <? 0 then Fault
              else known (dynamic_interrupt_handlers q !! Z.to_nat (dynamic_interrupt q)));
         Done (h, with_dynamic 0 q)
       else Panic "Invalid dynamic interrupt"
     else Done (handler, q));
  let current_task := get_current_task (sch (sl q)) in
  q ← set_task_tty current_task io_tty q;
  q ← run_handler handler cpu_id q;
  q ← set_task_tty current_task regular_tty q;
  if IS_EXCEPTION n then Done q else
  if n =? PIT_IRQ then pit_service cpu_id n q else local_apic_eoi cpu_id n q.

(** ** The table of handlers *)
Definition hook_interrupt (n handler : Z) q : outcome irqs :=
  if interrupts_ready q =? 0 then Panic "Interrupts not ready" else
  Done (with_table (<[Z.to_nat n := Hooked handler]> (dynamic_interrupt_handlers q)) q).

Definition unhook_interrupt (n : Z) q : outcome irqs :=
  if interrupts_ready q =? 0 then Panic "Interrupts not ready" else
  Done (with_table (<[Z.to_nat n := Exception]> (dynamic_interrupt_handlers q)) q).

(** The end of [init_interrupts]: the handlers of the kernel. *)
Definition init_handlers q : irqs :=
  let t := (replicate 32 Exception ++ drop 32 (dynamic_interrupt_handlers q))%list in
  let t := <[0x8%nat := DoubleFault]> t in
  let t := <[0xD%nat := GPFault]> t in
  let t := <[0xE%nat := PageFault]> t in
  let t := <[Z.to_nat PCIA_IRQ := PciInt]> t in
  let t := <[Z.to_nat PIT_IRQ := PitInt]> t in
  let t := <[Z.to_nat SR2_IRQ := Serial2Int]> t in
  let t := <[Z.to_nat SR1_IRQ := Serial1Int]> t in
  let t := <[0x80%nat := SyscallInt]> t in
  with_irq_ready 1 (with_table t q).

(** [int $0x90] enters the dispatcher on the processor [cpu_id]. *)
Definition raise_interrupt (n cpu_id : Z) q : outcome irqs :=
  if interrupts_ready q =? 0 then Panic "Interrupts not ready" else
  global_interrupt_handler DYNAMIC_HANDLER cpu_id (with_dynamic n q).
End irqs.
Arguments irqs P : clear implicits.
