(* ===== verification/InterruptsSpec.v ===== *)
(** * What the timer interrupt guarantees *)
From Stdlib Require Import String.
From stdpp Require Import gmap.
From S2P Require Import Prelude Dll Concurrency PageService Pit Paging Alloc Heap KernelHeap Scheduler SchedulerSpec TaskSpec Sleep SleepSpec Interrupts.
#[local] Open Scope string_scope.
#[local] Open Scope list_scope.
#[local] Open Scope Z_scope.

(** ** Gates *)
Lemma gate_offset e x : 0 ≤ x < 2 ^ 64 → get_offset (set_offset e x) = x.
Proof.
  intros Hx. unfold get_offset, set_offset. cbn [offset0 offset1 offset2].
  assert (E0 : u16 (Z.land x 0xffff) = x mod 2 ^ 16).
  { change 0xffff with (Z.ones 16). rewrite Z.land_ones by lia. apply u16_small, Z.mod_pos_bound. lia. }
  assert (E1 : u16 (Z.shiftr (Z.land x 0xffff0000) 16) = x / 2 ^ 16 mod 2 ^ 16).
  { change 0xffff0000 with (Z.shiftl (Z.ones 16) 16). rewrite Z.shiftr_land, Z.shiftr_shiftl_l by lia.
    rewrite Z.shiftl_0_r, Z.land_ones, Z.shiftr_div_pow2 by lia. apply u16_small, Z.mod_pos_bound. lia. }
  assert (E2 : u32 (Z.shiftr (Z.land x 0xffffffff00000000) 32) = x / 2 ^ 32).
  { change 0xffffffff00000000 with (Z.shiftl (Z.ones 32) 32). rewrite Z.shiftr_land, Z.shiftr_shiftl_l by lia.
    rewrite Z.shiftl_0_r, Z.land_ones, Z.shiftr_div_pow2 by lia.
    rewrite (Z.mod_small (x / 2 ^ 32)) by dlia. apply u32_small. dlia. }
  rewrite E0, E1, E2. change (2 ^ 32) with (2 ^ 16 * 2 ^ 16) at 1. rewrite <- Z.div_div by lia.
  set (y := x / 2 ^ 16). assert (Hy : 0 ≤ y < 2 ^ 48) by (unfold y; dlia).
  pose proof (Z.mod_pos_bound x (2 ^ 16) ltac:(lia)). pose proof (Z.mod_pos_bound y (2 ^ 16) ltac:(lia)).
  pose proof (Z.div_mod x (2 ^ 16) ltac:(lia)) as Ex. pose proof (Z.div_mod y (2 ^ 16) ltac:(lia)) as Ey. fold y in Ex.
  assert (0 ≤ y / 2 ^ 16 < 2 ^ 32) by (split; [apply Z.div_pos; lia|apply Z.div_lt_upper_bound; lia]).
  rewrite !Z.shiftl_mul_pow2, !u64_small by lia. rewrite <- !Z.shiftl_mul_pow2 by lia.
  rewrite (lor_add (x mod 2 ^ 16)), lor_add by lia. lia.
Qed.

Section spec.
Context {P : Type} `{PageServiceOk P}.
Implicit Types (s : sched P) (R : list (Z * task)).

(** ** The ring of tasks under the updates of a switch *)
Lemma ring_lookup s R a t : ring s R → (a, t) ∈ R → ∃ n p, tasks s !! a = Some (with_links n p t).
Proof.
  intros (l1 & c & tc & l2 & Hl & _ & ->) Hin.
  assert (Hin' : (a, t) ∈ l1 ++ (c, tc) :: l2) by set_solver.
  apply list_elem_of_split in Hin' as (k1 & k2 & E). rewrite E in Hl.
  destruct (dseg_lookup _ _ _ _ _ _ _ (tl_nodes _ _ Hl)) as [_ Ea]. eauto.
Qed.

Lemma ring_upd s R a f :
  ring s R → a ∈ R.*1 → link_free f →
  ∃ x, tasks s !! a = Some x ∧ upd_task a f s = Done (with_tasks (<[a := f x]> (tasks s)) s) ∧
    ring (with_tasks (<[a := f x]> (tasks s)) s) (upd_at a f R).
Proof.
  intros (l1 & c & tc & l2 & Hl & Hc & ->) Ha Hf.
  destruct (upd_task_list s _ a f Hl) as (m & x & Ex & -> & Hu & Hl'); [|done|].
  { rewrite !fmap_app in *. set_solver. }
  exists x. split_and!; [done|done|]. rewrite upd_at_app in Hl'.
  change ((c, tc) :: l2) with ([(c, tc)] ++ l2) in Hl'. rewrite upd_at_app in Hl'.
  assert (∃ t, upd_at a f [(c, tc)] = [(c, t)]) as [t Et] by (unfold upd_at; cbn; case_match; eauto).
  rewrite Et in Hl'. exists (upd_at a f l1), c, t, (upd_at a f l2). split_and!; [done|done|].
  by rewrite !upd_at_app, Et.
Qed.

Lemma upd_at_elem a f R b t : (b, t) ∈ upd_at a f R → ∃ u, (b, u) ∈ R ∧ (t = u ∨ t = f u).
Proof.
  unfold upd_at. intros ([c u] & E & Hin)%list_elem_of_fmap. exists u. cbn in E.
  destruct (c =? a); simplify_eq; auto.
Qed.

(** What no switch and no wakeup changes of a task. *)
Definition alike (t u : task) : Prop :=
  static t = static u ∧ signal_queue t = signal_queue u ∧ (state u = TASK_IDLE → state t = TASK_IDLE).

Definition all_alike R' R : Prop := R'.*1 ≡ₚ R.*1 ∧ ∀ a t, (a, t) ∈ R' → ∃ u, (a, u) ∈ R ∧ alike t u.

Lemma alike_trans t u v : alike t u → alike u v → alike t v.
Proof. unfold alike. intros (? & ? & ?) (? & ? & ?). split_and!; [congruence..|auto]. Qed.

Lemma all_alike_refl R : all_alike R R.
Proof. split; [done|]. intros a t Hin. exists t. by split. Qed.

Lemma all_alike_trans R1 R2 R3 : all_alike R1 R2 → all_alike R2 R3 → all_alike R1 R3.
Proof.
  intros [E1 H1] [E2 H2]. split; [by rewrite E1|]. intros a t Hin.
  destruct (H1 _ _ Hin) as (u & Hu & Htu). destruct (H2 _ _ Hu) as (v & Hv & Huv).
  exists v. split; [done|]. by eapply alike_trans.
Qed.

Lemma upd_at_alike a f R : (∀ t, alike (f t) t) → all_alike (upd_at a f R) R.
Proof.
  intros Hf. split; [by rewrite upd_at_fst|]. intros b t Hin.
  destruct (upd_at_elem _ _ _ _ _ Hin) as (u & Hu & [-> | ->]); exists u; split; [done|done|done|apply Hf].
Qed.

Lemma shift_alike v w t : v ≠ TASK_IDLE → alike (shift v w t) t.
Proof.
  intros Hv. unfold shift. destruct (Z.eqb_spec (state t) v) as [E|E]; [|done].
  split_and!; [done|done|]. intros Hi. congruence.
Qed.

Lemma handover_alike c n R : all_alike (handover c n R) R.
Proof.
  unfold handover. eapply all_alike_trans; apply upd_at_alike; intros t; by apply shift_alike.
Qed.

Lemma ring_perm_alike R R' : R' ≡ₚ R → all_alike R' R.
Proof.
  intros E. split; [by rewrite E|]. intros a t Hin. exists t. split; [by rewrite <- E|done].
Qed.

(** The tasks are in a list with the idle task at its head, only the current one is
    marked as running, none has a waiting signal and their processors are set up. *)
Record sched_ok s R : Prop := {
  so_ring : ring s R;
  so_exclusive : exclusive s R;
  so_idle : ∃ t, (task_head s, t) ∈ R ∧ state t = TASK_IDLE;
  so_signals : ∀ a t, (a, t) ∈ R → signal_queue t = 0;
  so_tss : ∀ a t, (a, t) ∈ R → is_Some (tss_rsp s !! processor (static t));
}.

Lemma ring_ext s s' R :
  tasks s' = tasks s → task_head s' = task_head s → current_task s' = current_task s → ring s R → ring s' R.
Proof.
  intros E1 E2 E3 (l1 & c & tc & l2 & [] & Hc & ->). exists l1, c, tc, l2.
  split_and!; [split; [congruence|by rewrite E1|done]|congruence|done].
Qed.

(** The rest of the invariant follows a change of the tasks that keeps them alike. *)
Lemma sched_ok_alike s s' R R' :
  sched_ok s R → ring s' R' → exclusive s' R' → all_alike R' R → task_head s' = task_head s →
  (∀ c, is_Some (tss_rsp s !! c) → is_Some (tss_rsp s' !! c)) → sched_ok s' R'.
Proof.
  intros [Hr He (ti & Hi & Hidle) Hq Ht] Hr' He' [Ep Ha] Eh Htss. split; [done|done| | |].
  - rewrite Eh. assert (Hin : task_head s ∈ R'.*1) by (rewrite Ep; by apply (list_elem_of_fmap_2 fst) in Hi).
    apply list_elem_of_fmap in Hin as ([h t] & E & Hin). cbn in E. subst h. exists t. split; [done|].
    destruct (Ha _ _ Hin) as (u & Hu & (_ & _ & Himp)). apply Himp.
    assert (u = ti) as ->; [|done]. pose proof (ring_nodup _ _ Hr) as Hnd.
    apply list_elem_of_lookup_1 in Hu as [i Ei], Hi as [j Ej].
    assert (i = j) as ->; [|congruence]. eapply (NoDup_lookup R.*1); [done| |]; rewrite list_lookup_fmap, ?Ei, ?Ej; done.
  - intros a t Hin. destruct (Ha _ _ Hin) as (u & Hu & (_ & -> & _)). by eapply Hq.
  - intros a t Hin. destruct (Ha _ _ Hin) as (u & Hu & (-> & _)). by eapply Htss, Ht.
Qed.

(** ** A switch *)
Definition next_task s R : Z := if first_runnable R =? 0 then task_head s else first_runnable R.

Lemma schedule_runs s R :
  sched_ok s R →
  ∃ m R', schedule s = Done (current_task s, with_current (next_task s R) (with_tasks m s)) ∧
    ring (with_current (next_task s R) (with_tasks m s)) R' ∧
    exclusive (with_current (next_task s R) (with_tasks m s)) R' ∧ all_alike R' R.
Proof.
  intros [Hr Hex (ti & Hti & Hidle) _ _]. unfold next_task.
  destruct (first_runnable_split R) as [Hn|(X & a & t & Y & -> & HX & Ht & Ef)].
  - assert (first_runnable R = 0) as -> by (rewrite <- (app_nil_r R); by rewrite first_runnable_app).
    cbn [Z.eqb]. destruct (schedule_idle s R Hr Hn) as (h & th & Eh & -> & Hi).
    destruct (ring_lookup _ _ _ _ Hr Hti) as (n & p & E). rewrite Eh in E. injection E as ->.
    cbn [state with_links] in Hi. rewrite Hidle in Hi. cbn [Z.eqb] in Hi.
    destruct Hi as (m & X & u & Y & -> & Hu & Es & Hr'). eexists m, _. split_and!; [exact Es|exact Hr'| |].
    + eapply handover_exclusive; [exact Hex|set_solver].
    + eapply all_alike_trans; [apply handover_alike|]. apply ring_perm_alike.
      by rewrite (Permutation_app_comm Y), <- app_assoc.
  - rewrite Ef. rewrite (proj2 (Z.eqb_neq a 0)) by (by eapply ring_first_nonzero).
    destruct (schedule_next _ _ _ _ _ Hr HX Ht) as (m & Es & Hr'). eexists m, _. split_and!; [exact Es|exact Hr'| |].
    + eapply handover_exclusive; [exact Hex|set_solver].
    + eapply all_alike_trans; [apply handover_alike|]. apply ring_perm_alike.
      by rewrite (Permutation_app_comm Y), <- app_assoc.
Qed.

Lemma current_in_ring s R : ring s R → current_task s ∈ R.*1.
Proof. intros Hr. destruct (ring_current _ _ Hr) as (R' & t & ->). rewrite fmap_app. set_solver. Qed.

(** An update of one task that changes neither its links nor its state. *)
Lemma sched_ok_upd s R a f :
  sched_ok s R → a ∈ R.*1 → link_free f → (∀ t, alike (f t) t) → (∀ t, state (f t) = state t) →
  (∀ t, runnable (f t) = runnable t) →
  ∃ m R', upd_task a f s = Done (with_tasks m s) ∧ sched_ok (with_tasks m s) R' ∧ all_alike R' R ∧
    next_task (with_tasks m s) R' = next_task s R.
Proof.
  intros Hok Ha Hf Hal Hst Hrun. destruct (ring_upd s R a f (so_ring _ _ Hok) Ha Hf) as (x & Ex & Hu & Hr).
  eexists _, (upd_at a f R). split; [exact Hu|]. assert (Hall := upd_at_alike a f R Hal). split_and!; [|done|].
  - eapply sched_ok_alike; [exact Hok|exact Hr| |exact Hall|done|done].
    intros b t Hin Hs. destruct (upd_at_elem _ _ _ _ _ Hin) as (u & Hu' & Htu).
    apply (so_exclusive _ _ Hok b u Hu'). destruct Htu as [-> | ->]; [done|]. by rewrite <- Hst.
  - unfold next_task. cbn [task_head with_tasks].
    assert (first_runnable (upd_at a f R) = first_runnable R) as ->; [|done].
    clear -Hrun. induction R as [|[b t] R IH]; [done|].
    change (upd_at a f ((b, t) :: R)) with ((if b =? a then (b, f t) else (b, t)) :: upd_at a f R).
    destruct (b =? a); cbn [first_runnable]; by rewrite ?Hrun, IH.
Qed.

(** States that differ in neither the tasks nor where they are. *)
Lemma sched_ok_ext s s' R :
  tasks s' = tasks s → task_head s' = task_head s → current_task s' = current_task s →
  (∀ c, is_Some (tss_rsp s !! c) → is_Some (tss_rsp s' !! c)) → sched_ok s R → sched_ok s' R.
Proof.
  intros E1 E2 E3 E4 Hok. eapply (sched_ok_alike s s' R R); [done| | |apply all_alike_refl|done|done].
  - by apply (ring_ext s), (so_ring _ _ Hok).
  - intros a t Hin Ht. rewrite E3. by eapply (so_exclusive _ _ Hok).
Qed.

Lemma load_task_runs s R :
  sched_ok s R →
  ∃ u k m, load_task s = Done (with_tss m (with_gs u k s)) ∧
    ∀ c, is_Some (tss_rsp s !! c) → is_Some (m !! c).
Proof.
  intros Hok. destruct (ring_current _ _ (so_ring _ _ Hok)) as (R' & t & ER).
  assert (Hin : (current_task s, t) ∈ R) by (rewrite ER; set_solver).
  destruct (ring_lookup _ _ _ _ (so_ring _ _ Hok) Hin) as (n & p & Et).
  destruct (so_tss _ _ Hok _ _ Hin) as [rsp Er]. unfold load_task.
  rewrite (get_task_ok _ _ _ Et), bind_done. cbn [static with_links]. rewrite Er. cbn [known]. rewrite bind_done.
  unfold tss_set_stack. cbn [tss_rsp with_gs].
  destruct (privilege (static t) =? KERNEL_TASK); rewrite Er; cbn [known]; rewrite !bind_done;
    cbn [tss_rsp with_tss]; rewrite lookup_insert_eq; cbn [known]; rewrite bind_done;
    eexists _, _, _; (split; [done|]); intros c Hc; rewrite !lookup_insert_is_Some'; auto.
Qed.

(** [yield] from a state without a pending end of interrupt always returns. *)
Lemma yield_runs s R :
  sched_ok s R → eoi_pending s = 0 →
  ∃ s' R', yield s = Done s' ∧ sched_ok s' R' ∧ all_alike R' R ∧ timer s' = timer s ∧
    task_head s' = task_head s ∧ apic_eoi_required s' = apic_eoi_required s ∧
    (∃ c, kern s' = kern (with_cpu c s)) ∧
    current_task s' =
      (if negb (irq_disable_counter s =? 0) || (scheduler_ready s =? 0) then current_task s else next_task s R).
Proof.
  intros Hok He. unfold yield. cbn [irq_disable_counter scheduler_ready with_cpu].
  destruct (negb (irq_disable_counter s =? 0) || (scheduler_ready s =? 0)).
  { eexists _, R. split; [done|]. split_and!; try done; [|apply all_alike_refl|by eexists].
    by apply (sched_ok_ext s). }
  set (s0 := with_cpu _ s). assert (Hok0 : sched_ok s0 R) by (by apply (sched_ok_ext s)).
  change (eoi_pending s0) with (eoi_pending s). rewrite He. cbn [Z.eqb panic_unless]. rewrite bind_done.
  change (timer s0) with (timer s). cbv zeta.
  set (f := λ t, if negb (last_scheduled t =? 0) then _ else t). set (now := get_ticks_since_boot (timer s)) in *.
  destruct (sched_ok_upd s0 R (current_task s) f Hok0) as (m1 & R1 & E1 & Hok1 & Ha1 & Hn1).
  { by apply current_in_ring, (so_ring _ _ Hok). }
  { intros n p t. unfold f. cbn. by destruct (last_scheduled t =? 0). }
  { intros t. unfold f. by destruct (last_scheduled t =? 0). }
  { intros t. unfold f. by destruct (last_scheduled t =? 0). }
  { intros t. unfold f. by destruct (last_scheduled t =? 0). }
  change (current_task s0) with (current_task s). rewrite E1, bind_done. set (s1 := with_tasks m1 s0) in *.
  destruct (schedule_runs s1 R1 Hok1) as (m2 & R2 & E2 & Hr2 & He2 & Ha2). rewrite E2, bind_done.
  set (s2 := with_current _ _) in *.
  assert (Hok2 : sched_ok s2 R2) by (by eapply (sched_ok_alike s1)).
  destruct (sched_ok_upd s2 R2 (current_task s2) (λ t, with_times (cpu_time t) now t) Hok2)
    as (m3 & R3 & E3 & Hok3 & Ha3 & _); [by apply current_in_ring|done..|].
  rewrite E3, bind_done. set (s3 := with_tasks m3 s2) in *.
  assert (Eps : process_signals s3 = Done s3).
  { destruct (ring_current _ _ (so_ring _ _ Hok3)) as (R' & t & ER).
    assert (Hin : (current_task s3, t) ∈ R3) by (rewrite ER; set_solver).
    destruct (ring_lookup _ _ _ _ (so_ring _ _ Hok3) Hin) as (n & p & Et). unfold process_signals.
    rewrite (get_task_ok _ _ _ Et), bind_done. cbn [signal_queue with_links].
    by rewrite (so_signals _ _ Hok3 _ _ Hin). }
  rewrite Eps, bind_done. destruct (load_task_runs s3 R3 Hok3) as (u & k & m4 & E4 & Htss). rewrite E4, bind_done.
  assert (Hall : all_alike R3 R) by (eapply all_alike_trans; [exact Ha3|]; by eapply all_alike_trans).
  assert (Hget : ∀ a, a ∈ R.*1 → ∃ t, get_task_at (with_tss m4 (with_gs u k s3)) a = Done t).
  { intros a Ha. destruct Hall as [Ep _]. rewrite <- Ep in Ha. apply list_elem_of_fmap in Ha as ([b t] & -> & Hin).
    destruct (ring_lookup _ _ _ _ (so_ring _ _ Hok3) Hin) as (n & p & Et). eexists. by apply get_task_ok. }
  destruct (Hget (current_task s)) as [tp Etp]; [by apply current_in_ring, (so_ring _ _ Hok)|].
  destruct (Hget (current_task s3)) as [tn Etn].
  { destruct Hall as [Ep _]. rewrite <- Ep. by apply current_in_ring, (so_ring _ _ Hok3). }
  change (current_task s1) with (current_task s). rewrite Etp, bind_done.
  change (current_task (with_tss m4 (with_gs u k s3))) with (current_task s3). rewrite Etn, bind_done.
  eexists _, R3. split; [done|]. split_and!; try done.
  - by apply (sched_ok_ext s3).
  - by eexists.
Qed.

(** ** Waking up *)
Lemma wake_task_ok s R t :
  sched_ok s R → t ∈ R.*1 →
  ∃ R', sched_ok (with_tasks (wake_task t (tasks s)) s) R' ∧ all_alike R' R.
Proof.
  intros Hok Ht. set (f := shift TASK_UNINTERRUPTIBLE TASK_READY).
  destruct (ring_upd s R t f (so_ring _ _ Hok) Ht (shift_link_free _ _)) as (x & Ex & _ & Hr).
  assert (wake_task t (tasks s) = <[t := f x]> (tasks s)) as ->.
  { apply map_eq. intros i. unfold wake_task. destruct (decide (i = t)) as [->|].
    - by rewrite lookup_alter_eq, lookup_insert_eq, Ex.
    - by rewrite lookup_alter_ne, lookup_insert_ne. }
  exists (upd_at t f R). assert (Hall : all_alike (upd_at t f R) R).
  { apply upd_at_alike. intros u. by apply shift_alike. }
  split; [|done]. eapply sched_ok_alike; [exact Hok|exact Hr| |exact Hall|done|done].
  intros b y Hin Hs. destruct (upd_at_elem _ _ _ _ _ Hin) as (u & Hu & Hyu).
  apply (so_exclusive _ _ Hok b u Hu). destruct Hyu as [-> | ->]; [done|].
  revert Hs. unfold f, shift. by destruct (state u =? TASK_UNINTERRUPTIBLE).
Qed.

Lemma woken_ok s R p l :
  sched_ok s R → (∀ a e, (a, e) ∈ l → time_wake p e = true → sq_task e ∈ R.*1) →
  ∃ R', sched_ok (with_tasks (woken time_wake p l (tasks s)) s) R' ∧ all_alike R' R.
Proof.
  revert s R. induction l as [|[a e] l IH]; intros s R Hok Hl; cbn [woken].
  - exists R. split; [by apply (sched_ok_ext s)|apply all_alike_refl].
  - destruct (time_wake p e) eqn:Ew.
    + destruct (wake_task_ok s R (sq_task e) Hok) as (R1 & Hok1 & Ha1); [by apply (Hl a); [left|]|].
      destruct (IH _ _ Hok1) as (R2 & Hok2 & Ha2).
      { intros b e' Hb Hw. destruct Ha1 as [-> _]. apply (Hl b); [by right|done]. }
      exists R2. split; [done|]. by eapply all_alike_trans.
    + apply IH; [done|]. intros b e' Hb. apply (Hl b). by right.
Qed.

(** ** The running system *)
Context (device : irq_handler → Z → irqs P → outcome (irqs P)) (wakeup_address : Z).
Implicit Types (q : irqs P) (l : list (Z * sleep_entry)) (F : gset Z).

(** The state between two interrupts: no end of interrupt is owed, the timer has its
    handler and wakes sleepers through [wakeup_handler], the sleep queue and the tasks are
    well formed and the sleepers are tasks of the list. *)
Record system_ok q l F R : Prop := {
  sy_handler : dynamic_interrupt_handlers q !! Z.to_nat PIT_IRQ = Some PitInt;
  sy_eoi : apic_eoi_required (sch (sl q)) = 0;
  sy_lock : mut (sleep_lock (sl q)) = 0;
  sy_sleepers : time_sleepers (sl q) l F;
  sy_known : ∀ a e, (a, e) ∈ l → sq_task e ≠ 0 → sq_task e ∈ R.*1;
  sy_sched : sched_ok (sch (sl q)) R;
  sy_wakeup : wakeup_call (timer (sch (sl q))) = wakeup_address;
  sy_tty : ∀ a, a ∈ R.*1 → is_Some (task_tty q !! a);
}.

(** The sleep queue depends on the heaps and its own nodes only. *)
Lemma time_sleepers_ext x y l F :
  sleep_time_queue_head y = sleep_time_queue_head x → queues y = queues x →
  (∃ c, kern (sch y) = kern (with_cpu c (sch x))) → time_sleepers x l F → time_sleepers y l F.
Proof.
  intros E1 E2 [c E3] []. split; [congruence|by rewrite E2|done| |done].
  destruct sl_blocks as (b & (Hm & Hp & Hi) & E). exists b. split; [|done].
  unfold heap_ready. rewrite E3. done.
Qed.

(** The dispatcher up to the timer's own service. *)
Definition ticked (n : Z) q : irqs P :=
  let s := sch (sl q) in
  with_tty (<[current_task s := regular_tty]> (<[current_task s := io_tty]> (task_tty q)))
    (on_sched (with_timer (tick (timer s)) (with_eoi 1 n s)) q).

Lemma dispatch_timer q l F R cpu_id :
  system_ok q l F R →
  global_interrupt_handler device wakeup_address PIT_IRQ cpu_id q =
  pit_service wakeup_address cpu_id PIT_IRQ (ticked PIT_IRQ q).
Proof.
  intros Hok. destruct (sy_tty _ _ _ _ Hok (current_task (sch (sl q)))) as [v Ev].
  { by apply current_in_ring, (so_ring _ _ (sy_sched _ _ _ _ Hok)). }
  assert (Hc : current_task (sch (sl q)) ≠ 0).
  { destruct (ring_current _ _ (so_ring _ _ (sy_sched _ _ _ _ Hok))) as (R' & t & E).
    pose proof (so_ring _ _ (sy_sched _ _ _ _ Hok)) as Hr. rewrite E in Hr. by eapply ring_first_nonzero. }
  unfold global_interrupt_handler, notify_eoi_required. change (IS_EXCEPTION PIT_IRQ) with false. cbn [negb].
  rewrite (sy_eoi _ _ _ _ Hok). cbn [Z.eqb negb]. rewrite bind_done.
  cbn [dynamic_interrupt_handlers on_sched with_sl]. rewrite (sy_handler _ _ _ _ Hok). cbn [known]. rewrite bind_done.
  change (PIT_IRQ =? DYNAMIC_HANDLER) with false. cbv iota. rewrite bind_done. cbv zeta.
  set (c := current_task (sch (sl q))) in *. set (q1 := on_sched _ q).
  change (get_current_task (sch (sl q1))) with c. unfold set_task_tty. rewrite (proj2 (Z.eqb_neq _ _) Hc).
  change (task_tty q1) with (task_tty q). rewrite Ev. cbn [known]. rewrite !bind_done. cbn [run_handler]. rewrite bind_done.
  change (task_tty (on_sched _ _)) with (<[c := io_tty]> (task_tty q)). rewrite lookup_insert_eq. cbn [known].
  rewrite !bind_done.
  change (PIT_IRQ =? PIT_IRQ) with true. cbv iota. done.
Qed.

Lemma eoi_done cpu_id n q :
  apic_eoi_required (sch (sl q)) = 1 → apic_last_interrupt (sch (sl q)) = n →
  local_apic_eoi cpu_id n q =
  Done (with_lapic (lapic_eoi q ++ [cpu_id]) (on_sched (with_eoi 0 n (sch (sl q))) q)).
Proof. intros E1 <-. unfold local_apic_eoi. rewrite E1, Z.eqb_refl. done. Qed.

(** Putting the invariant back together after the service. *)
Lemma system_ok_after q q' l l' F R R' :
  system_ok q l F R → dynamic_interrupt_handlers q' = dynamic_interrupt_handlers q →
  apic_eoi_required (sch (sl q')) = 0 → mut (sleep_lock (sl q')) = 0 → time_sleepers (sl q') l' F →
  (∀ x, x ∈ l' → x ∈ l) → sched_ok (sch (sl q')) R' → all_alike R' R →
  wakeup_call (timer (sch (sl q'))) = wakeup_address →
  (∀ a, is_Some (task_tty q !! a) → is_Some (task_tty q' !! a)) → system_ok q' l' F R'.
Proof.
  intros [Hh _ _ _ Hk _ _ Ht] E1 E2 E3 Hs Hsub Hok [Ep _] Hw Htty.
  split; [by rewrite E1|done|done|done| |done|done|].
  - intros a e Hin He. rewrite Ep. eapply Hk; [|exact He]. by apply Hsub.
  - intros a. rewrite Ep. intros Ha. by apply Htty, Ht.
Qed.

Lemma ticked_tty q n a : is_Some (task_tty q !! a) → is_Some (task_tty (ticked n q) !! a).
Proof. cbn. rewrite !lookup_insert_is_Some'. auto. Qed.

(** The service of a tick that wakes sleepers. *)
Lemma wakeup_service q l F R cpu_id (p := tick (timer (sch (sl q)))) :
  system_ok q l F R → requires_wakeup p = true →
  ∃ q' R', pit_service wakeup_address cpu_id PIT_IRQ (ticked PIT_IRQ q) = Done q' ∧
    system_ok q' (asleep time_wake p l) F R' ∧ all_alike R' R ∧ timer (sch (sl q')) = p ∧
    lapic_eoi q' = lapic_eoi q ++ [cpu_id] ∧
    tasks (sch (sl q')) = woken time_wake p l (tasks (sch (sl q))) ∧
    current_task (sch (sl q')) = current_task (sch (sl q)).
Proof.
  intros Hok Hw. unfold pit_service. change (timer (sch (sl (ticked PIT_IRQ q)))) with p. rewrite Hw.
  set (x := sl (ticked PIT_IRQ q)).
  assert (Hx : sched_ok (sch x) R) by (by apply (sched_ok_ext (sch (sl q))), (sy_sched _ _ _ _ Hok)).
  assert (Hkn : tasks_known x l).
  { intros a e Hin He. pose proof (sy_known _ _ _ _ Hok _ _ Hin He) as Hin'.
    apply list_elem_of_fmap in Hin' as ([b t] & Eb & Hbt). cbn in Eb. rewrite Eb.
    destruct (ring_lookup _ _ _ _ (so_ring _ _ Hx) Hbt) as (n & pr & ->). by eexists. }
  destruct (wakeup_handler_ok x l F) as (x' & Ex & Hs' & Et & _ & Hm & _ & Hk).
  { apply (sy_lock _ _ _ _ Hok). }
  { done. }
  { eapply time_sleepers_ext; [..|apply (sy_sleepers _ _ _ _ Hok)]; [done|done|].
    exists (kcpu (kern (sch (sl q)))). cbn. by destruct (kern (sch (sl q))). }
  change (timer (sch x)) with p in *. change (tasks (sch x)) with (tasks (sch (sl q))) in Et.
  assert (Ec : call_wakeup wakeup_address (ticked PIT_IRQ q) = Done (with_sl x' (ticked PIT_IRQ q))).
  { unfold call_wakeup. change (timer (sch (sl (ticked PIT_IRQ q)))) with p. unfold requires_wakeup in Hw.
    apply andb_true_iff in Hw as [Hw _]. unfold wakeup. rewrite Hw.
    change (wakeup_call p) with (wakeup_call (timer (sch (sl q)))). rewrite (sy_wakeup _ _ _ _ Hok), Z.eqb_refl.
    fold x. by rewrite Ex. }
  rewrite Ec, bind_done. unfold sch_kept in Hk.
  rewrite eoi_done by (cbn [sl with_sl]; by rewrite Hk).
  destruct (woken_ok (sch x) R p l Hx) as (R' & Hok' & Ha').
  { intros a e Hin Hwk. apply (sy_known _ _ _ _ Hok _ _ Hin). unfold time_wake in Hwk.
    apply andb_true_iff in Hwk as [Hwk _]. by apply negb_true_iff, Z.eqb_neq in Hwk. }
  eexists _, R'. split; [done|]. split_and!; try done; cbn [sch sl with_lapic on_sched with_sl with_sch].
  - eapply (system_ok_after q); [exact Hok|done|done|exact Hm| | | |exact Ha'| |].
    + eapply time_sleepers_ext; [..|exact Hs']; [done|done|]. exists (kcpu (kern (sch x'))). cbn.
      by destruct (kern (sch x')).
    + intros y. unfold asleep. by intros [_ ?]%list_elem_of_filter.
    + apply (sched_ok_ext (with_tasks (woken time_wake p l (tasks (sch x))) (sch x)));
        cbn [sch sl with_lapic on_sched with_sl with_sch tasks task_head current_task tss_rsp with_eoi with_tasks];
        [done|by rewrite Hk|by rewrite Hk|by rewrite Hk|done].
    + cbn [sch sl with_lapic on_sched with_sl with_sch timer with_eoi]. rewrite Hk. apply (sy_wakeup _ _ _ _ Hok).
    + apply (ticked_tty q).
  - cbn [timer with_eoi]. by rewrite Hk.
  - cbn [current_task with_eoi]. by rewrite Hk.
Qed.

(** The state after the end of interrupt was signalled. *)
Definition settled cpu_id q : irqs P :=
  with_lapic (lapic_eoi q ++ [cpu_id]) (on_sched (with_eoi 0 PIT_IRQ (sch (sl (ticked PIT_IRQ q)))) (ticked PIT_IRQ q)).

Lemma settled_ok q l F R cpu_id : system_ok q l F R → system_ok (settled cpu_id q) l F R.
Proof.
  intros Hok. eapply (system_ok_after q); [exact Hok|done|done|apply (sy_lock _ _ _ _ Hok)| |done| |apply all_alike_refl| |].
  - eapply time_sleepers_ext; [..|apply (sy_sleepers _ _ _ _ Hok)]; [done|done|].
    exists (kcpu (kern (sch (sl q)))). cbn. by destruct (kern (sch (sl q))).
  - by apply (sched_ok_ext (sch (sl q))), (sy_sched _ _ _ _ Hok).
  - apply (sy_wakeup _ _ _ _ Hok).
  - apply (ticked_tty q).
Qed.

(** The service of a tick that preempts. *)
Lemma preempt_service q l F R cpu_id (p := tick (timer (sch (sl q)))) :
  system_ok q l F R → requires_wakeup p = false → requires_preemption p = true →
  ∃ q' R', pit_service wakeup_address cpu_id PIT_IRQ (ticked PIT_IRQ q) = Done q' ∧
    system_ok q' l F R' ∧ all_alike R' R ∧ timer (sch (sl q')) = p ∧
    lapic_eoi q' = lapic_eoi q ++ [cpu_id] ∧
    current_task (sch (sl q')) =
      (if negb (irq_disable_counter (sch (sl q)) =? 0) || (scheduler_ready (sch (sl q)) =? 0)
       then current_task (sch (sl q)) else next_task (sch (sl q)) R).
Proof.
  intros Hok Hw Hp. unfold pit_service. change (timer (sch (sl (ticked PIT_IRQ q)))) with p. rewrite Hw, Hp.
  rewrite eoi_done by done. change (with_lapic _ _) with (settled cpu_id q). rewrite bind_done.
  pose proof (settled_ok q l F R cpu_id Hok) as Hok1.
  destruct (yield_runs (sch (sl (settled cpu_id q))) R) as (s' & R' & -> & Hs' & Ha & Et & Eh & Ee & Hk & Ec);
    [apply (sy_sched _ _ _ _ Hok1)|done|]. rewrite bind_done.
  eexists _, R'. split; [done|]. split_and!; try done.
  eapply (system_ok_after q); [exact Hok|done| |apply (sy_lock _ _ _ _ Hok)| |done|exact Hs'|exact Ha| |].
  - cbn [sch sl on_sched with_sl with_sch]. by rewrite Ee.
  - eapply time_sleepers_ext; [..|apply (sy_sleepers _ _ _ _ Hok1)]; done.
  - cbn [sch sl on_sched with_sl with_sch]. rewrite Et. apply (sy_wakeup _ _ _ _ Hok1).
  - apply (ticked_tty q).
Qed.

Lemma timer_interrupt_ok q l F R cpu_id (p := tick (timer (sch (sl q)))) :
  system_ok q l F R →
  ∃ q' l' R', global_interrupt_handler device wakeup_address PIT_IRQ cpu_id q = Done q' ∧
    system_ok q' l' F R' ∧ all_alike R' R ∧ timer (sch (sl q')) = p ∧
    lapic_eoi q' = lapic_eoi q ++ [cpu_id] ∧
    match pit_action p with
    | Wakeup => l' = asleep time_wake p l ∧
        tasks (sch (sl q')) = woken time_wake p l (tasks (sch (sl q))) ∧
        current_task (sch (sl q')) = current_task (sch (sl q))
    | Preempt => l' = l ∧
        current_task (sch (sl q')) =
          (if negb (irq_disable_counter (sch (sl q)) =? 0) || (scheduler_ready (sch (sl q)) =? 0)
           then current_task (sch (sl q)) else next_task (sch (sl q)) R)
    | Nothing => l' = l ∧ tasks (sch (sl q')) = tasks (sch (sl q)) ∧
        current_task (sch (sl q')) = current_task (sch (sl q))
    end.
Proof.
  intros Hok. rewrite (dispatch_timer q l F R cpu_id Hok). unfold pit_action.
  destruct (requires_wakeup p) eqn:Hw; [|destruct (requires_preemption p) eqn:Hp].
  - destruct (wakeup_service q l F R cpu_id Hok Hw) as (q' & R' & E & Hok' & Ha & Et & El & Ets & Ec).
    by exists q', (asleep time_wake p l), R'.
  - destruct (preempt_service q l F R cpu_id Hok Hw Hp) as (q' & R' & E & Hok' & Ha & Et & El & Ec).
    by exists q', l, R'.
  - exists (settled cpu_id q), l, R. split.
    { unfold pit_service. change (timer (sch (sl (ticked PIT_IRQ q)))) with p. rewrite Hw, Hp.
      by rewrite eoi_done. }
    split_and!; [by apply settled_ok|apply all_alike_refl|done..].
Qed.

(** [n] timer interrupts one after the other. *)
Fixpoint timer_interrupts (n : nat) (cpu_id : Z) q : outcome (irqs P) :=
  match n with
  | O => Done q
  | S n => q ← global_interrupt_handler device wakeup_address PIT_IRQ cpu_id q; timer_interrupts n cpu_id q
  end.

(** C9: The system stays well formed over any number of timer interrupts: none of them
    faults, panics or leaves an end of interrupt pending, the list of tasks keeps its
    members, and each ends with one end-of-interrupt signal.  A tick that wakes sleepers
    removes exactly those that are due and makes their tasks ready; a tick that preempts
    hands the processor to the next runnable task, or leaves it alone while the scheduler
    is locked; other ticks change no task. *)
Theorem timer_interrupts_correct q l F R cpu_id n (p := tick (timer (sch (sl q)))) :
  system_ok q l F R →
  (∃ q' l' R', timer_interrupts n cpu_id q = Done q' ∧ system_ok q' l' F R' ∧ all_alike R' R ∧
     timer (sch (sl q')) = Nat.iter n tick (timer (sch (sl q))) ∧
     lapic_eoi q' = lapic_eoi q ++ replicate n cpu_id) ∧
  (∃ q' l' R', timer_interrupts 1 cpu_id q = Done q' ∧ system_ok q' l' F R' ∧
    match pit_action p with
    | Wakeup => l' = asleep time_wake p l ∧
        tasks (sch (sl q')) = woken time_wake p l (tasks (sch (sl q))) ∧
        current_task (sch (sl q')) = current_task (sch (sl q))
    | Preempt => l' = l ∧
        current_task (sch (sl q')) =
          (if negb (irq_disable_counter (sch (sl q)) =? 0) || (scheduler_ready (sch (sl q)) =? 0)
           then current_task (sch (sl q)) else next_task (sch (sl q)) R)
    | Nothing => l' = l ∧ tasks (sch (sl q')) = tasks (sch (sl q)) ∧
        current_task (sch (sl q')) = current_task (sch (sl q))
    end).
Proof.
  intros Hok. split.
  - revert q l R p Hok. induction n as [|n IH]; intros q l R p Hok.
    { exists q, l, R. split_and!; [done|done|apply all_alike_refl|done|by rewrite app_nil_r]. }
    destruct (timer_interrupt_ok q l F R cpu_id Hok) as (q1 & l1 & R1 & E & Hok1 & Ha1 & Et1 & El1 & _).
    destruct (IH q1 l1 R1 Hok1) as (q' & l' & R' & E' & Hok' & Ha' & Et' & El').
    exists q', l', R'. cbn [timer_interrupts]. rewrite E, bind_done. split_and!; [done|done| | |].
    + by eapply all_alike_trans.
    + by rewrite Et', Et1, Nat.iter_succ_r.
    + rewrite El', El1, <- app_assoc. done.
  - destruct (timer_interrupt_ok q l F R cpu_id Hok) as (q' & l' & R' & E & Hok' & _ & _ & _ & Hact).
    exists q', l', R'. cbn [timer_interrupts]. by rewrite E.
Qed.
End spec.

(** ** Handlers run with an end of interrupt pending *)
(** A handler that yields, or raises another interrupt that is not an exception, stops the
    kernel. *)
Theorem nested_interrupt_panics {P} `{PageService P} (q q1 : irqs P) n k :
  32 ≤ n → notify_eoi_required n q = Done q1 →
  irq_disable_counter (sch (sl q)) = 0 → scheduler_ready (sch (sl q)) ≠ 0 →
  yield (sch (sl q1)) = Panic "EOI pending" ∧ notify_eoi_required k q1 = Panic "EOI already requested".
Proof.
  unfold notify_eoi_required. destruct (negb _); [done|]. intros Hn [= <-] Hc Hr. split; [|done].
  unfold yield. cbn [irq_disable_counter scheduler_ready sch sl on_sched with_sl with_sch with_eoi with_cpu].
  rewrite Hc, (proj2 (Z.eqb_neq _ _) Hr). cbn [Z.eqb negb orb].
  unfold eoi_pending. cbn [apic_eoi_required apic_last_interrupt with_cpu with_eoi Z.eqb negb].
  by rewrite (proj2 (Z.eqb_neq n 0)) by lia.
Qed.

(** ** Witnesses *)
(** Three tasks, no sleepers, the handlers of the kernel. *)
Definition irqs0 : irqs mmu :=
  init_handlers (Irqs (replicate 256 NoHandler) (-1) 0
    (list_to_map ((λ a, (a, regular_tty)) <$> [0x1000; 0x2000; 0x3000])) [] sline0).

Lemma irqs0_ok : system_ok 0x1000 irqs0 [] ∅ ring0.
Proof.
  split; try done.
  - apply (sline0_empty sleep_time_queue_head). by intros s ->.
  - intros a e Hin. by apply elem_of_nil in Hin.
  - split.
    + by apply (ring_ext sched0), sched0_ring.
    + apply sched0_exclusive.
    + exists (task0 TASK_IDLE 0 0 0). split; [|done]. right. left.
    + intros a t Hin. unfold ring0 in Hin. rewrite !elem_of_cons, elem_of_nil in Hin. naive_solver.
    + intros a t Hin. unfold ring0 in Hin. rewrite !elem_of_cons, elem_of_nil in Hin.
      destruct Hin as [[= -> ->]|[[= -> ->]|[[= -> ->]|[]]]]; by eexists.
  - intros a Hin. cbn in Hin. rewrite !elem_of_cons, elem_of_nil in Hin.
    destruct Hin as [-> |[-> |[-> |[]]]]; by eexists.
Qed.

Lemma timer_interrupts_correct_witness :
  ∃ q' l' R', timer_interrupts (λ _ _ q, Done q) 0x1000 120 0 irqs0 = Done q' ∧
    system_ok 0x1000 q' l' ∅ R' ∧ lapic_eoi q' = replicate 120 0.
Proof.
  destruct (timer_interrupts_correct (λ _ _ q, Done q) 0x1000 irqs0 [] ∅ ring0 0 120 irqs0_ok)
    as [(q' & l' & R' & E & Hok & _ & _ & El) _].
  exists q', l', R'. split; [exact E|]. split; [exact Hok|exact El].
Defined.
