(* ===== verification/LineDiscipline.v ===== *)
(** * The line discipline of a terminal (src/src/drivers/tty/ld/line_discipline.c)

    Characters typed at a terminal are collected in a ring buffer, with erasing, until a
    carriage return flushes the line; control characters act through a table.  The two
    callbacks work on the terminal that owns the discipline, a state of type [T].  A [char]
    is signed, and C's [%] truncates, so [(0 - 1) % size] is -1. *)
From S2P Require Import Prelude PageService Alloc.
#[local] Open Scope Z_scope.

Definition LINE_DISCIPLINE_MODE_RAW : Z := 0.
Definition LINE_DISCIPLINE_MODE_CANONICAL : Z := 1.
Definition LINE_DISCIPLINE_MODE_ECHO_ON : Z := 0.
Definition LINE_DISCIPLINE_MODE_ECHO_OFF : Z := 1.
Definition LD_NULL : Z := 0.
Definition LD_DEL : Z := 127.
Definition LD_INSERT_SIZE : nat := 4.
Definition LD_OUTPUT_SIZE : nat := 4.

(** Those actions other than [ld_erase] and [ld_cret] at most print. *)
Inductive ld_action :=
| ld_ignore | ld_bell | ld_eof | ld_erase | ld_htab | ld_lfeed | ld_vtab | ld_newpage | ld_cret
| ld_restart_out | ld_stop_out | ld_sigint | ld_sigstop | ld_del.

Record table_entry := Entry {
  te_output : list Z; te_inserti : list Z; te_inserto : list Z; te_action : ld_action;
}.

Definition default_ld_table : list table_entry := [
  Entry [0; 0; 0; 0] [0; 0; 0; 0] [0; 0; 0; 0] ld_ignore;
  Entry [0; 0; 0; 0] [0; 0; 0; 0] [0; 0; 0; 0] ld_ignore;
  Entry [0; 0; 0; 0] [0; 0; 0; 0] [0; 0; 0; 0] ld_ignore;
  Entry [0; 0; 0; 0] [0; 0; 0; 0] [0; 0; 0; 0] ld_sigint;
  Entry [0; 0; 0; 0] [0; 0; 0; 0] [0; 0; 0; 0] ld_eof;
  Entry [0; 0; 0; 0] [0; 0; 0; 0] [0; 0; 0; 0] ld_ignore;
  Entry [0; 0; 0; 0] [0; 0; 0; 0] [0; 0; 0; 0] ld_ignore;
  Entry [0; 0; 0; 0] [0; 0; 0; 0] [0; 0; 0; 0] ld_bell;
  Entry [8; 32; 8; 0] [0; 0; 0; 0] [0; 0; 0; 0] ld_erase;
  Entry [0; 0; 0; 0] [0; 0; 0; 0] [0; 0; 0; 0] ld_htab;
  Entry [10; 0; 0; 0] [0; 0; 0; 0] [13; 10; 0; 0] ld_lfeed;
  Entry [0; 0; 0; 0] [0; 0; 0; 0] [0; 0; 0; 0] ld_vtab;
  Entry [0; 0; 0; 0] [0; 0; 0; 0] [0; 0; 0; 0] ld_newpage;
  Entry [13; 10; 0; 0] [0; 0; 0; 0] [0; 10; 0; 0] ld_cret;
  Entry [0; 0; 0; 0] [0; 0; 0; 0] [0; 0; 0; 0] ld_ignore;
  Entry [0; 0; 0; 0] [0; 0; 0; 0] [0; 0; 0; 0] ld_ignore;
  Entry [0; 0; 0; 0] [0; 0; 0; 0] [0; 0; 0; 0] ld_ignore;
  Entry [0; 0; 0; 0] [0; 0; 0; 0] [0; 0; 0; 0] ld_restart_out;
  Entry [0; 0; 0; 0] [0; 0; 0; 0] [0; 0; 0; 0] ld_ignore;
  Entry [0; 0; 0; 0] [0; 0; 0; 0] [0; 0; 0; 0] ld_stop_out;
  Entry [0; 0; 0; 0] [0; 0; 0; 0] [0; 0; 0; 0] ld_ignore;
  Entry [0; 0; 0; 0] [0; 0; 0; 0] [0; 0; 0; 0] ld_ignore;
  Entry [0; 0; 0; 0] [0; 0; 0; 0] [0; 0; 0; 0] ld_ignore;
  Entry [0; 0; 0; 0] [0; 0; 0; 0] [0; 0; 0; 0] ld_ignore;
  Entry [0; 0; 0; 0] [0; 0; 0; 0] [0; 0; 0; 0] ld_ignore;
  Entry [0; 0; 0; 0] [0; 0; 0; 0] [0; 0; 0; 0] ld_ignore;
  Entry [0; 0; 0; 0] [0; 0; 0; 0] [0; 0; 0; 0] ld_sigstop;
  Entry [0; 0; 0; 0] [0; 0; 0; 0] [0; 0; 0; 0] ld_del].

Record line_discipline := LineDiscipline {
  ld_mode : Z; ld_echo : Z; ld_valid : Z;
  ld_buffer : list Z; ld_size : Z; ld_head : Z; ld_tail : Z; ld_block : Z;
}.

Definition with_tail v ld := LineDiscipline (ld_mode ld) (ld_echo ld) (ld_valid ld) (ld_buffer ld) (ld_size ld) (ld_head ld) v (ld_block ld).
Definition with_ld_head v ld := LineDiscipline (ld_mode ld) (ld_echo ld) (ld_valid ld) (ld_buffer ld) (ld_size ld) v (ld_tail ld) (ld_block ld).
Definition with_ld_buffer b ld := LineDiscipline (ld_mode ld) (ld_echo ld) (ld_valid ld) b (ld_size ld) (ld_head ld) (ld_tail ld) (ld_block ld).

(** [buffer] is the content of the block for the characters, which is not cleared. *)
Definition ld_fields (mode echo buffer_size block : Z) (buffer : list Z) : line_discipline :=
  LineDiscipline
    (if (mode =? LINE_DISCIPLINE_MODE_RAW) || (mode =? LINE_DISCIPLINE_MODE_CANONICAL) then mode
     else LINE_DISCIPLINE_MODE_CANONICAL)
    (if (echo =? LINE_DISCIPLINE_MODE_ECHO_ON) || (echo =? LINE_DISCIPLINE_MODE_ECHO_OFF) then echo
     else LINE_DISCIPLINE_MODE_ECHO_ON)
    1 buffer buffer_size 0 0 block.

Definition sizeof_line_discipline : Z := 72.

Section Heap.
Context {A : Type} `{Allocator A}.

(** The address of the structure and its contents; [None] when there is no memory. *)
Definition line_discipline_create (mode echo buffer_size : Z) (junk : list Z) (h : A) :
    outcome (option (Z * line_discipline) * A) :=
  '(ld, h) ← al_malloc sizeof_line_discipline h;
  if ld =? 0 then Done (None, h) else
  '(buffer, h) ← al_malloc (u64 buffer_size) h;
  if buffer =? 0 then h ← al_free ld h; Done (None, h) else
  Done (Some (ld, ld_fields mode echo buffer_size buffer junk), h).

Definition line_discipline_destroy (p : Z) (ld : line_discipline) (h : A) : outcome A :=
  if p =? 0 then Done h else
  h ← (if negb (ld_block ld =? 0) then al_free (ld_block ld) h else Done h);
  al_free p h.
End Heap.

Definition line_discipline_set_mode (ld : line_discipline) (mode : Z) : line_discipline :=
  if (ld_valid ld =? 1) && ((mode =? LINE_DISCIPLINE_MODE_RAW) || (mode =? LINE_DISCIPLINE_MODE_CANONICAL))
  then LineDiscipline mode (ld_echo ld) (ld_valid ld) (ld_buffer ld) (ld_size ld) (ld_head ld) (ld_tail ld) (ld_block ld)
  else ld.

Definition line_discipline_set_echo (ld : line_discipline) (echo : Z) : line_discipline :=
  if (ld_valid ld =? 1) && ((echo =? LINE_DISCIPLINE_MODE_ECHO_ON) || (echo =? LINE_DISCIPLINE_MODE_ECHO_OFF))
  then LineDiscipline (ld_mode ld) echo (ld_valid ld) (ld_buffer ld) (ld_size ld) (ld_head ld) (ld_tail ld) (ld_block ld)
  else ld.

(** A remainder by zero is a processor fault. *)
Definition c_rem (x y : Z) : outcome Z := if y =? 0 then Fault else Done (Z.rem x y).

Definition line_discipline_delete_last (ld : line_discipline) : outcome line_discipline :=
  if ld_valid ld =? 0 then Done ld else
  if ld_tail ld =? ld_head ld then Done ld else
  t ← c_rem (ld_tail ld - 1) (ld_size ld);
  Done (with_tail t ld).

(** A store outside the buffer is a fault. *)
Definition line_discipline_insert (ld : line_discipline) (c : Z) : outcome line_discipline :=
  if ld_valid ld =? 0 then Done ld else
  if c =? LD_NULL then Done ld else
  if (ld_tail ld <? 0) || (Z.of_nat (List.length (ld_buffer ld)) <=? ld_tail ld) then Fault else
  let ld := with_ld_buffer (<[Z.to_nat (ld_tail ld) := c]> (ld_buffer ld)) ld in
  t ← c_rem (ld_tail ld + 1) (ld_size ld);
  let ld := with_tail t ld in
  if ld_tail ld =? ld_head ld then h ← c_rem (ld_head ld + 1) (ld_size ld); Done (with_ld_head h ld)
  else Done ld.

(** [size] bytes from [a] on; outside the buffer is a fault. *)
Definition buffer_slice (buf : list Z) (a size : Z) : outcome (list Z) :=
  if size <=? 0 then Done [] else
  if (a <? 0) || (Z.of_nat (List.length buf) <? a + size) then Fault
  else Done (take (Z.to_nat size) (drop (Z.to_nat a) buf)).

Section Callbacks.
Context {T : Type} (flush_cb : list Z → T → outcome T) (echo_cb : option (Z → T → outcome T)).
Implicit Types (ld : line_discipline) (t : T).

Definition line_discipline_force_flush ld t : outcome (line_discipline * T) :=
  if negb (ld_valid ld =? 1) then Done (ld, t) else
  if ld_mode ld =? LINE_DISCIPLINE_MODE_CANONICAL then
    size ← c_rem (ld_tail ld - ld_head ld + ld_size ld) (ld_size ld);
    bytes ← buffer_slice (ld_buffer ld) (ld_head ld) size;
    t ← flush_cb bytes t;
    Done (with_ld_head (ld_tail ld) ld, t)
  else Done (ld, t).

(** The call through a NULL [echo_cb] is a fault. *)
Definition echo_call (c : Z) t : outcome T :=
  match echo_cb with Some f => f c t | None => Fault end.

Definition echo_on ld : bool :=
  (ld_echo ld =? LINE_DISCIPLINE_MODE_ECHO_ON) && match echo_cb with Some _ => true | None => false end.

Definition run_action (a : ld_action) ld t : outcome (line_discipline * T) :=
  match a with
  | ld_erase => ld ← line_discipline_delete_last ld; Done (ld, t)
  | ld_cret => line_discipline_force_flush ld t
  | _ => Done (ld, t)
  end.

(** The characters of an output row up to the first NUL. *)
Fixpoint until_null (l : list Z) : list Z :=
  match l with [] => [] | c :: l => if c =? LD_NULL then [] else c :: until_null l end.

Fixpoint echo_all (l : list Z) t : outcome T :=
  match l with [] => Done t | c :: l => t ← echo_call c t; echo_all l t end.

Fixpoint insert_all (l : list Z) ld : outcome line_discipline :=
  match l with [] => Done ld | c :: l => ld ← line_discipline_insert ld c; insert_all l ld end.

Definition line_discipline_apply ld (c : Z) t : outcome (line_discipline * T) :=
  if negb (ld_valid ld =? 1) then Done (ld, t) else
  if negb (c =? LD_DEL) && ((c <? 0) || (c >? 27)) then
    ld ← line_discipline_insert ld c;
    t ← (if echo_on ld then echo_call c t else Done t);
    Done (ld, t)
  else if c =? LD_DEL then
    ld ← line_discipline_delete_last ld;
    t ← echo_all [8; 32; 8] t;
    Done (ld, t)
  else
    e ← known (default_ld_table !! Z.to_nat c);
    ld ← insert_all (te_inserti e) ld;
    t ← (if echo_on ld then echo_all (until_null (te_output e)) t else Done t);
    run_action (te_action e) ld t.

Definition line_discipline_read ld (c : Z) t : outcome (line_discipline * T) :=
  if negb (ld_valid ld =? 1) then Done (ld, t) else
  if ld_mode ld =? LINE_DISCIPLINE_MODE_RAW then
    t ← (if echo_on ld then echo_call c t else Done t);
    t ← flush_cb [c] t;
    Done (ld, t)
  else if ld_mode ld =? LINE_DISCIPLINE_MODE_CANONICAL then line_discipline_apply ld c t
  else Done (ld, t).
End Callbacks.

(** The characters written to [translated_characters]; the table has no row for [LD_DEL]. *)
Definition line_discipline_translate (ld : line_discipline) (c : Z) : outcome (list Z) :=
  if negb (ld_valid ld =? 1) then Done [c] else
  if ld_mode ld =? LINE_DISCIPLINE_MODE_RAW then Done [c] else
  if ld_mode ld =? LINE_DISCIPLINE_MODE_CANONICAL then
    if negb (c =? LD_DEL) && ((c <? 0) || (c >? 27)) then Done [c] else
    e ← known (default_ld_table !! Z.to_nat c);
    Done (until_null (te_inserto e))
  else Done [c].

(** ** Editing a line *)
Inductive ld_event := EFlush (line : list Z) | EEcho (c : Z).

(** What the terminal shows for a control character. *)
Definition shown (c : Z) : list Z :=
  if c =? 8 then [8; 32; 8] else if c =? 10 then [10] else if c =? 13 then [13; 10] else [].

(** The line after a character, and the calls it causes. *)
Definition edit (echo : bool) (line : list Z) (c : Z) : list Z * list ld_event :=
  if c =? LD_DEL then (removelast line, EEcho <$> [8; 32; 8]) else
  if (c <? 0) || (c >? 27) then (line ++ [c], if echo then [EEcho c] else []) else
  let out := if echo then EEcho <$> shown c else [] in
  if c =? 8 then (removelast line, out) else
  if c =? 13 then ([], out ++ [EFlush line]) else (line, out).

Fixpoint edit_all (echo : bool) (line : list Z) (cs : list Z) : list Z * list ld_event :=
  match cs with
  | [] => (line, [])
  | c :: cs =>
      let '(line, ev) := edit echo line c in
      let '(line, evs) := edit_all echo line cs in (line, ev ++ evs)
  end.

(** The line is in the buffer in one piece, with room behind it. *)
Record ld_rep (ld : line_discipline) (line : list Z) : Prop := {
  lr_valid : ld_valid ld = 1;
  lr_mode : ld_mode ld = LINE_DISCIPLINE_MODE_CANONICAL;
  lr_size : Z.of_nat (List.length (ld_buffer ld)) = ld_size ld;
  lr_head : 0 ≤ ld_head ld;
  lr_tail : ld_tail ld = ld_head ld + Z.of_nat (List.length line);
  lr_room : ld_tail ld < ld_size ld;
  lr_line : take (List.length line) (drop (Z.to_nat (ld_head ld)) (ld_buffer ld)) = line;
}.

Lemma delete_last_rep ld line :
  ld_rep ld line → ∃ ld', line_discipline_delete_last ld = Done ld' ∧ ld_rep ld' (removelast line) ∧
    ld_head ld' = ld_head ld ∧ ld_echo ld' = ld_echo ld ∧ ld_size ld' = ld_size ld.
Proof.
  intros Hr. pose proof Hr as [Hv Hm Hs Hh Ht Hrm Hl]. unfold line_discipline_delete_last. rewrite Hv, Ht. cbn [Z.eqb].
  destruct line as [|c line _] using rev_ind.
  - rewrite Z.add_0_r, Z.eqb_refl. by exists ld.
  - rewrite removelast_last. rewrite length_app in *. cbn [List.length] in *.
    rewrite (proj2 (Z.eqb_neq _ _)) by lia. unfold c_rem. rewrite (proj2 (Z.eqb_neq _ _)) by lia. rewrite bind_done.
    eexists. split; [done|]. rewrite Z.rem_small by lia. split; [|done]. split; cbn; try done; [lia|lia|].
    apply (f_equal (take (List.length line))) in Hl. rewrite take_take, take_app_length in Hl.
    by replace (List.length line `min` (List.length line + 1))%nat with (List.length line) in Hl by lia.
Qed.

Lemma insert_rep ld line c :
  ld_rep ld line → ld_tail ld + 1 < ld_size ld → c ≠ 0 →
  ∃ ld', line_discipline_insert ld c = Done ld' ∧ ld_rep ld' (line ++ [c]) ∧
    ld_head ld' = ld_head ld ∧ ld_echo ld' = ld_echo ld ∧ ld_size ld' = ld_size ld.
Proof.
  intros [Hv Hm Hs Hh Ht Hrm Hl] Hroom Hc. unfold line_discipline_insert. rewrite Hv. cbn [Z.eqb].
  rewrite (proj2 (Z.eqb_neq c LD_NULL)) by done.
  rewrite (proj2 (Z.ltb_ge (ld_tail ld) 0)), (proj2 (Z.leb_gt _ _)) by lia. cbn [orb]. cbv zeta.
  cbn [ld_tail ld_size with_ld_buffer]. unfold c_rem. rewrite (proj2 (Z.eqb_neq (ld_size ld) 0)) by lia. rewrite bind_done.
  cbn [ld_tail ld_head with_tail with_ld_buffer]. rewrite Z.rem_small by lia.
  rewrite (proj2 (Z.eqb_neq (ld_tail ld + 1) _)) by lia. eexists. split; [done|]. split; [|done].
  split; cbn; try done; try (rewrite ?length_insert, ?length_app; cbn; lia).
  rewrite length_app. cbn [List.length]. rewrite <- Hl at 2. rewrite drop_insert_ge by lia.
  replace (Z.to_nat (ld_tail ld) - Z.to_nat (ld_head ld))%nat with (List.length line) by lia.
  rewrite Nat.add_comm. change (1 + List.length line)%nat with (S (List.length line)).
  rewrite (take_S_r _ _ c).
  - by rewrite take_insert_ge by lia.
  - apply list_lookup_insert_eq. rewrite length_drop. lia.
Qed.

Section Events.
Context {T : Type} (flush_cb : list Z → T → outcome T) (echo_cb : option (Z → T → outcome T)).

Fixpoint run_events (evs : list ld_event) (t : T) : outcome T :=
  match evs with
  | [] => Done t
  | EFlush l :: evs => t ← flush_cb l t; run_events evs t
  | EEcho c :: evs => t ← echo_call echo_cb c t; run_events evs t
  end.

Lemma run_events_app e1 e2 t : run_events (e1 ++ e2) t = (t ← run_events e1 t; run_events e2 t).
Proof.
  revert t. induction e1 as [|[l|c] e1 IH]; intros t; cbn; [done|..].
  - destruct (flush_cb l t); cbn; [apply IH|done..].
  - destruct (echo_call echo_cb c t); cbn; [apply IH|done..].
Qed.

Lemma echo_all_events l t : echo_all echo_cb l t = run_events (EEcho <$> l) t.
Proof.
  revert t. induction l as [|c l IH]; intros t; cbn; [done|]. destruct (echo_call echo_cb c t); cbn; [apply IH|done..].
Qed.

Lemma flush_rep ld line :
  ld_rep ld line →
  (∀ t, line_discipline_force_flush flush_cb ld t =
        (t ← run_events [EFlush line] t; Done (with_ld_head (ld_tail ld) ld, t))) ∧
  ld_rep (with_ld_head (ld_tail ld) ld) [].
Proof.
  intros [Hv Hm Hs Hh Ht Hrm Hl]. split; [intros t|].
  - unfold line_discipline_force_flush. rewrite Hv, Hm. cbn [Z.eqb negb LINE_DISCIPLINE_MODE_CANONICAL].
    unfold c_rem. rewrite (proj2 (Z.eqb_neq (ld_size ld) 0)) by lia. rewrite bind_done.
    replace (ld_tail ld - ld_head ld + ld_size ld) with (Z.of_nat (List.length line) + 1 * ld_size ld) by lia.
    rewrite Z.rem_mod_nonneg, Z.mod_add, Z.mod_small by lia. unfold buffer_slice.
    destruct (Z.leb_spec (Z.of_nat (List.length line)) 0).
    { destruct line; [|cbn in *; lia]. rewrite bind_done. cbn. by destruct (flush_cb [] t). }
    rewrite (proj2 (Z.ltb_ge _ 0)), (proj2 (Z.ltb_ge _ _)) by lia. cbn [orb]. rewrite bind_done, Nat2Z.id, Hl.
    cbn. by destruct (flush_cb line t).
  - split; cbn; try done; lia.
Qed.

(** The row of a control character. *)
Definition row_ok (c : Z) : Prop :=
  ∃ e, default_ld_table !! Z.to_nat c = Some e ∧ te_inserti e = [0; 0; 0; 0] ∧
    until_null (te_output e) = shown c ∧
    ∀ ld t, run_action flush_cb (te_action e) ld t =
      if c =? 8 then (ld ← line_discipline_delete_last ld; Done (ld, t))
      else if c =? 13 then line_discipline_force_flush flush_cb ld t else Done (ld, t).

Lemma control_row c : 0 ≤ c ≤ 27 → row_ok c.
Proof.
  intros Hc. assert (Hall : Forall row_ok (seqZ 0 28)).
  { repeat (constructor; [eexists; split; [done|]; split_and!; done|]). constructor. }
  rewrite Forall_forall in Hall. apply Hall, elem_of_seqZ. lia.
Qed.

Lemma removelast_length (l : list Z) : (List.length (removelast l) ≤ List.length l)%nat.
Proof. destruct l as [|x l _] using rev_ind; [done|]. rewrite removelast_last, length_app. lia. Qed.

Lemma read_rep ld line c (r := edit (echo_on echo_cb ld) line c) :
  ld_rep ld line → ld_tail ld + 1 < ld_size ld →
  ∃ ld', (∀ t, line_discipline_read flush_cb echo_cb ld c t = (t ← run_events r.2 t; Done (ld', t))) ∧
    ld_rep ld' r.1 ∧ ld_echo ld' = ld_echo ld ∧ ld_size ld' = ld_size ld ∧ ld_tail ld' ≤ ld_tail ld + 1.
Proof.
  intros Hr Hroom. pose proof Hr as [Hv Hm _ _ Ht _ _].
  unfold line_discipline_read, line_discipline_apply. rewrite Hv, Hm.
  cbn [Z.eqb negb LINE_DISCIPLINE_MODE_CANONICAL LINE_DISCIPLINE_MODE_RAW]. subst r. unfold edit.
  destruct (delete_last_rep ld line Hr) as (ldd & Ed & Hrd & Ehd & Eed & Esd).
  assert (Htd : ld_tail ldd ≤ ld_tail ld + 1).
  { pose proof (lr_tail _ _ Hrd). pose proof (removelast_length line). lia. }
  destruct (Z.eqb_spec c LD_DEL) as [->|Hdel]; cbn [negb andb fst snd].
  { exists ldd. split_and!; try done. intros t. by rewrite Ed, bind_done, echo_all_events. }
  destruct ((c <? 0) || (c >? 27)) eqn:Ec; cbn [fst snd].
  { destruct (insert_rep ld line c Hr Hroom) as (ld' & Ei & Hr' & Eh & Ee & Es); [intros ->; by cbn in Ec|].
    exists ld'. pose proof (lr_tail _ _ Hr') as Ht'. rewrite length_app in Ht'. cbn in Ht'. split_and!; try done; [|lia].
    intros t. rewrite Ei, bind_done. unfold echo_on. rewrite Ee.
    destruct ((ld_echo ld =? LINE_DISCIPLINE_MODE_ECHO_ON) && _); cbn; [|done]. by destruct (echo_call echo_cb c t). }
  apply orb_false_iff in Ec as [Ec1 Ec2]. zbool.
  destruct (control_row c) as (e & -> & Ei & Eo & Hact); [lia|]. cbn [known].
  set (out := if echo_on echo_cb ld then EEcho <$> shown c else []).
  assert (Ego : ∀ t, (e ← Done e; ld ← insert_all (te_inserti e) ld;
      t ← (if echo_on echo_cb ld then echo_all echo_cb (until_null (te_output e)) t else Done t);
      run_action flush_cb (te_action e) ld t) = (t ← run_events out t; run_action flush_cb (te_action e) ld t)).
  { intros t. rewrite bind_done, Ei. assert (E0 : line_discipline_insert ld 0 = Done ld)
      by (unfold line_discipline_insert; by rewrite Hv).
    cbn [insert_all]. do 4 rewrite E0, bind_done.
    rewrite bind_done, Eo. unfold out. destruct (echo_on echo_cb ld); [by rewrite echo_all_events|done]. }
  destruct (Z.eqb_spec c 8) as [->|H8]; cbn [fst snd].
  { exists ldd. split_and!; try done. intros t. rewrite Ego. apply bind_ext. intros t'. by rewrite Hact, Ed. }
  destruct (Z.eqb_spec c 13) as [->|H13]; cbn [fst snd].
  { destruct (flush_rep ld line Hr) as [Ef Hr']. exists (with_ld_head (ld_tail ld) ld). split_and!; try done; [|cbn; lia].
    intros t. rewrite Ego, run_events_app. destruct (run_events out t) as [t'| | | |]; [|done..].
    rewrite !bind_done, Hact. apply Ef. }
  exists ld. split_and!; try done; [|lia]. intros t. rewrite Ego. apply bind_ext. intros t'. by rewrite Hact.
Qed.

(** Characters typed one after the other. *)
Fixpoint type_all (cs : list Z) (ld : line_discipline) (t : T) : outcome (line_discipline * T) :=
  match cs with
  | [] => Done (ld, t)
  | c :: cs => '(ld, t) ← line_discipline_read flush_cb echo_cb ld c t; type_all cs ld t
  end.

Lemma typed_rep cs ld line :
  ld_rep ld line → ld_tail ld + Z.of_nat (List.length cs) < ld_size ld →
  ∃ ld', (∀ t, type_all cs ld t = (t ← run_events (edit_all (echo_on echo_cb ld) line cs).2 t; Done (ld', t))) ∧
    ld_rep ld' (edit_all (echo_on echo_cb ld) line cs).1.
Proof.
  revert ld line. induction cs as [|c cs IH]; intros ld line Hr Hroom; cbn [type_all edit_all].
  - by exists ld.
  - cbn [List.length] in Hroom. destruct (read_rep ld line c Hr) as (ld1 & E1 & Hr1 & Ee & Es & Ht1); [lia|].
    destruct (edit (echo_on echo_cb ld) line c) as [line1 ev] eqn:Eed. cbn [fst snd] in *.
    assert (Eon : echo_on echo_cb ld1 = echo_on echo_cb ld) by (unfold echo_on; by rewrite Ee).
    destruct (IH ld1 line1 Hr1) as (ld2 & E2 & Hr2); [lia|]. rewrite Eon in *.
    destruct (edit_all (echo_on echo_cb ld) line1 cs) as [line2 evs]. cbn [fst snd] in *.
    exists ld2. split; [|done]. intros t. rewrite E1, run_events_app.
    destruct (run_events ev t) as [t1| | | |]; [|done..]. rewrite !bind_done. apply E2.
Qed.

(** In canonical mode the discipline is a line editor: as long as the buffer has room
    for what is typed, the characters are appended to the line, backspace and delete take
    the last one off, other control characters leave the line alone, a carriage return
    hands over exactly the edited line and starts an empty one, and the echo shows what the
    edit does. *)
Theorem line_discipline_edits cs ld line (r := edit_all (echo_on echo_cb ld) line cs) :
  ld_rep ld line → ld_tail ld + Z.of_nat (List.length cs) < ld_size ld →
  ∃ ld', (∀ t, type_all cs ld t = (t ← run_events r.2 t; Done (ld', t))) ∧ ld_rep ld' r.1.
Proof. subst r. apply typed_rep. Qed.
End Events.

(** ** Lines that reach the end of the buffer *)
(** A flush of a line that wraps around reads past the buffer, and erasing from the first
    cell of the buffer leaves a negative index, at which the next character is stored. *)
Theorem wrapped_line_faults {T} (flush_cb : list Z → T → outcome T) ld t c :
  ld_valid ld = 1 → ld_mode ld = LINE_DISCIPLINE_MODE_CANONICAL →
  Z.of_nat (List.length (ld_buffer ld)) = ld_size ld → ld_head ld < ld_size ld →
  (0 < ld_tail ld < ld_head ld → line_discipline_force_flush flush_cb ld t = Fault) ∧
  (ld_tail ld = 0 → 0 < ld_head ld → c ≠ 0 → 1 < ld_size ld →
   (ld ← line_discipline_delete_last ld; line_discipline_insert ld c) = Fault).
Proof.
  intros Hv Hm Hs Hh. split.
  - intros Ht. unfold line_discipline_force_flush. rewrite Hv, Hm. cbn [Z.eqb negb LINE_DISCIPLINE_MODE_CANONICAL].
    unfold c_rem. rewrite (proj2 (Z.eqb_neq (ld_size ld) 0)) by lia. rewrite bind_done, Z.rem_small by lia.
    unfold buffer_slice. rewrite (proj2 (Z.leb_gt _ _)), (proj2 (Z.ltb_ge _ 0)), (proj2 (Z.ltb_lt _ _)) by lia. done.
  - intros Ht H0 Hc H1. unfold line_discipline_delete_last. rewrite Hv, Ht. change (1 =? 0) with false.
    cbv iota. rewrite (proj2 (Z.eqb_neq 0 (ld_head ld))) by lia. unfold c_rem.
    rewrite (proj2 (Z.eqb_neq (ld_size ld) 0)) by lia. rewrite !bind_done. unfold line_discipline_insert.
    cbn [ld_valid with_tail]. rewrite Hv. change (1 =? 0) with false. cbv iota. rewrite (proj2 (Z.eqb_neq c LD_NULL)) by done.
    cbn [ld_tail with_tail]. change (0 - 1) with (- (1)). rewrite Z.rem_opp_l, Z.rem_small by lia. done.
Qed.

(** "ab", backspace, "c" and a carriage return on a fresh buffer, with the calls recorded. *)
Lemma line_discipline_edits_witness :
  ∃ ld', type_all (λ l t, Done (t ++ [EFlush l])) (Some (λ c t, Done (t ++ [EEcho c]))) [97; 98; 8; 99; 13]
           (ld_fields 1 0 16 0x100 (replicate 16 0)) [] =
         Done (ld', [EEcho 97; EEcho 98; EEcho 8; EEcho 32; EEcho 8; EEcho 99; EEcho 13; EEcho 10; EFlush [97; 99]]) ∧
    ld_rep ld' [].
Proof.
  destruct (line_discipline_edits (λ l t, Done (t ++ [EFlush l])) (Some (λ c t, Done (t ++ [EEcho c])))
    [97; 98; 8; 99; 13] (ld_fields 1 0 16 0x100 (replicate 16 0)) []) as (ld' & E & Hr).
  - split; done.
  - done.
  - exists ld'. split; [exact (E [])|exact Hr].
Defined.
