(* ===== verification/Devices.v ===== *)
(** * The device registry (src/src/devices/devices.c)

    Devices are nodes of a linked list that ends in a cleared node: registering a device
    fills the last node and appends a new one.  A device is found by its name, and input
    and output on it go to the driver registered for its major number.  The drivers act on
    a state of type [W]; what they store in the caller's buffer is part of their result. *)
From Stdlib Require Import Ascii String.
From stdpp Require Import gmap.
From S2P Require Import Prelude PageService Alloc.

#[local] Open Scope Z_scope.

Definition DEVICE_NAME_SIZE : nat := 32.
Definition sizeof_device : Z := 64.

(** The characters of a string constant. *)
Fixpoint chars (s : string) : list Z :=
  match s with EmptyString => [] | String c s => Z.of_N (N_of_ascii c) :: chars s end.

Record device := Device {
  d_addr : Z; d_bc : Z; d_valid : Z; d_major : Z; d_minor : Z;
  d_name : list Z; d_internal_id : Z; d_control : Z;
}.

(** A node after [memset]. *)
Definition cleared_device (addr : Z) : device :=
  Device addr 0 0 0 0 (replicate DEVICE_NAME_SIZE 0) 0 0.

Record file_operations (W : Type) := FileOps {
  fo_read : option (Z → Z → Z → W → outcome (Z * list Z * W));
  fo_write : option (Z → Z → Z → list Z → W → outcome (Z * W));
  fo_ioctl : option (Z → Z → Z → W → outcome (Z * W));
}.
Arguments FileOps {W} _ _ _.
Arguments fo_read {W} _.
Arguments fo_write {W} _.
Arguments fo_ioctl {W} _.

Record network_operations (W : Type) := NetOps {
  no_send : option (Z → list Z → Z → W → outcome (Z * W));
  no_recv : option (Z → Z → W → outcome (Z * list Z * W));
  no_ioctl : option (Z → Z → Z → W → outcome (Z * W));
}.
Arguments NetOps {W} _ _ _.
Arguments no_send {W} _.
Arguments no_recv {W} _.
Arguments no_ioctl {W} _.

Record device_driver (W : Type) := DeviceDriver {
  dd_fops : option (file_operations W); dd_nops : option (network_operations W);
  dd_registered : Z; dd_name : list Z;
}.
Arguments DeviceDriver {W} _ _ _ _.
Arguments dd_fops {W} _.
Arguments dd_nops {W} _.
Arguments dd_registered {W} _.
Arguments dd_name {W} _.

(** The list behind [device_header], and the three tables, indexed by major number. *)
Record registry (W : Type) := Registry {
  rg_devices : list device;
  rg_char : Z → device_driver W; rg_block : Z → device_driver W; rg_net : Z → device_driver W;
}.
Arguments Registry {W} _ _ _ _.
Arguments rg_devices {W} _.
Arguments rg_char {W} _.
Arguments rg_block {W} _.
Arguments rg_net {W} _.

Definition device_identifiers (major : Z) : option (list Z) :=
  if (major <? 8) || (major =? 0xd) || (major =? 0xf) || (major =? 0x13) then Some (chars "none") else
  if major =? 0x8 then Some (chars "hd") else if major =? 0x9 then Some (chars "cd") else
  if major =? 0xa then Some (chars "semb") else if major =? 0xb then Some (chars "pm") else
  if major =? 0xc then Some (chars "sd") else if major =? 0xe then Some (chars "tty") else
  if major =? 0x10 then Some (chars "mouse") else if major =? 0x11 then Some (chars "net") else
  if major =? 0x12 then Some (chars "fb") else if major =? 0x8d then Some (chars "serial") else
  if major =? 0x8e then Some (chars "fifo") else if major =? 0x8f then Some (chars "kbd") else None.

(** What [%x] prints for [n] in an [int]. *)
Definition hex_digit (d : Z) : Z := if d <? 10 then 48 + d else 87 + d.
Fixpoint hex_digits (fuel : nat) (n : Z) (acc : list Z) : list Z :=
  match fuel with
  | O => acc
  | S fuel => let acc := hex_digit (n mod 16) :: acc in if n <? 16 then acc else hex_digits fuel (n / 16) acc
  end.
Definition print_hex (n : Z) : list Z := hex_digits 8 n [].

(** [strncpy(dest, src, strlen(src))]; past the end of the field is a fault. *)
Definition copy_name (dest src : list Z) : outcome (list Z) :=
  if (List.length dest <=? List.length src)%nat then Fault
  else Done (src ++ 0 :: drop (S (List.length src)) dest)%list.

(** [memcmp(a, b, n) == 0]: it stops at the first difference. *)
Fixpoint same_bytes (n : nat) (a b : list Z) : outcome bool :=
  match n with
  | O => Done true
  | S n =>
      match a, b with
      | x :: a, y :: b => if x =? y then same_bytes n a b else Done false
      | _, _ => Fault
      end
  end.

(** The number under which a device was created. *)
Definition full_major (d : device) : Z := u8 (Z.lor (Z.shiftl (d_bc d) 7) (d_major d)).

(** The loop of [device_create]: the devices of the same major before the last node. *)
Fixpoint count_minor (major minor : Z) (l : list device) : Z :=
  match l with
  | d :: ((_ :: _) as l') => count_minor major (if full_major d =? major then u8 (minor + 1) else minor) l'
  | _ => minor
  end.

(** The bytes of the structure up to the end of the name. *)
Definition struct_bytes (d : device) : list Z := (d_bc d + 2 * d_valid d) :: d_major d :: d_minor d :: d_name d.

Definition invalidate (d : device) : device :=
  Device (d_addr d) (d_bc d) 0 (d_major d) (d_minor d) (d_name d) (d_internal_id d) (d_control d).

Section Nodes.
Context {A : Type} `{Allocator A} (free_page : Z → A → outcome A).

Definition init_device_list (h : A) : outcome (list device * A) :=
  '(head, h) ← al_malloc sizeof_device h;
  if head =? 0 then Fault else Done ([cleared_device head], h).

(** The name of the device and the list. *)
Definition device_create (control major id : Z) (l : list device) (h : A) : outcome (list Z * list device * A) :=
  d ← known (last l);
  let minor := count_minor major 0 l in
  ident ← known (device_identifiers major);
  let name := (ident ++ print_hex (minor + 0xa))%list in
  '(next, h) ← al_malloc sizeof_device h;
  if next =? 0 then Fault else
  field ← copy_name (d_name d) name;
  Done (name,
        (removelast l ++ [Device (d_addr d) (Z.shiftr (Z.land major 0x80) 7) 1 (Z.land major 0x7F) minor field id control;
                          cleared_device next])%list, h).

(** [prev] are the nodes already passed. *)
Fixpoint destroy_from (name : list Z) (prev l : list device) (h : A) : outcome (list device * A) :=
  match l with
  | [] => Fault
  | d :: l' =>
      if d_valid d =? 0 then Done ((prev ++ l)%list, h) else
      m ← same_bytes (List.length name) (d_name d) (struct_bytes d);
      if (m : bool) then
        h ← free_page (d_addr d) h;
        match prev with
        | [] => Done (invalidate d :: l', h)
        | _ => Done ((prev ++ l')%list, h)
        end
      else destroy_from name (prev ++ [d])%list l' h
  end.

Definition device_destroy (name : list Z) (l : list device) (h : A) : outcome (list device * A) :=
  destroy_from name [] l h.
End Nodes.

(** A name is matched by [memcmp(dev->name, name, strlen(name))]. *)
Definition name_matches (d : device) (name : list Z) : outcome bool :=
  same_bytes (List.length name) (d_name d) name.

Definition get_device_head (l : list device) : outcome (option device) :=
  d ← known (head l); Done (if negb (d_valid d =? 0) then Some d else None).

(** The device after position [i]. *)
Definition get_next_device (l : list device) (i : nat) : outcome (option device) :=
  d ← known (l !! S i); Done (if negb (d_valid d =? 0) then Some d else None).

Fixpoint device_count_from (sel : device → bool) (count : Z) (l : list device) : outcome Z :=
  match l with
  | [] => Fault
  | d :: l => if d_valid d =? 0 then Done count else device_count_from sel (if sel d then u32 (count + 1) else count) l
  end.

Definition get_device_count (l : list device) : outcome Z := device_count_from (λ _, true) 0 l.
Definition get_device_count_by_major (major : Z) (l : list device) : outcome Z :=
  device_count_from (λ d, full_major d =? major) 0 l.

Fixpoint device_search (name : list Z) (l : list device) : outcome (option device) :=
  match l with
  | [] => Fault
  | d :: l =>
      if d_valid d =? 0 then Done None else
      m ← name_matches d name;
      if (m : bool) then Done (Some d) else device_search name l
  end.

Section Drivers.
Context {W : Type}.
Implicit Types (rg : registry W).

Definition update (t : Z → device_driver W) (k : Z) (v : device_driver W) : Z → device_driver W :=
  λ i, if i =? k then v else t i.

Definition register_char (major : Z) (name : list Z) (fops : file_operations W) rg : registry W :=
  Registry (rg_devices rg) (update (rg_char rg) (Z.land major 0x7f) (DeviceDriver (Some fops) None 1 name))
    (rg_block rg) (rg_net rg).
Definition register_block (major : Z) (name : list Z) (fops : file_operations W) rg : registry W :=
  Registry (rg_devices rg) (rg_char rg) (update (rg_block rg) major (DeviceDriver (Some fops) None 1 name)) (rg_net rg).
Definition register_network (major : Z) (name : list Z) (nops : network_operations W) rg : registry W :=
  Registry (rg_devices rg) (rg_char rg) (rg_block rg) (update (rg_net rg) major (DeviceDriver None (Some nops) 1 name)).

Definition unregistered (v : device_driver W) : device_driver W := DeviceDriver (dd_fops v) (dd_nops v) 0 (dd_name v).
Definition unregister_block (major : Z) rg : registry W :=
  Registry (rg_devices rg) (rg_char rg) (update (rg_block rg) major (unregistered (rg_block rg major))) (rg_net rg).
Definition unregister_char (major : Z) rg : registry W :=
  Registry (rg_devices rg) (update (rg_char rg) major (unregistered (rg_char rg major))) (rg_block rg) (rg_net rg).
Definition unregister_network (major : Z) rg : registry W :=
  Registry (rg_devices rg) (rg_char rg) (rg_block rg) (update (rg_net rg) major (unregistered (rg_net rg major))).

Definition registered (v : device_driver W) : bool := negb (dd_registered v =? 0).

(** The driver table of a device. *)
Definition driver_of rg (d : device) : device_driver W :=
  if d_bc d =? 0 then rg_block rg (d_major d) else rg_char rg (d_major d).

Fixpoint identify_from rg (name driver_name : list Z) (l : list device) : outcome Z :=
  match l with
  | [] => Fault
  | d :: l =>
      if d_valid d =? 0 then Done 0 else
      m ← name_matches d name;
      if (m : bool) then
        if negb (registered (driver_of rg d)) then Done 0
        else Done (b2z (bool_decide (dd_name (driver_of rg d) = driver_name)))
      else identify_from rg name driver_name l
  end.
Definition device_identify rg (name driver_name : list Z) : outcome Z :=
  identify_from rg name driver_name (rg_devices rg).

(** The loop shared by [device_read], [device_write] and [device_ioctl].  A matching device
    whose driver is not registered is met by [continue], which does not advance; one whose
    driver lacks the operation is passed over. *)
Section Dispatch.
Context {R : Type} (rg : registry W) (name : list Z)
  (via_net : device → network_operations W → option R) (via_file : device → file_operations W → option R).

Fixpoint dispatch (l : list device) : outcome (option R) :=
  match l with
  | [] => Fault
  | d :: l =>
      if d_valid d =? 0 then Done None else
      m ← name_matches d name;
      if (m : bool) then
        if d_bc d =? 0 then
          if negb (registered (rg_block rg (d_major d))) && negb (registered (rg_net rg (d_major d))) then Spin else
          match dd_nops (rg_net rg (d_major d)) ≫= via_net d with
          | Some r => Done (Some r)
          | None =>
              match dd_fops (rg_block rg (d_major d)) ≫= via_file d with
              | Some r => Done (Some r)
              | None => dispatch l
              end
          end
        else
          if negb (registered (rg_char rg (d_major d))) then Spin else
          match dd_fops (rg_char rg (d_major d)) ≫= via_file d with
          | Some r => Done (Some r)
          | None => dispatch l
          end
      else dispatch l
  end.
End Dispatch.

(** The return value, the bytes stored in the buffer and the state. *)
Definition device_read rg (name : list Z) (size offset : Z) (w : W) : outcome (Z * list Z * W) :=
  r ← dispatch rg name
    (λ d ops, recv ← no_recv ops; Some (recv (d_control d) (u16 size)))
    (λ d ops, read ← fo_read ops; Some (read (d_internal_id d) size offset)) (rg_devices rg);
  match r with Some call => call w | None => Done (0, [], w) end.

Definition device_write rg (name : list Z) (size offset : Z) (buffer : list Z) (w : W) : outcome (Z * W) :=
  r ← dispatch rg name
    (λ d ops, send ← no_send ops; Some (send (d_control d) buffer (u16 size)))
    (λ d ops, write ← fo_write ops; Some (write (d_internal_id d) size offset buffer)) (rg_devices rg);
  match r with Some call => call w | None => Done (0, w) end.

Definition device_ioctl rg (name : list Z) (op data : Z) (w : W) : outcome (Z * W) :=
  r ← dispatch rg name
    (λ d ops, ioctl ← no_ioctl ops; Some (ioctl (d_control d) (u32 op) data))
    (λ d ops, ioctl ← fo_ioctl ops; Some (ioctl (d_internal_id d) (u32 op) data)) (rg_devices rg);
  match r with Some call => call w | None => Done (0, w) end.
End Drivers.
