(* ===== verification/DevicesSpec.v ===== *)
(** * The device registry: names and dispatch

    The devices created are found again under the names they were given, whatever was
    created before and after them, and input and output by name reach the driver that is
    registered for the major number of the device. *)
From Stdlib Require Import Ascii String.
From stdpp Require Import gmap.
From S2P Require Import Prelude PageService Alloc Paging PageAlloc Heap KernelHeap Devices.
#[local] Open Scope Z_scope.

(** The major numbers with an identifier of their own. *)
Definition named_majors : list Z := [0x8; 0x9; 0xa; 0xb; 0xc; 0xe; 0x10; 0x11; 0x12; 0x8d; 0x8e; 0x8f].

Definition ident (M : Z) : list Z := default [] (device_identifiers M).
Definition dev_name (M k : Z) : list Z := (ident M ++ print_hex (k + 10))%list.

Definition count_of (M : Z) (ds : list device) : Z := Z.of_nat (List.length (filter (λ d, full_major d = M) ds)).

(** Minors stay below the value at which [minor+0xa] leaves the byte. *)
Record device_ok (before : list device) (d : device) : Prop := {
  do_valid : d_valid d = 1;
  do_major : full_major d ∈ named_majors;
  do_bc : d_bc d = Z.shiftr (Z.land (full_major d) 0x80) 7;
  do_low : d_major d = Z.land (full_major d) 0x7F;
  do_minor : d_minor d = count_of (full_major d) before;
  do_bound : d_minor d < 246;
  do_name : ∃ n, d_name d = (dev_name (full_major d) (d_minor d) ++ 0 :: replicate n 0)%list;
}.

Definition devices_ok (ds : list device) : Prop :=
  ∀ before d after, ds = (before ++ d :: after)%list → device_ok before d.

(** The name a device was given. *)
Definition cname (d : device) : list Z := dev_name (full_major d) (d_minor d).

(** ** Names *)
Lemma same_bytes_prefix y z zs :
  0 ∉ y → same_bytes (List.length y) (z ++ 0 :: zs)%list y = Done (bool_decide (y `prefix_of` z)).
Proof.
  revert z. induction y as [|b y IH]; intros z Hy; cbn [List.length same_bytes].
  { by rewrite bool_decide_true by apply prefix_nil. }
  apply not_elem_of_cons in Hy as [Hb Hy]. destruct z as [|x z]; cbn [app].
  - rewrite (proj2 (Z.eqb_neq 0 b)) by done. by rewrite bool_decide_false by apply prefix_nil_not.
  - destruct (Z.eqb_spec x b) as [->|Hne].
    + rewrite IH by done. f_equal. apply bool_decide_ext. split; [apply prefix_cons|apply prefix_cons_inv_2].
    + rewrite bool_decide_false; [done|]. intros H%prefix_cons_inv_1. congruence.
Qed.

Lemma idents_apart :
  Forall (λ M1, Forall (λ M2, (ident M1 `prefix_of` ident M2 → M1 = M2)) named_majors) named_majors.
Proof. refine (bool_decide_eq_true_1 _ _). by vm_compute. Qed.

Lemma hex_prefix_order :
  Forall (λ a, Forall (λ b, print_hex (a + 10) `prefix_of` print_hex (b + 10) → a ≤ b) (seqZ 0 246)) (seqZ 0 246).
Proof. refine (bool_decide_eq_true_1 _ _). by vm_compute. Qed.

Lemma names_apart M1 M2 a b :
  M1 ∈ named_majors → M2 ∈ named_majors → 0 ≤ a < 246 → 0 ≤ b < 246 →
  dev_name M1 a `prefix_of` dev_name M2 b → M1 = M2 ∧ a ≤ b.
Proof.
  intros H1 H2 Ha Hb Hp. pose proof idents_apart as Hid. rewrite Forall_forall in Hid.
  assert (HM : M1 = M2).
  { destruct (prefix_weak_total (ident M1) (ident M2) (dev_name M2 b)).
    - etrans; [|exact Hp]. by apply prefix_app_r.
    - by apply prefix_app_r.
    - specialize (Hid _ H1). rewrite Forall_forall in Hid. by apply Hid.
    - specialize (Hid _ H2). rewrite Forall_forall in Hid. symmetry. by apply Hid. }
  split; [done|]. subst M2. apply prefix_app_inv in Hp.
  pose proof hex_prefix_order as Hh. rewrite Forall_forall in Hh.
  specialize (Hh a). rewrite elem_of_seqZ, Forall_forall in Hh. apply (Hh ltac:(lia) b); [|done].
  apply elem_of_seqZ. lia.
Qed.

Lemma name_chars : Forall (λ M, (0 ∉ ident M) ∧ (List.length (ident M) ≤ 6)%nat) named_majors.
Proof. refine (bool_decide_eq_true_1 _ _). by vm_compute. Qed.

Lemma hex_chars : Forall (λ k, (0 ∉ print_hex (k + 10)) ∧ (List.length (print_hex (k + 10)) ≤ 3)%nat) (seqZ 0 246).
Proof. refine (bool_decide_eq_true_1 _ _). by vm_compute. Qed.

Lemma dev_name_chars M k :
  M ∈ named_majors → 0 ≤ k < 246 → (0 ∉ dev_name M k) ∧ (List.length (dev_name M k) ≤ 9)%nat.
Proof.
  intros HM Hk. pose proof name_chars as Hn. rewrite Forall_forall in Hn. destruct (Hn _ HM) as [Hz Hl].
  pose proof hex_chars as Hh. rewrite Forall_forall in Hh. destruct (Hh k) as [Hz' Hl']; [apply elem_of_seqZ; lia|].
  unfold dev_name. rewrite length_app. split; [set_solver|lia].
Qed.

Lemma count_of_nonneg M ds : 0 ≤ count_of M ds.
Proof. unfold count_of. lia. Qed.

Lemma count_of_app M l1 l2 : count_of M (l1 ++ l2)%list = count_of M l1 + count_of M l2.
Proof. unfold count_of. rewrite filter_app, length_app. lia. Qed.

Lemma count_of_one M d : count_of M [d] = if full_major d =? M then 1 else 0.
Proof. unfold count_of. rewrite filter_cons. case_decide; destruct (Z.eqb_spec (full_major d) M); done. Qed.

Lemma do_minor_range before d : device_ok before d → 0 ≤ d_minor d < 246.
Proof. intros Hd. pose proof (do_bound _ _ Hd). rewrite (do_minor _ _ Hd) in *. pose proof (count_of_nonneg (full_major d) before). lia. Qed.

Lemma name_matches_ok before d n :
  device_ok before d → 0 ∉ n → name_matches d n = Done (bool_decide (n `prefix_of` cname d)).
Proof. intros Hd Hn. destruct (do_name _ _ Hd) as [k E]. unfold name_matches. rewrite E. by apply same_bytes_prefix. Qed.

(** A device that a walk for the name [n] passes. *)
Definition passed (n : list Z) (e : device) : Prop := d_valid e = 1 ∧ name_matches e n = Done false.

(** The first device a walk for its name stops at is the device itself. *)
Lemma own_name_first before d after :
  devices_ok (before ++ d :: after)%list → Forall (passed (cname d)) before ∧ name_matches d (cname d) = Done true.
Proof.
  intros Hok. assert (Hd : device_ok before d) by (by eapply Hok). pose proof (do_minor_range _ _ Hd) as Hm.
  destruct (dev_name_chars (full_major d) (d_minor d) (do_major _ _ Hd) Hm) as [Hz _]. split.
  - apply Forall_forall. intros e He. apply list_elem_of_split in He as (b1 & b2 & ->).
    assert (He : device_ok b1 e) by (eapply (Hok b1 e (b2 ++ d :: after)%list); by rewrite <- app_assoc).
    split; [apply (do_valid _ _ He)|]. rewrite (name_matches_ok b1) by done. f_equal. apply bool_decide_false.
    intros [EM Hle]%names_apart; [|apply (do_major _ _ Hd)|apply (do_major _ _ He)|done|by eapply do_minor_range].
    rewrite (do_minor _ _ Hd), (do_minor _ _ He), count_of_app, EM in Hle.
    change (e :: b2) with ([e] ++ b2)%list in Hle. rewrite count_of_app, count_of_one, Z.eqb_refl in Hle.
    pose proof (count_of_nonneg (full_major e) b2). lia.
  - rewrite (name_matches_ok before) by done. by rewrite bool_decide_true.
Qed.

Lemma search_passed n before l : Forall (passed n) before → device_search n (before ++ l)%list = device_search n l.
Proof.
  induction 1 as [|e before [Hv Hm] _ IH]; [done|]. cbn [app device_search]. rewrite Hv, Hm. exact IH.
Qed.

Lemma search_own before d after l :
  devices_ok (before ++ d :: after)%list → device_search (cname d) ((before ++ d :: after) ++ l)%list = Done (Some d).
Proof.
  intros Hok. destruct (own_name_first _ _ _ Hok) as [Hb Hm].
  assert (Hd : device_ok before d) by (by eapply Hok).
  rewrite <- app_assoc, search_passed by done. cbn [app device_search]. rewrite (do_valid _ _ Hd), Hm. done.
Qed.

(** ** Creating a device *)
Lemma count_minor_ok M m ds s :
  0 ≤ m → m + count_of M ds < 256 → count_minor M m (ds ++ [s])%list = m + count_of M ds.
Proof.
  revert m. induction ds as [|d ds IH]; intros m Hm Hb; [unfold count_of; cbn; lia|].
  assert (Hc : count_of M (d :: ds) = (if full_major d =? M then 1 else 0) + count_of M ds).
  { change (d :: ds) with ([d] ++ ds)%list. by rewrite count_of_app, count_of_one. }
  pose proof (count_of_nonneg M ds).
  assert (E : count_minor M m ((d :: ds) ++ [s])%list =
              count_minor M (if full_major d =? M then u8 (m + 1) else m) (ds ++ [s])%list) by (by destruct ds).
  rewrite E. rewrite Hc in *. destruct (full_major d =? M).
  - rewrite u8_small by lia. rewrite IH by lia. lia.
  - rewrite IH by lia. lia.
Qed.

Lemma devices_ok_snoc ds d : devices_ok ds → device_ok ds d → devices_ok (ds ++ [d])%list.
Proof.
  intros Hds Hd before e after E. destruct after as [|x after _] using rev_ind.
  - apply app_inj_tail in E as [-> ->]. done.
  - rewrite (app_comm_cons after), app_assoc in E. apply app_inj_tail in E as [-> _]. by eapply Hds.
Qed.

(** The bits of a major number and back. *)
Lemma major_bits :
  Forall (λ M, u8 (Z.lor (Z.shiftl (Z.shiftr (Z.land M 0x80) 7) 7) (Z.land M 0x7F)) = M ∧
               is_Some (device_identifiers M)) named_majors.
Proof. repeat constructor; done. Qed.

Section Create.
Context {A : Type} `{AllocatorOk A}.

(** What [device_create] appends. *)
Lemma device_create_ok control M id ds a (L : gset Z) (h : A) :
  devices_ok ds → al_ok L h → M ∈ named_majors → count_of M ds < 246 →
  returns_or_panics (device_create control M id (ds ++ [cleared_device a])%list h) ∧
  ∀ x, device_create control M id (ds ++ [cleared_device a])%list h = Done x →
    ∃ d next, x.1.2 = (ds ++ [d] ++ [cleared_device next])%list ∧ al_ok ({[next]} ∪ L) x.2 ∧
      devices_ok (ds ++ [d])%list ∧ full_major d = M ∧ d_internal_id d = id ∧ d_control d = control ∧ x.1.1 = cname d.
Proof.
  intros Hds Hal HM Hc. pose proof (count_of_nonneg M ds) as Hpos.
  pose proof major_bits as Hb. rewrite Forall_forall in Hb. destruct (Hb _ HM) as [EM [i Ei]].
  unfold device_create. rewrite last_snoc, removelast_last. cbn [known]. rewrite bind_done, Ei. cbn [known].
  rewrite bind_done, count_minor_ok, Z.add_0_l by lia.
  destruct (dev_name_chars M (count_of M ds) HM) as [Hz Hl]; [lia|].
  assert (En : (i ++ print_hex (count_of M ds + 0xa))%list = dev_name M (count_of M ds)).
  { unfold dev_name, ident. by rewrite Ei. }
  rewrite En. destruct (al_malloc_ok L sizeof_device h Hal) as [Hr Hd]; [done|].
  apply (rop_bind (λ x, al_ok ({[x.1]} ∪ L) x.2)); [done| |].
  { intros [r h'] E. by apply Hd. }
  intros [next h'] Hal'. cbn in Hal'. rewrite (proj2 (Z.eqb_neq next 0)) by (eapply al_nonnull; [done|set_solver]).
  unfold copy_name. cbn [d_name cleared_device]. rewrite length_replicate.
  rewrite (proj2 (Nat.leb_gt _ _)) by (unfold DEVICE_NAME_SIZE; lia). rewrite bind_done.
  split; [apply rop_done|]. intros x [= <-]. cbn [fst snd].
  match goal with |- ∃ d next, (_ ++ [?e; _])%list = _ ∧ _ => set (d := e) end.
  assert (Hfm : full_major d = M) by exact EM.
  exists d, next. split_and!; try done; [|by unfold cname; rewrite Hfm].
  apply devices_ok_snoc; [done|]. split; rewrite ?Hfm; try done.
  eexists. cbn [d_name d]. do 2 f_equal. apply (drop_replicate _ 31 0).
Qed.

(** C39: A created device is found by its name.  On a well-formed list, for a major number
    with an identifier of its own and fewer than 246 devices of it, [device_create]
    returns or panics in the heap.  It appends one device with the given number, identity
    and control structure, the list stays well formed, and then every device, old or new,
    is what [device_search] returns for its name. *)
Theorem device_create_registers control M id ds a (L : gset Z) (h : A) :
  devices_ok ds → al_ok L h → M ∈ named_majors → count_of M ds < 246 →
  returns_or_panics (device_create control M id (ds ++ [cleared_device a])%list h) ∧
  ∀ name l' h', device_create control M id (ds ++ [cleared_device a])%list h = Done (name, l', h') →
    ∃ d next, l' = (ds ++ [d] ++ [cleared_device next])%list ∧ al_ok ({[next]} ∪ L) h' ∧
      devices_ok (ds ++ [d])%list ∧ full_major d = M ∧ d_internal_id d = id ∧ d_control d = control ∧ name = cname d ∧
      ∀ e, e ∈ (ds ++ [d])%list → device_search (cname e) l' = Done (Some e).
Proof.
  intros Hds Hal HM Hc. destruct (device_create_ok control M id ds a L h Hds Hal HM Hc) as [Hr Hd].
  split; [done|]. intros name l' h' E. destruct (Hd _ E) as (d & next & El' & Hal' & Hok & HM' & ? & ? & ?).
  cbn [fst snd] in El'. subst l'. exists d, next. split_and!; try done. intros e He.
  apply list_elem_of_split in He as (l1 & l2 & El). rewrite app_assoc, El. apply search_own. by rewrite <- El.
Qed.
End Create.

(** Two devices of the same kind on the kernel heap. *)
Definition hda : device := Device 0x100 0 1 8 0 (chars "hda" ++ replicate 29 0)%list 7 0.

Lemma one_device : devices_ok [hda].
Proof.
  intros before d after E. destruct before as [|x [|y before]]; simplify_list_eq.
  split; try done; [by left|by exists 28%nat].
Qed.

Lemma device_create_registers_witness :
  ∃ l' h', @device_create _ kmalloc_allocator 0 8 9 [hda; cleared_device 0x140] kernel1 = Done (chars "hdb", l', h') ∧
    device_search (chars "hda") l' = Done (Some hda).
Proof.
  destruct (@device_create_registers _ _ kmalloc_allocator_ok 0 8 9 [hda] 0x140 ∅ kernel1) as [_ Hd].
  - apply one_device.
  - apply kernel1_alloc.
  - by left.
  - done.
  - destruct (is_done_returns (@device_create _ kmalloc_allocator 0 8 9 [hda; cleared_device 0x140] kernel1))
      as [[[name l'] h'] E]; [by vm_compute|].
    destruct (Hd name l' h' E) as (d & next & El & _ & Hok & HM & Hid & Hc & Hn & Hs).
    assert (Hname : name = chars "hdb").
    { destruct (Hok [hda] d [] eq_refl) as [_ _ _ _ Hm _ _]. rewrite Hn. unfold cname. by rewrite Hm, HM. }
    exists l', h'. split; [by rewrite E, Hname|]. apply (Hs hda). by left.
Defined.

(** ** Input and output *)
Section Dispatched.
Context {W : Type}.
Implicit Types (rg : registry W).

Lemma dispatch_passed {R} rg n (via_net : _ → _ → option R) via_file before l :
  Forall (passed n) before →
  dispatch rg n via_net via_file (before ++ l)%list = dispatch rg n via_net via_file l.
Proof.
  induction 1 as [|e before [Hv Hm] _ IH]; [done|]. cbn [app dispatch]. rewrite Hv, Hm. exact IH.
Qed.

(** No network driver answers for the block devices of this number. *)
Definition no_network rg (d : device) : Prop :=
  d_bc d = 0 → dd_nops (rg_net rg (d_major d)) = None ∧ dd_registered (rg_net rg (d_major d)) = 0.

Lemma dispatch_own {R} rg (via_net : _ → _ → option R) via_file before d after a ops r :
  devices_ok (before ++ d :: after)%list → no_network rg d →
  dd_registered (driver_of rg d) = 1 → dd_fops (driver_of rg d) = Some ops → via_file d ops = Some r →
  dispatch rg (cname d) via_net via_file ((before ++ d :: after) ++ [cleared_device a])%list = Done (Some r).
Proof.
  intros Hok Hnet Hreg Hops Hr. destruct (own_name_first _ _ _ Hok) as [Hb Hm].
  assert (Hd : device_ok before d) by (by eapply Hok).
  rewrite <- app_assoc, dispatch_passed by done. cbn [app dispatch]. rewrite (do_valid _ _ Hd), Hm. cbn [Z.eqb].
  rewrite bind_done. unfold driver_of, registered in *. destruct (Z.eqb_spec (d_bc d) 0) as [E|E].
  - destruct (Hnet E) as [-> _]. rewrite Hreg, Hops. cbn. by rewrite Hr.
  - rewrite Hreg, Hops. cbn. by rewrite Hr.
Qed.

Lemma dispatch_spins {R} rg (via_net : _ → _ → option R) via_file before d after a :
  devices_ok (before ++ d :: after)%list → no_network rg d → dd_registered (driver_of rg d) = 0 →
  dispatch rg (cname d) via_net via_file ((before ++ d :: after) ++ [cleared_device a])%list = Spin.
Proof.
  intros Hok Hnet Hreg. destruct (own_name_first _ _ _ Hok) as [Hb Hm].
  assert (Hd : device_ok before d) by (by eapply Hok).
  rewrite <- app_assoc, dispatch_passed by done. cbn [app dispatch]. rewrite (do_valid _ _ Hd), Hm. cbn [Z.eqb].
  rewrite bind_done. unfold driver_of, registered in *. destruct (Z.eqb_spec (d_bc d) 0) as [E|E].
  - destruct (Hnet E) as [_ ->]. by rewrite Hreg.
  - by rewrite Hreg.
Qed.

(** Input and output on a device reach its driver.  For a device of a well-formed list
    whose major number has a registered driver, reading, writing and control by the name of
    the device are calls of the driver's operation with the identity of this device, and
    nothing else; while the driver is not registered, the three calls never return. *)
Theorem device_io_reaches_driver rg ds d a size offset buffer op data w :
  devices_ok ds → rg_devices rg = (ds ++ [cleared_device a])%list → d ∈ ds → no_network rg d →
  (∀ ops, dd_registered (driver_of rg d) = 1 → dd_fops (driver_of rg d) = Some ops →
     (∀ f, fo_read ops = Some f → device_read rg (cname d) size offset w = f (d_internal_id d) size offset w) ∧
     (∀ f, fo_write ops = Some f →
        device_write rg (cname d) size offset buffer w = f (d_internal_id d) size offset buffer w) ∧
     (∀ f, fo_ioctl ops = Some f → device_ioctl rg (cname d) op data w = f (d_internal_id d) (u32 op) data w)) ∧
  (dd_registered (driver_of rg d) = 0 →
     device_read rg (cname d) size offset w = Spin ∧ device_write rg (cname d) size offset buffer w = Spin ∧
     device_ioctl rg (cname d) op data w = Spin).
Proof.
  intros Hok Hl (before & after & ->)%list_elem_of_split Hnet.
  unfold device_read, device_write, device_ioctl. rewrite Hl. split.
  - intros ops Hreg Hops. split_and!; intros f Hf; erewrite dispatch_own; try done; cbn; by rewrite Hf.
  - intros Hreg. by rewrite !dispatch_spins by done.
Qed.
End Dispatched.

(** A disk driver that returns the identity of the device. *)
Definition echo_ops : file_operations unit :=
  FileOps (Some (λ id _ _ w, Done (id, [], w))) (Some (λ id _ _ _ w, Done (id, w))) None.
Definition disk_registry : registry unit :=
  register_block 8 (chars "DISK") echo_ops
    (Registry [hda; cleared_device 0x140] (λ _, DeviceDriver None None 0 []) (λ _, DeviceDriver None None 0 [])
       (λ _, DeviceDriver None None 0 [])).

Lemma device_io_reaches_driver_witness : device_write disk_registry (chars "hda") 1 0 [65] tt = Done (7, tt).
Proof.
  destruct (device_io_reaches_driver disk_registry [hda] hda 0x140 1 0 [65] 0 0 tt) as [H _].
  - apply one_device.
  - done.
  - by left.
  - done.
  - destruct (H echo_ops eq_refl eq_refl) as (_ & Hw & _). exact (Hw _ eq_refl).
Defined.

(** ** Destroying a device *)
(** A device begins with a flag byte that is no letter, so comparing its name with the device
    itself never succeeds: [device_destroy] leaves every list as it is. *)
Theorem device_destroy_keeps {A} (free_page : Z → A → outcome A) name ds a h :
  devices_ok ds → name ≠ [] →
  device_destroy free_page name (ds ++ [cleared_device a])%list h = Done ((ds ++ [cleared_device a])%list, h).
Proof.
  intros Hok Hn. unfold device_destroy. cut (∀ prev rest, ds = (prev ++ rest)%list →
    destroy_from free_page name prev (rest ++ [cleared_device a])%list h = Done ((ds ++ [cleared_device a])%list, h));
    [intros Hc; by apply (Hc [])|].
  intros prev rest. revert prev. induction rest as [|d rest IH]; intros prev E.
  - cbn. by rewrite E, app_nil_r.
  - cbn [app destroy_from]. assert (Hd : device_ok prev d) by (by eapply Hok). rewrite (do_valid _ _ Hd). cbn [Z.eqb].
    assert (Hm : same_bytes (List.length name) (d_name d) (struct_bytes d) = Done false).
    { destruct name as [|c name]; [done|]. destruct (do_name _ _ Hd) as [k ->]. unfold struct_bytes.
      rewrite (do_valid _ _ Hd), (do_bc _ _ Hd). pose proof (do_major _ _ Hd) as HM.
      unfold dev_name. revert HM. generalize (full_major d). intros M HM. unfold named_majors in HM.
      repeat (apply elem_of_cons in HM as [->|HM]; [done|]). by apply elem_of_nil in HM. }
    rewrite Hm, bind_done. apply IH. by rewrite <- app_assoc.
Qed.
