(* ===== verification/Ring.v ===== *)
(** * Rings

    A queue in an array of [n] cells: element [i] is in the cell [i] places after the head,
    modulo [n].  Shared by the queue devices and the buffers of a terminal. *)
From S2P Require Import Prelude.
#[local] Open Scope Z_scope.

Record ring_holds (n : Z) (cells : list Z) (head : Z) (q : list Z) : Prop := {
  rh_length : Z.of_nat (List.length cells) = n;
  rh_head : 0 ≤ head < n;
  rh_fits : Z.of_nat (List.length q) ≤ n;
  rh_cells i : (i < List.length q)%nat → cells !! Z.to_nat ((head + Z.of_nat i) mod n) = q !! i;
}.

Lemma ring_pos h i n : 0 ≤ h < n → 0 ≤ i < n → (h + i) mod n = if h + i <? n then h + i else h + i - n.
Proof.
  intros Hh Hi. destruct (Z.ltb_spec (h + i) n); [by apply Z.mod_small; lia|].
  symmetry. apply (Z.mod_unique_pos _ _ 1); lia.
Qed.

Lemma ring_inj h i j n : 0 ≤ h < n → 0 ≤ i < n → 0 ≤ j < n → (h + i) mod n = (h + j) mod n → i = j.
Proof.
  intros Hh Hi Hj. rewrite !ring_pos by done. destruct (Z.ltb_spec (h + i) n), (Z.ltb_spec (h + j) n); lia.
Qed.

Lemma ring_start h n : 0 ≤ h < n → (h + 0) mod n = h.
Proof. intros. rewrite Z.add_0_r. by apply Z.mod_small. Qed.

(** The cell after [p]. *)
Lemma ring_next p n : 0 ≤ p < n → (p + 1) mod n = if p + 1 >=? n then 0 else p + 1.
Proof.
  intros Hp. destruct (Z.geb_spec (p + 1) n); [|apply Z.mod_small; lia].
  replace (p + 1) with n by lia. apply Z.mod_same. lia.
Qed.

(** Head and tail coincide for the empty and for the full ring only. *)
Lemma ring_meets h k n : 0 ≤ h < n → 0 ≤ k ≤ n → (h = (h + k) mod n ↔ k = 0 ∨ k = n).
Proof.
  intros Hh Hk. destruct (decide (k = n)) as [->|Hn].
  { replace (h + n) with (h + 1 * n) by lia. rewrite Z.mod_add, Z.mod_small by lia. naive_solver. }
  split; [|intros [->| ->]; [by rewrite ring_start|done]].
  intros E. rewrite <- (ring_start h n Hh) in E at 1. apply ring_inj in E; lia.
Qed.

Lemma ring_nil n cells h : Z.of_nat (List.length cells) = n → 0 ≤ h < n → ring_holds n cells h [].
Proof. intros. split; [done|done|cbn; lia|]. intros i Hi. cbn in Hi. lia. Qed.

Lemma ring_put_tail n cells h q c :
  ring_holds n cells h q → Z.of_nat (List.length q) < n →
  ring_holds n (<[Z.to_nat ((h + Z.of_nat (List.length q)) mod n) := c]> cells) h (q ++ [c]).
Proof.
  intros [Hl Hh Hf Hb] Hlt. pose proof (Z.mod_pos_bound (h + Z.of_nat (List.length q)) n) as Hp.
  split; rewrite ?length_insert, ?length_app; cbn; try done; [lia|]. intros i Hi.
  destruct (decide (i = List.length q)) as [->|Hne].
  - rewrite list_lookup_insert_eq by lia. by rewrite lookup_app_r, Nat.sub_diag by lia.
  - rewrite list_lookup_insert_ne.
    { rewrite Hb by lia. symmetry. apply lookup_app_l. lia. }
    intros E. pose proof (Z.mod_pos_bound (h + Z.of_nat i) n). apply Z2Nat.inj in E; [|lia..]. apply ring_inj in E; lia.
Qed.

Lemma ring_get_head n cells h c q :
  ring_holds n cells h (c :: q) → cells !! Z.to_nat h = Some c ∧ ring_holds n cells ((h + 1) mod n) q.
Proof.
  intros [Hl Hh Hf Hb]. cbn [List.length] in *. split.
  - rewrite <- (ring_start h n Hh). apply (Hb 0%nat). lia.
  - split; try done; [apply Z.mod_pos_bound; lia|lia|]. intros i Hi. rewrite Zplus_mod_idemp_l.
    change (q !! i) with ((c :: q) !! S i). rewrite <- Hb by lia. do 3 f_equal. lia.
Qed.

(** A queue that does not wrap lies in one piece. *)
Lemma ring_slice n cells h q :
  ring_holds n cells h q → h + Z.of_nat (List.length q) ≤ n → take (List.length q) (drop (Z.to_nat h) cells) = q.
Proof.
  intros [Hl Hh Hf Hb] Hn. apply list_eq. intros i. destruct (decide (i < List.length q)%nat) as [Hi|Hi].
  - rewrite lookup_take_lt, lookup_drop by done. rewrite <- Hb by done. rewrite Z.mod_small by lia. f_equal. lia.
  - rewrite lookup_take_ge by lia. symmetry. apply lookup_ge_None. lia.
Qed.
