(* ===== verification/Fifo.v ===== *)
(** * Queues as devices (src/src/devices/fifo/fifo.c, src/src/drivers/fifo)

    A byte queue in a ring that keeps one slot free, and the driver that makes queues
    readable and writable through the device registry.  The driver's state holds the queues
    by address; the identity of a queue device is the address of its queue. *)
From stdpp Require Import gmap.
From S2P Require Import Prelude PageService Alloc Paging PageAlloc Heap KernelHeap Ring Devices DevicesSpec.
#[local] Open Scope Z_scope.

Definition FIFO_MAJOR : Z := 0x8e.
Definition IOCTL_FIFO_FLUSH : Z := 1.
Definition IOCTL_FIFO_VALIDATE : Z := 2.
Definition IOCTL_FIFO_GET_SIZE : Z := 3.
Definition sizeof_fifo : Z := 40.

(** [ff_block] is the address of the bytes [ff_buf]. *)
Record fifo := Fifo { ff_block : Z; ff_buf : list Z; ff_head : Z; ff_tail : Z; ff_size : Z }.

Definition with_fifo_head v f := Fifo (ff_block f) (ff_buf f) v (ff_tail f) (ff_size f).
Definition with_fifo_tail v f := Fifo (ff_block f) (ff_buf f) (ff_head f) v (ff_size f).
Definition with_fifo_buf b f := Fifo (ff_block f) b (ff_head f) (ff_tail f) (ff_size f).

(** Unsigned remainder; by zero it is a processor fault. *)
Definition umod (x y : Z) : outcome Z := if y =? 0 then Fault else Done (x mod y).

Abbreviation fifos := (gmap Z fifo).

Section Heap.
Context {A : Type} `{Allocator A}.

(** [junk] is what the block of the bytes contains. *)
Definition fifo_alloc (size : Z) (junk : list Z) (w : fifos) (h : A) : outcome (Z * fifos * A) :=
  '(fifo, h) ← al_malloc sizeof_fifo h;
  if fifo =? 0 then Done (0, w, h) else
  '(buf, h) ← al_malloc size h;
  Done (fifo, <[fifo := Fifo buf junk 0 0 size]> w, h).

Definition fifo_kfree (fifo : Z) (w : fifos) (h : A) : outcome (fifos * A) :=
  f ← known (w !! fifo);
  h ← al_free (ff_block f) h;
  h ← al_free fifo h;
  Done (delete fifo w, h).

(** The name of the new device; [None] when there is no memory. *)
Definition create_fifo (size : Z) (junk : list Z) (l : list device) (w : fifos) (h : A) :
    outcome (option (list Z) * list device * fifos * A) :=
  '(fifo, w, h) ← fifo_alloc size junk w h;
  if fifo =? 0 then Done (None, l, w, h) else
  '(name, l, h) ← device_create 0 FIFO_MAJOR fifo l h;
  Done (Some name, l, w, h).

Definition destroy_fifo (free_page : Z → A → outcome A) (name : list Z) (l : list device) (w : fifos) (h : A) :
    outcome (list device * fifos * A) :=
  d ← device_search name l;
  fifo_dev ← known d;
  '(w, h) ← fifo_kfree (d_internal_id fifo_dev) w h;
  '(l, h) ← device_destroy free_page name l h;
  Done (l, w, h).
End Heap.

Definition fifo_put (f : fifo) (data : Z) : outcome (Z * fifo) :=
  t ← umod (u64 (ff_tail f + 1)) (ff_size f);
  if ff_head f =? t then Done (0, f) else
  if Z.of_nat (List.length (ff_buf f)) <=? ff_tail f then Fault else
  let f := with_fifo_buf (<[Z.to_nat (ff_tail f) := data]> (ff_buf f)) f in
  Done (1, with_fifo_tail t f).

Definition fifo_get (f : fifo) : outcome (Z * fifo) :=
  if ff_head f =? ff_tail f then Done (0, f) else
  data ← known (ff_buf f !! Z.to_nat (ff_head f));
  h ← umod (u64 (ff_head f + 1)) (ff_size f);
  Done (data, with_fifo_head h f).

Definition fifo_size (f : fifo) : outcome Z :=
  umod (u64 (ff_tail f - ff_head f + ff_size f)) (ff_size f).

Definition fifo_flush (f : fifo) : fifo := with_fifo_tail 0 (with_fifo_head 0 f).

(** One turn of the loop of [fifo_dd_read], on the bytes stored, what is left to skip and
    the queue. *)
Definition fifo_read_step (size : Z) (st : list Z * Z * fifo) : outcome (list Z * Z * fifo + list Z * fifo) :=
  let '(out, skip, f) := st in
  if Z.of_nat (List.length out) <? size then
    n ← fifo_size f;
    if n >? 0 then
      '(b, f) ← fifo_get f;
      if skip >? 0 then Done (inl (out, skip - 1, f)) else Done (inl ((out ++ [b])%list, skip, f))
    else Done (inr (out, f))
  else Done (inr (out, f)).

(** Every turn takes a byte, so the loop ends within the capacity. *)
Definition fifo_dd_read (port size skip : Z) (w : fifos) : outcome (Z * list Z * fifos) :=
  f ← known (w !! port);
  '(out, f) ← loop (S (Z.to_nat (ff_size f))) (fifo_read_step size) ([], skip, f);
  Done (Z.of_nat (List.length out), out, <[port := f]> w).

Definition fifo_dd_write (port size skip : Z) (buffer : list Z) (w : fifos) : outcome (Z * fifos) :=
  f ← known (w !! port);
  f ← for_up (Z.to_nat size) 0 (λ i f, b ← known (buffer !! Z.to_nat i); '(_, f) ← fifo_put f b; Done f) f;
  Done (size, <[port := f]> w).

Definition fifo_dd_ioctl (port op data : Z) (w : fifos) : outcome (Z * fifos) :=
  f ← known (w !! port);
  if op =? IOCTL_FIFO_FLUSH then Done (1, <[port := fifo_flush f]> w) else
  if op =? IOCTL_FIFO_GET_SIZE then n ← fifo_size f; Done (n, w) else
  if op =? IOCTL_FIFO_VALIDATE then Done (1, w) else Done (0, w).

Definition fifo_fops : file_operations fifos :=
  FileOps (Some fifo_dd_read) (Some fifo_dd_write) (Some fifo_dd_ioctl).

Definition init_fifo_dd (name : list Z) (rg : registry fifos) : registry fifos :=
  register_char FIFO_MAJOR name fifo_fops rg.

(** ** The queue *)
Record holds_queue (f : fifo) (q : list Z) : Prop := {
  hq_size : 0 < ff_size f < 2 ^ 63;
  hq_ring : ring_holds (ff_size f) (ff_buf f) (ff_head f) q;
  hq_fits : Z.of_nat (List.length q) < ff_size f;
  hq_tail : ff_tail f = (ff_head f + Z.of_nat (List.length q)) mod ff_size f;
}.

Lemma umod_ok x y : 0 < y → umod x y = Done (x mod y).
Proof. intros. unfold umod. by rewrite (proj2 (Z.eqb_neq y 0)) by lia. Qed.

Lemma fifo_size_ok f q : holds_queue f q → fifo_size f = Done (Z.of_nat (List.length q)).
Proof.
  intros [Hs Hr Hf Ht]. pose proof (rh_head _ _ _ _ Hr) as Hh. unfold fifo_size. rewrite umod_ok by lia. f_equal.
  rewrite Ht, (ring_pos _ _ _ Hh) by lia. destruct (Z.ltb_spec (ff_head f + Z.of_nat (List.length q)) (ff_size f)).
  - rewrite u64_small by lia.
    replace (ff_head f + Z.of_nat (List.length q) - ff_head f + ff_size f)
      with (Z.of_nat (List.length q) + 1 * ff_size f) by lia. rewrite Z.mod_add by lia. apply Z.mod_small. lia.
  - rewrite u64_small by lia. rewrite Z.mod_small by lia. lia.
Qed.

Lemma fifo_put_ok f q b :
  holds_queue f q →
  ∃ f', fifo_put f b = Done (b2z (Z.of_nat (List.length q) + 1 <? ff_size f), f') ∧ ff_size f' = ff_size f ∧
    holds_queue f' (if Z.of_nat (List.length q) + 1 <? ff_size f then (q ++ [b])%list else q).
Proof.
  intros Hq. pose proof Hq as [Hs Hr Hf Ht]. pose proof (rh_head _ _ _ _ Hr) as Hh. pose proof (rh_length _ _ _ _ Hr) as Hl.
  pose proof (Z.mod_pos_bound (ff_head f + Z.of_nat (List.length q)) (ff_size f)) as Hp.
  unfold fifo_put. rewrite umod_ok, bind_done, Ht, u64_small, Zplus_mod_idemp_l, <- Z.add_assoc by lia.
  destruct (Z.ltb_spec (Z.of_nat (List.length q) + 1) (ff_size f)) as [Hlt|Hge].
  - rewrite (proj2 (Z.eqb_neq _ _)) by (rewrite ring_meets; lia).
    rewrite (proj2 (Z.leb_gt _ _)) by lia. eexists. split; [done|]. split; [done|].
    split; cbn; try done; [by apply ring_put_tail| |]; rewrite length_app; cbn; [lia|]. f_equal. lia.
  - rewrite (proj2 (Z.eqb_eq _ _)) by (apply ring_meets; lia). by exists f.
Qed.

Lemma fifo_get_ok f b q :
  holds_queue f (b :: q) → ∃ f', fifo_get f = Done (b, f') ∧ ff_size f' = ff_size f ∧ holds_queue f' q.
Proof.
  intros [Hs Hr Hf Ht]. pose proof (rh_head _ _ _ _ Hr) as Hh. cbn [List.length] in *. unfold fifo_get.
  rewrite (proj2 (Z.eqb_neq _ _)) by (rewrite Ht, ring_meets; lia).
  destruct (ring_get_head _ _ _ _ _ Hr) as [-> Hr']. cbn [known]. rewrite bind_done, umod_ok, bind_done, u64_small by lia.
  eexists. split; [done|]. split; [done|]. split; cbn; try done; [lia|].
  rewrite Ht, Zplus_mod_idemp_l. f_equal. lia.
Qed.

(** ** The driver *)
(** Writing: what does not fit is dropped. *)
Lemma fifo_puts_ok size l1 l2 f q n :
  ff_size f = size → holds_queue f q → List.length l2 = n →
  ∃ f', for_up n (Z.of_nat (List.length l1)) (λ i f, b ← known ((l1 ++ l2)%list !! Z.to_nat i); '(_, f) ← fifo_put f b; Done f) f
        = Done f' ∧ ff_size f' = size ∧ holds_queue f' (take (Z.to_nat size - 1) (q ++ l2)).
Proof.
  revert l1 l2 f q. induction n as [|n IH]; intros l1 l2 f q Hsz Hq Hn; cbn [for_up].
  - destruct l2; [|done]. exists f. rewrite app_nil_r, take_ge; [done|]. pose proof (hq_fits _ _ Hq). lia.
  - destruct l2 as [|b l2]; [done|]. injection Hn as Hn. rewrite Nat2Z.id, list_lookup_middle by done. cbn [known].
    rewrite bind_done. destruct (fifo_put_ok f q b Hq) as (f1 & -> & Hs1 & Hq1). rewrite !bind_done.
    replace (Z.of_nat (List.length l1) + 1) with (Z.of_nat (List.length (l1 ++ [b])%list)) by (rewrite length_app; cbn; lia).
    assert (El : (l1 ++ b :: l2 = (l1 ++ [b]) ++ l2)%list) by (by rewrite <- app_assoc). rewrite El.
    destruct (IH (l1 ++ [b])%list l2 f1 _ (eq_trans Hs1 Hsz) Hq1 Hn) as (f2 & E & Hs2 & Hq2).
    exists f2. split; [done|]. split; [done|]. rewrite Hsz in Hq2.
    destruct (Z.ltb_spec (Z.of_nat (List.length q) + 1) size).
    + by rewrite <- app_assoc in Hq2.
    + pose proof (hq_fits _ _ Hq). assert (Hlen : List.length q = (Z.to_nat size - 1)%nat) by lia.
      by rewrite take_app_length' in Hq2 |- * by done.
Qed.

(** Reading: skipping, then taking. *)
Lemma fifo_reads_ok size fuel out skip f q :
  0 ≤ skip → holds_queue f q → Z.of_nat (List.length out) ≤ size → (List.length q < fuel)%nat →
  (size = Z.of_nat (List.length out) → skip = 0) →
  ∃ f', loop fuel (fifo_read_step size) (out, skip, f) =
        Done ((out ++ take (Z.to_nat size - List.length out) (drop (Z.to_nat skip) q))%list, f') ∧
    ff_size f' = ff_size f ∧ holds_queue f' (drop (Z.to_nat skip + (Z.to_nat size - List.length out)) q).
Proof.
  revert out skip f q. induction fuel as [|fuel IH]; intros out skip f q Hsk Hq Ho Hf H0; [lia|].
  cbn [loop]. unfold fifo_read_step at 2.
  destruct (Z.ltb_spec (Z.of_nat (List.length out)) size) as [Hlt|Hge]; cbv beta iota.
  2: { rewrite bind_done, H0 by lia. replace (Z.to_nat size - List.length out)%nat with 0%nat by lia.
       exists f. by rewrite app_nil_r. }
  rewrite (fifo_size_ok _ _ Hq), bind_done. destruct q as [|b q].
  { rewrite gtb_false by (cbn; lia). rewrite bind_done. exists f. by rewrite !drop_nil, take_nil, app_nil_r. }
  rewrite gtb_true by (cbn; lia). destruct (fifo_get_ok f b q Hq) as (f1 & -> & Hs1 & Hq1). rewrite bind_done.
  destruct (Z.gtb_spec skip 0) as [Hs|Hs]; rewrite bind_done.
  - destruct (IH out (skip - 1) f1 q) as (f2 & E & Hs2 & Hq2); [lia|done|lia|cbn in *; lia|lia|].
    exists f2. replace (Z.to_nat skip) with (S (Z.to_nat (skip - 1))) by lia. split; [done|]. split; [congruence|done].
  - assert (skip = 0) as -> by lia. destruct (IH (out ++ [b])%list 0 f1 q) as (f2 & E & Hs2 & Hq2);
      rewrite ?length_app in *; cbn [List.length] in *; [lia|done|lia|lia|lia|].
    exists f2. replace (Z.to_nat size - List.length out)%nat with (S (Z.to_nat size - (List.length out + 1))) by lia.
    rewrite <- app_assoc in E. split; [done|]. split; [congruence|done].
Qed.

(** The driver on a queue. *)
Lemma fifo_dd_ok port (w : fifos) f q bs size skip :
  w !! port = Some f → holds_queue f q → 0 ≤ skip → 0 < size →
  let n := Z.of_nat (List.length bs) in
  let out := take (Z.to_nat size) (drop (Z.to_nat skip) q) in
  (∃ f', fifo_dd_write port n 0 bs w = Done (n, <[port := f']> w) ∧ ff_size f' = ff_size f ∧
     holds_queue f' (take (Z.to_nat (ff_size f) - 1) (q ++ bs))) ∧
  (∃ f', fifo_dd_read port size skip w = Done (Z.of_nat (List.length out), out, <[port := f']> w) ∧
     ff_size f' = ff_size f ∧ holds_queue f' (drop (Z.to_nat skip + Z.to_nat size) q)) ∧
  fifo_dd_ioctl port IOCTL_FIFO_GET_SIZE 0 w = Done (Z.of_nat (List.length q), w).
Proof.
  intros Hf Hq Hskip Hsize n out. split_and!.
  - destruct (fifo_puts_ok _ [] bs f q (List.length bs) eq_refl Hq eq_refl) as (f' & E & Hs & Hq').
    exists f'. split; [|done]. unfold fifo_dd_write. rewrite Hf. cbn [known]. rewrite bind_done.
    subst n. rewrite Nat2Z.id. cbn [app List.length] in E. change (Z.of_nat 0) with 0 in E. by rewrite E.
  - destruct (fifo_reads_ok size (S (Z.to_nat (ff_size f))) [] skip f q) as (f' & E & Hs & Hq'); try done.
    { cbn. lia. }
    { pose proof (hq_fits _ _ Hq). lia. }
    { cbn. lia. }
    cbn [List.length] in E, Hq'. rewrite Nat.sub_0_r in E, Hq'. exists f'. split; [|done].
    unfold fifo_dd_read. rewrite Hf. cbn [known]. rewrite bind_done, E. done.
  - unfold fifo_dd_ioctl. rewrite Hf. cbn. by rewrite (fifo_size_ok _ _ Hq).
Qed.

(** C28: A queue device is a bounded byte queue, through the registry.  With the driver
    installed, writing to the device by name appends the bytes as far as they fit below the
    capacity (and reports them all written); reading skips and then takes bytes in order,
    returns their number and removes them; asking for the size returns the number of bytes
    queued; no other queue changes. *)
Theorem fifo_device_queue driver_name rg0 ds d a (w : fifos) f q bs size skip (rg := init_fifo_dd driver_name rg0) :
  devices_ok ds → rg_devices rg0 = (ds ++ [cleared_device a])%list → d ∈ ds → full_major d = FIFO_MAJOR →
  w !! d_internal_id d = Some f → holds_queue f q → 0 ≤ skip → 0 < size →
  let n := Z.of_nat (List.length bs) in
  let out := take (Z.to_nat size) (drop (Z.to_nat skip) q) in
  (∃ f', device_write rg (cname d) n 0 bs w = Done (n, <[d_internal_id d := f']> w) ∧
     holds_queue f' (take (Z.to_nat (ff_size f) - 1) (q ++ bs))) ∧
  (∃ f', device_read rg (cname d) size skip w = Done (Z.of_nat (List.length out), out, <[d_internal_id d := f']> w) ∧
     holds_queue f' (drop (Z.to_nat skip + Z.to_nat size) q)) ∧
  device_ioctl rg (cname d) IOCTL_FIFO_GET_SIZE 0 w = Done (Z.of_nat (List.length q), w).
Proof.
  intros Hok Hl (before & after & ->)%list_elem_of_split HM Hf Hq Hskip Hsize n out.
  assert (Hd : device_ok before d) by (by eapply Hok).
  assert (Hbc : d_bc d = 1) by (rewrite (do_bc _ _ Hd), HM; done).
  assert (Hlow : d_major d = 0xe) by (rewrite (do_low _ _ Hd), HM; done).
  assert (Hdrv : driver_of rg d = DeviceDriver (Some fifo_fops) None 1 driver_name).
  { unfold driver_of. by rewrite Hbc, Hlow. }
  assert (Hnet : no_network rg d) by (intros ?; lia).
  assert (Hreg : dd_registered (driver_of rg d) = 1) by (by rewrite Hdrv).
  assert (Hops : dd_fops (driver_of rg d) = Some fifo_fops) by (by rewrite Hdrv).
  unfold device_write, device_read, device_ioctl. change (rg_devices rg) with (rg_devices rg0). rewrite Hl.
  destruct (fifo_dd_ok (d_internal_id d) w f q bs size skip Hf Hq Hskip Hsize) as ((f1 & E1 & _ & H1) & (f2 & E2 & _ & H2) & E3).
  split_and!; erewrite (dispatch_own rg _ _ before d after a fifo_fops) by (done || reflexivity); rewrite bind_done;
    [by exists f1|by exists f2|done].
Qed.

(** A queue of four bytes that holds one, in the second slot, as device fifoa. *)
Definition fifoa : device := Device 0x100 1 1 14 0 ([102; 105; 102; 111; 97] ++ replicate 27 0)%list 0x500 0.
Definition queue1 : fifo := Fifo 0x600 [0; 7; 0; 0] 1 2 4.
Definition fifo_registry : registry fifos :=
  Registry [fifoa; cleared_device 0x140] (λ _, DeviceDriver None None 0 []) (λ _, DeviceDriver None None 0 [])
    (λ _, DeviceDriver None None 0 []).

Lemma fifo_device_queue_witness :
  ∃ f', device_write (init_fifo_dd [] fifo_registry) (cname fifoa) 3 0 [1; 2; 3] {[0x500 := queue1]} =
        Done (3, {[0x500 := f']}) ∧ holds_queue f' [7; 1; 2].
Proof.
  destruct (fifo_device_queue [] fifo_registry [fifoa] fifoa 0x140 {[0x500 := queue1]} queue1 [7] [1; 2; 3] 1 0)
    as [(f' & E & Hq) _].
  - intros before d after E. destruct before as [|x [|y before]]; simplify_list_eq.
    split; try done; [by do 10 right; left|by exists 26%nat].
  - done.
  - by left.
  - done.
  - apply lookup_insert_eq.
  - split; try done. split; try done. intros [|i] Hi; [done|cbn in Hi; lia].
  - done.
  - done.
  - exists f'. split; [|exact Hq]. cbn [d_internal_id fifoa] in E. by rewrite insert_singleton_eq in E.
Defined.

Section Creation.
Context {A : Type} `{AllocatorOk A}.

Lemma fifo_alloc_ok size junk (w : fifos) (L : gset Z) (h : A) :
  al_ok L h → 0 < size < 2 ^ 32 →
  returns_or_panics (fifo_alloc size junk w h) ∧
  ∀ x, fifo_alloc size junk w h = Done x →
    ∃ p buf, x.1 = (p, <[p := Fifo buf junk 0 0 size]> w) ∧ p ≠ 0 ∧ (p ∉ L) ∧ al_ok ({[buf; p]} ∪ L) x.2.
Proof.
  intros Hal Hs. unfold fifo_alloc. destruct (al_malloc_ok L sizeof_fifo h Hal) as [Hr1 Hd1]; [done|].
  apply (rop_bind (λ x, (x.1 ∉ L) ∧ al_ok ({[x.1]} ∪ L) x.2)); [done|by intros [r h1] E; apply Hd1|].
  intros [p h1] [Hp Hal1]. cbn in Hp, Hal1. assert (Hp0 : p ≠ 0) by (eapply al_nonnull; [exact Hal1|set_solver]).
  rewrite (proj2 (Z.eqb_neq p 0)) by done. destruct (al_malloc_ok _ size h1 Hal1) as [Hr2 Hd2]; [done|].
  apply (rop_bind (λ x, al_ok ({[x.1]} ∪ ({[p]} ∪ L)) x.2)); [done|by intros [r h2] E; apply Hd2|].
  intros [buf h2] Hal2. split; [apply rop_done|]. intros x [= <-]. exists p, buf. split_and!; try done.
  eapply (eq_rect _ (λ X, al_ok X h2) Hal2). set_solver.
Qed.

(** A created queue is a new device with an empty queue behind it. *)
Theorem create_fifo_ready size junk ds a (w : fifos) (L : gset Z) (h : A) :
  devices_ok ds → al_ok L h → count_of FIFO_MAJOR ds < 246 → 0 < size < 2 ^ 32 → Z.of_nat (List.length junk) = size →
  returns_or_panics (create_fifo size junk (ds ++ [cleared_device a])%list w h) ∧
  ∀ x, create_fifo size junk (ds ++ [cleared_device a])%list w h = Done x →
    ∃ d f next, x.1.1.1 = Some (cname d) ∧ x.1.1.2 = (ds ++ [d] ++ [cleared_device next])%list ∧
      devices_ok (ds ++ [d])%list ∧ full_major d = FIFO_MAJOR ∧
      x.1.2 = <[d_internal_id d := f]> w ∧ holds_queue f [] ∧
      (d_internal_id d ∉ L) ∧ al_ok ({[next; ff_block f; d_internal_id d]} ∪ L) x.2.
Proof.
  intros Hds Hal Hc Hs Hj. unfold create_fifo. destruct (fifo_alloc_ok size junk w L h Hal Hs) as [Hr Hd].
  eapply rop_bind; [done|exact Hd|]. intros [[p w1] h1] (p' & buf & [= -> ->] & Hp0 & Hp & Hal1). cbn in Hal1.
  rewrite (proj2 (Z.eqb_neq p' 0)) by done.
  destruct (device_create_ok 0 FIFO_MAJOR p' ds a _ h1 Hds Hal1) as [Hr3 Hd3]; [by do 10 right; left|done|].
  eapply rop_bind; [done|exact Hd3|]. intros [[name l] h3] (d & next & El & Hal3 & Hok & HM & Hid & _ & Hn).
  split; [apply rop_done|]. intros x [= <-]. exists d, (Fifo buf junk 0 0 size), next. cbn in *. subst.
  split_and!; try done.
  - split; cbn; [lia|apply ring_nil; lia|lia|done].
  - eapply (eq_rect _ (λ X, al_ok X h3) Hal3). set_solver.
Qed.
End Creation.
