(* ===== verification/Tty.v ===== *)
(** * Terminals (src/src/drivers/tty/tty.c, tty_dd.c)

    A terminal has a ring of input bytes and a ring of output bytes, a line discipline that
    fills the input ring, subscribers that are told of events, and two devices: characters
    that arrive from one of them go through the line discipline, and the echo and the output
    go to the other through the device registry.  The drivers and the subscribers' handlers
    act on a state of type [W]; a handler is given the terminal, and does not change it (the
    kernel's only one raises a signal). *)
From stdpp Require Import gmap.
From S2P Require Import Prelude PageService Alloc LineDiscipline Devices.
#[local] Open Scope Z_scope.

Definition TTY_EVENT_OUTB : Z := 0.
Definition TTY_EVENT_INB : Z := 1.
Definition TTY_EVENT_FLUSH_OUTB : Z := 3.
Definition TTY_FLUSH_CHAR : Z := 0xd.
Definition INNER_MODE_RAW : Z := 0.
Definition INNER_MODE_ECHO : Z := 1.
Definition TTY_MODE_SERIAL : Z := 0.
Definition TTY_MODE_PTY : Z := 1.
Definition SERIAL_FLUSH_TX : Z := 1.
Definition SERIAL_SUBSCRIBE_READ : Z := 2.
Definition sizeof_tty_subscriber : Z := 16.

(** A buffer with its address, size and the two positions. *)
Record ring := Ring { r_ptr : Z; r_bytes : list Z; r_size : Z; r_write : Z; r_read : Z }.

Record tty_subscriber := Subscriber { sb_addr : Z; sb_handler : Z }.

(** The terminal without its line discipline; the list of subscribers begins with a node
    that has no handler, and [None] is the NULL pointer. *)
Record tty_core := TtyCore {
  t_indev : list Z; t_outdev : list Z; t_mode : Z; t_valid : Z; t_echo : Z; t_israw : Z;
  t_subscribers : option (list tty_subscriber);
  t_inb : ring; t_outb : ring;
}.
Record tty := Tty { t_core : tty_core; t_ld : option (Z * line_discipline) }.

Definition with_inb r t :=
  TtyCore (t_indev t) (t_outdev t) (t_mode t) (t_valid t) (t_echo t) (t_israw t) (t_subscribers t) r (t_outb t).
Definition with_outb r t :=
  TtyCore (t_indev t) (t_outdev t) (t_mode t) (t_valid t) (t_echo t) (t_israw t) (t_subscribers t) (t_inb t) r.
Definition with_subscribers l t :=
  TtyCore (t_indev t) (t_outdev t) (t_mode t) (t_valid t) (t_echo t) (t_israw t) l (t_inb t) (t_outb t).
Definition with_valid v t :=
  TtyCore (t_indev t) (t_outdev t) (t_mode t) v (t_echo t) (t_israw t) (t_subscribers t) (t_inb t) (t_outb t).
Definition with_echo v t :=
  TtyCore (t_indev t) (t_outdev t) (t_mode t) (t_valid t) v (t_israw t) (t_subscribers t) (t_inb t) (t_outb t).
Definition with_israw v t :=
  TtyCore (t_indev t) (t_outdev t) (t_mode t) (t_valid t) (t_echo t) v (t_subscribers t) (t_inb t) (t_outb t).
Definition with_mode v t :=
  TtyCore (t_indev t) (t_outdev t) v (t_valid t) (t_echo t) (t_israw t) (t_subscribers t) (t_inb t) (t_outb t).

(** The position after [p], wrapped at the end. *)
Definition advance (r : ring) (p : Z) : Z := if p + 1 >=? r_size r then 0 else p + 1.

(** Storing a byte; a full buffer loses its oldest.  Outside the buffer is a fault. *)
Definition ring_put (r : ring) (c : Z) : outcome ring :=
  if r_ptr r =? 0 then Done r else
  if (r_write r <? 0) || (Z.of_nat (List.length (r_bytes r)) <=? r_write r) then Fault else
  let bytes := <[Z.to_nat (r_write r) := c]> (r_bytes r) in
  let w := advance r (r_write r) in
  Done (Ring (r_ptr r) bytes (r_size r) w (if w =? r_read r then advance r (r_read r) else r_read r)).

(** Taking a byte, 0 when there is none; [None] when nothing is stored at the pointer. *)
Definition ring_get (r : ring) : outcome (option Z * ring) :=
  if r_ptr r =? 0 then Done (None, r) else
  if r_read r =? r_write r then Done (Some 0, r) else
  c ← (if r_read r <? 0 then Fault else known (r_bytes r !! Z.to_nat (r_read r)));
  Done (Some c, Ring (r_ptr r) (r_bytes r) (r_size r) (r_write r) (advance r (r_read r))).

Definition tty_write_inb (t : tty_core) (c : Z) : outcome tty_core :=
  r ← ring_put (t_inb t) c; Done (with_inb r t).
Definition tty_read_inb (t : tty_core) : outcome (option Z * tty_core) :=
  '(c, r) ← ring_get (t_inb t); Done (c, with_inb r t).
Definition tty_read_outb (t : tty_core) : outcome (option Z * tty_core) :=
  '(c, r) ← ring_get (t_outb t); Done (c, with_outb r t).

Definition is_valid_tty (t : tty_core) : bool := negb (t_valid t =? 0).

Section World.
Context {W : Type} (rg : registry W) (call_handler : Z → Z → W → outcome W).
Implicit Types (t : tty_core) (w : W).

Fixpoint run_handlers (l : list tty_subscriber) (event : Z) w : outcome W :=
  match l with [] => Done w | s :: l => w ← call_handler (sb_handler s) event w; run_handlers l event w end.

Definition tty_run_subscribers t (event : Z) w : outcome W :=
  if negb (is_valid_tty t) then Done w else
  match t_subscribers t with
  | None => Done w
  | Some l => run_handlers (tail l) event w
  end.

(** What the output device is told after bytes were written to it. *)
Definition after_write t w : outcome W :=
  if t_mode t =? TTY_MODE_SERIAL then '(_, w) ← device_ioctl rg (t_outdev t) SERIAL_FLUSH_TX 0 w; Done w
  else tty_run_subscribers t TTY_EVENT_FLUSH_OUTB w.

Definition _tty_flush t w : outcome (tty_core * W) :=
  let r := t_outb t in
  if r_ptr r =? 0 then Done (t, w) else
  if r_read r =? r_write r then Done (t, w) else
  let len := r_write r - r_read r in
  let len := if len <? 0 then r_size r - r_read r else len in
  bytes ← buffer_slice (r_bytes r) (r_read r) len;
  '(_, w) ← device_write rg (t_outdev t) (u64 len) 0 (u8 <$> bytes) w;
  let read := r_read r + len in
  let read := if read >=? r_size r then 0 else read in
  let t := with_outb (Ring (r_ptr r) (r_bytes r) (r_size r) (r_write r) read) t in
  w ← after_write t w;
  Done (t, w).

Definition tty_write_outb t (c : Z) w : outcome (tty_core * W) :=
  if r_ptr (t_outb t) =? 0 then Done (t, w) else
  r ← ring_put (t_outb t) c;
  let t := with_outb r t in
  if c =? TTY_FLUSH_CHAR then
    '(t, w) ← _tty_flush t w;
    w ← tty_run_subscribers t TTY_EVENT_OUTB w;
    Done (t, w)
  else Done (t, w).

(** The two functions that the line discipline calls. *)
Definition flush_cb (buffer : list Z) (s : tty_core * W) : outcome (tty_core * W) :=
  let '(t, w) := s in
  t ← foldl (λ o c, t ← o; tty_write_inb t c) (Done t) buffer;
  w ← tty_run_subscribers t TTY_EVENT_INB w;
  Done (t, w).

Definition echo_cb (c : Z) (s : tty_core * W) : outcome (tty_core * W) :=
  let '(t, w) := s in
  if t_echo t =? 0 then Done (t, w) else
  '(_, w) ← device_write rg (t_outdev t) 1 0 [u8 c] w;
  if t_mode t =? TTY_MODE_SERIAL then
    '(_, w) ← device_ioctl rg (t_outdev t) SERIAL_FLUSH_TX 0 w; Done (t, w)
  else Done (t, w).

(** A character arrives. *)
Definition tty_read_cb (ty : tty) (c : Z) w : outcome (tty * W) :=
  if negb (is_valid_tty (t_core ty)) then Done (ty, w) else
  match t_ld ty with
  | None => Done (ty, w)
  | Some (p, ld) =>
      '(ld, (t, w)) ← line_discipline_read flush_cb (Some echo_cb) ld c (t_core ty, w);
      Done (Tty t (Some (p, ld)), w)
  end.

Fixpoint write_outb_all t (l : list Z) w : outcome (tty_core * W) :=
  match l with [] => Done (t, w) | c :: l => '(t, w) ← tty_write_outb t c w; write_outb_all t l w end.

Fixpoint write_from (ld : line_discipline) t (buffer : list Z) w : outcome (tty_core * W) :=
  match buffer with
  | [] => Done (t, w)
  | c :: buffer =>
      tbuffer ← line_discipline_translate ld c;
      '(t, w) ← write_outb_all t tbuffer w;
      write_from ld t buffer w
  end.

(** [size] characters from the buffer; more than it has is a fault. *)
Definition _tty_write (ty : tty) (buffer : list Z) (size : Z) w : outcome (tty * W) :=
  if negb (is_valid_tty (t_core ty)) then Done (ty, w) else
  match t_ld ty with
  | None => Done (ty, w)
  | Some (p, ld) =>
      bytes ← buffer_slice buffer 0 size;
      '(t, w) ← write_from ld (t_core ty) bytes w;
      Done (Tty t (Some (p, ld)), w)
  end.
End World.

(** The characters stored in the buffer, the zero that ends a short read included. *)
Fixpoint read_from (n : nat) (t : tty_core) : outcome (list Z * tty_core) :=
  match n with
  | O => Done ([], t)
  | S n =>
      '(c, t) ← tty_read_inb t;
      c ← known c;
      if c =? 0 then Done ([c], t) else
      '(l, t) ← read_from n t; Done (c :: l, t)
  end.

Definition _tty_read (ty : tty) (size : Z) : outcome (list Z * tty) :=
  if negb (is_valid_tty (t_core ty)) then Done ([], ty) else
  match t_ld ty with
  | None => Done ([], ty)
  | Some ld => '(l, t) ← read_from (Z.to_nat size) (t_core ty); Done (l, Tty t (Some ld))
  end.

Definition _tty_get_size (t : tty_core) : Z :=
  if negb (is_valid_tty t) then 0 else s32 (r_write (t_inb t) - r_read (t_inb t)).

Definition _tty_modes (ty : tty) (mode value : Z) : tty :=
  let t := t_core ty in
  if negb (is_valid_tty t) then ty else
  match t_ld ty with
  | None => ty
  | Some (p, ld) =>
      if mode =? INNER_MODE_RAW then
        Tty (with_israw (u8 value) t)
          (Some (p, line_discipline_set_mode ld
                      (if negb (value =? 0) then LINE_DISCIPLINE_MODE_RAW else LINE_DISCIPLINE_MODE_CANONICAL)))
      else if mode =? INNER_MODE_ECHO then Tty (with_echo (u8 value) t) (t_ld ty)
      else ty
  end.

Section Heap.
Context {A : Type} `{Allocator A}.
Implicit Types (h : A).

(** [kcalloc(1, n)] *)
Definition kcalloc_block (n : Z) h : outcome (Z * list Z * A) :=
  '(p, h) ← al_malloc (u64 n) h;
  if (p =? 0) && negb (u64 n =? 0) then Fault else Done (p, replicate (Z.to_nat n) 0, h).

Definition _tty_add_subscriber (t : tty_core) (handler : Z) h : outcome (tty_core * A) :=
  if negb (is_valid_tty t) then Done (t, h) else
  match t_subscribers t with
  | None => Done (t, h)
  | Some l =>
      '(p, h) ← al_malloc sizeof_tty_subscriber h;
      if p =? 0 then Fault else
      Done (with_subscribers (Some (l ++ [Subscriber p handler])%list) t, h)
  end.

(** The node behind the first one with the handler, and the list without it. *)
Fixpoint remove_behind (handler : Z) (l : list tty_subscriber) : option (Z * list tty_subscriber) :=
  match l with
  | x :: ((y :: rest) as l') =>
      if sb_handler x =? handler then Some (sb_addr y, x :: rest)
      else '(p, l'') ← remove_behind handler l'; Some (p, x :: l'')
  | _ => None
  end.

Definition _tty_remove_subscriber (t : tty_core) (handler : Z) h : outcome (tty_core * A) :=
  if negb (is_valid_tty t) then Done (t, h) else
  match t_subscribers t with
  | None => Done (t, h)
  | Some l =>
      match remove_behind handler l with
      | None => Done (t, h)
      | Some (to_remove, l') => h ← al_free to_remove h; Done (with_subscribers (Some l') t, h)
      end
  end.

(** The buffer of the line discipline and all but the first subscriber are not freed. *)
Definition tty_destroy (ty : tty) h : outcome (tty * A) :=
  let t := t_core ty in
  if negb (is_valid_tty t) then Done (ty, h) else
  h ← (if negb (r_ptr (t_inb t) =? 0) then al_free (r_ptr (t_inb t)) h else Done h);
  h ← (if negb (r_ptr (t_outb t) =? 0) then al_free (r_ptr (t_outb t)) h else Done h);
  h ← (match t_subscribers t with Some (s :: _) => al_free (sb_addr s) h | _ => Done h end);
  h ← (match t_ld ty with Some (p, _) => al_free p h | None => Done h end);
  Done (Tty (with_valid 0 t) (t_ld ty), h).

(** The index of the first terminal not in use. *)
Fixpoint free_tty (i : Z) (ttys : list tty) : option (Z * tty) :=
  match ttys with
  | [] => None
  | ty :: ttys => if is_valid_tty (t_core ty) then free_tty (i + 1) ttys else Some (i, ty)
  end.

Definition name_fits (name : list Z) : bool := (List.length name <? 32)%nat.

(** [junk] is what the block of the line discipline contains, [sync_data] the address of the
    subscription on the stack.  A device name that does not fit its field, and a pointer to
    no name, are excluded. *)
Definition tty_init {W} (rg : registry W) (indev outdev : list Z) (mode inbs outbs : Z)
    (junk : list Z) (sync_data : Z) (ttys : list tty) (w : W) h : outcome (Z * list tty * W * A) :=
  match free_tty 0 ttys with
  | None => Done (-1, ttys, w, h)
  | Some (index, ty) =>
      if negb ((mode =? TTY_MODE_SERIAL) || (mode =? TTY_MODE_PTY)) then Done (-1, ttys, w, h) else
      if negb (name_fits indev && name_fits outdev) then Fault else
      let core r1 r2 subs := TtyCore indev outdev mode 0 (t_echo (t_core ty)) (t_israw (t_core ty)) subs r1 r2 in
      let failed t := <[Z.to_nat index := Tty t (t_ld ty)]> ttys in
      '(p1, b1, h) ← kcalloc_block inbs h;
      let old1 := t_inb (t_core ty) in
      let old2 := t_outb (t_core ty) in
      if p1 =? 0 then
        Done (-1, failed (core (Ring 0 b1 (r_size old1) (r_write old1) (r_read old1)) old2 (t_subscribers (t_core ty))), w, h) else
      let r1 := Ring p1 b1 inbs 0 0 in
      '(p2, b2, h) ← kcalloc_block outbs h;
      if p2 =? 0 then
        h ← al_free p1 h;
        Done (-1, failed (core r1 (Ring 0 b2 (r_size old2) (r_write old2) (r_read old2)) (t_subscribers (t_core ty))), w, h) else
      let r2 := Ring p2 b2 outbs 0 0 in
      '(ps, h) ← al_malloc sizeof_tty_subscriber h;
      if ps =? 0 then
        h ← al_free p1 h; h ← al_free p2 h; Done (-1, failed (core r1 r2 None), w, h) else
      let subs := Some [Subscriber ps 0] in
      '(ld, h) ← line_discipline_create LINE_DISCIPLINE_MODE_CANONICAL LINE_DISCIPLINE_MODE_ECHO_ON 1024 junk h;
      let t := TtyCore indev outdev mode 0 1 0 subs r1 r2 in
      match ld with
      | None =>
          h ← al_free p1 h; h ← al_free p2 h; h ← al_free ps h;
          Done (-1, <[Z.to_nat index := Tty t None]> ttys, w, h)
      | Some _ =>
          w ← (if mode =? TTY_MODE_SERIAL then '(_, w) ← device_ioctl rg indev SERIAL_SUBSCRIBE_READ sync_data w; Done w
               else Done w);
          Done (index, <[Z.to_nat index := Tty (with_valid 1 t) ld]> ttys, w, h)
      end
  end.
End Heap.

Definition get_tty (ttys : list tty) (index : Z) : option tty :=
  if (index <? 0) || (index >=? 32) then None else ttys !! Z.to_nat index.

(** ** The driver of terminals *)
Definition TTY_ADD_SUBSCRIBER : Z := 1.
Definition TTY_REMOVE_SUBSCRIBER : Z := 2.
Definition TTY_MODE_RAW : Z := 3.
Definition TTY_MODE_ECHO : Z := 4.
Definition TTY_FLUSH : Z := 5.
Definition TTY_VALIDATE : Z := 6.
Definition TTY_GET_SIZE : Z := 7.

(** The length of the string at the start of a buffer; without a terminator it is a fault. *)
Fixpoint c_length (l : list Z) : outcome Z :=
  match l with [] => Fault | c :: l => if c =? 0 then Done 0 else n ← c_length l; Done (n + 1) end.

Section Driver.
Context {W A : Type} `{Allocator A} (rg : registry W) (call_handler : Z → Z → W → outcome W)
  (int_at : Z → outcome Z).
Implicit Types (ttys : list tty) (w : W) (h : A).

(** The terminal behind a port number, if it is in use. *)
Definition port_tty ttys (port : Z) : option tty :=
  ty ← get_tty ttys (s32 port); if is_valid_tty (t_core ty) then Some ty else None.

(** [buffer] is the memory at the caller's buffer; the result is the return value, what the
    buffer holds then, and the state. *)
Definition tty_dd_read_block (port size skip : Z) (buffer : list Z) ttys h : outcome (Z * list Z * list tty * A) :=
  match port_tty ttys port with
  | None => Done (0, buffer, ttys, h)
  | Some ty =>
      '(p, h) ← al_malloc skip h;
      '(_, ty) ← _tty_read ty (s32 skip);
      h ← al_free p h;
      '(l, ty) ← _tty_read ty (s32 size);
      let buffer := (l ++ drop (List.length l) buffer)%list in
      n ← c_length buffer;
      Done (n, buffer, <[Z.to_nat (s32 port) := ty]> ttys, h)
  end.

Definition tty_dd_write_block (port size skip : Z) (buffer : list Z) ttys w : outcome (Z * list tty * W) :=
  match port_tty ttys port with
  | None => Done (0, ttys, w)
  | Some ty =>
      '(ty, w) ← _tty_write rg call_handler ty (drop (Z.to_nat skip) buffer) (s32 size) w;
      Done (size, <[Z.to_nat (s32 port) := ty]> ttys, w)
  end.

Definition tty_dd_ioctl (port op data : Z) ttys w h : outcome (Z * list tty * W * A) :=
  match port_tty ttys port with
  | None => Done (0, ttys, w, h)
  | Some ty =>
      let put ty := <[Z.to_nat (s32 port) := ty]> ttys in
      let core t := put (Tty t (t_ld ty)) in
      if op =? TTY_ADD_SUBSCRIBER then '(t, h) ← _tty_add_subscriber (t_core ty) data h; Done (1, core t, w, h) else
      if op =? TTY_REMOVE_SUBSCRIBER then '(t, h) ← _tty_remove_subscriber (t_core ty) data h; Done (1, core t, w, h) else
      if op =? TTY_MODE_RAW then v ← int_at data; Done (1, put (_tty_modes ty INNER_MODE_RAW v), w, h) else
      if op =? TTY_MODE_ECHO then v ← int_at data; Done (1, put (_tty_modes ty INNER_MODE_ECHO v), w, h) else
      if op =? TTY_FLUSH then '(t, w) ← _tty_flush rg call_handler (t_core ty) w; Done (1, core t, w, h) else
      if op =? TTY_VALIDATE then Done (1, ttys, w, h) else
      if op =? TTY_GET_SIZE then Done (u64 (_tty_get_size (t_core ty)), ttys, w, h) else Done (0, ttys, w, h)
  end.
End Driver.
