(* ===== verification/TtySpec.v ===== *)
(** * Terminals: input lines and output lines

    The input ring of a terminal is a queue that keeps the newest bytes.  Characters that
    arrive are edited into lines by the line discipline, the finished lines are queued, and
    a read takes them in order.  A line written to a terminal goes to the output device. *)
From stdpp Require Import gmap.
From S2P Require Import Prelude PageService Alloc Ring LineDiscipline Devices Tty.
#[local] Open Scope Z_scope.

(** ** The rings as queues *)
Record ring_queue (r : ring) (q : list Z) : Prop := {
  rq_ptr : r_ptr r ≠ 0;
  rq_ring : ring_holds (r_size r) (r_bytes r) (r_read r) q;
  rq_fits : Z.of_nat (List.length q) < r_size r;
  rq_write : r_write r = (r_read r + Z.of_nat (List.length q)) mod r_size r;
}.

(** The last [n] elements. *)
Definition newest (n : nat) (l : list Z) : list Z := drop (List.length l - n) l.

Lemma newest_all n l : (List.length l ≤ n)%nat → newest n l = l.
Proof. intros. unfold newest. by replace (List.length l - n)%nat with 0%nat by lia. Qed.

Lemma newest_app n l1 l2 : newest n (newest n l1 ++ l2) = newest n (l1 ++ l2).
Proof.
  unfold newest. rewrite !length_app, length_drop. destruct (decide (n ≤ List.length l1)%nat) as [Hn|Hn].
  - rewrite <- (drop_app_le l1 l2) by lia. rewrite drop_drop. f_equal. lia.
  - replace (List.length l1 - n)%nat with 0%nat by lia. by rewrite Nat.sub_0_r.
Qed.

Lemma advance_ok r p : 0 ≤ p < r_size r → advance r p = (p + 1) mod r_size r.
Proof. intros Hp. unfold advance. by rewrite ring_next. Qed.

(** With room, the head does not move. *)
Lemma ring_put_room r q c :
  ring_queue r q → Z.of_nat (List.length q) + 1 < r_size r →
  ∃ r', ring_put r c = Done r' ∧ r_size r' = r_size r ∧ r_read r' = r_read r ∧ ring_queue r' (q ++ [c]).
Proof.
  intros [Hp Hr Hf Hw] Hroom. pose proof (rh_head _ _ _ _ Hr) as Hh. pose proof (rh_length _ _ _ _ Hr) as Hl.
  pose proof (Z.mod_pos_bound (r_read r + Z.of_nat (List.length q)) (r_size r)) as Hb.
  pose proof (ring_put_tail _ _ _ _ c Hr Hf) as Hr'. unfold ring_put.
  rewrite (proj2 (Z.eqb_neq _ _) Hp), (proj2 (Z.ltb_ge _ _)), (proj2 (Z.leb_gt _ _)) by lia. cbn [orb]. cbv zeta.
  rewrite advance_ok, Hw, Zplus_mod_idemp_l, <- Z.add_assoc by lia. eexists. split; [done|]. split; [done|].
  rewrite (proj2 (Z.eqb_neq _ _)) by (intros E; symmetry in E; apply ring_meets in E; lia). split; [done|].
  split; cbn; try done; rewrite length_app; cbn; [lia|]. f_equal. lia.
Qed.

(** A full ring loses its oldest byte. *)
Lemma ring_put_full r q c :
  ring_queue r q → Z.of_nat (List.length q) + 1 = r_size r →
  ∃ r', ring_put r c = Done r' ∧ r_size r' = r_size r ∧ ring_queue r' (tail (q ++ [c])).
Proof.
  intros [Hp Hr Hf Hw] Hfull. pose proof (rh_head _ _ _ _ Hr) as Hh. pose proof (rh_length _ _ _ _ Hr) as Hl.
  pose proof (Z.mod_pos_bound (r_read r + Z.of_nat (List.length q)) (r_size r)) as Hb.
  pose proof (ring_put_tail _ _ _ _ c Hr Hf) as Hr'. unfold ring_put.
  rewrite (proj2 (Z.eqb_neq _ _) Hp), (proj2 (Z.ltb_ge _ _)), (proj2 (Z.leb_gt _ _)) by lia. cbn [orb]. cbv zeta.
  rewrite advance_ok, Hw, Zplus_mod_idemp_l, <- Z.add_assoc by lia. eexists. split; [done|]. split; [done|].
  rewrite (proj2 (Z.eqb_eq _ _)) by (symmetry; apply ring_meets; lia). rewrite advance_ok by done.
  destruct (q ++ [c])%list as [|x rest] eqn:E; [by destruct q|].
  assert (Hlen : List.length (q ++ [c])%list = S (List.length rest)) by (by rewrite E). rewrite length_app in Hlen. cbn in Hlen.
  destruct (ring_get_head _ _ _ _ _ Hr') as [_ Hr2]. split; cbn; try done; [lia|].
  rewrite Zplus_mod_idemp_l. f_equal. lia.
Qed.

Lemma ring_put_ok r q c :
  ring_queue r q → ∃ r', ring_put r c = Done r' ∧ r_size r' = r_size r ∧
    ring_queue r' (newest (Z.to_nat (r_size r) - 1) (q ++ [c])).
Proof.
  intros Hq. pose proof (rq_fits _ _ Hq) as Hf. unfold newest. rewrite length_app. cbn [List.length].
  destruct (decide (Z.of_nat (List.length q) + 1 < r_size r)) as [Hroom|Hfull].
  - destruct (ring_put_room r q c Hq Hroom) as (r' & E & Hs & _ & Hr'). exists r'. split; [done|]. split; [done|].
    by replace (List.length q + 1 - (Z.to_nat (r_size r) - 1))%nat with 0%nat by lia.
  - destruct (ring_put_full r q c Hq) as (r' & E & Hs & Hr'); [lia|]. exists r'. split; [done|]. split; [done|].
    replace (List.length q + 1 - (Z.to_nat (r_size r) - 1))%nat with 1%nat by lia. by destruct (q ++ [c])%list.
Qed.

Lemma ring_get_ok r c q :
  ring_queue r (c :: q) → ∃ r', ring_get r = Done (Some c, r') ∧ r_size r' = r_size r ∧ ring_queue r' q.
Proof.
  intros [Hp Hr Hf Hw]. pose proof (rh_head _ _ _ _ Hr) as Hh. cbn [List.length] in *. unfold ring_get.
  rewrite (proj2 (Z.eqb_neq _ _) Hp). rewrite (proj2 (Z.eqb_neq _ _)) by (rewrite Hw, ring_meets; lia).
  rewrite (proj2 (Z.ltb_ge _ _)) by lia. destruct (ring_get_head _ _ _ _ _ Hr) as [-> Hr']. cbn [known].
  rewrite bind_done, advance_ok by done. eexists. split; [done|]. split; [done|].
  split; cbn; try done; [lia|]. rewrite Hw, Zplus_mod_idemp_l. f_equal. lia.
Qed.

Lemma ring_get_empty r : ring_queue r [] → ring_get r = Done (Some 0, r).
Proof.
  intros [Hp Hr Hf Hw]. cbn in Hw. rewrite ring_start in Hw by apply (rh_head _ _ _ _ Hr). unfold ring_get.
  by rewrite (proj2 (Z.eqb_neq _ _) Hp), Hw, Z.eqb_refl.
Qed.

(** Reading takes characters in order, and ends with a zero when there are no more. *)
Lemma read_from_ok n t q :
  ring_queue (t_inb t) q → 0 ∉ q →
  ∃ r, read_from n t = Done (if (n <=? List.length q)%nat then take n q else (q ++ [0])%list, with_inb r t) ∧
    r_size r = r_size (t_inb t) ∧ ring_queue r (drop n q).
Proof.
  revert t q. induction n as [|n IH]; intros t q Hq Hz; cbn [read_from].
  - exists (t_inb t). split; [by destruct t|done].
  - unfold tty_read_inb. destruct q as [|c q].
    { rewrite (ring_get_empty _ Hq). cbn. exists (t_inb t). done. }
    apply not_elem_of_cons in Hz as [Hc Hz].
    destruct (ring_get_ok _ _ _ Hq) as (r & -> & Hs & Hr). rewrite !bind_done. cbn [known]. rewrite bind_done.
    rewrite (proj2 (Z.eqb_neq c 0)) by done. destruct (IH (with_inb r t) q Hr Hz) as (r' & -> & Hs' & Hr').
    exists r'. rewrite bind_done. split; [|split; [cbn in *; congruence|done]].
    cbn [List.length]. change (S n <=? S (List.length q))%nat with (n <=? List.length q)%nat. by destruct (n <=? List.length q)%nat.
Qed.

(** ** Input *)
(** The characters that flushes queue. *)
Definition flushed (evs : list ld_event) : list Z := mbind (λ e, match e with EFlush l => l | EEcho _ => [] end) evs.

Lemma flushed_app e1 e2 : flushed (e1 ++ e2) = (flushed e1 ++ flushed e2)%list.
Proof. apply bind_app. Qed.

Lemma write_inb_all t q line :
  ring_queue (t_inb t) q →
  ∃ r, foldl (λ o c, t ← o; tty_write_inb t c) (Done t) line = Done (with_inb r t) ∧ r_size r = r_size (t_inb t) ∧
    ring_queue r (newest (Z.to_nat (r_size (t_inb t)) - 1) (q ++ line)).
Proof.
  revert t q. induction line as [|c line IH]; intros t q Hq; cbn [foldl].
  - exists (t_inb t). split; [by destruct t|]. split; [done|]. rewrite app_nil_r, newest_all; [done|].
    pose proof (rq_fits _ _ Hq). lia.
  - rewrite bind_done. unfold tty_write_inb at 2. destruct (ring_put_ok _ _ c Hq) as (r & -> & Hs & Hr). rewrite bind_done.
    destruct (IH (with_inb r t) _ Hr) as (r' & E & Hs' & Hr'). cbn [t_inb with_inb] in *. exists r'. split; [exact E|].
    split; [congruence|]. rewrite Hs, newest_app, <- app_assoc in Hr'. exact Hr'.
Qed.

Section World.
Context {W : Type} (rg : registry W) (call_handler : Z → Z → W → outcome W).

(** Characters that arrive one after the other. *)
Fixpoint tty_receive (cs : list Z) (ty : tty) (w : W) : outcome (tty * W) :=
  match cs with [] => Done (ty, w) | c :: cs => '(ty, w) ← tty_read_cb rg call_handler ty c w; tty_receive cs ty w end.

Lemma run_handlers_return l e w :
  (∀ h e w, returns (call_handler h e w)) → returns (run_handlers call_handler l e w).
Proof.
  intros Hh. revert w. induction l as [|s l IH]; intros w; cbn; [by eexists|].
  destruct (Hh (sb_handler s) e w) as [w' ->]. apply IH.
Qed.

Lemma run_subscribers_return t e w :
  (∀ h e w, returns (call_handler h e w)) → returns (tty_run_subscribers call_handler t e w).
Proof.
  intros Hh. unfold tty_run_subscribers. destruct (negb _); [by eexists|].
  destruct (t_subscribers t); [by apply run_handlers_return|by eexists].
Qed.

(** The output device and the subscribers answer. *)
Record answers (t : tty_core) : Prop := {
  an_write c w : returns (device_write rg (t_outdev t) 1 0 [c] w);
  an_ioctl w : returns (device_ioctl rg (t_outdev t) SERIAL_FLUSH_TX 0 w);
  an_handlers h e w : returns (call_handler h e w);
}.

Lemma answers_inb r t : answers t → answers (with_inb r t).
Proof. by intros []. Qed.

Lemma flush_cb_ok line t q w :
  answers t → ring_queue (t_inb t) q →
  ∃ r w', flush_cb call_handler line (t, w) = Done (with_inb r t, w') ∧ r_size r = r_size (t_inb t) ∧
    ring_queue r (newest (Z.to_nat (r_size (t_inb t)) - 1) (q ++ line)).
Proof.
  intros Ha Hq. destruct (write_inb_all t q line Hq) as (r & E & Hs & Hr). unfold flush_cb. rewrite E, bind_done.
  destruct (run_subscribers_return (with_inb r t) TTY_EVENT_INB w (an_handlers _ Ha)) as [w' ->]. by exists r, w'.
Qed.

Lemma echo_cb_ok c t w : answers t → ∃ w', echo_cb rg c (t, w) = Done (t, w').
Proof.
  intros Ha. unfold echo_cb. destruct (t_echo t =? 0); [by exists w|].
  destruct (an_write _ Ha (u8 c) w) as [[n w1] ->]. rewrite bind_done. destruct (t_mode t =? TTY_MODE_SERIAL); [|by exists w1].
  destruct (an_ioctl _ Ha w1) as [[n' w2] ->]. by exists w2.
Qed.

Lemma run_events_ok evs t q w :
  answers t → ring_queue (t_inb t) q →
  ∃ r w', run_events (flush_cb call_handler) (Some (echo_cb rg)) evs (t, w) = Done (with_inb r t, w') ∧
    r_size r = r_size (t_inb t) ∧ ring_queue r (newest (Z.to_nat (r_size (t_inb t)) - 1) (q ++ flushed evs)).
Proof.
  revert t q w. induction evs as [|[line|c] evs IH]; intros t q w Ha Hq; cbn [run_events].
  - exists (t_inb t), w. split; [by destruct t|]. split; [done|]. cbn. rewrite app_nil_r, newest_all; [done|].
    pose proof (rq_fits _ _ Hq). lia.
  - destruct (flush_cb_ok line t q w Ha Hq) as (r & w1 & -> & Hs & Hr). rewrite bind_done.
    destruct (IH (with_inb r t) _ w1 (answers_inb r t Ha) Hr) as (r' & w2 & E & Hs' & Hr').
    cbn [t_inb with_inb] in *. exists r', w2. split; [exact E|]. split; [congruence|].
    rewrite Hs, newest_app, <- app_assoc in Hr'. exact Hr'.
  - cbn [echo_call]. destruct (echo_cb_ok c t w Ha) as [w1 ->]. rewrite bind_done.
    destruct (IH t q w1 Ha Hq) as (r & w2 & E & Hs & Hr). by exists r, w2.
Qed.

Lemma receive_ok cs t p ld line q w (r := edit_all (ld_echo ld =? LINE_DISCIPLINE_MODE_ECHO_ON) line cs) :
  t_valid t = 1 → answers t → ld_rep ld line → ld_tail ld + Z.of_nat (List.length cs) < ld_size ld →
  ring_queue (t_inb t) q →
  ∃ ri ld' w', tty_receive cs (Tty t (Some (p, ld))) w = Done (Tty (with_inb ri t) (Some (p, ld')), w') ∧
    ld_rep ld' r.1 ∧ ring_queue ri (newest (Z.to_nat (r_size (t_inb t)) - 1) (q ++ flushed r.2)).
Proof.
  subst r. revert t ld line q w. induction cs as [|c cs IH]; intros t ld line q w Hv Ha Hld Hroom Hq; cbn [tty_receive edit_all].
  - exists (t_inb t), ld, w. split; [by destruct t|]. split; [done|]. cbn. rewrite app_nil_r, newest_all; [done|].
    pose proof (rq_fits _ _ Hq). lia.
  - unfold tty_read_cb. cbn [t_core t_ld]. unfold is_valid_tty. rewrite Hv. cbn [Z.eqb negb List.length] in *.
    destruct (read_rep (flush_cb call_handler) (Some (echo_cb rg)) ld line c Hld) as (ld1 & E & Hld1 & Ee & Es & Et); [lia|].
    unfold echo_on in E, Hld1. rewrite andb_true_r in E, Hld1. rewrite E.
    destruct (edit (ld_echo ld =? LINE_DISCIPLINE_MODE_ECHO_ON) line c) as [line1 ev]. cbn [fst snd] in *.
    destruct (run_events_ok ev t q w Ha Hq) as (r1 & w1 & -> & Hs1 & Hr1). rewrite !bind_done.
    destruct (IH (with_inb r1 t) ld1 line1 _ w1 Hv (answers_inb r1 t Ha) Hld1 ltac:(lia) Hr1) as (r2 & ld2 & w2 & E2 & Hld2 & Hr2).
    rewrite Ee in Hld2, Hr2. destruct (edit_all _ line1 cs) as [line2 evs]. cbn [fst snd t_inb with_inb] in *.
    exists r2, ld2, w2. split; [exact E2|]. split; [done|].
    rewrite Hs1, newest_app, <- app_assoc, <- flushed_app in Hr2. exact Hr2.
Qed.
End World.

(** Lines hold no zero. *)
Lemma edit_nonzero echo line c (r := edit echo line c) :
  0 ∉ line → (0 ∉ r.1) ∧ (0 ∉ flushed r.2).
Proof.
  intros Hz. subst r. unfold edit. assert (Hrl : 0 ∉ removelast line).
  { destruct line as [|x line _] using rev_ind; [set_solver|]. rewrite removelast_last. set_solver. }
  assert (Hfl : ∀ l, flushed (EEcho <$> l) = []) by (induction l; done).
  destruct (c =? LD_DEL); [cbn [fst snd]; rewrite Hfl; set_solver|]. destruct ((c <? 0) || (c >? 27)) eqn:Ec; cbn [fst snd].
  { split; [|destruct echo; cbn; set_solver]. assert (c ≠ 0) by (intros ->; done). set_solver. }
  destruct (c =? 8), (c =? 13); cbn [fst snd]; rewrite ?flushed_app; destruct echo; rewrite ?Hfl; cbn; set_solver.
Qed.

Lemma edit_all_nonzero echo line cs (r := edit_all echo line cs) : 0 ∉ line → 0 ∉ flushed r.2.
Proof.
  subst r. revert line. induction cs as [|c cs IH]; intros line Hz; cbn [edit_all]; [cbn; set_solver|].
  pose proof (edit_nonzero echo line c Hz) as [H1 H2]. destruct (edit echo line c) as [line1 ev]. cbn [fst snd] in *.
  specialize (IH _ H1). destruct (edit_all echo line1 cs) as [line2 evs]. cbn [fst snd] in *.
  rewrite flushed_app. set_solver.
Qed.

Section Input.
Context {W : Type} (rg : registry W) (call_handler : Z → Z → W → outcome W).

End Input.

(** A terminal on a queue of bytes as its output device: "hi", one erased, "o", return. *)
Definition sink_ops : file_operations (list Z) :=
  FileOps None (Some (λ _ size _ bytes w, Done (size, (w ++ bytes)%list))) (Some (λ _ _ _ w, Done (1, w))).
Definition sink_device : device := Device 0x100 1 1 14 0 (97 :: replicate 31 0) 0 0.
Definition sink_registry : registry (list Z) :=
  Registry [sink_device; cleared_device 0x140] (λ _, DeviceDriver (Some sink_ops) None 1 []) (λ _, DeviceDriver None None 0 [])
    (λ _, DeviceDriver None None 0 []).
Definition core0 : tty_core :=
  TtyCore [97] [97] TTY_MODE_PTY 1 1 0 (Some [Subscriber 0x200 0]) (Ring 0x300 (replicate 8 0) 8 0 0)
    (Ring 0x400 (replicate 8 0) 8 0 0).
Definition ld0 : line_discipline := ld_fields 1 0 16 0x500 (replicate 16 0).

Lemma sink_answers : answers sink_registry (λ _ _ w, Done w) core0.
Proof. split; intros; cbn; by eexists. Qed.

Lemma empty_ring p n : p ≠ 0 → 0 < n → ring_queue (Ring p (replicate (Z.to_nat n) 0) n 0 0) [].
Proof.
  intros Hp Hn. split; cbn; [done| |done|]; [|by rewrite Z.mod_small by lia].
  apply ring_nil; [rewrite length_replicate|]; lia.
Qed.

Lemma ld0_rep : ld_rep ld0 [].
Proof. split; done. Qed.


(** ** Output *)
(** A character that is written as it is. *)
Definition plain (c : Z) : Prop := (c < 0 ∨ 27 < c) ∧ c ≠ LD_DEL.

Lemma translate_plain ld c : plain c → line_discipline_translate ld c = Done [c].
Proof.
  intros [Hc Hd]. unfold line_discipline_translate. destruct (negb _); [done|]. destruct (_ =? _); [done|].
  destruct (_ =? LINE_DISCIPLINE_MODE_CANONICAL); [|done]. rewrite (proj2 (Z.eqb_neq c LD_DEL)) by done. cbn [negb andb].
  destruct (c <? 0) eqn:E1; [done|]. rewrite gtb_true by (zbool; lia). done.
Qed.

Section Output.
Context {W : Type} (rg : registry W) (call_handler : Z → Z → W → outcome W).

Lemma write_outb_put t q c w :
  ring_queue (t_outb t) q → Z.of_nat (List.length q) + 1 < r_size (t_outb t) → c ≠ TTY_FLUSH_CHAR →
  ∃ r, tty_write_outb rg call_handler t c w = Done (with_outb r t, w) ∧ r_size r = r_size (t_outb t) ∧
    r_read r = r_read (t_outb t) ∧ ring_queue r (q ++ [c]).
Proof.
  intros Hq Hroom Hc. destruct (ring_put_room _ _ c Hq Hroom) as (r & E & Hs & Hrd & Hr). exists r. split; [|done].
  unfold tty_write_outb. by rewrite (proj2 (Z.eqb_neq _ _) (rq_ptr _ _ Hq)), E, bind_done, (proj2 (Z.eqb_neq c TTY_FLUSH_CHAR)).
Qed.

(** Plain characters collect in the output ring. *)
Lemma write_plain ld bs t q w :
  ring_queue (t_outb t) q → Z.of_nat (List.length q + List.length bs) < r_size (t_outb t) → Forall plain bs →
  ∃ r, (∀ bs', write_from rg call_handler ld t (bs ++ bs') w = write_from rg call_handler ld (with_outb r t) bs' w) ∧
    r_size r = r_size (t_outb t) ∧ r_read r = r_read (t_outb t) ∧ ring_queue r (q ++ bs).
Proof.
  revert t q. induction bs as [|c bs IH]; intros t q Hq Hroom Hpl.
  - exists (t_outb t). rewrite app_nil_r. split; [by destruct t|done].
  - apply Forall_cons in Hpl as [Hc Hpl]. cbn [List.length] in Hroom.
    destruct (write_outb_put t q c w Hq) as (r & E & Hs & Hrd & Hr); [lia|unfold TTY_FLUSH_CHAR; destruct Hc; lia|].
    destruct (IH (with_outb r t) _ Hr) as (r' & E' & Hs' & Hrd' & Hr'); [|done|].
    { cbn [t_outb with_outb]. rewrite Hs, length_app. cbn. lia. }
    cbn [t_outb with_outb] in *. exists r'. rewrite <- app_assoc in Hr'. split_and!; [|congruence|congruence|exact Hr'].
    intros bs'. cbn [app write_from]. rewrite (translate_plain _ _ Hc), bind_done. cbn [write_outb_all].
    rewrite E, !bind_done. apply E'.
Qed.

(** Flushing an output ring that does not wrap is one write to the device. *)
Lemma flush_once t q w :
  ring_queue (t_outb t) q → q ≠ [] → r_read (t_outb t) + Z.of_nat (List.length q) < r_size (t_outb t) →
  r_size (t_outb t) < 2 ^ 63 →
  ∃ r, _tty_flush rg call_handler t w =
    ('(_, w) ← device_write rg (t_outdev t) (Z.of_nat (List.length q)) 0 (u8 <$> q) w;
     w ← after_write rg call_handler t w; Done (with_outb r t, w)) ∧
    r_size r = r_size (t_outb t) ∧ ring_queue r [].
Proof.
  intros [Hp Hr Hf Hw] Hne Hroom Hsz. pose proof (rh_head _ _ _ _ Hr) as Hh. pose proof (rh_length _ _ _ _ Hr) as Hl.
  assert (Hpos : 0 < Z.of_nat (List.length q)) by (destruct q; [done|cbn; lia]).
  rewrite Z.mod_small in Hw by lia.
  exists (Ring (r_ptr (t_outb t)) (r_bytes (t_outb t)) (r_size (t_outb t)) (r_write (t_outb t)) (r_write (t_outb t))).
  split; [|split; [done|]].
  - unfold _tty_flush. cbv zeta. rewrite (proj2 (Z.eqb_neq _ _) Hp), (proj2 (Z.eqb_neq (r_read _) _)) by lia.
    replace (r_write (t_outb t) - r_read (t_outb t)) with (Z.of_nat (List.length q)) by lia.
    rewrite (proj2 (Z.ltb_ge _ _)) by lia. unfold buffer_slice.
    rewrite (proj2 (Z.leb_gt _ _)), (proj2 (Z.ltb_ge _ _)), (proj2 (Z.ltb_ge _ _)) by lia. cbn [orb].
    rewrite bind_done, Nat2Z.id, (ring_slice _ _ _ _ Hr), u64_small by lia. apply bind_ext. intros [n w1].
    rewrite <- Hw. destruct (Z.geb_spec (r_write (t_outb t)) (r_size (t_outb t))); [lia|]. done.
  - split; cbn; [done|apply ring_nil; lia|lia|]. rewrite ring_start; lia.
Qed.

(** What a newline does behind the characters [q] of the output ring. *)
Lemma write_newline t q w :
  ring_queue (t_outb t) q → r_read (t_outb t) + Z.of_nat (List.length q) + 1 < r_size (t_outb t) →
  r_size (t_outb t) < 2 ^ 31 →
  ∃ r, write_outb_all rg call_handler t [13; 10] w =
    ('(_, w) ← device_write rg (t_outdev t) (Z.of_nat (List.length q) + 1) 0 (u8 <$> (q ++ [13])%list) w;
     w ← after_write rg call_handler t w;
     w ← tty_run_subscribers call_handler t TTY_EVENT_OUTB w;
     Done (with_outb r t, w)) ∧ ring_queue r [10].
Proof.
  intros Hq Hroom Hsz. pose proof (rh_head _ _ _ _ (rq_ring _ _ Hq)) as Hh.
  destruct (ring_put_room _ q 13 Hq) as (r2 & E2 & Hs2 & Hrd2 & Hr2); [lia|].
  assert (Hlen : Z.of_nat (List.length (q ++ [13])%list) = Z.of_nat (List.length q) + 1) by (rewrite length_app; cbn; lia).
  destruct (flush_once (with_outb r2 t) (q ++ [13])%list w) as (r3 & E3 & Hs3 & Hr3); cbn [t_outb with_outb] in *;
    [done|by destruct q|lia|lia|].
  destruct (ring_put_room r3 [] 10 Hr3) as (r4 & E4 & _ & _ & Hr4); [cbn; lia|]. exists r4. split; [|done].
  cbn [write_outb_all]. unfold tty_write_outb at 2.
  rewrite (proj2 (Z.eqb_neq _ _) (rq_ptr _ _ Hq)), E2, bind_done. change (13 =? TTY_FLUSH_CHAR) with true. cbv iota zeta.
  rewrite E3, Hlen. change (t_outdev (with_outb r2 t)) with (t_outdev t).
  destruct (device_write rg (t_outdev t) (Z.of_nat (List.length q) + 1) 0 (u8 <$> (q ++ [13])%list) w) as [[k w1]| | | |]; try done.
  rewrite !bind_done. change (after_write rg call_handler (with_outb r2 t)) with (after_write rg call_handler t).
  destruct (after_write rg call_handler t w1) as [w2| | | |]; try done. rewrite !bind_done.
  change (tty_run_subscribers call_handler (with_outb r3 (with_outb r2 t))) with (tty_run_subscribers call_handler t).
  destruct (tty_run_subscribers call_handler t TTY_EVENT_OUTB w2) as [w3| | | |]; try done. rewrite !bind_done.
  unfold tty_write_outb. cbn [t_outb with_outb]. rewrite (proj2 (Z.eqb_neq _ _) (rq_ptr _ _ Hr3)), E4, bind_done. done.
Qed.

(** A line written to a terminal is one write to its output device: with an empty
    output ring and room up to its end, writing plain characters and a newline sends the
    characters and a carriage return to the device in a single call, tells the device or
    the subscribers, and leaves the newline itself in the ring. *)
Theorem tty_write_line t p ld bs w :
  t_valid t = 1 → ld_valid ld = 1 → ld_mode ld = LINE_DISCIPLINE_MODE_CANONICAL → Forall plain bs →
  ring_queue (t_outb t) [] → r_read (t_outb t) + Z.of_nat (List.length bs) + 1 < r_size (t_outb t) →
  r_size (t_outb t) < 2 ^ 31 →
  let n := Z.of_nat (List.length bs) + 1 in
  ∃ r, _tty_write rg call_handler (Tty t (Some (p, ld))) (bs ++ [10]) n w =
    ('(_, w) ← device_write rg (t_outdev t) n 0 (u8 <$> (bs ++ [13])%list) w;
     w ← after_write rg call_handler t w;
     w ← tty_run_subscribers call_handler t TTY_EVENT_OUTB w;
     Done (Tty (with_outb r t) (Some (p, ld)), w)) ∧ ring_queue r [10].
Proof.
  intros Hv Hlv Hlm Hpl Hq Hroom Hsz n. pose proof (rh_head _ _ _ _ (rq_ring _ _ Hq)) as Hh.
  destruct (write_plain ld bs t [] w Hq) as (r1 & E1 & Hs1 & Hrd1 & Hr1); [cbn; lia|done|]. cbn [app] in Hr1.
  destruct (write_newline (with_outb r1 t) bs w) as (r & E & Hr); cbn [t_outb with_outb]; [done|lia|lia|].
  exists r. split; [|done]. unfold _tty_write. cbn [t_core t_ld]. unfold is_valid_tty. rewrite Hv. cbn [Z.eqb negb].
  assert (Hb : buffer_slice (bs ++ [10]) 0 n = Done (bs ++ [10])%list).
  { unfold buffer_slice. rewrite (proj2 (Z.leb_gt _ _)), (proj2 (Z.ltb_ge 0 0)), (proj2 (Z.ltb_ge _ _))
      by (rewrite ?length_app; cbn; lia). cbn [orb]. rewrite take_ge; [done|]. rewrite length_drop, length_app. cbn. lia. }
  rewrite Hb, bind_done, E1. cbn [write_from].
  assert (Ht : line_discipline_translate ld 10 = Done [13; 10]).
  { unfold line_discipline_translate. by rewrite Hlv, Hlm. }
  rewrite Ht, bind_done, E. change (t_outdev (with_outb r1 t)) with (t_outdev t).
  destruct (device_write rg (t_outdev t) n 0 (u8 <$> (bs ++ [13])%list) w) as [[k w1]| | | |] eqn:Ew;
    fold n; rewrite Ew; try done. rewrite !bind_done.
  change (after_write rg call_handler (with_outb r1 t)) with (after_write rg call_handler t).
  destruct (after_write rg call_handler t w1) as [w2| | | |]; try done. rewrite !bind_done.
  change (tty_run_subscribers call_handler (with_outb r1 t)) with (tty_run_subscribers call_handler t).
  by destruct (tty_run_subscribers call_handler t TTY_EVENT_OUTB w2).
Qed.
End Output.

Lemma tty_write_line_witness :
  ∃ ty, _tty_write sink_registry (λ _ _ w, Done w) (Tty core0 (Some (0x600, ld0))) [111; 107; 10] 3 [] =
        Done (ty, [111; 107; 13]).
Proof.
  destruct (tty_write_line sink_registry (λ _ _ w, Done w) core0 0x600 ld0 [111; 107] []) as (r & E & _).
  - done.
  - done.
  - done.
  - repeat constructor; by right || done.
  - by apply (empty_ring 0x400 8).
  - done.
  - done.
  - exists (Tty (with_outb r core0) (Some (0x600, ld0))). exact E.
Defined.

(** ** Subscribers *)
(** The last subscriber cannot be removed, and removing another one removes its successor. *)
Theorem remove_subscriber_wrong {A} `{Allocator A} t before s after (h : A) :
  t_valid t = 1 → t_subscribers t = Some (before ++ s :: after)%list →
  Forall (λ x, sb_handler x ≠ sb_handler s) before →
  _tty_remove_subscriber t (sb_handler s) h =
  match after with
  | [] => Done (t, h)
  | y :: rest => h ← al_free (sb_addr y) h; Done (with_subscribers (Some (before ++ s :: rest)%list) t, h)
  end.
Proof.
  intros Hv Hs Hb. unfold _tty_remove_subscriber, is_valid_tty. rewrite Hv, Hs. cbn [Z.eqb negb].
  assert (E : remove_behind (sb_handler s) (before ++ s :: after)%list =
    match after with [] => None | y :: rest => Some (sb_addr y, (before ++ s :: rest)%list) end).
  { clear Hs. induction before as [|x before IH]; cbn [app].
    - destruct after; [done|]. cbn [remove_behind]. by rewrite Z.eqb_refl.
    - apply Forall_cons in Hb as [Hx Hb]. specialize (IH Hb).
      destruct (before ++ s :: after)%list as [|y l] eqn:El; [by destruct before|].
      cbn [remove_behind]. rewrite (proj2 (Z.eqb_neq _ _) Hx). cbn [remove_behind] in IH. rewrite IH. by destruct after. }
  rewrite E. by destruct after.
Qed.
