(* ===== verification/Crc.v ===== *)
(** * The Ethernet checksum (src/src/net/crc.c)

    [crc32_byte] works with a table of 256 words, [crc32_fill] computes that table.  The
    reference is the bit-serial division by the reflected polynomial 0xEDB88320. *)
From Stdlib Require Import Btauto.
From S2P Require Import Prelude.
#[local] Open Scope Z_scope.

Definition poly8_lookup : list Z := [
  0; 0x77073096; 0xEE0E612C; 0x990951BA;
  0x076DC419; 0x706AF48F; 0xE963A535; 0x9E6495A3;
  0x0EDB8832; 0x79DCB8A4; 0xE0D5E91E; 0x97D2D988;
  0x09B64C2B; 0x7EB17CBD; 0xE7B82D07; 0x90BF1D91;
  0x1DB71064; 0x6AB020F2; 0xF3B97148; 0x84BE41DE;
  0x1ADAD47D; 0x6DDDE4EB; 0xF4D4B551; 0x83D385C7;
  0x136C9856; 0x646BA8C0; 0xFD62F97A; 0x8A65C9EC;
  0x14015C4F; 0x63066CD9; 0xFA0F3D63; 0x8D080DF5;
  0x3B6E20C8; 0x4C69105E; 0xD56041E4; 0xA2677172;
  0x3C03E4D1; 0x4B04D447; 0xD20D85FD; 0xA50AB56B;
  0x35B5A8FA; 0x42B2986C; 0xDBBBC9D6; 0xACBCF940;
  0x32D86CE3; 0x45DF5C75; 0xDCD60DCF; 0xABD13D59;
  0x26D930AC; 0x51DE003A; 0xC8D75180; 0xBFD06116;
  0x21B4F4B5; 0x56B3C423; 0xCFBA9599; 0xB8BDA50F;
  0x2802B89E; 0x5F058808; 0xC60CD9B2; 0xB10BE924;
  0x2F6F7C87; 0x58684C11; 0xC1611DAB; 0xB6662D3D;
  0x76DC4190; 0x01DB7106; 0x98D220BC; 0xEFD5102A;
  0x71B18589; 0x06B6B51F; 0x9FBFE4A5; 0xE8B8D433;
  0x7807C9A2; 0x0F00F934; 0x9609A88E; 0xE10E9818;
  0x7F6A0DBB; 0x086D3D2D; 0x91646C97; 0xE6635C01;
  0x6B6B51F4; 0x1C6C6162; 0x856530D8; 0xF262004E;
  0x6C0695ED; 0x1B01A57B; 0x8208F4C1; 0xF50FC457;
  0x65B0D9C6; 0x12B7E950; 0x8BBEB8EA; 0xFCB9887C;
  0x62DD1DDF; 0x15DA2D49; 0x8CD37CF3; 0xFBD44C65;
  0x4DB26158; 0x3AB551CE; 0xA3BC0074; 0xD4BB30E2;
  0x4ADFA541; 0x3DD895D7; 0xA4D1C46D; 0xD3D6F4FB;
  0x4369E96A; 0x346ED9FC; 0xAD678846; 0xDA60B8D0;
  0x44042D73; 0x33031DE5; 0xAA0A4C5F; 0xDD0D7CC9;
  0x5005713C; 0x270241AA; 0xBE0B1010; 0xC90C2086;
  0x5768B525; 0x206F85B3; 0xB966D409; 0xCE61E49F;
  0x5EDEF90E; 0x29D9C998; 0xB0D09822; 0xC7D7A8B4;
  0x59B33D17; 0x2EB40D81; 0xB7BD5C3B; 0xC0BA6CAD;
  0xEDB88320; 0x9ABFB3B6; 0x03B6E20C; 0x74B1D29A;
  0xEAD54739; 0x9DD277AF; 0x04DB2615; 0x73DC1683;
  0xE3630B12; 0x94643B84; 0x0D6D6A3E; 0x7A6A5AA8;
  0xE40ECF0B; 0x9309FF9D; 0x0A00AE27; 0x7D079EB1;
  0xF00F9344; 0x8708A3D2; 0x1E01F268; 0x6906C2FE;
  0xF762575D; 0x806567CB; 0x196C3671; 0x6E6B06E7;
  0xFED41B76; 0x89D32BE0; 0x10DA7A5A; 0x67DD4ACC;
  0xF9B9DF6F; 0x8EBEEFF9; 0x17B7BE43; 0x60B08ED5;
  0xD6D6A3E8; 0xA1D1937E; 0x38D8C2C4; 0x4FDFF252;
  0xD1BB67F1; 0xA6BC5767; 0x3FB506DD; 0x48B2364B;
  0xD80D2BDA; 0xAF0A1B4C; 0x36034AF6; 0x41047A60;
  0xDF60EFC3; 0xA867DF55; 0x316E8EEF; 0x4669BE79;
  0xCB61B38C; 0xBC66831A; 0x256FD2A0; 0x5268E236;
  0xCC0C7795; 0xBB0B4703; 0x220216B9; 0x5505262F;
  0xC5BA3BBE; 0xB2BD0B28; 0x2BB45A92; 0x5CB36A04;
  0xC2D7FFA7; 0xB5D0CF31; 0x2CD99E8B; 0x5BDEAE1D;
  0x9B64C2B0; 0xEC63F226; 0x756AA39C; 0x026D930A;
  0x9C0906A9; 0xEB0E363F; 0x72076785; 0x05005713;
  0x95BF4A82; 0xE2B87A14; 0x7BB12BAE; 0x0CB61B38;
  0x92D28E9B; 0xE5D5BE0D; 0x7CDCEFB7; 0x0BDBDF21;
  0x86D3D2D4; 0xF1D4E242; 0x68DDB3F8; 0x1FDA836E;
  0x81BE16CD; 0xF6B9265B; 0x6FB077E1; 0x18B74777;
  0x88085AE6; 0xFF0F6A70; 0x66063BCA; 0x11010B5C;
  0x8F659EFF; 0xF862AE69; 0x616BFFD3; 0x166CCF45;
  0xA00AE278; 0xD70DD2EE; 0x4E048354; 0x3903B3C2;
  0xA7672661; 0xD06016F7; 0x4969474D; 0x3E6E77DB;
  0xAED16A4A; 0xD9D65ADC; 0x40DF0B66; 0x37D83BF0;
  0xA9BCAE53; 0xDEBB9EC5; 0x47B2CF7F; 0x30B5FFE9;
  0xBDBDF21C; 0xCABAC28A; 0x53B39330; 0x24B4A3A6;
  0xBAD03605; 0xCDD70693; 0x54DE5729; 0x23D967BF;
  0xB3667A2E; 0xC4614AB8; 0x5D681B02; 0x2A6F2B94;
  0xB40BBE37; 0xC30C8EA1; 0x5A05DF1B; 0x2D02EF8D].

(** One pass of the loop of [crc32_byte]. *)
Definition crc32_step (crc b : Z) : Z :=
  Z.lxor (nth (Z.to_nat (Z.lxor (u8 crc) b)) poly8_lookup 0) (Z.shiftr crc 8).

(** [p] and [bytelength] are the bytes of the buffer. *)
Definition crc32_byte (p : list Z) : Z :=
  Z.lxor (foldl crc32_step 0xffffffff p) 0xffffffff.

(** The table entry after one of the eight divisions. *)
Definition crc32_shift (w : Z) : Z :=
  if negb (Z.land w 1 =? 0) then Z.lxor (Z.shiftr w 1) 0xEDB88320 else Z.shiftr w 1.

(** One pass of the do loop: the entry [index], then the next index. *)
Definition crc32_entry (st : list Z * Z) : outcome (list Z * Z + list Z) :=
  let '(table, index) := st in
  if negb (index <? Z.of_nat (List.length table)) then Fault else
  let table := <[Z.to_nat index := index]> table in
  let table := Nat.iter 8 (λ table,
    <[Z.to_nat index := crc32_shift (nth (Z.to_nat index) table 0)]> table) table in
  let index := u8 (index + 1) in
  if negb (index =? 0) then Done (inl (table, index)) else Done (inr table).

(** The loop runs over all values of a [uint8_t] and ends when it wraps to 0. *)
Definition crc32_fill (table : list Z) : outcome (list Z) := loop 256 crc32_entry (table, 0).

(** ** The bit-serial reference *)
(** One bit of the message: the low bit of the register against it selects the division. *)
Definition crc_bit (crc : Z) (bit : bool) : Z :=
  let crc' := Z.shiftr crc 1 in
  if xorb (Z.testbit crc 0) bit then Z.lxor crc' 0xEDB88320 else crc'.

Definition byte_bits (b : Z) : list bool := Z.testbit b <$> seqZ 0 8.

Definition crc_reference (message : list Z) : Z :=
  Z.lxor (foldl crc_bit 0xffffffff (message ≫= byte_bits)) 0xffffffff.

(** ** Equivalence *)
Lemma crc_shift_bit w : crc32_shift w = crc_bit w false.
Proof.
  unfold crc32_shift, crc_bit. rewrite xorb_false_r.
  replace (Z.land w 1 =? 0) with (negb (Z.testbit w 0)).
  - by rewrite negb_involutive.
  - change 1 with (Z.ones 1). rewrite Z.land_ones by lia. change (2 ^ 1) with 2.
    rewrite Z.bit0_odd. rewrite Zmod_odd. by destruct (Z.odd w).
Qed.

(** The register after a message bit is that of the register with the bits of [b] added. *)
Lemma crc_bit_add c b : Z.lxor (crc_bit c (Z.testbit b 0)) (Z.shiftr b 1) = crc32_shift (Z.lxor c b).
Proof.
  rewrite crc_shift_bit. unfold crc_bit. rewrite xorb_false_r, Z.lxor_spec, Z.shiftr_lxor.
  destruct (xorb _ _); [|done]. rewrite !Z.lxor_assoc. f_equal. apply Z.lxor_comm.
Qed.

Lemma shift_add x y : crc32_shift (Z.lxor x y) = Z.lxor (crc32_shift x) (crc32_shift y).
Proof.
  rewrite !crc_shift_bit. unfold crc_bit. rewrite !xorb_false_r, Z.lxor_spec, Z.shiftr_lxor.
  set (p := 0xEDB88320). destruct (Z.testbit x 0), (Z.testbit y 0); cbn [xorb];
    apply Z.bits_inj'; intros i _; rewrite !Z.lxor_spec; btauto.
Qed.

Lemma shift_n_add n x y :
  Nat.iter n crc32_shift (Z.lxor x y) = Z.lxor (Nat.iter n crc32_shift x) (Nat.iter n crc32_shift y).
Proof. induction n as [|n IH]; [done|]. by rewrite !Nat.iter_succ, IH, shift_add. Qed.

(** Below the polynomial's degree a shift by zero bits is a shift. *)
Lemma shift_n_high n x : Nat.iter n crc32_shift (Z.shiftl x (Z.of_nat n)) = x.
Proof.
  revert x. induction n as [|n IH]; intros x; [apply Z.shiftl_0_r|]. rewrite Nat.iter_succ.
  replace (Z.shiftl x (Z.of_nat (S n))) with (Z.shiftl (Z.shiftl x 1) (Z.of_nat n)).
  - rewrite IH, crc_shift_bit. unfold crc_bit. rewrite xorb_false_r.
    rewrite Z.shiftl_spec, Z.testbit_neg_r by lia. by rewrite Z.shiftr_shiftl_l, Z.shiftl_0_r by lia.
  - rewrite Z.shiftl_shiftl by lia. f_equal. lia.
Qed.

(** The bits of a number of [n] bits fed in one after the other. *)
Lemma fold_bits n c b :
  0 ≤ b < 2 ^ Z.of_nat n →
  foldl crc_bit c (Z.testbit b <$> seqZ 0 (Z.of_nat n)) = Nat.iter n crc32_shift (Z.lxor c b).
Proof.
  revert c b. induction n as [|n IH]; intros c b Hb.
  - cbn in *. assert (b = 0) as -> by lia. by rewrite Z.lxor_0_r.
  - rewrite seqZ_cons by lia. replace (Z.pred (Z.of_nat (S n))) with (Z.of_nat n) by lia.
    rewrite fmap_cons. cbn [foldl]. rewrite Nat.iter_succ_r, <- crc_bit_add.
    rewrite <- (IH _ (Z.shiftr b 1)).
    + f_equal. change (Z.succ 0) with (1 + 0). rewrite <- fmap_add_seqZ, <- list_fmap_compose. apply list_fmap_ext.
      intros i x Hx. apply lookup_seqZ in Hx as [-> Hx]. cbn.
      rewrite Z.shiftr_spec by lia. f_equal. lia.
    + rewrite Z.shiftr_div_pow2 by lia. change (2 ^ 1) with 2.
      rewrite Nat2Z.inj_succ, Z.pow_succ_r in Hb by lia. dlia.
Qed.

Lemma table_is_shift i : is_byte i → nth (Z.to_nat i) poly8_lookup 0 = Nat.iter 8 crc32_shift i.
Proof.
  intros Hi. assert (Hall : Forall (λ i, nth (Z.to_nat i) poly8_lookup 0 = Nat.iter 8 crc32_shift i) (seqZ 0 256)).
  { apply Forall_fold_right. vm_compute. tauto. }
  rewrite Forall_forall in Hall. apply Hall, elem_of_seqZ. unfold is_byte in Hi. lia.
Qed.

(** A step of the table is eight steps of the register. *)
Lemma step_is_shift c b : is_byte b → crc32_step c b = Nat.iter 8 crc32_shift (Z.lxor c b).
Proof.
  intros Hb. unfold crc32_step.
  assert (Hlo : Z.lxor (u8 c) b = Z.land (Z.lxor c b) (Z.ones 8)).
  { unfold u8, wrap. rewrite <- Z.land_ones by lia.
    rewrite <- (Z.mod_small b (2 ^ 8)) at 1 by (unfold is_byte in Hb; lia). rewrite <- Z.land_ones by lia.
    apply Z.bits_inj'. intros i _. rewrite !Z.lxor_spec, !Z.land_spec, Z.lxor_spec. btauto. }
  assert (Hhi : Z.shiftr (Z.lxor c b) 8 = Z.shiftr c 8).
  { rewrite Z.shiftr_lxor, (Z.shiftr_div_pow2 b) by lia.
    rewrite (Z.div_small b) by (unfold is_byte in Hb; lia). apply Z.lxor_0_r. }
  assert (Hsplit : Z.lxor c b = Z.lxor (Z.land (Z.lxor c b) (Z.ones 8)) (Z.shiftl (Z.shiftr (Z.lxor c b) 8) 8)).
  { apply Z.bits_inj'. intros i Hi. rewrite (Z.lxor_spec (Z.land _ _)), Z.land_spec, Z.shiftl_spec by lia.
    rewrite Z.testbit_ones by lia. destruct (decide (i < 8)).
    - rewrite (Z.testbit_neg_r _ (i - 8)) by lia.
      rewrite (proj2 (Z.leb_le 0 i)), (proj2 (Z.ltb_lt i 8)) by lia. btauto.
    - rewrite Z.shiftr_spec by lia. rewrite (proj2 (Z.ltb_ge i 8)) by lia.
      replace (i - 8 + 8) with i by lia. btauto. }
  rewrite Hsplit, shift_n_add, Hhi, <- Hlo. f_equal.
  - apply table_is_shift. unfold is_byte. rewrite Hlo, Z.land_ones by lia. apply Z.mod_pos_bound. lia.
  - symmetry. apply (shift_n_high 8).
Qed.

Lemma fold_step c p : Forall is_byte p → foldl crc32_step c p = foldl crc_bit c (p ≫= byte_bits).
Proof.
  revert c. induction p as [|b p IH]; intros c Hp; [done|]. apply Forall_cons in Hp as [Hb Hp].
  cbn [foldl]. rewrite bind_cons, foldl_app, IH by done. f_equal.
  rewrite step_is_shift by done. symmetry. apply (fold_bits 8). by unfold is_byte in Hb.
Qed.

(** *** The generated table *)
Lemma iter_entry (n i : nat) t w :
  (i < List.length t)%nat →
  Nat.iter n (λ t, <[i := crc32_shift (nth i t 0)]> t) (<[i := w]> t) = <[i := Nat.iter n crc32_shift w]> t.
Proof.
  intros Hi. induction n as [|n IH]; [done|]. rewrite !Nat.iter_succ, IH.
  rewrite (nth_lookup_Some _ _ _ (Nat.iter n crc32_shift w)) by (by apply list_lookup_insert_eq).
  by rewrite list_insert_insert_eq.
Qed.

Lemma entry_ok t k (w := Nat.iter 8 crc32_shift (Z.of_nat k)) :
  (k < 256)%nat → (k < List.length t)%nat →
  crc32_entry (t, Z.of_nat k) =
  Done (if decide (k = 255%nat) then inr (<[k := w]> t) else inl (<[k := w]> t, Z.of_nat (S k))).
Proof.
  intros Hk Ht. unfold crc32_entry. rewrite (proj2 (Z.ltb_lt _ _)) by lia. cbn [negb]. cbv zeta.
  rewrite Nat2Z.id, iter_entry by lia. case_decide as Hd; [by subst k|].
  assert (u8 (Z.of_nat k + 1) = Z.of_nat (S k)) as -> by (rewrite u8_small; lia).
  by rewrite (proj2 (Z.eqb_neq _ _)) by lia.
Qed.

Lemma table_entry k : (k < 256)%nat → poly8_lookup !! k = Some (Nat.iter 8 crc32_shift (Z.of_nat k)).
Proof.
  intros Hk. destruct (lookup_lt_is_Some_2 poly8_lookup k) as [w' Hw']; [done|]. rewrite Hw'. f_equal.
  rewrite <- table_is_shift by (unfold is_byte; lia). symmetry. rewrite Nat2Z.id. by apply nth_lookup_Some.
Qed.

Lemma fill_loop fuel t k :
  (k < 256)%nat → (256 - k ≤ fuel)%nat → (256 ≤ List.length t)%nat →
  take k t = take k poly8_lookup →
  loop fuel crc32_entry (t, Z.of_nat k) = Done (poly8_lookup ++ drop 256 t).
Proof.
  revert t k. induction fuel as [|fuel IH]; intros t k Hk Hf Ht Hpre; [lia|]. cbn [loop].
  rewrite entry_ok, bind_done by lia. set (w := Nat.iter 8 crc32_shift (Z.of_nat k)).
  assert (Hpre' : take (S k) (<[k := w]> t) = take (S k) poly8_lookup).
  { rewrite (take_S_r _ _ _ (table_entry k Hk)), <- Hpre.
    rewrite (take_S_r _ k w) by (apply list_lookup_insert_eq; lia). by rewrite take_insert_ge. }
  assert (Hdrop : drop 256 (<[k := w]> t) = drop 256 t) by (apply drop_insert_lt; lia).
  case_decide as Hd.
  - f_equal. rewrite <- (take_drop 256 (<[k := w]> t)), Hdrop. f_equal. by subst k.
  - rewrite (IH (<[k := w]> t) (S k)), Hdrop; [done|lia|lia|by rewrite length_insert|done].
Qed.

(** C33: The checksum computed with the table equals the bit-serial division of the
    message by the CRC-32 polynomial, for every message; and [crc32_fill] returns and
    generates exactly the table, leaving what follows it alone. *)
Theorem crc32_equivalence (p table : list Z) :
  (Forall is_byte p → crc32_byte p = crc_reference p) ∧
  ((256 ≤ List.length table)%nat → crc32_fill table = Done (poly8_lookup ++ drop 256 table)).
Proof.
  split.
  - intros Hp. unfold crc32_byte, crc_reference. by rewrite fold_step.
  - intros Ht. apply (fill_loop 256 table 0); [lia|lia|done|done].
Qed.

Lemma crc32_equivalence_witness :
  crc32_byte [0x31; 0x32; 0x33; 0x34; 0x35; 0x36; 0x37; 0x38; 0x39] = 0xCBF43926 ∧
  crc_reference [0x31; 0x32; 0x33; 0x34; 0x35; 0x36; 0x37; 0x38; 0x39] = 0xCBF43926 ∧
  crc32_fill (replicate 256 0) = Done poly8_lookup.
Proof.
  destruct (crc32_equivalence [0x31; 0x32; 0x33; 0x34; 0x35; 0x36; 0x37; 0x38; 0x39] (replicate 256 0)) as [Hb Hf].
  split; [by vm_compute|]. split.
  - rewrite <- Hb by (repeat constructor; done). by vm_compute.
  - rewrite Hf by (rewrite length_replicate; lia). by vm_compute.
Defined.

(** ** Error detection *)
(** The division step loses nothing: the polynomial has its highest bit set. *)
Lemma crc_bit_high x b : 0 ≤ x < 2 ^ 32 → Z.testbit (crc_bit x b) 31 = xorb (Z.testbit x 0) b.
Proof.
  intros Hx. unfold crc_bit. assert (H32 : Z.testbit (Z.shiftr x 1) 31 = false).
  { rewrite Z.shiftr_spec by lia. apply (testbit_of_high 32); lia. }
  destruct (xorb _ _); [|done]. by rewrite Z.lxor_spec, H32.
Qed.

Lemma crc_bit_range x b : 0 ≤ x < 2 ^ 32 → 0 ≤ crc_bit x b < 2 ^ 32.
Proof.
  intros Hx. unfold crc_bit. assert (Hs : 0 ≤ Z.shiftr x 1 < 2 ^ 32).
  { rewrite Z.shiftr_div_pow2 by lia. dlia. }
  destruct (xorb _ _); [|done]. assert (H0 : 0 ≤ Z.lxor (Z.shiftr x 1) 0xEDB88320) by (apply Z.lxor_nonneg; lia).
  split; [done|]. apply range_of_bits; [lia|done|]. intros i Hi.
  by rewrite Z.lxor_spec, !(testbit_of_high 32) by lia.
Qed.

Lemma crc_bit_inj x y b :
  0 ≤ x < 2 ^ 32 → 0 ≤ y < 2 ^ 32 → crc_bit x b = crc_bit y b → x = y.
Proof.
  intros Hx Hy E. assert (Hlow : Z.testbit x 0 = Z.testbit y 0).
  { pose proof (f_equal (λ z, Z.testbit z 31) E) as H31. cbn beta in H31. rewrite !crc_bit_high in H31 by done.
    by destruct (Z.testbit x 0), (Z.testbit y 0), b. }
  assert (Hhigh : Z.shiftr x 1 = Z.shiftr y 1).
  { revert E. unfold crc_bit. rewrite Hlow. destruct (xorb _ _); [|done]. intros E.
    apply (f_equal (λ z, Z.lxor z 0xEDB88320)) in E. by rewrite !Z.lxor_assoc, Z.lxor_nilpotent, !Z.lxor_0_r in E. }
  apply Z.bits_inj'. intros i Hi. destruct (decide (i = 0)) as [->|Hne]; [done|].
  replace i with (i - 1 + 1) by lia. rewrite <- !Z.shiftr_spec by lia. by rewrite Hhigh.
Qed.

Lemma fold_range bs x : 0 ≤ x < 2 ^ 32 → 0 ≤ foldl crc_bit x bs < 2 ^ 32.
Proof. revert x. induction bs as [|b bs IH]; intros x Hx; [done|]. cbn. by apply IH, crc_bit_range. Qed.

Lemma fold_inj bs x y :
  0 ≤ x < 2 ^ 32 → 0 ≤ y < 2 ^ 32 → foldl crc_bit x bs = foldl crc_bit y bs → x = y.
Proof.
  revert x y. induction bs as [|b bs IH]; intros x y Hx Hy E; [done|]. cbn in E.
  apply IH in E; [|by apply crc_bit_range..]. by apply crc_bit_inj in E.
Qed.

(** Bits as a number, the first one lowest. *)
Fixpoint bits_value (bs : list bool) : Z :=
  match bs with [] => 0 | b :: bs => Z.b2z b + 2 * bits_value bs end.

Lemma bits_value_range bs : 0 ≤ bits_value bs < 2 ^ Z.of_nat (List.length bs).
Proof.
  induction bs as [|b bs IH]; [done|]. cbn [bits_value List.length].
  rewrite Nat2Z.inj_succ, Z.pow_succ_r by lia. destruct b; cbn; lia.
Qed.

Lemma bits_value_bits bs : Z.testbit (bits_value bs) <$> seqZ 0 (Z.of_nat (List.length bs)) = bs.
Proof.
  induction bs as [|b bs IH]; [done|]. cbn [bits_value List.length]. rewrite seqZ_cons by lia.
  replace (Z.pred (Z.of_nat (S (List.length bs)))) with (Z.of_nat (List.length bs)) by lia.
  rewrite fmap_cons. f_equal.
  - rewrite Z.add_comm. apply Z.testbit_0_r.
  - etrans; [|exact IH]. change (Z.succ 0) with (1 + 0). rewrite <- fmap_add_seqZ, <- list_fmap_compose.
    apply list_fmap_ext. intros i x Hx. apply lookup_seqZ in Hx as [-> Hx]. cbn -[Z.of_nat].
    rewrite Z.add_comm. replace (1 + (0 + Z.of_nat i)) with (Z.succ (Z.of_nat i)) by lia.
    by rewrite Z.testbit_succ_r by lia.
Qed.

Lemma shift_n_inj n x y :
  0 ≤ x < 2 ^ 32 → 0 ≤ y < 2 ^ 32 → Nat.iter n crc32_shift x = Nat.iter n crc32_shift y → x = y.
Proof.
  intros Hx Hy E. apply (fold_inj (replicate n false)); [done..|].
  assert (Hr : ∀ z, Nat.iter n crc32_shift z = foldl crc_bit z (replicate n false)); [|by rewrite <- !Hr].
  clear. induction n as [|n IH]; intros z; [done|]. rewrite Nat.iter_succ_r, IH, crc_shift_bit. done.
Qed.

(** Bursts of at most 32 bits lead to different registers. *)
Lemma burst_differs c x y :
  0 ≤ c < 2 ^ 32 → List.length x = List.length y → (List.length x ≤ 32)%nat →
  foldl crc_bit c x = foldl crc_bit c y → x = y.
Proof.
  intros Hc Hlen Hn E.
  assert (Hlx : ∀ bs, (List.length bs ≤ 32)%nat → 0 ≤ Z.lxor c (bits_value bs) < 2 ^ 32).
  { intros bs Hbs. pose proof (bits_value_range bs) as Hr.
    assert (2 ^ Z.of_nat (List.length bs) ≤ 2 ^ 32) by (apply Z.pow_le_mono_r; lia).
    assert (H0 : 0 ≤ Z.lxor c (bits_value bs)) by (apply Z.lxor_nonneg; lia).
    split; [done|]. apply range_of_bits; [lia|done|]. intros i Hi.
    by rewrite Z.lxor_spec, !(testbit_of_high 32) by lia. }
  rewrite <- (bits_value_bits x), <- (bits_value_bits y), !fold_bits, Hlen in E by apply bits_value_range.
  apply shift_n_inj in E; [|apply Hlx; lia..].
  apply (f_equal (Z.lxor c)) in E. rewrite <- !Z.lxor_assoc, !Z.lxor_nilpotent, !Z.lxor_0_l in E.
  by rewrite <- (bits_value_bits x), <- (bits_value_bits y), E, Hlen.
Qed.

(** Two messages that differ only within 32 consecutive bits, wherever these lie,
    have different checksums. *)
Theorem crc32_detects_burst (p q : list Z) (before x y after : list bool) :
  Forall is_byte p → Forall is_byte q →
  p ≫= byte_bits = before ++ x ++ after → q ≫= byte_bits = before ++ y ++ after →
  List.length x = List.length y → (List.length x ≤ 32)%nat → x ≠ y →
  crc32_byte p ≠ crc32_byte q.
Proof.
  intros Hp Hq Ep Eq Hlen Hn Hne E. apply Hne. unfold crc32_byte in E. rewrite !fold_step, Ep, Eq, !foldl_app in E by done.
  apply (f_equal (λ z, Z.lxor z 0xffffffff)) in E. rewrite !Z.lxor_assoc, Z.lxor_nilpotent, !Z.lxor_0_r in E.
  assert (Hc : 0 ≤ foldl crc_bit 0xffffffff before < 2 ^ 32) by (by apply fold_range).
  apply fold_inj in E; [|by apply fold_range..]. by apply burst_differs in E.
Qed.

Lemma crc32_detects_burst_witness : crc32_byte [0x12; 0x34] ≠ crc32_byte [0x92; 0x35].
Proof.
  apply (crc32_detects_burst [0x12; 0x34] [0x92; 0x35] (take 7 (byte_bits 0x12)) [false; false] [true; true]
           (drop 1 (byte_bits 0x34))); (done || by repeat constructor).
Defined.
