(* ===== verification/Md5.v ===== *)
(** * The MD5 message digest (src/src/util/md5.c)

    The hash table digests its entries with it.  The compression function is unrolled in
    the source and works with rewritten round functions; [MD5_Update] takes a message in
    pieces, buffering what does not fill a block.  The reference is RFC 1321: the four
    auxiliary functions, the 64 operations by their index, padding and length.

    A pointer with a size is a list of bytes.  The field [block] of the context is not used
    on x86-64, where [SET] and [GET] read the words in place. *)
From Stdlib Require Import Btauto.
From S2P Require Import Prelude CString.
#[local] Open Scope Z_scope.

Record md5_ctx := Md5Ctx {
  ctx_lo : Z; ctx_hi : Z;
  ctx_a : Z; ctx_b : Z; ctx_c : Z; ctx_d : Z;
  ctx_buffer : list Z;
}.

(** ** The compression function *)
Module Round.
Definition F (x y z : Z) : Z := Z.lxor z (Z.land x (Z.lxor y z)).
Definition G (x y z : Z) : Z := Z.lxor y (Z.land z (Z.lxor x y)).
Definition H (x y z : Z) : Z := Z.lxor (Z.lxor x y) z.
Definition H2 (x y z : Z) : Z := Z.lxor x (Z.lxor y z).
Definition I (x y z : Z) : Z := Z.lxor y (Z.lor x (u32 (Z.lnot z))).
End Round.

Definition STEP (f : Z → Z → Z → Z) (a b c d x t s : Z) : Z :=
  let a := u32 (a + u32 (u32 (f b c d + x) + t)) in
  let a := Z.lor (u32 (Z.shiftl a s)) (Z.shiftr (Z.land a 0xffffffff) (32 - s)) in
  u32 (a + b).

(** The little-endian word [n] of a block. *)
Definition SET (ptr : list Z) (n : nat) : Z := le_value (take 4 (drop (4 * n) ptr)).

(** The 64 rows of a block: the round function, the register assigned (the other three
    follow it cyclically), the word, the constant and the shift. *)
Inductive register := Ra | Rb | Rc | Rd.

Definition rows : list ((Z → Z → Z → Z) * register * nat * Z * Z) := [
  (* Round 1 *)
  (Round.F, Ra, 0%nat, 0xd76aa478, 7);
  (Round.F, Rd, 1%nat, 0xe8c7b756, 12);
  (Round.F, Rc, 2%nat, 0x242070db, 17);
  (Round.F, Rb, 3%nat, 0xc1bdceee, 22);
  (Round.F, Ra, 4%nat, 0xf57c0faf, 7);
  (Round.F, Rd, 5%nat, 0x4787c62a, 12);
  (Round.F, Rc, 6%nat, 0xa8304613, 17);
  (Round.F, Rb, 7%nat, 0xfd469501, 22);
  (Round.F, Ra, 8%nat, 0x698098d8, 7);
  (Round.F, Rd, 9%nat, 0x8b44f7af, 12);
  (Round.F, Rc, 10%nat, 0xffff5bb1, 17);
  (Round.F, Rb, 11%nat, 0x895cd7be, 22);
  (Round.F, Ra, 12%nat, 0x6b901122, 7);
  (Round.F, Rd, 13%nat, 0xfd987193, 12);
  (Round.F, Rc, 14%nat, 0xa679438e, 17);
  (Round.F, Rb, 15%nat, 0x49b40821, 22);
  (* Round 2 *)
  (Round.G, Ra, 1%nat, 0xf61e2562, 5);
  (Round.G, Rd, 6%nat, 0xc040b340, 9);
  (Round.G, Rc, 11%nat, 0x265e5a51, 14);
  (Round.G, Rb, 0%nat, 0xe9b6c7aa, 20);
  (Round.G, Ra, 5%nat, 0xd62f105d, 5);
  (Round.G, Rd, 10%nat, 0x02441453, 9);
  (Round.G, Rc, 15%nat, 0xd8a1e681, 14);
  (Round.G, Rb, 4%nat, 0xe7d3fbc8, 20);
  (Round.G, Ra, 9%nat, 0x21e1cde6, 5);
  (Round.G, Rd, 14%nat, 0xc33707d6, 9);
  (Round.G, Rc, 3%nat, 0xf4d50d87, 14);
  (Round.G, Rb, 8%nat, 0x455a14ed, 20);
  (Round.G, Ra, 13%nat, 0xa9e3e905, 5);
  (Round.G, Rd, 2%nat, 0xfcefa3f8, 9);
  (Round.G, Rc, 7%nat, 0x676f02d9, 14);
  (Round.G, Rb, 12%nat, 0x8d2a4c8a, 20);
  (* Round 3 *)
  (Round.H, Ra, 5%nat, 0xfffa3942, 4);
  (Round.H2, Rd, 8%nat, 0x8771f681, 11);
  (Round.H, Rc, 11%nat, 0x6d9d6122, 16);
  (Round.H2, Rb, 14%nat, 0xfde5380c, 23);
  (Round.H, Ra, 1%nat, 0xa4beea44, 4);
  (Round.H2, Rd, 4%nat, 0x4bdecfa9, 11);
  (Round.H, Rc, 7%nat, 0xf6bb4b60, 16);
  (Round.H2, Rb, 10%nat, 0xbebfbc70, 23);
  (Round.H, Ra, 13%nat, 0x289b7ec6, 4);
  (Round.H2, Rd, 0%nat, 0xeaa127fa, 11);
  (Round.H, Rc, 3%nat, 0xd4ef3085, 16);
  (Round.H2, Rb, 6%nat, 0x04881d05, 23);
  (Round.H, Ra, 9%nat, 0xd9d4d039, 4);
  (Round.H2, Rd, 12%nat, 0xe6db99e5, 11);
  (Round.H, Rc, 15%nat, 0x1fa27cf8, 16);
  (Round.H2, Rb, 2%nat, 0xc4ac5665, 23);
  (* Round 4 *)
  (Round.I, Ra, 0%nat, 0xf4292244, 6);
  (Round.I, Rd, 7%nat, 0x432aff97, 10);
  (Round.I, Rc, 14%nat, 0xab9423a7, 15);
  (Round.I, Rb, 5%nat, 0xfc93a039, 21);
  (Round.I, Ra, 12%nat, 0x655b59c3, 6);
  (Round.I, Rd, 3%nat, 0x8f0ccc92, 10);
  (Round.I, Rc, 10%nat, 0xffeff47d, 15);
  (Round.I, Rb, 1%nat, 0x85845dd1, 21);
  (Round.I, Ra, 8%nat, 0x6fa87e4f, 6);
  (Round.I, Rd, 15%nat, 0xfe2ce6e0, 10);
  (Round.I, Rc, 6%nat, 0xa3014314, 15);
  (Round.I, Rb, 13%nat, 0x4e0811a1, 21);
  (Round.I, Ra, 4%nat, 0xf7537e82, 6);
  (Round.I, Rd, 11%nat, 0xbd3af235, 10);
  (Round.I, Rc, 2%nat, 0x2ad7d2bb, 15);
  (Round.I, Rb, 9%nat, 0xeb86d391, 21)].

Definition run_row (ptr : list Z) (regs : Z * Z * Z * Z) (row : (Z → Z → Z → Z) * register * nat * Z * Z) :
    Z * Z * Z * Z :=
  let '(a, b, c, d) := regs in
  let '(f, r, n, t, s) := row in
  match r with
  | Ra => (STEP f a b c d (SET ptr n) t s, b, c, d)
  | Rd => (a, b, c, STEP f d a b c (SET ptr n) t s)
  | Rc => (a, b, STEP f c d a b (SET ptr n) t s, d)
  | Rb => (a, STEP f b c d a (SET ptr n) t s, c, d)
  end.

(** One block of the loop of [body]. *)
Definition body_block (ptr : list Z) (regs : Z * Z * Z * Z) : Z * Z * Z * Z :=
  let '(saved_a, saved_b, saved_c, saved_d) := regs in
  let '(a, b, c, d) := foldl (run_row ptr) regs rows in
  (u32 (a + saved_a), u32 (b + saved_b), u32 (c + saved_c), u32 (d + saved_d)).

(** The do loop over the blocks; it returns where the data goes on. *)
Definition body (ctx : md5_ctx) (data : list Z) (size : Z) : outcome (md5_ctx * list Z) :=
  '(a, b, c, d, ptr) ← loop (S (List.length data)) (λ '(regs, ptr, size),
     if (List.length ptr <? 64)%nat then Fault else
     let regs := body_block (take 64 ptr) regs in
     let ptr := drop 64 ptr in
     let size := u64 (size - 64) in
     if negb (size =? 0) then Done (inl (regs, ptr, size)) else Done (inr (regs, ptr)))
     ((ctx_a ctx, ctx_b ctx, ctx_c ctx, ctx_d ctx), data, size);
  Done (Md5Ctx (ctx_lo ctx) (ctx_hi ctx) a b c d (ctx_buffer ctx), ptr).

Definition with_buffer (ctx : md5_ctx) (buf : list Z) : md5_ctx :=
  Md5Ctx (ctx_lo ctx) (ctx_hi ctx) (ctx_a ctx) (ctx_b ctx) (ctx_c ctx) (ctx_d ctx) buf.

(** [memcpy] or [memset] into the buffer; past its end is outside the model. *)
Definition to_buffer (off : Z) (bytes : list Z) (ctx : md5_ctx) : outcome md5_ctx :=
  if (off + Z.of_nat (List.length bytes) <=? 64) then
    let buf := take (Z.to_nat off) (ctx_buffer ctx) ++ bytes ++
               drop (Z.to_nat off + List.length bytes) (ctx_buffer ctx) in
    Done (with_buffer ctx buf)
  else Fault.

Definition MD5_Init (ctx : md5_ctx) : md5_ctx :=
  Md5Ctx 0 0 0x67452301 0xefcdab89 0x98badcfe 0x10325476 (ctx_buffer ctx).

Definition MD5_Update (ctx : md5_ctx) (data : list Z) : outcome md5_ctx :=
  let size := Z.of_nat (List.length data) in
  let saved_lo := ctx_lo ctx in
  let lo := Z.land (u64 (saved_lo + size)) 0x1fffffff in
  let hi := if lo <? saved_lo then u32 (ctx_hi ctx + 1) else ctx_hi ctx in
  let hi := u32 (hi + Z.shiftr size 29) in
  let ctx := Md5Ctx lo hi (ctx_a ctx) (ctx_b ctx) (ctx_c ctx) (ctx_d ctx) (ctx_buffer ctx) in
  let used := Z.land saved_lo 0x3f in
  let available := 64 - used in
  if negb (used =? 0) && (size <? available) then to_buffer used data ctx else
  '(ctx, data) ←
    (if negb (used =? 0) then
       ctx ← to_buffer used (take (Z.to_nat available) data) ctx;
       '(ctx, _) ← body ctx (ctx_buffer ctx) 64;
       Done (ctx, drop (Z.to_nat available) data)
     else Done (ctx, data));
  let size := Z.of_nat (List.length data) in
  '(ctx, data) ←
    (if size >=? 64 then body ctx data (Z.land size (u64 (Z.lnot 0x3f))) else Done (ctx, data));
  to_buffer 0 (take (Z.to_nat (Z.land size 0x3f)) data) ctx.

(** The four bytes [OUT] stores. *)
Definition OUT (src : Z) : list Z :=
  [u8 src; u8 (Z.shiftr src 8); u8 (Z.shiftr src 16); u8 (Z.shiftr src 24)].

(** The digest, and the context it leaves behind. *)
Definition MD5_Final (ctx : md5_ctx) : outcome (list Z * md5_ctx) :=
  let used := Z.land (ctx_lo ctx) 0x3f in
  ctx ← to_buffer used [0x80] ctx;
  let used := used + 1 in
  let available := 64 - used in
  '(ctx, used, available) ←
    (if available <? 8 then
       ctx ← to_buffer used (replicate (Z.to_nat available) 0) ctx;
       '(ctx, _) ← body ctx (ctx_buffer ctx) 64;
       Done (ctx, 0, 64)
     else Done (ctx, used, available));
  ctx ← to_buffer used (replicate (Z.to_nat (available - 8)) 0) ctx;
  let lo := u32 (Z.shiftl (ctx_lo ctx) 3) in
  let ctx := Md5Ctx lo (ctx_hi ctx) (ctx_a ctx) (ctx_b ctx) (ctx_c ctx) (ctx_d ctx) (ctx_buffer ctx) in
  ctx ← to_buffer 56 (OUT (ctx_lo ctx)) ctx;
  ctx ← to_buffer 60 (OUT (ctx_hi ctx)) ctx;
  '(ctx, _) ← body ctx (ctx_buffer ctx) 64;
  Done (OUT (ctx_a ctx) ++ OUT (ctx_b ctx) ++ OUT (ctx_c ctx) ++ OUT (ctx_d ctx),
        Md5Ctx 0 0 0 0 0 0 (replicate 64 0)).

(** [ctx] is the uninitialised context on the stack. *)
Definition MD5_Digest (ctx : md5_ctx) (data : list Z) : outcome (list Z) :=
  ctx ← MD5_Update (MD5_Init ctx) data;
  '(result, _) ← MD5_Final ctx;
  Done result.

(** The same into a static buffer, which it returns. *)
Definition MD5_UNSAFE_Buffered_digest (ctx : md5_ctx) (data : list Z) : outcome (list Z) :=
  ctx ← MD5_Update (MD5_Init ctx) data;
  '(result, _) ← MD5_Final ctx;
  Done result.

(** ** RFC 1321 *)
Definition rfc_F (x y z : Z) : Z := Z.lor (Z.land x y) (Z.land (Z.lnot x) z).
Definition rfc_G (x y z : Z) : Z := Z.lor (Z.land x z) (Z.land y (Z.lnot z)).
Definition rfc_H (x y z : Z) : Z := Z.lxor x (Z.lxor y z).
Definition rfc_I (x y z : Z) : Z := Z.lxor y (Z.lor x (u32 (Z.lnot z))).

Definition rotl (x s : Z) : Z := Z.lor (u32 (Z.shiftl x s)) (Z.shiftr x (32 - s)).

Definition rfc_T : list Z := [
  0xd76aa478; 0xe8c7b756; 0x242070db; 0xc1bdceee;
  0xf57c0faf; 0x4787c62a; 0xa8304613; 0xfd469501;
  0x698098d8; 0x8b44f7af; 0xffff5bb1; 0x895cd7be;
  0x6b901122; 0xfd987193; 0xa679438e; 0x49b40821;
  0xf61e2562; 0xc040b340; 0x265e5a51; 0xe9b6c7aa;
  0xd62f105d; 0x02441453; 0xd8a1e681; 0xe7d3fbc8;
  0x21e1cde6; 0xc33707d6; 0xf4d50d87; 0x455a14ed;
  0xa9e3e905; 0xfcefa3f8; 0x676f02d9; 0x8d2a4c8a;
  0xfffa3942; 0x8771f681; 0x6d9d6122; 0xfde5380c;
  0xa4beea44; 0x4bdecfa9; 0xf6bb4b60; 0xbebfbc70;
  0x289b7ec6; 0xeaa127fa; 0xd4ef3085; 0x04881d05;
  0xd9d4d039; 0xe6db99e5; 0x1fa27cf8; 0xc4ac5665;
  0xf4292244; 0x432aff97; 0xab9423a7; 0xfc93a039;
  0x655b59c3; 0x8f0ccc92; 0xffeff47d; 0x85845dd1;
  0x6fa87e4f; 0xfe2ce6e0; 0xa3014314; 0x4e0811a1;
  0xf7537e82; 0xbd3af235; 0x2ad7d2bb; 0xeb86d391].

Definition rfc_shift (i : nat) : Z :=
  nth (i mod 4) (nth (i / 16) [[7; 12; 17; 22]; [5; 9; 14; 20]; [4; 11; 16; 23]; [6; 10; 15; 21]] []) 0.

(** The operation [i]: the registers move on by one place. *)
Definition rfc_step (X : nat → Z) (regs : Z * Z * Z * Z) (i : nat) : Z * Z * Z * Z :=
  let '(a, b, c, d) := regs in
  let '(f, k) := match (i / 16)%nat with
    | 0%nat => (rfc_F, i)
    | 1%nat => (rfc_G, (5 * i + 1) mod 16)%nat
    | 2%nat => (rfc_H, (3 * i + 5) mod 16)%nat
    | _ => (rfc_I, (7 * i) mod 16)%nat
    end in
  (d, u32 (b + rotl (u32 (a + f b c d + X k + nth i rfc_T 0)) (rfc_shift i)), b, c).

Definition rfc_block (regs : Z * Z * Z * Z) (blk : list Z) : Z * Z * Z * Z :=
  let '(a, b, c, d) := foldl (rfc_step (SET blk)) regs (seq 0 64) in
  let '(a0, b0, c0, d0) := regs in
  (u32 (a0 + a), u32 (b0 + b), u32 (c0 + c), u32 (d0 + d)).

(** The first [n] blocks of a list. *)
Fixpoint blocks (n : nat) (l : list Z) : list (list Z) :=
  match n with O => [] | S n => take 64 l :: blocks n (drop 64 l) end.

Definition rfc_init : Z * Z * Z * Z := (0x67452301, 0xefcdab89, 0x98badcfe, 0x10325476).

(** One byte 0x80, zeroes up to a length of 56 modulo 64, the number of bits as 64 bits. *)
Definition rfc_pad (msg : list Z) : list Z :=
  let bits := u64 (8 * Z.of_nat (List.length msg)) in
  msg ++ [0x80] ++ replicate (Z.to_nat ((55 - Z.of_nat (List.length msg)) mod 64)) 0 ++
  OUT (bits mod 2 ^ 32) ++ OUT (bits / 2 ^ 32).

Definition md5 (msg : list Z) : list Z :=
  let padded := rfc_pad msg in
  let '(a, b, c, d) := foldl rfc_block rfc_init (blocks (List.length padded / 64) padded) in
  OUT a ++ OUT b ++ OUT c ++ OUT d.

(** ** The compression function follows the RFC *)
Lemma F_rfc x y z : Round.F x y z = rfc_F x y z.
Proof.
  unfold Round.F, rfc_F. apply Z.bits_inj'. intros i Hi.
  rewrite Z.lxor_spec, Z.land_spec, Z.lxor_spec, Z.lor_spec, !Z.land_spec, Z.lnot_spec by lia. btauto.
Qed.

Lemma G_rfc x y z : Round.G x y z = rfc_G x y z.
Proof.
  unfold Round.G, rfc_G. apply Z.bits_inj'. intros i Hi.
  rewrite Z.lxor_spec, Z.land_spec, Z.lxor_spec, Z.lor_spec, !Z.land_spec, Z.lnot_spec by lia. btauto.
Qed.

Lemma H_rfc x y z : Round.H x y z = rfc_H x y z.
Proof. apply Z.lxor_assoc. Qed.

Lemma step_rfc f g a b c d x t s :
  f b c d = g b c d → u32 (b + rotl (u32 (a + g b c d + x + t)) s) = STEP f a b c d x t s.
Proof.
  intros Hf. unfold STEP, rotl. cbv zeta. rewrite Hf. clear Hf.
  assert (Hw : u32 (a + u32 (u32 (g b c d + x) + t)) = u32 (a + g b c d + x + t)).
  { unfold u32, wrap. rewrite Zplus_mod_idemp_l, Zplus_mod_idemp_r. f_equal. lia. }
  rewrite Hw. set (w := u32 (a + g b c d + x + t)). pose proof (u32_range (a + g b c d + x + t)) as Hr. fold w in Hr.
  change 0xffffffff with (Z.ones 32). rewrite Z.land_ones, (Z.mod_small w) by lia. f_equal. lia.
Qed.

(** An operation of each round, in the form of the source. *)
Lemma round_1 X a b c d i :
  (i / 16 = 0)%nat → rfc_step X (a, b, c, d) i = (d, STEP Round.F a b c d (X i) (nth i rfc_T 0) (rfc_shift i), b, c).
Proof. intros Hi. unfold rfc_step. rewrite Hi. by rewrite (step_rfc Round.F) by apply F_rfc. Qed.

Lemma round_2 X a b c d i :
  (i / 16 = 1)%nat →
  rfc_step X (a, b, c, d) i = (d, STEP Round.G a b c d (X ((5 * i + 1) mod 16)%nat) (nth i rfc_T 0) (rfc_shift i), b, c).
Proof. intros Hi. unfold rfc_step. rewrite Hi. by rewrite (step_rfc Round.G) by apply G_rfc. Qed.

Lemma round_3 X a b c d i :
  (i / 16 = 2)%nat →
  rfc_step X (a, b, c, d) i =
  (d, STEP (if Nat.even i then Round.H else Round.H2) a b c d (X ((3 * i + 5) mod 16)%nat) (nth i rfc_T 0) (rfc_shift i), b, c).
Proof.
  intros Hi. unfold rfc_step. rewrite Hi.
  by rewrite (step_rfc (if Nat.even i then Round.H else Round.H2)) by (destruct (Nat.even i); [apply H_rfc|done]).
Qed.

Lemma round_4 X a b c d i :
  (i / 16 = 3)%nat →
  rfc_step X (a, b, c, d) i = (d, STEP Round.I a b c d (X ((7 * i) mod 16)%nat) (nth i rfc_T 0) (rfc_shift i), b, c).
Proof. intros Hi. unfold rfc_step. rewrite Hi. by rewrite (step_rfc Round.I). Qed.

Lemma foldl_step {A B} (f : A → B → A) a x l : foldl f a (x :: l) = foldl f (f a x) l.
Proof. done. Qed.

(** One row on both sides; the value it computes gets a name. *)
Ltac md5_step round :=
  rewrite (foldl_step (run_row _)), (foldl_step (rfc_step _)), round by reflexivity;
  cbn [run_row];
  lazymatch goal with |- foldl _ _ _ = foldl _ (_, ?e, _, _) _ =>
    lazymatch goal with |- context [STEP ?f ?a ?b ?c ?d (SET ?p ?n) ?t ?s] =>
      change e with (STEP f a b c d (SET p n) t s);
      generalize (STEP f a b c d (SET p n) t s); intros ?
    end
  end.

Lemma rows_rfc blk a b c d :
  foldl (run_row blk) (a, b, c, d) rows =
  foldl (rfc_step (SET blk)) (a, b, c, d) (seq 0 64).
Proof.
  cbn [seq]. unfold rows.
  do 16 md5_step round_1. do 16 md5_step round_2. do 16 md5_step round_3. do 16 md5_step round_4. done.
Qed.

Lemma block_rfc blk regs : body_block blk regs = rfc_block regs blk.
Proof.
  destruct regs as [[[a0 b0] c0] d0]. unfold body_block, rfc_block. rewrite rows_rfc.
  destruct (foldl _ _ (seq 0 64)) as [[[a b] c] d].
  by rewrite (Z.add_comm a), (Z.add_comm b), (Z.add_comm c), (Z.add_comm d).
Qed.

(** ** Blocks *)
Lemma blocks_app n k l : blocks (n + k) l = blocks n l ++ blocks k (drop (64 * n) l).
Proof.
  revert l. induction n as [|n IH]; intros l; [done|]. cbn [Nat.add blocks app]. rewrite IH, drop_drop.
  by replace (64 + 64 * n)%nat with (64 * S n)%nat by lia.
Qed.

(** Only the first [64 * n] elements matter. *)
Lemma blocks_take n l l' : (64 * n ≤ List.length l)%nat → blocks n (l ++ l') = blocks n l.
Proof.
  revert l. induction n as [|n IH]; intros l Hl; [done|]. cbn [blocks].
  rewrite take_app_le, drop_app_le by lia. by rewrite IH by (rewrite length_drop; lia).
Qed.

Definition regs_of (ctx : md5_ctx) : Z * Z * Z * Z := (ctx_a ctx, ctx_b ctx, ctx_c ctx, ctx_d ctx).

Definition with_regs (ctx : md5_ctx) (regs : Z * Z * Z * Z) : md5_ctx :=
  let '(a, b, c, d) := regs in Md5Ctx (ctx_lo ctx) (ctx_hi ctx) a b c d (ctx_buffer ctx).

Lemma body_loop fuel regs ptr n :
  (0 < n)%nat → (n ≤ fuel)%nat → (64 * n ≤ List.length ptr)%nat → 64 * Z.of_nat n < 2 ^ 64 →
  loop fuel (λ '(regs, ptr, size),
     if (List.length ptr <? 64)%nat then Fault else
     let regs := body_block (take 64 ptr) regs in
     let ptr := drop 64 ptr in
     let size := u64 (size - 64) in
     if negb (size =? 0) then Done (inl (regs, ptr, size)) else Done (inr (regs, ptr)))
     (regs, ptr, 64 * Z.of_nat n) =
  Done (foldl rfc_block regs (blocks n ptr), drop (64 * n) ptr).
Proof.
  revert fuel regs ptr. induction n as [|n IH]; intros fuel regs ptr H0 Hf Hl Hn; [lia|].
  destruct fuel as [|fuel]; [lia|]. cbn [loop blocks foldl].
  rewrite (proj2 (Nat.ltb_ge _ _)) by lia. rewrite block_rfc, u64_small by lia.
  destruct (decide (n = 0%nat)) as [->|Hne]; [done|].
  rewrite (proj2 (Z.eqb_neq _ _)) by lia. cbn [negb]. rewrite bind_done.
  replace (64 * Z.of_nat (S n) - 64) with (64 * Z.of_nat n) by lia.
  rewrite IH by (try rewrite length_drop; lia). rewrite drop_drop.
  by replace (64 + 64 * n)%nat with (64 * S n)%nat by lia.
Qed.

Lemma body_ok ctx data n :
  (0 < n)%nat → (64 * n ≤ List.length data)%nat → 64 * Z.of_nat n < 2 ^ 64 →
  body ctx data (64 * Z.of_nat n) =
  Done (with_regs ctx (foldl rfc_block (regs_of ctx) (blocks n data)), drop (64 * n) data).
Proof.
  intros H0 Hl Hn. unfold body. change (ctx_a ctx, ctx_b ctx, ctx_c ctx, ctx_d ctx) with (regs_of ctx). rewrite body_loop by lia.
  rewrite bind_done. by destruct (foldl _ _ _) as [[[a b] c] d].
Qed.

(** ** The buffer *)
Lemma to_buffer_ok off bytes ctx pre :
  List.length (ctx_buffer ctx) = 64%nat → take (List.length pre) (ctx_buffer ctx) = pre →
  off = Z.of_nat (List.length pre) → (List.length pre + List.length bytes ≤ 64)%nat →
  ∃ buf, to_buffer off bytes ctx = Done (with_buffer ctx buf) ∧ List.length buf = 64%nat ∧
    take (List.length (pre ++ bytes)) buf = pre ++ bytes.
Proof.
  intros Hb Hpre -> Hl. unfold to_buffer. rewrite (proj2 (Z.leb_le _ _)) by lia. rewrite Nat2Z.id, Hpre.
  eexists. split; [done|]. split.
  - rewrite !length_app, length_drop. lia.
  - rewrite app_assoc. by rewrite take_app_length.
Qed.

(** [msg] has gone into the context: its full blocks into the registers, the rest into the
    buffer, its length into the counters. *)
Record absorbed (ctx : md5_ctx) (msg : list Z) : Prop := {
  ab_lo : ctx_lo ctx = Z.of_nat (List.length msg) mod 2 ^ 29;
  ab_hi : ctx_hi ctx = (Z.of_nat (List.length msg) / 2 ^ 29) mod 2 ^ 32;
  ab_buffer : List.length (ctx_buffer ctx) = 64%nat;
  ab_split : ∃ q full rest,
    msg = full ++ rest ∧ List.length full = (64 * q)%nat ∧ (List.length rest < 64)%nat ∧
    regs_of ctx = foldl rfc_block rfc_init (blocks q full) ∧
    take (List.length rest) (ctx_buffer ctx) = rest;
}.

Lemma init_absorbs ctx : List.length (ctx_buffer ctx) = 64%nat → absorbed (MD5_Init ctx) [].
Proof. intros Hb. split; [done..|]. exists 0%nat, [], []. by split_and!; try (cbn; lia). Qed.

(** The counters follow the length. *)
Lemma counters n size :
  0 ≤ n → 0 ≤ size < 2 ^ 64 →
  let lo := Z.land (u64 (n mod 2 ^ 29 + size)) 0x1fffffff in
  let hi := if lo <? n mod 2 ^ 29 then u32 ((n / 2 ^ 29) mod 2 ^ 32 + 1) else (n / 2 ^ 29) mod 2 ^ 32 in
  lo = (n + size) mod 2 ^ 29 ∧ u32 (hi + Z.shiftr size 29) = ((n + size) / 2 ^ 29) mod 2 ^ 32.
Proof.
  intros Hn Hs. cbv zeta.
  assert (Elo : Z.land (u64 (n mod 2 ^ 29 + size)) 0x1fffffff = (n + size) mod 2 ^ 29).
  { change 0x1fffffff with (Z.ones 29). rewrite Z.land_ones by lia. unfold u64, wrap.
    rewrite Z.mod_mod_divide by (by exists (2 ^ 35)). by rewrite Zplus_mod_idemp_l. }
  rewrite Elo. split; [done|]. rewrite Z.shiftr_div_pow2 by lia.
  assert (Hq : (n + size) / 2 ^ 29 =
    n / 2 ^ 29 + size / 2 ^ 29 + (if (n + size) mod 2 ^ 29 <? n mod 2 ^ 29 then 1 else 0)).
  { destruct (Z.ltb_spec ((n + size) mod 2 ^ 29) (n mod 2 ^ 29)); dlia. }
  rewrite Hq. unfold u32, wrap. destruct (_ <? _).
  - rewrite Zplus_mod_idemp_l, <- Z.add_assoc, Zplus_mod_idemp_l. f_equal. lia.
  - rewrite Zplus_mod_idemp_l. f_equal. lia.
Qed.

(** ** [MD5_Update] *)
Definition with_count (ctx : md5_ctx) (lo hi : Z) : md5_ctx :=
  Md5Ctx lo hi (ctx_a ctx) (ctx_b ctx) (ctx_c ctx) (ctx_d ctx) (ctx_buffer ctx).

Lemma land_63 n : Z.land n 0x3f = n mod 64.
Proof. change 0x3f with (Z.ones 6). by rewrite Z.land_ones by lia. Qed.

Lemma land_not_63 n : 0 ≤ n < 2 ^ 64 → Z.land n (u64 (Z.lnot 0x3f)) = 64 * (n / 64).
Proof.
  intros Hn. change (u64 (Z.lnot 0x3f)) with (Z.shiftl (Z.ones 58) 6).
  assert (E : Z.land n (Z.shiftl (Z.ones 58) 6) = Z.shiftl (Z.shiftr n 6) 6).
  { apply Z.bits_inj'. intros i Hi. rewrite Z.land_spec, !Z.shiftl_spec by lia.
    destruct (decide (i < 6)).
    - rewrite !(Z.testbit_neg_r _ (i - 6)) by lia. btauto.
    - rewrite Z.shiftr_spec by lia. replace (i - 6 + 6) with i by lia. destruct (decide (i < 64)).
      + rewrite Z.ones_spec_low by lia. btauto.
      + rewrite (testbit_of_high 64 n) by lia. btauto. }
  rewrite E, Z.shiftl_mul_pow2, Z.shiftr_div_pow2 by lia. change (2 ^ 6) with 64. lia.
Qed.

(** The end of [MD5_Update], when the buffer is empty. *)
Lemma update_blocks ctx q full data :
  List.length (ctx_buffer ctx) = 64%nat → List.length full = (64 * q)%nat →
  regs_of ctx = foldl rfc_block rfc_init (blocks q full) → Z.of_nat (List.length data) < 2 ^ 64 →
  let size := Z.of_nat (List.length data) in
  ∃ regs buf,
    ('(ctx, data) ←
       (if size >=? 64 then body ctx data (Z.land size (u64 (Z.lnot 0x3f))) else Done (ctx, data));
     to_buffer 0 (take (Z.to_nat (Z.land size 0x3f)) data) ctx) = Done (with_buffer (with_regs ctx regs) buf) ∧
    List.length buf = 64%nat ∧
    ∃ q' full' rest,
      full ++ data = full' ++ rest ∧ List.length full' = (64 * q')%nat ∧ (List.length rest < 64)%nat ∧
      regs = foldl rfc_block rfc_init (blocks q' full') ∧ take (List.length rest) buf = rest.
Proof.
  intros Hb Hq Hr Hs size. set (n := (List.length data / 64)%nat).
  assert (Hn : (List.length data = 64 * n + List.length data mod 64)%nat) by apply Nat.div_mod_eq.
  pose proof (Nat.mod_upper_bound (List.length data) 64 ltac:(lia)) as Hm.
  set (rest := drop (64 * n) data).
  assert (Hrest : List.length rest = (List.length data mod 64)%nat) by (unfold rest; rewrite length_drop; lia).
  assert (Hfirst : (if size >=? 64 then body ctx data (Z.land size (u64 (Z.lnot 0x3f))) else Done (ctx, data)) =
    Done (with_regs ctx (foldl rfc_block (regs_of ctx) (blocks n data)), rest)).
  { destruct (Z.geb_spec size 64) as [Hge|Hlt].
    - rewrite land_not_63 by lia. replace (size / 64) with (Z.of_nat n) by (unfold n, size; by rewrite Nat2Z.inj_div).
      rewrite body_ok by (unfold size in *; lia). done.
    - assert (n = 0%nat) as E by (unfold size in Hlt; lia). unfold rest. rewrite E. cbn. by destruct ctx. }
  rewrite Hfirst, bind_done. set (regs := foldl _ _ _).
  destruct (to_buffer_ok 0 rest (with_regs ctx regs) []) as (buf & Et & Hbuf & Htk).
  { by destruct regs as [[[? ?] ?] ?]. }
  { done. }
  { done. }
  { change (0 + List.length rest ≤ 64)%nat. lia. }
  assert (take (Z.to_nat (Z.land size 0x3f)) rest = rest) as ->.
  { apply take_ge. rewrite land_63. unfold size. change 64 with (Z.of_nat 64).
    rewrite <- Nat2Z.inj_mod, Nat2Z.id. lia. }
  exists regs, buf. split_and!; [done|done|]. exists (q + n)%nat, (full ++ take (64 * n) data), rest. split_and!.
  - rewrite <- app_assoc. unfold rest. by rewrite take_drop.
  - rewrite length_app, length_take. lia.
  - lia.
  - unfold regs. rewrite Hr, blocks_app, foldl_app, blocks_take by lia.
    rewrite drop_app_le by lia. rewrite (drop_ge full) by lia. cbn [app].
    rewrite <- (take_drop (64 * n) data) at 1. by rewrite blocks_take by (rewrite length_take; lia).
  - done.
Qed.

Lemma used_ok (msg full rest : list Z) q :
  msg = full ++ rest → List.length full = (64 * q)%nat → (List.length rest < 64)%nat →
  Z.land (Z.of_nat (List.length msg) mod 2 ^ 29) 0x3f = Z.of_nat (List.length rest).
Proof.
  intros -> Hq Hr. rewrite land_63, Z.mod_mod_divide by (by exists (2 ^ 23)).
  rewrite length_app, Hq. symmetry. apply (Z.mod_unique_pos _ _ (Z.of_nat q)); lia.
Qed.

Lemma with_regs_lo ctx regs : ctx_lo (with_regs ctx regs) = ctx_lo ctx.
Proof. by destruct regs as [[[? ?] ?] ?]. Qed.
Lemma with_regs_hi ctx regs : ctx_hi (with_regs ctx regs) = ctx_hi ctx.
Proof. by destruct regs as [[[? ?] ?] ?]. Qed.
Lemma with_regs_buffer ctx regs : ctx_buffer (with_regs ctx regs) = ctx_buffer ctx.
Proof. by destruct regs as [[[? ?] ?] ?]. Qed.
Lemma with_regs_regs ctx regs : regs_of (with_regs ctx regs) = regs.
Proof. by destruct regs as [[[? ?] ?] ?]. Qed.

(** Filling up a partial block and digesting it. *)
Lemma fill_block ctx q full rest bytes :
  List.length (ctx_buffer ctx) = 64%nat → List.length full = (64 * q)%nat →
  take (List.length rest) (ctx_buffer ctx) = rest → (List.length rest + List.length bytes = 64)%nat →
  regs_of ctx = foldl rfc_block rfc_init (blocks q full) →
  ∃ buf regs, to_buffer (Z.of_nat (List.length rest)) bytes ctx = Done (with_buffer ctx buf) ∧
    body (with_buffer ctx buf) buf 64 = Done (with_regs (with_buffer ctx buf) regs, []) ∧
    List.length buf = 64%nat ∧ regs = foldl rfc_block rfc_init (blocks (S q) (full ++ rest ++ bytes)).
Proof.
  intros Hb Hq Ht Hl Hr.
  destruct (to_buffer_ok (Z.of_nat (List.length rest)) bytes ctx rest) as (buf & E & Hbuf & Htk); [done|done|done|lia|].
  rewrite length_app, Hl, take_ge in Htk by lia.
  exists buf, (foldl rfc_block (regs_of ctx) (blocks 1 buf)). split_and!; [done| |done|].
  - change 64 with (64 * Z.of_nat 1). rewrite body_ok by lia. by rewrite drop_ge by lia.
  - rewrite Hr, Htk. replace (S q) with (q + 1)%nat by lia. rewrite blocks_app, foldl_app, (blocks_take q full) by lia.
    by rewrite drop_app_le, (drop_ge full) by lia.
Qed.

Lemma update_absorbs ctx msg data :
  absorbed ctx msg → Z.of_nat (List.length data) < 2 ^ 64 →
  ∃ ctx', MD5_Update ctx data = Done ctx' ∧ absorbed ctx' (msg ++ data).
Proof.
  intros [Hlo Hhi Hb (q & full & rest & Em & Hq & Hr & Hregs & Ht)] Hs. unfold MD5_Update. cbv zeta.
  destruct (counters (Z.of_nat (List.length msg)) (Z.of_nat (List.length data))) as [Elo Ehi]; [lia|lia|].
  rewrite <- Hlo, <- Hhi in *. cbv zeta in Ehi. rewrite Elo in Ehi. rewrite Elo, Ehi.
  rewrite Hlo, (used_ok msg full rest q Em Hq Hr).
  match goal with |- context [Md5Ctx ?lo ?hi _ _ _ _ _] =>
    change (Md5Ctx lo hi _ _ _ _ _) with (with_count ctx lo hi); set (ctx0 := with_count ctx lo hi) end.
  assert (Habs : ∀ regs buf, List.length buf = 64%nat →
    (∃ q' full' rest', msg ++ data = full' ++ rest' ∧ List.length full' = (64 * q')%nat ∧
       (List.length rest' < 64)%nat ∧ regs = foldl rfc_block rfc_init (blocks q' full') ∧
       take (List.length rest') buf = rest') →
    absorbed (with_buffer (with_regs ctx0 regs) buf) (msg ++ data)).
  { intros regs buf Hbuf (q' & full' & rest' & ? & ? & ? & Er & ?).
    destruct regs as [[[? ?] ?] ?]. split; [by rewrite length_app, Nat2Z.inj_add..|done|].
    by exists q', full', rest'. }
  destruct (decide (List.length rest = 0%nat)) as [H0|H0].
  - (* the buffer is empty *)
    apply nil_length_inv in H0 as ->. change (Z.of_nat (List.length [])) with 0. cbn [Z.eqb negb andb].
    rewrite bind_done. destruct (update_blocks ctx0 q full data) as (regs & buf & E & Hbuf & Hspl); [done..|].
    rewrite E. eexists. split; [done|]. apply Habs; [done|]. rewrite Em, app_nil_r. done.
  - rewrite (proj2 (Z.eqb_neq _ _)) by lia. cbn [negb andb].
    destruct (Z.ltb_spec (Z.of_nat (List.length data)) (64 - Z.of_nat (List.length rest))) as [Hlt|Hge].
    + (* the data does not fill the block *)
      destruct (to_buffer_ok (Z.of_nat (List.length rest)) data ctx0 rest) as (buf & E & Hbuf & Htk); [done|done|done|lia|].
      rewrite E. eexists. split; [done|].
      replace ctx0 with (with_regs ctx0 (regs_of ctx0)) by done. apply Habs; [done|].
      exists q, full, (rest ++ data). split_and!; [by rewrite Em, app_assoc|done|rewrite length_app; lia|done|done].
    + (* a full block first *)
      set (k := Z.to_nat (64 - Z.of_nat (List.length rest))).
      destruct (fill_block ctx0 q full rest (take k data)) as (buf1 & regs1 & E1 & E2 & Hbuf1 & Hregs1);
        [done|done|done|rewrite length_take; unfold k; lia|done|].
      rewrite E1, bind_done. change (ctx_buffer (with_buffer ctx0 buf1)) with buf1. rewrite E2, !bind_done.
      destruct (update_blocks (with_regs (with_buffer ctx0 buf1) regs1) (S q) (full ++ rest ++ take k data) (drop k data))
        as (regs & buf & E & Hbuf & Hspl).
      { by rewrite with_regs_buffer. }
      { rewrite !length_app, length_take. unfold k. lia. }
      { by rewrite with_regs_regs. }
      { rewrite length_drop. lia. }
      rewrite E. eexists. split; [done|].
      replace (with_buffer (with_regs (with_regs (with_buffer ctx0 buf1) regs1) regs) buf)
        with (with_buffer (with_regs ctx0 regs) buf) by (by destruct regs as [[[? ?] ?] ?], regs1 as [[[? ?] ?] ?]).
      apply Habs; [done|]. rewrite Em, <- app_assoc. rewrite <- !app_assoc, take_drop in Hspl. done.
Qed.

(** ** [MD5_Final] *)
Definition out_regs (regs : Z * Z * Z * Z) : list Z :=
  let '(a, b, c, d) := regs in OUT a ++ OUT b ++ OUT c ++ OUT d.

(** The last block: zeroes up to the length field, the length, the digest. *)
Lemma final_block ctx q full pre :
  List.length (ctx_buffer ctx) = 64%nat → List.length full = (64 * q)%nat → (List.length pre ≤ 56)%nat →
  take (List.length pre) (ctx_buffer ctx) = pre →
  regs_of ctx = foldl rfc_block rfc_init (blocks q full) →
  (ctx ← to_buffer (Z.of_nat (List.length pre)) (replicate (56 - List.length pre) 0) ctx;
   let lo := u32 (Z.shiftl (ctx_lo ctx) 3) in
   let ctx := Md5Ctx lo (ctx_hi ctx) (ctx_a ctx) (ctx_b ctx) (ctx_c ctx) (ctx_d ctx) (ctx_buffer ctx) in
   ctx ← to_buffer 56 (OUT (ctx_lo ctx)) ctx;
   ctx ← to_buffer 60 (OUT (ctx_hi ctx)) ctx;
   '(ctx, _) ← body ctx (ctx_buffer ctx) 64;
   Done (OUT (ctx_a ctx) ++ OUT (ctx_b ctx) ++ OUT (ctx_c ctx) ++ OUT (ctx_d ctx),
         Md5Ctx 0 0 0 0 0 0 (replicate 64 0))) =
  Done (out_regs (foldl rfc_block rfc_init (blocks (S q)
          (full ++ pre ++ replicate (56 - List.length pre) 0 ++
           OUT (u32 (Z.shiftl (ctx_lo ctx) 3)) ++ OUT (ctx_hi ctx)))),
        Md5Ctx 0 0 0 0 0 0 (replicate 64 0)).
Proof.
  intros Hb Hq Hp Ht Hr. set (lo := u32 (Z.shiftl (ctx_lo ctx) 3)).
  destruct (to_buffer_ok (Z.of_nat (List.length pre)) (replicate (56 - List.length pre) 0) ctx pre)
    as (buf1 & E1 & Hb1 & Ht1); [done..|rewrite length_replicate; lia|].
  rewrite E1, bind_done. set (pre1 := pre ++ _) in *.
  assert (Hp1 : List.length pre1 = 56%nat) by (unfold pre1; rewrite length_app, length_replicate; lia).
  cbn [with_buffer ctx_lo ctx_hi ctx_a ctx_b ctx_c ctx_d ctx_buffer]. fold lo. cbv zeta.
  set (ctx1 := Md5Ctx lo _ _ _ _ _ buf1).
  destruct (to_buffer_ok 56 (OUT lo) ctx1 pre1) as (buf2 & E2 & Hb2 & Ht2); [done|done|lia|cbn; lia|].
  rewrite E2, bind_done. cbn [with_buffer ctx1 ctx_hi].
  change (Md5Ctx _ _ _ _ _ _ buf2) with (with_buffer ctx1 buf2).
  assert (Hp2 : List.length (pre1 ++ OUT lo) = 60%nat) by (rewrite length_app, Hp1; done).
  destruct (fill_block (with_buffer ctx1 buf2) q full (pre1 ++ OUT lo) (OUT (ctx_hi ctx)))
    as (buf3 & regs & E3 & E4 & Hb3 & Hr3); [done|done|done|rewrite Hp2; done|done|].
  rewrite Hp2 in E3. change (Z.of_nat 60) with 60 in E3. rewrite E3, bind_done.
  change (ctx_buffer (with_buffer (with_buffer ctx1 buf2) buf3)) with buf3. rewrite E4, bind_done.
  unfold pre1 in Hr3. rewrite <- !app_assoc in Hr3. rewrite <- Hr3. by destruct regs as [[[? ?] ?] ?].
Qed.

Lemma length_field n :
  0 ≤ n → let bits := u64 (8 * n) in
  u32 (Z.shiftl (n mod 2 ^ 29) 3) = bits mod 2 ^ 32 ∧ (n / 2 ^ 29) mod 2 ^ 32 = bits / 2 ^ 32.
Proof.
  intros Hn bits. set (Q := n / 2 ^ 29). set (L := n mod 2 ^ 29).
  assert (HL : 0 ≤ L < 2 ^ 29) by (apply Z.mod_pos_bound; lia).
  assert (Hb : bits = 2 ^ 32 * (Q mod 2 ^ 32) + 8 * L).
  { symmetry. unfold bits, u64, wrap. apply (Z.mod_unique_pos _ _ (Q / 2 ^ 32)); unfold Q, L in *; dlia. }
  rewrite Hb, Z.shiftl_mul_pow2 by lia. change (2 ^ 3) with 8. rewrite u32_small by lia. split.
  - apply (Z.mod_unique_pos _ _ (Q mod 2 ^ 32)); lia.
  - apply (Z.div_unique_pos _ _ _ (8 * L)); lia.
Qed.

Lemma md5_split msg q full rest pad :
  msg ++ pad = full ++ rest → List.length full = (64 * q)%nat → List.length rest = 64%nat →
  rfc_pad msg = msg ++ pad →
  md5 msg = out_regs (foldl rfc_block rfc_init (blocks (S q) (full ++ rest))).
Proof.
  intros E Hq Hr Hp. unfold md5. rewrite Hp, E.
  replace (List.length (full ++ rest) / 64)%nat with (S q); [by destruct (foldl _ _ _) as [[[? ?] ?] ?]|].
  rewrite length_app, Hq, Hr. apply (Nat.div_unique _ _ _ 0); lia.
Qed.

Lemma final_ok ctx msg : absorbed ctx msg → MD5_Final ctx = Done (md5 msg, Md5Ctx 0 0 0 0 0 0 (replicate 64 0)).
Proof.
  intros [Hlo Hhi Hb (q & full & rest & Em & Hq & Hr & Hregs & Ht)].
  destruct (length_field (Z.of_nat (List.length msg))) as [El Eh]; [lia|]. rewrite <- Hlo in El. rewrite <- Hhi in Eh.
  assert (Hn : Z.of_nat (List.length msg) = 64 * Z.of_nat q + Z.of_nat (List.length rest)) by (rewrite Em, length_app; lia).
  assert (Eu : Z.land (ctx_lo ctx) 0x3f = Z.of_nat (List.length rest)) by (rewrite Hlo; by eapply used_ok).
  unfold MD5_Final. rewrite Eu. cbv zeta.
  destruct (to_buffer_ok (Z.of_nat (List.length rest)) [0x80] ctx rest) as (buf & E & Hbuf & Ht1); [done..|cbn; lia|].
  rewrite E, bind_done. set (rest1 := rest ++ [0x80]) in *.
  assert (Hr1 : List.length rest1 = S (List.length rest)) by (unfold rest1; rewrite length_app; cbn; lia).
  assert (Hu : Z.of_nat (List.length rest) + 1 = Z.of_nat (List.length rest1)) by lia. rewrite Hu.
  destruct (Z.ltb_spec (64 - Z.of_nat (List.length rest1)) 8) as [Hlt|Hge].
  - set (k := Z.to_nat (64 - Z.of_nat (List.length rest1))).
    destruct (fill_block (with_buffer ctx buf) q full rest1 (replicate k 0)) as (buf1 & regs & E1 & E2 & Hb1 & Hregs1);
      [done..|rewrite length_replicate; unfold k; lia|done|].
    rewrite E1, bind_done. change (ctx_buffer (with_buffer (with_buffer ctx buf) buf1)) with buf1.
    rewrite E2, !bind_done. set (ctx1 := with_regs _ regs).
    pose proof (final_block ctx1 (S q) (full ++ rest1 ++ replicate k 0) []) as Hfin.
    change (Z.of_nat (List.length [])) with 0 in Hfin. change (56 - List.length [])%nat with 56%nat in Hfin.
    change (Z.to_nat (64 - 8)) with 56%nat. etrans; [apply Hfin|]; clear Hfin.
    + unfold ctx1. by rewrite with_regs_buffer.
    + rewrite !length_app, length_replicate. unfold k. lia.
    + cbn. lia.
    + done.
    + unfold ctx1. by rewrite with_regs_regs.
    + unfold ctx1. rewrite with_regs_lo, with_regs_hi. cbn [with_buffer ctx_lo ctx_hi]. rewrite El, Eh.
      f_equal. f_equal. symmetry. apply (md5_split msg _ _ _ ([0x80] ++ replicate k 0 ++ replicate 56 0 ++
        OUT (u64 (8 * Z.of_nat (List.length msg)) mod 2 ^ 32) ++ OUT (u64 (8 * Z.of_nat (List.length msg)) / 2 ^ 32))).
      * rewrite Em. unfold rest1. by rewrite <- !app_assoc.
      * rewrite !length_app, length_replicate. unfold k. lia.
      * done.
      * unfold rfc_pad. cbv zeta. do 2 f_equal. rewrite (app_assoc (replicate k 0)), <- replicate_add. do 2 f_equal.
        unfold k. dlia.
  - rewrite bind_done.
    replace (Z.to_nat (64 - Z.of_nat (List.length rest1) - 8)) with (56 - List.length rest1)%nat by lia.
    etrans; [apply (final_block (with_buffer ctx buf) q full rest1); (done || lia)|]. cbn [with_buffer ctx_lo ctx_hi].
    rewrite El, Eh. f_equal. f_equal. symmetry.
    apply (md5_split msg _ _ _ ([0x80] ++ replicate (56 - List.length rest1) 0 ++
        OUT (u64 (8 * Z.of_nat (List.length msg)) mod 2 ^ 32) ++ OUT (u64 (8 * Z.of_nat (List.length msg)) / 2 ^ 32))).
    + rewrite Em. unfold rest1. by rewrite <- !app_assoc.
    + done.
    + rewrite !length_app, length_replicate. cbn [List.length OUT]. lia.
    + unfold rfc_pad. cbv zeta. do 4 f_equal. dlia.
Qed.

(** ** Digests *)
(** A message handed over in pieces. *)
Definition md5_pieces (ctx : md5_ctx) (pieces : list (list Z)) : outcome (list Z) :=
  ctx ← foldl (λ r piece, ctx ← r; MD5_Update ctx piece) (Done (MD5_Init ctx)) pieces;
  '(result, _) ← MD5_Final ctx;
  Done result.

Lemma pieces_absorbs ctx msg pieces :
  absorbed ctx msg → Forall (λ p, Z.of_nat (List.length p) < 2 ^ 64) pieces →
  ∃ ctx', foldl (λ r piece, ctx ← r; MD5_Update ctx piece) (Done ctx) pieces = Done ctx' ∧
    absorbed ctx' (msg ++ concat pieces).
Proof.
  intros Ha Hp. revert ctx msg Ha. induction Hp as [|p ps Hp Hps IH]; intros ctx msg Ha; cbn [foldl concat].
  - exists ctx. by rewrite app_nil_r.
  - rewrite bind_done. destruct (update_absorbs ctx msg p Ha Hp) as (ctx1 & -> & Ha1).
    destruct (IH ctx1 _ Ha1) as (ctx' & E & Ha'). exists ctx'. by rewrite app_assoc.
Qed.

(** C32: However a message is cut into pieces, [MD5_Init], [MD5_Update] on each piece and
    [MD5_Final] return the digest of RFC 1321 of the whole message: padding, 64-bit
    length and all blocks, through the unrolled compression function; the contents of the
    uninitialised context play no part.  In particular [MD5_Digest] computes it. *)
Theorem md5_correct ctx (pieces : list (list Z)) data :
  List.length (ctx_buffer ctx) = 64%nat → Forall (λ p, Z.of_nat (List.length p) < 2 ^ 64) pieces →
  Z.of_nat (List.length data) < 2 ^ 64 →
  md5_pieces ctx pieces = Done (md5 (concat pieces)) ∧ MD5_Digest ctx data = Done (md5 data).
Proof.
  intros Hb Hp Hd. pose proof (init_absorbs ctx Hb) as Hi. split.
  - unfold md5_pieces. destruct (pieces_absorbs _ _ pieces Hi Hp) as (ctx' & -> & Ha).
    by rewrite bind_done, (final_ok _ _ Ha).
  - unfold MD5_Digest. destruct (update_absorbs _ _ data Hi Hd) as (ctx' & -> & Ha).
    by rewrite bind_done, (final_ok _ _ Ha).
Qed.

(** "abc" in one and in two pieces; the digest is 900150983cd24fb0d6963f7d28e17f72. *)
Lemma md5_correct_witness :
  md5_pieces (Md5Ctx 7 7 7 7 7 7 (replicate 64 7)) [[97]; [98; 99]] = Done (md5 [97; 98; 99]) ∧
  md5 [97; 98; 99] = [0x90; 0x01; 0x50; 0x98; 0x3c; 0xd2; 0x4f; 0xb0; 0xd6; 0x96; 0x3f; 0x7d; 0x28; 0xe1; 0x7f; 0x72].
Proof.
  destruct (md5_correct (Md5Ctx 7 7 7 7 7 7 (replicate 64 7)) [[97]; [98; 99]] []) as [E _].
  - done.
  - by repeat constructor.
  - done.
  - split; [exact E|by vm_compute].
Defined.
