(* ===== verification/Hashmap.v ===== *)
(** * The hash table (src/src/util/hashmap.c)

    An open hash table with linear probing in an array of slots; a slot is free while its
    key is 0.  An entry is placed by the digest of the data it refers to and found again by
    its key, so a lookup relies on probing the whole table.  The table, its slots and the
    buffer for a digest come from the kernel heap. *)
From stdpp Require Import gmap.
From S2P Require Import Prelude PageService Alloc Paging PageAlloc Heap KernelHeap CString Md5.
#[local] Open Scope Z_scope.

Definition HASHMAP_MAX_ITEMS : Z := 65536.
Definition sizeof_hashmap : Z := 16.
Definition sizeof_hashmap_item : Z := 24.

Record hashmap_item := Item { hi_pointer : Z; hi_size : Z; hi_key : Z }.

(** The header, and the slots behind its pointer. *)
Record hashmap := Hashmap { hm_pointer : Z; hm_items : Z; hm_slots : list hashmap_item }.

Section Hashmap.
Context {A : Type} `{Allocator A}.

(** The address of the header and the table; the slots have just been cleared when they
    are checked. *)
Definition create_hashmap (items : Z) (h : A) : outcome (option (Z * hashmap) * A) :=
  if items >? HASHMAP_MAX_ITEMS then Done (None, h) else
  '(hmap, h) ← al_malloc sizeof_hashmap h;
  if hmap =? 0 then Fault else
  let size := u64 (sizeof_hashmap_item * items) in
  '(pointer, h) ← al_malloc size h;
  if pointer =? 0 then (if size =? 0 then Done (None, h) else Fault) else
  Done (Some (hmap, Hashmap pointer items (replicate (Z.to_nat items) (Item 0 0 0))), h).

Definition delete_hashmap (hmap : Z) (t : hashmap) (h : A) : outcome A :=
  h ← for_up (Z.to_nat (hm_items t)) 0 (λ i h,
    item ← known (hm_slots t !! Z.to_nat i);
    if negb (hi_key item =? 0) then al_free (hm_pointer t + i * sizeof_hashmap_item) h else Done h) h;
  al_free hmap h.

(** The sum of the bytes of the digest; [junk] is the context on the stack. *)
Definition calculate_hash (junk : md5_ctx) (address size : Z) (m : bytes_mem) (h : A) : outcome (Z * A) :=
  '(hash, h) ← al_malloc 16 h;
  bytes ← mapM (byte_at m) (seqZ address size);
  digest ← MD5_Digest junk bytes;
  h ← al_free hash h;
  Done (foldl (λ v b, u64 (v + b)) 0 digest, h).

(** The probing loop of [insert] and [retrieve]: from [start] round the table to a slot
    that satisfies [stop], or back to the start. *)
Definition probe (stop : hashmap_item → bool) (t : hashmap) (start : Z) : outcome (option Z) :=
  loop (S (Z.to_nat (hm_items t))) (λ index,
    item ← known (hm_slots t !! Z.to_nat index);
    if stop item then Done (inr (Some index)) else
    let index := index + 1 in
    let index := if index >=? hm_items t then 0 else index in
    if index =? start then Done (inr None) else Done (inl index)) start.

Definition insert (junk : md5_ctx) (t : hashmap) (data : hashmap_item) (m : bytes_mem) (h : A) :
    outcome (Z * hashmap * A) :=
  if (hi_key data =? 0) || (hi_pointer data =? 0) || (hi_size data =? 0) then Done (0, t, h) else
  '(hash, h) ← calculate_hash junk (hi_pointer data) (hi_size data) m h;
  if hm_items t =? 0 then Fault else
  slot ← probe (λ item, hi_key item =? 0) t (hash mod hm_items t);
  match slot with
  | None => Done (0, t, h)
  | Some index =>
      Done (hash, Hashmap (hm_pointer t) (hm_items t) (<[Z.to_nat index := data]> (hm_slots t)), h)
  end.

End Hashmap.

Definition retrieve (t : hashmap) (data : hashmap_item) (key : Z) : outcome (Z * hashmap_item) :=
  if hm_items t =? 0 then Fault else
  slot ← probe (λ item, hi_key item =? key) t (key mod hm_items t);
  match slot with
  | None => Done (0, data)
  | Some index =>
      item ← known (hm_slots t !! Z.to_nat index);
      Done (1, Item (hi_pointer item) (hi_size item) (hi_key data))
  end.

(** ** Probing *)
(** The slot reached after [k] steps from [start]. *)
Definition at_step (t : hashmap) (start k : Z) : Z := (start + k) mod hm_items t.

Lemma probe_loop stop t start fuel k :
  0 ≤ start < hm_items t → Z.of_nat (List.length (hm_slots t)) = hm_items t →
  0 ≤ k < hm_items t → (Z.to_nat (hm_items t - k) ≤ fuel)%nat →
  (∀ j x, 0 ≤ j < k → hm_slots t !! Z.to_nat (at_step t start j) = Some x → stop x = false) →
  ∃ r, loop fuel (λ index,
    item ← known (hm_slots t !! Z.to_nat index);
    if stop item then Done (inr (Some index)) else
    let index := index + 1 in
    let index := if index >=? hm_items t then 0 else index in
    if index =? start then Done (inr None) else Done (inl index)) (at_step t start k) = Done r ∧
    match r with
    | Some i => 0 ≤ i < hm_items t ∧ ∃ x, hm_slots t !! Z.to_nat i = Some x ∧ stop x = true
    | None => ∀ j x, 0 ≤ j < hm_items t → hm_slots t !! Z.to_nat (at_step t start j) = Some x → stop x = false
    end.
Proof.
  intros Hs Hl. revert k. induction fuel as [|fuel IH]; intros k Hk Hf Hpre; [lia|]. cbn [loop].
  assert (Hi : 0 ≤ at_step t start k < hm_items t) by (apply Z.mod_pos_bound; lia).
  destruct (lookup_lt_is_Some_2 (hm_slots t) (Z.to_nat (at_step t start k))) as [x Hx]; [lia|].
  rewrite Hx. cbn [known]. rewrite bind_done. destruct (stop x) eqn:Est.
  { rewrite bind_done. exists (Some (at_step t start k)). split; [done|]. split; [done|]. by exists x. }
  cbv zeta.
  assert (Hnext : (if at_step t start k + 1 >=? hm_items t then 0 else at_step t start k + 1) = at_step t start (k + 1)).
  { unfold at_step in *. rewrite Z.add_assoc. rewrite <- (Zplus_mod_idemp_l (start + k) 1).
    destruct (Z.geb_spec ((start + k) mod hm_items t + 1) (hm_items t)).
    - replace ((start + k) mod hm_items t + 1) with (hm_items t) by lia. by rewrite Z.mod_same by lia.
    - by rewrite (Z.mod_small ((start + k) mod hm_items t + 1)) by lia. }
  assert (Hpre' : ∀ j x, 0 ≤ j < k + 1 → hm_slots t !! Z.to_nat (at_step t start j) = Some x → stop x = false).
  { intros j y Hj Hy. destruct (decide (j = k)) as [->|]; [by simplify_eq|]. eapply (Hpre j); [lia|done]. }
  rewrite Hnext. destruct (Z.eqb_spec (at_step t start (k + 1)) start) as [E|E]; rewrite bind_done.
  - exists None. split; [done|]. assert (k + 1 = hm_items t).
    { unfold at_step in E. destruct (decide (start + (k + 1) < hm_items t)); [rewrite Z.mod_small in E by lia; lia|].
      assert (E' : (start + (k + 1)) mod hm_items t = start + (k + 1) - hm_items t).
      { symmetry. apply (Z.mod_unique_pos _ _ 1); lia. } lia. }
    intros j y Hj. apply Hpre'. lia.
  - apply IH; [|lia|done]. split; [lia|]. destruct (decide (k + 1 < hm_items t)); [done|].
    exfalso. apply E. unfold at_step. replace (start + (k + 1)) with (start + 1 * hm_items t) by lia.
    rewrite Z.mod_add by lia. by apply Z.mod_small.
Qed.

(** Probing finds a slot that stops it, or there is none. *)
Lemma probe_ok stop t start :
  0 ≤ start < hm_items t → Z.of_nat (List.length (hm_slots t)) = hm_items t →
  ∃ r, probe stop t start = Done r ∧
    match r with
    | Some i => 0 ≤ i < hm_items t ∧ ∃ x, hm_slots t !! Z.to_nat i = Some x ∧ stop x = true
    | None => Forall (λ x, stop x = false) (hm_slots t)
    end.
Proof.
  intros Hs Hl. destruct (probe_loop stop t start (S (Z.to_nat (hm_items t))) 0) as (r & E & Hr); [done|done|lia|lia|lia|].
  unfold at_step at 1 in E. rewrite Z.add_0_r, Z.mod_small in E by lia.
  exists r. split; [done|]. destruct r as [i|]; [done|]. apply Forall_lookup. intros i x Hx.
  assert (Hi : Z.of_nat i < hm_items t) by (apply lookup_lt_Some in Hx; lia).
  apply (Hr ((Z.of_nat i - start) mod hm_items t)); [apply Z.mod_pos_bound; lia|].
  unfold at_step. rewrite Zplus_mod_idemp_r. replace (start + (Z.of_nat i - start)) with (Z.of_nat i) by lia.
  rewrite Z.mod_small by lia. by rewrite Nat2Z.id.
Qed.

(** ** The table as a map from keys to pointers and sizes *)
Record table_ok (t : hashmap) (M : gmap Z (Z * Z)) : Prop := {
  to_items : 0 < hm_items t ≤ HASHMAP_MAX_ITEMS;
  to_length : Z.of_nat (List.length (hm_slots t)) = hm_items t;
  to_keys k p s : M !! k = Some (p, s) ↔ k ≠ 0 ∧ ∃ i, hm_slots t !! i = Some (Item p s k);
  to_unique i j x y :
    hm_slots t !! i = Some x → hm_slots t !! j = Some y → hi_key x = hi_key y → hi_key x ≠ 0 → i = j;
}.

Lemma fresh_table_ok items pointer :
  0 < items ≤ HASHMAP_MAX_ITEMS →
  table_ok (Hashmap pointer items (replicate (Z.to_nat items) (Item 0 0 0))) ∅.
Proof.
  intros Hi. split; cbn.
  - done.
  - rewrite length_replicate. lia.
  - intros k p s. rewrite lookup_empty. split; [done|]. intros (Hk & i & Hx).
    apply lookup_replicate in Hx as [? _]. congruence.
  - intros i j x y Hx%lookup_replicate _ _. destruct Hx as [-> _]. done.
Qed.

(** A new key in a free slot. *)
Lemma fill_slot t M i x d :
  table_ok t M → hm_slots t !! i = Some x → hi_key x = 0 → hi_key d ≠ 0 → M !! hi_key d = None →
  table_ok (Hashmap (hm_pointer t) (hm_items t) (<[i := d]> (hm_slots t)))
    (<[hi_key d := (hi_pointer d, hi_size d)]> M).
Proof.
  intros [Hit Hlen Hkeys Huniq] Hx H0 Hd Hfresh. pose proof (lookup_lt_Some _ _ _ Hx) as Hi.
  assert (Hnone : ∀ j y, hm_slots t !! j = Some y → hi_key y ≠ hi_key d).
  { intros j [p s k] Hy E. cbn in E. assert (M !! k = Some (p, s)) by (apply Hkeys; naive_solver). congruence. }
  split; cbn.
  - done.
  - by rewrite length_insert.
  - intros k p s. destruct (decide (k = hi_key d)) as [->|Hne].
    + rewrite lookup_insert_eq. split.
      * intros [= <- <-]. split; [done|]. exists i. rewrite list_lookup_insert_eq by done. by destruct d.
      * intros (_ & j & Hj). apply list_lookup_insert_Some in Hj as [(_ & E & _)|[_ Hj]].
        { destruct d; cbn in *; congruence. }
        by apply Hnone in Hj.
    + rewrite lookup_insert_ne by done. rewrite Hkeys. split; intros (Hk & j & Hj); (split; [done|]); exists j.
      * rewrite list_lookup_insert_ne; [done|]. intros ->. rewrite Hj in Hx. by simplify_eq.
      * apply list_lookup_insert_Some in Hj as [(_ & E & _)|[_ Hj]]; [by subst d|done].
  - intros a b y z Hy Hz E Hne.
    apply list_lookup_insert_Some in Hy as [(-> & <- & _)|[_ Hy]];
    apply list_lookup_insert_Some in Hz as [(-> & <- & _)|[_ Hz]]; [done|..].
    + symmetry in E. by apply Hnone in Hz.
    + by apply Hnone in Hy.
    + by eapply Huniq.
Qed.

(** The keys in use, one for each entry of the map. *)
Definition used (slots : list hashmap_item) : list hashmap_item := filter (λ x, hi_key x ≠ 0) slots.

Lemma used_keys_nodup slots :
  (∀ i j x y, slots !! i = Some x → slots !! j = Some y → hi_key x = hi_key y → hi_key x ≠ 0 → i = j) →
  NoDup (hi_key <$> used slots).
Proof.
  induction slots as [|x slots IH]; intros Hu; [constructor|]. unfold used in *. rewrite filter_cons.
  assert (Htail : NoDup (hi_key <$> filter (λ x, hi_key x ≠ 0) slots)).
  { apply IH. intros i j y z Hy Hz E Hne. by apply Nat.succ_inj, (Hu (S i) (S j) y z). }
  case_decide as Hk; [|done]. cbn. constructor; [|done]. intros (y & E & Hin)%list_elem_of_fmap.
  apply list_elem_of_filter in Hin as [Hne (j & Hj)%list_elem_of_lookup_1].
  discriminate (Hu 0%nat (S j) x y eq_refl Hj E Hk).
Qed.

Lemma table_size t M : table_ok t M → size M = List.length (used (hm_slots t)).
Proof.
  intros [Hit Hlen Hkeys Huniq]. rewrite <- (length_fmap hi_key), <- size_dom.
  rewrite <- (size_list_to_set (C := gset Z) (hi_key <$> _)) by (by apply used_keys_nodup). f_equal.
  apply set_eq. intros k. rewrite elem_of_dom, elem_of_list_to_set, list_elem_of_fmap. unfold used. split.
  - intros [[p s] (Hk & i & Hi)%Hkeys]. exists (Item p s k). split; [done|].
    apply list_elem_of_filter. split; [done|]. by eapply list_elem_of_lookup_2.
  - intros ([p s k'] & -> & [Hk Hin]%list_elem_of_filter). exists (p, s). apply Hkeys. split; [done|].
    by apply list_elem_of_lookup_1 in Hin.
Qed.

(** The table is full when no slot is free. *)
Lemma full_size t M :
  table_ok t M → Forall (λ x, (hi_key x =? 0) = false) (hm_slots t) → Z.of_nat (size M) = hm_items t.
Proof.
  intros Ht Hfull. rewrite (table_size _ _ Ht), <- (to_length _ _ Ht). f_equal. f_equal.
  induction Hfull as [|x l Hx Hl IH]; [done|]. unfold used in *. apply Z.eqb_neq in Hx.
  by rewrite filter_cons_True, IH by done.
Qed.

Lemma free_slot_size t M i x :
  table_ok t M → hm_slots t !! i = Some x → hi_key x = 0 → Z.of_nat (size M) ≠ hm_items t.
Proof.
  intros Ht Hx H0. rewrite (table_size _ _ Ht), <- (to_length _ _ Ht).
  enough (List.length (used (hm_slots t)) < List.length (hm_slots t))%nat by lia.
  apply (length_filter_lt _ _ x); [by eapply list_elem_of_lookup_2|]. intros Hn. by apply Hn.
Qed.

Lemma load_bytes_ok m a l :
  holds_bytes m a l → mapM (byte_at m) (seqZ a (Z.of_nat (List.length l))) = Done l.
Proof.
  revert a. induction l as [|b l IH]; intros a Hl; [done|]. cbn [List.length].
  rewrite seqZ_cons by lia. cbn [mapM]. pose proof (byte_done _ _ _ 0 _ Hl eq_refl) as E. rewrite Z.add_0_r in E.
  rewrite E, bind_done. replace (Z.pred (Z.of_nat (S (List.length l)))) with (Z.of_nat (List.length l)) by lia.
  rewrite IH; [done|]. intros i c Hc. rewrite <- (Hl (S i) c Hc). f_equal. lia.
Qed.

(** The value that places an entry with contents [l]. *)
Definition hash_of (l : list Z) : Z := foldl (λ v b, u64 (v + b)) 0 (md5 l).

Lemma hash_of_nonneg l : 0 ≤ hash_of l.
Proof.
  unfold hash_of. destruct (md5 l) as [|b d] using rev_ind; [done|].
  rewrite foldl_app. apply u64_range.
Qed.

Section Refinement.
Context {A : Type} `{AllocatorOk A}.

Lemma calculate_hash_ok junk p l m (L : gset Z) (h : A) :
  al_ok L h → holds_bytes m p l → List.length (ctx_buffer junk) = 64%nat → Z.of_nat (List.length l) < 2 ^ 64 →
  returns_or_panics (calculate_hash junk p (Z.of_nat (List.length l)) m h) ∧
  ∀ r, calculate_hash junk p (Z.of_nat (List.length l)) m h = Done r → r.1 = hash_of l ∧ al_ok L r.2.
Proof.
  intros Hal Hm Hj Hl. unfold calculate_hash. destruct (al_malloc_ok L 16 h Hal) as [Hr Hd]; [lia|].
  apply (rop_bind (λ x, (x.1 ∉ L) ∧ al_ok ({[x.1]} ∪ L) x.2)); [done| |].
  { intros [r h'] E. by apply Hd. }
  intros [r h1] [Hfresh Hal1]. cbn in *. rewrite (load_bytes_ok _ _ _ Hm), bind_done.
  destruct (update_absorbs (MD5_Init junk) [] l) as (ctx & Eu & Hab); [by apply init_absorbs|done|].
  unfold MD5_Digest. rewrite Eu, bind_done, (final_ok _ _ Hab), !bind_done.
  destruct (al_free_ok _ r _ Hal1) as (h2 & -> & Hal2); [set_solver|]. rewrite bind_done.
  split; [apply rop_done|]. intros [v h3] [= <- <-]. split; [done|].
  eapply (eq_rect _ (λ X, al_ok X h2) Hal2). set_solver.
Qed.

End Refinement.

(** An entry for "abc" in a table of two slots on the kernel heap. *)
Definition table0 : hashmap := Hashmap 0x100 2 (replicate 2 (Item 0 0 0)).
Definition entry0 : hashmap_item := Item 16 3 5.
Definition junk0 : md5_ctx := Md5Ctx 0 0 0 0 0 0 (replicate 64 0).

