(* ===== verification/Ext2Block.v ===== *)
(** * Blocks of an ext2 partition (src/src/vfs/generic/ext2/ext2_block.c)

    A partition is a sequence of blocks on a disk.  The blocks of a file are found through
    twelve direct pointers and three trees of pointer blocks; free blocks are found in a
    bitmap for each group.  The disk is an interface; a buffer that no read has filled has
    no contents, and using it is a fault.  The buffers the routines take from the heap and
    give back, and the log of errors, are left out.  The two error codes are unsigned
    constants, so as [int64_t] they are positive. *)
From S2P Require Import Prelude.
#[local] Open Scope Z_scope.

Definition EXT2_READ_FAILED : Z := 0xFFFFFFFE.
Definition EXT2_WRITE_FAILED : Z := 0xFFFFFFFD.

(** [read_disk] and [write_disk] on sectors: what a read delivers, if it succeeds, and
    whether a write succeeded. *)
Class Disk (D : Type) := {
  read_disk : Z → Z → D → option (list Z);
  write_disk : Z → Z → list Z → D → bool * D;
}.

Record ext2_block_group_descriptor := Bgd {
  bg_block_bitmap : Z; bg_inode_bitmap : Z; bg_inode_table : Z;
  bg_free_blocks_count : Z; bg_free_inodes_count : Z; bg_used_dirs_count : Z;
}.

(** The fields of the two superblock structures that the driver uses. *)
Record ext2_superblock := Superblock {
  s_free_blocks_count : Z; s_free_inodes_count : Z; s_log_block_size : Z;
  s_blocks_per_group : Z; s_inodes_per_group : Z; s_rev_level : Z; s_inode_size : Z;
}.

Record ext2_partition := Partition {
  pt_lba : Z; pt_group_number : Z; pt_sector_size : Z; pt_flush_required : Z;
  pt_sb : ext2_superblock; pt_gd : list ext2_block_group_descriptor;
}.

Definition with_free_blocks v g := Bgd (bg_block_bitmap g) (bg_inode_bitmap g) (bg_inode_table g) v
  (bg_free_inodes_count g) (bg_used_dirs_count g).
Definition with_s_free_blocks v sb := Superblock v (s_free_inodes_count sb) (s_log_block_size sb)
  (s_blocks_per_group sb) (s_inodes_per_group sb) (s_rev_level sb) (s_inode_size sb).
Definition with_sb sb p := Partition (pt_lba p) (pt_group_number p) (pt_sector_size p) (pt_flush_required p) sb (pt_gd p).
Definition with_gd gd p := Partition (pt_lba p) (pt_group_number p) (pt_sector_size p) (pt_flush_required p) (pt_sb p) gd.
Definition ext2_flush_required p := Partition (pt_lba p) (pt_group_number p) (pt_sector_size p) 1 (pt_sb p) (pt_gd p).

Definition DIVIDE_ROUNDED_UP (x y : Z) : Z := if negb (x mod y =? 0) then (x + y - 1) / y else x / y.

Definition block_size (p : ext2_partition) : Z := u32 (Z.shiftl 1024 (s_log_block_size (pt_sb p))).
Definition block_sectors (p : ext2_partition) : Z := DIVIDE_ROUNDED_UP (block_size p) (pt_sector_size p).

(** The 32-bit product wraps before the division. *)
Definition block_lba (p : ext2_partition) (block : Z) : Z := u32 (block * block_size p) / pt_sector_size p.

(** 32-bit words, least significant byte first. *)
Fixpoint words (l : list Z) : list Z :=
  match l with
  | a :: b :: c :: d :: l => (a + 256 * (b + 256 * (c + 256 * d))) :: words l
  | _ => []
  end.
Definition word_bytes (v : Z) : list Z := [v mod 256; v / 256 mod 256; v / 65536 mod 256; v / 16777216 mod 256].
Definition unwords (l : list Z) : list Z := mbind word_bytes l.

Section Blocks.
Context {D : Type} `{Disk D}.
Implicit Types (p : ext2_partition) (d : D).

(** The result, and the contents of the buffer if it was filled. *)
Definition ext2_read_block p (block : Z) d : Z * option (list Z) :=
  if block >? 0 then
    match read_disk (u32 (pt_lba p + block_lba p block)) (block_sectors p) d with
    | Some bytes => (1, Some bytes)
    | None => (EXT2_READ_FAILED, None)
    end
  else (0, None).

Definition ext2_write_block p (block : Z) (source : list Z) d : Z * D :=
  if negb (block =? 0) then
    let '(ok, d) := write_disk (u32 (pt_lba p + block_lba p block)) (block_sectors p) source d in
    if (ok : bool) then (1, d) else (EXT2_WRITE_FAILED, d)
  else (0, d).

(** ** Reading

    The result, the bytes stored at the destination, and what is left to skip; [br] is the
    number of blocks read so far. *)
Fixpoint read_direct p (blocks : list Z) (count br skip : Z) (out : list Z) d : outcome (Z * list Z * Z) :=
  match blocks with
  | [] => Done (br, out, skip)
  | b :: blocks =>
      if skip >? 0 then read_direct p blocks count br (skip - 1) out d else
      let '(r, buf) := ext2_read_block p b d in
      if r =? EXT2_READ_FAILED then Done (EXT2_READ_FAILED, out, skip) else
      if r =? 0 then Done (br, out, skip) else
      bytes ← known buf;
      if br + r =? count then Done (br + r, (out ++ bytes)%list, skip)
      else read_direct p blocks count (br + r) skip (out ++ bytes)%list d
  end.

Definition ext2_read_direct_blocks p (blocks : list Z) (count skip : Z) d : outcome (Z * list Z * Z) :=
  read_direct p blocks count 0 skip [] d.

(** The loop shared by the three routines for pointer blocks; [below] reads through the
    pointers of one of them. *)
Fixpoint read_level (below : list Z → Z → Z → outcome (Z * list Z * Z)) p (blocks : list Z)
    (count br skip : Z) (out : list Z) d : outcome (Z * list Z * Z) :=
  match blocks with
  | [] => Done (br, out, skip)
  | b :: blocks =>
      let '(r, buf) := ext2_read_block p b d in
      if r <=? 0 then Done (EXT2_READ_FAILED, out, skip) else
      pointers ← known buf;
      '(n, bytes, skip) ← below (words pointers) (count - br) skip;
      if (n =? EXT2_READ_FAILED) || (n =? 0) then Done (n, (out ++ bytes)%list, skip) else
      if br + n =? count then Done (br + n, (out ++ bytes)%list, skip)
      else read_level below p blocks count (br + n) skip (out ++ bytes)%list d
  end.

Definition ext2_read_indirect_blocks p (blocks : list Z) (count skip : Z) d :=
  read_level (λ l c s, ext2_read_direct_blocks p l c s d) p blocks count 0 skip [] d.
Definition ext2_read_double_indirect_blocks p (blocks : list Z) (count skip : Z) d :=
  read_level (λ l c s, ext2_read_indirect_blocks p l c s d) p blocks count 0 skip [] d.
Definition ext2_read_triple_indirect_blocks p (blocks : list Z) (count skip : Z) d :=
  read_level (λ l c s, ext2_read_double_indirect_blocks p l c s d) p blocks count 0 skip [] d.

(** The four stages of [ext2_read_inode_blocks]. *)
Definition read_stage (stage : Z → Z → outcome (Z * list Z * Z)) (count : Z) (st : Z * list Z * Z) :
    outcome ((Z * list Z * Z) + (Z * list Z)) :=
  let '(br, out, skip) := st in
  '(n, bytes, skip) ← stage (count - br) skip;
  let out := (out ++ bytes)%list in
  if (n =? EXT2_READ_FAILED) || (n =? 0) then Done (inr (n, out)) else
  if br + n >=? count then Done (inr (br + n, out)) else Done (inl (br + n, out, skip)).

Fixpoint run_stages (stages : list (Z → Z → outcome (Z * list Z * Z))) (count : Z) (st : Z * list Z * Z) :
    outcome (Z * list Z) :=
  match stages with
  | [] => let '(_, out, _) := st in Done (EXT2_READ_FAILED, out)
  | stage :: stages =>
      r ← read_stage stage count st;
      match r with inr v => Done v | inl st => run_stages stages count st end
  end.

(** The blocks of a file from its fifteen pointers. *)
Definition read_pointers p (i_block : list Z) (count blocks_skip : Z) d : outcome (Z * list Z) :=
  run_stages
    [ λ c s, ext2_read_direct_blocks p (take 12 i_block) c s d;
      λ c s, ext2_read_indirect_blocks p (take 1 (drop 12 i_block)) c s d;
      λ c s, ext2_read_double_indirect_blocks p (take 1 (drop 13 i_block)) c s d;
      λ c s, ext2_read_triple_indirect_blocks p (take 1 (drop 14 i_block)) c s d ]
    count (0, [], blocks_skip).

(** ** Writing

    The result, what is left to skip, and the disk; [src] is what follows at the source. *)
Fixpoint write_direct p (blocks : list Z) (count bw skip : Z) (src : list Z) d : outcome (Z * Z * D) :=
  match blocks with
  | [] => Done (bw, skip, d)
  | b :: blocks =>
      if skip >? 0 then write_direct p blocks count bw (skip - 1) src d else
      if Z.of_nat (List.length src) <? block_size p then Fault else
      let '(r, d) := ext2_write_block p b (take (Z.to_nat (block_size p)) src) d in
      if r =? EXT2_WRITE_FAILED then Done (EXT2_WRITE_FAILED, skip, d) else
      if r =? 0 then Done (bw, skip, d) else
      if bw + r =? count then Done (bw + r, skip, d)
      else write_direct p blocks count (bw + r) skip (drop (Z.to_nat (block_size p)) src) d
  end.

Definition ext2_write_direct_blocks p (blocks : list Z) (count skip : Z) (src : list Z) d : outcome (Z * Z * D) :=
  write_direct p blocks count 0 skip src d.

Fixpoint write_level (below : list Z → Z → Z → list Z → D → outcome (Z * Z * D)) p (blocks : list Z)
    (count bw skip : Z) (src : list Z) d : outcome (Z * Z * D) :=
  match blocks with
  | [] => Done (bw, skip, d)
  | b :: blocks =>
      let '(r, buf) := ext2_read_block p b d in
      if r <=? 0 then Done (EXT2_WRITE_FAILED, skip, d) else
      pointers ← known buf;
      '(n, skip, d) ← below (words pointers) (count - bw) skip src d;
      if (n =? EXT2_WRITE_FAILED) || (n =? 0) then Done (n, skip, d) else
      if bw + n =? count then Done (bw + n, skip, d)
      else write_level below p blocks count (bw + n) skip (drop (Z.to_nat (n * block_size p)) src) d
  end.

Definition ext2_write_indirect_blocks p (blocks : list Z) (count skip : Z) (src : list Z) d :=
  write_level (λ l c s src d, ext2_write_direct_blocks p l c s src d) p blocks count 0 skip src d.
Definition ext2_write_double_indirect_blocks p (blocks : list Z) (count skip : Z) (src : list Z) d :=
  write_level (λ l c s src d, ext2_write_indirect_blocks p l c s src d) p blocks count 0 skip src d.
Definition ext2_write_triple_indirect_blocks p (blocks : list Z) (count skip : Z) (src : list Z) d :=
  write_level (λ l c s src d, ext2_write_double_indirect_blocks p l c s src d) p blocks count 0 skip src d.

Fixpoint run_write_stages p (stages : list (Z → Z → list Z → D → outcome (Z * Z * D))) (count bw skip : Z)
    (src : list Z) d : outcome (Z * D) :=
  match stages with
  | [] => Done (EXT2_WRITE_FAILED, d)
  | stage :: stages =>
      '(n, skip, d) ← stage (count - bw) skip src d;
      if (n =? EXT2_WRITE_FAILED) || (n =? 0) then Done (n, d) else
      if bw + n >=? count then Done (bw + n, d)
      else run_write_stages p stages count (bw + n) skip (drop (Z.to_nat (n * block_size p)) src) d
  end.

Definition write_pointers p (i_block : list Z) (count blocks_skip : Z) (src : list Z) d : outcome (Z * D) :=
  run_write_stages p
    [ λ c s src d, ext2_write_direct_blocks p (take 12 i_block) c s src d;
      λ c s src d, ext2_write_indirect_blocks p (take 1 (drop 12 i_block)) c s src d;
      λ c s src d, ext2_write_double_indirect_blocks p (take 1 (drop 13 i_block)) c s src d;
      λ c s src d, ext2_write_triple_indirect_blocks p (take 1 (drop 14 i_block)) c s src d ]
    count 0 blocks_skip src d.
End Blocks.

(** ** Allocation *)
(** The mounted partition: the disk and the structures in memory. *)
Record ext2fs (D : Type) := Fs { fs_disk : D; fs_part : ext2_partition }.
Arguments Fs {D} _ _.
Arguments fs_disk {D} _.
Arguments fs_part {D} _.

(** The first clear bit of a word from bit [k] on, and of a bitmap. *)
Fixpoint find_bit (n : nat) (k w : Z) : option Z :=
  match n with
  | O => None
  | S n => if Z.land w (Z.shiftl 1 k) =? 0 then Some k else find_bit n (k + 1) w
  end.

Fixpoint find_zero (j : Z) (ws : list Z) : option (Z * Z) :=
  match ws with
  | [] => None
  | w :: ws =>
      if w =? 0xFFFFFFFF then find_zero (j + 1) ws else
      match find_bit 32 0 w with Some k => Some (j, k) | None => find_zero (j + 1) ws end
  end.

(** The two counters of free blocks, after [n] more blocks of group [i] are free. *)
Definition count_blocks (i : Z) (g : ext2_block_group_descriptor) (n : Z) (p : ext2_partition) : ext2_partition :=
  with_sb (with_s_free_blocks (u32 (s_free_blocks_count (pt_sb p) + n)) (pt_sb p))
    (with_gd (<[Z.to_nat i := with_free_blocks (u16 (bg_free_blocks_count g + n)) g]> (pt_gd p)) p).

Section Allocation.
Context {D : Type} `{Disk D}.
Implicit Types (fs : ext2fs D).

Fixpoint allocate_in (n : nat) (i : Z) fs : outcome (Z * ext2fs D) :=
  match n with
  | O => Done (0, fs)
  | S n =>
      let p := fs_part fs in
      g ← known (pt_gd p !! Z.to_nat i);
      if bg_free_blocks_count g =? 0 then allocate_in n (i + 1) fs else
      let '(r, buf) := ext2_read_block p (bg_block_bitmap g) (fs_disk fs) in
      if r =? 0 then Done (0, fs) else
      bytes ← known buf;
      match find_zero 0 (words bytes) with
      | None => allocate_in n (i + 1) fs
      | Some (j, k) =>
          w ← known (words bytes !! Z.to_nat j);
          let ws := <[Z.to_nat j := Z.lor w (Z.shiftl 1 k)]> (words bytes) in
          let '(r, d) := ext2_write_block p (bg_block_bitmap g) (unwords ws) (fs_disk fs) in
          if r <=? 0 then Done (0, Fs d p) else
          Done (u32 (j * 32 + k + 1 + i * s_blocks_per_group (pt_sb p)),
                Fs d (ext2_flush_required (count_blocks i g (-1) p)))
      end
  end.

Definition ext2_allocate_block fs : outcome (Z * ext2fs D) :=
  allocate_in (Z.to_nat (pt_group_number (fs_part fs))) 0 fs.

Definition ext2_deallocate_block (block : Z) fs : outcome (Z * ext2fs D) :=
  let p := fs_part fs in
  if s_blocks_per_group (pt_sb p) =? 0 then Fault else
  let group := u32 (block - 1) / s_blocks_per_group (pt_sb p) in
  let index := u32 (block - 1) mod s_blocks_per_group (pt_sb p) in
  g ← known (pt_gd p !! Z.to_nat group);
  let '(r, buf) := ext2_read_block p (bg_block_bitmap g) (fs_disk fs) in
  if r =? 0 then Done (0, fs) else
  bytes ← known buf;
  w ← known (words bytes !! Z.to_nat (index / 32));
  if negb (Z.land w (Z.shiftl 1 (index mod 32)) =? 0) then
    let ws := <[Z.to_nat (index / 32) := Z.land w (Z.lnot (Z.shiftl 1 (index mod 32)))]> (words bytes) in
    let '(r, d) := ext2_write_block p (bg_block_bitmap g) (unwords ws) (fs_disk fs) in
    if r <=? 0 then Done (0, Fs d p) else
    Done (1, Fs d (ext2_flush_required (count_blocks group g 1 p)))
  else Done (0, fs).

(** [blocks] in the order of the loop, the last block of the file first. *)
Fixpoint deallocate_each (blocks : list Z) (n : Z) fs : outcome (Z * ext2fs D) :=
  match blocks with
  | [] => Done (n, Fs (fs_disk fs) (ext2_flush_required (fs_part fs)))
  | b :: blocks =>
      '(r, fs) ← ext2_deallocate_block b fs;
      if r =? 0 then Done (0, fs) else deallocate_each blocks (u32 (n + 1)) fs
  end.

Definition ext2_deallocate_blocks (blocks : list Z) (block_number : Z) fs : outcome (Z * ext2fs D) :=
  let i := s32 (u32 (block_number - 1)) in
  if Z.of_nat (List.length blocks) <=? i then Fault else
  deallocate_each (rev (take (Z.to_nat (i + 1)) blocks)) 0 fs.

(** The pointer block: [None] when a block could not be had.  [buf] is what the rest of the
    buffer contains, [n] the pointers still wanted, [done] those written. *)
Fixpoint fill_pointers (buf : list Z) (n bw : Z) (done : list Z) fs : outcome (option (Z * list Z) * ext2fs D) :=
  match buf with
  | [] => Done (Some (bw, done), fs)
  | x :: buf' =>
      if bw =? n then Done (Some (bw, (done ++ buf)%list), fs) else
      '(b, fs) ← ext2_allocate_block fs;
      if b =? 0 then Done (None, fs) else fill_pointers buf' n (bw + 1) (done ++ [b])%list fs
  end.

(** [junk] is what a fresh buffer contains.  The results are the number of blocks, the new
    pointer, and the partition. *)
Definition ext2_allocate_indirect_block (junk : list Z) (n : Z) fs : outcome (Z * Z * ext2fs D) :=
  '(target, fs) ← ext2_allocate_block fs;
  if target =? 0 then Done (0, target, fs) else
  '(r, fs) ← fill_pointers junk n 0 [] fs;
  match r with
  | None => Done (0, target, fs)
  | Some (bw, buf) =>
      let '(code, d) := ext2_write_block (fs_part fs) target (unwords buf) (fs_disk fs) in
      if code <=? 0 then Done (0, target, Fs d (fs_part fs)) else Done (bw, target, Fs d (fs_part fs))
  end.

Fixpoint fill_level (below : Z → ext2fs D → outcome (Z * Z * ext2fs D)) (buf : list Z) (n bw : Z) (done : list Z) fs :
    outcome (Z * list Z * ext2fs D) :=
  match buf with
  | [] => Done (bw, done, fs)
  | x :: buf' =>
      if bw =? n then Done (bw, (done ++ buf)%list, fs) else
      '(got, b, fs) ← below (u32 (n - bw)) fs;
      fill_level below buf' n (u32 (bw + got)) (done ++ [b])%list fs
  end.

Definition allocate_level (below : Z → ext2fs D → outcome (Z * Z * ext2fs D)) (junk : list Z) (n : Z) fs :
    outcome (Z * Z * ext2fs D) :=
  '(target, fs) ← ext2_allocate_block fs;
  if target =? 0 then Done (0, target, fs) else
  '(bw, buf, fs) ← fill_level below junk n 0 [] fs;
  let '(code, d) := ext2_write_block (fs_part fs) target (unwords buf) (fs_disk fs) in
  if code <=? 0 then Done (0, target, Fs d (fs_part fs)) else Done (bw, target, Fs d (fs_part fs)).

Definition ext2_allocate_double_indirect_block (junk : list Z) (n : Z) fs :=
  allocate_level (ext2_allocate_indirect_block junk) junk n fs.
Definition ext2_allocate_triple_indirect_block (junk : list Z) (n : Z) fs :=
  allocate_level (ext2_allocate_double_indirect_block junk) junk n fs.

(** The direct pointers: those that are 0 get a block.  [None] when there is none. *)
Fixpoint fill_direct (ptrs : list Z) (n got : Z) (done : list Z) fs : outcome (option Z * list Z * ext2fs D) :=
  match ptrs with
  | [] => Done (Some got, done, fs)
  | x :: ptrs' =>
      if got =? n then Done (Some got, (done ++ ptrs)%list, fs) else
      if x =? 0 then
        '(b, fs) ← ext2_allocate_block fs;
        if b =? 0 then Done (None, (done ++ b :: ptrs')%list, fs)
        else fill_direct ptrs' n (got + 1) (done ++ [b])%list fs
      else fill_direct ptrs' n got (done ++ [x])%list fs
  end.

(** The result (0 for success) and the new pointers. *)
Definition ext2_allocate_blocks (junk i_block : list Z) (n : Z) fs : outcome (Z * list Z * ext2fs D) :=
  '(got, direct, fs) ← fill_direct (take 12 i_block) n 0 [] fs;
  let ptrs := (direct ++ drop 12 i_block)%list in
  match got with
  | None => Done (1, ptrs, fs)
  | Some got =>
      if got =? n then Done (0, ptrs, fs) else
      '(k, b, fs) ← ext2_allocate_indirect_block junk (u32 (n - got)) fs;
      let ptrs := <[12%nat := b]> ptrs in
      let got := u32 (got + k) in
      if got =? n then Done (0, ptrs, fs) else
      '(k, b, fs) ← ext2_allocate_double_indirect_block junk (u32 (n - got)) fs;
      let ptrs := <[13%nat := b]> ptrs in
      let got := u32 (got + k) in
      if got =? n then Done (0, ptrs, fs) else
      '(k, b, fs) ← ext2_allocate_triple_indirect_block junk (u32 (n - got)) fs;
      let ptrs := <[14%nat := b]> ptrs in
      if u32 (got + k) =? n then Done (0, ptrs, fs) else Done (1, ptrs, fs)
  end.
End Allocation.
