(* ===== verification/Ext2Disk.v ===== *)
(** * The disk under an ext2 partition

    What the file system relies on: a disk is an array of sectors, a read returns sectors
    and a write replaces them.  From this follow the same facts for the blocks of a
    partition.  [ram_disk] is a disk in memory, which shows that the interface can be met. *)
From S2P Require Import Prelude Ext2Block.
#[local] Open Scope Z_scope.

(** The [k]-th piece of [n] bytes. *)
Definition piece (n k : Z) (l : list Z) : list Z := take (Z.to_nat n) (drop (Z.to_nat (k * n)) l).

Class DiskOk (D : Type) `{Disk D} := {
  dk_bytes : Z;
  dk_size : D → Z;
  dk_sector : D → Z → list Z;
  dk_bytes_pos : 0 < dk_bytes;
  dk_sector_length d i : 0 ≤ i < dk_size d → Z.of_nat (List.length (dk_sector d i)) = dk_bytes;
  dk_read d lba n : 0 ≤ lba → 0 < n → lba + n ≤ dk_size d →
    read_disk lba n d = Some (mbind (dk_sector d) (seqZ lba n));
  dk_write d lba n bytes : 0 ≤ lba → 0 < n → lba + n ≤ dk_size d → Z.of_nat (List.length bytes) = n * dk_bytes →
    ∃ d', write_disk lba n bytes d = (true, d') ∧ dk_size d' = dk_size d ∧
      ∀ i, 0 ≤ i < dk_size d →
        dk_sector d' i = if decide (lba ≤ i < lba + n) then piece dk_bytes (i - lba) bytes else dk_sector d i;
}.

(** ** Pieces *)
Lemma pieces_concat n a k l :
  0 < n → 0 ≤ k → Z.of_nat (List.length l) = k * n →
  mbind (λ i, piece n (i - a) l) (seqZ a k) = l.
Proof.
  intros Hn Hk Hl. rewrite <- (Z2Nat.id k Hk) in *. revert a l Hl.
  induction (Z.to_nat k) as [|m IH]; intros a l Hl.
  - destruct l; [done|cbn in Hl; lia].
  - rewrite seqZ_cons by lia. cbn [mbind list_bind]. rewrite Z.sub_diag.
    replace (Z.pred (Z.of_nat (S m))) with (Z.of_nat m) by lia.
    rewrite (Forall_bind_ext _ (λ i, piece n (i - Z.succ a) (drop (Z.to_nat n) l))).
    + rewrite IH by (rewrite length_drop; lia). unfold piece. rewrite Z.mul_0_l, drop_0. apply take_drop.
    + apply Forall_forall. intros i Hi%elem_of_seqZ. unfold piece. rewrite drop_drop.
      assert (0 ≤ (i - Z.succ a) * n) by nia. do 2 f_equal. lia.
Qed.

(** ** Blocks *)
Section Blocks.
Context {D : Type} `{DiskOk D}.
Implicit Types (p : ext2_partition) (d : D).

(** A partition of [n] blocks on a disk, each a whole number of sectors; block addresses fit
    32 bits. *)
Record geometry p d (n : Z) : Prop := {
  ge_sector : pt_sector_size p = dk_bytes;
  ge_block : block_size p = block_sectors p * dk_bytes;
  ge_sectors : 0 < block_sectors p;
  ge_words : block_size p mod 4 = 0;
  ge_count : 0 < n;
  ge_bytes : n * block_size p < 2 ^ 32;
  ge_lba : 0 ≤ pt_lba p;
  ge_end : pt_lba p + n * block_sectors p ≤ dk_size d;
  ge_size : dk_size d < 2 ^ 31;
}.

Definition block_at p d (b : Z) : list Z :=
  mbind (dk_sector d) (seqZ (pt_lba p + b * block_sectors p) (block_sectors p)).

Lemma geometry_block p d n : geometry p d n → 0 < block_size p.
Proof. intros Hg. rewrite (ge_block _ _ _ Hg). pose proof dk_bytes_pos. pose proof (ge_sectors _ _ _ Hg). nia. Qed.

Lemma block_lba_ok p d n b : geometry p d n → 0 ≤ b < n → block_lba p b = b * block_sectors p.
Proof.
  intros Hg Hb. pose proof (geometry_block _ _ _ Hg). pose proof (ge_bytes _ _ _ Hg). pose proof dk_bytes_pos.
  unfold block_lba. rewrite u32_small by nia. rewrite (ge_block _ _ _ Hg), (ge_sector _ _ _ Hg), Z.mul_assoc.
  apply Z.div_mul. lia.
Qed.

(** A range of sectors of a block of the partition. *)
Lemma block_range p d n b :
  geometry p d n → 0 ≤ b < n →
  0 ≤ pt_lba p + b * block_sectors p ∧ pt_lba p + b * block_sectors p + block_sectors p ≤ dk_size d ∧
  u32 (pt_lba p + b * block_sectors p) = pt_lba p + b * block_sectors p.
Proof.
  intros Hg Hb. pose proof (ge_sectors _ _ _ Hg). pose proof (ge_lba _ _ _ Hg). pose proof (ge_end _ _ _ Hg).
  pose proof (ge_size _ _ _ Hg).
  assert (b * block_sectors p + block_sectors p ≤ n * block_sectors p) by nia.
  assert (0 ≤ b * block_sectors p) by nia. split_and!; [lia|lia|]. apply u32_small. lia.
Qed.

Lemma block_at_length p d n b :
  geometry p d n → 0 ≤ b < n → Z.of_nat (List.length (block_at p d b)) = block_size p.
Proof.
  intros Hg Hb. destruct (block_range _ _ _ _ Hg Hb) as (H1 & H2 & _). pose proof (ge_sectors _ _ _ Hg) as H3.
  unfold block_at. rewrite (ge_block _ _ _ Hg).
  cut (∀ k a, 0 ≤ a → a + Z.of_nat k ≤ dk_size d →
    Z.of_nat (List.length (mbind (dk_sector d) (seqZ a (Z.of_nat k)))) = Z.of_nat k * dk_bytes).
  { intros Hc. specialize (Hc (Z.to_nat (block_sectors p)) (pt_lba p + b * block_sectors p)).
    rewrite Z2Nat.id in Hc by lia. by apply Hc. }
  induction k as [|k IH]; intros a Ha He; [done|]. rewrite seqZ_cons by lia. cbn [mbind list_bind].
  rewrite length_app, Nat2Z.inj_add, dk_sector_length by lia.
  replace (Z.pred (Z.of_nat (S k))) with (Z.of_nat k) by lia. rewrite IH by lia. lia.
Qed.

Lemma read_block_ok p d n b :
  geometry p d n → 0 < b < n → ext2_read_block p b d = (1, Some (block_at p d b)).
Proof.
  intros Hg Hb. destruct (block_range p d n b Hg) as (H1 & H2 & H3); [lia|]. pose proof (ge_sectors _ _ _ Hg).
  unfold ext2_read_block. rewrite gtb_true, (block_lba_ok _ _ _ _ Hg), H3 by lia. by rewrite dk_read by lia.
Qed.

(** Two blocks share no sector. *)
Lemma write_block_ok p d n b bytes :
  geometry p d n → 0 < b < n → Z.of_nat (List.length bytes) = block_size p →
  ∃ d', ext2_write_block p b bytes d = (1, d') ∧ geometry p d' n ∧
    ∀ c, 0 ≤ c < n → block_at p d' c = if decide (c = b) then bytes else block_at p d c.
Proof.
  intros Hg Hb Hl. destruct (block_range p d n b Hg) as (H1 & H2 & H3); [lia|]. pose proof (ge_sectors _ _ _ Hg) as Hs.
  rewrite (ge_block _ _ _ Hg) in Hl.
  destruct (dk_write d (pt_lba p + b * block_sectors p) (block_sectors p) bytes H1 Hs H2 Hl) as (d' & E & Hsz & Hsec).
  exists d'. unfold ext2_write_block. rewrite (proj2 (Z.eqb_neq b 0)), (block_lba_ok _ _ _ _ Hg), H3, E by lia.
  cbn [negb]. split; [done|]. split; [destruct Hg; split; rewrite ?Hsz; done|]. intros c Hc.
  destruct (block_range p d n c Hg Hc) as (C1 & C2 & _). unfold block_at. case_decide as Hcb.
  - subst c. rewrite (Forall_bind_ext _ (λ i, piece dk_bytes (i - (pt_lba p + b * block_sectors p)) bytes)).
    + apply pieces_concat; [apply dk_bytes_pos|lia|done].
    + apply Forall_forall. intros i Hi%elem_of_seqZ. rewrite Hsec by lia. by rewrite decide_True by lia.
  - apply Forall_bind_ext, Forall_forall. intros i Hi%elem_of_seqZ. rewrite Hsec by lia. rewrite decide_False; [done|].
    intros Hin. assert (c < b ∨ b < c) as [?|?] by lia; nia.
Qed.
End Blocks.

(** ** Words *)
Lemma words_length l : Z.of_nat (List.length l) mod 4 = 0 → Z.of_nat (List.length (words l)) = Z.of_nat (List.length l) / 4.
Proof.
  intros Hl. remember (List.length l / 4)%nat as k eqn:Ek. revert l Hl Ek. induction k as [|k IH]; intros l Hl Ek.
  - assert (List.length l < 4)%nat by (destruct (Nat.lt_ge_cases (List.length l) 4); [done|];
      pose proof (Nat.div_str_pos (List.length l) 4); lia).
    assert (List.length l = 0%nat) by dlia. by destruct l.
  - destruct l as [|a [|b [|c [|d l]]]]; try (cbn in *; dlia). cbn [words List.length] in *.
    rewrite !Nat2Z.inj_succ, IH; [dlia|dlia|]. pose proof (Nat.div_add (List.length l) 1 4).
    replace (S (S (S (S (List.length l)))))  with (List.length l + 1 * 4)%nat in Ek by lia. lia.
Qed.

Lemma word_of_bytes a b c d :
  is_byte a → is_byte b → is_byte c → is_byte d → word_bytes (a + 256 * (b + 256 * (c + 256 * d))) = [a; b; c; d].
Proof. unfold is_byte, word_bytes. intros. repeat f_equal; dlia. Qed.

Lemma words_unwords ws : Forall (λ w, 0 ≤ w < 2 ^ 32) ws → words (unwords ws) = ws.
Proof.
  induction 1 as [|w ws Hw _ IH]; [done|]. unfold unwords in *. cbn [mbind list_bind word_bytes app words]. f_equal; [dlia|done].
Qed.

Lemma unwords_length ws : List.length (unwords ws) = (4 * List.length ws)%nat.
Proof. induction ws as [|w ws IH]; [done|]. unfold unwords in *. cbn in *. lia. Qed.

(** ** A disk in memory, of 2^20 sectors of 512 bytes *)
Record ram_disk := Ram { ram_byte : Z → Z }.

Definition ram_sector (d : ram_disk) (i : Z) : list Z := ram_byte d <$> seqZ (i * 512) 512.
Definition ram_ok (lba n : Z) : bool := (0 <=? lba) && (0 <? n) && (lba + n <=? 2 ^ 20).

#[export] Instance ram_is_disk : Disk ram_disk := {|
  read_disk lba n d := if ram_ok lba n then Some (mbind (ram_sector d) (seqZ lba n)) else None;
  write_disk lba n bytes d :=
    if ram_ok lba n then
      (true, Ram (λ a, if (lba * 512 <=? a) && (a <? (lba + n) * 512) then default 0 (bytes !! Z.to_nat (a - lba * 512))
                       else ram_byte d a))
    else (false, d);
|}.

Lemma ram_in_range lba n : 0 ≤ lba → 0 < n → lba + n ≤ 2 ^ 20 → ram_ok lba n = true.
Proof.
  intros. unfold ram_ok. by rewrite (proj2 (Z.leb_le 0 lba)), (proj2 (Z.ltb_lt 0 n)), (proj2 (Z.leb_le (lba + n) _)).
Qed.

Lemma ram_written bytes lba n i d :
  lba ≤ i < lba + n → Z.of_nat (List.length bytes) = n * 512 →
  ram_sector (Ram (λ a, if (lba * 512 <=? a) && (a <? (lba + n) * 512) then default 0 (bytes !! Z.to_nat (a - lba * 512))
                        else d a)) i = piece 512 (i - lba) bytes.
Proof.
  intros Hi Hl. unfold ram_sector, piece. apply list_eq. intros k. rewrite list_lookup_fmap.
  destruct (decide (k < 512)%nat) as [Hk|Hk].
  - rewrite lookup_seqZ_lt, lookup_take_lt, lookup_drop by lia. cbn [fmap option_fmap option_map ram_byte].
    rewrite (proj2 (Z.leb_le _ _)), (proj2 (Z.ltb_lt _ _)) by lia. cbn [andb].
    replace (Z.to_nat (i * 512 + Z.of_nat k - lba * 512)) with (Z.to_nat ((i - lba) * 512) + k)%nat by lia.
    destruct (lookup_lt_is_Some_2 bytes (Z.to_nat ((i - lba) * 512) + k)) as [x ->]; [lia|done].
  - rewrite lookup_seqZ_ge, lookup_take_ge by lia. done.
Qed.

#[export] Program Instance ram_is_disk_ok : DiskOk ram_disk := {|
  dk_bytes := 512; dk_size _ := 2 ^ 20; dk_sector := ram_sector;
|}.
Next Obligation. done. Qed.
Next Obligation. intros d i Hi. unfold ram_sector. by rewrite length_fmap, length_seqZ. Qed.
Next Obligation. intros d lba n H1 H2 H3. cbn. by rewrite ram_in_range. Qed.
Next Obligation.
  intros d lba n bytes H1 H2 H3 Hl. cbn. rewrite ram_in_range by done. eexists. split; [done|]. split; [done|].
  intros i Hi. case_decide as Hin; [by apply ram_written|]. unfold ram_sector. apply list_fmap_ext. intros k a Ha.
  apply lookup_seqZ in Ha as [-> Hk]. cbn [ram_byte].
  destruct (Z.leb_spec (lba * 512) (i * 512 + Z.of_nat k)), (Z.ltb_spec (i * 512 + Z.of_nat k) ((lba + n) * 512)); cbn [andb]; try done.
  lia.
Qed.

(** ** A small partition
    One group of 4096 blocks of two sectors; inode 2 has the twelve blocks from 20 on and, behind
    pointer block 10, the blocks 32 and 33. *)
Definition small_part : ext2_partition :=
  Partition 0 1 512 0 (Superblock 100 6 0 4096 8 0 0) [Bgd 3 4 8 100 6 0].

Definition small_disk : ram_disk :=
  Ram (λ a,
    if (8360 <=? a) && (a <? 8420) then default 0 (unwords (seqZ 20 12 ++ [10; 0; 0]) !! Z.to_nat (a - 8360))
    else if (10240 <=? a) && (a <? 10248) then default 0 (unwords [32; 33] !! Z.to_nat (a - 10240))
    else 0).

Lemma small_geometry d : geometry (D := ram_disk) small_part d 4096.
Proof. by split. Qed.
