(* ===== verification/Ext2Inode.v ===== *)
(** * Inodes and files of an ext2 partition (src/src/vfs/generic/ext2/ext2_inode.c, ext2_block.c)

    An inode is the sequence of its bytes, with its fields at the offsets of the packed
    structure; the tables of inodes are arrays in the blocks of each group. *)
From S2P Require Import Prelude Ext2Block.
#[local] Open Scope Z_scope.

Definition INODE_TYPE_DIR : Z := 0x4000.
Definition INODE_BLOCK_END : Z := 0xFFFFFFFF.

(** ** Fields *)
Definition get16 (off : nat) (l : list Z) : outcome Z :=
  a ← known (l !! off); b ← known (l !! S off); Done (a + 256 * b).
Definition get32 (off : nat) (l : list Z) : outcome Z :=
  lo ← get16 off l; hi ← get16 (off + 2) l; Done (lo + 65536 * hi).

(** Bytes stored over those from [off] on; past the end is a fault. *)
Definition put_bytes (off : nat) (v l : list Z) : outcome (list Z) :=
  if (List.length l <? off + List.length v)%nat then Fault
  else Done (take off l ++ v ++ drop (off + List.length v) l)%list.
Definition put16 (off : nat) (v : Z) (l : list Z) : outcome (list Z) := put_bytes off [v mod 256; v / 256 mod 256] l.
Definition put32 (off : nat) (v : Z) (l : list Z) : outcome (list Z) := put_bytes off (word_bytes v) l.

Definition off_i_mode : nat := 0.
Definition off_i_uid : nat := 2.
Definition off_i_size : nat := 4.
Definition off_i_atime : nat := 8.
Definition off_i_ctime : nat := 12.
Definition off_i_mtime : nat := 16.
Definition off_i_dtime : nat := 20.
Definition off_i_gid : nat := 24.
Definition off_i_links_count : nat := 26.
Definition off_i_sectors : nat := 28.
Definition off_i_flags : nat := 32.
Definition off_i_osd1 : nat := 36.
Definition off_i_block : nat := 40.
Definition off_i_generation : nat := 100.
Definition off_i_file_acl : nat := 104.
Definition off_i_dir_acl : nat := 108.
Definition off_i_faddr : nat := 112.

(** The fifteen pointers. *)
Definition i_block (inode : list Z) : list Z := words (take 60 (drop off_i_block inode)).

(** ** Where an inode is *)
Definition inode_size (p : ext2_partition) : Z := if s_rev_level (pt_sb p) <? 1 then 128 else s_inode_size (pt_sb p).

(** The sector of the block of the table, and the offset in it. *)
Definition inode_place (p : ext2_partition) (ino : Z) : outcome (Z * Z) :=
  if s_inodes_per_group (pt_sb p) =? 0 then Fault else
  let group := u32 (ino - 1) / s_inodes_per_group (pt_sb p) in
  let index := u32 (ino - 1) mod s_inodes_per_group (pt_sb p) in
  let inode_block := u32 (index * inode_size p) / block_size p in
  g ← known (pt_gd p !! Z.to_nat group);
  Done (u32 (pt_lba p + block_lba p (bg_inode_table g) + u32 (inode_block * block_sectors p)),
        u32 (index * inode_size p) mod block_size p).

Section Inodes.
Context {D : Type} `{Disk D}.
Implicit Types (p : ext2_partition) (d : D) (fs : ext2fs D).

(** [None] when the disk fails. *)
Definition ext2_read_inode p (ino : Z) d : outcome (option (list Z)) :=
  '(lba, off) ← inode_place p ino;
  match read_disk lba (block_sectors p) d with
  | None => Done None
  | Some bytes =>
      if block_size p <? off + inode_size p then Fault
      else Done (Some (take (Z.to_nat (inode_size p)) (drop (Z.to_nat off) bytes)))
  end.

Definition ext2_write_inode p (ino : Z) (inode : list Z) d : outcome (Z * D) :=
  '(lba, off) ← inode_place p ino;
  match read_disk lba (block_sectors p) d with
  | None => Done (1, d)
  | Some bytes =>
      bytes ← put_bytes (Z.to_nat off) (take (Z.to_nat (inode_size p)) inode) bytes;
      let '(ok, d) := write_disk lba (block_sectors p) bytes d in
      if (ok : bool) then Done (0, d) else Done (1, d)
  end.

(** ** Reading and writing files *)
Definition ext2_read_inode_blocks p (ino count blocks_skip : Z) d : outcome (Z * list Z) :=
  if count =? 0 then Done (0, []) else
  inode ← ext2_read_inode p ino d;
  match inode with
  | None => Done (EXT2_READ_FAILED, [])
  | Some inode => read_pointers p (i_block inode) count blocks_skip d
  end.

Definition ext2_write_inode_blocks p (ino : Z) (src : list Z) (count blocks_skip : Z) d : outcome (Z * D) :=
  if count =? 0 then Done (0, d) else
  inode ← ext2_read_inode p ino d;
  match inode with
  | None => Done (EXT2_WRITE_FAILED, d)
  | Some inode => write_pointers p (i_block inode) count blocks_skip src d
  end.

(** [memcpy] of the first [n] bytes of a buffer. *)
Definition first_bytes (n : Z) (l : list Z) : outcome (list Z) :=
  if Z.of_nat (List.length l) <? n then Fault else Done (take (Z.to_nat n) l).

(** The result and the bytes stored at the destination. *)
Definition ext2_read_inode_bytes p (ino count skip : Z) d : outcome (Z * list Z) :=
  let bs := block_size p in
  let blocks := DIVIDE_ROUNDED_UP count bs in
  let skip_blocks := skip / bs in
  let skip_bytes := skip mod bs in
  first ← (if negb (skip_bytes =? 0) then
             '(r, b) ← ext2_read_inode_blocks p ino 1 skip_blocks d;
             if negb (r =? 1) then Done None
             else Done (Some (bs - skip_bytes, drop (Z.to_nat skip_bytes) b, skip_blocks + 1))
           else Done (Some (0, [], skip_blocks)));
  match first with
  | None => Done (EXT2_READ_FAILED, [])
  | Some (read_bytes, out, skip_blocks) =>
      middle ← (if s64 (count - read_bytes) >? 0 then
                  '(r, b) ← ext2_read_inode_blocks p ino (u64 (blocks - 1)) skip_blocks d;
                  if r =? EXT2_READ_FAILED then Done None
                  else Done (Some (read_bytes + r * bs, (out ++ b)%list, skip_blocks + r))
                else Done (Some (read_bytes, out, skip_blocks)));
      match middle with
      | None => Done (EXT2_READ_FAILED, out)
      | Some (read_bytes, out, skip_blocks) =>
          let remaining := s64 (count - read_bytes) in
          if remaining >? 0 then
            '(r, b) ← ext2_read_inode_blocks p ino 1 skip_blocks d;
            if negb (r =? 1) then Done (EXT2_READ_FAILED, out) else
            last ← first_bytes remaining b;
            Done (read_bytes + remaining, (out ++ last)%list)
          else Done (read_bytes, out)
      end
  end.

Definition ext2_write_inode_bytes p (ino : Z) (src : list Z) (count skip : Z) d : outcome (Z * D) :=
  let bs := block_size p in
  inode ← ext2_read_inode p ino d;
  match inode with
  | None => Done (EXT2_WRITE_FAILED, d)
  | Some _ =>
      let blocks := DIVIDE_ROUNDED_UP count bs in
      let skip_blocks := skip / bs in
      let skip_bytes := skip mod bs in
      first ← (if negb (skip_bytes =? 0) then
                 '(r, b) ← ext2_read_inode_blocks p ino 1 skip_blocks d;
                 if negb (r =? 1) then Done (None, d) else
                 copied ← first_bytes skip_bytes src;
                 temp ← put_bytes (Z.to_nat skip_bytes) copied b;
                 '(r, d) ← ext2_write_inode_blocks p ino temp 1 skip_blocks d;
                 if negb (r =? 1) then Done (None, d)
                 else Done (Some (bs - skip_bytes, drop (Z.to_nat (bs - skip_bytes)) src, skip_blocks + 1), d)
               else Done (Some (0, src, skip_blocks), d));
      let '(first, d) := first in
      match first with
      | None => Done (EXT2_WRITE_FAILED, d)
      | Some (written, src, skip_blocks) =>
          middle ← (if s64 (count - written) >? 0 then
                      '(r, d) ← ext2_write_inode_blocks p ino src (u64 (blocks - 1)) skip_blocks d;
                      if r =? EXT2_WRITE_FAILED then Done (None, d)
                      else Done (Some (written + r * bs, skip_blocks + r), d)
                    else Done (Some (written, skip_blocks), d));
          let '(middle, d) := middle in
          match middle with
          | None => Done (EXT2_WRITE_FAILED, d)
          | Some (written, skip_blocks) =>
              let remaining := s64 (count - written) in
              if remaining >? 0 then
                '(r, b) ← ext2_read_inode_blocks p ino 1 skip_blocks d;
                if negb (r =? 1) then Done (EXT2_WRITE_FAILED, d) else
                copied ← first_bytes remaining (drop (Z.to_nat written) src);
                temp ← put_bytes 0 copied b;
                '(r, d) ← ext2_write_inode_blocks p ino temp 1 skip_blocks d;
                if negb (r =? 1) then Done (EXT2_WRITE_FAILED, d) else Done (written + remaining, d)
              else Done (written, d)
          end
      end
  end.
End Inodes.

(** ** Allocating and deleting inodes *)
Definition with_inode_counts i n g := Bgd (bg_block_bitmap g) (bg_inode_bitmap g) (bg_inode_table g)
  (bg_free_blocks_count g) i n.
Definition with_s_free_inodes v sb := Superblock (s_free_blocks_count sb) v (s_log_block_size sb)
  (s_blocks_per_group sb) (s_inodes_per_group sb) (s_rev_level sb) (s_inode_size sb).

(** The first group, from group [i] on, for which the callback is not 0. *)
Fixpoint operate_from (callback : ext2_block_group_descriptor → bool) (i : Z) (gd : list ext2_block_group_descriptor) : Z :=
  match gd with [] => -1 | g :: gd => if callback g then s32 i else operate_from callback (i + 1) gd end.
Definition ext2_operate_on_bg (p : ext2_partition) (callback : ext2_block_group_descriptor → bool) : Z :=
  operate_from callback 0 (take (Z.to_nat (pt_group_number p)) (pt_gd p)).
Definition ext2_bg_has_free_inodes (g : ext2_block_group_descriptor) : bool := bg_free_inodes_count g >? 0.

(** The number of the first clear bit of a bitmap of bytes, from 1 on; 0 if there is none. *)
Fixpoint find_inode (i : Z) (bitmap : list Z) : Z :=
  match bitmap with
  | [] => 0
  | b :: bitmap =>
      if negb (b =? 0xFF) then match find_bit 8 0 b with Some j => i * 8 + j + 1 | None => 0 end
      else find_inode (i + 1) bitmap
  end.

Definition EXT2_UNIQUE_START : Z := 0x00CAFE00.
Definition ext2_get_unique_id (unique_id : Z) : Z :=
  if unique_id =? 0xFFFFFFFF then EXT2_UNIQUE_START else unique_id + 1.

Section InodeOperations.
Context {D : Type} `{Disk D}.
Implicit Types (p : ext2_partition) (d : D) (fs : ext2fs D).

Definition ext2_allocate_inode fs : outcome (Z * ext2fs D) :=
  let p := fs_part fs in
  let id := ext2_operate_on_bg p ext2_bg_has_free_inodes in
  if id =? -1 then Done (0, fs) else
  g ← known (pt_gd p !! Z.to_nat id);
  let '(r, buf) := ext2_read_block p (bg_inode_bitmap g) (fs_disk fs) in
  if negb (r =? 1) then Done (0, fs) else
  bitmap ← known buf;
  let number := find_inode 0 bitmap in
  if number =? 0 then Done (0, fs) else
  b ← known (bitmap !! Z.to_nat ((number - 1) / 8));
  let bitmap := <[Z.to_nat ((number - 1) / 8) := Z.lor b (Z.shiftl 1 ((number - 1) mod 8))]> bitmap in
  let '(r, d) := ext2_write_block p (bg_inode_bitmap g) bitmap (fs_disk fs) in
  if r <=? 0 then Done (0, Fs d p) else
  let g := with_inode_counts (u16 (bg_free_inodes_count g - 1)) (bg_used_dirs_count g) g in
  let p := with_sb (with_s_free_inodes (u32 (s_free_inodes_count (pt_sb p) - 1)) (pt_sb p)) p in
  Done (number, Fs d (ext2_flush_required (with_gd (<[Z.to_nat id := g]> (pt_gd p)) p))).

(** [unique] is the value of the counter, [epoch] the time. *)
Definition ext2_initialize_inode p (ino type permissions unique epoch : Z) d : outcome (option (list Z) * Z) :=
  inode ← ext2_read_inode p ino d;
  match inode with
  | None => Done (None, unique)
  | Some l =>
      let unique := ext2_get_unique_id unique in
      l ← put16 off_i_mode (Z.lor type permissions) l;
      l ← put16 off_i_uid 0 l;
      l ← put32 off_i_size 0 l;
      l ← put32 off_i_atime epoch l;
      l ← put32 off_i_ctime epoch l;
      l ← put32 off_i_mtime epoch l;
      l ← put32 off_i_dtime 0 l;
      l ← put16 off_i_gid 0 l;
      l ← put16 off_i_links_count 1 l;
      l ← put32 off_i_sectors 0 l;
      l ← put32 off_i_flags 0 l;
      l ← put32 off_i_osd1 0 l;
      l ← put_bytes off_i_block (replicate 60 0) l;
      l ← put32 off_i_generation unique l;
      l ← put32 off_i_file_acl 0 l;
      l ← put32 off_i_dir_acl 0 l;
      l ← put32 off_i_faddr 0 l;
      Done (Some l, unique)
  end.

(** The sector of the bitmap of an inode's group; its size is not rounded up. *)
Definition inode_bitmap_place p (ino : Z) : outcome (Z * Z) :=
  if s_inodes_per_group (pt_sb p) =? 0 then Fault else
  g ← known (pt_gd p !! Z.to_nat (u32 (ino - 1) / s_inodes_per_group (pt_sb p)));
  Done (u32 (pt_lba p + block_lba p (bg_inode_bitmap g)), block_size p / pt_sector_size p).

Definition ext2_read_inode_bitmap p (ino : Z) d : outcome (option (list Z)) :=
  '(lba, n) ← inode_bitmap_place p ino; Done (read_disk lba n d).
Definition ext2_write_inode_bitmap p (ino : Z) (bitmap : list Z) d : outcome (Z * D) :=
  '(lba, n) ← inode_bitmap_place p ino;
  let '(ok, d) := write_disk lba n bitmap d in
  if (ok : bool) then Done (0, d) else Done (1, d).

(** The byte of the bitmap that is cleared is the one with the index of the inode. *)
Definition ext2_delete_inode (ino epoch : Z) fs : outcome (Z * ext2fs D) :=
  let p := fs_part fs in
  inode ← ext2_read_inode p ino (fs_disk fs);
  match inode with
  | None => Done (1, fs)
  | Some l =>
      mode ← get16 off_i_mode l;
      l ← put32 off_i_dtime epoch l;
      l ← put16 off_i_links_count 0 l;
      l ← put32 off_i_size 0 l;
      l ← put16 off_i_mode 0 l;
      l ← put32 off_i_sectors 0 l;
      '(r, d) ← ext2_write_inode p ino l (fs_disk fs);
      if negb (r =? 0) then Done (1, Fs d p) else
      bitmap ← ext2_read_inode_bitmap p ino d;
      match bitmap with
      | None => Done (1, Fs d p)
      | Some bitmap =>
          let index := u32 (ino - 1) mod s_inodes_per_group (pt_sb p) in
          let group := u32 (ino - 1) / s_inodes_per_group (pt_sb p) in
          bitmap ← put_bytes (Z.to_nat index) [0] bitmap;
          '(r, d) ← ext2_write_inode_bitmap p ino bitmap d;
          if negb (r =? 0) then Done (1, Fs d p) else
          g ← known (pt_gd p !! Z.to_nat group);
          let dirs := if negb (Z.land mode INODE_TYPE_DIR =? 0) then u16 (bg_used_dirs_count g - 1) else bg_used_dirs_count g in
          let g := with_inode_counts (u16 (bg_free_inodes_count g + 1)) dirs g in
          let p := with_sb (with_s_free_inodes (u32 (s_free_inodes_count (pt_sb p) + 1)) (pt_sb p)) p in
          Done (0, Fs d (ext2_flush_required (with_gd (<[Z.to_nat group := g]> (pt_gd p)) p)))
      end
  end.

(** ** The list of the blocks of a file *)
Fixpoint until_end (l : list Z) : list Z :=
  match l with [] => [] | b :: l => if (b =? 0) || (b =? INODE_BLOCK_END) then [] else b :: until_end l end.

(** [None] for [EXT2_READ_FAILED]. *)
Definition ext2_load_indirect_block_list p (block : Z) d : outcome (option (list Z)) :=
  let '(r, buf) := ext2_read_block p block d in
  if r =? EXT2_READ_FAILED then Done None else
  bytes ← known buf;
  Done (Some (until_end (words bytes))).

Fixpoint load_each (below : Z → outcome (option (list Z))) (ptrs acc : list Z) : outcome (option (list Z)) :=
  match ptrs with
  | [] => Done (Some acc)
  | b :: ptrs =>
      l ← below b;
      match l with None => Done None | Some l => load_each below ptrs (acc ++ l)%list end
  end.

Definition load_level (below : Z → outcome (option (list Z))) p (block : Z) d : outcome (option (list Z)) :=
  let '(r, buf) := ext2_read_block p block d in
  if r =? EXT2_READ_FAILED then Done None else
  bytes ← known buf;
  load_each below (until_end (words bytes)) [].

Definition ext2_load_double_indirect_block_list p (block : Z) d :=
  load_level (λ b, ext2_load_indirect_block_list p b d) p block d.
Definition ext2_load_triple_indirect_block_list p (block : Z) d :=
  load_level (λ b, ext2_load_double_indirect_block_list p b d) p block d.

(** A stage that runs while the list is short; more blocks than the list has room for are
    stored behind it, a fault. *)
Definition load_stage (n : Z) (load : outcome (option (list Z))) (acc : list Z) : outcome (option (list Z)) :=
  if Z.of_nat (List.length acc) <? n then
    l ← load;
    match l with
    | None => Done None
    | Some l => if n <? Z.of_nat (List.length (acc ++ l)%list) then Fault else Done (Some (acc ++ l)%list)
    end
  else Done (Some acc).

Definition ext2_load_block_list p (ino : Z) d : outcome (option (list Z)) :=
  inode ← ext2_read_inode p ino d;
  match inode with
  | None => Done None
  | Some inode =>
      size ← get32 off_i_size inode;
      let n := DIVIDE_ROUNDED_UP size (block_size p) in
      let ptr k := known (i_block inode !! k) in
      let direct := take (Z.to_nat n) (filter (λ b, 0 < b) (take 12 (i_block inode))) in
      l ← load_stage n (b ← ptr 12%nat; ext2_load_indirect_block_list p b d) direct;
      match l with None => Done None | Some l =>
      l ← load_stage n (b ← ptr 13%nat; ext2_load_double_indirect_block_list p b d) l;
      match l with None => Done None | Some l =>
      l ← load_stage n (b ← ptr 14%nat; ext2_load_triple_indirect_block_list p b d) l;
      match l with None => Done None | Some l =>
      if negb (Z.of_nat (List.length l) =? n) then Done None else Done (Some l)
      end end end
  end.

Definition ext2_delete_file_blocks (ino : Z) fs : outcome (Z * ext2fs D) :=
  let p := fs_part fs in
  inode ← ext2_read_inode p ino (fs_disk fs);
  match inode with
  | None => Done (1, fs)
  | Some inode =>
      l ← ext2_load_block_list p ino (fs_disk fs);
      match l with
      | None => Done (1, fs)
      | Some l =>
          size ← get32 off_i_size inode;
          let n := DIVIDE_ROUNDED_UP size (block_size p) in
          '(r, fs) ← ext2_deallocate_blocks l n fs;
          if negb (r =? n) then Done (1, fs) else Done (0, fs)
      end
  end.

Definition ext2_delete_n_blocks (ino n : Z) fs : outcome (Z * ext2fs D) :=
  let p := fs_part fs in
  inode ← ext2_read_inode p ino (fs_disk fs);
  match inode with
  | None => Done (1, fs)
  | Some _ =>
      l ← ext2_load_block_list p ino (fs_disk fs);
      match l with
      | None => Done (1, fs)
      | Some l =>
          '(r, fs) ← ext2_deallocate_blocks l n fs;
          if negb (r =? n) then Done (1, fs) else Done (0, fs)
      end
  end.
End InodeOperations.
