(* ===== verification/Ext2Spec.v ===== *)
(** * Inodes and files on an ext2 partition

    What is written to an inode, or to the blocks of a file, is what is read back, and
    nothing else changes. *)
From S2P Require Import Prelude Ext2Block Ext2Disk Ext2Inode.
#[local] Open Scope Z_scope.

(** ** Bytes of a buffer *)
Lemma put_bytes_ok off v l :
  (off + List.length v ≤ List.length l)%nat →
  ∃ l', put_bytes off v l = Done l' ∧ List.length l' = List.length l ∧
    (∀ a n, (a + n ≤ off ∨ off + List.length v ≤ a)%nat → take n (drop a l') = take n (drop a l)) ∧
    take (List.length v) (drop off l') = v.
Proof.
  intros Hl. unfold put_bytes. rewrite (proj2 (Nat.ltb_ge _ _)) by lia. eexists. split; [done|].
  assert (Ht : List.length (take off l) = off) by (rewrite length_take; lia). split_and!.
  - rewrite !length_app, length_drop, Ht. lia.
  - intros a n Han. apply list_eq. intros i. destruct (decide (i < n)%nat) as [Hi|Hi].
    2: { by rewrite !lookup_take_ge by lia. }
    rewrite !lookup_take_lt, !lookup_drop by done. destruct Han as [Han|Han].
    + rewrite lookup_app_l by lia. by rewrite lookup_take_lt by lia.
    + rewrite lookup_app_r, lookup_app_r, lookup_drop by (rewrite ?Ht; lia). rewrite Ht. f_equal. lia.
  - rewrite drop_app_length' by done. apply take_app_length.
Qed.

(** ** Inodes *)
(** The tables of inodes lie in the partition, one after the other in each group, and inodes
    do not cross blocks. *)
Definition table_blocks (p : ext2_partition) : Z := s_inodes_per_group (pt_sb p) * inode_size p / block_size p.

Record tables_ok (p : ext2_partition) (n : Z) : Prop := {
  tb_per_group : 0 < s_inodes_per_group (pt_sb p);
  tb_size : 0 < inode_size p;
  tb_whole : block_size p mod inode_size p = 0;
  tb_full : (s_inodes_per_group (pt_sb p) * inode_size p) mod block_size p = 0;
  tb_bytes : s_inodes_per_group (pt_sb p) * inode_size p < 2 ^ 32;
  tb_range i g : pt_gd p !! i = Some g → 0 < bg_inode_table g ∧ bg_inode_table g + table_blocks p ≤ n;
  tb_apart i j g g' : pt_gd p !! i = Some g → pt_gd p !! j = Some g' → i ≠ j →
    bg_inode_table g + table_blocks p ≤ bg_inode_table g' ∨ bg_inode_table g' + table_blocks p ≤ bg_inode_table g;
}.

(** The numbers of the inodes of the partition. *)
Definition inode_number (p : ext2_partition) (ino : Z) : Prop :=
  1 ≤ ino < 2 ^ 32 ∧ (Z.to_nat ((ino - 1) / s_inodes_per_group (pt_sb p)) < List.length (pt_gd p))%nat.

Definition inode_index (p : ext2_partition) (ino : Z) : Z := (ino - 1) mod s_inodes_per_group (pt_sb p).

(** The block and the offset of an inode. *)
Record located (p : ext2_partition) (ino b off : Z) : Prop := {
  lo_group g : pt_gd p !! Z.to_nat ((ino - 1) / s_inodes_per_group (pt_sb p)) = Some g →
    b = bg_inode_table g + inode_index p ino * inode_size p / block_size p;
  lo_off : off = inode_index p ino * inode_size p mod block_size p;
}.

Section Inodes.
Context {D : Type} `{DiskOk D}.
Implicit Types (p : ext2_partition) (d : D).

(** The block in the table, and the place in it. *)
Lemma index_place p d n ino (x := inode_index p ino * inode_size p) :
  geometry p d n → tables_ok p n →
  0 ≤ inode_index p ino < s_inodes_per_group (pt_sb p) ∧ 0 ≤ x < 2 ^ 32 ∧
  0 ≤ x / block_size p < table_blocks p ∧ 0 ≤ x mod block_size p ∧
  x mod block_size p + inode_size p ≤ block_size p.
Proof.
  intros Hg Ht. pose proof (geometry_block _ _ _ Hg) as Hbs. pose proof (tb_per_group _ _ Ht) as Hpg.
  pose proof (tb_size _ _ Ht) as Hsz. pose proof (tb_bytes _ _ Ht) as Hby.
  assert (Hix : 0 ≤ inode_index p ino < s_inodes_per_group (pt_sb p)) by (apply Z.mod_pos_bound; lia).
  assert (Hmul : x + inode_size p ≤ s_inodes_per_group (pt_sb p) * inode_size p) by (subst x; nia).
  assert (Hnn : 0 ≤ x) by (subst x; nia). split_and!; try lia.
  - apply Z.div_pos; lia.
  - unfold table_blocks. pose proof (tb_full _ _ Ht). apply Z.div_lt_upper_bound; [lia|].
    rewrite <- (Z_div_exact_2 (s_inodes_per_group (pt_sb p) * inode_size p) (block_size p)) by lia. lia.
  - apply Z.mod_pos_bound. lia.
  - pose proof (tb_whole _ _ Ht) as Hw. apply Z.mod_divide in Hw as [c Hc]; [|lia]. subst x. rewrite Hc.
    assert (0 < c) by nia. rewrite Z.mul_mod_distr_r by lia.
    pose proof (Z.mod_pos_bound (inode_index p ino) c). nia.
Qed.

Lemma located_ok p d n ino :
  geometry p d n → tables_ok p n → inode_number p ino →
  ∃ b off, located p ino b off ∧ 0 < b < n ∧ 0 ≤ off ∧ off + inode_size p ≤ block_size p ∧
    inode_place p ino = Done (pt_lba p + b * block_sectors p, off).
Proof.
  intros Hg Ht [Hi Hgd]. destruct (index_place p d n ino Hg Ht) as (Hix & Hx & Hq & Ho & Hf).
  destruct (lookup_lt_is_Some_2 (pt_gd p) _ Hgd) as [g Eg]. destruct (tb_range _ _ Ht _ _ Eg) as [Hr1 Hr2].
  pose proof (tb_per_group _ _ Ht) as Hpg.
  exists (bg_inode_table g + inode_index p ino * inode_size p / block_size p), (inode_index p ino * inode_size p mod block_size p).
  split_and!; try lia.
  - split; [|done]. intros g' Eg'. by simplify_eq.
  - unfold inode_place. rewrite (proj2 (Z.eqb_neq _ _)) by lia. rewrite (u32_small (ino - 1)) by lia. rewrite Eg. cbn [known].
    rewrite bind_done. fold (inode_index p ino). rewrite (u32_small (inode_index p ino * _)) by lia.
    destruct (block_range p d n (bg_inode_table g + inode_index p ino * inode_size p / block_size p) Hg) as (B1 & B2 & B3); [lia|].
    pose proof (ge_sectors _ _ _ Hg). pose proof (ge_size _ _ _ Hg). pose proof (ge_lba _ _ _ Hg).
    rewrite (block_lba_ok _ _ _ _ Hg), (u32_small (_ / _ * _)) by nia.
    rewrite <- B3 at 1. do 3 f_equal. lia.
Qed.

(** Different inodes are at different places. *)
Lemma located_apart p d n ino ino' b off b' off' :
  geometry p d n → tables_ok p n → inode_number p ino → inode_number p ino' → ino ≠ ino' →
  located p ino b off → located p ino' b' off' →
  b ≠ b' ∨ off + inode_size p ≤ off' ∨ off' + inode_size p ≤ off.
Proof.
  intros Hg Ht [Hi Hgd] [Hi' Hgd'] Hne [Hb Ho] [Hb' Ho'].
  pose proof (geometry_block _ _ _ Hg) as Hbs. pose proof (tb_per_group _ _ Ht) as Hpg.
  destruct (index_place p d n ino Hg Ht) as (Hix & Hx & Hq & _). destruct (index_place p d n ino' Hg Ht) as (Hix' & Hx' & Hq' & _).
  destruct (lookup_lt_is_Some_2 _ _ Hgd) as [g Eg]. destruct (lookup_lt_is_Some_2 _ _ Hgd') as [g' Eg'].
  specialize (Hb _ Eg). specialize (Hb' _ Eg').
  destruct (decide ((ino - 1) / s_inodes_per_group (pt_sb p) = (ino' - 1) / s_inodes_per_group (pt_sb p))) as [Eq|Nq].
  - rewrite Eq, Eg' in Eg. simplify_eq. destruct (decide (inode_index p ino * inode_size p / block_size p =
      inode_index p ino' * inode_size p / block_size p)) as [E|]; [|lia]. right.
    assert (inode_index p ino ≠ inode_index p ino').
    { intros E'. apply Hne. unfold inode_index in E'. pose proof (Z.div_mod (ino - 1) (s_inodes_per_group (pt_sb p))).
      pose proof (Z.div_mod (ino' - 1) (s_inodes_per_group (pt_sb p))). lia. }
    pose proof (tb_size _ _ Ht). pose proof (Z.div_mod (inode_index p ino * inode_size p) (block_size p)).
    pose proof (Z.div_mod (inode_index p ino' * inode_size p) (block_size p)). rewrite E in *.
    assert (inode_index p ino < inode_index p ino' ∨ inode_index p ino' < inode_index p ino) as [?|?] by lia; [left|right]; nia.
  - left. destruct (tb_apart _ _ Ht _ _ _ _ Eg Eg'); [|lia|lia]. intros E. apply Nq.
    apply Z2Nat.inj in E; [done|apply Z.div_pos; lia..].
Qed.

Lemma located_unique p ino b off b' off' :
  inode_number p ino → located p ino b off → located p ino b' off' → b' = b ∧ off' = off.
Proof.
  intros [_ Hgd] [L1 L2] [M1 M2]. destruct (lookup_lt_is_Some_2 _ _ Hgd) as [g Eg].
  by rewrite (L1 _ Eg), (M1 _ Eg), L2, M2.
Qed.

(** The bytes of an inode. *)
Definition inode_at p d (b off : Z) : list Z := take (Z.to_nat (inode_size p)) (drop (Z.to_nat off) (block_at p d b)).

Lemma read_inode_ok p d n ino b off :
  geometry p d n → tables_ok p n → inode_number p ino → located p ino b off →
  ext2_read_inode p ino d = Done (Some (inode_at p d b off)).
Proof.
  intros Hg Ht Hino Hloc. destruct (located_ok p d n ino Hg Ht Hino) as (b1 & off1 & Hloc1 & Hb & Ho & Hf & Hpl).
  destruct (located_unique _ _ _ _ _ _ Hino Hloc Hloc1) as [-> ->].
  destruct (block_range p d n b Hg) as (H1 & H2 & H3); [lia|]. pose proof (ge_sectors _ _ _ Hg).
  unfold ext2_read_inode. rewrite Hpl, bind_done, dk_read by lia. by rewrite (proj2 (Z.ltb_ge _ _)) by lia.
Qed.

Lemma write_inode_ok p d n ino b off l :
  geometry p d n → tables_ok p n → inode_number p ino → located p ino b off →
  Z.of_nat (List.length l) = inode_size p →
  ∃ d' bytes, ext2_write_inode p ino l d = Done (0, d') ∧ geometry p d' n ∧
    put_bytes (Z.to_nat off) l (block_at p d b) = Done bytes ∧
    ∀ c, 0 ≤ c < n → block_at p d' c = if decide (c = b) then bytes else block_at p d c.
Proof.
  intros Hg Ht Hino Hloc Hl. destruct (located_ok p d n ino Hg Ht Hino) as (b1 & off1 & Hloc1 & Hb & Ho & Hf & Hpl).
  destruct (located_unique _ _ _ _ _ _ Hino Hloc Hloc1) as [-> ->].
  destruct (block_range p d n b Hg) as (H1 & H2 & H3); [lia|]. pose proof (ge_sectors _ _ _ Hg).
  pose proof (block_at_length p d n b Hg ltac:(lia)) as Hbl.
  destruct (put_bytes_ok (Z.to_nat off) l (block_at p d b)) as (bytes & Ep & Hpl' & _); [lia|].
  destruct (write_block_ok p d n b bytes Hg Hb) as (d' & Ew & Hg' & Hc); [lia|]. exists d', bytes. split_and!; try done.
  unfold ext2_write_inode. rewrite Hpl, bind_done, dk_read by lia. rewrite take_ge by lia.
  change (mbind (dk_sector d) (seqZ (pt_lba p + b * block_sectors p) (block_sectors p))) with (block_at p d b).
  rewrite Ep, bind_done. unfold ext2_write_block in Ew.
  rewrite (proj2 (Z.eqb_neq b 0)), (block_lba_ok _ _ _ _ Hg), H3 in Ew by lia. cbn [negb] in Ew.
  destruct (write_disk _ _ bytes d) as [[] d1]; [by simplify_eq|]. discriminate Ew.
Qed.

(** An inode that was written is read back, and no other inode changes.  On a partition
    whose inode tables are well placed, [ext2_write_inode] succeeds, [ext2_read_inode] then
    returns the bytes written, and for every other inode the bytes it returned before. *)
Theorem ext2_inode_roundtrip p d n ino l :
  geometry p d n → tables_ok p n → inode_number p ino → Z.of_nat (List.length l) = inode_size p →
  ∃ d', ext2_write_inode p ino l d = Done (0, d') ∧ ext2_read_inode p ino d' = Done (Some l) ∧
    ∀ ino', inode_number p ino' → ino' ≠ ino → ext2_read_inode p ino' d' = ext2_read_inode p ino' d.
Proof.
  intros Hg Ht Hino Hl. destruct (located_ok p d n ino Hg Ht Hino) as (b & off & Hloc & Hb & Ho & Hf & _).
  pose proof (block_at_length p d n b Hg ltac:(lia)) as Hbl.
  destruct (write_inode_ok p d n ino b off l Hg Ht Hino Hloc Hl) as (d' & bytes & Ew & Hg' & Ep & Hc).
  destruct (put_bytes_ok (Z.to_nat off) l (block_at p d b)) as (bytes' & Ep' & _ & Hother & Hsame); [lia|].
  rewrite Ep in Ep'. injection Ep' as <-.
  exists d'. split; [done|]. split.
  - rewrite (read_inode_ok p d' n ino b off) by done. unfold inode_at. rewrite Hc, decide_True by lia.
    by rewrite <- Hl, Nat2Z.id, Hsame.
  - intros ino' Hino' Hne. destruct (located_ok p d n ino' Hg Ht Hino') as (b' & off' & Hloc' & Hb' & Ho' & Hf' & _).
    rewrite (read_inode_ok p d' n ino' b' off'), (read_inode_ok p d n ino' b' off') by done. do 2 f_equal. unfold inode_at.
    rewrite Hc by lia. case_decide as E; [|done]. subst b'. apply Hother.
    destruct (located_apart p d n ino ino' b off b off' Hg Ht Hino Hino') as [?|[?|?]]; try done; lia.
Qed.
End Inodes.

Lemma small_tables : tables_ok small_part 4096.
Proof.
  split; try done.
  - intros [|i] g E; [|done]. injection E as <-. done.
  - intros [|i] [|j] g g' Ei Ej Hij; done.
Qed.

Lemma ext2_inode_roundtrip_witness :
  ∃ d', ext2_write_inode small_part 3 (replicate (Z.to_nat 128) 5) small_disk = Done (0, d') ∧
    ext2_read_inode small_part 3 d' = Done (Some (replicate (Z.to_nat 128) 5)) ∧
    ext2_read_inode small_part 2 d' = ext2_read_inode small_part 2 small_disk.
Proof.
  destruct (ext2_inode_roundtrip small_part small_disk 4096 3 (replicate (Z.to_nat 128) 5)) as (d' & Hw & Hr & Ho);
    [apply small_geometry|apply small_tables|split; [done|vm_compute; lia]|done|].
  exists d'. split; [exact Hw|]. split; [exact Hr|]. clear Hw Hr. apply Ho; [split; [done|vm_compute; lia]|done].
Defined.
