(* ===== verification/Ext2File.v ===== *)
(** * Files on an ext2 partition

    Reading the blocks of a file through its direct pointers and its trees of pointer blocks
    returns the data blocks in order; what is written to the blocks or the bytes of a file is
    read back. *)
From S2P Require Import Prelude Ext2Block Ext2Disk Ext2Inode Ext2Spec.
#[local] Open Scope Z_scope.

Section Files.
Context {D : Type} `{DiskOk D} (p : ext2_partition) (n : Z).
Implicit Types (d : D).

(** The number of pointers in a block. *)
Definition entries : Z := block_size p / 4.

(** [maps d k ptrs P F]: behind the pointers [ptrs], through [k] levels of pointer blocks, the
    blocks [F] come first; the pointer blocks on the way are [P].  All of them are blocks of
    the partition. *)
Inductive maps d : nat → list Z → list Z → list Z → Prop :=
| maps_none k ptrs : maps d k ptrs [] []
| maps_leaf b ptrs F : 0 < b < n → maps d 0 ptrs [] F → maps d 0 (b :: ptrs) [] (b :: F)
| maps_node k b ptrs P1 P2 F1 F2 :
    0 < b < n → maps d k (words (block_at p d b)) P1 F1 → F1 ≠ [] →
    (F2 ≠ [] → Z.of_nat (List.length F1) = entries ^ Z.of_nat (S k)) →
    maps d (S k) ptrs P2 F2 → maps d (S k) (b :: ptrs) (b :: P1 ++ P2) (F1 ++ F2).

(** The contents of blocks, one after the other. *)
Definition contents d (F : list Z) : list Z := mbind (block_at p d) F.

Lemma contents_app d F1 F2 : contents d (F1 ++ F2) = (contents d F1 ++ contents d F2)%list.
Proof. apply bind_app. Qed.

Lemma contents_cons d b F : contents d (b :: F) = (block_at p d b ++ contents d F)%list.
Proof. done. Qed.

(** All the blocks behind the pointers are known. *)
Definition complete (k : nat) (ptrs F : list Z) : Prop :=
  Z.of_nat (List.length F) = Z.of_nat (List.length ptrs) * entries ^ Z.of_nat k.

(** How many blocks are read: those asked for, or all. *)
Definition upto (count : Z) (F : list Z) : Z := Z.min count (Z.of_nat (List.length F)).

Lemma upto_take count F : 0 ≤ count → Z.of_nat (List.length (take (Z.to_nat count) F)) = upto count F.
Proof. intros. unfold upto. rewrite length_take. lia. Qed.

(** ** Reading *)
Lemma read_direct_ok d ptrs F count br skip out :
  geometry p d n → maps d 0 ptrs [] F → 0 ≤ br < count → 0 ≤ skip ≤ Z.of_nat (List.length F) →
  (skip + (count - br) ≤ Z.of_nat (List.length F) ∨ List.length F = List.length ptrs) →
  let F' := drop (Z.to_nat skip) F in
  read_direct p ptrs count br skip out d =
  Done (br + upto (count - br) F', (out ++ contents d (take (Z.to_nat (count - br)) F'))%list, 0).
Proof.
  intros Hg Hm. remember 0%nat as k eqn:Ek. remember [] as P eqn:EP. revert br skip out.
  induction Hm as [k ptrs|b ptrs F Hb Hm IH|]; intros br skip out Hbr Hskip Hfit; [| |done].
  - cbn [List.length] in *. assert (skip = 0) as -> by lia. destruct Hfit as [?|Hp]; [lia|]. destruct ptrs; [|done].
    cbv zeta. rewrite drop_nil, take_nil. unfold upto, contents. cbn [List.length read_direct mbind list_bind].
    rewrite Z.min_r, Z.add_0_r, app_nil_r by lia. done.
  - cbn [read_direct]. cbn [List.length] in *. destruct (Z.gtb_spec skip 0) as [Hs|Hs].
    + rewrite IH by (done || lia). replace (Z.to_nat skip) with (S (Z.to_nat (skip - 1))) by lia. done.
    + assert (skip = 0) as -> by lia. rewrite (read_block_ok p d n b Hg Hb).
      change (1 =? EXT2_READ_FAILED) with false. change (1 =? 0) with false. cbv iota zeta. cbn [known]. rewrite bind_done.
      change (Z.to_nat 0) with 0%nat. rewrite drop_0. replace (Z.to_nat (count - br)) with (S (Z.to_nat (count - br - 1))) by lia.
      rewrite firstn_cons.
      rewrite contents_cons. destruct (Z.eqb_spec (br + 1) count) as [E|E].
      * replace (Z.to_nat (count - br - 1)) with 0%nat by lia. rewrite take_0. unfold upto. cbn [List.length].
        rewrite Z.min_l by lia. cbn. rewrite app_nil_r. do 2 f_equal. f_equal. lia.
      * rewrite IH by (done || lia). change (Z.to_nat 0) with 0%nat. rewrite drop_0. unfold upto. cbn [List.length].
        rewrite <- app_assoc. replace (count - (br + 1)) with (count - br - 1) by lia. do 2 f_equal. f_equal. lia.
Qed.

Lemma entries_pos d : geometry p d n → 0 < entries ∧ block_size p = 4 * entries.
Proof.
  intros Hg. pose proof (geometry_block _ _ _ Hg). pose proof (ge_words _ _ _ Hg) as Hw. unfold entries. dlia.
Qed.

Lemma pointers_length d b :
  geometry p d n → 0 ≤ b < n → Z.of_nat (List.length (words (block_at p d b))) = entries.
Proof.
  intros Hg Hb. pose proof (block_at_length p d n b Hg Hb) as Hl. rewrite words_length; rewrite Hl; [done|].
  apply (ge_words _ _ _ Hg).
Qed.

Lemma maps_bound d k ptrs P F :
  geometry p d n → maps d k ptrs P F → Z.of_nat (List.length F) ≤ Z.of_nat (List.length ptrs) * entries ^ Z.of_nat k.
Proof.
  intros Hg. destruct (entries_pos d Hg) as [He _].
  induction 1 as [k ptrs|b ptrs F Hb Hm IH|k b ptrs P1 P2 F1 F2 Hb Hm1 IH1 Hne Hfull Hm2 IH2].
  - cbn [List.length]. apply Z.mul_nonneg_nonneg; [lia|]. apply Z.pow_nonneg. lia.
  - cbn [List.length] in *. change (Z.of_nat 0) with 0 in *. rewrite Z.pow_0_r in *. lia.
  - rewrite (pointers_length d b Hg) in IH1 by lia. rewrite length_app. cbn [List.length].
    rewrite !Nat2Z.inj_succ, !Z.pow_succ_r in * by lia. nia.
Qed.

Lemma complete_node d k b F :
  geometry p d n → 0 < b < n →
  complete k (words (block_at p d b)) F ↔ Z.of_nat (List.length F) = entries ^ Z.of_nat (S k).
Proof.
  intros Hg Hb. unfold complete. rewrite (pointers_length d b Hg) by lia.
  by rewrite Nat2Z.inj_succ, Z.pow_succ_r by lia.
Qed.

(** The four routines as one, by the number of levels. *)
Fixpoint read_at d (k : nat) (ptrs : list Z) (count skip : Z) : outcome (Z * list Z * Z) :=
  match k with
  | O => ext2_read_direct_blocks p ptrs count skip d
  | S k => read_level (λ l c s, read_at d k l c s) p ptrs count 0 skip [] d
  end.

Definition reads d (k : nat) : Prop := ∀ ptrs P F count,
  maps d k ptrs P F → F ≠ [] → 0 < count < EXT2_READ_FAILED →
  (count ≤ Z.of_nat (List.length F) ∨ complete k ptrs F) →
  read_at d k ptrs count 0 = Done (upto count F, contents d (take (Z.to_nat count) F), 0).

(** What is asked of a pointer block: no more blocks than it has, or all; if nothing follows and more is asked, it was the last. *)
Lemma node_fit d k b P1 F1 F2 ptrs count :
  geometry p d n → 0 < b < n → maps d k (words (block_at p d b)) P1 F1 →
  (F2 ≠ [] → Z.of_nat (List.length F1) = entries ^ Z.of_nat (S k)) →
  (count ≤ Z.of_nat (List.length (F1 ++ F2)) ∨ complete (S k) (b :: ptrs) (F1 ++ F2)) →
  (count ≤ Z.of_nat (List.length F1) ∨ complete k (words (block_at p d b)) F1) ∧
  (F2 = [] → Z.of_nat (List.length F1) < count → ptrs = []).
Proof.
  intros Hg Hb Hm Hfull Hfit. pose proof (maps_bound d k _ _ F1 Hg Hm) as Hbd. destruct (entries_pos d Hg) as [He _].
  rewrite (pointers_length d b Hg) in Hbd by lia. pose proof (complete_node d k b F1 Hg Hb) as Hcn.
  assert (Es : entries ^ Z.of_nat (S k) = entries * entries ^ Z.of_nat k) by (rewrite Nat2Z.inj_succ; apply Z.pow_succ_r; lia).
  assert (0 < entries ^ Z.of_nat (S k)) by (apply Z.pow_pos_nonneg; lia). rewrite <- Es in Hbd.
  assert (Hlast : F2 = [] → complete (S k) (b :: ptrs) (F1 ++ F2) →
    ptrs = [] ∧ Z.of_nat (List.length F1) = entries ^ Z.of_nat (S k)).
  { intros -> Hcp. rewrite app_nil_r in Hcp. unfold complete in Hcp. cbn [List.length] in Hcp.
    destruct ptrs as [|b' ptrs]; [split; [done|cbn [List.length] in *; lia]|cbn [List.length] in *; nia]. }
  split.
  - destruct (decide (F2 = [])) as [->|H2]; [|right; apply Hcn; auto].
    destruct Hfit as [Hfit|Hcp]; [left; by rewrite app_nil_r in Hfit|]. right. apply Hcn. by apply Hlast.
  - intros -> Hlt. destruct Hfit as [Hfit|Hcp]; [rewrite app_nil_r in Hfit; lia|]. by apply Hlast.
Qed.

Lemma read_level_ok d k ptrs P F count br out :
  geometry p d n → reads d k → maps d (S k) ptrs P F → F ≠ [] → 0 ≤ br < count → count < EXT2_READ_FAILED →
  (count - br ≤ Z.of_nat (List.length F) ∨ complete (S k) ptrs F) →
  read_level (λ l c s, read_at d k l c s) p ptrs count br 0 out d =
  Done (br + upto (count - br) F, (out ++ contents d (take (Z.to_nat (count - br)) F))%list, 0).
Proof.
  intros Hg Hr Hm. remember (S k) as k' eqn:Ek. revert br out.
  induction Hm as [|? ? ? ? ? ?|k0 b ptrs P1 P2 F1 F2 Hb Hm1 _ Hne Hfull Hm2 IH]; intros br out HF Hbr Hcnt Hfit; [done|done|].
  injection Ek as ->. destruct (node_fit d k b P1 F1 F2 ptrs (count - br) Hg Hb Hm1 Hfull Hfit) as [Hfit1 Hend].
  cbn [read_level]. rewrite (read_block_ok p d n b Hg Hb). change (1 <=? 0) with false. cbv iota zeta. cbn [known].
  rewrite bind_done, (Hr _ P1 F1), bind_done by (done || lia).
  assert (Hpos : 0 < Z.of_nat (List.length F1)) by (destruct F1; [done|cbn; lia]).
  rewrite !(proj2 (Z.eqb_neq (upto (count - br) F1) _)) by (unfold upto, EXT2_READ_FAILED in *; lia). cbn [orb].
  destruct (Z.eqb_spec (br + upto (count - br) F1) count) as [Ec|Ec].
  - unfold upto in *. rewrite take_app_le by lia. rewrite length_app. do 2 f_equal. f_equal. lia.
  - assert (Hu : upto (count - br) F1 = Z.of_nat (List.length F1)) by (unfold upto in *; lia). rewrite Hu in *.
    rewrite (take_ge F1) by (unfold upto in *; lia). destruct (decide (F2 = [])) as [->|H2].
    + rewrite Hend by (done || (unfold upto in *; lia)). cbn [read_level]. rewrite app_nil_r, take_ge by (unfold upto in *; lia).
      unfold upto in *. do 2 f_equal. f_equal. lia.
    + rewrite IH; [|done|done|unfold upto in *; lia|done|].
      * rewrite <- app_assoc, <- contents_app. replace (Z.to_nat (count - br)) with
          (List.length F1 + Z.to_nat (count - (br + Z.of_nat (List.length F1))))%nat by (unfold upto in *; lia).
        rewrite take_app_add. unfold upto in *. rewrite length_app. do 2 f_equal. f_equal. lia.
      * rewrite length_app in Hfit. unfold complete in *. cbn [List.length] in Hfit. specialize (Hfull H2).
        destruct Hfit as [?|Hcp]; [left; lia|right]. rewrite length_app in Hcp. lia.
Qed.

Lemma maps_direct d ptrs P F : maps d 0 ptrs P F → P = [].
Proof. by inversion 1. Qed.

Lemma reads_all d k : geometry p d n → reads d k.
Proof.
  intros Hg. induction k as [|k IH]; intros ptrs P F count Hm HF Hc Hfit.
  - pose proof (maps_direct d ptrs P F Hm) as ->. cbn [read_at]. unfold ext2_read_direct_blocks.
    rewrite (read_direct_ok d ptrs F); try done; [|lia|lia|].
    + cbv zeta. change (Z.to_nat 0) with 0%nat. by rewrite drop_0, Z.sub_0_r, Z.add_0_l.
    + unfold complete in Hfit. change (Z.of_nat 0) with 0 in Hfit. rewrite Z.pow_0_r in Hfit. lia.
  - cbn [read_at]. rewrite (read_level_ok d k ptrs P F); try done; [|lia|lia|by rewrite Z.sub_0_r].
    by rewrite Z.sub_0_r, Z.add_0_l.
Qed.

(** ** The pointers of a file *)
(** A sequence of lists of pointers, each with its number of levels: a list is used when those
    before it are full. *)
Inductive layers d : list (nat * list Z) → list Z → list Z → Prop :=
| layers_nil : layers d [] [] []
| layers_cons k ptrs ls P1 P2 F1 F2 :
    maps d k ptrs P1 F1 → (F2 ≠ [] → F1 ≠ [] ∧ complete k ptrs F1) → layers d ls P2 F2 →
    layers d ((k, ptrs) :: ls) (P1 ++ P2) (F1 ++ F2).

Definition stages_of d : list (nat * list Z) → list (Z → Z → outcome (Z * list Z * Z)) :=
  fmap (λ '(k, ptrs) c s, read_at d k ptrs c s).

(** The four lists of an inode. *)
Definition pointer_lists (i_block : list Z) : list (nat * list Z) :=
  [(0%nat, take 12 i_block); (1%nat, take 1 (drop 12 i_block)); (2%nat, take 1 (drop 13 i_block)); (3%nat, take 1 (drop 14 i_block))].

(** The file with these pointers has the blocks [F] and the pointer blocks [P]. *)
Definition file_map d (i_block P F : list Z) : Prop := layers d (pointer_lists i_block) P F.

(** What is asked of one of the lists, when blocks are skipped only in the first. *)
Lemma stage_fit d k ptrs P F1 F2 c skip :
  geometry p d n → maps d k ptrs P F1 → (F2 ≠ [] → F1 ≠ [] ∧ complete k ptrs F1) →
  0 ≤ skip → (skip = 0 ∨ k = 0%nat ∧ skip < Z.of_nat (List.length ptrs)) →
  0 < c < EXT2_WRITE_FAILED → skip + c ≤ Z.of_nat (List.length (F1 ++ F2)) →
  skip ≤ Z.of_nat (List.length F1) ∧ F1 ≠ [] ∧
  (skip = 0 → c ≤ Z.of_nat (List.length F1) ∨ complete k ptrs F1) ∧
  (k = 0%nat → skip + c ≤ Z.of_nat (List.length F1) ∨ List.length F1 = List.length ptrs) ∧
  0 < upto c (drop (Z.to_nat skip) F1) < EXT2_WRITE_FAILED.
Proof.
  intros Hg Hm Hfull Hs0 Hskip Hc Hfit. rewrite length_app in Hfit.
  assert (Hcomp : skip + c ≤ Z.of_nat (List.length F1) ∨ F1 ≠ [] ∧ complete k ptrs F1).
  { destruct F2; [left; cbn in Hfit; lia|right; by apply Hfull]. }
  assert (Hlen : k = 0%nat → complete k ptrs F1 → List.length F1 = List.length ptrs).
  { intros -> Hcp. unfold complete in Hcp. change (Z.of_nat 0) with 0 in Hcp. rewrite Z.pow_0_r in Hcp. lia. }
  assert (Hpos : skip < Z.of_nat (List.length F1)).
  { destruct F1 as [|x F1']; [destruct Hcomp as [?|[? _]]; cbn in *; [lia|done]|].
    destruct Hskip as [->|[-> ?]]; [cbn; lia|]. destruct Hcomp as [?|[_ Hcp]]; [lia|]. rewrite (Hlen eq_refl Hcp). lia. }
  split_and!; [lia|by destruct F1; cbn in *; [lia|]| | | |].
  - intros ->. destruct Hcomp as [?|[_ ?]]; [left; lia|by right].
  - intros Ek. destruct Hcomp as [?|[_ ?]]; [by left|right; auto].
  - unfold upto. rewrite length_drop. lia.
  - unfold upto. lia.
Qed.

Lemma read_stage_ok d k ptrs P F1 F2 c skip :
  geometry p d n → maps d k ptrs P F1 → (F2 ≠ [] → F1 ≠ [] ∧ complete k ptrs F1) →
  0 ≤ skip → (skip = 0 ∨ k = 0%nat ∧ skip < Z.of_nat (List.length ptrs)) →
  0 < c < EXT2_WRITE_FAILED → skip + c ≤ Z.of_nat (List.length (F1 ++ F2)) →
  let F := drop (Z.to_nat skip) F1 in
  read_at d k ptrs c skip = Done (upto c F, contents d (take (Z.to_nat c) F), 0).
Proof.
  intros Hg Hm Hfull Hs0 Hskip Hc Hfit F.
  destruct (stage_fit d k ptrs P F1 F2 c skip Hg Hm Hfull Hs0 Hskip Hc Hfit) as (Hsk & Hne & Hany & Hdir & _).
  destruct Hskip as [->|[-> Hsl]].
  - subst F. change (Z.to_nat 0) with 0%nat in *. rewrite drop_0 in *.
    apply (reads_all d k Hg ptrs P); [done|done|unfold EXT2_READ_FAILED, EXT2_WRITE_FAILED in *; lia|by apply Hany].
  - pose proof (maps_direct d ptrs P F1 Hm) as ->. cbn [read_at]. unfold ext2_read_direct_blocks.
    rewrite (read_direct_ok d ptrs F1); try done; try lia.
    cbv zeta. by rewrite Z.sub_0_r, Z.add_0_l.
Qed.

Lemma run_stages_ok d ls P F count br skip out :
  geometry p d n → layers d ls P F →
  0 ≤ skip → (skip = 0 ∨ ∃ ptrs, head ls = Some (0%nat, ptrs) ∧ skip < Z.of_nat (List.length ptrs)) →
  0 ≤ br < count → count < EXT2_WRITE_FAILED → skip + (count - br) ≤ Z.of_nat (List.length F) →
  run_stages (stages_of d ls) count (br, out, skip) =
  Done (count, (out ++ contents d (take (Z.to_nat (count - br)) (drop (Z.to_nat skip) F)))%list).
Proof.
  intros Hg Hl. revert br skip out. induction Hl as [|k ptrs ls P1 P2 F1 F2 Hm Hfull Hl IH];
    intros br skip out Hs0 Hskip Hbr Hcnt Hfit; [cbn in Hfit; lia|].
  assert (Hskip' : skip = 0 ∨ k = 0%nat ∧ skip < Z.of_nat (List.length ptrs)).
  { destruct Hskip as [?|(ptrs' & E & ?)]; [by left|]. injection E as -> ->. by right. }
  assert (Hc : 0 < count - br < EXT2_WRITE_FAILED) by lia.
  destruct (stage_fit d k ptrs P1 F1 F2 (count - br) skip Hg Hm Hfull Hs0 Hskip' Hc Hfit) as (Hsk & _ & _ & _ & Hu).
  pose proof (read_stage_ok d k ptrs P1 F1 F2 (count - br) skip Hg Hm Hfull Hs0 Hskip' Hc Hfit) as E. cbv zeta in E.
  unfold stages_of. rewrite fmap_cons. cbn [run_stages]. unfold read_stage. rewrite E, !bind_done.
  rewrite !(proj2 (Z.eqb_neq (upto _ _) _)) by (unfold EXT2_READ_FAILED, EXT2_WRITE_FAILED in *; lia). cbn [orb].
  rewrite drop_app_le by lia. rewrite length_app in Hfit. set (F := drop (Z.to_nat skip) F1) in *.
  assert (HlF : Z.of_nat (List.length F) = Z.of_nat (List.length F1) - skip) by (subst F; rewrite length_drop; lia).
  destruct (Z.geb_spec (br + upto (count - br) F) count) as [Hge|Hnge]; rewrite bind_done.
  - unfold upto in *. rewrite take_app_le by lia. do 2 f_equal. lia.
  - assert (Eu : upto (count - br) F = Z.of_nat (List.length F)) by (unfold upto in *; lia).
    rewrite Eu, (take_ge F) by (unfold upto in *; lia). fold (stages_of d ls).
    rewrite IH; [|done|by left|lia|done|lia]. change (Z.to_nat 0) with 0%nat. rewrite drop_0, <- app_assoc, <- contents_app.
    replace (Z.to_nat (count - br)) with (List.length F + Z.to_nat (count - (br + Z.of_nat (List.length F))))%nat by lia.
    by rewrite take_app_add.
Qed.
Lemma read_pointers_ok d ib P F count skip :
  geometry p d n → file_map d ib P F → List.length ib = 15%nat → 0 ≤ skip < 12 → 0 < count < EXT2_WRITE_FAILED →
  skip + count ≤ Z.of_nat (List.length F) →
  read_pointers p ib count skip d = Done (count, contents d (take (Z.to_nat count) (drop (Z.to_nat skip) F))).
Proof.
  intros Hg Hf Hib Hs Hc Hfit. change (run_stages (stages_of d (pointer_lists ib)) count (0, [], skip) =
    Done (count, contents d (take (Z.to_nat count) (drop (Z.to_nat skip) F)))).
  rewrite (run_stages_ok d _ P F); try done; [by rewrite Z.sub_0_r|lia| |lia|lia|lia].
  right. exists (take 12 ib). split; [done|]. rewrite length_take. lia.
Qed.

(** ** Writing *)
Lemma elem_of_taken (c : Z) k F : c ∈ take k F → c ∈ F.
Proof. intros Hc. rewrite <- (take_drop k F). set_solver. Qed.

(** The blocks [G] have the contents [src], and no other block changed. *)
Definition stored d d' (G src : list Z) : Prop :=
  geometry p d' n ∧ contents d' G = take (Z.to_nat (Z.of_nat (List.length G) * block_size p)) src ∧
  ∀ c, 0 ≤ c < n → c ∉ G → block_at p d' c = block_at p d c.

Lemma stored_none d src : geometry p d n → stored d d [] src.
Proof. intros Hg. split; [done|]. by split. Qed.

Lemma contents_same d d' G :
  (∀ c, c ∈ G → block_at p d' c = block_at p d c) → contents d' G = contents d G.
Proof. intros E. apply Forall_bind_ext, Forall_forall. done. Qed.

Lemma stored_app d d1 d2 G1 G2 src :
  stored d d1 G1 src → stored d1 d2 G2 (drop (Z.to_nat (Z.of_nat (List.length G1) * block_size p)) src) →
  Forall (λ c, 0 ≤ c < n) G1 → G1 ## G2 → stored d d2 (G1 ++ G2) src.
Proof.
  intros (Hg1 & E1 & N1) (Hg2 & E2 & N2) HG Hdis. split; [done|]. rewrite Forall_forall in HG.
  pose proof (geometry_block _ _ _ Hg1). split.
  - rewrite contents_app, E2, (contents_same d1 d2 G1), E1, length_app.
    + replace (Z.to_nat (Z.of_nat (List.length G1 + List.length G2) * block_size p)) with
        (Z.to_nat (Z.of_nat (List.length G1) * block_size p) + Z.to_nat (Z.of_nat (List.length G2) * block_size p))%nat by nia.
      by rewrite take_take_drop.
    + intros c Hc. apply N2; [by apply HG|]. intros Hc2. by apply (Hdis c).
  - intros c Hc Hnin. rewrite N2, N1; [done|done| |done|]; intros ?; apply Hnin; set_solver.
Qed.

Lemma stored_block d b src :
  geometry p d n → 0 < b < n → block_size p ≤ Z.of_nat (List.length src) →
  ∃ d', ext2_write_block p b (take (Z.to_nat (block_size p)) src) d = (1, d') ∧ stored d d' [b] src.
Proof.
  intros Hg Hb Hl. pose proof (geometry_block _ _ _ Hg).
  destruct (write_block_ok p d n b (take (Z.to_nat (block_size p)) src) Hg Hb) as (d1 & E & Hg1 & Hc); [rewrite length_take; lia|].
  exists d1. split; [done|]. split; [done|]. split.
  - unfold contents. cbn [mbind list_bind List.length]. rewrite Hc, decide_True, app_nil_r by lia. f_equal. lia.
  - intros c Hcn Hnin. rewrite Hc by done. rewrite decide_False; [done|]. set_solver.
Qed.

(** Writing other blocks than the pointer blocks changes no map. *)
Lemma maps_stable d d' k ptrs P F :
  maps d k ptrs P F → (∀ c, c ∈ P → block_at p d' c = block_at p d c) → maps d' k ptrs P F.
Proof.
  induction 1 as [k ptrs|b ptrs F Hb Hm IH|k b ptrs P1 P2 F1 F2 Hb Hm1 IH1 Hne Hfull Hm2 IH2]; intros Hsame.
  - constructor.
  - constructor; auto.
  - constructor; [done| |done|done|apply IH2; set_solver]. rewrite Hsame by set_solver. apply IH1. set_solver.
Qed.

Lemma maps_range d k ptrs P F : maps d k ptrs P F → Forall (λ c, 0 < c < n) (P ++ F).
Proof.
  induction 1; [done|constructor; [done|by apply IHmaps]|]. rewrite !Forall_app in *. cbn. rewrite Forall_cons, Forall_app.
  naive_solver.
Qed.
Lemma write_direct_ok ptrs : ∀ d F count bw skip src,
  geometry p d n → maps d 0 ptrs [] F → NoDup F → 0 ≤ bw < count → 0 ≤ skip ≤ Z.of_nat (List.length F) →
  (skip + (count - bw) ≤ Z.of_nat (List.length F) ∨ List.length F = List.length ptrs) →
  let F' := drop (Z.to_nat skip) F in
  upto (count - bw) F' * block_size p ≤ Z.of_nat (List.length src) →
  ∃ d', write_direct p ptrs count bw skip src d = Done (bw + upto (count - bw) F', 0, d') ∧
    stored d d' (take (Z.to_nat (count - bw)) F') src.
Proof.
  induction ptrs as [|b0 ptrs IH]; intros d F count bw skip src Hg Hm Hnd Hbw Hskip Hfit F' Hsrc.
  - assert (F = []) as -> by (by inversion Hm). cbn [List.length] in *. assert (skip = 0) as -> by lia. subst F'.
    rewrite drop_nil in *. rewrite take_nil. exists d. unfold upto. cbn [List.length write_direct].
    rewrite Z.min_r, Z.add_0_r by lia. split; [done|by apply stored_none].
  - assert (F = [] ∨ ∃ F0, F = b0 :: F0 ∧ 0 < b0 < n ∧ maps d 0 ptrs [] F0) as [->|(F0 & -> & Hb & Hm0)]
      by (inversion Hm; [by left|right; eauto]); [cbn in *; lia|].
    apply NoDup_cons in Hnd as [Hnin Hnd]. pose proof (geometry_block _ _ _ Hg) as Hbs.
    cbn [write_direct]. cbn [List.length] in *. destruct (Z.gtb_spec skip 0) as [Hs|Hs].
    + destruct (IH d F0 count bw (skip - 1) src) as (d' & E & Hst); try done; [lia..| |].
      * subst F'. replace (Z.to_nat skip) with (S (Z.to_nat (skip - 1))) in Hsrc by lia. done.
      * exists d'. subst F'. replace (Z.to_nat skip) with (S (Z.to_nat (skip - 1))) by lia. done.
    + assert (skip = 0) as -> by lia. subst F'. change (Z.to_nat 0) with 0%nat in *. rewrite drop_0 in *.
      assert (Hu : upto (count - bw) (b0 :: F0) = 1 + upto (count - bw - 1) F0) by (unfold upto; cbn [List.length]; lia).
      assert (0 ≤ upto (count - bw - 1) F0) by (unfold upto; lia). rewrite Hu in *.
      assert (Hsrc1 : block_size p + upto (count - bw - 1) F0 * block_size p ≤ Z.of_nat (List.length src)) by lia.
      rewrite (proj2 (Z.ltb_ge _ _)) by nia. destruct (stored_block d b0 src Hg Hb) as (d1 & -> & Hst1); [nia|].
      change (1 =? EXT2_WRITE_FAILED) with false. change (1 =? 0) with false. cbv iota.
      replace (Z.to_nat (count - bw)) with (S (Z.to_nat (count - bw - 1))) by lia. rewrite firstn_cons.
      destruct (Z.eqb_spec (bw + 1) count) as [E|E].
      * replace (count - bw - 1) with 0 by lia. exists d1. rewrite take_0. split; [|done].
        unfold upto. rewrite Z.min_l by lia. by rewrite Z.add_0_r.
      * assert (Hl1 : 0 ≤ block_size p ≤ Z.of_nat (List.length src)) by nia.
        destruct (IH d1 F0 count (bw + 1) 0 (drop (Z.to_nat (block_size p)) src)) as (d2 & -> & Hst2); try done; try lia.
        -- apply Hst1.
        -- apply (maps_stable d); [done|set_solver].
        -- change (Z.to_nat 0) with 0%nat. rewrite drop_0, length_drop. replace (count - (bw + 1)) with (count - bw - 1) by lia. lia.
        -- change (Z.to_nat 0) with 0%nat in *. rewrite drop_0 in *. replace (count - (bw + 1)) with (count - bw - 1) in * by lia.
           exists d2. split; [do 3 f_equal; lia|]. apply (stored_app d d1 d2 [b0]); [done| | |].
           ++ cbn [List.length]. by rewrite Z.mul_1_l.
           ++ repeat constructor; lia.
           ++ intros c Hc Hc'%elem_of_taken. set_solver.
Qed.
Fixpoint write_at (k : nat) (ptrs : list Z) (count skip : Z) (src : list Z) d : outcome (Z * Z * D) :=
  match k with
  | O => ext2_write_direct_blocks p ptrs count skip src d
  | S k => write_level (λ l c s src d, write_at k l c s src d) p ptrs count 0 skip src d
  end.

Definition writes (k : nat) : Prop := ∀ d ptrs P F count src,
  geometry p d n → maps d k ptrs P F → NoDup F → P ## F → F ≠ [] → 0 < count < EXT2_WRITE_FAILED →
  (count ≤ Z.of_nat (List.length F) ∨ complete k ptrs F) →
  upto count F * block_size p ≤ Z.of_nat (List.length src) →
  ∃ d', write_at k ptrs count 0 src d = Done (upto count F, 0, d') ∧ stored d d' (take (Z.to_nat count) F) src.

(** The second part of what was stored, after the first. *)
Lemma stored_rest d d1 d2 count F1 F2 src (l := Z.of_nat (List.length F1)) :
  stored d d1 F1 src → stored d1 d2 (take (Z.to_nat (count - l)) F2) (drop (Z.to_nat (l * block_size p)) src) →
  Forall (λ c, 0 < c < n) F1 → F1 ## F2 → l ≤ count → stored d d2 (take (Z.to_nat count) (F1 ++ F2)) src.
Proof.
  intros H1 H2 Hr Hdis Hl. subst l.
  replace (Z.to_nat count) with (List.length F1 + Z.to_nat (count - Z.of_nat (List.length F1)))%nat by lia.
  rewrite take_app_add. apply (stored_app d d1); [done|done| |].
  - eapply Forall_impl; [done|]. cbn. lia.
  - intros c Hc Hc'%elem_of_taken. by apply (Hdis c).
Qed.

Lemma write_level_ok k : writes k → ∀ ptrs d P F count bw src,
  geometry p d n → maps d (S k) ptrs P F → NoDup F → P ## F → F ≠ [] → 0 ≤ bw < count → count < EXT2_WRITE_FAILED →
  (count - bw ≤ Z.of_nat (List.length F) ∨ complete (S k) ptrs F) →
  upto (count - bw) F * block_size p ≤ Z.of_nat (List.length src) →
  ∃ d', write_level (λ l c s src d, write_at k l c s src d) p ptrs count bw 0 src d = Done (bw + upto (count - bw) F, 0, d') ∧
    stored d d' (take (Z.to_nat (count - bw)) F) src.
Proof.
  intros Hw. induction ptrs as [|b ptrs IH]; intros d P F count bw src Hg Hm Hnd Hdis HF Hbw Hcnt Hfit Hsrc; [by inversion Hm|].
  inversion Hm as [|?|k0 b0 ptrs0 P1 P2 F1 F2 Hb Hm1 Hne Hfull Hm2]; subst; [done|].
  apply NoDup_app in Hnd as (Hnd1 & H12 & Hnd2). pose proof (geometry_block _ _ _ Hg) as Hbs.
  destruct (node_fit d k b P1 F1 F2 ptrs (count - bw) Hg Hb Hm1 Hfull Hfit) as [Hfit1 Hend].
  cbn [write_level]. rewrite (read_block_ok p d n b Hg Hb). change (1 <=? 0) with false. cbv iota zeta. cbn [known]. rewrite bind_done.
  assert (Hpos : 0 < Z.of_nat (List.length F1)) by (destruct F1; [done|cbn; lia]).
  assert (Hu : 0 ≤ upto (count - bw) F1 ≤ upto (count - bw) (F1 ++ F2)) by (unfold upto; rewrite length_app; lia).
  destruct (Hw d (words (block_at p d b)) P1 F1 (count - bw) src) as (d1 & -> & Hst1); try done; [set_solver|lia|nia|].
  rewrite bind_done. rewrite !(proj2 (Z.eqb_neq (upto (count - bw) F1) _)) by (unfold upto, EXT2_WRITE_FAILED in *; lia). cbn [orb].
  destruct (Z.eqb_spec (bw + upto (count - bw) F1) count) as [Ec|Ec].
  - exists d1. unfold upto in *. rewrite take_app_le by lia. split; [|done]. rewrite length_app. do 3 f_equal. lia.
  - assert (Eu : upto (count - bw) F1 = Z.of_nat (List.length F1)) by (unfold upto in *; lia). rewrite Eu in *.
    assert (Hlt : Z.of_nat (List.length F1) < count - bw) by (unfold upto in *; lia).
    rewrite (take_ge F1) in Hst1 by lia. destruct (decide (F2 = [])) as [->|H2].
    + rewrite Hend by done. exists d1. cbn [write_level]. rewrite app_nil_r, take_ge by lia. by rewrite Eu.
    + assert (Hu2 : upto (count - bw) (F1 ++ F2) = Z.of_nat (List.length F1) + upto (count - bw - Z.of_nat (List.length F1)) F2)
        by (unfold upto; rewrite length_app; lia). rewrite Hu2 in *. rewrite Z.mul_add_distr_r in Hsrc.
      assert (0 ≤ upto (count - bw - Z.of_nat (List.length F1)) F2 * block_size p) by (apply Z.mul_nonneg_nonneg; unfold upto; lia).
      destruct (IH d1 P2 F2 count (bw + Z.of_nat (List.length F1)) (drop (Z.to_nat (Z.of_nat (List.length F1) * block_size p)) src))
        as (d2 & -> & Hst2); try done; try lia.
      * apply Hst1.
      * apply (maps_stable d); [done|]. intros c Hc. apply Hst1; [|set_solver].
        pose proof (maps_range _ _ _ _ _ Hm2) as Hr. rewrite Forall_forall in Hr. specialize (Hr c). set_solver by lia.
      * set_solver.
      * rewrite length_app in Hfit. unfold complete in *. cbn [List.length] in Hfit. specialize (Hfull H2).
        destruct Hfit as [?|Hcp]; [left; lia|right]. rewrite length_app in Hcp. lia.
      * rewrite length_drop. replace (count - (bw + Z.of_nat (List.length F1))) with (count - bw - Z.of_nat (List.length F1)) by lia. lia.
      * replace (count - (bw + Z.of_nat (List.length F1))) with (count - bw - Z.of_nat (List.length F1)) in * by lia.
        exists d2. split; [do 3 f_equal; lia|]. apply (stored_rest d d1); [done|done| |set_solver|lia].
        apply maps_range in Hm1. by apply Forall_app in Hm1 as [_ ?].
Qed.

Lemma writes_all k : writes k.
Proof.
  induction k as [|k IH]; intros d ptrs P F count src Hg Hm Hnd Hdis HF Hc Hfit Hsrc.
  - pose proof (maps_direct d ptrs P F Hm) as ->. cbn [write_at]. unfold ext2_write_direct_blocks.
    destruct (write_direct_ok ptrs d F count 0 0 src) as (d' & E & Hst); try done; try lia.
    + unfold complete in Hfit. change (Z.of_nat 0) with 0 in Hfit. rewrite Z.pow_0_r in Hfit. lia.
    + change (Z.to_nat 0) with 0%nat. by rewrite drop_0, Z.sub_0_r.
    + change (Z.to_nat 0) with 0%nat in *. rewrite drop_0, Z.sub_0_r in *. by exists d'.
  - cbn [write_at]. destruct (write_level_ok k IH ptrs d P F count 0 src) as (d' & E & Hst); try done; try lia.
    + by rewrite Z.sub_0_r.
    + by rewrite Z.sub_0_r.
    + rewrite Z.sub_0_r in *. by exists d'.
Qed.
Lemma layers_stable d d' ls P F :
  layers d ls P F → (∀ c, c ∈ P → block_at p d' c = block_at p d c) → layers d' ls P F.
Proof.
  induction 1 as [|k ptrs ls P1 P2 F1 F2 Hm Hfull Hl IH]; intros Hsame; [constructor|].
  constructor; [|done|apply IH; set_solver]. apply (maps_stable d); [done|set_solver].
Qed.

Lemma layers_range d ls P F : layers d ls P F → Forall (λ c, 0 < c < n) (P ++ F).
Proof.
  induction 1 as [|k ptrs ls P1 P2 F1 F2 Hm%maps_range _ _ IH]; [done|]. rewrite !Forall_app in *. naive_solver.
Qed.

Definition write_stages_of : list (nat * list Z) → list (Z → Z → list Z → D → outcome (Z * Z * D)) :=
  fmap (λ '(k, ptrs) c s src d, write_at k ptrs c s src d).

Lemma write_stage_ok d k ptrs P F1 F2 c skip src :
  geometry p d n → maps d k ptrs P F1 → (F2 ≠ [] → F1 ≠ [] ∧ complete k ptrs F1) → NoDup F1 → P ## F1 →
  0 ≤ skip → (skip = 0 ∨ k = 0%nat ∧ skip < Z.of_nat (List.length ptrs)) →
  0 < c < EXT2_WRITE_FAILED → skip + c ≤ Z.of_nat (List.length (F1 ++ F2)) → c * block_size p ≤ Z.of_nat (List.length src) →
  let F := drop (Z.to_nat skip) F1 in
  ∃ d', write_at k ptrs c skip src d = Done (upto c F, 0, d') ∧ stored d d' (take (Z.to_nat c) F) src.
Proof.
  intros Hg Hm Hfull Hnd Hdis Hs0 Hskip Hc Hfit Hsrc F. pose proof (geometry_block _ _ _ Hg).
  destruct (stage_fit d k ptrs P F1 F2 c skip Hg Hm Hfull Hs0 Hskip Hc Hfit) as (Hsk & Hne & Hany & Hdir & _).
  assert (upto c F * block_size p ≤ Z.of_nat (List.length src)) by (unfold upto; nia).
  destruct Hskip as [->|[-> Hsl]].
  - subst F. change (Z.to_nat 0) with 0%nat in *. rewrite drop_0 in *. apply (writes_all k d ptrs P); try done. by apply Hany.
  - pose proof (maps_direct d ptrs P F1 Hm) as ->. cbn [write_at]. unfold ext2_write_direct_blocks.
    destruct (write_direct_ok ptrs d F1 c 0 skip src) as (d' & E & Hst); try done; try lia.
    + rewrite Z.sub_0_r. done.
    + rewrite Z.sub_0_r in *. by exists d'.
Qed.

Lemma run_write_stages_ok ls : ∀ d P F count bw skip src,
  geometry p d n → layers d ls P F → NoDup F → P ## F →
  0 ≤ skip → (skip = 0 ∨ ∃ ptrs, head ls = Some (0%nat, ptrs) ∧ skip < Z.of_nat (List.length ptrs)) →
  0 ≤ bw < count → count < EXT2_WRITE_FAILED → skip + (count - bw) ≤ Z.of_nat (List.length F) →
  (count - bw) * block_size p ≤ Z.of_nat (List.length src) →
  ∃ d', run_write_stages p (write_stages_of ls) count bw skip src d = Done (count, d') ∧
    stored d d' (take (Z.to_nat (count - bw)) (drop (Z.to_nat skip) F)) src.
Proof.
  induction ls as [|[k ptrs] ls IH]; intros d P F count bw skip src Hg Hl Hnd Hdis Hs0 Hskip Hbw Hcnt Hfit Hsrc.
  { inversion Hl; subst. cbn in Hfit. lia. }
  inversion Hl as [|k0 ptrs0 ls0 P1 P2 F1 F2 Hm Hfull Hl2]; subst. apply NoDup_app in Hnd as (Hnd1 & H12 & Hnd2).
  pose proof (geometry_block _ _ _ Hg) as Hbs.
  assert (Hskip' : skip = 0 ∨ k = 0%nat ∧ skip < Z.of_nat (List.length ptrs)).
  { destruct Hskip as [?|(ptrs' & E & ?)]; [by left|]. injection E as -> ->. by right. }
  assert (Hc : 0 < count - bw < EXT2_WRITE_FAILED) by lia.
  destruct (stage_fit d k ptrs P1 F1 F2 (count - bw) skip Hg Hm Hfull Hs0 Hskip' Hc Hfit) as (Hsk & _ & _ & _ & Hu).
  destruct (write_stage_ok d k ptrs P1 F1 F2 (count - bw) skip src) as (d1 & E & Hst1); try done; [set_solver|].
  unfold write_stages_of. rewrite fmap_cons. cbn [run_write_stages]. rewrite E, bind_done.
  rewrite !(proj2 (Z.eqb_neq (upto _ _) _)) by (unfold EXT2_WRITE_FAILED in *; lia). cbn [orb].
  rewrite drop_app_le by lia. rewrite length_app in Hfit. set (F := drop (Z.to_nat skip) F1) in *.
  assert (HlF : Z.of_nat (List.length F) = Z.of_nat (List.length F1) - skip) by (subst F; rewrite length_drop; lia).
  destruct (Z.geb_spec (bw + upto (count - bw) F) count) as [Hge|Hnge].
  - exists d1. unfold upto in *. rewrite take_app_le by lia. split; [do 2 f_equal; lia|done].
  - assert (Eu : upto (count - bw) F = Z.of_nat (List.length F)) by (unfold upto in *; lia).
    assert (Hlt : Z.of_nat (List.length F) < count - bw) by (unfold upto in *; lia).
    rewrite Eu. rewrite (take_ge F) in Hst1 by lia. fold (write_stages_of ls).
    assert (HF : ∀ c, c ∈ F → c ∈ F1) by (intros c Hc'; subst F; rewrite <- (take_drop (Z.to_nat skip) F1); set_solver).
    assert (Hr : Forall (λ c, 0 < c < n) F).
    { apply Forall_forall. intros c Hc'%HF. apply maps_range in Hm. rewrite Forall_forall in Hm. apply Hm. set_solver. }
    destruct (IH d1 P2 F2 count (bw + Z.of_nat (List.length F)) 0 (drop (Z.to_nat (Z.of_nat (List.length F) * block_size p)) src))
      as (d2 & -> & Hst2); try done; try lia.
    + apply Hst1.
    + apply (layers_stable d); [done|]. intros c Hc'. apply layers_range in Hl2. rewrite Forall_forall in Hl2.
      apply Hst1; [specialize (Hl2 c); set_solver by lia|]. intros ?%HF. set_solver.
    + set_solver.
    + rewrite length_drop. lia.
    + exists d2. split; [done|]. change (Z.to_nat 0) with 0%nat in Hst2. rewrite drop_0 in Hst2.
      apply (stored_rest d d1); [done| |done| |lia].
      * by replace (count - bw - Z.of_nat (List.length F)) with (count - (bw + Z.of_nat (List.length F))) by lia.
      * intros c Hc1%HF Hc2. set_solver.
Qed.
Lemma write_pointers_ok d ib P F count skip src :
  geometry p d n → file_map d ib P F → List.length ib = 15%nat → NoDup F → P ## F →
  0 ≤ skip < 12 → 0 < count < EXT2_WRITE_FAILED → skip + count ≤ Z.of_nat (List.length F) →
  count * block_size p ≤ Z.of_nat (List.length src) →
  ∃ d', write_pointers p ib count skip src d = Done (count, d') ∧
    stored d d' (take (Z.to_nat count) (drop (Z.to_nat skip) F)) src.
Proof.
  intros Hg Hf Hib Hnd Hdis Hs Hc Hfit Hsrc.
  destruct (run_write_stages_ok (pointer_lists ib) d P F count 0 skip src) as (d' & E & Hst); try done; try lia.
  - right. exists (take 12 ib). split; [done|]. rewrite length_take. lia.
  - rewrite Z.sub_0_r in Hst. by exists d'.
Qed.

(** ** Files *)
(** Inode [ino], at offset [off] of block [b], is a file of the blocks [F] with the pointer
    blocks [P]; no block is used twice. *)
Record file d (ino b off : Z) (P F : list Z) : Prop := {
  fl_number : inode_number p ino;
  fl_size : 128 ≤ inode_size p;
  fl_located : located p ino b off;
  fl_map : file_map d (i_block (inode_at p d b off)) P F;
  fl_once : NoDup F;
  fl_apart : (b :: P) ## F;
}.

Lemma i_block_length d ino b off :
  geometry p d n → tables_ok p n → inode_number p ino → 128 ≤ inode_size p → located p ino b off →
  0 < b < n ∧ List.length (i_block (inode_at p d b off)) = 15%nat.
Proof.
  intros Hg Ht Hn Hsz Hloc. destruct (located_ok p d n ino Hg Ht Hn) as (b1 & off1 & Hloc1 & Hb & Ho & Hf & _).
  destruct (located_unique _ _ _ _ _ _ Hn Hloc Hloc1) as [-> ->]. split; [done|].
  pose proof (block_at_length p d n b Hg ltac:(lia)) as Hl.
  assert (E : List.length (take 60 (drop off_i_block (inode_at p d b off))) = 60%nat)
    by (unfold inode_at, off_i_block; rewrite length_take, length_drop, length_take, length_drop; lia).
  unfold i_block. apply Nat2Z.inj. rewrite words_length; by rewrite E.
Qed.

(** Storing in the blocks of a file leaves it the same file. *)
Lemma file_stored d d' ino b off P F G src :
  geometry p d n → tables_ok p n → file d ino b off P F → (∀ c, c ∈ G → c ∈ F) → stored d d' G src →
  file d' ino b off P F.
Proof.
  intros Hg Ht [Hn Hsz Hloc Hm Hnd Hap] HG (Hg' & _ & Hsame). destruct (i_block_length d ino b off Hg Ht Hn Hsz Hloc) as [Hb _].
  assert (Hout : ∀ c, c ∈ b :: P → c ∉ G) by (intros c Hc Hc'%HG; by apply (Hap c)).
  split; try done. unfold file_map, inode_at in *. rewrite Hsame; [|lia|apply Hout; set_solver].
  apply (layers_stable d); [done|]. intros c Hc. apply layers_range in Hm. rewrite Forall_forall in Hm.
  apply Hsame; [specialize (Hm c); set_solver by lia|]. apply Hout. set_solver.
Qed.

Lemma read_file_ok d ino b off P F count skip :
  geometry p d n → tables_ok p n → file d ino b off P F → 0 ≤ skip < 12 → 0 ≤ count < EXT2_WRITE_FAILED →
  skip + count ≤ Z.of_nat (List.length F) →
  ext2_read_inode_blocks p ino count skip d =
  Done (count, contents d (take (Z.to_nat count) (drop (Z.to_nat skip) F))).
Proof.
  intros Hg Ht [Hn Hsz Hloc Hm Hnd Hap] Hs Hc Hfit. unfold ext2_read_inode_blocks. destruct (Z.eqb_spec count 0) as [->|Hne]; [done|].
  rewrite (read_inode_ok p d n ino b off), bind_done by done.
  destruct (i_block_length d ino b off Hg Ht Hn Hsz Hloc) as [_ Hl]. apply (read_pointers_ok d _ P F); try done. lia.
Qed.

Lemma write_file_ok d ino b off P F count skip src :
  geometry p d n → tables_ok p n → file d ino b off P F → 0 ≤ skip < 12 → 0 ≤ count < EXT2_WRITE_FAILED →
  skip + count ≤ Z.of_nat (List.length F) → count * block_size p ≤ Z.of_nat (List.length src) →
  ∃ d', ext2_write_inode_blocks p ino src count skip d = Done (count, d') ∧ file d' ino b off P F ∧
    stored d d' (take (Z.to_nat count) (drop (Z.to_nat skip) F)) src.
Proof.
  intros Hg Ht Hfile Hs Hc Hfit Hsrc. pose proof Hfile as [Hn Hsz Hloc Hm Hnd Hap].
  unfold ext2_write_inode_blocks. destruct (Z.eqb_spec count 0) as [->|Hne].
  { exists d. split; [done|]. split; [done|]. by apply stored_none. }
  rewrite (read_inode_ok p d n ino b off), bind_done by done.
  destruct (i_block_length d ino b off Hg Ht Hn Hsz Hloc) as [_ Hl].
  destruct (write_pointers_ok d _ P F count skip src Hg Hm Hl Hnd) as (d' & E & Hst); [set_solver|lia..|].
  exists d'. split; [done|]. split; [|done]. apply (file_stored d d' ino b off P F _ src Hg Ht Hfile) in Hst; [done|].
  intros c Hc'%elem_of_taken. rewrite <- (take_drop (Z.to_nat skip) F). set_solver.
Qed.
End Files.
