(* ===== verification/Ext2FileSpec.v ===== *)
(** * What is written to a file is read back

    The results of Ext2File.v for whole calls: by blocks, through every level of pointer
    blocks, and by bytes in the direct blocks. *)
From S2P Require Import Prelude Ext2Block Ext2Disk Ext2Inode Ext2Spec Ext2File.
#[local] Open Scope Z_scope.

Section FileSpec.
Context {D : Type} `{DiskOk D}.
Implicit Types (p : ext2_partition) (d : D).

(** Reading a file by blocks returns the contents of its data blocks, in order.  For a file
    whose data blocks [F] are found behind the direct pointers and the pointer blocks of one,
    two and three levels, [ext2_read_inode_blocks] from any of the first twelve blocks on
    returns exactly the blocks asked for. *)
Theorem ext2_read_file_blocks p d n ino b off P F count skip :
  geometry p d n → tables_ok p n → file p n d ino b off P F → 0 ≤ skip < 12 → 0 < count < EXT2_WRITE_FAILED →
  skip + count ≤ Z.of_nat (List.length F) →
  ext2_read_inode_blocks p ino count skip d =
  Done (count, contents p d (take (Z.to_nat count) (drop (Z.to_nat skip) F))).
Proof. intros. apply (read_file_ok p n d ino b off P F); try done. lia. Qed.

(** C20: What is written to a file by blocks is read back.  For a file none of whose blocks is
    used twice, [ext2_write_inode_blocks] writes the blocks asked for, through every level of
    pointer blocks; [ext2_read_inode_blocks] then returns what was written; and no other block of
    the partition changed. *)
Theorem ext2_file_blocks_roundtrip p d n ino b off P F count skip src :
  geometry p d n → tables_ok p n → file p n d ino b off P F → 0 ≤ skip < 12 → 0 < count < EXT2_WRITE_FAILED →
  skip + count ≤ Z.of_nat (List.length F) → count * block_size p ≤ Z.of_nat (List.length src) →
  ∃ d', ext2_write_inode_blocks p ino src count skip d = Done (count, d') ∧
    ext2_read_inode_blocks p ino count skip d' = Done (count, take (Z.to_nat (count * block_size p)) src) ∧
    ∀ c, 0 ≤ c < n → c ∉ take (Z.to_nat count) (drop (Z.to_nat skip) F) → block_at p d' c = block_at p d c.
Proof.
  intros Hg Ht Hf Hs Hc Hfit Hsrc.
  destruct (write_file_ok p n d ino b off P F count skip src) as (d' & E & Hf' & Hg' & Hcont & Hsame); try done; [lia|].
  exists d'. split; [done|]. split; [|done]. rewrite (read_file_ok p n d' ino b off P F) by (done || lia).
  rewrite Hcont. rewrite upto_take by lia. unfold upto. rewrite length_drop, Z.min_l by lia. done.
Qed.

(** The pointers of a file of one block. *)
Lemma single_block_map p d n x : 0 < x < n → file_map p n d (x :: replicate 14 0) [] [x].
Proof.
  intros Hx. apply (layers_cons _ _ _ 0 _ _ [] [] [x] []); [apply maps_leaf; [done|apply maps_none]|done|].
  apply (layers_cons _ _ _ 1 _ _ [] [] [] []); [apply maps_none|done|].
  apply (layers_cons _ _ _ 2 _ _ [] [] [] []); [apply maps_none|done|].
  apply (layers_cons _ _ _ 3 _ _ [] [] [] []); [apply maps_none|done|]. apply layers_nil.
Qed.

(** Blocks past the twelfth can be reached only from an earlier one: when twelve or more are
    skipped, nothing is read. *)
Lemma read_direct_skipped p ptrs count skip d :
  Z.of_nat (List.length ptrs) ≤ skip →
  read_direct p ptrs count 0 skip [] d = Done (0, [], skip - Z.of_nat (List.length ptrs)).
Proof.
  revert skip. induction ptrs as [|b ptrs IH]; intros skip Hs; [cbn; by rewrite Z.sub_0_r|].
  cbn [read_direct List.length] in *. rewrite gtb_true by lia. rewrite IH by lia. do 2 f_equal. lia.
Qed.

Theorem ext2_read_past_direct p ino inode count skip d :
  ext2_read_inode p ino d = Done (Some inode) → List.length (i_block inode) = 15%nat → 12 ≤ skip →
  ext2_read_inode_blocks p ino count skip d = Done (0, []).
Proof.
  intros E Hl Hs. unfold ext2_read_inode_blocks. destruct (count =? 0); [done|]. rewrite E, bind_done.
  assert (Es : read_stage (λ c s, ext2_read_direct_blocks p (take 12 (i_block inode)) c s d) count (0, [], skip) =
    Done (inr (0, []))).
  { unfold read_stage, ext2_read_direct_blocks. by rewrite read_direct_skipped by (rewrite length_take; lia). }
  unfold read_pointers. cbn [run_stages]. by rewrite Es.
Qed.

(** ** By bytes *)
(** The number of blocks for [count] bytes. *)
Lemma rounded_up count bs (k := DIVIDE_ROUNDED_UP count bs) :
  0 < bs → 0 < count → 1 ≤ k ∧ (k - 1) * bs < count ≤ k * bs.
Proof.
  intros Hbs Hc. subst k. unfold DIVIDE_ROUNDED_UP. pose proof (Z.div_mod count bs ltac:(lia)).
  pose proof (Z.mod_pos_bound count bs ltac:(lia)). destruct (Z.eqb_spec (count mod bs) 0) as [E|E]; cbn [negb].
  - split; nia.
  - replace ((count + bs - 1) / bs) with (count / bs + 1).
    + pose proof (Z.div_pos count bs). split; nia.
    + apply (Z.div_unique _ _ _ (count mod bs - 1)); lia.
Qed.

(** The part of a file for [count] bytes at an offset that is a multiple of the block size: all
    but the last of its blocks, and the last. *)
Lemma last_block (F : list Z) sb k :
  0 ≤ sb → 1 ≤ k → sb + k ≤ Z.of_nat (List.length F) →
  ∃ x, take 1 (drop (Z.to_nat (sb + (k - 1))) F) = [x] ∧
    take (Z.to_nat k) (drop (Z.to_nat sb) F) = (take (Z.to_nat (k - 1)) (drop (Z.to_nat sb) F) ++ [x])%list.
Proof.
  intros Hs Hk Hl. destruct (lookup_lt_is_Some_2 F (Z.to_nat (sb + (k - 1)))) as [x Hx]; [lia|]. exists x. split.
  - by rewrite (drop_S _ _ _ Hx).
  - replace (Z.to_nat k) with (S (Z.to_nat (k - 1))) by lia. apply take_S_r. rewrite lookup_drop.
    rewrite <- Hx. f_equal. lia.
Qed.

Lemma contents_length p d n G :
  geometry p d n → Forall (λ c, 0 < c < n) G → Z.of_nat (List.length (contents p d G)) = Z.of_nat (List.length G) * block_size p.
Proof.
  intros Hg. induction 1 as [|b G Hb _ IH]; [done|]. rewrite contents_cons, length_app, Nat2Z.inj_add, IH.
  rewrite (block_at_length p d n b Hg) by lia. cbn [List.length]. lia.
Qed.

Lemma contents_one p d x : contents p d [x] = block_at p d x.
Proof. unfold contents. cbn [mbind list_bind]. apply app_nil_r. Qed.

Lemma file_range p d n ino b off P F :
  file p n d ino b off P F → ∀ k sb, Forall (λ c, 0 < c < n) (take k (drop sb F)).
Proof.
  intros [_ _ _ Hm _ _] k sb. apply layers_range in Hm. apply Forall_app in Hm as [_ Hm]. by apply Forall_take, Forall_drop.
Qed.

(** [ext2_read_inode_bytes] reads all but the last block, then the last. *)
Lemma read_bytes_ok p d n ino b off P F count skip (k := DIVIDE_ROUNDED_UP count (block_size p)) (sb := skip / block_size p) :
  geometry p d n → tables_ok p n → file p n d ino b off P F → 0 ≤ skip → skip mod block_size p = 0 → 0 < count →
  sb + k ≤ 12 → sb + k ≤ Z.of_nat (List.length F) →
  ext2_read_inode_bytes p ino count skip d =
  Done (count, take (Z.to_nat count) (contents p d (take (Z.to_nat k) (drop (Z.to_nat sb) F)))).
Proof.
  intros Hg Ht Hf Hs Hal Hc H12 HF. pose proof (geometry_block _ _ _ Hg) as Hbs. pose proof (u32_range (Z.shiftl 1024 (s_log_block_size (pt_sb p)))) as Hb32.
  fold (block_size p) in Hb32. destruct (rounded_up count (block_size p) Hbs Hc) as [Hk1 Hk2]. fold k in Hk1, Hk2.
  assert (Hsb : 0 ≤ sb) by (apply Z.div_pos; lia). destruct (last_block F sb k Hsb Hk1 HF) as (x & Ex & Esplit).
  assert (Hsmall : count < 2 ^ 40) by nia.
  unfold ext2_read_inode_bytes. cbv zeta. fold k sb. rewrite Hal. change (negb (0 =? 0)) with false. cbv iota. rewrite bind_done, Z.sub_0_r.
  rewrite s64_small, gtb_true, u64_small by lia.
  rewrite (read_file_ok p n d ino b off P F) by (done || (unfold EXT2_WRITE_FAILED; lia)). rewrite !bind_done.
  rewrite (proj2 (Z.eqb_neq _ _)) by (unfold EXT2_READ_FAILED; lia). cbv iota. rewrite bind_done, app_nil_l, Z.add_0_l.
  rewrite s64_small, gtb_true by lia. rewrite (read_file_ok p n d ino b off P F) by (done || (unfold EXT2_WRITE_FAILED; lia)).
  rewrite bind_done. change (negb (1 =? 1)) with false. cbv iota. change (Z.to_nat 1) with 1%nat. rewrite Ex.
  pose proof (file_range p d n ino b off P F Hf (Z.to_nat k) (Z.to_nat sb)) as Hr. rewrite Esplit in Hr.
  apply Forall_app in Hr as [Hr Hx]. apply Forall_inv in Hx.
  assert (Hlx := block_at_length p d n x Hg ltac:(lia)). assert (Hlr := contents_length p d n _ Hg Hr).
  rewrite upto_take in Hlr by lia. unfold upto in Hlr. rewrite length_drop, Z.min_l in Hlr by lia.
  unfold first_bytes. rewrite contents_one. rewrite (proj2 (Z.ltb_ge _ _)) by lia.
  rewrite bind_done, Esplit, contents_app, contents_one, take_app, (take_ge (contents _ _ _)) by lia.
  do 2 f_equal; [lia|]. do 2 f_equal. lia.
Qed.

(** What the two writes of [ext2_write_inode_bytes] leave: the blocks before the last, then the
    last with its first bytes replaced. *)
Lemma stored_bytes p d d1 d2 n G x src count l (m := Z.of_nat (List.length G) * block_size p) :
  stored p n d d1 G src → stored p n d1 d2 [x] l → Forall (λ c, 0 < c < n) G → x ∉ G →
  m < count → count ≤ m + block_size p → count ≤ Z.of_nat (List.length src) →
  Z.of_nat (List.length l) = block_size p → take (Z.to_nat (count - m)) l = take (Z.to_nat (count - m)) (drop (Z.to_nat m) src) →
  take (Z.to_nat count) (contents p d2 (G ++ [x])) = take (Z.to_nat count) src ∧
  ∀ c, 0 ≤ c < n → c ∉ (G ++ [x])%list → block_at p d2 c = block_at p d c.
Proof.
  intros (Hg1 & E1 & N1) (Hg2 & E2 & N2) Hr Hx Hm1 Hm2 Hlen Hl Htake. assert (Hm : 0 ≤ m) by (pose proof (geometry_block _ _ _ Hg1); nia).
  split.
  - rewrite contents_app, E2, (contents_same p d1 d2 G), E1.
    + fold m. cbn [List.length]. rewrite Z.mul_1_l, (take_ge l) by lia. rewrite take_app, (take_ge (take _ src)) by (rewrite length_take; lia).
      rewrite length_take, Nat.min_l by lia. replace (Z.to_nat count - Z.to_nat m)%nat with (Z.to_nat (count - m)) by lia. rewrite Htake.
      rewrite take_take_drop. f_equal. lia.
    + intros c Hc. rewrite Forall_forall in Hr. specialize (Hr c Hc). apply N2; [lia|]. set_solver.
  - intros c Hc Hn. rewrite N2, N1 by set_solver. done.
Qed.

Lemma write_bytes_ok p d n ino b off P F src count skip (k := DIVIDE_ROUNDED_UP count (block_size p)) (sb := skip / block_size p) :
  geometry p d n → tables_ok p n → file p n d ino b off P F → 0 ≤ skip → skip mod block_size p = 0 → 0 < count →
  sb + k ≤ 12 → sb + k ≤ Z.of_nat (List.length F) → count ≤ Z.of_nat (List.length src) →
  ∃ d', ext2_write_inode_bytes p ino src count skip d = Done (count, d') ∧ geometry p d' n ∧ file p n d' ino b off P F ∧
    take (Z.to_nat count) (contents p d' (take (Z.to_nat k) (drop (Z.to_nat sb) F))) = take (Z.to_nat count) src ∧
    ∀ c, 0 ≤ c < n → c ∉ take (Z.to_nat k) (drop (Z.to_nat sb) F) → block_at p d' c = block_at p d c.
Proof.
  intros Hg Ht Hf Hs Hal Hc H12 HF Hsrc. pose proof (geometry_block _ _ _ Hg) as Hbs.
  pose proof (u32_range (Z.shiftl 1024 (s_log_block_size (pt_sb p)))) as Hb32. fold (block_size p) in Hb32.
  destruct (rounded_up count (block_size p) Hbs Hc) as [Hk1 Hk2]. fold k in Hk1, Hk2.
  assert (Hsb : 0 ≤ sb) by (apply Z.div_pos; lia). destruct (last_block F sb k Hsb Hk1 HF) as (x & Ex & Esplit).
  assert (Hsmall : count < 2 ^ 40) by nia. assert (Hm : 0 ≤ (k - 1) * block_size p) by nia. pose proof Hf as [Hn Hsz Hloc _ Hnd _].
  pose proof (file_range p d n ino b off P F Hf (Z.to_nat k) (Z.to_nat sb)) as Hr. rewrite Esplit in Hr.
  apply Forall_app in Hr as [Hr Hx]. apply Forall_inv in Hx.
  destruct (write_file_ok p n d ino b off P F (k - 1) sb src) as (d1 & E1 & Hf1 & Hst1); try done; try (unfold EXT2_WRITE_FAILED; lia).
  pose proof (proj1 Hst1) as Hg1. pose proof (block_at_length p d1 n x Hg1 ltac:(lia)) as Hlx.
  set (copied := take (Z.to_nat (count - (k - 1) * block_size p)) (drop (Z.to_nat ((k - 1) * block_size p)) src)).
  assert (Hcop : Z.of_nat (List.length copied) = count - (k - 1) * block_size p) by (subst copied; rewrite length_take, length_drop; lia).
  destruct (put_bytes_ok 0 copied (block_at p d1 x)) as (l & El & Hll & _ & Htl); [lia|].
  destruct (write_file_ok p n d1 ino b off P F 1 (sb + (k - 1)) l) as (d2 & E2 & Hf2 & Hst2); try done; try (unfold EXT2_WRITE_FAILED; lia).
  change (Z.to_nat 1) with 1%nat in Hst2. rewrite Ex in Hst2. exists d2. split; [|split; [apply Hst2|split; [done|]]].
  - unfold ext2_write_inode_bytes. cbv zeta. rewrite (read_inode_ok p d n ino b off), bind_done by done. fold k sb. rewrite Hal.
    change (negb (0 =? 0)) with false. cbv iota. rewrite bind_done, Z.sub_0_r, s64_small, gtb_true, u64_small, E1, !bind_done by lia.
    rewrite (proj2 (Z.eqb_neq _ _)) by (unfold EXT2_WRITE_FAILED; lia). rewrite bind_done, Z.add_0_l, s64_small, gtb_true by lia.
    rewrite (read_file_ok p n d1 ino b off P F) by (done || (unfold EXT2_WRITE_FAILED; lia)). rewrite bind_done.
    change (negb (1 =? 1)) with false. cbv iota. change (Z.to_nat 1) with 1%nat. rewrite Ex, contents_one. unfold first_bytes.
    rewrite (proj2 (Z.ltb_ge _ _)) by (rewrite length_drop; lia). rewrite bind_done. fold copied. rewrite El, bind_done, E2, bind_done.
    change (negb (1 =? 1)) with false. cbv iota. do 2 f_equal. lia.
  - rewrite Esplit. pose proof (upto_take (k - 1) (drop (Z.to_nat sb) F) ltac:(lia)) as Hlg. unfold upto in Hlg. rewrite length_drop, Z.min_l in Hlg by lia.
    apply (stored_bytes p d d1 d2 n _ x src count l Hst1 Hst2 Hr); rewrite ?Hlg; try lia.
    + assert (Hndt : NoDup (take (Z.to_nat k) (drop (Z.to_nat sb) F))) by (rewrite <- (take_drop (Z.to_nat sb) F) in Hnd;
        apply NoDup_app in Hnd as (_ & _ & Hnd); rewrite <- (take_drop (Z.to_nat k) (drop _ F)) in Hnd; by apply NoDup_app in Hnd as (? & _)).
      rewrite Esplit in Hndt. apply NoDup_app in Hndt as (_ & Hd & _). intros Hin. by apply (Hd x Hin), list_elem_of_here.
    + fold copied. rewrite drop_0 in Htl. rewrite <- Hcop, Nat2Z.id. exact Htl.
Qed.

(** What is written to a file by bytes is read back.  In the direct blocks of a file, from an
    offset that is a multiple of the block size, [ext2_write_inode_bytes] writes as many bytes as
    asked for, [ext2_read_inode_bytes] of the same range then returns them, and no block of the
    partition changed but those of the range. *)
Theorem ext2_file_bytes_roundtrip p d n ino b off P F src count skip :
  geometry p d n → tables_ok p n → file p n d ino b off P F → 0 ≤ skip → skip mod block_size p = 0 → 0 < count →
  let k := DIVIDE_ROUNDED_UP count (block_size p) in
  let sb := skip / block_size p in
  sb + k ≤ 12 → sb + k ≤ Z.of_nat (List.length F) → count ≤ Z.of_nat (List.length src) →
  ∃ d', ext2_write_inode_bytes p ino src count skip d = Done (count, d') ∧
    ext2_read_inode_bytes p ino count skip d' = Done (count, take (Z.to_nat count) src) ∧
    ∀ c, 0 ≤ c < n → c ∉ take (Z.to_nat k) (drop (Z.to_nat sb) F) → block_at p d' c = block_at p d c.
Proof.
  intros Hg Ht Hf Hs Hal Hc k sb H12 HF Hsrc.
  destruct (write_bytes_ok p d n ino b off P F src count skip) as (d' & E & Hg' & Hf' & Hcont & Hsame); try done.
  exists d'. split; [done|]. split; [|done]. rewrite (read_bytes_ok p d' n ino b off P F) by done. by rewrite Hcont.
Qed.
End FileSpec.

(** ** The file of the small partition *)
Lemma small_direct_maps : ∀ k F, (∀ b, b ∈ F → 0 < b < 4096) → maps small_part 4096 small_disk 0 (F ++ replicate k 0) [] F.
Proof.
  intros k F HF. induction F as [|b F IH]; [apply maps_none|]. apply maps_leaf; [apply HF; set_solver|]. apply IH. set_solver.
Qed.

Lemma small_pointers : i_block (inode_at small_part small_disk 8 128) = (seqZ 20 12 ++ [10; 0; 0])%list.
Proof. by vm_compute. Qed.

Lemma small_pointer_block : words (block_at small_part small_disk 10) = ([32; 33] ++ replicate 254 0)%list.
Proof. by vm_compute. Qed.

Lemma small_file : file small_part 4096 small_disk 2 8 128 [10] (seqZ 20 14).
Proof.
  split; [split; [done|vm_compute; lia]|done| | |apply NoDup_seqZ|].
  - split; [|done]. intros g Eg. injection Eg as <-. done.
  - rewrite small_pointers. apply (layers_cons _ _ _ 0 _ _ [] [10] (seqZ 20 12) [32; 33]); [|done|].
    { apply (small_direct_maps 0 (seqZ 20 12)). intros b Hb%elem_of_seqZ. lia. }
    apply (layers_cons _ _ _ 1 _ _ [10] [] [32; 33] []); [|done|].
    { apply (maps_node _ _ _ 0 10 [] [] [] [32; 33] []); [done| |done|done|apply maps_none]. rewrite small_pointer_block.
      apply (small_direct_maps 254 [32; 33]). set_solver by lia. }
    apply (layers_cons _ _ _ 2 _ _ [] [] [] []); [apply maps_none|done|].
    apply (layers_cons _ _ _ 3 _ _ [] [] [] []); [apply maps_none|done|]. apply layers_nil.
  - intros c Hc Hc'%elem_of_seqZ. set_solver by lia.
Qed.

Lemma ext2_read_file_blocks_witness :
  ext2_read_inode_blocks small_part 2 5 9 small_disk = Done (5, contents small_part small_disk [29; 30; 31; 32; 33]).
Proof.
  apply (ext2_read_file_blocks small_part small_disk 4096 2 8 128 [10] (seqZ 20 14) 5 9);
    [apply small_geometry|apply small_tables|apply small_file|done|done|done].
Defined.

Lemma ext2_file_blocks_roundtrip_witness :
  ∃ d', ext2_write_inode_blocks small_part 2 (replicate (Z.to_nat 14336) 7) 14 0 small_disk = Done (14, d') ∧
    ext2_read_inode_blocks small_part 2 14 0 d' = Done (14, take (Z.to_nat (14 * block_size small_part)) (replicate (Z.to_nat 14336) 7)) ∧
    block_at small_part d' 10 = block_at small_part small_disk 10.
Proof.
  destruct (ext2_file_blocks_roundtrip small_part small_disk 4096 2 8 128 [10] (seqZ 20 14) 14 0 (replicate (Z.to_nat 14336) 7))
    as (d' & Hw & Hr & Hs); [apply small_geometry|apply small_tables|apply small_file|done|done|done| |].
  - rewrite length_replicate, Z2Nat.id by lia. done.
  - exists d'. split; [exact Hw|]. split; [exact Hr|]. clear Hw Hr. apply Hs; [done|]. refine (bool_decide_eq_true_1 _ _). by vm_compute.
Defined.

Lemma ext2_file_bytes_roundtrip_witness :
  ∃ d', ext2_write_inode_bytes small_part 2 (replicate (Z.to_nat 1500) 7) 1500 2048 small_disk = Done (1500, d') ∧
    ext2_read_inode_bytes small_part 2 1500 2048 d' = Done (1500, take (Z.to_nat 1500) (replicate (Z.to_nat 1500) 7)).
Proof.
  destruct (ext2_file_bytes_roundtrip small_part small_disk 4096 2 8 128 [10] (seqZ 20 14) (replicate (Z.to_nat 1500) 7) 1500 2048)
    as (d' & Hw & Hr & _); [apply small_geometry|apply small_tables|apply small_file|done|done|done|done|done| |].
  - rewrite length_replicate, Z2Nat.id by lia. done.
  - exists d'. split; [exact Hw|exact Hr].
Defined.
