(* ===== verification/Ext2Alloc.v ===== *)
(** * The free blocks of an ext2 partition

    [ext2_allocate_block] takes a block that no one uses and marks it; [ext2_deallocate_block]
    gives it back.  The state of the bitmaps is a set of block numbers, which the two
    operations change by one element. *)
From S2P Require Import Prelude Ext2Block Ext2Disk.
#[local] Open Scope Z_scope.

(** ** Bits *)
Lemma land_bit w k : 0 ≤ k → (Z.land w (Z.shiftl 1 k) =? 0) = negb (Z.testbit w k).
Proof.
  intros Hk. destruct (Z.eqb_spec (Z.land w (Z.shiftl 1 k)) 0) as [E|E].
  - assert (Hb : Z.testbit (Z.land w (Z.shiftl 1 k)) k = false) by (rewrite E; apply Z.testbit_0_l).
    rewrite Z.land_spec, testbit_one_shiftl, Z.eqb_refl, andb_true_r in Hb by done. by rewrite Hb.
  - destruct (Z.testbit w k) eqn:Eb; [done|]. exfalso. apply E, Z.bits_inj'. intros i Hi.
    rewrite Z.land_spec, testbit_one_shiftl, Z.testbit_0_l by done. destruct (Z.eqb_spec i k) as [->|?]; [by rewrite Eb|].
    apply andb_false_r.
Qed.

Lemma find_bit_spec m : ∀ k w, 0 ≤ k →
  match find_bit m k w with
  | Some k' => k ≤ k' < k + Z.of_nat m ∧ Z.testbit w k' = false
  | None => ∀ i, k ≤ i < k + Z.of_nat m → Z.testbit w i = true
  end.
Proof.
  induction m as [|m IH]; intros k w Hk; [cbn; lia|]. cbn [find_bit]. rewrite land_bit by done.
  destruct (Z.testbit w k) eqn:Eb; cbn [negb]; [|split; [lia|done]].
  specialize (IH (k + 1) w ltac:(lia)). destruct (find_bit m (k + 1) w); [split; [lia|apply IH]|].
  intros i Hi. destruct (decide (i = k)) as [->|]; [done|]. apply IH. lia.
Qed.

Lemma all_ones i : 0 ≤ i < 32 → Z.testbit 0xFFFFFFFF i = true.
Proof. intros. change 0xFFFFFFFF with (Z.ones 32). by apply Z.ones_spec_low. Qed.

Lemma find_zero_spec ws : ∀ j0,
  match find_zero j0 ws with
  | Some (j, k) => ∃ x w, j = j0 + Z.of_nat x ∧ ws !! x = Some w ∧ 0 ≤ k < 32 ∧ Z.testbit w k = false
  | None => ∀ x w i, ws !! x = Some w → 0 ≤ i < 32 → Z.testbit w i = true
  end.
Proof.
  induction ws as [|w ws IH]; intros j0; [done|]. cbn [find_zero].
  assert (Hskip : (∀ i, 0 ≤ i < 32 → Z.testbit w i = true) →
    match find_zero (j0 + 1) ws with
    | Some (j, k) => ∃ x w', j = j0 + Z.of_nat x ∧ (w :: ws) !! x = Some w' ∧ 0 ≤ k < 32 ∧ Z.testbit w' k = false
    | None => ∀ x w' i, (w :: ws) !! x = Some w' → 0 ≤ i < 32 → Z.testbit w' i = true
    end).
  { intros Hw. specialize (IH (j0 + 1)). destruct (find_zero (j0 + 1) ws) as [[j k]|].
    - destruct IH as (x & w' & -> & Hx & Hk & Hb). exists (S x), w'. split; [lia|done].
    - intros [|x] w' i Hx Hi; [cbn in Hx; simplify_eq; auto|by apply (IH x)]. }
  destruct (Z.eqb_spec w 0xFFFFFFFF) as [->|Hne]; [apply Hskip; apply all_ones|].
  pose proof (find_bit_spec 32 0 w ltac:(lia)) as Hf. destruct (find_bit 32 0 w) as [k|]; [|apply Hskip; intros; apply Hf; lia].
  exists 0%nat, w. split; [lia|]. split; [done|]. split; [lia|apply Hf].
Qed.

(** The [m]-th bit of a bitmap of words. *)
Definition bit_at (ws : list Z) (m : Z) : bool := Z.testbit (default 0 (ws !! Z.to_nat (m / 32))) (m mod 32).

Lemma bit_at_update (f : Z → Z → Z) (g : bool → bool) ws x k w m :
  (∀ i, 0 ≤ i → Z.testbit (f w k) i = if i =? k then g (Z.testbit w i) else Z.testbit w i) →
  ws !! x = Some w → 0 ≤ k < 32 → 0 ≤ m →
  bit_at (<[x := f w k]> ws) m = if m =? Z.of_nat x * 32 + k then g (bit_at ws m) else bit_at ws m.
Proof.
  intros Hf Hx Hk Hm. unfold bit_at. assert (0 ≤ m mod 32 < 32) by dlia. assert (0 ≤ m / 32) by dlia.
  destruct (decide (Z.to_nat (m / 32) = x)) as [E|E].
  - rewrite E, list_lookup_insert_eq by (by eapply lookup_lt_Some). rewrite Hx. cbn [default from_option id].
    rewrite Hf by lia. replace (m =? Z.of_nat x * 32 + k) with (m mod 32 =? k); [done|].
    apply Bool.eq_iff_eq_true. rewrite !Z.eqb_eq. dlia.
  - rewrite list_lookup_insert_ne by done. rewrite (proj2 (Z.eqb_neq m _)); [done|]. dlia.
Qed.

Lemma bit_at_set ws x k w m :
  ws !! x = Some w → 0 ≤ k < 32 → 0 ≤ m →
  bit_at (<[x := Z.lor w (Z.shiftl 1 k)]> ws) m = (bit_at ws m || (m =? Z.of_nat x * 32 + k)).
Proof.
  intros Hx Hk Hm. change (Z.lor w (Z.shiftl 1 k)) with (setbit w k). rewrite (bit_at_update setbit (λ _, true) ws x k w m); try done.
  - destruct (m =? _); by rewrite ?orb_true_r, ?orb_false_r.
  - intros i Hi. rewrite setbit_testbit by lia. destruct (i =? k); by rewrite ?orb_true_r, ?orb_false_r.
Qed.

Lemma bit_at_clear ws x k w m :
  ws !! x = Some w → 0 ≤ k < 32 → 0 ≤ m →
  bit_at (<[x := Z.land w (Z.lnot (Z.shiftl 1 k))]> ws) m = (bit_at ws m && negb (m =? Z.of_nat x * 32 + k)).
Proof.
  intros Hx Hk Hm. change (Z.land w (Z.lnot (Z.shiftl 1 k))) with (clrbit w k). rewrite (bit_at_update clrbit (λ _, false) ws x k w m); try done.
  - destruct (m =? _); by rewrite ?andb_true_r, ?andb_false_r.
  - intros i Hi. rewrite clrbit_testbit by lia. destruct (i =? k); by rewrite ?andb_true_r, ?andb_false_r.
Qed.

(** Clearing a bit that was set undoes setting it. *)
Lemma clear_set w k : 0 ≤ k → Z.testbit w k = false → Z.land (Z.lor w (Z.shiftl 1 k)) (Z.lnot (Z.shiftl 1 k)) = w.
Proof.
  intros Hk Hb. apply Z.bits_inj'. intros i Hi. change (Z.testbit (clrbit (setbit w k) k) i = Z.testbit w i).
  rewrite clrbit_testbit, setbit_testbit by lia. destruct (Z.eqb_spec i k) as [->|?]; [by rewrite Hb|].
  by rewrite orb_false_r, andb_true_r.
Qed.

(** Words of bytes and back. *)
Lemma words_range l : Forall is_byte l → Forall (λ w, 0 ≤ w < 2 ^ 32) (words l).
Proof.
  remember (List.length l) as m eqn:Em. revert l Em. induction (lt_wf m) as [m _ IH]. intros l -> Hl.
  destruct l as [|a [|b [|c [|d l]]]]; try (by constructor). cbn [words]. rewrite !Forall_cons in Hl.
  destruct Hl as (Ha & Hb & Hc & Hd & Hl). constructor; [unfold is_byte in *; lia|].
  eapply (IH (List.length l)); [cbn; lia|done|done].
Qed.

Lemma unwords_words l : Forall is_byte l → Z.of_nat (List.length l) mod 4 = 0 → unwords (words l) = l.
Proof.
  remember (List.length l) as m eqn:Em. revert l Em. induction (lt_wf m) as [m _ IH]. intros l -> Hl H4.
  destruct l as [|a [|b [|c [|d l]]]]; try done. cbn [words]. rewrite !Forall_cons in Hl.
  destruct Hl as (Ha & Hb & Hc & Hd & Hl). unfold unwords in *. cbn [mbind list_bind]. rewrite word_of_bytes by done.
  cbn [app]. do 4 f_equal. apply (IH (List.length l)); [cbn; lia|done|done|]. cbn [List.length] in H4. dlia.
Qed.

(** ** The bitmaps of the groups *)
Section Bitmaps.
Context {D : Type} `{DiskOk D}.
Implicit Types (p : ext2_partition) (d : D) (fs : ext2fs D).

Abbreviation per_group p := (s_blocks_per_group (pt_sb p)).

Definition group_words p d g : list Z := words (block_at p d (bg_block_bitmap g)).

(** Every group has its own bitmap block, with a bit for each block of the group; the bits past
    those are set.  The counters fit their fields. *)
Record bitmaps_ok p d (n : Z) : Prop := {
  bm_groups : pt_group_number p = Z.of_nat (List.length (pt_gd p));
  bm_per_group : 0 < per_group p ≤ 8 * block_size p;
  bm_numbers : Z.of_nat (List.length (pt_gd p)) * per_group p < 2 ^ 32;
  bm_block i g : pt_gd p !! i = Some g → 0 < bg_block_bitmap g < n;
  bm_bytes i g : pt_gd p !! i = Some g → Forall is_byte (block_at p d (bg_block_bitmap g));
  bm_tail i g m : pt_gd p !! i = Some g → per_group p ≤ m < 8 * block_size p → bit_at (group_words p d g) m = true;
  bm_apart i j g g' : pt_gd p !! i = Some g → pt_gd p !! j = Some g' → i ≠ j → bg_block_bitmap g ≠ bg_block_bitmap g';
  bm_count i g : pt_gd p !! i = Some g → 0 ≤ bg_free_blocks_count g < 2 ^ 16;
  bm_total : 0 ≤ s_free_blocks_count (pt_sb p) < 2 ^ 32;
}.

(** Block numbers start from 1. *)
Definition block_number p (b : Z) : Prop := 1 ≤ b ≤ Z.of_nat (List.length (pt_gd p)) * per_group p.

(** Whether a block is marked. *)
Definition used p d (b : Z) : bool :=
  match pt_gd p !! Z.to_nat ((b - 1) / per_group p) with
  | Some g => bit_at (group_words p d g) ((b - 1) mod per_group p)
  | None => true
  end.

Lemma group_words_length p d n i g :
  geometry p d n → bitmaps_ok p d n → pt_gd p !! i = Some g →
  Z.of_nat (List.length (group_words p d g)) * 4 = block_size p.
Proof.
  intros Hg Hb Ei. pose proof (bm_block _ _ _ Hb _ _ Ei) as Hn. pose proof (ge_words _ _ _ Hg) as H4.
  pose proof (block_at_length p d n (bg_block_bitmap g) Hg ltac:(lia)) as Hl.
  unfold group_words. rewrite words_length; rewrite Hl; [|done]. dlia.
Qed.

Lemma group_word p d n i g x w :
  geometry p d n → bitmaps_ok p d n → pt_gd p !! i = Some g → group_words p d g !! x = Some w → 0 ≤ w < 2 ^ 32.
Proof.
  intros Hg Hb Ei Hw. pose proof (words_range _ (bm_bytes _ _ _ Hb _ _ Ei)) as Hr. rewrite Forall_lookup in Hr. by apply (Hr x).
Qed.

(** One word of one bitmap is replaced and the counters of its group change: what the
    operations do to the partition. *)
Record retouched p d n (i : nat) g (x : nat) (w' δ : Z) (p' : ext2_partition) (d' : D) : Prop := {
  rt_part : p' = ext2_flush_required (count_blocks (Z.of_nat i) g δ p);
  rt_geometry : geometry p d' n;
  rt_blocks c : 0 ≤ c < n → block_at p d' c =
    if decide (c = bg_block_bitmap g) then unwords (<[x := w']> (group_words p d g)) else block_at p d c;
}.

Lemma retouched_gd p d n i g x w' δ p' d' j g' :
  retouched p d n i g x w' δ p' d' → pt_gd p !! i = Some g → pt_gd p' !! j = Some g' →
  ∃ g0, pt_gd p !! j = Some g0 ∧ bg_block_bitmap g' = bg_block_bitmap g0 ∧
    bg_free_blocks_count g' = if decide (j = i) then u16 (bg_free_blocks_count g + δ) else bg_free_blocks_count g0.
Proof.
  intros [-> _ _] Ei Ej. cbn in Ej. rewrite Nat2Z.id in Ej. case_decide as E.
  - subst j. rewrite list_lookup_insert_eq in Ej by (by eapply lookup_lt_Some). injection Ej as <-. by exists g.
  - rewrite list_lookup_insert_ne in Ej by done. by exists g'.
Qed.

Lemma retouched_length p d n i g x w' δ p' d' :
  retouched p d n i g x w' δ p' d' → List.length (pt_gd p') = List.length (pt_gd p).
Proof. intros [-> _ _]. cbn. apply length_insert. Qed.

(** The words of a bitmap afterwards. *)
Lemma retouched_words p d n i g x w' δ p' d' j g' g0 :
  bitmaps_ok p d n → geometry p d n → retouched p d n i g x w' δ p' d' → pt_gd p !! i = Some g → pt_gd p !! j = Some g0 →
  bg_block_bitmap g' = bg_block_bitmap g0 → 0 ≤ w' < 2 ^ 32 →
  group_words p' d' g' = if decide (j = i) then <[x := w']> (group_words p d g) else group_words p d g0.
Proof.
  intros Hb Hg [-> _ Hbl] Ei Ej E Hw. unfold group_words at 1. rewrite E.
  change (block_at (ext2_flush_required (count_blocks (Z.of_nat i) g δ p)) d' (bg_block_bitmap g0)) with (block_at p d' (bg_block_bitmap g0)).
  pose proof (bm_block _ _ _ Hb _ _ Ej). rewrite Hbl by lia. destruct (decide (j = i)) as [->|Hne].
  - rewrite Ei in Ej. injection Ej as <-. rewrite decide_True by done. rewrite words_unwords; [done|].
    apply Forall_insert; [|done]. apply words_range. by apply (bm_bytes _ _ _ Hb i).
  - rewrite decide_False; [done|]. by apply (bm_apart _ _ _ Hb j i).
Qed.

Lemma retouched_ok p d n i g x w' δ p' d' :
  geometry p d n → bitmaps_ok p d n → retouched p d n i g x w' δ p' d' → pt_gd p !! i = Some g → 0 ≤ w' < 2 ^ 32 →
  (∀ m, per_group p ≤ m < 8 * block_size p → bit_at (<[x := w']> (group_words p d g)) m = true) →
  geometry p' d' n ∧ bitmaps_ok p' d' n ∧
  ∀ b, block_number p b → used p' d' b =
    if decide (Z.to_nat ((b - 1) / per_group p) = i) then bit_at (<[x := w']> (group_words p d g)) ((b - 1) mod per_group p)
    else used p d b.
Proof.
  intros Hg Hb Hrt Ei Hw Htail. pose proof Hrt as [Ep Hg' Hbl].
  assert (Hg'' : geometry p' d' n) by (rewrite Ep; destruct Hg'; by split).
  assert (Ebs : block_size p' = block_size p) by (by rewrite Ep). assert (Epg : per_group p' = per_group p) by (by rewrite Ep).
  pose proof (retouched_length _ _ _ _ _ _ _ _ _ _ Hrt) as El. split; [done|]. split.
  - split; rewrite ?Epg, ?Ebs, ?El; try apply Hb.
    + rewrite Ep. cbn. apply Hb.
    + intros j g' Ej. destruct (retouched_gd _ _ _ _ _ _ _ _ _ _ _ _ Hrt Ei Ej) as (g0 & E0 & -> & _). by apply (bm_block _ _ _ Hb j).
    + intros j g' Ej. destruct (retouched_gd _ _ _ _ _ _ _ _ _ _ _ _ Hrt Ei Ej) as (g0 & E0 & E & _).
      rewrite E, Ep. change (Forall is_byte (block_at p d' (bg_block_bitmap g0))). pose proof (bm_block _ _ _ Hb _ _ E0). rewrite Hbl by lia.
      case_decide; [|by apply (bm_bytes _ _ _ Hb j)]. apply Forall_bind. apply Forall_forall. intros v _.
      unfold word_bytes, is_byte. repeat constructor; dlia.
    + intros j g' m Ej Hm. destruct (retouched_gd _ _ _ _ _ _ _ _ _ _ _ _ Hrt Ei Ej) as (g0 & E0 & E & _).
      rewrite (retouched_words _ _ _ _ _ _ _ _ _ _ _ _ _ Hb Hg Hrt Ei E0 E Hw). case_decide; [by apply Htail|by apply (bm_tail _ _ _ Hb j)].
    + intros j k g1 g2 Ej Ek Hne. destruct (retouched_gd _ _ _ _ _ _ _ _ _ _ _ _ Hrt Ei Ej) as (? & ? & -> & _).
      destruct (retouched_gd _ _ _ _ _ _ _ _ _ _ _ _ Hrt Ei Ek) as (? & ? & -> & _). by apply (bm_apart _ _ _ Hb j k).
    + intros j g' Ej. destruct (retouched_gd _ _ _ _ _ _ _ _ _ _ _ _ Hrt Ei Ej) as (g0 & E0 & _ & ->).
      case_decide; [apply u16_range|by apply (bm_count _ _ _ Hb j)].
    + rewrite Ep. cbn. apply u32_range.
  - intros b [Hb1 Hb2]. unfold used at 1. rewrite Epg. pose proof (bm_per_group _ _ _ Hb).
    destruct (lookup_lt_is_Some_2 (pt_gd p') (Z.to_nat ((b - 1) / per_group p))) as [g' Ej].
    { rewrite El. assert ((b - 1) / per_group p < Z.of_nat (List.length (pt_gd p))) by (apply Z.div_lt_upper_bound; lia).
      pose proof (Z.div_pos (b - 1) (per_group p)). lia. }
    rewrite Ej. destruct (retouched_gd _ _ _ _ _ _ _ _ _ _ _ _ Hrt Ei Ej) as (g0 & E0 & E & _).
    rewrite (retouched_words _ _ _ _ _ _ _ _ _ _ _ _ _ Hb Hg Hrt Ei E0 E Hw). unfold used. rewrite E0. by case_decide.
Qed.

(** ** Allocation *)
(** The outcome of a search: nothing was free from group [i] on, or a clear bit was found and set. *)
Lemma allocate_in_ok k : ∀ i fs n (p := fs_part fs) (d := fs_disk fs),
  geometry p d n → bitmaps_ok p d n → (i + k = List.length (pt_gd p))%nat →
  (allocate_in k (Z.of_nat i) fs = Done (0, fs) ∧
    ∀ j g m, (i ≤ j)%nat → pt_gd p !! j = Some g → bg_free_blocks_count g ≠ 0 → 0 ≤ m < 8 * block_size p →
      bit_at (group_words p d g) m = true) ∨
  ∃ j g x b w fs', pt_gd p !! j = Some g ∧ bg_free_blocks_count g ≠ 0 ∧ group_words p d g !! x = Some w ∧ 0 ≤ b < 32 ∧
    Z.testbit w b = false ∧ retouched p d n j g x (Z.lor w (Z.shiftl 1 b)) (-1) (fs_part fs') (fs_disk fs') ∧
    allocate_in k (Z.of_nat i) fs = Done (u32 (Z.of_nat x * 32 + b + 1 + Z.of_nat j * per_group p), fs').
Proof.
  induction k as [|k IH]; intros i fs n p d Hg Hb Hik.
  { left. split; [done|]. intros j g m Hj Ej. apply lookup_lt_Some in Ej. lia. }
  destruct (lookup_lt_is_Some_2 (pt_gd p) i) as [g Ei]; [lia|]. cbn [allocate_in]. fold p d. rewrite Nat2Z.id, Ei. cbn [known].
  rewrite bind_done. replace (Z.of_nat i + 1) with (Z.of_nat (S i)) by lia. 
  assert (Hik' : (S i + k = List.length (pt_gd p))%nat) by lia. specialize (IH (S i) fs n Hg Hb Hik').
  assert (Hskip : (bg_free_blocks_count g ≠ 0 → ∀ m, 0 ≤ m < 8 * block_size p → bit_at (group_words p d g) m = true) →
    (∀ j g' m, (S i ≤ j)%nat → pt_gd p !! j = Some g' → bg_free_blocks_count g' ≠ 0 → 0 ≤ m < 8 * block_size p →
      bit_at (group_words p d g') m = true) →
    ∀ j g' m, (i ≤ j)%nat → pt_gd p !! j = Some g' → bg_free_blocks_count g' ≠ 0 → 0 ≤ m < 8 * block_size p →
      bit_at (group_words p d g') m = true).
  { intros Hi Hs j g' m Hj Ej. destruct (decide (j = i)) as [->|]; [rewrite Ei in Ej; injection Ej as <-; auto|].
    intros. apply (Hs j g' m); auto. lia. }
  destruct (Z.eqb_spec (bg_free_blocks_count g) 0) as [E0|E0].
  { destruct IH as [[E Hall]|IH]; [left; split; [done|by apply Hskip]|by right]. }
  pose proof (bm_block _ _ _ Hb _ _ Ei) as Hbl. rewrite (read_block_ok p d n _ Hg Hbl). change (1 =? 0) with false. cbv iota.
  cbn [known]. rewrite bind_done. fold (group_words p d g). pose proof (find_zero_spec (group_words p d g) 0) as Hf.
  pose proof (group_words_length _ _ _ _ _ Hg Hb Ei) as Hlen.
  destruct (find_zero 0 (group_words p d g)) as [[j b]|].
  - destruct Hf as (x & w & -> & Hx & Hk & Hbit). right. rewrite Z.add_0_l, Nat2Z.id, Hx. cbn [known]. rewrite bind_done.
    destruct (write_block_ok p d n (bg_block_bitmap g) (unwords (<[x := Z.lor w (Z.shiftl 1 b)]> (group_words p d g))) Hg Hbl)
      as (d' & -> & Hg' & Hc); [rewrite unwords_length, length_insert; lia|].
    change (1 <=? 0) with false. cbv iota.
    exists i, g, x, b, w, (Fs d' (ext2_flush_required (count_blocks (Z.of_nat i) g (-1) p))). do 5 (split; [done|]). split; [|done]. by split.
  - assert (Hfull : ∀ m, 0 ≤ m < 8 * block_size p → bit_at (group_words p d g) m = true).
    { intros m Hm. unfold bit_at. assert (0 ≤ m / 32 < Z.of_nat (List.length (group_words p d g))) by (split; dlia).
      destruct (lookup_lt_is_Some_2 (group_words p d g) (Z.to_nat (m / 32))) as [w Hw]; [lia|].
      rewrite Hw. cbn. apply (Hf _ _ _ Hw). dlia. }
    destruct IH as [[E Hall]|IH]; [left; split; [done|by apply Hskip]|by right].
Qed.

(** A clear bit of a group is one of a block, so setting it leaves the bits past the blocks. *)
Lemma clear_bit_block p d n j g x b w (m := Z.of_nat x * 32 + b) (number := u32 (m + 1 + Z.of_nat j * per_group p)) :
  geometry p d n → bitmaps_ok p d n → pt_gd p !! j = Some g → group_words p d g !! x = Some w → 0 ≤ b < 32 →
  Z.testbit w b = false →
  bit_at (group_words p d g) m = false ∧ 0 ≤ m < per_group p ∧ number = m + 1 + Z.of_nat j * per_group p ∧
  block_number p number ∧ (number - 1) / per_group p = Z.of_nat j ∧ (number - 1) mod per_group p = m.
Proof.
  intros Hg Hb Ej Hx Hk Hbit. pose proof (bm_per_group _ _ _ Hb) as Hpg. pose proof (lookup_lt_Some _ _ _ Hx) as Hlx.
  pose proof (group_words_length _ _ _ _ _ Hg Hb Ej) as Hlen. pose proof (lookup_lt_Some _ _ _ Ej) as Hlj.
  pose proof (bm_numbers _ _ _ Hb) as Hnum.
  assert (Hm : bit_at (group_words p d g) m = false).
  { unfold bit_at. replace (m / 32) with (Z.of_nat x) by (subst m; dlia). replace (m mod 32) with b by (subst m; dlia).
    by rewrite Nat2Z.id, Hx. }
  assert (Hmr : 0 ≤ m < per_group p).
  { destruct (decide (m < per_group p)); [subst m; lia|]. rewrite (bm_tail _ _ _ Hb j g m Ej) in Hm; [done|]. subst m; lia. }
  assert (Hle : m + 1 + Z.of_nat j * per_group p ≤ Z.of_nat (List.length (pt_gd p)) * per_group p) by nia.
  assert (En : number = m + 1 + Z.of_nat j * per_group p) by (subst number; apply u32_small; nia).
  split; [done|]. split; [done|]. split; [done|]. split; [unfold block_number; nia|].
  rewrite En. replace (m + 1 + Z.of_nat j * per_group p - 1) with (m + Z.of_nat j * per_group p) by lia.
  split; [rewrite Z.div_add, Z.div_small by lia; lia|rewrite Z.mod_add by lia; apply Z.mod_small; lia].
Qed.

(** The same block number from the same group and bit. *)
Lemma same_block p c j m :
  0 < per_group p → 1 ≤ c → Z.to_nat ((c - 1) / per_group p) = j → (c - 1) mod per_group p = m →
  c = m + 1 + Z.of_nat j * per_group p.
Proof.
  intros Hp Hc Ej Em. pose proof (Z.div_pos (c - 1) (per_group p)). pose proof (Z.div_mod (c - 1) (per_group p)). nia.
Qed.

(** [ext2_allocate_block] returns 0 and changes nothing, and then every group that counts free
    blocks has all its bits set; or it returns the number of a block that was not marked and is
    marked afterwards, and nothing else changes. *)
Lemma allocate_block_ok fs n (p := fs_part fs) (d := fs_disk fs) :
  geometry p d n → bitmaps_ok p d n →
  (ext2_allocate_block fs = Done (0, fs) ∧
    ∀ b g, block_number p b → pt_gd p !! Z.to_nat ((b - 1) / per_group p) = Some g → bg_free_blocks_count g ≠ 0 → used p d b = true) ∨
  ∃ b fs', ext2_allocate_block fs = Done (b, fs') ∧ block_number p b ∧ used p d b = false ∧
    (∀ c, block_number p c → used (fs_part fs') (fs_disk fs') c = used p d c || (c =? b)) ∧
    (∀ c, 0 ≤ c < n → (∀ i g, pt_gd p !! i = Some g → c ≠ bg_block_bitmap g) → block_at p (fs_disk fs') c = block_at p d c) ∧
    geometry (fs_part fs') (fs_disk fs') n ∧ bitmaps_ok (fs_part fs') (fs_disk fs') n ∧ block_number (fs_part fs') = block_number p.
Proof.
  intros Hg Hb. unfold ext2_allocate_block. fold p. rewrite (bm_groups _ _ _ Hb), Nat2Z.id.
  pose proof (bm_per_group _ _ _ Hb) as Hpg.
  destruct (allocate_in_ok (List.length (pt_gd p)) 0 fs n Hg Hb eq_refl) as [[E Hall]|(j & g & x & b & w & fs' & Ej & _ & Hx & Hk & Hbit & Hrt & E)].
  - left. split; [done|]. intros c g [Hc1 Hc2] Ec Hfree. unfold used. rewrite Ec. fold p d in Hall.
    pose proof (Z.mod_pos_bound (c - 1) (per_group p)). apply (Hall _ g _ (Nat.le_0_l _) Ec Hfree). lia.
  - right. fold p d in Ej, Hx, Hrt, E. destruct (clear_bit_block p d n j g x b w Hg Hb Ej Hx Hk Hbit) as (Hm & Hmr & En & Hnum & Hdiv & Hmod).
    set (number := u32 (Z.of_nat x * 32 + b + 1 + Z.of_nat j * per_group p)) in *.
    destruct (retouched_ok p d n j g x _ (-1) (fs_part fs') (fs_disk fs') Hg Hb Hrt Ej) as (Hg' & Hb' & Hused).
    { apply (setbit_range 32); [done|]. by apply (group_word p d n j g x w). }
    { intros m Hm'. rewrite (bit_at_set _ _ _ w) by (done || lia). by rewrite (bm_tail _ _ _ Hb j g m Ej) by done. }
    exists number, fs'. split; [exact E|]. split; [done|].
    assert (Hfree : used p d number = false) by (unfold used; rewrite Hdiv, Nat2Z.id, Ej, Hmod; done).
    split; [done|]. split; [|split; [|split; [done|split; [done|]]]].
    + intros c Hc. rewrite Hused by done. pose proof (Z.mod_pos_bound (c - 1) (per_group p)). case_decide as Ec.
      * rewrite (bit_at_set _ _ _ w) by (done || lia). unfold used. rewrite Ec, Ej. f_equal. apply Bool.eq_iff_eq_true. rewrite !Z.eqb_eq.
        destruct Hc as [Hc _]. split; [intros Em; rewrite (same_block p c j _) by (done || lia); lia|by intros ->].
      * rewrite (proj2 (Z.eqb_neq c number)), orb_false_r; [done|]. intros ->. apply Ec. by rewrite Hdiv, Nat2Z.id.
    + intros c Hc Hnot. rewrite (rt_blocks _ _ _ _ _ _ _ _ _ _ Hrt) by done. rewrite decide_False; [done|]. by apply (Hnot j).
    + unfold block_number. rewrite (retouched_length _ _ _ _ _ _ _ _ _ _ Hrt), (rt_part _ _ _ _ _ _ _ _ _ _ Hrt). done.
Qed.

(** ** Deallocation *)
Lemma deallocate_ok fs n b (p := fs_part fs) (d := fs_disk fs) (m := (b - 1) mod per_group p) :
  geometry p d n → bitmaps_ok p d n → block_number p b →
  if used p d b then
    ∃ j g w fs', j = Z.to_nat ((b - 1) / per_group p) ∧ pt_gd p !! j = Some g ∧
      group_words p d g !! Z.to_nat (m / 32) = Some w ∧
      retouched p d n j g (Z.to_nat (m / 32)) (Z.land w (Z.lnot (Z.shiftl 1 (m mod 32)))) 1 (fs_part fs') (fs_disk fs') ∧
      ext2_deallocate_block b fs = Done (1, fs')
  else ext2_deallocate_block b fs = Done (0, fs).
Proof.
  intros Hg Hb [Hb1 Hb2]. pose proof (bm_per_group _ _ _ Hb) as Hpg. pose proof (bm_numbers _ _ _ Hb) as Hnum.
  assert (Hq : 0 ≤ (b - 1) / per_group p < Z.of_nat (List.length (pt_gd p))).
  { split; [apply Z.div_pos; lia|]. apply Z.div_lt_upper_bound; lia. }
  destruct (lookup_lt_is_Some_2 (pt_gd p) (Z.to_nat ((b - 1) / per_group p))) as [g Ej]; [lia|].
  pose proof (group_words_length _ _ _ _ _ Hg Hb Ej) as Hlen. pose proof (bm_block _ _ _ Hb _ _ Ej) as Hbl.
  assert (Hm : 0 ≤ m < per_group p) by (apply Z.mod_pos_bound; lia).
  assert (Hx : 0 ≤ m / 32 < Z.of_nat (List.length (group_words p d g))) by (split; dlia).
  destruct (lookup_lt_is_Some_2 (group_words p d g) (Z.to_nat (m / 32))) as [w Hw]; [lia|].
  unfold used. rewrite Ej. fold m. unfold bit_at. rewrite Hw. cbn [default from_option id].
  unfold ext2_deallocate_block. fold p d. rewrite (proj2 (Z.eqb_neq (per_group p) 0)), (u32_small (b - 1)), Ej by lia. cbn [known].
  rewrite bind_done, (read_block_ok p d n _ Hg Hbl). change (1 =? 0) with false. cbv iota. cbn [known]. rewrite bind_done.
  fold (group_words p d g) m. rewrite Hw. cbn [known]. rewrite bind_done, land_bit, negb_involutive by dlia.
  destruct (Z.testbit w (m mod 32)); [|done].
  destruct (write_block_ok p d n (bg_block_bitmap g)
    (unwords (<[Z.to_nat (m / 32) := Z.land w (Z.lnot (Z.shiftl 1 (m mod 32)))]> (group_words p d g))) Hg Hbl) as (d' & -> & Hg' & Hc).
  { rewrite unwords_length, length_insert. lia. }
  change (1 <=? 0) with false. cbv iota. eexists _, g, w, _. split; [done|]. split; [done|]. split; [done|]. split; [|done].
  split; [|done|done]. by rewrite Z2Nat.id by lia.
Qed.

Lemma deallocate_block_ok fs n b (p := fs_part fs) (d := fs_disk fs) :
  geometry p d n → bitmaps_ok p d n → block_number p b → used p d b = true →
  ∃ fs', ext2_deallocate_block b fs = Done (1, fs') ∧ geometry (fs_part fs') (fs_disk fs') n ∧ bitmaps_ok (fs_part fs') (fs_disk fs') n ∧
    block_number (fs_part fs') = block_number p ∧
    ∀ c, block_number p c → used (fs_part fs') (fs_disk fs') c = used p d c && negb (c =? b).
Proof.
  intros Hg Hb Hn Hu. pose proof (deallocate_ok fs n b Hg Hb Hn) as Hd. fold p d in Hd. rewrite Hu in Hd.
  destruct Hd as (j & g & w & fs' & Ej & Eg & Hw & Hrt & E). set (m := (b - 1) mod per_group p) in *.
  pose proof (bm_per_group _ _ _ Hb) as Hpg. assert (Hm : 0 ≤ m < per_group p) by (apply Z.mod_pos_bound; lia). assert (0 ≤ m / 32) by dlia.
  destruct (retouched_ok p d n j g _ _ 1 (fs_part fs') (fs_disk fs') Hg Hb Hrt Eg) as (Hg' & Hb' & Hused).
  { apply (clrbit_range 32); [dlia|]. by apply (group_word p d n j g (Z.to_nat (m / 32)) w). }
  { intros i Hi. rewrite (bit_at_clear _ _ _ w) by (done || dlia). rewrite (bm_tail _ _ _ Hb j g i Eg) by done.
    rewrite (proj2 (Z.eqb_neq _ _)); [done|]. dlia. }
  exists fs'. split; [done|]. split; [done|]. split; [done|]. split.
  { unfold block_number. rewrite (retouched_length _ _ _ _ _ _ _ _ _ _ Hrt), (rt_part _ _ _ _ _ _ _ _ _ _ Hrt). done. }
  intros c Hc. rewrite Hused by done. destruct Hc as [Hc1 Hc2]. destruct Hn as [Hb1 Hb2].
  pose proof (Z.mod_pos_bound (c - 1) (per_group p)). case_decide as Ec.
  - rewrite (bit_at_clear _ _ _ w) by (done || dlia). unfold used. rewrite Ec, Eg. do 2 f_equal. apply Bool.eq_iff_eq_true. rewrite !Z.eqb_eq.
    replace (Z.of_nat (Z.to_nat (m / 32)) * 32 + m mod 32) with m by dlia. split; [|by intros ->].
    intros Em. rewrite (same_block p c j m), (same_block p b j m) by (done || lia). done.
  - rewrite (proj2 (Z.eqb_neq c b)), andb_true_r; [done|]. intros ->. by apply Ec.
Qed.

(** ** Sequences of operations *)
(** The states a client reaches that allocates blocks and gives back those it holds. *)
Inductive blocks_reach (fs0 : ext2fs D) : ext2fs D → list Z → Prop :=
| reach_start : blocks_reach fs0 fs0 []
| reach_allocate fs held b fs' :
    blocks_reach fs0 fs held → ext2_allocate_block fs = Done (b, fs') → blocks_reach fs0 fs' (if b =? 0 then held else b :: held)
| reach_release fs h1 b h2 r fs' :
    blocks_reach fs0 fs (h1 ++ b :: h2) → ext2_deallocate_block b fs = Done (r, fs') → blocks_reach fs0 fs' (h1 ++ h2).

(** C10: Over any sequence of allocations and releases the file system's record of free blocks
    stays well-formed and exact.  The bitmap blocks stay bytes with their unused bits set and
    the counters stay in their fields; the blocks marked are those marked at the start and
    those the client holds, which are different from each other and were free; and the next
    allocation, and the release of any block held, returns. *)
Theorem ext2_blocks_exclusive fs0 n fs held (p0 := fs_part fs0) (d0 := fs_disk fs0) :
  geometry p0 d0 n → bitmaps_ok p0 d0 n → blocks_reach fs0 fs held →
  geometry (fs_part fs) (fs_disk fs) n ∧ bitmaps_ok (fs_part fs) (fs_disk fs) n ∧ NoDup held ∧
  (∀ c, block_number p0 c → used (fs_part fs) (fs_disk fs) c = used p0 d0 c || bool_decide (c ∈ held)) ∧
  (∀ b, b ∈ held → block_number p0 b ∧ used p0 d0 b = false ∧ ∃ fs', ext2_deallocate_block b fs = Done (1, fs')) ∧
  ∃ b fs', ext2_allocate_block fs = Done (b, fs').
Proof.
  intros Hg0 Hb0 Hr.
  cut (geometry (fs_part fs) (fs_disk fs) n ∧ bitmaps_ok (fs_part fs) (fs_disk fs) n ∧ block_number (fs_part fs) = block_number p0 ∧ NoDup held ∧
    (∀ c, block_number p0 c → used (fs_part fs) (fs_disk fs) c = used p0 d0 c || bool_decide (c ∈ held)) ∧
    ∀ b, b ∈ held → block_number p0 b ∧ used p0 d0 b = false).
  { intros (Hg & Hb & En & Hnd & Hu & Hh). split; [done|]. split; [done|]. split; [done|]. split; [done|]. split.
    - intros b Hin. destruct (Hh b Hin) as [Hn Hf]. split; [done|]. split; [done|].
      destruct (deallocate_block_ok fs n b Hg Hb) as (fs' & E & _); [by rewrite En| |by exists fs'].
      rewrite Hu, bool_decide_true by done. apply orb_true_r.
    - destruct (allocate_block_ok fs n Hg Hb) as [[E _]|(b & fs' & E & _)]; by eexists _, _. }
  induction Hr as [|fs held b fs' Hr (Hg & Hb & En & Hnd & Hu & Hh) E|fs h1 b h2 r fs' Hr (Hg & Hb & En & Hnd & Hu & Hh) E].
  - split; [done|]. split; [done|]. split; [done|]. split; [constructor|]. split; [|set_solver].
    intros c Hc. by rewrite bool_decide_false, orb_false_r by set_solver.
  - destruct (allocate_block_ok fs n Hg Hb) as [[E' _]|(b' & fs1 & E' & Hn & Hf & Hu' & _ & Hg' & Hb' & En')]; rewrite E' in E; injection E as <- <-.
    { by rewrite Z.eqb_refl. }
    rewrite En in Hn, Hu'. rewrite (proj2 (Z.eqb_neq b' 0)) by (unfold block_number in Hn; lia).
    rewrite (Hu b' Hn) in Hf. apply orb_false_iff in Hf as [Hf Hnin]. apply bool_decide_eq_false in Hnin.
    split; [done|]. split; [done|]. split; [by rewrite En'|]. split; [by constructor|]. split.
    + intros c Hc. rewrite Hu', Hu, <- orb_assoc by done. f_equal. apply Bool.eq_iff_eq_true.
      rewrite orb_true_iff, !bool_decide_eq_true, Z.eqb_eq. set_solver.
    + intros c Hin. destruct (decide (c = b')) as [->|]; [done|apply Hh; set_solver].
  - assert (Hin : b ∈ h1 ++ b :: h2) by set_solver. destruct (Hh b Hin) as [Hn Hf].
    destruct (deallocate_block_ok fs n b Hg Hb) as (fs1 & E' & Hg' & Hb' & En' & Hu').
    { by rewrite En. }
    { rewrite Hu, bool_decide_true by done. apply orb_true_r. }
    rewrite E' in E. injection E as <- <-. rewrite En in Hu'.
    assert (Hnd' : NoDup (b :: h1 ++ h2)) by (by rewrite Permutation_middle). apply NoDup_cons in Hnd' as [Hb12 Hnd'].
    split; [done|]. split; [done|]. split; [by rewrite En'|]. split; [done|]. split; [|intros c Hc; apply Hh; set_solver].
    intros c Hc. rewrite Hu', Hu by done. destruct (Z.eqb_spec c b) as [->|Hne]; cbn [negb].
    + rewrite andb_false_r, Hf, bool_decide_false by done. done.
    + rewrite andb_true_r. f_equal. apply bool_decide_ext. set_solver.
Qed.

Lemma counts_restored p j g g' :
  pt_gd p !! j = Some g → 0 ≤ bg_free_blocks_count g < 2 ^ 16 → 0 ≤ s_free_blocks_count (pt_sb p) < 2 ^ 32 →
  g' = with_free_blocks (u16 (bg_free_blocks_count g + -1)) g →
  ext2_flush_required (count_blocks (Z.of_nat j) g' 1 (ext2_flush_required (count_blocks (Z.of_nat j) g (-1) p))) = ext2_flush_required p.
Proof.
  intros Ej Hf Ht ->. destruct p as [lba gn ss fl sb gd], sb, g. unfold ext2_flush_required, count_blocks, with_sb, with_gd, with_free_blocks, with_s_free_blocks.
  cbn in *. rewrite Nat2Z.id, list_insert_insert_eq.
  f_equal.
  - f_equal. unfold u32, wrap. dlia.
  - apply list_insert_id. rewrite Ej. do 2 f_equal. unfold u16, wrap. dlia.
Qed.

(** Giving back an allocated block undoes the allocation.  After [ext2_allocate_block] returned
    a block, [ext2_deallocate_block] of it succeeds, every block of the partition has the contents
    it had before the allocation, and so do the counters; only the mark that the superblock must be
    written stays. *)
Theorem ext2_allocate_deallocate fs n b fs' (p := fs_part fs) (d := fs_disk fs) :
  geometry p d n → bitmaps_ok p d n → ext2_allocate_block fs = Done (b, fs') → b ≠ 0 →
  ∃ fs'', ext2_deallocate_block b fs' = Done (1, fs'') ∧ fs_part fs'' = ext2_flush_required p ∧
    ∀ c, 0 ≤ c < n → block_at p (fs_disk fs'') c = block_at p d c.
Proof.
  intros Hg Hb E Hne. unfold ext2_allocate_block in E. fold p in E. rewrite (bm_groups _ _ _ Hb), Nat2Z.id in E.
  destruct (allocate_in_ok (List.length (pt_gd p)) 0 fs n Hg Hb eq_refl) as [[E' _]|(j & g & x & k & w & fs1 & Ej & _ & Hx & Hk & Hbit & Hrt & E')].
  { change (Z.of_nat 0) with 0 in E'. rewrite E' in E. by injection E. }
  fold p d in Ej, Hx, Hrt, E'. change (Z.of_nat 0) with 0 in E'. rewrite E' in E. injection E as <- <-.
  destruct (clear_bit_block p d n j g x k w Hg Hb Ej Hx Hk Hbit) as (Hm & Hmr & En & Hnum & Hdiv & Hmod).
  set (number := u32 (Z.of_nat x * 32 + k + 1 + Z.of_nat j * per_group p)) in *. set (p1 := fs_part fs1) in *. set (d1 := fs_disk fs1) in *.
  assert (Hw' : 0 ≤ Z.lor w (Z.shiftl 1 k) < 2 ^ 32) by (apply (setbit_range 32); [done|by apply (group_word p d n j g x w)]).
  destruct (retouched_ok p d n j g x _ (-1) p1 d1 Hg Hb Hrt Ej Hw') as (Hg1 & Hb1 & Hused).
  { intros m Hm'. rewrite (bit_at_set _ _ _ w) by (done || lia). by rewrite (bm_tail _ _ _ Hb j g m Ej) by done. }
  pose proof (rt_part _ _ _ _ _ _ _ _ _ _ Hrt) as Ep1. assert (Epg : per_group p1 = per_group p) by (by rewrite Ep1).
  assert (Hnum1 : block_number p1 number) by (unfold block_number; rewrite Epg, (retouched_length _ _ _ _ _ _ _ _ _ _ Hrt); done).
  pose proof (deallocate_ok fs1 n number Hg1 Hb1 Hnum1) as Hd. fold p1 d1 in Hd. rewrite Epg, Hdiv, Hmod, Nat2Z.id in Hd.
  rewrite Hused, Hdiv, Nat2Z.id, decide_True, Hmod, (bit_at_set _ _ _ w), Z.eqb_refl, orb_true_r in Hd by (done || lia).
  replace ((Z.of_nat x * 32 + k) / 32) with (Z.of_nat x) in Hd by dlia. replace ((Z.of_nat x * 32 + k) mod 32) with k in Hd by dlia.
  rewrite Nat2Z.id in Hd. destruct Hd as (j1 & g1 & w1 & fs2 & -> & Ej1 & Hx1 & Hrt2 & E2).
  destruct (retouched_gd _ _ _ _ _ _ _ _ _ _ _ _ Hrt Ej Ej1) as (g0 & E0 & Ebm & _). rewrite Ej in E0. injection E0 as <-.
  rewrite (retouched_words _ _ _ _ _ _ _ _ _ _ _ _ _ Hb Hg Hrt Ej Ej Ebm Hw'), decide_True in Hx1 by done.
  rewrite list_lookup_insert_eq in Hx1 by (by eapply lookup_lt_Some). injection Hx1 as <-. rewrite clear_set in Hrt2 by (done || lia).
  exists fs2. split; [done|]. split.
  - rewrite (rt_part _ _ _ _ _ _ _ _ _ _ Hrt2), Ep1. apply counts_restored; [done|by apply (bm_count _ _ _ Hb j)|apply Hb|].
    rewrite Ep1 in Ej1. cbn in Ej1. rewrite Nat2Z.id, list_lookup_insert_eq in Ej1 by (by eapply lookup_lt_Some). by injection Ej1 as <-.
  - intros c Hc. pose proof (rt_blocks _ _ _ _ _ _ _ _ _ _ Hrt2 c Hc) as Ec. replace (block_at p1) with (block_at p) in Ec by (by rewrite Ep1).
    rewrite Ec, Ebm. rewrite (retouched_words _ _ _ _ _ _ _ _ _ _ _ _ _ Hb Hg Hrt Ej Ej Ebm Hw'), (decide_True (P := j = j)) by done.
    rewrite list_insert_insert_eq, list_insert_id by done. rewrite (rt_blocks _ _ _ _ _ _ _ _ _ _ Hrt) by done.
    destruct (decide (c = bg_block_bitmap g)) as [->|]; [|done]. unfold group_words. apply unwords_words; [by apply (bm_bytes _ _ _ Hb j)|].
    rewrite (block_at_length p d n) by done. apply (ge_words _ _ _ Hg).
Qed.
End Bitmaps.

(** ** The small partition, with the bitmap of its group in block 3 *)
Definition bitmap_disk : ram_disk :=
  Ram (λ a, if (3072 <=? a) && (a <? 3076) then 0xFF else if (3584 <=? a) && (a <? 4096) then 0xFF else 0).

Lemma bitmap_words :
  group_words small_part bitmap_disk (Bgd 3 4 8 100 6 0) = ((0xFFFFFFFF :: replicate 127 0) ++ replicate 128 0xFFFFFFFF)%list.
Proof. by vm_compute. Qed.

Lemma bitmap_tail m : 4096 ≤ m < 8192 → bit_at (group_words small_part bitmap_disk (Bgd 3 4 8 100 6 0)) m = true.
Proof.
  intros Hm. rewrite bitmap_words. unfold bit_at. assert (128 ≤ m / 32 < 256) by (split; dlia).
  rewrite lookup_app_r by (cbn [List.length]; rewrite length_replicate; lia). rewrite lookup_replicate_2.
  - apply all_ones. dlia.
  - cbn [List.length]. rewrite length_replicate. lia.
Qed.

Lemma bitmap_bytes : Forall is_byte (block_at small_part bitmap_disk 3).
Proof. refine (bool_decide_eq_true_1 _ _). by vm_compute. Qed.

Lemma bitmap_disk_ok : bitmaps_ok small_part bitmap_disk 4096.
Proof.
  split; [done|done|done| | | | | |done].
  - intros [|i] g E; [|done]. by injection E as <-.
  - intros [|i] g E; [|discriminate E]. injection E as <-. exact bitmap_bytes.
  - intros [|i] g m E Hm; [|discriminate E]. injection E as <-. by apply bitmap_tail.
  - intros [|i] [|j] g g' Ei Ej Hij; done.
  - intros [|i] g E; [|done]. by injection E as <-.
Qed.

Lemma ext2_blocks_exclusive_witness :
  ∃ fs1 fs2, ext2_allocate_block (Fs bitmap_disk small_part) = Done (33, fs1) ∧ ext2_allocate_block fs1 = Done (34, fs2) ∧
    NoDup [34; 33] ∧ used (fs_part fs2) (fs_disk fs2) 33 = true.
Proof.
  assert (E : ∃ fs1 fs2, ext2_allocate_block (Fs bitmap_disk small_part) = Done (33, fs1) ∧ ext2_allocate_block fs1 = Done (34, fs2)).
  { assert (Ec : match ext2_allocate_block (Fs bitmap_disk small_part) with
      | Done (b, fs1) => (b =? 33) && match ext2_allocate_block fs1 with Done (b2, _) => b2 =? 34 | _ => false end
      | _ => false end = true) by (by vm_compute).
    destruct (ext2_allocate_block (Fs bitmap_disk small_part)) as [[b fs1]| | | |]; try discriminate Ec.
    apply andb_true_iff in Ec as [Eb Ec]. apply Z.eqb_eq in Eb as ->. exists fs1.
    destruct (ext2_allocate_block fs1) as [[b2 fs2]| | | |]; try discriminate Ec. apply Z.eqb_eq in Ec as ->. by exists fs2. }
  destruct E as (fs1 & fs2 & E1 & E2). exists fs1, fs2. split; [exact E1|]. split; [exact E2|].
  destruct (ext2_blocks_exclusive (Fs bitmap_disk small_part) 4096 fs2 [34; 33] (small_geometry _) bitmap_disk_ok) as (_ & _ & Hnd & Hused & _).
  { apply (reach_allocate _ fs1 [33] 34 fs2); [|exact E2]. apply (reach_allocate _ (Fs bitmap_disk small_part) [] 33 fs1); [|exact E1]. apply reach_start. }
  split; [exact Hnd|]. clear E1 E2. assert (Hb : block_number small_part 33) by (split; vm_compute; congruence).
  specialize (Hused 33 Hb). rewrite Hused. by rewrite orb_true_r.
Defined.

Lemma ext2_allocate_deallocate_witness :
  ∃ fs' fs'', ext2_allocate_block (Fs bitmap_disk small_part) = Done (33, fs') ∧ ext2_deallocate_block 33 fs' = Done (1, fs'') ∧
    fs_part fs'' = ext2_flush_required small_part.
Proof.
  assert (E : ∃ fs', ext2_allocate_block (Fs bitmap_disk small_part) = Done (33, fs')).
  { assert (Ec : match ext2_allocate_block (Fs bitmap_disk small_part) with Done (b, _) => b =? 33 | _ => false end = true)
      by (by vm_compute).
    destruct (ext2_allocate_block (Fs bitmap_disk small_part)) as [[b fs']| | | |]; try discriminate Ec.
    apply Z.eqb_eq in Ec as ->. by exists fs'. }
  destruct E as [fs' E]. exists fs'.
  destruct (ext2_allocate_deallocate (Fs bitmap_disk small_part) 4096 33 fs' (small_geometry _) bitmap_disk_ok E ltac:(done))
    as (fs'' & E2 & Ep & _).
  exists fs''. split; [exact E|]. split; [exact E2|exact Ep].
Defined.
