(* ===== verification/Ext2Dir.v ===== *)
(** * Directories of an ext2 partition (src/src/vfs/generic/ext2/ext2_dentry.c, ext2_inode.c, ext2_util.c)

    A directory is a file of entries, each with an inode number, the distance to the next
    entry, and a name.  Paths and names are lists of characters without the terminator.  The
    heap blocks the routines use are left out; bytes that nothing stored are unknown, and
    using one is a fault. *)
From S2P Require Import Prelude Ext2Block Ext2Inode.
#[local] Open Scope Z_scope.

Definition EXT2_NAME_LEN : Z := 255.
Definition EXT2_DIR_TYPE_DIRECTORY : Z := 2.
Definition EXT2_ROOT_INO_INDEX : Z := 2.
Definition LIST_MAX : Z := 16.
Definition SLASH : Z := 47.

(** ** Paths *)
(** [strtok] with the delimiter "/": the next token and what follows it.  After delimiters it
    steps over one character without looking, so when they end the string it leaves it. *)
Fixpoint skip_slashes (s : list Z) : list Z :=
  match s with c :: s' => if c =? SLASH then skip_slashes s' else s | [] => [] end.
Fixpoint until_slash (s : list Z) : list Z * list Z :=
  match s with
  | [] => ([], [])
  | c :: s => if c =? SLASH then ([], s) else let '(token, rest) := until_slash s in (c :: token, rest)
  end.
Definition next_token (s : list Z) : outcome (option (list Z * list Z)) :=
  match s, skip_slashes s with
  | [], _ => Done None
  | _ :: _, [] => Fault
  | _ :: _, s => Done (Some (until_slash s))
  end.

(** The position of the last slash, 0 if there is none. *)
Fixpoint last_slash (i last : nat) (s : list Z) : nat :=
  match s with [] => last | c :: s => last_slash (S i) (if c =? SLASH then i else last) s end.

(** [None] for an empty path.  A path without a slash loses its first character. *)
Definition ext2_path_to_parent_and_name (source : list Z) : option (list Z * list Z) :=
  match source with
  | [] => None
  | _ :: name =>
      let last := last_slash 0 0 source in
      if (last =? 0)%nat then Some ([SLASH], name)
      else Some (take last source, drop (S last) source)
  end.

(** ** Entries *)
Definition entry_at (bytes : list Z) (parsed : Z) : list Z := drop (Z.to_nat parsed) bytes.
Definition entry_inode (entry : list Z) : outcome Z := get32 0 entry.
Definition entry_rec_len (entry : list Z) : outcome Z := get16 4 entry.
Definition entry_name_len (entry : list Z) : outcome Z := known (entry !! 6%nat).

Definition align4 (x : Z) : Z := Z.land (u32 (x + 3)) (u32 (Z.lnot 3)).

(** [sizeof(struct ext2_directory_entry) + name_len - EXT2_NAME_LEN]. *)
Definition entry_size (name_len : Z) : Z := 8 + EXT2_NAME_LEN + name_len - EXT2_NAME_LEN.

(** The first eight bytes of the structure. *)
Definition entry_header (inode rec_len name_len file_type : Z) : list Z :=
  (word_bytes inode ++ [rec_len mod 256; rec_len / 256 mod 256; name_len mod 256; file_type mod 256])%list.

(** [strncmp(name, path, n) == 0] for the bytes of an entry and a string; both end the
    comparison at their terminator. *)
Fixpoint same_name (n : nat) (name path : list Z) : outcome bool :=
  match n with
  | O => Done true
  | S n =>
      c ← known (head name);
      let c' := default 0 (head path) in
      if negb (c =? c') then Done false else
      if c =? 0 then Done true else same_name n (tail name) (tail path)
  end.

Section Directories.
Context {D : Type} `{Disk D}.
Implicit Types (p : ext2_partition) (d : D).

(** A directory in a buffer, its bytes and its size, given to [use]; [failed] is the result when
    it cannot be read, [absent] when the inode is not a directory. *)
Definition load_directory {R : Type} p (ino : Z) (failed absent : R) d (use : list Z → Z → outcome R) : outcome R :=
  inode ← ext2_read_inode p ino d;
  match inode with
  | None => Done failed
  | Some inode =>
      mode ← get16 off_i_mode inode;
      if negb (Z.land mode INODE_TYPE_DIR =? 0) then
        size ← get32 off_i_size inode;
        '(r, bytes) ← ext2_read_inode_bytes p ino size 0 d;
        if r =? EXT2_READ_FAILED then Done failed else use bytes size
      else Done absent
  end.

(** One turn of a walk over the entries: [visit] leaves it with a result. *)
Definition walk_step {S R : Type} (bytes : list Z) (size : Z) (visit : Z → list Z → S → outcome (S + R)) (finish : S → R)
    (st : Z * S) : outcome ((Z * S) + R) :=
  let '(parsed, s) := st in
  if parsed <? size then
    let entry := entry_at bytes parsed in
    v ← visit parsed entry s;
    match v with
    | inr r => Done (inr r)
    | inl s => rec_len ← entry_rec_len entry;
        if rec_len =? 0 then Spin else Done (inl (u32 (parsed + rec_len), s))
    end
  else Done (inr (finish s)).

(** Entries of length at least 1 are left after at most [size] turns, unless the offset wraps. *)
Definition walk {S R : Type} (bytes : list Z) (size : Z) (visit : Z → list Z → S → outcome (S + R)) (finish : S → R) (s : S) : outcome R :=
  loop (Datatypes.S (Z.to_nat size)) (walk_step bytes size visit finish) (0, s).

(** 1 when the directory cannot be read, 0 when there is no entry. *)
Definition ext2_inode_from_path_and_parent p (parent : Z) (path : list Z) d : outcome Z :=
  load_directory p parent 1 0 d (λ bytes size,
    walk bytes size (λ parsed entry (_ : unit),
      name_len ← entry_name_len entry;
      m ← same_name (Z.to_nat name_len) (drop 8 entry) path;
      if (m : bool) then i ← entry_inode entry; Done (inr i) else Done (inl tt)) (λ _, 0) tt).

Definition ext2_path_to_inode_from p : nat → Z → list Z → D → outcome Z :=
  fix go fuel index rest d :=
    match fuel with
    | O => OutOfFuel
    | S fuel =>
        t ← next_token rest;
        match t with
        | None => Done index
        | Some (token, rest) =>
            index ← ext2_inode_from_path_and_parent p index token d;
            if index =? 0 then Done 0 else go fuel index rest d
        end
    end.

(** Every token takes a character of the path. *)
Definition ext2_path_to_inode p (path : list Z) d : outcome Z :=
  ext2_path_to_inode_from p (S (List.length path)) EXT2_ROOT_INO_INDEX path d.

(** The entry that is found is not handed to the caller; only the first entries are looked at. *)
Definition ext2_dentry_get_dentry p (parent_path name : list Z) d : outcome Z :=
  ino ← ext2_path_to_inode p parent_path d;
  if ino =? 0 then Done 1 else
  load_directory p ino 1 1 d (λ bytes size,
    walk bytes size (λ parsed entry list_count,
      if list_count <? LIST_MAX then
        i ← entry_inode entry;
        if negb (i =? 0) then
          name_len ← entry_name_len entry;
          m ← same_name (Z.to_nat name_len) (drop 8 entry) name;
          if (m : bool) then Done (inr 0) else Done (inl (list_count + 1))
        else Done (inl (list_count + 1))
      else Done (inr 1)) (λ _, 1) 0).

(** The entries in use, each as the bytes of the structure that the buffer has. *)
Definition ext2_get_all_dirs p (parent_path : list Z) d : outcome (list (list Z)) :=
  ino ← ext2_path_to_inode p parent_path d;
  if ino =? 0 then Done [] else
  load_directory p ino [] [] d (λ bytes size,
    walk bytes size (λ parsed entry entries,
      i ← entry_inode entry;
      Done (inl (if negb (i =? 0) then (entries ++ [take 263 entry])%list else entries))) id []).

(** [callback] returns whether it failed. *)
Definition ext2_operate_on_dentry p (path : list Z) (callback : Z → outcome bool) d : outcome Z :=
  ino ← ext2_path_to_inode p path d;
  if ino =? 0 then Done 0 else
  load_directory p ino 0 0 d (λ bytes size,
    walk bytes size (λ parsed entry (_ : unit),
      i ← entry_inode entry;
      stop ← callback i;
      if (stop : bool) then Done (inr 1) else Done (inl tt)) (λ _, 0) tt).

(** The entry is cleared in the buffer and its room goes to the entry before it, if there is
    one.  [previous] is the offset of that entry. *)
Definition clear_entry (bytes : list Z) (parsed : Z) (previous : option Z) : outcome (list Z) :=
  let at_ off := Z.to_nat (parsed + off) in
  rec_len ← entry_rec_len (entry_at bytes parsed);
  bytes ← put32 (at_ 0) 0 bytes;
  bytes ← put_bytes (at_ 6) [0; 0; 0] bytes;
  bytes ← match previous with
          | None => Done bytes
          | Some q => l ← entry_rec_len (entry_at bytes q); put16 (Z.to_nat (q + 4)) (u16 (l + rec_len)) bytes
          end;
  put16 (at_ 4) 0 bytes.

Definition ext2_delete_dentry p (path : list Z) d : outcome (Z * D) :=
  match ext2_path_to_parent_and_name path with
  | None => Done (1, d)
  | Some (parent_path, name) =>
      parent ← ext2_path_to_inode p parent_path d;
      if parent =? 0 then Done (1, d) else
      inode ← ext2_read_inode p parent d;
      match inode with
      | None => Done (1, d)
      | Some _ =>
          target ← ext2_path_to_inode p path d;
          if target =? 0 then Done (1, d) else
          load_directory p parent (1, d) (1, d) d (λ bytes size,
            found ← walk bytes size (λ parsed entry previous,
              i ← entry_inode entry;
              if i =? target then Done (inr (Some (parsed, previous))) else Done (inl (Some parsed))) (λ _, None) None;
            match found with
            | None => Done (1, d)
            | Some (parsed, previous) =>
                bytes ← clear_entry bytes parsed previous;
                '(r, d) ← ext2_write_inode_bytes p parent bytes size 0 d;
                if r =? EXT2_WRITE_FAILED then Done (1, d) else Done (0, d)
            end)
      end
  end.

(** The two entries of a new directory; the second ends at offset 1024. *)
Definition ext2_initialize_directory p (ino parent : Z) d : outcome (Z * D) :=
  inode ← ext2_read_inode p ino d;
  match inode with
  | None => Done (1, d)
  | Some inode =>
      size ← get32 off_i_size inode;
      let rec_len := align4 (entry_size 1) in
      '(r, bytes) ← ext2_read_inode_bytes p ino size 0 d;
      if r =? EXT2_READ_FAILED then Done (1, d) else
      buffer ← put_bytes 0 bytes (replicate (Z.to_nat (block_size p)) 0);
      buffer ← put_bytes 0 (entry_header ino rec_len 1 EXT2_DIR_TYPE_DIRECTORY ++ [46])%list buffer;
      buffer ← put_bytes (Z.to_nat rec_len) (entry_header parent (1024 - rec_len) 2 EXT2_DIR_TYPE_DIRECTORY ++ [46; 46])%list buffer;
      '(r, d) ← ext2_write_inode_bytes p ino buffer size 0 d;
      if r =? EXT2_WRITE_FAILED then Done (1, d) else Done (0, d)
  end.

(** The new entry takes the end of the room of the last one.  The offset of the last entry is
    what the walk ends with. *)
Definition add_entry (bytes : list Z) (last child : Z) (name : list Z) (type : Z) : outcome (option (list Z)) :=
  let name_len := u8 (Z.of_nat (List.length name)) in
  let entry := entry_at bytes last in
  last_len ← entry_name_len entry;
  rec_len ← entry_rec_len entry;
  let aligned := align4 (entry_size last_len) in
  if u32 (aligned + u16 (align4 (entry_size name_len))) >? rec_len then Done None else
  bytes ← put16 (Z.to_nat (last + 4)) (u16 aligned) bytes;
  bytes ← put_bytes (Z.to_nat (last + aligned)) (entry_header child (u16 (rec_len - aligned)) name_len (u8 type)) bytes;
  copied ← first_bytes name_len name;
  bytes ← put_bytes (Z.to_nat (last + aligned + 8)) copied bytes;
  Done (Some bytes).

Definition ext2_create_directory_entry p (ino child : Z) (name : list Z) (type : Z) d : outcome (Z * D) :=
  load_directory p ino (1, d) (1, d) d (λ bytes size,
    last ← walk bytes size (λ parsed entry (_ : option Z), Done (inl (Some parsed))) id None;
    match last with
    | None => Done (1, d)
    | Some last =>
        r ← add_entry bytes last child name type;
        match r with
        | None => Done (1, d)
        | Some bytes =>
            '(r, d) ← ext2_write_inode_bytes p ino bytes size 0 d;
            if r =? EXT2_WRITE_FAILED then Done (1, d) else Done (0, d)
        end
    end).
End Directories.
