(* ===== verification/Ext2DirSpec.v ===== *)
(** * Directories as lists of entries

    The bytes of a directory are the entries one after the other.  A lookup returns the inode of
    the first entry whose name is a prefix of the name looked for; a new entry is added behind
    the last, and a deleted one disappears. *)
From S2P Require Import Prelude Ext2Block Ext2Disk Ext2Inode Ext2Spec Ext2File Ext2FileSpec Ext2Dir.
#[local] Open Scope Z_scope.

(** ** Entries *)
(** An entry, with the bytes behind its name that belong to it. *)
Record dentry := Dentry { de_inode : Z; de_type : Z; de_name : list Z; de_rest : list Z }.

Definition de_rec (e : dentry) : Z := 8 + Z.of_nat (List.length (de_name e)) + Z.of_nat (List.length (de_rest e)).

Definition de_bytes (e : dentry) : list Z :=
  (entry_header (de_inode e) (de_rec e) (Z.of_nat (List.length (de_name e))) (de_type e) ++ de_name e ++ de_rest e)%list.

Record de_ok (e : dentry) : Prop := {
  do_inode : 0 < de_inode e < 2 ^ 32;
  do_rec : de_rec e < 2 ^ 16;
  do_name : 0 < Z.of_nat (List.length (de_name e)) < 256;
  do_chars : Forall (λ c, c ≠ 0) (de_name e);
}.

Definition dir_bytes (es : list dentry) : list Z := mbind de_bytes es.

Lemma dir_bytes_app es1 es2 : dir_bytes (es1 ++ es2) = (dir_bytes es1 ++ dir_bytes es2)%list.
Proof. apply bind_app. Qed.

Lemma dir_bytes_cons e es : dir_bytes (e :: es) = (de_bytes e ++ dir_bytes es)%list.
Proof. done. Qed.

Lemma word_bytes_length v : List.length (word_bytes v) = 4%nat.
Proof. done. Qed.

Lemma header_length i r l t : List.length (entry_header i r l t) = 8%nat.
Proof. done. Qed.

Lemma de_bytes_length e : Z.of_nat (List.length (de_bytes e)) = de_rec e.
Proof. unfold de_bytes, de_rec. rewrite !length_app, header_length. lia. Qed.

(** ** The fields of an entry *)
Section Fields.
Variables (e : dentry) (tail : list Z).
Hypothesis Hok : de_ok e.

Lemma entry_inode_ok : entry_inode (de_bytes e ++ tail) = Done (de_inode e).
Proof.
  destruct Hok as [Hi _ _ _]. unfold entry_inode, get32, get16, de_bytes, entry_header, word_bytes. cbn. f_equal. dlia.
Qed.

Lemma entry_rec_len_ok : entry_rec_len (de_bytes e ++ tail) = Done (de_rec e).
Proof.
  destruct Hok as [_ Hr _ _]. assert (0 ≤ de_rec e) by (unfold de_rec; lia).
  unfold entry_rec_len, get16, de_bytes, entry_header, word_bytes. cbn [app lookup list_lookup known]. rewrite !bind_done. f_equal. dlia.
Qed.

Lemma entry_name_len_ok : entry_name_len (de_bytes e ++ tail) = Done (Z.of_nat (List.length (de_name e))).
Proof.
  destruct Hok as [_ _ Hn _]. unfold entry_name_len, de_bytes, entry_header, word_bytes. cbn [app lookup list_lookup known].
  by rewrite Z.mod_small by lia.
Qed.

Lemma entry_name_ok : drop 8 (de_bytes e ++ tail) = (de_name e ++ de_rest e ++ tail)%list.
Proof. unfold de_bytes. rewrite <- !app_assoc. by rewrite (drop_app_length' _ _ 8). Qed.

Lemma de_rec_pos : 8 < de_rec e.
Proof. destruct Hok as [_ _ Hn _]. unfold de_rec. lia. Qed.
End Fields.

(** Comparing a name of an entry is looking for a prefix. *)
Lemma same_name_ok name more path :
  Forall (λ c, c ≠ 0) name → same_name (List.length name) (name ++ more) path = Done (bool_decide (name `prefix_of` path)).
Proof.
  intros Hn. revert path. induction Hn as [|c name Hc _ IH]; intros path; cbn [same_name List.length app head tail known].
  { rewrite bool_decide_true; [done|apply prefix_nil]. }
  rewrite bind_done. cbv zeta. destruct path as [|c' path]; cbn [head default from_option id].
  - rewrite (proj2 (Z.eqb_neq c 0)) by done. cbn [negb]. by rewrite bool_decide_false by (intros ?%prefix_nil_inv; done).
  - destruct (Z.eqb_spec c c') as [<-|Hne]; cbn [negb].
    + rewrite (proj2 (Z.eqb_neq c 0)), IH by done. f_equal. apply bool_decide_ext. cbn [tail]. split; [apply prefix_cons|].
      intros [k E]. exists k. by injection E.
    + rewrite bool_decide_false; [done|]. intros [k E]. by injection E.
Qed.

(** ** Walking *)
Section Walk.
Context {S R : Type} (visit : Z → list Z → S → outcome (S + R)) (finish : S → R).

(** The walk as a recursion over the entries. *)
Fixpoint walk_list (off : Z) (es : list dentry) (s : S) : outcome R :=
  match es with
  | [] => Done (finish s)
  | e :: es =>
      v ← visit off (de_bytes e ++ dir_bytes es) s;
      match v with inr r => Done r | inl s => walk_list (off + de_rec e) es s end
  end.

Lemma walk_ok es s :
  Forall de_ok es → Z.of_nat (List.length (dir_bytes es)) < 2 ^ 32 →
  walk (dir_bytes es) (Z.of_nat (List.length (dir_bytes es))) visit finish s = walk_list 0 es s.
Proof.
  intros Hes Hsz. unfold walk.
  cut (∀ es' pre s fuel, dir_bytes es = (pre ++ dir_bytes es')%list → Forall de_ok es' →
    (List.length (dir_bytes es') < fuel)%nat →
    loop fuel (walk_step (dir_bytes es) (Z.of_nat (List.length (dir_bytes es))) visit finish) (Z.of_nat (List.length pre), s) =
    walk_list (Z.of_nat (List.length pre)) es' s).
  { intros Hc. apply (Hc es [] s); [done|done|lia]. }
  clear s Hes. set (bytes := dir_bytes es) in *. clearbody bytes. intros es'. induction es' as [|e es' IH]; intros pre s fuel Eb Hes Hf.
  - destruct fuel as [|fuel]; [lia|]. cbn [loop]. unfold walk_step. rewrite (proj2 (Z.ltb_ge _ _)).
    + done.
    + rewrite Eb, length_app. cbn. lia.
  - inversion Hes as [|? ? He Hes']; subst. pose proof (de_bytes_length e) as Hl. pose proof (de_rec_pos e He) as Hp.
    destruct fuel as [|fuel]; [lia|]. rewrite dir_bytes_cons, !length_app in *. cbn [loop]. unfold walk_step at 2.
    rewrite (proj2 (Z.ltb_lt _ _)) by lia. unfold entry_at. rewrite Nat2Z.id, drop_app_length. cbn [walk_list].
    destruct (visit (Z.of_nat (List.length pre)) (de_bytes e ++ dir_bytes es') s) as [[s'|r]| | | |]; rewrite ?bind_done; try done.
    rewrite entry_rec_len_ok, !bind_done, (proj2 (Z.eqb_neq _ _)), u32_small by (done || lia).
    replace (Z.of_nat (List.length pre) + de_rec e) with (Z.of_nat (List.length (pre ++ de_bytes e))) by (rewrite length_app; lia).
    apply IH; [by rewrite <- app_assoc|done|lia].
Qed.
End Walk.

(** ** Lookup *)
Fixpoint lookup_in (es : list dentry) (path : list Z) : Z :=
  match es with
  | [] => 0
  | e :: es => if bool_decide (de_name e `prefix_of` path) then de_inode e else lookup_in es path
  end.

Lemma lookup_in_app es1 es2 path :
  Forall de_ok es1 → lookup_in (es1 ++ es2) path = if lookup_in es1 path =? 0 then lookup_in es2 path else lookup_in es1 path.
Proof.
  induction 1 as [|e es1 He _ IH]; [done|]. cbn [app lookup_in]. case_bool_decide; [|done].
  destruct He as [Hi _ _ _]. by rewrite (proj2 (Z.eqb_neq _ _)) by lia.
Qed.

(** ** Stores in a split buffer *)
Lemma put_split (off : nat) (v a b c l : list Z) :
  l = (a ++ b ++ c)%list → off = List.length a → List.length v = List.length b → put_bytes off v l = Done (a ++ v ++ c)%list.
Proof.
  intros -> -> Hv. unfold put_bytes. rewrite (proj2 (Nat.ltb_ge _ _)) by (rewrite !length_app; lia).
  rewrite take_app_length. do 3 f_equal. rewrite app_assoc, drop_app_length' by (rewrite length_app; lia). done.
Qed.

Lemma align4_ok x : 0 ≤ x < 2 ^ 31 → align4 x = 4 * ((x + 3) / 4).
Proof.
  intros Hx. unfold align4. rewrite u32_small by lia. change (u32 (Z.lnot 3)) with (Z.shiftl (Z.ones 30) 2).
  rewrite Z.mul_comm. change 4 with (2 ^ 2). rewrite <- Z.shiftl_mul_pow2, <- Z.shiftr_div_pow2 by lia.
  apply Z.bits_inj'. intros i Hi. rewrite Z.land_spec, !Z.shiftl_spec by lia.
  destruct (decide (i < 2)); [rewrite !(Z.testbit_neg_r _ (i - 2)) by lia; apply andb_false_r|].
  rewrite Z.shiftr_spec by lia. replace (i - 2 + 2) with i by lia. destruct (decide (i < 32)).
  - rewrite Z.ones_spec_low by lia. apply andb_true_r.
  - rewrite Z.ones_spec_high by lia. rewrite andb_false_r. symmetry. apply (testbit_of_high 32); lia.
Qed.

(** ** Adding and clearing an entry in the buffer *)
Definition room (len : Z) : Z := 4 * ((8 + len + 3) / 4).

(** The last entry [e] keeps the room of its name, the new one takes what is behind it. *)
Definition shrunk (e : dentry) : dentry :=
  Dentry (de_inode e) (de_type e) (de_name e)
    (take (Z.to_nat (room (Z.of_nat (List.length (de_name e))) - 8 - Z.of_nat (List.length (de_name e)))) (de_rest e)).
Definition added (e : dentry) (child type : Z) (name : list Z) : dentry :=
  Dentry child (u8 type) name
    (drop (Z.to_nat (room (Z.of_nat (List.length (de_name e))) + 8 + Z.of_nat (List.length name) - 8 - Z.of_nat (List.length (de_name e)))) (de_rest e)).

Lemma room_bound len : 0 ≤ len → 8 + len ≤ room len < 12 + len.
Proof. intros. unfold room. dlia. Qed.

(** The room is enough for the name of the last entry, so the rest of it has three parts. *)
Lemma split_rest e name (a := room (Z.of_nat (List.length (de_name e)))) :
  a + room (Z.of_nat (List.length name)) ≤ de_rec e →
  ∃ r1 h r3, de_rest e = (r1 ++ h ++ r3)%list ∧ 8 + Z.of_nat (List.length (de_name e)) + Z.of_nat (List.length r1) = a ∧
    Z.of_nat (List.length h) = 8 + Z.of_nat (List.length name) ∧
    de_rest (shrunk e) = r1 ∧ ∀ child type, de_rest (added e child type name) = r3.
Proof.
  intros Hfit. pose proof (room_bound (Z.of_nat (List.length (de_name e)))). pose proof (room_bound (Z.of_nat (List.length name))).
  unfold de_rec in Hfit. cbn [shrunk added de_rest].
  exists (take (Z.to_nat (a - 8 - Z.of_nat (List.length (de_name e)))) (de_rest e)),
    (take (8 + List.length name) (drop (Z.to_nat (a - 8 - Z.of_nat (List.length (de_name e)))) (de_rest e))),
    (drop (8 + List.length name) (drop (Z.to_nat (a - 8 - Z.of_nat (List.length (de_name e)))) (de_rest e))).
  fold a. split; [by rewrite !take_drop|]. rewrite !length_take, length_drop. split; [lia|]. split; [lia|]. split; [done|].
  intros _ _. rewrite drop_drop. f_equal. lia.
Qed.

Lemma added_rec e child type name :
  room (Z.of_nat (List.length (de_name e))) + room (Z.of_nat (List.length name)) ≤ de_rec e →
  de_rec (shrunk e) = room (Z.of_nat (List.length (de_name e))) ∧
  de_rec (added e child type name) = de_rec e - room (Z.of_nat (List.length (de_name e))).
Proof.
  intros Hfit. destruct (split_rest e name Hfit) as (r1 & h & r3 & E & L1 & L2 & E1 & E3).
  unfold de_rec at 1 2. rewrite E1, E3. cbn [shrunk added de_name]. unfold de_rec. rewrite E, !length_app. lia.
Qed.

Lemma add_entry_ok es e child type name :
  Forall de_ok es → de_ok e → 0 < Z.of_nat (List.length name) < 256 → 
  add_entry (dir_bytes (es ++ [e])) (Z.of_nat (List.length (dir_bytes es))) child name type =
  if decide (room (Z.of_nat (List.length (de_name e))) + room (Z.of_nat (List.length name)) ≤ de_rec e)
  then Done (Some (dir_bytes (es ++ [shrunk e; added e child type name]))) else Done None.
Proof.
  intros Hes He Hn. pose proof (do_rec e He) as Hr. pose proof (do_name e He) as Hen.
  pose proof (room_bound (Z.of_nat (List.length (de_name e))) ltac:(lia)) as R1.
  pose proof (room_bound (Z.of_nat (List.length name)) ltac:(lia)) as R2.
  unfold add_entry, entry_at. rewrite Nat2Z.id, dir_bytes_app, drop_app_length, dir_bytes_cons. cbn [dir_bytes mbind list_bind].
  rewrite entry_name_len_ok, entry_rec_len_ok, !bind_done by done. cbv zeta. rewrite (u8_small (Z.of_nat (List.length name))) by lia.
  unfold entry_size, EXT2_NAME_LEN. replace (8 + 255 + Z.of_nat (List.length (de_name e)) - 255) with (8 + Z.of_nat (List.length (de_name e))) by lia.
  replace (8 + 255 + Z.of_nat (List.length name) - 255) with (8 + Z.of_nat (List.length name)) by lia.
  rewrite !align4_ok by lia. fold (room (Z.of_nat (List.length (de_name e)))) (room (Z.of_nat (List.length name))).
  set (a := room (Z.of_nat (List.length (de_name e)))) in *. set (c := room (Z.of_nat (List.length name))) in *.
  rewrite (u16_small c), (u32_small (a + c)) by lia. destruct (Z.gtb_spec (a + c) (de_rec e)) as [Hgt|Hle].
  { by rewrite decide_False by lia. }
  rewrite decide_True by done. destruct (split_rest e name Hle) as (r1 & h & r3 & E & L1 & L2 & E1 & E3). fold a in L1.
  destruct (added_rec e child type name Hle) as [Ra Rb]. fold a in Ra, Rb.
  rewrite (u16_small a), (u16_small (de_rec e - a)) by lia.
  set (pre := dir_bytes es). set (l := Z.of_nat (List.length (de_name e))) in *.
  set (h1 := firstn 8 h). set (h2 := skipn 8 h). assert (Eh : h = (h1 ++ h2)%list) by (symmetry; apply take_drop).
  assert (Lh1 : List.length h1 = 8%nat) by (subst h1; rewrite length_take; lia).
  assert (Lh2 : List.length h2 = List.length name) by (subst h2; rewrite length_drop; lia).
  unfold put16. rewrite (put_split _ _ (pre ++ word_bytes (de_inode e)) [de_rec e mod 256; de_rec e / 256 mod 256]
    ([l mod 256; de_type e mod 256] ++ de_name e ++ de_rest e)%list); [|by unfold de_bytes, entry_header; rewrite app_nil_r, <- !app_assoc|rewrite length_app; cbn; lia|done].
  rewrite bind_done. rewrite (put_split _ _ (pre ++ entry_header (de_inode e) a l (de_type e) ++ de_name e ++ r1) h1 (h2 ++ r3)%list);
    [|rewrite E, Eh; unfold entry_header; rewrite <- !app_assoc; done|rewrite !length_app, header_length; lia|by rewrite header_length, Lh1].
  rewrite bind_done. unfold first_bytes. rewrite (proj2 (Z.ltb_ge _ _)), bind_done, Nat2Z.id, take_ge by lia.
  rewrite (put_split _ _ (pre ++ entry_header (de_inode e) a l (de_type e) ++ de_name e ++ r1 ++
      entry_header child (de_rec e - a) (Z.of_nat (List.length name)) (u8 type)) h2 r3);
    [|rewrite <- !app_assoc; done|rewrite !length_app, !header_length; lia|done].
  rewrite bind_done, dir_bytes_app, !dir_bytes_cons. cbn [dir_bytes mbind list_bind]. fold pre. do 2 f_equal.
  unfold de_bytes. rewrite Ra, Rb, E1, E3. cbn [shrunk added de_inode de_type de_name]. fold l. by rewrite <- !app_assoc, app_nil_r.
Qed.

(** The entry before a deleted one, with the room of both. *)
Definition merged (e0 e : dentry) : dentry :=
  Dentry (de_inode e0) (de_type e0) (de_name e0) (de_rest e0 ++ replicate 9 0 ++ tail (de_name e) ++ de_rest e).

Lemma merged_rec e0 e : de_ok e → de_rec (merged e0 e) = de_rec e0 + de_rec e.
Proof.
  intros [_ _ Hn _]. unfold de_rec. cbn [merged de_name de_rest]. rewrite !length_app, length_replicate.
  destruct (de_name e); cbn in *; lia.
Qed.

Lemma clear_entry_ok es1 e0 e es2 (q := Z.of_nat (List.length (dir_bytes es1))) :
  de_ok e0 → de_ok e → de_rec e0 + de_rec e < 2 ^ 16 →
  clear_entry (dir_bytes (es1 ++ e0 :: e :: es2)) (q + de_rec e0) (Some q) = Done (dir_bytes (es1 ++ merged e0 e :: es2)).
Proof.
  intros H0 He Hsum. pose proof (de_bytes_length e0) as L0. pose proof (de_bytes_length e) as L1. pose proof (de_rec_pos e0 H0).
  destruct (de_name e) as [|c name] eqn:En; [destruct He as [_ _ Hn _]; rewrite En in Hn; cbn in Hn; lia|].
  unfold clear_entry, entry_at. rewrite !dir_bytes_app, !dir_bytes_cons. set (pre := dir_bytes es1) in *. set (post := dir_bytes es2).
  assert (Lq : Z.to_nat q = List.length pre) by (subst q; lia).
  assert (Lp : Z.to_nat (q + de_rec e0) = List.length (pre ++ de_bytes e0)) by (rewrite length_app; lia).
  rewrite Lp, app_assoc, drop_app_length, entry_rec_len_ok, bind_done by done.
  assert (Eb : de_bytes e = (word_bytes (de_inode e) ++ [de_rec e mod 256; de_rec e / 256 mod 256] ++
    [Z.of_nat (List.length (de_name e)) mod 256; de_type e mod 256; c] ++ name ++ de_rest e)%list).
  { unfold de_bytes, entry_header. rewrite En at 2. by rewrite <- !app_assoc. }
  rewrite Eb. unfold put32, put16.
  rewrite (put_split _ _ (pre ++ de_bytes e0) (word_bytes (de_inode e))
    (([de_rec e mod 256; de_rec e / 256 mod 256] ++ [Z.of_nat (List.length (de_name e)) mod 256; de_type e mod 256; c] ++ name ++ de_rest e) ++ post)%list);
    [|by rewrite <- !app_assoc|rewrite length_app; lia|done].
  rewrite bind_done.
  rewrite (put_split _ _ (pre ++ de_bytes e0 ++ word_bytes 0 ++ [de_rec e mod 256; de_rec e / 256 mod 256])
    [Z.of_nat (List.length (de_name e)) mod 256; de_type e mod 256; c] ((name ++ de_rest e) ++ post)%list);
    [|by rewrite <- !app_assoc|rewrite !length_app, word_bytes_length; cbn [List.length]; lia|done].
  rewrite bind_done, Lq. rewrite <- !app_assoc, drop_app_length, entry_rec_len_ok, !bind_done by done.
  unfold de_bytes at 1, entry_header at 1. rewrite u16_small by (unfold de_rec in *; lia).
  rewrite (put_split _ _ (pre ++ word_bytes (de_inode e0)) [de_rec e0 mod 256; de_rec e0 / 256 mod 256]
    (([Z.of_nat (List.length (de_name e0)) mod 256; de_type e0 mod 256] ++ de_name e0 ++ de_rest e0) ++ word_bytes 0 ++
      [de_rec e mod 256; de_rec e / 256 mod 256] ++ [0; 0; 0] ++ name ++ de_rest e ++ post)%list);
    [|by rewrite <- !app_assoc|rewrite length_app, word_bytes_length; lia|done].
  rewrite bind_done. fold q.
  rewrite (put_split _ _ (pre ++ entry_header (de_inode e0) (de_rec e0 + de_rec e) (Z.of_nat (List.length (de_name e0))) (de_type e0) ++
      de_name e0 ++ de_rest e0 ++ word_bytes 0) [de_rec e mod 256; de_rec e / 256 mod 256]
    ([0; 0; 0] ++ name ++ de_rest e ++ post)%list);
    [|unfold entry_header; by rewrite <- !app_assoc|unfold de_rec in *; rewrite !length_app, header_length, word_bytes_length; lia|done].
  f_equal. unfold de_bytes. rewrite merged_rec by done. cbn [merged de_inode de_type de_name de_rest]. rewrite En. by rewrite <- !app_assoc.
Qed.

(** ** Directories on a partition *)
Section Directories.
Context {D : Type} `{DiskOk D}.
Implicit Types (p : ext2_partition) (d : D).

(** Inode [ino] is a directory with the entries [es], in whole blocks that are all direct. *)
Record directory p n d (ino b off : Z) (P F : list Z) (k : Z) (es : list dentry) : Prop := {
  dr_file : file p n d ino b off P F;
  dr_mode : ∃ mode, get16 off_i_mode (inode_at p d b off) = Done mode ∧ Z.land mode INODE_TYPE_DIR ≠ 0;
  dr_size : get32 off_i_size (inode_at p d b off) = Done (k * block_size p);
  dr_range : k * block_size p < 2 ^ 32;
  dr_blocks : 0 < k ≤ 12 ∧ k ≤ Z.of_nat (List.length F);
  dr_contents : contents p d (take (Z.to_nat k) F) = dir_bytes es;
  dr_entries : Forall de_ok es;
}.

Lemma whole_blocks k bs : 0 < bs → 0 < k → DIVIDE_ROUNDED_UP (k * bs) bs = k.
Proof. intros Hb Hk. unfold DIVIDE_ROUNDED_UP. rewrite Z.mod_mul by lia. cbn. apply Z.div_mul. lia. Qed.

Lemma first_blocks_length p n d d' ino b off P F k :
  geometry p d' n → file p n d ino b off P F → 0 ≤ k ≤ Z.of_nat (List.length F) →
  Z.of_nat (List.length (contents p d' (take (Z.to_nat k) F))) = k * block_size p.
Proof.
  intros Hg Hf Hk. rewrite (contents_length p d' n _ Hg).
  - rewrite upto_take by lia. unfold upto. by rewrite Z.min_l by lia.
  - rewrite <- (drop_0 F). apply (file_range p d n ino b off P F Hf).
Qed.

Lemma directory_length p n d ino b off P F k es :
  geometry p d n → directory p n d ino b off P F k es → Z.of_nat (List.length (dir_bytes es)) = k * block_size p.
Proof.
  intros Hg [Hf _ _ _ [Hk HkF] Hc _]. rewrite <- Hc.
  apply (first_blocks_length p n d d ino b off P F); [done|done|lia].
Qed.

Lemma not_a_code p d n k c : geometry p d n → c mod 4 ≠ 0 → k * block_size p ≠ c.
Proof.
  intros Hg Hc E. apply Hc. rewrite <- E. pose proof (ge_words _ _ _ Hg) as Hw. rewrite Z.mul_mod, Hw, Z.mul_0_r by lia. done.
Qed.

(** A routine that loads a directory works on its entries. *)
Lemma load_ok {R : Type} p n d ino b off P F k es (failed absent : R) use :
  geometry p d n → tables_ok p n → directory p n d ino b off P F k es →
  load_directory p ino failed absent d use = use (dir_bytes es) (Z.of_nat (List.length (dir_bytes es))).
Proof.
  intros Hg Ht Hd. pose proof (directory_length _ _ _ _ _ _ _ _ _ _ Hg Hd) as Hl.
  destruct Hd as [Hf (mode & Em & Hm) Es Hr [Hk HkF] Hc He]. pose proof (geometry_block _ _ _ Hg) as Hbs.
  unfold load_directory. rewrite (read_inode_ok p d n ino b off), bind_done by (done || apply Hf). rewrite Em, bind_done.
  rewrite (proj2 (Z.eqb_neq _ _)) by done. cbn [negb]. rewrite Es, bind_done.
  assert (Hk' := whole_blocks k (block_size p) Hbs ltac:(lia)).
  rewrite (read_bytes_ok p d n ino b off P F); rewrite ?Hk', ?Z.div_0_l, ?Z.mod_0_l by lia; try done; try lia; try nia.
  rewrite bind_done, (proj2 (Z.eqb_neq _ _)) by (by apply (not_a_code p d n)). change (Z.to_nat 0) with 0%nat. rewrite drop_0, Hc, Hl.
  by rewrite take_ge by lia.
Qed.

(** Writing entries of the same length back. *)
Lemma save_ok p n d ino b off P F k es es' :
  geometry p d n → tables_ok p n → directory p n d ino b off P F k es → Forall de_ok es' →
  List.length (dir_bytes es') = List.length (dir_bytes es) →
  ∃ d', ext2_write_inode_bytes p ino (dir_bytes es') (Z.of_nat (List.length (dir_bytes es))) 0 d = Done (k * block_size p, d') ∧
    geometry p d' n ∧ directory p n d' ino b off P F k es' ∧
    ∀ c, 0 ≤ c < n → c ∉ F → block_at p d' c = block_at p d c.
Proof.
  intros Hg Ht Hd He' Elen. pose proof (directory_length _ _ _ _ _ _ _ _ _ _ Hg Hd) as Hl.
  destruct Hd as [Hf Hmode Es Hr [Hk HkF] Hc He]. pose proof (geometry_block _ _ _ Hg) as Hbs.
  assert (Hk' := whole_blocks k (block_size p) Hbs ltac:(lia)). rewrite Hl.
  destruct (write_bytes_ok p d n ino b off P F (dir_bytes es') (k * block_size p) 0) as (d' & E & Hg' & Hf' & Hcont & Hsame);
    rewrite ?Hk', ?Z.div_0_l, ?Z.mod_0_l by lia; try done; try lia; try nia.
  rewrite Hk', Z.div_0_l in Hcont, Hsame by lia. change (Z.to_nat 0) with 0%nat in Hcont, Hsame. rewrite drop_0 in Hcont, Hsame.
  assert (Hout : ∀ c, 0 ≤ c < n → c ∉ F → block_at p d' c = block_at p d c).
  { intros c Hcn Hnin. apply Hsame; [done|]. by intros ?%elem_of_taken. }
  exists d'. split; [done|]. split; [done|]. split; [|done].
  assert (Hin : inode_at p d' b off = inode_at p d b off).
  { unfold inode_at. f_equal. f_equal. destruct (i_block_length p n d ino b off Hg Ht (fl_number _ _ _ _ _ _ _ _ Hf) (fl_size _ _ _ _ _ _ _ _ Hf) (fl_located _ _ _ _ _ _ _ _ Hf)) as [Hb _].
    apply Hout; [lia|]. pose proof (fl_apart _ _ _ _ _ _ _ _ Hf). set_solver. }
  split; rewrite ?Hin; try done.
  pose proof (first_blocks_length p n d d' ino b off P F k Hg' Hf ltac:(lia)) as Hl'.
  rewrite (take_ge (contents _ _ _)), (take_ge (dir_bytes es')) in Hcont by lia. exact Hcont.
Qed.

(** A lookup returns the inode of the first entry whose name is a prefix. *)
Lemma lookup_ok p n d ino b off P F k es path :
  geometry p d n → tables_ok p n → directory p n d ino b off P F k es →
  ext2_inode_from_path_and_parent p ino path d = Done (lookup_in es path).
Proof.
  intros Hg Ht Hd. unfold ext2_inode_from_path_and_parent. rewrite (load_ok p n d ino b off P F k es) by done.
  pose proof (directory_length _ _ _ _ _ _ _ _ _ _ Hg Hd) as Hl. destruct Hd as [_ _ _ Hr _ _ He].
  rewrite walk_ok by (done || lia). clear Hl Ht Hr.
  match goal with |- walk_list ?v ?f _ _ _ = _ => cut (∀ i, walk_list v f i es tt = Done (lookup_in es path)); [by intros Hc|] end.
  induction He as [|e es He _ IH]; intros i; [done|]. cbn [walk_list lookup_in].
  rewrite entry_name_len_ok, bind_done, Nat2Z.id, entry_name_ok, same_name_ok, bind_done by (done || apply He).
  case_bool_decide; [by rewrite entry_inode_ok, !bind_done by done|]. rewrite bind_done. apply IH.
Qed.

Lemma walk_last es e i s :
  walk_list (λ parsed entry (_ : option Z), Done (inl (Some parsed))) (id (A := option Z)) i (es ++ [e]) s =
  Done (Some (i + Z.of_nat (List.length (dir_bytes es)))).
Proof.
  revert i s. induction es as [|e' es IH]; intros i s; cbn [app walk_list]; rewrite bind_done.
  - cbn. by rewrite Z.add_0_r.
  - rewrite IH, dir_bytes_cons, length_app. pose proof (de_bytes_length e'). do 2 f_equal. lia.
Qed.


(** The search of [ext2_delete_dentry], for an entry that another one precedes. *)
Lemma walk_delete es1 e0 e es2 target i s :
  Forall de_ok (es1 ++ e0 :: e :: es2) → de_inode e = target → Forall (λ x, de_inode x ≠ target) (es1 ++ [e0]) →
  walk_list (λ parsed entry previous, i ← entry_inode entry;
      if i =? target then Done (inr (Some (parsed, previous))) else Done (inl (Some parsed))) (λ _, None) i (es1 ++ e0 :: e :: es2) s =
  Done (Some (i + Z.of_nat (List.length (dir_bytes es1)) + de_rec e0, Some (i + Z.of_nat (List.length (dir_bytes es1))))).
Proof.
  intros Hok Et Hne. revert i s. induction es1 as [|e' es1 IH]; intros i s; cbn [app walk_list] in *;
    apply Forall_cons in Hok as [Hk Hok]; apply Forall_cons in Hne as [Hn Hne].
  - apply Forall_cons in Hok as [Hke _]. rewrite !entry_inode_ok, !bind_done, (proj2 (Z.eqb_neq _ _)), !bind_done, (proj2 (Z.eqb_eq _ _)) by done.
    rewrite bind_done. cbn. by rewrite Z.add_0_r.
  - rewrite entry_inode_ok, !bind_done, (proj2 (Z.eqb_neq _ _)), bind_done, IH by done. rewrite dir_bytes_cons, length_app.
    pose proof (de_bytes_length e'). replace (i + de_rec e' + Z.of_nat (List.length (dir_bytes es1))) with
      (i + Z.of_nat (List.length (de_bytes e') + List.length (dir_bytes es1))) by lia. done.
Qed.

Lemma lookup_in_merged es1 e0 e es2 path :
  lookup_in (es1 ++ merged e0 e :: es2) path = lookup_in (es1 ++ e0 :: es2) path.
Proof. induction es1 as [|e' es1 IH]; [done|]. cbn [app lookup_in]. by rewrite IH. Qed.

End Directories.

(** ** A directory on the small partition
    Inode 2 is a directory of one block with given entries, inode 5 a file of one block. *)
Definition root_entries : list dentry := [Dentry 2 2 [46] [0; 0; 0]; Dentry 2 2 [46; 46] (replicate 1002 0)].
Definition full_entries : list dentry :=
  [Dentry 2 2 [46] [0; 0; 0]; Dentry 2 2 [46; 46] [0; 0]; Dentry 5 1 [97; 98] (replicate 990 0)].

Definition dir_disk (es : list dentry) : ram_disk :=
  let l := dir_bytes es in
  Ram (λ a,
    if (20480 <=? a) && (a <? 21504) then default 0 (l !! Z.to_nat (a - 20480))
    else default 0 (([0xED; 0x41; 0; 0; 0; 4; 0; 0] ++ replicate 32 0 ++ [20] ++ replicate 343 0 ++
                     [0xA4; 0x81; 0; 0; 0; 4; 0; 0] ++ replicate 32 0 ++ [21]) !! Z.to_nat (a - 8320))).

Lemma dir_disk_pointers es : i_block (inode_at small_part (dir_disk es) 8 128) = (20 :: replicate 14 0).
Proof. by vm_compute. Qed.

Lemma dir_disk_file es : file small_part 4096 (dir_disk es) 2 8 128 [] [20].
Proof.
  split; [split; [done|vm_compute; lia]|done| | |apply NoDup_singleton|set_solver].
  - split; [|done]. intros g Eg. injection Eg as <-. done.
  - rewrite dir_disk_pointers. by apply single_block_map.
Qed.

Lemma dir_disk_directory es :
  contents small_part (dir_disk es) [20] = dir_bytes es → Forall de_ok es →
  directory small_part 4096 (dir_disk es) 2 8 128 [] [20] 1 es.
Proof.
  intros Ec Hok. split; [apply dir_disk_file| | |done|done|exact Ec|exact Hok].
  - exists 0x41ED. by vm_compute.
  - by vm_compute.
Qed.

Lemma root_entries_ok : Forall de_ok root_entries.
Proof. repeat constructor; done. Qed.

Lemma full_entries_ok : Forall de_ok full_entries.
Proof. repeat constructor; done. Qed.

Lemma root_contents : contents small_part (dir_disk root_entries) [20] = dir_bytes root_entries.
Proof. by vm_compute. Qed.

Lemma full_contents : contents small_part (dir_disk full_entries) [20] = dir_bytes full_entries.
Proof. by vm_compute. Qed.

(** "." and "./ab" in the directory. *)
Lemma full_paths :
  ext2_path_to_inode small_part [47; 46] (dir_disk full_entries) = Done 2 ∧
  ext2_path_to_inode small_part [47; 46; 47; 97; 98] (dir_disk full_entries) = Done 5.
Proof. split; by vm_compute. Qed.


