(* ===== verification/Ext2Fs.v ===== *)
(** * The ext2 file system (src/src/vfs/generic/ext2/ext2.c, ext2_partition.c, ext2_bg.c, ext2_sb.c, ext2_integrity.c)

    Mounting a partition, writing its superblock and descriptors back, and the operations on
    files by path.  The superblock and the descriptor table are kept as the bytes that were
    read, with the counters the driver changes stored over them.  Descriptors past the number
    of groups are not used; using one is a fault. *)
From S2P Require Import Prelude Ext2Block Ext2Inode Ext2Dir.
#[local] Open Scope Z_scope.

Definition EXT2_RESULT_ERROR : Z := 0.
Definition EXT2_RESULT_OK : Z := 1.
Definition EXT2_FILE_TYPE_DIRECTORY : Z := 2.
Definition SB_OFFSET_LBA : Z := 2.
Definition EXT2_SUPER_MAGIC : Z := 0xEF53.

(** Directory entry type and inode type of each file type. *)
Definition file_type_translator : list (Z * Z) :=
  [(0, 0); (1, 0x8000); (2, 0x4000); (3, 0x2000); (4, 0x6000); (5, 0x1000); (6, 0xC000); (7, 0xA000)].

(** The part of [struct ext2_partition] that only mounting and flushing use. *)
Record ext2_mount := Mount {
  mt_sb : list Z; mt_gd : list Z; mt_backup_bgs : list Z; mt_backup_bgs_count : Z; mt_sb_block : Z; mt_bgdt_block : Z;
}.

(** ** The structures in memory *)
Definition bgd_size : Z := 32.

Definition sb_bytes (mt : ext2_mount) (p : ext2_partition) : outcome (list Z) :=
  l ← put32 12 (s_free_blocks_count (pt_sb p)) (mt_sb mt);
  put32 16 (s_free_inodes_count (pt_sb p)) l.

Fixpoint gd_bytes (off : nat) (gd : list ext2_block_group_descriptor) (l : list Z) : outcome (list Z) :=
  match gd with
  | [] => Done l
  | g :: gd =>
      l ← put16 (off + 12) (bg_free_blocks_count g) l;
      l ← put16 (off + 14) (bg_free_inodes_count g) l;
      l ← put16 (off + 16) (bg_used_dirs_count g) l;
      gd_bytes (off + 32) gd l
  end.

(** The fields of a descriptor and of a superblock. *)
Definition parse_bgd (l : list Z) : outcome ext2_block_group_descriptor :=
  bb ← get32 0 l; ib ← get32 4 l; it ← get32 8 l;
  fb ← get16 12 l; fi ← get16 14 l; ud ← get16 16 l;
  Done (Bgd bb ib it fb fi ud).

Fixpoint parse_gd (n : nat) (l : list Z) : outcome (list ext2_block_group_descriptor) :=
  match n with
  | O => Done []
  | S n => g ← parse_bgd l; gs ← parse_gd n (drop 32 l); Done (g :: gs)
  end.

Definition parse_sb (l : list Z) : outcome ext2_superblock :=
  fb ← get32 12 l; fi ← get32 16 l; log ← get32 24 l; bpg ← get32 32 l; ipg ← get32 40 l;
  rev ← get32 76 l; isz ← get16 88 l;
  Done (Superblock fb fi log bpg ipg rev isz).

Section FileSystem.
Context {D : Type} `{Disk D}.
Implicit Types (p : ext2_partition) (d : D) (fs : ext2fs D) (mt : ext2_mount).

(** ** Writing the structures back *)
Definition sectors_per_group p : Z := u32 (s_blocks_per_group (pt_sb p) * (block_size p / pt_sector_size p)).
Definition gd_sectors p : Z := u32 (DIVIDE_ROUNDED_UP (pt_group_number p * bgd_size) (pt_sector_size p)).

(** As many sectors as the whole table, from the descriptor of the group on.  The result is
    whether it failed. *)
Definition ext2_flush_bg mt p (bgid : Z) d : outcome (bool * D) :=
  l ← gd_bytes 0 (pt_gd p) (mt_gd mt);
  bytes ← first_bytes (gd_sectors p * pt_sector_size p) (drop (Z.to_nat (bgid * bgd_size)) l);
  let '(ok, d) := write_disk (u32 (pt_lba p + u32 (sectors_per_group p * bgid) + mt_bgdt_block mt)) (gd_sectors p) bytes d in
  Done (negb ok, d).

Definition ext2_flush_sb mt p (bgid : Z) d : outcome (bool * D) :=
  if bgid >=? mt_backup_bgs_count mt then Done (true, d) else
  b ← known (mt_backup_bgs mt !! Z.to_nat bgid);
  if b =? -1 then Done (true, d) else
  l ← sb_bytes mt p;
  bytes ← first_bytes (2 * pt_sector_size p) l;
  let '(ok, d) := write_disk (u32 (pt_lba p + u32 (sectors_per_group p * bgid) + mt_sb_block mt)) 2 bytes d in
  Done (negb ok, d).

(** [ext2_operate_on_bg] for callbacks that write to the disk. *)
Fixpoint operate_disk (callback : Z → D → outcome (bool * D)) (n : nat) (i : Z) d : outcome D :=
  match n with
  | O => Done d
  | S n => '(stop, d) ← callback i d; if (stop : bool) then Done d else operate_disk callback n (i + 1) d
  end.

Definition ext2_flush_partition mt fs : outcome (ext2fs D) :=
  let p := fs_part fs in
  d ← operate_disk (ext2_flush_bg mt p) (Z.to_nat (pt_group_number p)) 0 (fs_disk fs);
  d ← operate_disk (ext2_flush_sb mt p) (Z.to_nat (pt_group_number p)) 0 d;
  Done (Fs d (Partition (pt_lba p) (pt_group_number p) (pt_sector_size p) 0 (pt_sb p) (pt_gd p))).

(** ** Mounting *)
(** What is read into a buffer of 1024 bytes; more is stored behind it. *)
Definition into_buffer (bytes : list Z) : outcome (list Z) := if (1024 <? List.length bytes)%nat then Fault else Done bytes.

Definition ext2_partition_search (lba : Z) d : outcome Z :=
  match read_disk (u32 (lba + SB_OFFSET_LBA)) 2 d with
  | None => Done 0
  | Some bpb => bpb ← into_buffer bpb; magic ← get16 56 bpb; Done (if magic =? EXT2_SUPER_MAGIC then 1 else 0)
  end.

(** The groups whose superblock is valid; [None] when a read fails. *)
Fixpoint backup_groups (n : nat) (i lba spg : Z) (found : list Z) d : outcome (option (list Z)) :=
  match n with
  | O => Done (Some found)
  | S n =>
      match read_disk (u32 (lba + u32 (i * spg) + SB_OFFSET_LBA)) 2 d with
      | None => Done None
      | Some sb =>
          sb ← into_buffer sb;
          magic ← get16 56 sb;
          if magic =? EXT2_SUPER_MAGIC then
            if (64 <=? List.length found)%nat then Fault else backup_groups n (i + 1) lba spg (found ++ [i])%list d
          else backup_groups n (i + 1) lba spg found d
      end
  end.

(** [sector_size] is what the disk driver reports, [None] when the disk is not ready or does
    not answer. *)
Definition ext2_partition_register_partition (sector_size : option Z) (lba : Z) d : outcome (option (ext2_mount * ext2_partition)) :=
  match sector_size with
  | None => Done None
  | Some sector_size =>
      if (sector_size =? 0) || (sector_size >? 4096) then Done None else
      match read_disk (u32 (lba + SB_OFFSET_LBA)) 2 d with
      | None => Done None
      | Some buffer =>
          sbraw ← into_buffer buffer;
          magic ← get16 56 sbraw;
          if negb (magic =? EXT2_SUPER_MAGIC) then Done None else
          sb ← parse_sb sbraw;
          inodes ← get32 0 sbraw;
          blocks ← get32 4 sbraw;
          if (s_blocks_per_group sb =? 0) || (s_inodes_per_group sb =? 0) then Fault else
          let bs := u32 (Z.shiftl 1024 (s_log_block_size sb)) in
          let sectors_per_block := DIVIDE_ROUNDED_UP bs sector_size in
          let bgdt_block := if bs =? 1024 then 2 else 1 in
          let first := DIVIDE_ROUNDED_UP blocks (s_blocks_per_group sb) in
          let second := DIVIDE_ROUNDED_UP inodes (s_inodes_per_group sb) in
          if negb (first =? second) then Done None else
          backups ← backup_groups (Z.to_nat first) 0 lba (u32 (s_blocks_per_group sb * sectors_per_block)) [] d;
          match backups with
          | None => Done None
          | Some backups =>
              let size := u32 (DIVIDE_ROUNDED_UP (first * bgd_size) sector_size) in
              match read_disk (u32 (lba + u32 (sectors_per_block * bgdt_block))) size d with
              | None => Done None
              | Some gdraw =>
                  gd ← parse_gd (Z.to_nat first) gdraw;
                  let filled := (backups ++ drop (List.length backups) (-1 :: replicate 63 0))%list in
                  Done (Some (Mount sbraw gdraw filled (Z.of_nat (List.length backups)) SB_OFFSET_LBA bgdt_block,
                              Partition lba first sector_size 0 sb gd))
              end
          end
      end
  end.

(** ** Files by path *)
Definition with_inode_pointers (inode ptrs : list Z) : outcome (list Z) := put_bytes off_i_block (unwords ptrs) inode.

(** [junk] is what a fresh buffer contains. *)
Definition ext2_resize_file mt (junk : list Z) (ino new_size : Z) fs : outcome (Z * ext2fs D) :=
  let p := fs_part fs in
  inode ← ext2_read_inode p ino (fs_disk fs);
  match inode with
  | None => Done (EXT2_RESULT_ERROR, fs)
  | Some inode =>
      size ← get32 off_i_size inode;
      if size =? new_size then Done (EXT2_RESULT_OK, fs) else
      r ← (if size >? new_size then
             let n := u32 (size - new_size) / block_size p in
             l ← ext2_load_block_list p ino (fs_disk fs);
             match l with
             | None => Done (inr (EXT2_RESULT_ERROR, fs))
             | Some l =>
                 '(r, fs) ← ext2_deallocate_blocks l n fs;
                 if negb (r =? n) then Done (inr (EXT2_RESULT_ERROR, fs)) else Done (inl (inode, fs))
             end
           else
             let n := DIVIDE_ROUNDED_UP (u32 (new_size - size)) (block_size p) in
             '(r, ptrs, fs) ← ext2_allocate_blocks junk (i_block inode) n fs;
             inode ← with_inode_pointers inode ptrs;
             if negb (r =? 0) then Done (inr (EXT2_RESULT_ERROR, fs)) else Done (inl (inode, fs)));
      match r with
      | inr v => Done v
      | inl (inode, fs) =>
          inode ← put32 off_i_size new_size inode;
          inode ← put32 off_i_sectors (DIVIDE_ROUNDED_UP new_size (pt_sector_size p)) inode;
          '(r, d) ← ext2_write_inode (fs_part fs) ino inode (fs_disk fs);
          if negb (r =? 0) then Done (EXT2_RESULT_ERROR, Fs d (fs_part fs)) else
          fs ← ext2_flush_partition mt (Fs d (fs_part fs));
          Done (EXT2_RESULT_OK, fs)
      end
  end.

(** An inode that the code uses without looking whether it was read. *)
Definition must_read_inode p (ino : Z) d : outcome (list Z) := inode ← ext2_read_inode p ino d; known inode.

Definition ext2_get_file_size p (path : list Z) d : outcome Z :=
  ino ← ext2_path_to_inode p path d;
  if ino =? EXT2_RESULT_ERROR then Done EXT2_RESULT_ERROR else
  inode ← ext2_read_inode p ino d;
  match inode with None => Done EXT2_RESULT_ERROR | Some inode => get32 off_i_size inode end.

Definition ext2_get_inode_index p (path : list Z) d : outcome Z :=
  ino ← ext2_path_to_inode p path d;
  if ino =? 0 then Done EXT2_RESULT_ERROR else
  inode ← ext2_read_inode p ino d;
  match inode with None => Done EXT2_RESULT_ERROR | Some _ => Done ino end.

Definition ext2_get_file_permissions p (path : list Z) d : outcome Z :=
  ino ← ext2_path_to_inode p path d;
  if ino =? 0 then Done EXT2_RESULT_ERROR else
  inode ← must_read_inode p ino d;
  mode ← get16 off_i_mode inode;
  if negb (Z.land mode INODE_TYPE_DIR =? 0) then Done EXT2_RESULT_ERROR else Done (Z.land mode 0x1FF).

(** The result and the bytes stored. *)
Definition ext2_read_file p (path : list Z) (size skip : Z) d : outcome (Z * list Z) :=
  ino ← ext2_path_to_inode p path d;
  if ino =? 0 then Done (EXT2_RESULT_ERROR, []) else
  inode ← must_read_inode p ino d;
  mode ← get16 off_i_mode inode;
  if negb (Z.land mode INODE_TYPE_DIR =? 0) then Done (EXT2_RESULT_ERROR, []) else
  i_size ← get32 off_i_size inode;
  if u64 (skip + size) >? i_size then Done (EXT2_RESULT_ERROR, []) else
  '(r, bytes) ← ext2_read_inode_bytes p ino size skip d;
  if r =? EXT2_READ_FAILED then Done (EXT2_RESULT_ERROR, bytes) else
  if r <=? 0 then Done (EXT2_RESULT_ERROR, bytes) else Done (EXT2_RESULT_OK, bytes).

Definition ext2_write_file mt (junk path src : list Z) (size skip : Z) fs : outcome (Z * ext2fs D) :=
  ino ← ext2_path_to_inode (fs_part fs) path (fs_disk fs);
  if ino =? 0 then Done (EXT2_RESULT_ERROR, fs) else
  inode ← must_read_inode (fs_part fs) ino (fs_disk fs);
  mode ← get16 off_i_mode inode;
  if negb (Z.land mode INODE_TYPE_DIR =? 0) then Done (EXT2_RESULT_ERROR, fs) else
  i_size ← get32 off_i_size inode;
  '(r, fs) ← (if u64 (size + skip) >? i_size then ext2_resize_file mt junk ino (u32 (size + skip)) fs
              else Done (EXT2_RESULT_OK, fs));
  if negb (r =? EXT2_RESULT_OK) then Done (EXT2_RESULT_ERROR, fs) else
  '(r, d) ← ext2_write_inode_bytes (fs_part fs) ino src size skip (fs_disk fs);
  let fs := Fs d (fs_part fs) in
  if r =? EXT2_WRITE_FAILED then Done (EXT2_RESULT_ERROR, fs) else
  if r <=? 0 then Done (EXT2_RESULT_ERROR, fs) else Done (EXT2_RESULT_OK, fs).

(** The walk of [ext2_list_dentry], which prints. *)
Definition ext2_list_dentry p (path : list Z) d : outcome unit :=
  ino ← ext2_path_to_inode p path d;
  if ino =? 0 then Done tt else
  load_directory p ino tt tt d (λ bytes size,
    walk bytes size (λ parsed entry count, if count <? LIST_MAX then Done (inl (count + 1)) else Done (inr tt)) (λ _, tt) 0).

(** [unique] is the counter of inode generations, [epoch] the time. *)
Definition ext2_create_file mt (junk path : list Z) (type permissions unique epoch : Z) fs : outcome (Z * Z * ext2fs D) :=
  types ← known (file_type_translator !! Z.to_nat type);
  let '(dentry_type, inode_type) := types in
  match ext2_path_to_parent_and_name path with
  | None => Done (EXT2_RESULT_ERROR, unique, fs)
  | Some (parent_path, name) =>
      let p := fs_part fs in
      parent ← ext2_path_to_inode p parent_path (fs_disk fs);
      if parent =? 0 then Done (EXT2_RESULT_ERROR, unique, fs) else
      inode ← must_read_inode p parent (fs_disk fs);
      mode ← get16 off_i_mode inode;
      if Z.land mode INODE_TYPE_DIR =? 0 then Done (EXT2_RESULT_ERROR, unique, fs) else
      '(ino, fs) ← ext2_allocate_inode fs;
      if ino =? 0 then Done (EXT2_RESULT_ERROR, unique, fs) else
      '(inode, unique) ← ext2_initialize_inode (fs_part fs) ino inode_type permissions unique epoch (fs_disk fs);
      inode ← known inode;
      '(r, d) ← ext2_write_inode (fs_part fs) ino inode (fs_disk fs);
      let fs := Fs d (fs_part fs) in
      if negb (r =? 0) then Done (EXT2_RESULT_ERROR, unique, fs) else
      '(r, fs) ← (if type =? EXT2_FILE_TYPE_DIRECTORY then
                    '(r, fs) ← ext2_resize_file mt junk ino (block_size (fs_part fs)) fs;
                    if negb (r =? EXT2_RESULT_OK) then Done (1, fs) else
                    fs ← ext2_flush_partition mt fs;
                    '(r, d) ← ext2_initialize_directory (fs_part fs) ino parent (fs_disk fs);
                    Done (r, Fs d (fs_part fs))
                  else Done (0, fs));
      if negb (r =? 0) then Done (EXT2_RESULT_ERROR, unique, fs) else
      '(r, d) ← ext2_create_directory_entry (fs_part fs) parent ino name dentry_type (fs_disk fs);
      let fs := Fs d (fs_part fs) in
      if negb (r =? 0) then Done (EXT2_RESULT_ERROR, unique, fs) else
      _ ← ext2_list_dentry (fs_part fs) path (fs_disk fs);
      Done (EXT2_RESULT_OK, unique, fs)
  end.

Definition ext2_delete_file mt (path : list Z) (epoch : Z) fs : outcome (Z * ext2fs D) :=
  ino ← ext2_path_to_inode (fs_part fs) path (fs_disk fs);
  if ino =? 0 then Done (EXT2_RESULT_ERROR, fs) else
  '(r, fs) ← ext2_delete_file_blocks ino fs;
  if negb (r =? 0) then Done (EXT2_RESULT_ERROR, fs) else
  '(r, fs) ← ext2_delete_inode ino epoch fs;
  if negb (r =? 0) then Done (EXT2_RESULT_ERROR, fs) else
  '(r, d) ← ext2_delete_dentry (fs_part fs) path (fs_disk fs);
  let fs := Fs d (fs_part fs) in
  if negb (r =? 0) then Done (EXT2_RESULT_ERROR, fs) else
  fs ← ext2_flush_partition mt fs;
  Done (EXT2_RESULT_OK, fs).
End FileSystem.
