(* ===== verification/Ext2FsSpec.v ===== *)
(** * Files by path

    What is written to a file by its path is read back by its path: the name is resolved
    through the directories, whose blocks the write leaves alone. *)
From S2P Require Import Prelude Ext2Block Ext2Disk Ext2Inode Ext2Spec Ext2File Ext2FileSpec Ext2Dir Ext2DirSpec Ext2Fs.
#[local] Open Scope Z_scope.

(** ** Tokens of a path *)
Inductive path_tokens : list Z → list (list Z) → Prop :=
| tokens_none rest : next_token rest = Done None → path_tokens rest []
| tokens_some rest t rest' ts :
    next_token rest = Done (Some (t, rest')) → path_tokens rest' ts → path_tokens rest (t :: ts).

Lemma until_slash_shorter s : s ≠ [] → (List.length (until_slash s).2 < List.length s)%nat.
Proof.
  induction s as [|c s IH]; [done|]. intros _. cbn. destruct (c =? SLASH); [cbn; lia|].
  destruct (until_slash s) as [t r] eqn:E. cbn in *. destruct s as [|c' s]; [injection E as <- <-; cbn; lia|].
  specialize (IH ltac:(done)). cbn in *. lia.
Qed.

Lemma skip_slashes_shorter s : (List.length (skip_slashes s) ≤ List.length s)%nat.
Proof. induction s as [|c s IH]; [done|]. cbn. destruct (c =? SLASH); cbn; lia. Qed.

Lemma next_token_shorter s t rest : next_token s = Done (Some (t, rest)) → (List.length rest < List.length s)%nat.
Proof.
  unfold next_token. pose proof (skip_slashes_shorter s). destruct s as [|c s]; [done|].
  destruct (skip_slashes (c :: s)) as [|c' s'] eqn:E; [done|]. intros Et.
  assert (Et' : until_slash (c' :: s') = (t, rest)) by congruence.
  pose proof (until_slash_shorter (c' :: s') ltac:(done)) as Hl. rewrite Et' in Hl. cbn in *. lia.
Qed.

(** Components joined by slashes are the tokens. *)
Definition component (t : list Z) : Prop := t ≠ [] ∧ Forall (λ c, c ≠ SLASH) t.

Lemma until_slash_component t s : Forall (λ c, c ≠ SLASH) t → until_slash (t ++ SLASH :: s) = (t, s) ∧ until_slash t = (t, []).
Proof.
  induction 1 as [|c t Hc _ [IH1 IH2]]; [done|]. cbn. rewrite (proj2 (Z.eqb_neq _ _)), IH1, IH2 by done. done.
Qed.

Definition join (ts : list (list Z)) : list Z := mbind (λ t, SLASH :: t) ts.

Lemma next_token_component t s :
  component t → next_token (t ++ SLASH :: s) = Done (Some (t, s)) ∧ next_token t = Done (Some (t, [])) ∧
  next_token (SLASH :: t ++ SLASH :: s) = Done (Some (t, s)) ∧ next_token (SLASH :: t) = Done (Some (t, [])).
Proof.
  intros [Hne Ht]. destruct (until_slash_component t s Ht) as [E1 E2]. destruct t as [|c t]; [done|].
  apply Forall_cons in Ht as [Hc _]. unfold next_token. cbn [app skip_slashes]. change (SLASH =? SLASH) with true. cbv iota.
  rewrite (proj2 (Z.eqb_neq c SLASH)) by done. cbn [app] in E1. by rewrite E1, E2.
Qed.

Lemma path_tokens_join ts : Forall component ts → path_tokens (join ts) ts.
Proof.
  assert (Htail : ∀ ts t, Forall component (t :: ts) → path_tokens (t ++ join ts) (t :: ts)).
  { clear ts. intros ts. induction ts as [|t' ts IH]; intros t Hts; apply Forall_cons in Hts as [Ht Hts].
    - unfold join. cbn. rewrite app_nil_r. eapply tokens_some; [by apply next_token_component|]. by apply tokens_none.
    - eapply tokens_some; [unfold join; cbn [mbind list_bind]; by apply next_token_component|]. by apply IH. }
  intros Hts. destruct ts as [|t ts]; [by apply tokens_none|]. pose proof (Htail ts t Hts) as Ht.
  inversion Ht as [|? ? rest' ? E Hrest]; subst. eapply tokens_some; [|done].
  apply Forall_cons in Hts as [Hc _]. unfold join. cbn [mbind list_bind]. destruct ts as [|t' ts].
  - change (mbind (λ t : list Z, SLASH :: t) []) with (@nil Z). change (join []) with (@nil Z) in E. rewrite app_nil_r in *.
    destruct (next_token_component t [] Hc) as (_ & E1 & _ & E2). rewrite E1 in E. by rewrite E2.
  - destruct (next_token_component t (t' ++ mbind (λ t, SLASH :: t) ts) Hc) as (E1 & _ & E2 & _).
    rewrite <- E. exact (eq_trans E2 (eq_sym E1)).
Qed.

Section Paths.
Context {D : Type} `{DiskOk D}.
Implicit Types (p : ext2_partition) (d : D) (fs : ext2fs D).

(** [resolves p n d i ts j B]: from directory [i] the names [ts] lead to inode [j] through
    directories whose blocks are [B]. *)
Inductive resolves p n d : Z → list (list Z) → Z → list Z → Prop :=
| resolves_here i : resolves p n d i [] i []
| resolves_in i t ts j b off P F k es B :
    directory p n d i b off P F k es → lookup_in es t ≠ 0 → resolves p n d (lookup_in es t) ts j B →
    resolves p n d i (t :: ts) j (b :: P ++ F ++ B).

Lemma path_to_inode_ok p n d i ts j B : geometry p d n → tables_ok p n → resolves p n d i ts j B →
  ∀ fuel rest, path_tokens rest ts → (List.length rest < fuel)%nat → ext2_path_to_inode_from p fuel i rest d = Done j.
Proof.
  intros Hg Ht. induction 1 as [i|i t ts j b off P F k es B Hd Hne Hr IH]; intros fuel rest Htok Hf;
    inversion Htok as [? E|? ? rest' ? E Htok']; subst; destruct fuel as [|fuel]; try lia; cbn [ext2_path_to_inode_from].
  - by rewrite E, bind_done.
  - rewrite E, bind_done, (lookup_ok p n d i b off P F k es), bind_done, (proj2 (Z.eqb_neq _ _)) by done.
    apply IH; [done|]. pose proof (next_token_shorter _ _ _ E). lia.
Qed.

(** What is not written stays: files, directories and paths. *)
Definition same_blocks p d d' (B : list Z) : Prop := ∀ c, c ∈ B → block_at p d' c = block_at p d c.

Lemma file_same p n d d' ino b off P F :
  same_blocks p d d' (b :: P) → file p n d ino b off P F → file p n d' ino b off P F ∧ inode_at p d' b off = inode_at p d b off.
Proof.
  intros Hs [Hn Hsz Hloc Hm Hnd Hap]. assert (Ei : inode_at p d' b off = inode_at p d b off) by (unfold inode_at; rewrite Hs; set_solver).
  split; [|done]. split; try done. rewrite Ei. apply (layers_stable p n d); [done|]. intros c Hc. apply Hs. set_solver.
Qed.

Lemma directory_same p n d d' ino b off P F k es :
  same_blocks p d d' (b :: P ++ F) → directory p n d ino b off P F k es → directory p n d' ino b off P F k es.
Proof.
  intros Hs [Hf Hm Es Hr Hk Hc He]. destruct (file_same p n d d' ino b off P F) as [Hf' Ei]; [intros c Hc'; apply Hs; set_solver|done|].
  split; rewrite ?Ei; try done. rewrite <- Hc. apply contents_same. intros c Hc'%elem_of_taken. apply Hs. set_solver.
Qed.

Lemma resolves_same p n d d' i ts j B : same_blocks p d d' B → resolves p n d i ts j B → resolves p n d' i ts j B.
Proof.
  intros Hs Hr. induction Hr as [|i t ts j b off P F k es B Hd Hne Hr IH]; [constructor|].
  econstructor; [apply (directory_same p n d); [|done]|done|apply IH]; intros c Hc; apply Hs; set_solver.
Qed.

Lemma resolves_range p n d i ts j B :
  geometry p d n → tables_ok p n → resolves p n d i ts j B → Forall (λ c, 0 ≤ c < n) B.
Proof.
  intros Hg Ht. induction 1 as [|i t ts j b off P F k es B Hd Hne Hr IH]; [done|]. pose proof (dr_file _ _ _ _ _ _ _ _ _ _ Hd) as Hf.
  destruct (i_block_length p n d i b off Hg Ht) as [Hb _]; try apply Hf. pose proof (fl_map _ _ _ _ _ _ _ _ Hf) as Hm%layers_range.
  constructor; [lia|]. rewrite app_assoc. apply Forall_app. split; [|done]. eapply Forall_impl; [exact Hm|]. cbn. lia.
Qed.

Lemma find_path p n d path ts ino B :
  geometry p d n → tables_ok p n → path_tokens path ts → resolves p n d EXT2_ROOT_INO_INDEX ts ino B →
  ext2_path_to_inode p path d = Done ino.
Proof. intros. eapply path_to_inode_ok; try done. lia. Qed.

(** What is written to a file by its path is read back by its path.  When the names of a path
    lead from the root directory to a regular file through well-formed directories, and the
    range lies in the file and in its direct blocks from a block boundary on, [ext2_write_file]
    succeeds and [ext2_read_file] of the same path and range returns the bytes written. *)
Theorem ext2_path_roundtrip mt junk fs n path ts ino b off P F B mode i_size src size skip
    (p := fs_part fs) (d := fs_disk fs) (k := DIVIDE_ROUNDED_UP size (block_size p)) :
  geometry p d n → tables_ok p n → path_tokens path ts → resolves p n d EXT2_ROOT_INO_INDEX ts ino B → ino ≠ 0 →
  file p n d ino b off P F → B ## F →
  get16 off_i_mode (inode_at p d b off) = Done mode → Z.land mode INODE_TYPE_DIR = 0 →
  get32 off_i_size (inode_at p d b off) = Done i_size → i_size < EXT2_WRITE_FAILED →
  0 ≤ skip → skip mod block_size p = 0 → 0 < size → skip + size ≤ i_size → size ≤ Z.of_nat (List.length src) →
  skip / block_size p + k ≤ 12 → skip / block_size p + k ≤ Z.of_nat (List.length F) →
  ∃ fs', ext2_write_file mt junk path src size skip fs = Done (EXT2_RESULT_OK, fs') ∧ fs_part fs' = p ∧
    ext2_read_file p path size skip (fs_disk fs') = Done (EXT2_RESULT_OK, take (Z.to_nat size) src).
Proof.
  intros Hg Ht Hts Hres Hino Hf Hdis Em Hm Es Hsz Hs Hal Hpos Hfit Hsrc H12 HF.
  destruct (write_bytes_ok p d n ino b off P F src size skip Hg Ht Hf Hs Hal Hpos H12 HF Hsrc) as (d' & Ew & Hg' & Hf' & Hcont & Hsame).
  exists (Fs d' p). unfold EXT2_WRITE_FAILED in Hsz. split; [|split; [done|]].
  - unfold ext2_write_file. fold p d. rewrite (find_path p n d path ts ino B), bind_done, (proj2 (Z.eqb_neq _ _)) by done.
    unfold must_read_inode. rewrite (read_inode_ok p d n ino b off), bind_done by (done || apply Hf). cbn [known]. rewrite bind_done.
    rewrite Em, bind_done, Hm. change (negb (0 =? 0)) with false. cbv iota. rewrite Es, bind_done, u64_small, gtb_false, bind_done by lia.
    change (negb (EXT2_RESULT_OK =? EXT2_RESULT_OK)) with false. cbv iota. fold p d. rewrite Ew, bind_done.
    rewrite (proj2 (Z.eqb_neq _ _)), (proj2 (Z.leb_gt _ _)) by (unfold EXT2_WRITE_FAILED; lia). done.
  - assert (Hout : ∀ c, 0 ≤ c < n → c ∉ F → block_at p d' c = block_at p d c).
    { intros c Hc Hnin. apply Hsame; [done|]. intros Hin%elem_of_taken. apply Hnin. rewrite <- (take_drop (Z.to_nat (skip / block_size p)) F). set_solver. }
    assert (Hres' : resolves p n d' EXT2_ROOT_INO_INDEX ts ino B).
    { apply (resolves_same p n d); [|done]. intros c Hc. pose proof (resolves_range _ _ _ _ _ _ _ Hg Ht Hres) as Hr. rewrite Forall_forall in Hr.
      apply Hout; [by apply Hr|]. intros Hin. by apply (Hdis c). }
    assert (Ei : inode_at p d' b off = inode_at p d b off).
    { unfold inode_at. destruct (i_block_length p n d ino b off Hg Ht) as [Hb _]; try apply Hf. rewrite Hout; [done|lia|].
      pose proof (fl_apart _ _ _ _ _ _ _ _ Hf). set_solver. }
    cbn [fs_disk]. unfold ext2_read_file. rewrite (find_path p n d' path ts ino B), bind_done, (proj2 (Z.eqb_neq _ _)) by done.
    unfold must_read_inode. rewrite (read_inode_ok p d' n ino b off), bind_done by (done || apply Hf). cbn [known]. rewrite bind_done.
    rewrite Ei, Em, bind_done, Hm. change (negb (0 =? 0)) with false. cbv iota. rewrite Es, bind_done, u64_small, gtb_false by lia.
    rewrite (read_bytes_ok p d' n ino b off P F), bind_done by done.
    rewrite (proj2 (Z.eqb_neq _ _)), (proj2 (Z.leb_gt _ _)) by (unfold EXT2_READ_FAILED; lia). by rewrite Hcont.
Qed.
End Paths.

(** ** Writing the structures back *)
Section Flush.
Context {D : Type} `{DiskOk D}.

Lemma put_bytes_length (off : nat) v l :
  (off + List.length v ≤ List.length l)%nat → ∃ l', put_bytes off v l = Done l' ∧ List.length l' = List.length l.
Proof. intros Hl. destruct (put_bytes_ok off v l Hl) as (l' & E & El & _). by exists l'. Qed.

(** The descriptor table on the disk is not among the sectors that a flush writes: the sector for
    the table is counted in blocks when it is read and in sectors when it is written.  For a
    partition of one group, only the sector [mt_bgdt_block] of the partition and the two of the
    superblock can change, so the table keeps the counters it had when it was read. *)
Theorem ext2_flush_misses_table mt (fs : ext2fs D) (p := fs_part fs) (d := fs_disk fs) g :
  dk_bytes = 512 → pt_sector_size p = 512 → pt_gd p = [g] → pt_group_number p = 1 → block_size p = 1024 ∨ 2048 ≤ block_size p →
  0 ≤ pt_lba p → pt_lba p + 4 ≤ dk_size d → dk_size d < 2 ^ 31 →
  mt_sb_block mt = SB_OFFSET_LBA → mt_bgdt_block mt = (if block_size p =? 1024 then 2 else 1) →
  mt_backup_bgs_count mt = 1 → mt_backup_bgs mt !! 0%nat = Some 0 →
  List.length (mt_sb mt) = 1024%nat → List.length (mt_gd mt) = 512%nat →
  ∃ fs', ext2_flush_partition mt fs = Done fs' ∧
    let table := pt_lba p + DIVIDE_ROUNDED_UP (block_size p) 512 * mt_bgdt_block mt in
    table < dk_size d → dk_sector (fs_disk fs') table = dk_sector d table.
Proof.
  intros Hb Hss Hgd Hgn Hbs Hl0 Hl4 Hsz Esb Ebg Ecnt Ebk Lsb Lgd.
  assert (Hbg : 1 ≤ mt_bgdt_block mt ≤ 2) by (rewrite Ebg; destruct (_ =? _); lia).
  unfold ext2_flush_partition. fold p d. rewrite Hgn. change (Z.to_nat 1) with 1%nat. cbn [operate_disk].
  unfold ext2_flush_bg. rewrite Hgd. cbn [gd_bytes]. unfold put16.
  destruct (put_bytes_length (0 + 12) [bg_free_blocks_count g mod 256; bg_free_blocks_count g / 256 mod 256] (mt_gd mt)) as (l1 & -> & E1); [cbn; lia|].
  rewrite bind_done. destruct (put_bytes_length (0 + 14) [bg_free_inodes_count g mod 256; bg_free_inodes_count g / 256 mod 256] l1) as (l2 & -> & E2); [cbn; lia|].
  rewrite bind_done. destruct (put_bytes_length (0 + 16) [bg_used_dirs_count g mod 256; bg_used_dirs_count g / 256 mod 256] l2) as (l3 & -> & E3); [cbn; lia|].
  rewrite !bind_done. unfold gd_sectors, sectors_per_group. rewrite Hgn, Hss, Z.mul_0_r.
  change (u32 (DIVIDE_ROUNDED_UP (1 * bgd_size) 512)) with 1. change (u32 0) with 0. rewrite Z.add_0_r.
  unfold first_bytes. change (Z.to_nat (0 * bgd_size)) with 0%nat. rewrite drop_0, (proj2 (Z.ltb_ge _ _)), bind_done by lia.
  rewrite take_ge by lia. rewrite (u32_small (pt_lba p + mt_bgdt_block mt)) by lia.
  destruct (dk_write d (pt_lba p + mt_bgdt_block mt) 1 l3) as (d1 & -> & Hs1 & Hsec1); [lia|lia|lia|rewrite Hb; lia|].
  rewrite !bind_done. cbn [negb]. cbn iota. unfold ext2_flush_sb. rewrite Ecnt. change (0 >=? 1) with false. cbv iota.
  change (Z.to_nat 0) with 0%nat. rewrite Ebk. cbn [known]. rewrite !bind_done. change (0 =? -1) with false. cbv iota.
  unfold sb_bytes, put32. destruct (put_bytes_length 12 (word_bytes (s_free_blocks_count (pt_sb p))) (mt_sb mt)) as (l4 & -> & E4); [cbn; lia|].
  rewrite !bind_done. destruct (put_bytes_length 16 (word_bytes (s_free_inodes_count (pt_sb p))) l4) as (l5 & -> & E5); [cbn; lia|].
  rewrite bind_done, Hss. unfold first_bytes. rewrite (proj2 (Z.ltb_ge _ _)), bind_done, take_ge by lia. unfold sectors_per_group. rewrite Z.mul_0_r. change (u32 0) with 0.
  rewrite Z.add_0_r, Esb, (u32_small (pt_lba p + SB_OFFSET_LBA)) by (unfold SB_OFFSET_LBA; lia).
  destruct (dk_write d1 (pt_lba p + SB_OFFSET_LBA) 2 l5) as (d2 & -> & Hs2 & Hsec2); [unfold SB_OFFSET_LBA; lia..|rewrite Hb; lia|].
  rewrite !bind_done. eexists. split; [done|]. cbv zeta. cbn [fs_disk]. intros Htab.
  assert (Hd : 4 ≤ DIVIDE_ROUNDED_UP (block_size p) 512 * mt_bgdt_block mt).
  { rewrite Ebg. destruct Hbs as [->|Hbs]; [done|]. rewrite (proj2 (Z.eqb_neq _ _)) by lia. unfold DIVIDE_ROUNDED_UP.
    destruct (negb _); dlia. }
  rewrite Hsec2, decide_False, Hsec1, decide_False by (unfold SB_OFFSET_LBA; lia). done.
Qed.
End Flush.

(** ** The file "ab" of the small partition *)
Lemma ab_pointers es : i_block (inode_at small_part (dir_disk es) 8 512) = (21 :: replicate 14 0).
Proof. by vm_compute. Qed.

Lemma ab_file es : file small_part 4096 (dir_disk es) 5 8 512 [] [21].
Proof.
  split; [split; [done|vm_compute; lia]|done| | |apply NoDup_singleton|set_solver].
  - split; [|done]. intros g Eg. injection Eg as <-. done.
  - rewrite ab_pointers. by apply single_block_map.
Qed.

Lemma ab_mode es : get16 off_i_mode (inode_at small_part (dir_disk es) 8 512) = Done 0x81A4.
Proof. by vm_compute. Qed.

Lemma ab_size es : get32 off_i_size (inode_at small_part (dir_disk es) 8 512) = Done 1024.
Proof. by vm_compute. Qed.

Lemma full_resolves : resolves small_part 4096 (dir_disk full_entries) 2 [[97; 98]] 5 [8; 20].
Proof.
  apply (resolves_in _ _ _ 2 [97; 98] [] 5 8 128 [] [20] 1 full_entries []);
    [apply dir_disk_directory; [apply full_contents|apply full_entries_ok]|done|apply resolves_here].
Qed.

Lemma ext2_path_roundtrip_witness :
  ∃ fs', ext2_write_file (Mount [] [] [] 0 2 2) [] [47; 97; 98] (replicate (Z.to_nat 700) 9) 700 0 (Fs (dir_disk full_entries) small_part) =
      Done (EXT2_RESULT_OK, fs') ∧
    ext2_read_file small_part [47; 97; 98] 700 0 (fs_disk fs') = Done (EXT2_RESULT_OK, take (Z.to_nat 700) (replicate (Z.to_nat 700) 9)).
Proof.
  destruct (ext2_path_roundtrip (Mount [] [] [] 0 2 2) [] (Fs (dir_disk full_entries) small_part) 4096 [47; 97; 98] [[97; 98]] 5 8 512 [] [21]
    [8; 20] 0x81A4 1024 (replicate (Z.to_nat 700) 9) 700 0) as (fs' & Ew & _ & Er);
    [apply small_geometry|apply small_tables| |apply full_resolves|done|apply ab_file|set_solver by lia|apply ab_mode|done|apply ab_size|
     done|done|done|done|done|done|done|done|].
  - apply (path_tokens_join [[97; 98]]). repeat constructor; done.
  - exists fs'. split; [exact Ew|exact Er].
Defined.
