(* ===== verification/VfsFd.v ===== *)
(** * Open files and directories (src/src/vfs/generic/vfs_compat.c, vfs_compat.h)

    Two static tables, cleared at start, hold the open files and the open directories of
    all file systems; an index is a descriptor.  Each allocation looks for a free entry
    from where the last one stopped.  The entries of an open directory are a list of heap
    blocks behind an empty first one.  Strings are lists of characters without their
    terminator; a string that fills its field puts the terminator in the next field, which
    is written out where it happens. *)
From stdpp Require Import gmap.
From S2P Require Import Prelude PageService Alloc.
#[local] Open Scope Z_scope.

Definition VFS_COMPAT_MAX_OPEN_FILES : Z := 65536.
Definition VFS_COMPAT_MAX_OPEN_DIRECTORIES : Z := 4096.
Definition VFS_FDE_NAME_MAX_LEN : Z := 256.
Definition sizeof_dentry : Z := 280.

Record file_descriptor_entry := Fde {
  fde_name : list Z; fde_mount : list Z; fde_flags : Z; fde_mode : Z; fde_offset : Z; fde_loaded : Z;
}.
Definition zero_fde : file_descriptor_entry := Fde [] [] 0 0 0 0.

Record dentry := Dentry { dn_addr : Z; dn_name : list Z; dn_name_len : Z; dn_inode : Z; dn_type : Z }.
Definition zero_dentry (a : Z) : dentry := Dentry a [] 0 0 0.

(** The list behind [dentries]; it is empty when the pointer is NULL. *)
Record dir := Dir { dir_fd : file_descriptor_entry; dentries : list dentry; dir_number : Z; dir_index : Z }.
Definition zero_dir : dir := Dir zero_fde [] 0 0.

(** The tables, absent entries being cleared ones, and the two static cursors. *)
Record fds := Fds {
  open_file_table : gmap Z file_descriptor_entry; next_fd : Z;
  open_directory_table : gmap Z dir; next_dirfd : Z;
}.
Definition no_fds : fds := Fds ∅ 0 ∅ 0.

Definition with_offset v e := Fde (fde_name e) (fde_mount e) (fde_flags e) (fde_mode e) v (fde_loaded e).
Definition with_loaded v e := Fde (fde_name e) (fde_mount e) (fde_flags e) (fde_mode e) (fde_offset e) v.
Definition with_files t s := Fds t (next_fd s) (open_directory_table s) (next_dirfd s).
Definition with_next_fd v s := Fds (open_file_table s) v (open_directory_table s) (next_dirfd s).
Definition with_dirs t s := Fds (open_file_table s) (next_fd s) t (next_dirfd s).
Definition with_next_dirfd v s := Fds (open_file_table s) (next_fd s) (open_directory_table s) v.

Definition strlen_of (l : list Z) : Z := Z.of_nat (List.length l).
Definition fills (l : list Z) : bool := strlen_of l =? VFS_FDE_NAME_MAX_LEN.

(** A name of 256 characters has no terminator of its own: it goes on in the mount. *)
Definition entry_name (e : file_descriptor_entry) : list Z :=
  if fills (fde_name e) then (fde_name e ++ fde_mount e)%list else fde_name e.

Definition file_at (s : fds) (fd : Z) : file_descriptor_entry := default zero_fde (open_file_table s !! fd).
Definition dir_at (s : fds) (fd : Z) : dir := default zero_dir (open_directory_table s !! fd).

(** [open_file_table[fd]]: an index outside the table is outside the array. *)
Definition file_entry (fd : Z) (s : fds) : outcome file_descriptor_entry :=
  if (0 <=? fd) && (fd <? VFS_COMPAT_MAX_OPEN_FILES) then Done (file_at s fd) else Fault.
Definition set_file (fd : Z) (e : file_descriptor_entry) (s : fds) : fds :=
  with_files (<[fd := e]> (open_file_table s)) s.
Definition dir_entry (fd : Z) (s : fds) : outcome dir :=
  if (0 <=? fd) && (fd <? VFS_COMPAT_MAX_OPEN_DIRECTORIES) then Done (dir_at s fd) else Fault.
Definition set_dir (fd : Z) (e : dir) (s : fds) : fds :=
  with_dirs (<[fd := e]> (open_directory_table s)) s.

(** The pointers returned are indices; [None] is NULL. *)
Definition vfs_compat_get_dir (fd : Z) : option Z :=
  if fd >=? VFS_COMPAT_MAX_OPEN_DIRECTORIES then None else Some fd.
Definition vfs_compat_get_file_descriptor (fd : Z) : option Z :=
  if fd >=? VFS_COMPAT_MAX_OPEN_FILES then None else Some fd.

(** A mount of 256 characters has its terminator in the first byte of the flags. *)
Definition loaded_entry (path mount : list Z) (flags mode : Z) : file_descriptor_entry :=
  Fde path mount (if fills mount then Z.land (u32 flags) 0xFFFFFF00 else u32 flags) (u32 mode) 0 1.

Definition get_fd (path mount : list Z) (flags mode : Z) (s : fds) : outcome (Z * fds) :=
  if strlen_of path >? VFS_FDE_NAME_MAX_LEN then Done (-1, s) else
  if strlen_of mount >? VFS_FDE_NAME_MAX_LEN then Done (-1, s) else
  loop (S (Z.to_nat VFS_COMPAT_MAX_OPEN_FILES)) (λ '(i, fd),
    if i <? VFS_COMPAT_MAX_OPEN_FILES then
      e ← file_entry fd s;
      if fde_loaded e =? 0
      then Done (inr (fd, with_next_fd (fd + 1) (set_file fd (loaded_entry path mount flags mode) s)))
      else Done (inl (i + 1, if fd + 1 >=? VFS_COMPAT_MAX_OPEN_FILES then 0 else fd + 1))
    else Done (inr (-1, with_next_fd fd s)))
    (0, next_fd s).

(** The first index from [i] on, among [n], that satisfies [p]. *)
Fixpoint scan (n : nat) (i : Z) (p : Z → bool) : option Z :=
  match n with O => None | S n => if p i then Some i else scan n (i + 1) p end.

Definition names (path : list Z) (e : file_descriptor_entry) : bool :=
  (fde_loaded e =? 1) && bool_decide (entry_name e = path).

Definition is_open (path : list Z) (s : fds) : Z :=
  match scan (Z.to_nat VFS_COMPAT_MAX_OPEN_FILES) 0 (λ i, names path (file_at s i)) with
  | Some i => i
  | None =>
      match scan (Z.to_nat VFS_COMPAT_MAX_OPEN_DIRECTORIES) 0 (λ i, names path (dir_fd (dir_at s i))) with
      | Some i => i
      | None => -1
      end
  end.

Definition unload_dir (d : dir) : dir := Dir (with_loaded 0 (dir_fd d)) (dentries d) (dir_number d) (dir_index d).

Definition force_release (path : list Z) (s : fds) : Z * fds :=
  let '(changes, s) :=
    foldl (λ '(changes, s) i,
      if names path (file_at s i) then (changes + 1, set_file i (with_loaded 0 (file_at s i)) s) else (changes, s))
      (0, s) (seqZ 0 VFS_COMPAT_MAX_OPEN_FILES) in
  foldl (λ '(changes, s) i,
    if names path (dir_fd (dir_at s i)) then (changes + 1, set_dir i (unload_dir (dir_at s i)) s) else (changes, s))
    (changes, s) (seqZ 0 VFS_COMPAT_MAX_OPEN_DIRECTORIES).

Definition release_fd (fd : Z) (s : fds) : outcome (Z * fds) :=
  if fd >=? VFS_COMPAT_MAX_OPEN_FILES then Done (-1, s) else
  e ← file_entry fd s;
  Done (0, set_file fd (with_loaded 0 e) s).

(** The result and, where one was found, the name, its length and its type as stored for
    the caller. *)
Definition read_dirfd (fd : Z) (s : fds) : outcome (Z * option (list Z * Z * Z) * fds) :=
  if fd >=? VFS_COMPAT_MAX_OPEN_DIRECTORIES then Done (-1, None, s) else
  d ← dir_entry fd s;
  if fde_loaded (dir_fd d) =? 0 then Done (-1, None, s) else
  if dir_index d >=? dir_number d then Done (0, None, s) else
  match dentries d with
  | _ :: ((_ :: _) as rest) =>
      e ← known (rest !! Z.to_nat (dir_index d));
      Done (1, Some (take (Z.to_nat (dn_name_len e)) (dn_name e), dn_name_len e, dn_type e),
            set_dir fd (Dir (dir_fd d) (dentries d) (dir_number d) (u32 (dir_index d + 1))) s)
  | _ => Done (0, None, s)
  end.

Section Heap.
Context {A : Type} `{Allocator A}.

Definition get_dirfd (path mount : list Z) (flags mode : Z) (s : fds) (h : A) : outcome (Z * fds * A) :=
  if strlen_of path >? VFS_FDE_NAME_MAX_LEN then Done (-1, s, h) else
  if strlen_of mount >? VFS_FDE_NAME_MAX_LEN then Done (-1, s, h) else
  loop (S (Z.to_nat VFS_COMPAT_MAX_OPEN_DIRECTORIES)) (λ '(i, fd),
    if i <? VFS_COMPAT_MAX_OPEN_DIRECTORIES then
      d ← dir_entry fd s;
      if fde_loaded (dir_fd d) =? 0 then
        '(first, h) ← al_malloc sizeof_dentry h;
        if first =? 0 then Fault else
        Done (inr (fd, with_next_dirfd (fd + 1)
                         (set_dir fd (Dir (loaded_entry path mount flags mode) [zero_dentry first] 0 0) s), h))
      else Done (inl (i + 1, if fd + 1 >=? VFS_COMPAT_MAX_OPEN_DIRECTORIES then 0 else fd + 1))
    else Done (inr (-1, with_next_dirfd fd s, h)))
    (0, next_dirfd s).

Fixpoint free_dentries (l : list dentry) (h : A) : outcome A :=
  match l with [] => Done h | e :: l => h ← al_free (dn_addr e) h; free_dentries l h end.

(** The first block is kept, and the list still points to the freed ones. *)
Definition release_dirfd (fd : Z) (s : fds) (h : A) : outcome (Z * fds * A) :=
  if fd >=? VFS_COMPAT_MAX_OPEN_DIRECTORIES then Done (-1, s, h) else
  d ← dir_entry fd s;
  match dentries d with
  | [] => Fault
  | _ :: rest => h ← free_dentries rest h; Done (0, set_dir fd (unload_dir d) s, h)
  end.

(** A name of 256 characters has its terminator in the first byte of the length. *)
Definition add_file_to_dirfd (fd : Z) (name : list Z) (inode type name_len : Z) (s : fds) (h : A) :
    outcome (Z * fds * A) :=
  if fd >=? VFS_COMPAT_MAX_OPEN_DIRECTORIES then Done (0, s, h) else
  if strlen_of name >? VFS_FDE_NAME_MAX_LEN then Done (0, s, h) else
  d ← dir_entry fd s;
  if fde_loaded (dir_fd d) =? 0 then Done (0, s, h) else
  match dentries d with
  | [] => Fault
  | l =>
      '(a, h) ← al_malloc sizeof_dentry h;
      if a =? 0 then Fault else
      let e := Dentry a name (if fills name then Z.land name_len 0xFFFFFF00 else name_len) inode type in
      Done (1, set_dir fd (Dir (dir_fd d) (l ++ [e])%list (u32 (dir_number d + 1)) (dir_index d)) s, h)
  end.
End Heap.
