(* ===== verification/VfsFdSpec.v ===== *)
(** * Properties of the descriptor tables

    The table of open files implements a finite map from descriptors to open files, and an
    open directory delivers the entries it was loaded with. *)
From stdpp Require Import gmap.
From S2P Require Import Prelude PageService Alloc KernelHeap VfsFd.
#[local] Open Scope Z_scope.

(** ** The search for a free entry *)
Lemma cyclic_next N n0 i : 0 ≤ n0 < N → (let fd := (n0 + i) mod N in if fd + 1 >=? N then 0 else fd + 1) = (n0 + (i + 1)) mod N.
Proof.
  intros start. cbv zeta. pose proof (Z.mod_pos_bound (n0 + i) N ltac:(lia)) as Hb. rewrite Z.geb_leb.
  replace (n0 + (i + 1)) with (n0 + i + 1) by lia. rewrite (Z.add_mod (n0 + i) 1) by lia.
  destruct (decide (N = 1)) as [->|]; [rewrite !Z.mod_1_r; by rewrite (proj2 (Z.leb_le _ _)) by lia|].
  rewrite (Z.mod_small 1 N) by lia. destruct (Z.leb_spec N ((n0 + i) mod N + 1)) as [Hle|Hlt].
  - replace ((n0 + i) mod N + 1) with N by lia. by rewrite Z.mod_same by lia.
  - by rewrite (Z.mod_small (_ + 1)) by lia.
Qed.

Section Cyclic.
Context {R : Type} (N n0 : Z) (free : Z → bool) (hit : Z → outcome R) (miss : Z → R).
Context (body : Z * Z → outcome (Z * Z + R)).
Hypothesis start : 0 ≤ n0 < N.
Hypothesis found : ∀ i fd, 0 ≤ fd < N → i < N → free fd = true → body (i, fd) = (r ← hit fd; Done (inr r)).
Hypothesis next : ∀ i fd, 0 ≤ fd < N → i < N → free fd = false →
  body (i, fd) = Done (inl (i + 1, if fd + 1 >=? N then 0 else fd + 1)).
Hypothesis stop : ∀ fd, body (N, fd) = Done (inr (miss fd)).

Lemma cyclic_from m i :
  0 ≤ i → i + Z.of_nat m = N →
  (∃ k, i ≤ k < N ∧ free ((n0 + k) mod N) = true ∧ (∀ j, i ≤ j < k → free ((n0 + j) mod N) = false) ∧
     loop (S m) body (i, (n0 + i) mod N) = hit ((n0 + k) mod N)) ∨
  ((∀ j, i ≤ j < N → free ((n0 + j) mod N) = false) ∧
     loop (S m) body (i, (n0 + i) mod N) = Done (miss n0)).
Proof.
  revert i. induction m as [|m IH]; intros i Hi Hm.
  - assert (i = N) as -> by lia. right. split; [lia|]. cbn [loop]. rewrite stop. cbn.
    do 2 f_equal. rewrite <- (Z.mod_small n0 N) at 2 by lia. rewrite <- (Z.mod_add n0 1) by lia. f_equal. lia.
  - pose proof (Z.mod_pos_bound (n0 + i) N ltac:(lia)) as Hb. cbn [loop].
    destruct (free ((n0 + i) mod N)) eqn:Ef.
    + left. exists i. split_and!; [lia|lia|done|lia|]. rewrite found by (done || lia). by destruct (hit _).
    + rewrite next by (done || lia). rewrite bind_done, cyclic_next by done.
      destruct (IH (i + 1)) as [(k & Hk & Hf & Hb' & E)|[Hall E]]; [lia|lia| |].
      * left. exists k. split_and!; [lia|lia|done| |done].
        intros j Hj. destruct (decide (j = i)) as [->|]; [done|]. apply Hb'. lia.
      * right. split; [|done]. intros j Hj. destruct (decide (j = i)) as [->|]; [done|]. apply Hall. lia.
Qed.

(** The first free index at or after [n0], going round, or none at all. *)
Lemma cyclic_search :
  (∃ fd, 0 ≤ fd < N ∧ free fd = true ∧ loop (S (Z.to_nat N)) body (0, n0) = hit fd) ∨
  ((∀ fd, 0 ≤ fd < N → free fd = false) ∧ loop (S (Z.to_nat N)) body (0, n0) = Done (miss n0)).
Proof.
  destruct (cyclic_from (Z.to_nat N) 0) as [(k & Hk & Hf & _ & E)|[Hall E]]; [lia|lia|..];
    rewrite Z.add_0_r, (Z.mod_small n0) in E by lia.
  - left. exists ((n0 + k) mod N). split; [by apply Z.mod_pos_bound; lia|done].
  - right. split; [|done]. intros fd Hfd. specialize (Hall ((fd - n0) mod N)).
    replace ((n0 + (fd - n0) mod N) mod N) with fd in Hall; [apply Hall, Z.mod_pos_bound; lia|].
    rewrite Zplus_mod_idemp_r. replace (n0 + (fd - n0)) with fd by lia. by rewrite Z.mod_small.
Qed.
End Cyclic.

(** ** Open files *)
Abbreviation FILES := VFS_COMPAT_MAX_OPEN_FILES.

(** The open files are [M]. *)
Record fds_rep (s : fds) (M : gmap Z file_descriptor_entry) : Prop := {
  fr_cursor : 0 ≤ next_fd s ≤ FILES;
  fr_open fd : 0 ≤ fd < FILES → M !! fd = if fde_loaded (file_at s fd) =? 0 then None else Some (file_at s fd);
  fr_range fd : is_Some (M !! fd) → 0 ≤ fd < FILES;
  fr_flag fd : fde_loaded (file_at s fd) = 0 ∨ fde_loaded (file_at s fd) = 1;
}.

Lemma file_at_set s fd e k : file_at (set_file fd e s) k = if decide (fd = k) then e else file_at s k.
Proof. unfold file_at, set_file. cbn. rewrite lookup_insert. by case_decide. Qed.

Lemma file_entry_ok fd s : 0 ≤ fd < FILES → file_entry fd s = Done (file_at s fd).
Proof. intros. unfold file_entry. by rewrite (proj2 (Z.leb_le _ _)), (proj2 (Z.ltb_lt _ _)) by lia. Qed.

Lemma fds_rep_set s M fd e :
  fds_rep s M → 0 ≤ fd < FILES → fde_loaded e = 0 ∨ fde_loaded e = 1 →
  fds_rep (set_file fd e s) (if fde_loaded e =? 0 then delete fd M else <[fd := e]> M).
Proof.
  intros [Hc Ho Hr Hl] Hfd He. split; [done|intros k Hk|intros k Hk|intros k].
  - rewrite file_at_set. case_decide as E.
    + subst k. destruct (fde_loaded e =? 0); [apply lookup_delete_eq|apply lookup_insert_eq].
    + rewrite <- Ho by done. destruct (fde_loaded e =? 0); [by apply lookup_delete_ne|by apply lookup_insert_ne].
  - destruct (decide (fd = k)) as [->|]; [done|]. apply Hr.
    destruct (fde_loaded e =? 0); [by rewrite lookup_delete_ne in Hk|by rewrite lookup_insert_ne in Hk].
  - rewrite file_at_set. by case_decide.
Qed.

Lemma fds_rep_cursor s M v : fds_rep s M → 0 ≤ v ≤ FILES → fds_rep (with_next_fd v s) M.
Proof. intros [Hc Ho Hr Hl] Hv. by split. Qed.

Lemma get_fd_ok s path mount flags mode :
  0 ≤ next_fd s < FILES → strlen_of path ≤ 256 → strlen_of mount ≤ 256 →
  (∃ fd, 0 ≤ fd < FILES ∧ fde_loaded (file_at s fd) = 0 ∧
     get_fd path mount flags mode s =
       Done (fd, with_next_fd (fd + 1) (set_file fd (loaded_entry path mount flags mode) s))) ∨
  ((∀ fd, 0 ≤ fd < FILES → fde_loaded (file_at s fd) ≠ 0) ∧ get_fd path mount flags mode s = Done (-1, s)).
Proof.
  intros Hc Hp Hm. unfold get_fd, VFS_FDE_NAME_MAX_LEN. rewrite !gtb_false by lia.
  match goal with |- context [loop _ ?b _] =>
    destruct (cyclic_search FILES (next_fd s) (λ fd, fde_loaded (file_at s fd) =? 0)
      (λ fd, Done (fd, with_next_fd (fd + 1) (set_file fd (loaded_entry path mount flags mode) s)))
      (λ fd, (-1, with_next_fd fd s)) b) as [(fd & Hfd & Hf & E)|[Hall E]]
  end; [done|..].
  - intros i fd Hfd Hi Hf. rewrite (proj2 (Z.ltb_lt _ _)), file_entry_ok by done. cbn. by rewrite Hf.
  - intros i fd Hfd Hi Hf. rewrite (proj2 (Z.ltb_lt _ _)), file_entry_ok by done. cbn. by rewrite Hf.
  - done.
  - left. exists fd. zbool. by rewrite E.
  - right. split; [intros fd Hfd; apply Z.eqb_neq; by apply Hall|]. rewrite E. by destruct s.
Qed.

(** After the last entry has been handed out the cursor is past the end of the table. *)
Lemma get_fd_past_end s path mount flags mode :
  next_fd s = FILES → strlen_of path ≤ 256 → strlen_of mount ≤ 256 → get_fd path mount flags mode s = Fault.
Proof.
  intros Hc Hp Hm. unfold get_fd, VFS_FDE_NAME_MAX_LEN. rewrite !gtb_false by lia. rewrite Hc. done.
Qed.

Lemma scan_first n i p :
  match scan n i p with
  | Some k => i ≤ k < i + Z.of_nat n ∧ p k = true ∧ ∀ j, i ≤ j < k → p j = false
  | None => ∀ j, i ≤ j < i + Z.of_nat n → p j = false
  end.
Proof.
  revert i. induction n as [|n IH]; intros i; cbn [scan]; [lia|]. destruct (p i) eqn:E; [split_and!; [lia..|done|lia]|].
  specialize (IH (i + 1)). destruct (scan n (i + 1) p) as [k|].
  - destruct IH as (Hk & Hp & Hj). split_and!; [lia..|done|]. intros j Hj'.
    destruct (decide (j = i)) as [->|]; [done|]. apply Hj. lia.
  - intros j Hj. destruct (decide (j = i)) as [->|]; [done|]. apply IH. lia.
Qed.

Lemma fds_rep_none s M fd : fds_rep s M → 0 ≤ fd < FILES → fde_loaded (file_at s fd) = 0 ↔ M !! fd = None.
Proof. intros HM Hfd. rewrite (fr_open _ _ HM fd Hfd). by destruct (Z.eqb_spec (fde_loaded (file_at s fd)) 0). Qed.

Lemma is_open_ok s M path :
  fds_rep s M → (∃ k e, M !! k = Some e ∧ entry_name e = path) →
  ∃ e, M !! is_open path s = Some e ∧ entry_name e = path.
Proof.
  intros HM (k & e & Hk & He). unfold is_open.
  assert (Hin : ∀ j e', M !! j = Some e' → file_at s j = e' ∧ fde_loaded e' = 1 ∧ 0 ≤ j < FILES).
  { intros j e' Hj. assert (0 ≤ j < FILES) by (by apply (fr_range _ _ HM)). split_and!; [| |lia..];
      rewrite (fr_open _ _ HM) in Hj by done; destruct (Z.eqb_spec (fde_loaded (file_at s j)) 0); simplify_eq;
      [done|]. by destruct (fr_flag _ _ HM j). }
  pose proof (scan_first (Z.to_nat FILES) 0 (λ i, names path (file_at s i))) as Hs.
  destruct (scan _ _ _) as [i|].
  - destruct Hs as (Hi & Hn & _). unfold names in Hn. apply andb_true_iff in Hn as [Hl Hn%bool_decide_eq_true].
    exists (file_at s i). split; [|done]. rewrite (fr_open _ _ HM) by lia. zbool. by rewrite Hl.
  - exfalso. destruct (Hin k e Hk) as (Hf & Hl & Hr). specialize (Hs k ltac:(lia)). revert Hs. unfold names.
    rewrite Hf, Hl. by rewrite (bool_decide_eq_true_2 _ He).
Qed.


Lemma no_fds_rep : fds_rep no_fds ∅.
Proof. split; [done|intros; by rewrite lookup_empty|intros fd [? Hx]; by rewrite lookup_empty in Hx|by left]. Qed.


(** ** Open directories *)
Abbreviation DIRS := VFS_COMPAT_MAX_OPEN_DIRECTORIES.

Lemma dir_at_set s fd e k : dir_at (set_dir fd e s) k = if decide (fd = k) then e else dir_at s k.
Proof. unfold dir_at, set_dir. cbn. rewrite lookup_insert. by case_decide. Qed.

Lemma dir_entry_ok fd s : 0 ≤ fd < DIRS → dir_entry fd s = Done (dir_at s fd).
Proof. intros. unfold dir_entry. by rewrite (proj2 (Z.leb_le _ _)), (proj2 (Z.ltb_lt _ _)) by lia. Qed.

(** What a file system reports of an entry: name, inode and type. *)
Definition listed (e : dentry) : list Z * Z * Z := (dn_name e, dn_inode e, dn_type e).
Definition listed_name (x : list Z * Z * Z) : list Z * Z * Z := (x.1.1, strlen_of x.1.1, x.2).

(** Directory [fd] is open, holds the entries [es] behind the block [first], [k] of them
    read; [B] are the blocks of the entries. *)
Record dir_lists (s : fds) (fd : Z) (first : Z) (B : list Z) (es : list (list Z * Z * Z)) (k : nat) : Prop := {
  dl_range : 0 ≤ fd < DIRS;
  dl_loaded : fde_loaded (dir_fd (dir_at s fd)) = 1;
  dl_dentries : ∃ ds, dentries (dir_at s fd) = zero_dentry first :: ds ∧ listed <$> ds = es ∧ dn_addr <$> ds = B ∧
                      Forall (λ e, dn_name_len e = strlen_of (dn_name e)) ds;
  dl_number : dir_number (dir_at s fd) = Z.of_nat (List.length es);
  dl_index : dir_index (dir_at s fd) = Z.of_nat k;
  dl_small : Z.of_nat (List.length es) < 2 ^ 32;
}.

(** The reads of a client that lists [n] entries. *)
Fixpoint read_entries (n : nat) (fd : Z) (s : fds) : outcome (list (option (list Z * Z * Z)) * fds) :=
  match n with
  | O => Done ([], s)
  | S n => '(_, e, s) ← read_dirfd fd s; '(l, s) ← read_entries n fd s; Done (e :: l, s)
  end.

Lemma read_dirfd_ok s fd first B es k x :
  dir_lists s fd first B es k → es !! k = Some x →
  ∃ s', read_dirfd fd s = Done (1, Some (listed_name x), s') ∧ dir_lists s' fd first B es (S k).
Proof.
  intros [Hr Hl (ds & Hd & Hes & HB & Hlen) Hn Hi Hsm] Hx. unfold read_dirfd.
  assert (Hk : (k < List.length es)%nat) by (by eapply lookup_lt_Some).
  rewrite Z.geb_leb, (proj2 (Z.leb_gt _ _)), dir_entry_ok by lia. rewrite bind_done, Hl, Hn, Hi. cbn [Z.eqb].
  rewrite Z.geb_leb, (proj2 (Z.leb_gt _ _)) by lia. rewrite Hd.
  rewrite <- Hes in Hx. apply list_lookup_fmap_Some in Hx as (e & -> & He).
  destruct ds as [|d0 ds]; [done|]. rewrite Nat2Z.id, He. cbn [known]. rewrite bind_done.
  assert (Hnl : dn_name_len e = strlen_of (dn_name e)) by (rewrite Forall_lookup in Hlen; by apply (Hlen k)).
  eexists. split.
  - rewrite Hnl. unfold strlen_of at 1. by rewrite Nat2Z.id, firstn_all.
  - split; rewrite ?dir_at_set, ?decide_True by done; cbn; try done; [by exists (d0 :: ds)|].
    rewrite u32_small by lia. lia.
Qed.

Lemma read_entries_ok n s fd first B es k :
  dir_lists s fd first B es k → (k + n)%nat = List.length es →
  ∃ s', read_entries n fd s = Done (Some <$> (listed_name <$> drop k es), s') ∧ dir_lists s' fd first B es (List.length es).
Proof.
  revert s k. induction n as [|n IH]; intros s k Hd Hn; cbn [read_entries].
  - exists s. rewrite Nat.add_0_r in Hn. subst k. by rewrite drop_all.
  - destruct (lookup_lt_is_Some_2 es k) as [x Hx]; [lia|].
    destruct (read_dirfd_ok s fd first B es k x Hd Hx) as (s1 & -> & Hd1). rewrite bind_done.
    destruct (IH s1 (S k) Hd1) as (s2 & -> & Hd2); [lia|]. exists s2. split; [|done].
    by rewrite (drop_S _ _ _ Hx).
Qed.

Lemma read_dirfd_end s fd first B es :
  dir_lists s fd first B es (List.length es) → read_dirfd fd s = Done (0, None, s).
Proof.
  intros [Hr Hl _ Hn Hi _]. unfold read_dirfd. rewrite Z.geb_leb, (proj2 (Z.leb_gt _ _)), dir_entry_ok by lia.
  rewrite bind_done, Hl, Hn, Hi. cbn [Z.eqb]. by rewrite Z.geb_leb, (proj2 (Z.leb_le _ _)) by lia.
Qed.

Section Listing.
Context {A : Type} `{AllocatorOk A}.

Lemma get_dirfd_ok path mount flags mode s (L : gset Z) (h : A) :
  al_ok L h → 0 ≤ next_dirfd s < DIRS → strlen_of path ≤ 256 → strlen_of mount ≤ 256 →
  (∃ fd, 0 ≤ fd < DIRS ∧ fde_loaded (dir_fd (dir_at s fd)) = 0) →
  returns_or_panics (get_dirfd path mount flags mode s h) ∧
  ∀ x, get_dirfd path mount flags mode s h = Done x →
    fde_loaded (dir_fd (dir_at s x.1.1)) = 0 ∧
    ∃ first, (first ∉ L) ∧ al_ok ({[first]} ∪ L) x.2 ∧ dir_lists x.1.2 x.1.1 first [] [] 0.
Proof.
  intros Hal Hc Hp Hm (f0 & Hf0 & Hl0). unfold get_dirfd, VFS_FDE_NAME_MAX_LEN. rewrite !gtb_false by lia.
  set (hit := λ fd, '(first, h) ← al_malloc sizeof_dentry h;
    if first =? 0 then Fault else
    Done (fd, with_next_dirfd (fd + 1)
              (set_dir fd (Dir (loaded_entry path mount flags mode) [zero_dentry first] 0 0) s), h)).
  match goal with |- context [loop _ ?b _] =>
    destruct (cyclic_search DIRS (next_dirfd s) (λ fd, fde_loaded (dir_fd (dir_at s fd)) =? 0)
      hit (λ fd, (-1, with_next_dirfd fd s, h)) b) as [(fd & Hfd & Hf & ->)|[Hall _]]
  end; [done|..].
  - intros i fd Hfd Hi Hf. rewrite (proj2 (Z.ltb_lt _ _)), dir_entry_ok by done. rewrite bind_done, Hf. unfold hit.
    destruct (al_malloc sizeof_dentry h) as [[first h1]| | | |]; [|done..]. cbn. by destruct (first =? 0).
  - intros i fd Hfd Hi Hf. rewrite (proj2 (Z.ltb_lt _ _)), dir_entry_ok by done. by rewrite bind_done, Hf.
  - done.
  - unfold hit. destruct (al_malloc_ok L sizeof_dentry h Hal) as [Hr Hd]; [done|].
    apply (rop_bind (λ x, (x.1 ∉ L) ∧ al_ok ({[x.1]} ∪ L) x.2)); [done|by intros [r h1] E; apply Hd|].
    intros [first h1] [Hfr Hal1]. cbn in Hfr, Hal1.
    assert (first ≠ 0) by (eapply al_nonnull; [exact Hal1|set_solver]).
    rewrite (proj2 (Z.eqb_neq first 0)) by done. split; [apply rop_done|]. intros x [= <-]. zbool. split; [done|].
    exists first. split_and!; [done..|]. split; cbn; try done; unfold dir_at; cbn; rewrite lookup_insert_eq; cbn; try done.
    by exists [].
  - exfalso. specialize (Hall f0 Hf0). cbn in Hall. by rewrite Hl0 in Hall.
Qed.

Lemma add_file_ok name inode type s fd first B es k (L : gset Z) (h : A) :
  al_ok L h → dir_lists s fd first B es k → strlen_of name < 256 → Z.of_nat (List.length es) + 1 < 2 ^ 32 →
  returns_or_panics (add_file_to_dirfd fd name inode type (strlen_of name) s h) ∧
  ∀ x, add_file_to_dirfd fd name inode type (strlen_of name) s h = Done x →
    x.1.1 = 1 ∧ ∃ a, (a ∉ L) ∧ al_ok ({[a]} ∪ L) x.2 ∧
    dir_lists x.1.2 fd first (B ++ [a])%list (es ++ [(name, inode, type)])%list k.
Proof.
  intros Hal [Hr Hl (ds & Hd & Hes & HB & Hlen) Hn Hi Hsm] Hname Hsm'. unfold add_file_to_dirfd, VFS_FDE_NAME_MAX_LEN.
  rewrite Z.geb_leb, (proj2 (Z.leb_gt _ _)), gtb_false, dir_entry_ok by lia. rewrite bind_done, Hl. cbn [Z.eqb].
  rewrite Hd. destruct (al_malloc_ok L sizeof_dentry h Hal) as [Hrp Hd1]; [done|].
  apply (rop_bind (λ x, (x.1 ∉ L) ∧ al_ok ({[x.1]} ∪ L) x.2)); [done|by intros [r h1] E; apply Hd1|].
  intros [a h1] [Ha Hal1]. cbn in Ha, Hal1. assert (a ≠ 0) by (eapply al_nonnull; [exact Hal1|set_solver]).
  rewrite (proj2 (Z.eqb_neq a 0)) by done. split; [apply rop_done|]. intros x [= <-]. split; [done|].
  exists a. split_and!; [done..|]. unfold fills, VFS_FDE_NAME_MAX_LEN. rewrite (proj2 (Z.eqb_neq _ _)) by lia.
  split; cbn [fst snd]; rewrite ?dir_at_set, ?decide_True by done; cbn [dir_fd dentries dir_number dir_index]; try done.
  - exists (ds ++ [Dentry a name (strlen_of name) inode type])%list. rewrite !fmap_app, Hes, HB. split_and!; try done.
    apply Forall_app. split; [done|by constructor].
  - rewrite Hn, length_app. cbn. rewrite u32_small by lia. lia.
  - rewrite length_app. cbn. lia.
Qed.

(** The calls of a file system that loads the entries. *)
Fixpoint add_entries (fd : Z) (es : list (list Z * Z * Z)) (s : fds) (h : A) : outcome (fds * A) :=
  match es with
  | [] => Done (s, h)
  | e :: es => '(_, s, h) ← add_file_to_dirfd fd e.1.1 e.1.2 e.2 (strlen_of e.1.1) s h; add_entries fd es s h
  end.

Lemma add_entries_ok es2 fd s first B es k (L : gset Z) (h : A) :
  al_ok (list_to_set B ∪ L) h → dir_lists s fd first B es k → NoDup B → Forall (λ a, a ∉ L) B →
  Forall (λ e, strlen_of e.1.1 < 256) es2 → Z.of_nat (List.length (es ++ es2)) < 2 ^ 32 →
  returns_or_panics (add_entries fd es2 s h) ∧
  ∀ x, add_entries fd es2 s h = Done x →
    ∃ B2, dir_lists x.1 fd first B2 (es ++ es2)%list k ∧ NoDup B2 ∧ Forall (λ a, a ∉ L) B2 ∧
      al_ok (list_to_set B2 ∪ L) x.2.
Proof.
  revert s B es h. induction es2 as [|[[name inode] type] es2 IH]; intros s B es h Hal Hd Hnd HL Hs Hlen; cbn [add_entries].
  - split; [apply rop_done|]. intros x [= <-]. rewrite app_nil_r. by exists B.
  - rewrite length_app in Hlen. cbn in Hlen. apply Forall_cons in Hs as [Hs1 Hs2]. cbn [fst snd] in *.
    destruct (add_file_ok name inode type s fd first B es k _ h Hal Hd Hs1) as [Hr Hx]; [lia|].
    eapply rop_bind; [exact Hr|exact Hx|]. intros [[r s1] h1] (_ & a & Ha & Hal1 & Hd1). cbn in Hal1, Hd1.
    rewrite (cons_middle _ es es2). rewrite app_assoc. apply (IH s1 (B ++ [a])%list).
    + eapply (eq_rect _ (λ X, al_ok X h1) Hal1). rewrite list_to_set_app_L. set_solver.
    + done.
    + apply NoDup_app. split_and!; [done|set_solver|apply NoDup_singleton].
    + apply Forall_app. split; [done|]. constructor; [set_solver|done].
    + done.
    + rewrite !length_app. cbn. lia.
Qed.

Lemma free_dentries_ok ds (L : gset Z) (h : A) :
  al_ok (list_to_set (dn_addr <$> ds) ∪ L) h → NoDup (dn_addr <$> ds) → Forall (λ a, a ∉ L) (dn_addr <$> ds) →
  ∃ h', free_dentries ds h = Done h' ∧ al_ok L h'.
Proof.
  revert h. induction ds as [|e ds IH]; intros h Hal Hnd HL; cbn [free_dentries].
  - exists h. split; [done|]. eapply (eq_rect _ (λ X, al_ok X h) Hal). set_solver.
  - cbn in Hnd, HL. apply NoDup_cons in Hnd as [He Hnd]. apply Forall_cons in HL as [HeL HL].
    destruct (al_free_ok _ (dn_addr e) h Hal) as (h1 & -> & Hal1); [cbn; set_solver|]. rewrite bind_done.
    apply IH; [|done..]. eapply (eq_rect _ (λ X, al_ok X h1) Hal1). cbn. set_solver.
Qed.

(** A directory opened, loaded with [es], listed and closed. *)
Definition list_directory (path mount : list Z) (es : list (list Z * Z * Z)) (s : fds) (h : A) :=
  '(fd, s, h) ← get_dirfd path mount 0 0 s h;
  '(s, h) ← add_entries fd es s h;
  '(l, s) ← read_entries (List.length es) fd s;
  '(last, _, s) ← read_dirfd fd s;
  '(r, s, h) ← release_dirfd fd s h;
  Done (fd, l, last, r, s, h).

Lemma release_dirfd_ok s fd first B es k (L : gset Z) (h : A) :
  al_ok (list_to_set B ∪ L) h → dir_lists s fd first B es k → NoDup B → Forall (λ a, a ∉ L) B →
  ∃ h', release_dirfd fd s h = Done (0, set_dir fd (unload_dir (dir_at s fd)) s, h') ∧ al_ok L h'.
Proof.
  intros Hal [Hr _ (ds & Hd & _ & HB & _) _ _ _] Hnd HL. unfold release_dirfd.
  rewrite Z.geb_leb, (proj2 (Z.leb_gt _ _)), dir_entry_ok by lia. rewrite bind_done, Hd. subst B.
  destruct (free_dentries_ok ds L h Hal Hnd HL) as (h' & -> & Hal'). by exists h'.
Qed.

(** A directory delivers what it was loaded with.  Opening a directory, adding entries,
    reading them all and closing it again runs without a fault: the descriptor was free, the
    reads return the names, lengths and types of the entries in order and then the end, the
    descriptor is closed at the end, and of the heap blocks taken only the first, empty one
    is still in use. *)
Theorem directory_listing path mount es s (L : gset Z) (h : A) :
  al_ok L h → 0 ≤ next_dirfd s < DIRS → strlen_of path ≤ 256 → strlen_of mount ≤ 256 →
  (∃ fd, 0 ≤ fd < DIRS ∧ fde_loaded (dir_fd (dir_at s fd)) = 0) →
  Forall (λ e, strlen_of e.1.1 < 256) es → Z.of_nat (List.length es) < 2 ^ 32 →
  returns_or_panics (list_directory path mount es s h) ∧
  ∀ fd l last r s' h', list_directory path mount es s h = Done (fd, l, last, r, s', h') →
    fde_loaded (dir_fd (dir_at s fd)) = 0 ∧ l = Some <$> (listed_name <$> es) ∧ last = 0 ∧ r = 0 ∧
    fde_loaded (dir_fd (dir_at s' fd)) = 0 ∧ ∃ first, (first ∉ L) ∧ al_ok ({[first]} ∪ L) h'.
Proof.
  intros Hal Hc Hp Hm Hfree Hes Hlen. unfold list_directory.
  cut (returns_or_panics (list_directory path mount es s h) ∧
    ∀ x, list_directory path mount es s h = Done x →
      fde_loaded (dir_fd (dir_at s x.1.1.1.1.1)) = 0 ∧ x.1.1.1.1.2 = Some <$> (listed_name <$> es) ∧ x.1.1.1.2 = 0 ∧
      x.1.1.2 = 0 ∧ fde_loaded (dir_fd (dir_at x.1.2 x.1.1.1.1.1)) = 0 ∧
      ∃ first, (first ∉ L) ∧ al_ok ({[first]} ∪ L) x.2).
  { intros [Hr Hx]. split; [done|]. intros fd l last r s' h' E. apply (Hx _ E). }
  unfold list_directory. destruct (get_dirfd_ok path mount 0 0 s L h Hal Hc Hp Hm Hfree) as [Hr Hd].
  eapply rop_bind; [exact Hr|exact Hd|]. intros [[fd s1] h1] (Hl & first & Hfirst & Hal1 & Hd1). cbn in Hl, Hal1, Hd1.
  destruct (add_entries_ok es fd s1 first [] [] 0 ({[first]} ∪ L) h1) as [Hr2 Hd2]; try done.
  { eapply (eq_rect _ (λ X, al_ok X h1) Hal1). set_solver. }
  { constructor. }
  eapply rop_bind; [exact Hr2|exact Hd2|]. intros [s2 h2] (B & Hd3 & Hnd & HB & Hal2). cbn in Hd3, Hal2.
  destruct (read_entries_ok (List.length es) s2 fd first B es 0 Hd3 eq_refl) as (s3 & -> & Hd4). rewrite bind_done.
  rewrite (read_dirfd_end _ _ _ _ _ Hd4), bind_done.
  destruct (release_dirfd_ok s3 fd first B es _ _ h2 Hal2 Hd4 Hnd HB) as (h3 & -> & Hal3). rewrite bind_done.
  split; [apply rop_done|]. intros x [= <-]. cbn. rewrite drop_0, dir_at_set, decide_True by done.
  split_and!; try done. by exists first.
Qed.
End Listing.

(** A directory with two entries on the heap of [kernel1]. *)
Definition two_entries : list (list Z * Z * Z) := [([97; 98], 12, 1); ([99], 13, 2)].

Lemma directory_listing_witness :
  ∃ fd r s h, @list_directory _ kmalloc_allocator [47] [104] two_entries no_fds kernel1 =
    Done (fd, [Some ([97; 98], 2, 1); Some ([99], 1, 2)], 0, r, s, h).
Proof.
  destruct (@directory_listing _ kmalloc_allocator kmalloc_allocator_ok [47] [104] two_entries no_fds ∅ kernel1) as [_ HD].
  - apply kernel1_alloc.
  - done.
  - done.
  - done.
  - by exists 0.
  - by repeat constructor.
  - done.
  - destruct (is_done_returns (@list_directory _ kmalloc_allocator [47] [104] two_entries no_fds kernel1))
      as [[[[[[fd l] last] r] s] h] E]; [by vm_compute|].
    destruct (HD _ _ _ _ _ _ E) as (_ & -> & -> & _ & _ & _). by exists fd, r, s, h.
Defined.
