(* ===== verification/Partition.v ===== *)
(** * Partition tables (src/src/vfs/partition/gpt.c, mbr.c and their headers)

    A disk is read by sectors through the device registry, by the name of its device; the
    tables found there are turned into the partitions the virtual file system mounts.  What
    the sources pass to the callback [add_part], one call for each partition, is the list
    returned here.  A sector that was not stored in full has no known contents. *)
From Stdlib Require Import String.
From S2P Require Import Prelude PageService Alloc KernelHeap CString Devices DevicesSpec.
#[local] Open Scope Z_scope.

Definition MBR_BOOT_SIG : Z := 510.
Definition MBR_BOOT_SIG_VALUE : Z := 0xAA55.
Definition GPT_SIGNATURE : Z := 0x5452415020494645.
Definition GPT_NO_ENTRY : list Z := chars "00000000-0000-0000-0000-000000000000".
Definition sizeof_gpt_header : Z := 512.

(** The arguments of [add_part]. *)
Record part_info := PartInfo { pi_lba : Z; pi_size : Z; pi_status : Z; pi_type : Z }.

Record mbr_partition := MbrPartition { mp_type : Z; mp_lba_start : Z; mp_sectors : Z }.
Record gpt_header := GptHeader {
  gh_signature : Z; gh_table_lba : Z; gh_partition_count : Z; gh_entry_size : Z;
}.
Record gpt_entry := GptEntry { ge_type_guid : list Z; ge_first_lba : Z; ge_last_lba : Z }.

(** [n] bytes of a buffer, least significant first. *)
Definition field (b : list Z) (off n : nat) : Z := le_value (take n (drop off b)).

Definition mbr_partition_at (b : list Z) (i : nat) : mbr_partition :=
  let o := (446 + 16 * i)%nat in
  MbrPartition (field b (o + 4) 1) (field b (o + 8) 4) (field b (o + 12) 4).

Definition gpt_header_of (b : list Z) : gpt_header :=
  GptHeader (field b 0 8) (field b 72 8) (field b 80 4) (field b 84 4).

Definition gpt_entry_at (b : list Z) (i : nat) : gpt_entry :=
  let o := (128 * i)%nat in
  GptEntry (take 16 (drop o b)) (field b (o + 32) 8) (field b (o + 40) 8).

(** [n] hexadecimal digits, as [%0nx] prints a number that has no more. *)
Fixpoint hex_text (n : nat) (v : Z) : list Z :=
  match n with O => [] | S n => (hex_text n (v / 16) ++ [hex_digit (v mod 16)])%list end.

(** The text of a type: three little-endian numbers and eight bytes. *)
Definition guid_text (g : list Z) : list Z :=
  (hex_text 8 (field g 0 4) ++ [45] ++ hex_text 4 (field g 4 2) ++ [45] ++ hex_text 4 (field g 6 2) ++ [45] ++
   hex_text 2 (field g 8 1) ++ hex_text 2 (field g 9 1) ++ [45] ++
   hex_text 2 (field g 10 1) ++ hex_text 2 (field g 11 1) ++ hex_text 2 (field g 12 1) ++
   hex_text 2 (field g 13 1) ++ hex_text 2 (field g 14 1) ++ hex_text 2 (field g 15 1))%list.

Definition no_entry (e : gpt_entry) : bool := bool_decide (guid_text (ge_type_guid e) = GPT_NO_ENTRY).

Section Tables.
Context {W : Type} (rg : registry W) {A : Type} `{Allocator A}.
Implicit Types (w : W) (h : A).

(** The result is cut to eight bits. *)
Definition disk_read (disk : list Z) (lba count : Z) w : outcome (Z * list Z * W) :=
  '(r, bytes, w) ← device_read rg disk count lba w; Done (u8 r, bytes, w).

(** One sector into a buffer of 512 bytes; [None] when the read fails. *)
Definition read_sector (disk : list Z) (lba : Z) w : outcome (option (list Z) * W) :=
  '(r, bytes, w) ← disk_read disk lba 1 w;
  if r =? 0 then Done (None, w) else
  if (List.length bytes =? 512)%nat then Done (Some bytes, w) else Fault.

Definition boot_signature (b : list Z) : bool := field b (Z.to_nat MBR_BOOT_SIG) 2 =? MBR_BOOT_SIG_VALUE.

Definition read_mbr (disk : list Z) w : outcome (list part_info * W) :=
  '(s, w) ← read_sector disk 0 w;
  match s with
  | None => Done ([], w)
  | Some b =>
      if negb (boot_signature b) then Done ([], w) else
      Done (mbind (λ i, let p := mbr_partition_at b i in
                        if negb (mp_sectors p =? 0) then [PartInfo (mp_lba_start p) (mp_sectors p) 1 (mp_type p)] else [])
                  (seq 0 4), w)
  end.

(** The entries, four to a sector; the sector that crosses the end of the array on the
    stack is stored outside it.  [None] when a read fails. *)
Definition gpt_step (disk : list Z) (hd : gpt_header) (st : Z * list Z * W) :
    outcome (Z * list Z * W + option (list Z) * W) :=
  let '(i, table, w) := st in
  if i <? gh_partition_count hd then
    '(s, w) ← read_sector disk (u32 (gh_table_lba hd + Z.shiftr (u32 (i * gh_entry_size hd)) 9)) w;
    match s with
    | None => Done (inr (None, w))
    | Some b =>
        if i + 4 >? gh_partition_count hd then Fault else Done (inl (u32 (i + 4), (table ++ b)%list, w))
    end
  else Done (inr (Some table, w)).

Definition read_entries_gpt (disk : list Z) (hd : gpt_header) w : outcome (option (list Z) * W) :=
  loop (S (Z.to_nat (gh_partition_count hd))) (gpt_step disk hd) (0, [], w).

(** The entries before the first unused one. *)
Fixpoint valid_entries (n : nat) (table : list Z) (i : nat) : list gpt_entry :=
  match n with
  | O => []
  | S n =>
      let e := gpt_entry_at table i in
      if no_entry e then [] else e :: valid_entries n table (S i)
  end.

Definition gpt_part (e : gpt_entry) : part_info :=
  PartInfo (u32 (ge_first_lba e)) (u32 (ge_last_lba e - ge_first_lba e)) 0 0.

(** An eight-bit counter runs up to the number of partitions.  The header stays
    allocated. *)
Definition read_gpt (disk : list Z) w h : outcome (list part_info * W * A) :=
  '(s, w) ← read_sector disk 0 w;
  match s with
  | None => Done ([], w, h)
  | Some b =>
      if negb (boot_signature b) then Done ([], w, h) else
      '(hdr, h) ← al_malloc sizeof_gpt_header h;
      if hdr =? 0 then Fault else
      '(s, w) ← read_sector disk 1 w;
      match s with
      | None => Done ([], w, h)
      | Some b =>
          let hd := gpt_header_of b in
          if negb (gh_signature hd =? GPT_SIGNATURE) then Done ([], w, h) else
          '(t, w) ← read_entries_gpt disk hd w;
          match t with
          | None => Done ([], w, h)
          | Some table =>
              let valid := valid_entries (Z.to_nat (gh_partition_count hd)) table 0 in
              if Z.of_nat (List.length valid) >? 255 then Spin else
              Done (gpt_part <$> valid, w, h)
          end
      end
  end.
End Tables.

(** ** Type identifiers *)
Lemma hex_text_length n v : List.length (hex_text n v) = n.
Proof. revert v. induction n as [|n IH]; intros v; [done|]. cbn [hex_text]. rewrite length_app, IH. cbn. lia. Qed.

Lemma hex_text_zero n v : 0 ≤ v < 16 ^ Z.of_nat n → hex_text n v = replicate n 48 → v = 0.
Proof.
  revert v. induction n as [|n IH]; intros v Hv E; [cbn in Hv; lia|]. cbn [hex_text] in E.
  rewrite replicate_S_end in E. apply app_inj_tail in E as [E1 E2].
  rewrite Nat2Z.inj_succ, Z.pow_succ_r in Hv by lia.
  assert (v / 16 = 0). { apply IH; [|done]. split; [apply Z.div_pos; lia|apply Z.div_lt_upper_bound; lia]. }
  assert (v mod 16 = 0). { pose proof (Z.mod_pos_bound v 16). unfold hex_digit in E2. destruct (Z.ltb_spec (v mod 16) 10); lia. }
  dlia.
Qed.

Lemma le_value_range l : Forall is_byte l → 0 ≤ le_value l < 256 ^ Z.of_nat (List.length l).
Proof.
  induction 1 as [|b l Hb _ IH]; [done|]. cbn [le_value List.length]. unfold is_byte in Hb.
  rewrite Nat2Z.inj_succ, Z.pow_succ_r by lia. nia.
Qed.

Lemma le_value_zero l : Forall is_byte l → le_value l = 0 → Forall (λ b, b = 0) l.
Proof.
  induction 1 as [|b l Hb Hl IH]; [constructor|]. cbn [le_value]. intros E. pose proof (le_value_range l Hl).
  unfold is_byte in Hb. constructor; [lia|]. apply IH. lia.
Qed.

(** A number of [k] bytes printed as zeros consists of zero bytes. *)
Lemma hex_bytes_zero k l :
  Forall is_byte l → List.length l = k → hex_text (2 * k) (le_value l) = replicate (2 * k) 48 → Forall (λ b, b = 0) l.
Proof.
  intros Hl Hk E. apply le_value_zero; [done|]. apply hex_text_zero in E; [done|]. subst k.
  rewrite Nat2Z.inj_mul, Z.pow_mul_r by lia. by apply le_value_range.
Qed.

(** The text is that of an unused entry exactly when all bytes are zero. *)
Lemma guid_text_zero g : Forall is_byte g → List.length g = 16%nat → guid_text g = GPT_NO_ENTRY ↔ g = replicate 16 0.
Proof.
  intros Hg Hlen. split; [|by intros ->].
  do 16 (destruct g as [|? g]; [done|]). destruct g; [|done]. clear Hlen.
  change GPT_NO_ENTRY with (replicate (2 * 4) 48 ++ [45] ++ replicate (2 * 2) 48 ++ [45] ++ replicate (2 * 2) 48 ++ [45] ++
    replicate (2 * 1) 48 ++ replicate (2 * 1) 48 ++ [45] ++ replicate (2 * 1) 48 ++ replicate (2 * 1) 48 ++
    replicate (2 * 1) 48 ++ replicate (2 * 1) 48 ++ replicate (2 * 1) 48 ++ replicate (2 * 1) 48)%list.
  unfold guid_text, field. cbn [drop take].
  intros E. repeat (apply app_inj_1 in E as [? E]; [|by rewrite hex_text_length, length_replicate || reflexivity]).
  rewrite !Forall_cons in Hg. destruct_and!.
  repeat match goal with
  | E : hex_text ?n (le_value ?l) = _ |- _ =>
      let k := eval cbv in (List.length l) in
      let Hz := fresh "Hz" in
      assert (Hz : Forall (λ b, b = 0) l);
      [apply (hex_bytes_zero k); [|done|exact E]; by repeat first [assumption|apply Forall_cons; split]|clear E]
  end.
  repeat match goal with Hz : Forall (λ b, b = 0) (_ :: _) |- _ => apply Forall_cons in Hz as [-> Hz] end. done.
Qed.

(** ** Reading a table *)
Lemma slice_inside (pre b post : list Z) o n :
  (o + n ≤ List.length b)%nat → take n (drop (List.length pre + o) (pre ++ b ++ post)) = take n (drop o b).
Proof.
  intros Hb. rewrite <- drop_drop, drop_app_length. rewrite drop_app_le by lia. apply take_app_le.
  rewrite length_drop. lia.
Qed.

Lemma entry_inside (pre b post : list Z) q r :
  List.length pre = (512 * q)%nat → List.length b = 512%nat → (r < 4)%nat →
  gpt_entry_at (pre ++ b ++ post) (4 * q + r) = gpt_entry_at b r.
Proof.
  intros Hpre Hb Hr. unfold gpt_entry_at, field.
  replace (128 * (4 * q + r))%nat with (List.length pre + 128 * r)%nat by lia.
  rewrite <- !Nat.add_assoc, !slice_inside by lia. done.
Qed.

(** A device whose driver delivers the sectors of an image. *)
Definition image {W} (rg : registry W) (disk : list Z) (sectors : Z → list Z) (w : W) : Prop :=
  ∀ lba, 0 ≤ lba < 2 ^ 32 →
    device_read rg disk 1 lba w = Done (1, sectors lba, w) ∧
    List.length (sectors lba) = 512%nat ∧ Forall is_byte (sectors lba).

(** The entries of the table, and those before the first whose type is all zeros. *)
Definition table_entry (sectors : Z → list Z) (lba : Z) (i : nat) : gpt_entry :=
  gpt_entry_at (sectors (lba + Z.of_nat (i / 4))) (i mod 4).

Fixpoint used_prefix (l : list gpt_entry) : list gpt_entry :=
  match l with
  | [] => []
  | e :: l => if decide (ge_type_guid e = replicate 16 0) then [] else e :: used_prefix l
  end.

Section Reading.
Context {W : Type} (rg : registry W) (disk : list Z) (sectors : Z → list Z) (w : W).
Hypothesis Himage : image rg disk sectors w.

Lemma read_sector_ok lba : 0 ≤ lba < 2 ^ 32 → read_sector rg disk lba w = Done (Some (sectors lba), w).
Proof.
  intros Hl. destruct (Himage lba Hl) as (E & Hlen & _). unfold read_sector, disk_read. rewrite E, !bind_done.
  change (u8 1 =? 0) with false. by rewrite Hlen.
Qed.

Definition table_bytes (lba : Z) (n : nat) : list Z := mbind sectors (seqZ lba (Z.of_nat n)).

Lemma table_bytes_S lba n : table_bytes lba (S n) = (table_bytes lba n ++ sectors (lba + Z.of_nat n))%list.
Proof.
  unfold table_bytes. rewrite seqZ_S, bind_app. cbn. by rewrite app_nil_r.
Qed.

Lemma table_bytes_length lba n :
  0 ≤ lba → lba + Z.of_nat n ≤ 2 ^ 32 → List.length (table_bytes lba n) = (512 * n)%nat.
Proof.
  intros Hl. induction n as [|n IH]; intros Hn; [done|]. rewrite table_bytes_S, length_app, IH by lia.
  destruct (Himage (lba + Z.of_nat n)) as (_ & -> & _); lia.
Qed.

Lemma table_bytes_entry lba n i :
  0 ≤ lba → lba + Z.of_nat n ≤ 2 ^ 32 → (i < 4 * n)%nat →
  gpt_entry_at (table_bytes lba n) i = table_entry sectors lba i.
Proof.
  intros Hl Hn Hi. assert (Hq : (i / 4 < n)%nat) by (apply Nat.Div0.div_lt_upper_bound; lia).
  assert (E : ∃ post, table_bytes lba n = (table_bytes lba (i / 4) ++ sectors (lba + Z.of_nat (i / 4)) ++ post)%list).
  { clear Hi. revert Hn Hq. generalize (i / 4)%nat as q. induction n as [|n IH]; intros q Hn Hq; [lia|].
    rewrite table_bytes_S. destruct (decide (q = n)) as [->|]; [exists []; by rewrite app_nil_r|].
    destruct (IH q) as [post ->]; [lia..|]. exists (post ++ sectors (lba + Z.of_nat n))%list. by rewrite <- !app_assoc. }
  destruct E as [post ->]. rewrite (Nat.div_mod_eq i 4) at 3. apply entry_inside.
  - apply table_bytes_length; lia.
  - destruct (Himage (lba + Z.of_nat (i / 4))) as (_ & -> & _); lia.
  - by apply Nat.mod_upper_bound.
Qed.

Lemma read_entries_gpt_ok hd n :
  gh_partition_count hd = 4 * Z.of_nat n → gh_entry_size hd = 128 → 4 * Z.of_nat n < 2 ^ 25 →
  0 ≤ gh_table_lba hd → gh_table_lba hd + Z.of_nat n ≤ 2 ^ 32 →
  read_entries_gpt rg disk hd w = Done (Some (table_bytes (gh_table_lba hd) n), w).
Proof.
  intros Hc Hs Hn Hl0 Hl. unfold read_entries_gpt.
  assert (∀ fuel j, (j ≤ n)%nat → (n - j < fuel)%nat →
    loop fuel (gpt_step rg disk hd) (4 * Z.of_nat j, table_bytes (gh_table_lba hd) j, w) =
    Done (Some (table_bytes (gh_table_lba hd) n), w)) as Hloop; [|apply (Hloop _ 0%nat); lia].
  induction fuel as [|fuel IH]; intros j Hj Hf; [lia|]. cbn [loop]. unfold gpt_step at 2. cbv beta iota. rewrite Hc.
  destruct (decide (j = n)) as [->|Hne]; [by rewrite Z.ltb_irrefl|]. rewrite (proj2 (Z.ltb_lt _ _)), Hs by lia.
  replace (Z.shiftr (u32 (4 * Z.of_nat j * 128)) 9) with (Z.of_nat j).
  2: { rewrite u32_small, Z.shiftr_div_pow2 by lia. change (2 ^ 9) with 512.
       replace (4 * Z.of_nat j * 128) with (Z.of_nat j * 512) by lia. by rewrite Z.div_mul. }
  rewrite (u32_small (gh_table_lba hd + _)), read_sector_ok by lia. rewrite !bind_done.
  rewrite gtb_false by lia. rewrite bind_done, (u32_small (4 * _ + 4)) by lia. rewrite <- table_bytes_S.
  replace (4 * Z.of_nat j + 4) with (4 * Z.of_nat (S j)) by lia. apply IH; lia.
Qed.
End Reading.

Section Gpt.
Context {W : Type} (rg : registry W) {A : Type} `{AllocatorOk A}.

Lemma valid_entries_ok disk sectors w lba n m i :
  image rg disk sectors w → 0 ≤ lba → lba + Z.of_nat n ≤ 2 ^ 32 → (i + m ≤ 4 * n)%nat →
  valid_entries m (table_bytes sectors lba n) i = used_prefix (table_entry sectors lba <$> seq i m).
Proof.
  intros Hi Hl Hn. revert i. induction m as [|m IH]; intros i Hm; [done|]. cbn [valid_entries seq fmap list_fmap used_prefix].
  rewrite (table_bytes_entry rg disk sectors w Hi) by lia. rewrite IH by lia.
  assert (Hg : guid_text (ge_type_guid (table_entry sectors lba i)) = GPT_NO_ENTRY ↔
               ge_type_guid (table_entry sectors lba i) = replicate 16 0).
  { assert ((i / 4 < n)%nat) by (apply Nat.Div0.div_lt_upper_bound; lia).
    assert ((i mod 4 < 4)%nat) by (by apply Nat.mod_upper_bound).
    destruct (Hi (lba + Z.of_nat (i / 4))) as (_ & Hlen & Hb); [lia|]. apply guid_text_zero.
    - by apply Forall_take, Forall_drop.
    - cbn [ge_type_guid table_entry gpt_entry_at]. rewrite length_take, length_drop. lia. }
  unfold no_entry. case_decide as E; [by rewrite bool_decide_eq_true_2 by (by apply Hg)|].
  by rewrite bool_decide_eq_false_2 by (by rewrite Hg).
Qed.

End Gpt.

(** A disk with one partition, from sector 40 to sector 99, as device hda. *)
Definition gpt_sector (lba : Z) : list Z :=
  if lba =? 0 then (replicate 510 0 ++ [0x55; 0xAA])%list else
  if lba =? 1 then
    (chars "EFI PART" ++ replicate 64 0 ++ [2; 0; 0; 0; 0; 0; 0; 0; 4; 0; 0; 0; 128; 0; 0; 0] ++ replicate 424 0)%list else
  if lba =? 2 then
    (replicate 16 7 ++ replicate 16 9 ++ [40; 0; 0; 0; 0; 0; 0; 0; 99; 0; 0; 0; 0; 0; 0; 0] ++ replicate 464 0)%list
  else replicate 512 0.

Definition gpt_registry : registry unit :=
  Registry [hda; cleared_device 0x140] (λ _, DeviceDriver None None 0 [])
    (λ _, DeviceDriver (Some (FileOps (Some (λ port size lba w, Done (1, gpt_sector lba, w))) None None)) None 1 [])
    (λ _, DeviceDriver None None 0 []).

Lemma gpt_image : image gpt_registry (chars "hda") gpt_sector tt.
Proof.
  intros lba _. split; [done|]. unfold gpt_sector, is_byte.
  repeat (destruct (_ =? _); [split; [done|refine (bool_decide_eq_true_1 _ _); by vm_compute]|]).
  split; [done|refine (bool_decide_eq_true_1 _ _); by vm_compute].
Qed.

