(* ===== verification/Vfs.v ===== *)
(** * The virtual file system (src/src/vfs/vfs.c, vfs.h, vfs_interface.c)

    File systems register a table of operations; devices are scanned for partitions, each
    partition is offered to the file systems and mounted by the first that recognises it,
    and a path is served by the file system of the mount whose name it starts with.  A
    file system acts on the descriptor tables, on the state [W] of the devices and on the
    heap [A].  The lists of file systems and of mounts end in a cleared node, as in the
    source, and are empty while their head is NULL; a pointer to one of their nodes is its
    position.  A partition is known by its address. *)
From Stdlib Require Import String.
From stdpp Require Import gmap.
From S2P Require Import Prelude PageService Alloc Devices Partition VfsFd.
#[local] Open Scope Z_scope.

Definition VFS_COMPAT_FS_NAME_MAX_LEN : Z := 32.
Definition VFS_MAX_DEVICES : Z := 512.
Definition sizeof_mount : Z := 40.
Definition sizeof_partition : Z := 72.
Definition sizeof_fst : Z := 488.

(** What a file system works on. *)
Record vst (W A : Type) := Vst { st_fds : fds; st_dev : W; st_heap : A }.
Arguments Vst {W A} _ _ _.
Arguments st_fds {W A} _.
Arguments st_dev {W A} _.
Arguments st_heap {W A} _.

Definition with_fds {W A} v (s : vst W A) : vst W A := Vst v (st_dev s) (st_heap s).
Definition with_dev {W A} v (s : vst W A) : vst W A := Vst (st_fds s) v (st_heap s).
Definition with_heap {W A} v (s : vst W A) : vst W A := Vst (st_fds s) (st_dev s) v.

Abbreviation call W A R := (vst W A → outcome (R * vst W A)).

(** The function pointers; [None] is NULL.  A read also delivers the bytes it stores. *)
Record fs_ops (W A : Type) := FsOps {
  op_register_partition : option (list Z → Z → list Z → call W A Z);
  op_unregister_partition : option (Z → call W A Z);
  op_detect : option (list Z → Z → call W A Z);
  op_flush : option (Z → call W A Z);
  op_file_flush : option (Z → Z → call W A Z);
  op_file_open : option (Z → list Z → Z → Z → call W A Z);
  op_file_close : option (Z → Z → call W A Z);
  op_file_creat : option (Z → list Z → Z → call W A Z);
  op_file_read : option (Z → Z → Z → call W A (Z * list Z));
  op_file_write : option (Z → Z → list Z → Z → call W A Z);
  op_file_seek : option (Z → Z → Z → Z → call W A Z);
  op_file_tell : option (Z → Z → call W A Z);
  op_file_stat : option (Z → Z → call W A Z);
  op_dir_open : option (Z → list Z → call W A Z);
  op_dir_close : option (Z → Z → call W A Z);
  op_dir_load : option (Z → Z → call W A Z);
  op_dir_read : option (Z → Z → call W A (Z * option (list Z * Z * Z)));
  op_dir_creat : option (Z → list Z → Z → call W A Z);
  op_prepare_remove : option (Z → list Z → call W A Z);
  op_rename : option (Z → list Z → list Z → call W A Z);
  op_remove : option (Z → list Z → call W A Z);
  op_chmod : option (Z → list Z → Z → call W A Z);
  op_debug : option (call W A unit);
}.
Arguments op_register_partition {W A} _.
Arguments op_unregister_partition {W A} _.
Arguments op_detect {W A} _.
Arguments op_flush {W A} _.
Arguments op_file_flush {W A} _.
Arguments op_file_open {W A} _.
Arguments op_file_close {W A} _.
Arguments op_file_creat {W A} _.
Arguments op_file_read {W A} _.
Arguments op_file_write {W A} _.
Arguments op_file_seek {W A} _.
Arguments op_file_tell {W A} _.
Arguments op_file_stat {W A} _.
Arguments op_dir_open {W A} _.
Arguments op_dir_close {W A} _.
Arguments op_dir_load {W A} _.
Arguments op_dir_read {W A} _.
Arguments op_dir_creat {W A} _.
Arguments op_prepare_remove {W A} _.
Arguments op_rename {W A} _.
Arguments op_remove {W A} _.
Arguments op_chmod {W A} _.
Arguments op_debug {W A} _.

Definition no_ops {W A} : fs_ops W A :=
  FsOps W A None None None None None None None None None None None None None None None None None None None None None None
    None.

(** [struct vfs_compatible] and [struct vfs_file_system_type] have the same fields. *)
Record fs_type (W A : Type) := FsType {
  fs_name : list Z; fs_majors : list Z; fs_major_no : Z; fs_operations : fs_ops W A;
}.
Arguments FsType {W A} _ _ _ _.
Arguments fs_name {W A} _.
Arguments fs_majors {W A} _.
Arguments fs_major_no {W A} _.
Arguments fs_operations {W A} _.

Definition cleared_fst {W A} : fs_type W A := FsType [] (replicate 256 0) 0 no_ops.

Record vfs_partition := VfsPartition { p_name : list Z; p_lba : Z; p_size : Z; p_status : Z; p_type : Z }.
Definition cleared_partition : vfs_partition := VfsPartition [] 0 0 0 0.
Definition with_p_name v p := VfsPartition v (p_lba p) (p_size p) (p_status p) (p_type p).

(** The nodes behind [partitions], in order; the last is the cleared one. *)
Record vfs_devmap := VfsDevmap { dm_dev : Z; dm_partitions : list Z; dm_partition_no : Z }.

Record vfs_mount := VfsMount { m_device : Z; m_partition : Z; m_fst : option nat; m_internal_index : Z }.
Definition cleared_mount : vfs_mount := VfsMount 0 0 None 0.

Record vfs (W A : Type) := Vfs {
  v_fsts : list (fs_type W A); v_mounts : list vfs_mount; v_current_root : option nat;
  v_parts : gmap Z vfs_partition; v_root : gmap Z vfs_devmap; v_root_size : Z;
}.
Arguments Vfs {W A} _ _ _ _ _ _.
Arguments v_fsts {W A} _.
Arguments v_mounts {W A} _.
Arguments v_current_root {W A} _.
Arguments v_parts {W A} _.
Arguments v_root {W A} _.
Arguments v_root_size {W A} _.

(** Everything is static and cleared at start. *)
Definition no_vfs {W A} : vfs W A := Vfs [] [] None ∅ ∅ 0.

(** A string in a field, up to its terminator. *)
Fixpoint c_string (l : list Z) : list Z :=
  match l with [] => [] | c :: l => if c =? 0 then [] else c :: c_string l end.
Definition device_name (d : device) : list Z := c_string (d_name d).

(** What [%d] prints for a number that is not negative. *)
Fixpoint dec_digits (fuel : nat) (n : Z) (acc : list Z) : list Z :=
  match fuel with
  | O => acc
  | S fuel => let acc := (48 + n mod 10) :: acc in if n <? 10 then acc else dec_digits fuel (n / 10) acc
  end.
Definition print_dec (n : Z) : list Z := dec_digits 10 n [].

Section Operations.
Context {W A : Type} `{Allocator A}.
Implicit Types (v : vfs W A) (s : vst W A).

Definition with_fsts l v : vfs W A := Vfs l (v_mounts v) (v_current_root v) (v_parts v) (v_root v) (v_root_size v).
Definition with_mounts l v : vfs W A := Vfs (v_fsts v) l (v_current_root v) (v_parts v) (v_root v) (v_root_size v).
Definition with_root r v : vfs W A := Vfs (v_fsts v) (v_mounts v) r (v_parts v) (v_root v) (v_root_size v).
Definition with_parts m v : vfs W A := Vfs (v_fsts v) (v_mounts v) (v_current_root v) m (v_root v) (v_root_size v).
Definition with_devmap m v : vfs W A := Vfs (v_fsts v) (v_mounts v) (v_current_root v) (v_parts v) m (v_root_size v).
Definition with_root_size n v : vfs W A := Vfs (v_fsts v) (v_mounts v) (v_current_root v) (v_parts v) (v_root v) n.

(** ** Allocation *)
Definition malloc (size : Z) : call W A Z := λ s,
  '(a, h) ← al_malloc size (st_heap s); Done (a, with_heap h s).
Definition mfree (a : Z) s : outcome (vst W A) := h ← al_free a (st_heap s); Done (with_heap h s).

(** A block that [memset] clears; on NULL it faults. *)
Definition zalloc (size : Z) : call W A Z := λ s,
  '(a, s) ← malloc size s; if a =? 0 then Fault else Done (a, s).

Definition init_mount_header : call W A vfs_mount := λ s,
  '(_, s) ← zalloc sizeof_mount s; Done (cleared_mount, s).
Definition init_file_system_type_header : call W A (fs_type W A) := λ s,
  '(_, s) ← zalloc sizeof_fst s; Done (cleared_fst, s).
Definition init_partition_header v s : outcome (Z * vfs W A * vst W A) :=
  '(a, s) ← zalloc sizeof_partition s; Done (a, with_parts (<[a := cleared_partition]> (v_parts v)) v, s).

(** ** File systems *)
(** A name of 32 characters or more is cut to 32 and its terminator is the first of the
    major numbers, which are copied before. *)
Definition register_filesystem (registrar : fs_type W A) v s : outcome (vfs W A * vst W A) :=
  '(l, s) ← (match v_fsts v with
             | [] => '(f, s) ← init_file_system_type_header s; Done ([f], s)
             | l => Done (l, s)
             end);
  if existsb (λ f, bool_decide (fs_name f = fs_name registrar)) (removelast l)
  then Panic "[VFS] File system type with same name already registered" else
  let n := Z.to_nat (fs_major_no registrar) in
  if (256 <? n)%nat then Fault else
  let majors := (take n (fs_majors registrar) ++ drop n (replicate 256 0))%list in
  let name := take (Z.to_nat VFS_COMPAT_FS_NAME_MAX_LEN) (fs_name registrar) in
  let majors := if strlen_of name =? VFS_COMPAT_FS_NAME_MAX_LEN then <[0%nat := 0]> majors else majors in
  '(next, s) ← init_file_system_type_header s;
  Done (with_fsts (removelast l ++ [FsType name majors (fs_major_no registrar) (fs_operations registrar); next])%list v, s).

(** ** Mounts *)
Definition live (m : vfs_mount) : bool :=
  negb (m_device m =? 0) && bool_decide (is_Some (m_fst m)) && negb (m_partition m =? 0).

(** The walk over the mounts: it ends at the first node that is not in use. *)
Fixpoint walk_mounts {R} (f : nat → vfs_mount → outcome (option R)) (i : nat) (l : list vfs_mount) : outcome (option R) :=
  match l with
  | [] => Done None
  | m :: l =>
      if live m then
        r ← f i m;
        match r with Some x => Done (Some x) | None => walk_mounts f (S i) l end
      else Done None
  end.

(** The callback is given the mount; it stops the walk with a result other than 0. *)
Definition iterate_mounts (callback : vfs_mount → call W A Z) v s : outcome (Z * vst W A) :=
  (fix go (l : list vfs_mount) s :=
     match l with
     | [] => Done (0, s)
     | m :: l =>
         if live m then
           '(r, s) ← callback m s;
           if negb (r =? 0) then Done (1, s) else go l s
         else Done (0, s)
     end) (v_mounts v) s.

Definition mount_name v (m : vfs_mount) : outcome (list Z) := p ← known (v_parts v !! m_partition m); Done (p_name p).

Definition add_mount (device part : Z) (fst : option nat) (internal_index : Z) v s : outcome (vfs W A * vst W A) :=
  if device =? 0 then Panic "[VFS] Invalid device" else
  if part =? 0 then Panic "[VFS] Invalid partition" else
  if negb (bool_decide (is_Some fst)) then Panic "[VFS] Invalid fs" else
  match v_mounts v with
  | [] => Panic "[VFS] Invalid mount header"
  | l =>
      '(next, s) ← init_mount_header s;
      Done (with_mounts (removelast l ++ [VfsMount device part fst internal_index; next])%list v, s)
  end.

Definition supports (f : fs_type W A) (major : Z) : outcome bool :=
  if (Z.of_nat (List.length (fs_majors f)) <? fs_major_no f) then Fault else
  Done (existsb (λ m, u8 m =? major) (take (Z.to_nat (fs_major_no f)) (fs_majors f))).

(** [fs_idx] is the position of the first of [l]; the last node is not a file system. *)
Fixpoint mount_first (dev : device) (part : Z) (mountpoint : list Z) (fs_idx : nat) (l : list (fs_type W A)) v s :
    outcome (Z * vfs W A * vst W A) :=
  match l with
  | f :: ((_ :: _) as l) =>
      found ← supports f (full_major dev);
      if negb found then mount_first dev part mountpoint (S fs_idx) l v s else
      p ← known (v_parts v !! part);
      detect ← known (op_detect (fs_operations f));
      '(d, s) ← detect (device_name dev) (p_lba p) s;
      if negb (u8 d =? 0) then
        register ← known (op_register_partition (fs_operations f));
        '(ret, s) ← register (device_name dev) (p_lba p) mountpoint s;
        if ret =? -1 then Done (0, v, s) else
        let v := with_parts (<[part := with_p_name (take 47 mountpoint) p]> (v_parts v)) v in
        '(v, s) ← add_mount (d_addr dev) part (Some fs_idx) ret v s;
        Done (1, v, s)
      else mount_first dev part mountpoint (S fs_idx) l v s
  | _ => Done (0, v, s)
  end.

Definition mount_fs (dev : device) (part : Z) (mountpoint : list Z) v s : outcome (Z * vfs W A * vst W A) :=
  '(v, s) ← (match v_mounts v with
             | [] => '(m, s) ← init_mount_header s; Done (with_mounts [m] v, s)
             | _ => Done (v, s)
             end);
  match v_fsts v with [] => Done (0, v, s) | l => mount_first dev part mountpoint 0 l v s end.

Definition set_vfs_root (root : list Z) v : outcome (Z * vfs W A) :=
  r ← walk_mounts (λ i m, name ← mount_name v m; Done (if bool_decide (name = root) then Some i else None)) 0 (v_mounts v);
  match r with Some i => Done (1, with_root (Some i) v) | None => Done (0, v) end.

(** Whether [pre] is how [l] starts; what follows it. *)
Definition is_prefix (pre l : list Z) : bool := bool_decide (take (List.length pre) l = pre).

(** The mount, by its position, and the path within it. *)
Definition get_mount_from_path (path : list Z) v : outcome (option (nat * list Z)) :=
  match (if bool_decide (head path = Some 47) then v_current_root v else None) with
  | Some r => Done (Some (r, path))
  | None =>
      walk_mounts (λ i m,
        name ← mount_name v m;
        Done (if is_prefix name path then Some (i, drop (List.length name) path) else None)) 0 (v_mounts v)
  end.

(** ** Devices and partitions *)
(** The partitions of a device, from the first node on. *)
Definition add_partition (nodes : list Z) (i : part_info) v s : outcome (list Z * vfs W A * vst W A) :=
  match last nodes with
  | None => Panic "[VFS] Invalid partition header"
  | Some current =>
      '(next, v, s) ← init_partition_header v s;
      p ← known (v_parts v !! current);
      let p := VfsPartition (p_name p) (pi_lba i) (pi_size i) (pi_status i) (pi_type i) in
      Done ((nodes ++ [next])%list, with_parts (<[current := p]> (v_parts v)) v, s)
  end.

Fixpoint add_partitions (nodes : list Z) (l : list part_info) v s : outcome (list Z * vfs W A * vst W A) :=
  match l with
  | [] => Done (nodes, v, s)
  | i :: l => '(nodes, v, s) ← add_partition nodes i v s; add_partitions nodes l v s
  end.

Section Probing.
Context (rg : registry W).

(** The number of partitions and the nodes. *)
Definition detect_partitions (dev : device) (nodes : list Z) v s : outcome (Z * list Z * vfs W A * vst W A) :=
  let devmaj := full_major dev in
  if (devmaj <? 8) || (devmaj >? 0xc) then
    '(nodes, v, s) ← add_partition nodes (PartInfo 0 0 0 0) v s;
    Done (1, nodes, v, s)
  else
    '(l, w, h) ← read_gpt rg (device_name dev) (st_dev s) (st_heap s);
    let s := with_heap h (with_dev w s) in
    '(nodes, v, s) ← add_partitions nodes l v s;
    match l with
    | _ :: _ => Done (Z.of_nat (List.length l), nodes, v, s)
    | [] =>
        '(l, w) ← read_mbr rg (device_name dev) (st_dev s);
        '(nodes, v, s) ← add_partitions nodes l v (with_dev w s);
        Done (Z.of_nat (List.length l), nodes, v, s)
    end.

(** The loop that looks for a device among those already known.  Its [continue] belongs to
    this loop, so the next device is compared with the following entries; past the last
    device the name of NULL is printed as soon as an entry is empty. *)
Definition skip_known (dev : nat) v : outcome (option nat) :=
  for_up (Z.to_nat (v_root_size v)) 0 (λ i dev,
    let entry := default 0 (dm_dev <$> v_root v !! i) in
    match dev with
    | None => if entry =? 0 then Fault else Done None
    | Some p =>
        d ← known (rg_devices rg !! p);
        if entry =? d_addr d then
          n ← get_next_device (rg_devices rg) p;
          Done (match n with Some _ => Some (S p) | None => None end)
        else Done (Some p)
    end) (Some dev).

(** The first free entry of [vfs_root] from [i] on. *)
Definition free_entry (i : Z) v : outcome Z :=
  loop (S (Z.to_nat VFS_MAX_DEVICES)) (λ i,
    if VFS_MAX_DEVICES <=? i then Fault else
    match v_root v !! i with Some _ => Done (inl (i + 1)) | None => Done (inr i) end) i.

(** The devices from position [dev] on. *)
Definition scan_device (dev : nat) (device_index : Z) v s : outcome (nat * Z * vfs W A * vst W A) :=
  k ← skip_known dev v;
  p ← known k;
  device_index ← free_entry device_index v;
  d ← known (rg_devices rg !! p);
  '(first, v, s) ← init_partition_header v s;
  '(n, nodes, v, s) ← detect_partitions d [first] v s;
  Done (p, device_index, with_devmap (<[device_index := VfsDevmap (d_addr d) nodes n]> (v_root v)) v, s).

Definition detect_devices v s : outcome (vfs W A * vst W A) :=
  size ← get_device_count (rg_devices rg);
  let v := with_root_size (u16 size) v in
  d ← get_device_head (rg_devices rg);
  match d with
  | None => Done (v, s)
  | Some _ =>
      loop (S (List.length (rg_devices rg))) (λ '(dev, device_index, v, s),
        '(p, device_index, v, s) ← scan_device dev device_index v s;
        n ← get_next_device (rg_devices rg) p;
        match n with
        | Some _ => Done (inl (S p, device_index, v, s))
        | None => Done (inr (v, s))
        end) (0%nat, 0, v, s)
  end.

(** A pointer to a device, by its address. *)
Definition device_at (a : Z) : outcome device := known (snd <$> list_find (λ d, d_addr d = a) (rg_devices rg)).

(** The partitions before the last node that have no name yet. *)
Fixpoint mount_partitions (dev : Z) (partition_index : Z) (nodes : list Z) v s : outcome (vfs W A * vst W A) :=
  match nodes with
  | [] => Fault
  | [_] => Done (v, s)
  | a :: nodes =>
      p ← known (v_parts v !! a);
      match p_name p with
      | _ :: _ => mount_partitions dev (partition_index + 1) nodes v s
      | [] =>
          d ← device_at dev;
          let mountpoint := take 47 (device_name d ++ [112] ++ print_dec partition_index)%list in
          '(_, v, s) ← mount_fs d a mountpoint v s;
          mount_partitions dev (partition_index + 1) nodes v s
      end
  end.

Definition detect_partition_fs v s : outcome (vfs W A * vst W A) :=
  for_up (Z.to_nat (v_root_size v)) 0 (λ i '(v, s),
    e ← known (v_root v !! i);
    mount_partitions (dm_dev e) 0 (dm_partitions e) v s) (v, s).

(** [init_vfs] does the same and prints the mounts. *)
Definition probe_fs v s : outcome (vfs W A * vst W A) :=
  '(v, s) ← detect_devices v s; detect_partition_fs v s.
End Probing.

(** ** Paths of open files *)
(** The path and its block; [None] is NULL. *)
Definition get_full_path_from_fdentry (e : option file_descriptor_entry) :
    call W A (option (list Z * Z)) := λ s,
  match e with
  | None => Done (None, s)
  | Some e =>
      '(a, s) ← malloc (strlen_of (entry_name e) + strlen_of (fde_mount e) + 1) s;
      if a =? 0 then Done (None, s) else Done (Some ((fde_mount e ++ entry_name e)%list, a), s)
  end.

Definition get_full_path_from_fd (fd : Z) : call W A (option (list Z * Z)) := λ s,
  match vfs_compat_get_file_descriptor fd with
  | None => get_full_path_from_fdentry None s
  | Some i => e ← file_entry i (st_fds s); get_full_path_from_fdentry (Some e) s
  end.

Definition get_full_path_from_dir (fd : Z) : call W A (option (list Z * Z)) := λ s,
  match vfs_compat_get_dir fd with
  | None => get_full_path_from_fdentry None s
  | Some i => d ← dir_entry i (st_fds s); get_full_path_from_fdentry (Some (dir_fd d)) s
  end.

(** Descriptor 0 does not count as open. *)
Definition is_safe_for_removing (path : list Z) (force : Z) s : Z * vst W A :=
  if is_open path (st_fds s) >? 0 then
    if force =? 0 then (0, s) else (1, with_fds (snd (force_release path (st_fds s))) s)
  else (1, s).

(** ** The interface *)
(** What the calls by path have in common: the buffer of the native path, the mount, the
    operation of its file system. *)
Definition by_path {R} (fail : R) (path : list Z) (k : vfs_mount → fs_ops W A → list Z → call W A R) v : call W A R := λ s,
  '(buf, s) ← malloc (strlen_of path + 1) s;
  m ← get_mount_from_path path v;
  '(res, s) ←
    (match m with
     | None => Done (fail, s)
     | Some (i, native) =>
         if buf =? 0 then Fault else
         m ← known (v_mounts v !! i);
         n ← known (m_fst m);
         f ← known (v_fsts v !! n);
         k m (fs_operations f) native s
     end);
  s ← mfree buf s;
  Done (res, s).

(** The calls by descriptor go through the path of the descriptor. *)
Definition by_descriptor {R} (full : call W A (option (list Z * Z))) (bad fail : R)
    (k : vfs_mount → fs_ops W A → call W A R) v : call W A R := λ s,
  '(p, s) ← full s;
  match p with
  | None => Done (bad, s)
  | Some (path, a) =>
      '(res, s) ← by_path fail path (λ m ops _, k m ops) v s;
      s ← mfree a s;
      Done (res, s)
  end.

Definition vfs_file_open (path : list Z) (flags mode : Z) v : call W A Z :=
  by_path (-1) path (λ m ops native s, op ← known (op_file_open ops); op (m_internal_index m) native flags mode s) v.
Definition vfs_file_creat (path : list Z) (mode : Z) v : call W A Z :=
  by_path (-1) path (λ m ops native s, op ← known (op_file_creat ops); op (m_internal_index m) native mode s) v.
Definition vfs_dir_open (path : list Z) v : call W A Z :=
  by_path (-1) path (λ m ops native s, op ← known (op_dir_open ops); op (m_internal_index m) native s) v.
Definition vfs_mkdir (path : list Z) (mode : Z) v : call W A Z :=
  by_path (-1) path (λ m ops native s, op ← known (op_dir_creat ops); op (m_internal_index m) native mode s) v.
Definition vfs_debug_by_path (path : list Z) v : call W A unit :=
  by_path tt path (λ m ops native s, op ← known (op_debug ops); op s) v.

Definition vfs_file_close (fd : Z) v : call W A Z :=
  by_descriptor (get_full_path_from_fd fd) (-1) (-1)
    (λ m ops s, op ← known (op_file_close ops); op (m_internal_index m) fd s) v.
Definition vfs_file_flush (fd : Z) v : call W A Z :=
  by_descriptor (get_full_path_from_fd fd) 0 0
    (λ m ops s, op ← known (op_file_flush ops); op (m_internal_index m) fd s) v.
Definition vfs_file_seek (fd offset whence : Z) v : call W A Z :=
  by_descriptor (get_full_path_from_fd fd) (u64 (-1)) 0
    (λ m ops s, op ← known (op_file_seek ops); op (m_internal_index m) fd offset whence s) v.
Definition vfs_file_tell (fd : Z) v : call W A Z :=
  by_descriptor (get_full_path_from_fd fd) (u64 (-1)) 0
    (λ m ops s, op ← known (op_file_tell ops); op (m_internal_index m) fd s) v.

(** The 64-bit result of a read or a write passes through an [int]. *)
Definition through_int (r : Z) : Z := u64 (s32 r).
Definition vfs_file_read (fd size : Z) v : call W A (Z * list Z) :=
  by_descriptor (get_full_path_from_fd fd) (u64 (-1), []) (u64 (-1), [])
    (λ m ops s,
      op ← known (op_file_read ops);
      '(res, bytes, s) ← op (m_internal_index m) fd size s;
      Done (through_int res, bytes, s)) v.
Definition vfs_file_write (fd : Z) (buffer : list Z) (size : Z) v : call W A Z :=
  by_descriptor (get_full_path_from_fd fd) (u64 (-1)) (u64 (-1))
    (λ m ops s,
      op ← known (op_file_write ops);
      '(res, s) ← op (m_internal_index m) fd buffer size s;
      Done (through_int res, s)) v.

Definition vfs_dir_close (fd : Z) v : call W A Z :=
  by_descriptor (get_full_path_from_dir fd) (-1) (-1)
    (λ m ops s, op ← known (op_dir_close ops); op (m_internal_index m) fd s) v.
Definition vfs_dir_load (fd : Z) v : call W A Z :=
  by_descriptor (get_full_path_from_dir fd) (-1) (-1)
    (λ m ops s, op ← known (op_dir_load ops); op (m_internal_index m) fd s) v.
Definition vfs_dir_read (fd : Z) v : call W A (Z * option (list Z * Z * Z)) :=
  by_descriptor (get_full_path_from_dir fd) (-1, None) (-1, None)
    (λ m ops s, op ← known (op_dir_read ops); op (m_internal_index m) fd s) v.

(** The buffer stays allocated on the two early returns. *)
Definition vfs_remove (path : list Z) (force : Z) v : call W A Z := λ s,
  '(buf, s) ← malloc (strlen_of path + 1) s;
  m ← get_mount_from_path path v;
  match m with
  | None => s ← mfree buf s; Done (-1, s)
  | Some (i, native) =>
      if buf =? 0 then Fault else
      m ← known (v_mounts v !! i);
      n ← known (m_fst m);
      f ← known (v_fsts v !! n);
      prepare ← known (op_prepare_remove (fs_operations f));
      '(res, s) ← prepare (m_internal_index m) native s;
      if res =? 0 then Done (-2, s) else
      let '(safe, s) := is_safe_for_removing native force s in
      if safe =? 0 then Done (-1, s) else
      remove ← known (op_remove (fs_operations f));
      '(res, s) ← remove (m_internal_index m) native s;
      s ← mfree buf s;
      Done (res, s)
  end.
Definition vfs_rename (path name : list Z) v : call W A Z := λ s, Done (-1, s).
Definition vfs_chmod (path : list Z) (mode : Z) v : call W A Z := λ s, Done (-1, s).

(** ** Walking directories *)
(** The entries are printed. *)
Definition vfs_dir_list (fuel : nat) (name : list Z) v s : outcome (vst W A) :=
  '(fd, s) ← vfs_dir_open name v s;
  if fd <? 0 then Done s else
  '(res, s) ← vfs_dir_load fd v s;
  if res <? 0 then Done s else
  s ← loop fuel (λ s, '(r, _, s) ← vfs_dir_read fd v s; if r >? 0 then Done (inl s) else Done (inr s)) s;
  '(_, s) ← vfs_dir_close fd v s;
  Done s.

(** [fuel] bounds the depth and the entries of a directory; [junk] is what the call returns
    where the source returns without a value.  The result and the path. *)
Fixpoint vfs_file_search (fuel : nat) (junk : Z) (name path : list Z) v s : outcome (Z * list Z * vst W A) :=
  match fuel with
  | O => OutOfFuel
  | S fuel =>
      '(a, s) ← zalloc 1024 s;
      let new_path := (path ++ [46])%list in
      if 1024 <=? strlen_of new_path then Fault else
      '(fd, s) ← vfs_dir_open new_path v s;
      if fd <? 0 then Done (junk, path, s) else
      '(res, s) ← vfs_dir_load fd v s;
      if res <? 0 then Done (junk, path, s) else
      loop fuel (λ '(new_path, s),
        '(r, e, s) ← vfs_dir_read fd v s;
        if negb (r >? 0) then
          '(_, s) ← vfs_dir_close fd v s;
          s ← mfree a s;
          Done (inr (0, path, s))
        else
          '(entry, _, type) ← known e;
          if bool_decide (entry = name) then
            '(_, s) ← vfs_dir_close fd v s;
            s ← mfree a s;
            Done (inr (1, (removelast new_path ++ [47] ++ entry)%list, s))
          else if (type =? 2) && negb (bool_decide (entry = [46])) && negb (bool_decide (entry = [46; 46])) &&
                  negb (bool_decide (entry = chars "lost+found")) then
            c ← known (last path);
            let new_path := (path ++ (if negb (c =? 47) then [47] else []) ++ entry)%list in
            if 1024 <=? strlen_of new_path then Fault else
            '(res, new_path, s) ← vfs_file_search fuel junk name new_path v s;
            if res =? 1 then
              '(_, s) ← vfs_dir_close fd v s;
              s ← mfree a s;
              Done (inr (1, new_path, s))
            else Done (inl (new_path, s))
          else Done (inl (new_path, s))) (new_path, s)
  end.
End Operations.
