(* ===== verification/VfsStream.v ===== *)
(** * Terminals and queues as files (src/src/vfs/generic/tty/, src/src/vfs/generic/fifo/)

    generic_tty.h with tty.c and generic_fifo.h with fifo.c are the same file system over two
    kinds of devices: a mounted device is one file, named "/".  The section is that file
    system, over the operations in which the two differ; its two instances follow.  The
    table of mounted devices is part of the state [W]. *)
From Stdlib Require Import String.
From stdpp Require Import gmap.
From S2P Require Import Prelude PageService Alloc Devices Partition VfsFd Vfs Fifo Tty.
#[local] Open Scope Z_scope.

Definition SEEK_SET : Z := 0.
Definition SEEK_CUR : Z := 1.
Definition SEEK_END : Z := 2.
Definition MAX_STREAM_DEVICES : nat := 32.
Definition sizeof_stream : Z := 64.

(** [struct vfs_tty] and [struct vfs_fifo]. *)
Record vfs_stream := Stream { vs_block : Z; vs_name : list Z; vs_device : list Z }.

Section Stream.
Context {W A : Type} `{Allocator A} (rg : registry W).
Context (table : W → list (option vfs_stream)) (set_table : list (option vfs_stream) → W → W).
Context (driver_name : list Z) (ioctl_flush ioctl_size : Z) (ioctl_validate : option Z).
Implicit Types (s : vst W A).

(** ** The device *)
(** [None] is NULL; the structure of a device that is not valid stays allocated. *)
Definition stream_register_device (device mountpoint : list Z) : call W A (option vfs_stream) := λ s,
  '(a, s) ← zalloc sizeof_stream s;
  '(ok, s) ← (match ioctl_validate with
              | None => Done (1, s)
              | Some op => '(r, w) ← device_ioctl rg device op 0 (st_dev s); Done (r, with_dev w s)
              end);
  if ok =? 0 then Done (None, s) else Done (Some (Stream a (take 31 mountpoint) (take 31 device)), s).

Definition stream_search (name : list Z) : outcome Z := r ← device_identify rg name driver_name; Done (u8 r).
Definition stream_sync (t : vfs_stream) : call W A Z := λ s,
  '(r, w) ← device_ioctl rg (vs_device t) ioctl_flush 0 (st_dev s); Done (s32 r, with_dev w s).
Definition vfs_stream_get_size (t : vfs_stream) : call W A Z := λ s,
  '(r, w) ← device_ioctl rg (vs_device t) ioctl_size 0 (st_dev s); Done (r, with_dev w s).

(** The number of bytes is returned in eight bits. *)
Definition vfs_stream_read (t : vfs_stream) (size skip : Z) : call W A (Z * list Z) := λ s,
  '(r, bytes, w) ← device_read rg (vs_device t) (u32 size) (u32 skip) (st_dev s); Done (u8 r, bytes, with_dev w s).
Definition vfs_stream_write (t : vfs_stream) (buffer : list Z) (size skip : Z) : call W A Z := λ s,
  '(r, w) ← device_write rg (vs_device t) (u32 size) (u32 skip) buffer (st_dev s); Done (u8 r, with_dev w s).

(** ** The file system *)
Fixpoint first_free (i : nat) (l : list (option vfs_stream)) : option nat :=
  match l with [] => None | None :: _ => Some i | Some _ :: l => first_free (S i) l end.

Definition stream_compat_register_device (device : list Z) (mode : Z) (mountpoint : list Z) : call W A Z := λ s,
  match first_free 0 (table (st_dev s)) with
  | None => Done (-1, s)
  | Some i =>
      '(t, s) ← stream_register_device device mountpoint s;
      match t with
      | None => Done (-1, s)
      | Some t => Done (Z.of_nat i, with_dev (set_table (<[i := Some t]> (table (st_dev s))) (st_dev s)) s)
      end
  end.

Definition stream_compat_unregister_device (index : Z) : call W A Z := λ s,
  if index <? 0 then Fault else
  t ← known (table (st_dev s) !! Z.to_nat index);
  match t with
  | None => Done (1, s)
  | Some t =>
      s ← mfree (vs_block t) s;
      Done (0, with_dev (set_table (<[Z.to_nat index := None]> (table (st_dev s))) (st_dev s)) s)
  end.

Definition stream_compat_detect (name : list Z) (port : Z) : call W A Z := λ s,
  r ← stream_search name; Done (r, s).

(** The device of an index, if there is one. *)
Definition stream_at (devno : Z) s : option vfs_stream :=
  if (devno <? 0) || (Z.of_nat MAX_STREAM_DEVICES <=? devno) then None
  else mjoin (table (st_dev s) !! Z.to_nat devno).

(** The guards the calls on an open file share. *)
Definition on_file {R} (fail : R) (devno fd : Z) (k : vfs_stream → Z → file_descriptor_entry → call W A R) : call W A R := λ s,
  match stream_at devno s with
  | None => Done (fail, s)
  | Some t =>
      match vfs_compat_get_file_descriptor fd with
      | None => Done (fail, s)
      | Some i =>
          e ← file_entry i (st_fds s);
          if fde_loaded e =? 0 then Done (fail, s) else k t i e s
      end
  end.

Definition stream_compat_file_read (devno fd size : Z) : call W A (Z * list Z) :=
  on_file (u64 (-1), []) devno fd (λ t _ e, vfs_stream_read t size (fde_offset e)).
Definition stream_compat_file_write (devno fd : Z) (buffer : list Z) (size : Z) : call W A Z :=
  on_file (u64 (-1)) devno fd (λ t _ e, vfs_stream_write t buffer size (fde_offset e)).
Definition stream_compat_file_tell (devno fd : Z) : call W A Z :=
  on_file (u64 (-1)) devno fd (λ _ _ e s, Done (fde_offset e, s)).

Definition set_offset (i : Z) (e : file_descriptor_entry) (v : Z) s : vst W A :=
  with_fds (set_file i (with_offset v e) (st_fds s)) s.

Definition stream_compat_file_seek (devno fd offset whence : Z) : call W A Z :=
  on_file (u64 (-1)) devno fd (λ t i e s,
    if whence =? SEEK_SET then Done (offset, set_offset i e offset s) else
    if whence =? SEEK_CUR then
      let o := u64 (fde_offset e + offset) in Done (o, set_offset i e o s) else
    if whence =? SEEK_END then
      '(size, s) ← vfs_stream_get_size t s;
      let o := u64 (size + offset) in Done (o, set_offset i e o s)
    else Done (0, s)).

Definition stream_compat_file_open (devno : Z) (path : list Z) (flags mode : Z) : call W A Z := λ s,
  match stream_at devno s with
  | None => Done (-1, s)
  | Some t =>
      if negb (strlen_of path =? 1) || negb (bool_decide (path = [47])) then Done (-1, s) else
      '(r, f) ← get_fd path (vs_name t) flags mode (st_fds s);
      Done (r, with_fds f s)
  end.

Definition stream_compat_file_close (devno fd : Z) : call W A Z := λ s,
  match stream_at devno s with
  | None => Done (-1, s)
  | Some t => '(r, f) ← release_fd fd (st_fds s); Done (r, with_fds f s)
  end.

(** An index in range with no device is a NULL pointer. *)
Definition stream_compat_file_flush (devno fd : Z) : call W A Z := λ s,
  if (devno <? 0) || (Z.of_nat MAX_STREAM_DEVICES <=? devno) then Done (-1, s) else
  t ← known (stream_at devno s); stream_sync t s.

(** The operations that only fail. *)
Definition unsupported : call W A Z := λ s, Done (-1, s).
Definition stream_compat_debug : call W A unit := λ s, Done (tt, s).

Definition stream_ops : fs_ops W A := {|
  op_register_partition := Some stream_compat_register_device;
  op_unregister_partition := Some stream_compat_unregister_device;
  op_detect := Some stream_compat_detect;
  op_flush := Some (λ _, unsupported);
  op_file_flush := Some stream_compat_file_flush;
  op_file_open := Some stream_compat_file_open;
  op_file_close := Some stream_compat_file_close;
  op_file_creat := Some (λ _ _ _, unsupported);
  op_file_read := Some stream_compat_file_read;
  op_file_write := Some stream_compat_file_write;
  op_file_seek := Some stream_compat_file_seek;
  op_file_tell := Some stream_compat_file_tell;
  op_file_stat := Some (λ _ _, unsupported);
  op_dir_open := Some (λ _ _, unsupported);
  op_dir_close := Some (λ _ _, unsupported);
  op_dir_load := Some (λ _ _, unsupported);
  op_dir_read := Some (λ _ _ s, Done (-1, None, s));
  op_dir_creat := Some (λ _ _ _, unsupported);
  op_prepare_remove := Some (λ _ _, unsupported);
  op_rename := Some (λ _ _ _, unsupported);
  op_remove := Some (λ _ _, unsupported);
  op_chmod := Some (λ _ _ _, unsupported);
  op_debug := Some stream_compat_debug;
|}.
End Stream.

(** ** The two instances *)
Definition FIFO_DD_NAME : list Z := chars "FIFO DRIVER".
Definition TTY_DD_NAME : list Z := chars "TTY DRIVER".

Section Instances.
Context {W A : Type} `{Allocator A} (rg : registry W).
Context (table : W → list (option vfs_stream)) (set_table : list (option vfs_stream) → W → W).

Definition fifo_register : fs_type W A :=
  FsType (chars "FIFO") (0x8e :: replicate 255 0) 1
    (stream_ops rg table set_table FIFO_DD_NAME IOCTL_FIFO_FLUSH IOCTL_FIFO_GET_SIZE None).

Definition tty_compat_register_device : list Z → Z → list Z → call W A Z :=
  stream_compat_register_device rg table set_table (Some TTY_VALIDATE).
Definition tty_compat_unregister_device : Z → call W A Z := stream_compat_unregister_device table set_table.
Definition tty_compat_detect : list Z → Z → call W A Z := stream_compat_detect rg TTY_DD_NAME.
Definition tty_compat_file_read : Z → Z → Z → call W A (Z * list Z) := stream_compat_file_read rg table.
Definition tty_compat_file_write : Z → Z → list Z → Z → call W A Z := stream_compat_file_write rg table.
Definition tty_compat_file_seek : Z → Z → Z → Z → call W A Z := stream_compat_file_seek rg table TTY_GET_SIZE.
Definition tty_compat_file_tell : Z → Z → call W A Z := stream_compat_file_tell table.
Definition tty_compat_file_open : Z → list Z → Z → Z → call W A Z := stream_compat_file_open table.
Definition tty_compat_file_close : Z → Z → call W A Z := stream_compat_file_close table.
Definition tty_compat_file_flush : Z → Z → call W A Z := stream_compat_file_flush rg table TTY_FLUSH.

Definition tty_register : fs_type W A :=
  FsType (chars "TTY") (0xE :: replicate 255 0) 1
    (stream_ops rg table set_table TTY_DD_NAME TTY_FLUSH TTY_GET_SIZE (Some TTY_VALIDATE)).
End Instances.
