(* ===== verification/VfsSpec.v ===== *)
(** * Properties of the virtual file system

    A path is served by the first mount whose name it starts with, and a descriptor leads
    back to the file system that opened it.  Through the whole stack (interface, descriptor
    table, file system, device registry, driver) a mounted queue behaves as a queue. *)
From Stdlib Require Import String.
From stdpp Require Import gmap.
From S2P Require Import Prelude PageService Alloc Paging PageAlloc Heap KernelHeap Devices DevicesSpec Ring Fifo Partition VfsFd VfsFdSpec Vfs VfsStream.
#[local] Open Scope Z_scope.

(** ** Resolving paths *)
(** The mounts in use are those of [ns], in this order. *)
Record mounted {W A} (v : vfs W A) (ns : list (list Z)) : Prop := {
  md_nodes : ∃ ms, v_mounts v = (ms ++ [cleared_mount])%list ∧
    Forall2 (λ m n, live m = true ∧ ∃ p, v_parts v !! m_partition m = Some p ∧ p_name p = n) ms ns;
}.

(** The first name the path starts with, and the rest of the path. *)
Fixpoint first_prefix (i : nat) (ns : list (list Z)) (path : list Z) : option (nat * list Z) :=
  match ns with
  | [] => None
  | n :: ns => if is_prefix n path then Some (i, drop (List.length n) path) else first_prefix (S i) ns path
  end.

Lemma is_prefix_app pre l : is_prefix pre (pre ++ l) = true.
Proof. apply bool_decide_eq_true_2. by rewrite take_app_length. Qed.

Lemma resolve_ok {W A} (v : vfs W A) ns path :
  mounted v ns → v_current_root v = None ∨ head path ≠ Some 47 →
  get_mount_from_path path v = Done (first_prefix 0 ns path).
Proof.
  intros [(ms & Hms & Hf)] Hroot. unfold get_mount_from_path.
  assert (Hw : ∀ i, walk_mounts (λ i m, name ← mount_name v m;
      Done (if is_prefix name path then Some (i, drop (List.length name) path) else None)) i (v_mounts v) =
    Done (first_prefix i ns path)).
  { rewrite Hms. clear Hms Hroot. induction Hf as [|m n ms ns (Hl & p & Hp & <-) Hf IH]; intros i; cbn; [done|].
    rewrite Hl. unfold mount_name. rewrite Hp. cbn. destruct (is_prefix (p_name p) path); [done|apply IH]. }
  case_bool_decide as Hh; [|apply Hw]. destruct Hroot as [->|?]; [apply Hw|done].
Qed.

(** The path of a file of mount [i]. *)
Lemma first_prefix_own i0 ns i name rest :
  ns !! i = Some name → (∀ j n, (j < i)%nat → ns !! j = Some n → is_prefix n (name ++ rest) = false) →
  first_prefix i0 ns (name ++ rest) = Some ((i0 + i)%nat, rest).
Proof.
  revert i0 i. induction ns as [|n ns IH]; intros i0 i Hi Hj; [done|]. cbn [first_prefix]. destruct i as [|i].
  - injection Hi as ->. rewrite is_prefix_app, drop_app_length. do 2 f_equal. lia.
  - rewrite (Hj 0%nat n) by (done || lia). rewrite (IH (S i0) i Hi); [do 2 f_equal; lia|].
    intros j n' Hlt Hn. apply (Hj (S j)); [lia|done].
Qed.

(** A mount whose name starts with the name of an earlier one is never reached. *)
Theorem mount_shadowed i0 ns i j ni nj rest :
  ns !! i = Some ni → ns !! j = Some nj → (j < i)%nat → is_prefix nj ni = true →
  ∃ k native, first_prefix i0 ns (ni ++ rest) = Some ((i0 + k)%nat, native) ∧ (k ≤ j)%nat.
Proof.
  revert i0 i j. induction ns as [|n ns IH]; intros i0 i j Hi Hj Hlt Hp; [done|]. cbn [first_prefix].
  destruct (is_prefix n (ni ++ rest)) eqn:E; [exists 0%nat; eexists; split; [by rewrite Nat.add_0_r|lia]|].
  destruct j as [|j].
  - injection Hj as ->. apply bool_decide_eq_true in Hp. apply bool_decide_eq_false in E. exfalso. apply E.
    assert (List.length nj ≤ List.length ni)%nat by (rewrite <- Hp at 1; rewrite length_take; lia).
    by rewrite take_app_le.
  - destruct i as [|i]; [lia|]. destruct (IH (S i0) i j Hi Hj) as (k & native & -> & Hk); [lia|done|].
    exists (S k), native. split; [do 2 f_equal; lia|lia].
Qed.

(** ** Calls by path and by descriptor *)
Section Calls.
Context {W A : Type} `{AllocatorOk A}.
Implicit Types (v : vfs W A) (s : vst W A).

(** A call that keeps the blocks in use and ends with [Q] of its result, the descriptors and
    the devices. *)
Definition serves {R} (Q : R → fds → W → Prop) (L : gset Z) (o : outcome (R * vst W A)) : Prop :=
  returns_or_panics o ∧ ∀ x, o = Done x → Q x.1 (st_fds x.2) (st_dev x.2) ∧ al_ok L (st_heap x.2).

Lemma vfs_malloc_ok size (L : gset Z) s :
  al_ok L (st_heap s) → 0 < size < 2 ^ 32 →
  returns_or_panics (malloc size s) ∧
  ∀ x, malloc size s = Done x → x.1 ≠ 0 ∧ (x.1 ∉ L) ∧ ∃ h, x.2 = with_heap h s ∧ al_ok ({[x.1]} ∪ L) h.
Proof.
  intros Hal Hs. unfold malloc. destruct (al_malloc_ok L size _ Hal Hs) as [Hr Hd].
  apply (rop_bind (λ x, (x.1 ∉ L) ∧ al_ok ({[x.1]} ∪ L) x.2)); [done|by intros [r h1] E; apply Hd|].
  intros [a h] [Ha Hal1]. split; [apply rop_done|]. intros x [= <-]. cbn in *. split_and!; [|done|by exists h].
  eapply al_nonnull; [exact Hal1|set_solver].
Qed.

Lemma mfree_ok a (L : gset Z) s :
  al_ok ({[a]} ∪ L) (st_heap s) → a ∉ L → ∃ h, mfree a s = Done (with_heap h s) ∧ al_ok L h.
Proof.
  intros Hal Ha. unfold mfree. destruct (al_free_ok _ a _ Hal) as (h & -> & Hal'); [set_solver|].
  exists h. split; [done|]. eapply (eq_rect _ (λ X, al_ok X h) Hal'). set_solver.
Qed.

Lemma by_path_ok {R} (fail : R) path k v s i native m n f (L : gset Z) Q :
  al_ok L (st_heap s) → strlen_of path + 1 < 2 ^ 32 → get_mount_from_path path v = Done (Some (i, native)) →
  v_mounts v !! i = Some m → m_fst m = Some n → v_fsts v !! n = Some f →
  (∀ (L' : gset Z) h, al_ok L' h → serves Q L' (k m (fs_operations f) native (with_heap h s))) →
  serves Q L (by_path fail path k v s).
Proof.
  intros Hal Hlen Hg Hm Hn Hf Hk. unfold by_path.
  destruct (vfs_malloc_ok (strlen_of path + 1) L s Hal) as [Hr Hd]; [unfold strlen_of in *; lia|].
  eapply rop_bind; [exact Hr|exact Hd|]. intros [a s1] (Ha0 & Ha & h & Hs1 & Hal1). cbn in *. subst s1.
  rewrite Hg, bind_done, (proj2 (Z.eqb_neq a 0)), Hm by done. cbn [known]. rewrite bind_done, Hn. cbn [known].
  rewrite bind_done, Hf. cbn [known]. rewrite bind_done.
  destruct (Hk _ h Hal1) as [Hr2 Hd2]. eapply rop_bind; [exact Hr2|exact Hd2|].
  intros [res s2] [HQ Hal2]. cbn in HQ, Hal2. destruct (mfree_ok a L s2 Hal2 Ha) as (h3 & -> & Hal3).
  rewrite bind_done. split; [apply rop_done|]. intros x [= <-]. by destruct s2.
Qed.

(** The path of a descriptor is that of its entry. *)
Lemma by_descriptor_ok {R} (bad fail : R) fd k v s i native m n f (L : gset Z) Q :
  al_ok L (st_heap s) → 0 ≤ fd < FILES → let e := file_at (st_fds s) fd in let path := (fde_mount e ++ entry_name e)%list in
  strlen_of path + 1 < 2 ^ 32 → get_mount_from_path path v = Done (Some (i, native)) →
  v_mounts v !! i = Some m → m_fst m = Some n → v_fsts v !! n = Some f →
  (∀ (L' : gset Z) h, al_ok L' h → serves Q L' (k m (fs_operations f) (with_heap h s))) →
  serves Q L (by_descriptor (get_full_path_from_fd fd) bad fail k v s).
Proof.
  intros Hal Hfd e path Hlen Hg Hm Hn Hf Hk.
  unfold by_descriptor, get_full_path_from_fd, vfs_compat_get_file_descriptor.
  rewrite Z.geb_leb, (proj2 (Z.leb_gt _ _)), file_entry_ok by lia. rewrite bind_done. fold e.
  unfold get_full_path_from_fdentry. rewrite <- (Z.add_comm (strlen_of (fde_mount e))).
  replace (strlen_of (fde_mount e) + strlen_of (entry_name e)) with (strlen_of path)
    by (unfold strlen_of, path; rewrite length_app; lia).
  destruct (vfs_malloc_ok (strlen_of path + 1) L s Hal) as [Hr Hd]; [unfold strlen_of in *; lia|].
  eapply (rop_bind (λ x, ∃ a h, a ≠ 0 ∧ (a ∉ L) ∧ x = (Some (path, a), with_heap h s) ∧ al_ok ({[a]} ∪ L) h)).
  { apply (rop_bind _ (λ _, True) _ _ Hr Hd). intros [a s1] (Ha0 & _). rewrite (proj2 (Z.eqb_neq a 0)) by done.
    split; [apply rop_done|done]. }
  { intros x E. apply bind_done_inv in E as ([a s1] & E1 & E2). destruct (Hd _ E1) as (Ha0 & Ha & h & Hs1 & Hal1).
    cbn in *. rewrite (proj2 (Z.eqb_neq a 0)) in E2 by done. injection E2 as <-. subst s1. by exists a, h. }
  intros x (a & h & Ha0 & Ha & -> & Hal1).
  destruct (by_path_ok fail path (λ m ops _, k m ops) v (with_heap h s) i native m n f _ Q Hal1 Hlen Hg Hm Hn Hf)
    as [Hr2 Hd2]; [done|].
  eapply rop_bind; [exact Hr2|exact Hd2|]. intros [res s2] [HQ Hal2]. cbn in HQ, Hal2.
  destruct (mfree_ok a L s2 Hal2 Ha) as (h3 & -> & Hal3). rewrite bind_done.
  split; [apply rop_done|]. intros y [= <-]. by destruct s2.
Qed.
Lemma serves_bind {R R'} (Q : R → fds → W → Prop) (Q' : R' → fds → W → Prop) (L : gset Z) o k :
  serves Q L o →
  (∀ r s, Q r (st_fds s) (st_dev s) → al_ok L (st_heap s) → serves Q' L (k (r, s))) → serves Q' L (o ≫= k).
Proof.
  intros [Hr Hd] Hk. eapply rop_bind; [exact Hr|exact Hd|]. intros [r s] [HQ Hal]. by apply Hk.
Qed.
End Calls.

(** ** A queue through the whole stack *)
(** The devices of a system with queues, and the table of mounted queues. *)
Record stream_world := StreamWorld { sw_table : list (option vfs_stream); sw_fifos : fifos }.
Definition set_table (t : list (option vfs_stream)) (w : stream_world) : stream_world := StreamWorld t (sw_fifos w).
Definition set_fifos (f : fifos) (w : stream_world) : stream_world := StreamWorld (sw_table w) f.

(** The driver of the queues, in this system. *)
Definition world_fops : file_operations stream_world :=
  FileOps (Some (λ port size skip w, '(r, out, f) ← fifo_dd_read port size skip (sw_fifos w); Done (r, out, set_fifos f w)))
    (Some (λ port size skip buf w, '(r, f) ← fifo_dd_write port size skip buf (sw_fifos w); Done (r, set_fifos f w)))
    (Some (λ port op data w, '(r, f) ← fifo_dd_ioctl port op data (sw_fifos w); Done (r, set_fifos f w))).
Definition with_fifo_driver (rg : registry stream_world) : registry stream_world :=
  register_char FIFO_MAJOR FIFO_DD_NAME world_fops rg.

Section Pipe.
Context {A : Type} `{AllocatorOk A} (rg0 : registry stream_world) (ds : list device) (a : Z) (d : device).
Implicit Types (v : vfs stream_world A) (s : vst stream_world A).
Let rg := with_fifo_driver rg0.

(** The queue device [d] is mounted as [name]. *)
Record fifo_mounted v (w : stream_world) (name : list Z) : Prop := {
  fm_devices : devices_ok ds;
  fm_list : rg_devices rg0 = (ds ++ [cleared_device a])%list;
  fm_device : d ∈ ds;
  fm_major : full_major d = FIFO_MAJOR;
  fm_short : strlen_of name < 256;
  fm_where : ∃ ns i m k f t, mounted v ns ∧ (v_current_root v = None ∨ head (name ++ [47]) ≠ Some 47) ∧
    ns !! i = Some name ∧ (∀ j n, (j < i)%nat → ns !! j = Some n → is_prefix n (name ++ [47]) = false) ∧
    v_mounts v !! i = Some m ∧ m_fst m = Some k ∧ v_fsts v !! k = Some f ∧
    fs_operations f = fs_operations (fifo_register rg sw_table set_table) ∧
    0 ≤ m_internal_index m < 32 ∧ sw_table w !! Z.to_nat (m_internal_index m) = Some (Some t) ∧
    vs_name t = name ∧ vs_device t = cname d;
}.

Lemma fifo_device_calls size skip bs w :
  devices_ok ds → rg_devices rg0 = (ds ++ [cleared_device a])%list → d ∈ ds → full_major d = FIFO_MAJOR →
  device_read rg (cname d) size skip w =
    ('(r, out, f) ← fifo_dd_read (d_internal_id d) size skip (sw_fifos w); Done (r, out, set_fifos f w)) ∧
  device_write rg (cname d) size skip bs w =
    ('(r, f) ← fifo_dd_write (d_internal_id d) size skip bs (sw_fifos w); Done (r, set_fifos f w)).
Proof.
  intros Hok Hl (before & after & ->)%list_elem_of_split HM.
  assert (Hd : device_ok before d) by (by eapply Hok).
  assert (Hbc : d_bc d = 1) by (rewrite (do_bc _ _ Hd), HM; done).
  assert (Hlow : d_major d = 0xe) by (rewrite (do_low _ _ Hd), HM; done).
  assert (Hdrv : driver_of rg d = DeviceDriver (Some world_fops) None 1 FIFO_DD_NAME).
  { unfold driver_of. by rewrite Hbc, Hlow. }
  assert (Hnet : no_network rg d) by (intros ?; lia).
  assert (Hreg : dd_registered (driver_of rg d) = 1) by (by rewrite Hdrv).
  assert (Hops : dd_fops (driver_of rg d) = Some world_fops) by (by rewrite Hdrv).
  unfold device_write, device_read. change (rg_devices rg) with (rg_devices rg0). rewrite Hl.
  split; by erewrite (dispatch_own rg _ _ before d after a world_fops) by (done || reflexivity).
Qed.

(** What the path of the queue, or of a descriptor of it, leads to. *)
Lemma fifo_resolves v w name :
  fifo_mounted v w name → ∃ i m k f t,
    get_mount_from_path (name ++ [47]) v = Done (Some (i, [47])) ∧
    v_mounts v !! i = Some m ∧ m_fst m = Some k ∧ v_fsts v !! k = Some f ∧
    fs_operations f = fs_operations (fifo_register rg sw_table set_table) ∧
    vs_name t = name ∧ vs_device t = cname d ∧
    ∀ s, sw_table (st_dev s) = sw_table w → stream_at sw_table (m_internal_index m) s = Some t.
Proof.
  intros [_ _ _ _ _ (ns & i & m & k & f & t & Hm & Hroot & Hi & Hj & Hmi & Hk & Hf & Hops & Hx & Ht & Hn & Hd)].
  exists i, m, k, f, t. split_and!; try done.
  - rewrite (resolve_ok v ns) by done. by rewrite (first_prefix_own 0 ns i name [47]).
  - intros s Es. unfold stream_at. rewrite Es. change (Z.of_nat MAX_STREAM_DEVICES) with 32.
    rewrite (proj2 (Z.ltb_ge _ _)), (proj2 (Z.leb_gt _ _)), Ht by lia. done.
Qed.

Lemma fifo_path_short name : strlen_of name < 256 → strlen_of (name ++ [47]) + 1 < 2 ^ 32.
Proof. unfold strlen_of. rewrite length_app. cbn. lia. Qed.

Lemma fifo_open_ok v name s (L : gset Z) :
  fifo_mounted v (st_dev s) name → al_ok L (st_heap s) → 0 ≤ next_fd (st_fds s) < FILES →
  (∃ fd, 0 ≤ fd < FILES ∧ fde_loaded (file_at (st_fds s) fd) = 0) →
  serves (λ fd f w, w = st_dev s ∧ 0 ≤ fd < FILES ∧ fde_loaded (file_at (st_fds s) fd) = 0 ∧
            f = with_next_fd (fd + 1) (set_file fd (loaded_entry [47] name 0 0) (st_fds s)))
    L (vfs_file_open (name ++ [47]) 0 0 v s).
Proof.
  intros Hm Hal Hc (f0 & Hf0 & Hl0). pose proof (fm_short _ _ _ Hm) as Hs.
  destruct (fifo_resolves v _ name Hm) as (i & m & k & f & t & Hg & Hmi & Hk & Hf & Hops & Hn & Hd & Hat).
  eapply by_path_ok; [done|by apply fifo_path_short|done..|]. intros L' h Hal'. rewrite Hops. cbn.
  unfold stream_compat_file_open. rewrite Hat by done. cbn. rewrite Hn.
  destruct (get_fd_ok (st_fds s) [47] name 0 0) as [(fd & Hfd & Hl & ->)|[Hall _]]; [done|done|lia| |].
  - rewrite bind_done. split; [apply rop_done|]. intros x [= <-]. done.
  - exfalso. by apply (Hall f0).
Qed.

(** The calls on an open descriptor. *)
Section Opened.
Context v (name : list Z) s (fd : Z) (L : gset Z).
Hypothesis Hm : fifo_mounted v (st_dev s) name.
Hypothesis Hfd : 0 ≤ fd < FILES.
Hypothesis He : file_at (st_fds s) fd = loaded_entry [47] name 0 0.
Hypothesis Hal : al_ok L (st_heap s).

Lemma fifo_descriptor_ok {R} (bad fail : R) kk Q :
  (∀ m t (L' : gset Z) h, al_ok L' h → vs_name t = name → vs_device t = cname d →
     (∀ s', sw_table (st_dev s') = sw_table (st_dev s) → stream_at sw_table (m_internal_index m) s' = Some t) →
     serves Q L' (kk m (fs_operations (fifo_register rg sw_table set_table)) (with_heap h s))) →
  serves Q L (by_descriptor (get_full_path_from_fd fd) bad fail kk v s).
Proof.
  intros Hk. pose proof (fm_short _ _ _ Hm) as Hs.
  destruct (fifo_resolves v _ name Hm) as (i & m & k & f & t & Hg & Hmi & Hmk & Hf & Hops & Hn & Hd & Hat).
  eapply by_descriptor_ok; try done.
  - rewrite He. by apply fifo_path_short.
  - rewrite He. exact Hg.
  - intros L' h Hal'. rewrite Hops. by eapply Hk.
Qed.

Lemma fifo_on_file {R} (fail : R) m t kk h :
  stream_at sw_table (m_internal_index m) (with_heap h s) = Some t →
  on_file sw_table fail (m_internal_index m) fd kk (with_heap h s) =
    kk t fd (loaded_entry [47] name 0 0) (with_heap h s).
Proof.
  intros Hat. unfold on_file. rewrite Hat. unfold vfs_compat_get_file_descriptor.
  rewrite Z.geb_leb, (proj2 (Z.leb_gt _ _)), file_entry_ok by lia. rewrite bind_done. cbn [st_fds with_heap]. by rewrite He.
Qed.

Lemma fifo_write_ok ff q bs :
  sw_fifos (st_dev s) !! d_internal_id d = Some ff → holds_queue ff q →
  Z.of_nat (List.length (q ++ bs)) < ff_size ff → Z.of_nat (List.length bs) < 2 ^ 32 →
  serves (λ r f w, r = Z.of_nat (List.length bs) mod 256 ∧ f = st_fds s ∧
            ∃ ff', w = set_fifos (<[d_internal_id d := ff']> (sw_fifos (st_dev s))) (st_dev s) ∧
                   ff_size ff' = ff_size ff ∧ holds_queue ff' (q ++ bs))
    L (vfs_file_write fd bs (Z.of_nat (List.length bs)) v s).
Proof.
  intros Hff Hq Hfit Hlen. apply fifo_descriptor_ok. intros m t L' h Hal' Hn Hd Hat. cbn.
  unfold stream_compat_file_write. rewrite (fifo_on_file _ m t) by (by apply Hat). unfold vfs_stream_write.
  rewrite Hd. cbn [fde_offset loaded_entry st_dev with_heap]. change (u32 0) with 0. rewrite u32_small by lia.
  destruct (fifo_device_calls (Z.of_nat (List.length bs)) 0 bs (st_dev s)) as [_ ->]; [apply Hm..|].
  destruct (fifo_dd_ok (d_internal_id d) (sw_fifos (st_dev s)) ff q bs 1 0 Hff Hq) as ((f1 & E1 & Hs1 & Hq1) & _); [done..|].
  rewrite E1, !bind_done. split; [apply rop_done|]. intros x [= <-]. cbn. split; [|done]. split_and!; [|done|].
  - unfold through_int. pose proof (u8_range (Z.of_nat (List.length bs))). rewrite s32_small by lia.
    rewrite u64_small by lia. done.
  - exists f1. split_and!; [done..|]. rewrite take_ge in Hq1 by lia. done.
Qed.

Lemma fifo_read_ok ff q n :
  sw_fifos (st_dev s) !! d_internal_id d = Some ff → holds_queue ff q → 0 < n < 2 ^ 32 →
  serves (λ r f w, r = (Z.of_nat (List.length (take (Z.to_nat n) q)) mod 256, take (Z.to_nat n) q) ∧ f = st_fds s ∧
            ∃ ff', w = set_fifos (<[d_internal_id d := ff']> (sw_fifos (st_dev s))) (st_dev s) ∧
                   holds_queue ff' (drop (Z.to_nat n) q))
    L (vfs_file_read fd n v s).
Proof.
  intros Hff Hq Hn. apply fifo_descriptor_ok. intros m t L' h Hal' Hnm Hd Hat. cbn.
  unfold stream_compat_file_read. rewrite (fifo_on_file _ m t) by (by apply Hat). unfold vfs_stream_read.
  rewrite Hd. cbn [fde_offset loaded_entry st_dev with_heap]. change (u32 0) with 0. rewrite u32_small by lia.
  destruct (fifo_device_calls n 0 [] (st_dev s)) as [-> _]; [apply Hm..|].
  destruct (fifo_dd_ok (d_internal_id d) (sw_fifos (st_dev s)) ff q [] n 0 Hff Hq) as (_ & (f1 & E1 & Hs1 & Hq1) & _);
    [done|lia|].
  rewrite E1, !bind_done. split; [apply rop_done|]. intros x [= <-]. cbn. split; [|done]. split_and!; [|done|].
  - unfold through_int. rewrite drop_0. pose proof (u8_range (Z.of_nat (List.length (take (Z.to_nat n) q)))).
    rewrite s32_small by lia. by rewrite u64_small by lia.
  - by exists f1.
Qed.

Lemma fifo_close_ok :
  serves (λ r f w, r = 0 ∧ w = st_dev s ∧ f = set_file fd (with_loaded 0 (file_at (st_fds s) fd)) (st_fds s))
    L (vfs_file_close fd v s).
Proof.
  apply fifo_descriptor_ok. intros m t L' h Hal' Hnm Hd Hat. cbn.
  unfold stream_compat_file_close. rewrite Hat by done. unfold release_fd.
  rewrite Z.geb_leb, (proj2 (Z.leb_gt _ _)), file_entry_ok by lia. rewrite !bind_done.
  split; [apply rop_done|]. intros x [= <-]. done.
Qed.
End Opened.

Lemma fifo_mounted_table v w w' name : sw_table w' = sw_table w → fifo_mounted v w name → fifo_mounted v w' name.
Proof.
  intros E [H1 H2 H3 H4 H5 (ns & i & m & k & f & t & H6)]. split; try done. exists ns, i, m, k, f, t. by rewrite E.
Qed.

(** A program that opens the queue, writes, reads and closes it. *)
Definition queue_session (name bs : list Z) (n : Z) v s :=
  '(fd, s) ← vfs_file_open (name ++ [47]) 0 0 v s;
  '(r1, s) ← vfs_file_write fd bs (Z.of_nat (List.length bs)) v s;
  '(r2, s) ← vfs_file_read fd n v s;
  '(r3, s) ← vfs_file_close fd v s;
  Done (fd, r1, r2, r3, s).

(** C23: A queue mounted in the virtual file system is a queue.  Opening the path of the mount,
    writing bytes that fit, reading and closing, all through the interface, the descriptor
    table, the file system, the device registry and the driver, runs without a fault: the
    descriptor was free and is free again, the bytes read are the first of those queued
    before and those written, in order, the queue keeps the rest, the counts are returned
    modulo 256, and the heap blocks in use are those in use before. *)
Theorem vfs_queue_session v name s ff q bs n (L : gset Z) :
  fifo_mounted v (st_dev s) name →
  sw_fifos (st_dev s) !! d_internal_id d = Some ff → holds_queue ff q →
  Z.of_nat (List.length (q ++ bs)) < ff_size ff → Z.of_nat (List.length bs) < 2 ^ 32 → 0 < n < 2 ^ 32 →
  al_ok L (st_heap s) → 0 ≤ next_fd (st_fds s) < FILES →
  (∃ fd, 0 ≤ fd < FILES ∧ fde_loaded (file_at (st_fds s) fd) = 0) →
  let out := take (Z.to_nat n) (q ++ bs) in
  returns_or_panics (queue_session name bs n v s) ∧
  ∀ fd r1 r2 r3 s', queue_session name bs n v s = Done (fd, r1, r2, r3, s') →
    0 ≤ fd < FILES ∧ fde_loaded (file_at (st_fds s) fd) = 0 ∧ fde_loaded (file_at (st_fds s') fd) = 0 ∧
    r1 = Z.of_nat (List.length bs) mod 256 ∧ r2 = (Z.of_nat (List.length out) mod 256, out) ∧ r3 = 0 ∧
    al_ok L (st_heap s') ∧ sw_table (st_dev s') = sw_table (st_dev s) ∧
    ∃ ff', sw_fifos (st_dev s') = <[d_internal_id d := ff']> (sw_fifos (st_dev s)) ∧
           holds_queue ff' (drop (Z.to_nat n) (q ++ bs)).
Proof.
  intros Hm Hff Hq Hfit Hbs Hn Hal Hc Hfree out.
  cut (serves (λ x f w, ∃ fd ff', x = (fd, Z.of_nat (List.length bs) mod 256, (Z.of_nat (List.length out) mod 256, out), 0) ∧
      0 ≤ fd < FILES ∧ fde_loaded (file_at (st_fds s) fd) = 0 ∧ fde_loaded (file_at f fd) = 0 ∧
      sw_table w = sw_table (st_dev s) ∧ sw_fifos w = <[d_internal_id d := ff']> (sw_fifos (st_dev s)) ∧
      holds_queue ff' (drop (Z.to_nat n) (q ++ bs))) L (queue_session name bs n v s)).
  { intros [Hr Hd]. split; [done|]. intros fd r1 r2 r3 s' E. destruct (Hd _ E) as [(fd' & ff' & [= -> -> -> ->] & Hx) Hal'].
    cbn in *. destruct_and! Hx. split_and!; try done. by exists ff'. }
  unfold queue_session. eapply serves_bind; [by apply fifo_open_ok|].
  intros fd s1 (Hw1 & Hfd & Hl & Hf1) Hal1. cbv beta iota.
  assert (He1 : file_at (st_fds s1) fd = loaded_entry [47] name 0 0).
  { rewrite Hf1. change (file_at (with_next_fd ?v ?s) ?k) with (file_at s k). by rewrite file_at_set, decide_True. }
  eapply serves_bind; [eapply fifo_write_ok; try done; rewrite Hw1; done|].
  intros r1 s2 (-> & Hf2 & ff2 & Hw2 & Hsz & Hq2) Hal2. cbv beta iota.
  assert (He2 : file_at (st_fds s2) fd = loaded_entry [47] name 0 0) by (by rewrite Hf2).
  eapply serves_bind.
  { eapply (fifo_read_ok v name); try done; rewrite Hw2; [|apply lookup_insert_eq].
    eapply fifo_mounted_table; [|exact Hm]. by rewrite Hw1. }
  intros r2 s3 (-> & Hf3 & ff3 & Hw3 & Hq3) Hal3. cbv beta iota.
  eapply serves_bind.
  { eapply (fifo_close_ok v name); try done; [|by rewrite Hf3]. rewrite Hw3, Hw2.
    eapply fifo_mounted_table; [|exact Hm]. by rewrite Hw1. }
  intros r3 s4 (-> & Hw4 & Hf4) Hal4. cbv beta iota. split; [apply rop_done|]. intros x [= <-]. cbn. split; [|done].
  exists fd, ff3. rewrite Hw4, Hw3, Hw2, Hw1, Hf4, file_at_set, decide_True by done. cbn.
  split_and!; try done; try lia. apply insert_insert_eq.
Qed.
End Pipe.

(** A system with one queue of four bytes, which holds the byte 7, as device fifoa. *)
Definition stream_registry : registry stream_world :=
  Registry [fifoa; cleared_device 0x140] (λ _, DeviceDriver None None 0 []) (λ _, DeviceDriver None None 0 [])
    (λ _, DeviceDriver None None 0 []).
Definition fifo_fs : fs_type stream_world (kernel (P := mmu)) :=
  @fifo_register _ _ kmalloc_allocator (with_fifo_driver stream_registry) sw_table set_table.
Definition fresh_world : vst stream_world (kernel (P := mmu)) :=
  Vst no_fds (StreamWorld (replicate 32 None) {[0x500 := queue1]}) kernel1.

(** The device mounted as fifoap0. *)
Definition fifoap0 : list Z := chars "fifoap0".
Definition mounted_vfs : vfs stream_world (kernel (P := mmu)) :=
  Vfs [fifo_fs; cleared_fst] [VfsMount 0x100 0x700 (Some 0%nat) 0; cleared_mount] None
    {[0x700 := VfsPartition fifoap0 0 0 0 0]} ∅ 1.
Definition mounted_world : vst stream_world (kernel (P := mmu)) :=
  with_dev (set_table (<[0%nat := Some (Stream 0x800 fifoap0 (cname fifoa))]> (replicate 32 None))
              (st_dev fresh_world)) fresh_world.

Lemma fifoa_ok : devices_ok [fifoa].
Proof.
  intros before x after E. destruct before as [|y [|z before]]; simplify_list_eq.
  split; try done; [by do 10 right; left|by exists 26%nat].
Qed.

Lemma vfs_queue_session_witness :
  ∃ fd s', @queue_session _ kmalloc_allocator fifoap0 [1; 2] 2 mounted_vfs mounted_world =
    Done (fd, 2, (2, [7; 1]), 0, s').
Proof.
  destruct (@vfs_queue_session _ kmalloc_allocator kmalloc_allocator_ok stream_registry [fifoa] 0x140 fifoa mounted_vfs
    fifoap0 mounted_world queue1 [7] [1; 2] 2 ∅) as [_ HD].
  - split; [apply fifoa_ok|done|by left|done|done|].
    exists [fifoap0], 0%nat, (VfsMount 0x100 0x700 (Some 0%nat) 0), 0%nat, fifo_fs, (Stream 0x800 fifoap0 (cname fifoa)).
    split_and!; try done; [|by left|lia].
    split. exists [VfsMount 0x100 0x700 (Some 0%nat) 0]. split; [done|]. constructor; [|done]. split; [done|].
    by exists (VfsPartition fifoap0 0 0 0 0).
  - apply lookup_insert_eq.
  - split; try done. split; try done. intros [|i] Hi; [done|cbn in Hi; lia].
  - done.
  - done.
  - done.
  - apply kernel1_alloc.
  - done.
  - by exists 0.
  - destruct (is_done_returns (@queue_session _ kmalloc_allocator fifoap0 [1; 2] 2 mounted_vfs mounted_world))
      as [[[[[fd r1] r2] r3] s'] E]; [by vm_compute|].
    destruct (HD _ _ _ _ _ E) as (_ & _ & _ & -> & -> & -> & _). by exists fd, s'.
Defined.

(** Probing a freshly started system mounts the queue under the name of its device and
    partition; probing once more faults: the loop that skips the devices already known walks
    past the last one. *)
Definition boot : outcome (vfs stream_world (kernel (P := mmu)) * vst stream_world (kernel (P := mmu))) :=
  '(v, s) ← @register_filesystem _ _ kmalloc_allocator fifo_fs no_vfs fresh_world;
  @probe_fs _ _ kmalloc_allocator (with_fifo_driver stream_registry) v s.

Definition mount_names (v : vfs stream_world (kernel (P := mmu))) : list (option (list Z)) :=
  (λ m, p_name <$> v_parts v !! m_partition m) <$> removelast (v_mounts v).

Lemma probe_mounts :
  match boot with
  | Done (v, s) => bool_decide (mount_names v = [Some fifoap0]) &&
                   negb (is_done (@probe_fs _ _ kmalloc_allocator (with_fifo_driver stream_registry) v s))
  | _ => false
  end = true.
Proof. by vm_compute. Qed.
