(* ===== verification/Ext2Vfs.v ===== *)
(** * ext2 behind the virtual file system (src/src/vfs/generic/ext2/generic_ext2.h, the rest of ext2.c)

    The table of mounted partitions and the operations registered with the virtual file
    system.  An open file is its path; every operation resolves it again.  The mounted
    partitions are on one disk. *)
From Stdlib Require Import String.
From S2P Require Import Prelude PageService Alloc Devices Ext2Block Ext2Inode Ext2Dir Ext2Fs VfsFd Vfs VfsStream.
#[local] Open Scope Z_scope.

Definition MAX_EXT2_PARTITIONS : nat := 32.
Definition EXT2_FILE_TYPE_REGULAR : Z := 1.
Definition EXT2_DIR_TYPE_DIR : Z := 2.

(** A mounted partition: its name, what is kept of its structures, and the partition. *)
Record ext2_entry := Ext2Entry { xe_name : list Z; xe_mount : ext2_mount; xe_part : ext2_partition }.

(** The table, the disk, the counter of inode generations and the time. *)
Record ext2_world (D : Type) := Ext2World {
  xw_parts : list (option ext2_entry); xw_disk : D; xw_unique : Z; xw_epoch : Z;
}.
Arguments Ext2World {D} _ _ _ _.
Arguments xw_parts {D} _.
Arguments xw_disk {D} _.
Arguments xw_unique {D} _.
Arguments xw_epoch {D} _.

Definition entry_file_type (entry : list Z) : outcome Z := known (entry !! 7%nat).
Definition is_directory (file_type : Z) : bool := file_type =? EXT2_DIR_TYPE_DIR.

(** The part before the last separator and the part after it. *)
Definition split_into_path_and_name (full : list Z) : option (list Z * list Z) :=
  match full with
  | [] => None
  | _ =>
      match list_find (λ c, c = SLASH) (reverse full) with
      | None => Some ([], full)
      | Some (k, _) =>
          let at_ := (List.length full - S k)%nat in
          Some (take (if (at_ =? 0)%nat then 1 else at_) full, drop (S at_) full)
      end
  end.

(** The name of the [i]-th of the entries read: it ends at the first zero byte, wherever that
    is in the buffer. *)
Definition name_from (entries : list (list Z)) (i : nat) : outcome (list Z) :=
  let bytes := drop 8 (mjoin (drop i entries)) in
  if bool_decide (0 ∈ bytes) then Done (c_string bytes) else Fault.

Section Compat.
Context {D A : Type} `{Disk D} `{Allocator A}.
(** What the driver reports as sector size; what fresh buffers contain; the type in a
    directory entry that is never filled. *)
Context (sector_size : option Z) (junk : list Z) (junk_type : Z).
Implicit Types (s : vst (ext2_world D) A).

Definition with_parts_of (l : list (option ext2_entry)) (w : ext2_world D) : ext2_world D :=
  Ext2World l (xw_disk w) (xw_unique w) (xw_epoch w).

Definition ext2_compat_register_partition (drive : list Z) (lba : Z) (mountpoint : list Z) : call (ext2_world D) A Z := λ s,
  let w := st_dev s in
  match list_find (λ e, e = None) (xw_parts w) with
  | None => Done (-1, s)
  | Some (i, _) =>
      r ← ext2_partition_register_partition sector_size lba (xw_disk w);
      match r with
      | None => Done (-1, s)
      | Some (mt, p) =>
          Done (Z.of_nat i, with_dev (with_parts_of (<[i := Some (Ext2Entry (take 31 mountpoint) mt p)]> (xw_parts w)) w) s)
      end
  end.

(** The partition is only forgotten. *)
Definition ext2_compat_unregister_partition (index : Z) : call (ext2_world D) A Z := λ s,
  if index <? 0 then Fault else
  e ← known (xw_parts (st_dev s) !! Z.to_nat index);
  match e with
  | None => Done (1, s)
  | Some _ => Done (0, with_dev (with_parts_of (<[Z.to_nat index := None]> (xw_parts (st_dev s))) (st_dev s)) s)
  end.

Definition ext2_compat_detect (disk : list Z) (lba : Z) : call (ext2_world D) A Z := λ s,
  r ← ext2_partition_search lba (xw_disk (st_dev s)); Done (r, s).

Definition in_range (partno : Z) : bool := (0 <=? partno) && (partno <? Z.of_nat MAX_EXT2_PARTITIONS).
Definition ext2_at (partno : Z) s : option ext2_entry :=
  if in_range partno then mjoin (xw_parts (st_dev s) !! Z.to_nat partno) else None.

(** The guards all operations have, with the value returned when there is no partition. *)
Definition on_partition {R} (fail : R) (partno : Z) (k : ext2_entry → call (ext2_world D) A R) : call (ext2_world D) A R := λ s,
  match ext2_at partno s with None => Done (fail, s) | Some e => k e s end.

(** The partition and the disk after a change. *)
Definition fs_of (e : ext2_entry) s : ext2fs D := Fs (xw_disk (st_dev s)) (xe_part e).
Definition store_fs (partno : Z) (e : ext2_entry) (unique : Z) (fs : ext2fs D) s : vst (ext2_world D) A :=
  with_dev (Ext2World (<[Z.to_nat partno := Some (Ext2Entry (xe_name e) (xe_mount e) (fs_part fs))]> (xw_parts (st_dev s)))
              (fs_disk fs) unique (xw_epoch (st_dev s))) s.

(** An index in range without a partition is a NULL pointer. *)
Definition ext2_compat_flush (index : Z) : call (ext2_world D) A Z := λ s,
  if negb (in_range index) then Done (-1, s) else
  e ← known (ext2_at index s);
  fs ← ext2_flush_partition (xe_mount e) (fs_of e s);
  Done (EXT2_RESULT_OK, store_fs index e (xw_unique (st_dev s)) fs s).

Definition ext2_compat_file_open (partno : Z) (path : list Z) (flags mode : Z) : call (ext2_world D) A Z :=
  on_partition (-1) partno (λ e s, '(r, f) ← get_fd path (xe_name e) flags mode (st_fds s); Done (r, with_fds f s)).
Definition open_dir (e : ext2_entry) (path : list Z) (mode : Z) : call (ext2_world D) A Z := λ s,
  '(r, f, h) ← get_dirfd path (xe_name e) 0 mode (st_fds s) (st_heap s); Done (r, with_heap h (with_fds f s)).
Definition ext2_compat_dir_open (partno : Z) (path : list Z) : call (ext2_world D) A Z :=
  on_partition (-1) partno (λ e, open_dir e path 0).
Definition ext2_compat_file_close (partno fd : Z) : call (ext2_world D) A Z :=
  on_partition (-1) partno (λ e s, '(r, f) ← release_fd fd (st_fds s); Done (r, with_fds f s)).
Definition ext2_compat_dir_close (partno fd : Z) : call (ext2_world D) A Z :=
  on_partition (-1) partno (λ e s,
    '(r, f, h) ← release_dirfd fd (st_fds s) (st_heap s); Done (r, with_heap h (with_fds f s))).

Definition create (partno : Z) (e : ext2_entry) (path : list Z) (type mode : Z) : call (ext2_world D) A Z := λ s,
  let w := st_dev s in
  '(r, unique, fs) ← ext2_create_file (xe_mount e) junk path type (u32 mode) (xw_unique w) (xw_epoch w) (fs_of e s);
  Done (r, store_fs partno e unique fs s).
Definition ext2_compat_file_creat (partno : Z) (path : list Z) (mode : Z) : call (ext2_world D) A Z :=
  on_partition (-1) partno (λ e s,
    '(r, s) ← create partno e path EXT2_FILE_TYPE_REGULAR mode s;
    if negb (r =? EXT2_RESULT_OK) then Done (-1, s) else
    '(r, f) ← get_fd path (xe_name e) 0 mode (st_fds s); Done (r, with_fds f s)).
Definition ext2_compat_dir_creat (partno : Z) (path : list Z) (mode : Z) : call (ext2_world D) A Z :=
  on_partition (-1) partno (λ e s,
    '(r, s) ← create partno e path EXT2_FILE_TYPE_DIRECTORY mode s;
    if negb (r =? EXT2_RESULT_OK) then Done (-1, s) else open_dir e path mode s).

(** The result of a read is the result code, not a number of bytes. *)
Definition ext2_compat_file_read (partno fd size : Z) : call (ext2_world D) A (Z * list Z) :=
  on_partition (0, []) partno (λ e s,
    match vfs_compat_get_file_descriptor fd with
    | None => Done ((1, []), s)
    | Some i =>
        f ← file_entry i (st_fds s);
        if fde_loaded f =? 0 then Done ((1, []), s) else
        r ← ext2_read_file (xe_part e) (entry_name f) size (fde_offset f) (xw_disk (st_dev s));
        Done (r, s)
    end).

Definition ext2_compat_file_seek (partno fd offset whence : Z) : call (ext2_world D) A Z :=
  on_partition 0 partno (λ e s,
    i ← known (vfs_compat_get_file_descriptor fd);
    f ← file_entry i (st_fds s);
    if whence =? SEEK_SET then Done (offset, set_offset i f offset s) else
    if whence =? SEEK_CUR then let o := u64 (fde_offset f + offset) in Done (o, set_offset i f o s) else
    if whence =? SEEK_END then
      size ← ext2_get_file_size (xe_part e) (entry_name f) (xw_disk (st_dev s));
      let o := u64 (size + offset) in Done (o, set_offset i f o s)
    else Done (0, s)).

(** The offset advances by the size whatever the write returned. *)
Definition ext2_compat_file_write (partno fd : Z) (buffer : list Z) (size : Z) : call (ext2_world D) A Z :=
  on_partition (u64 (-1)) partno (λ e s,
    i ← known (vfs_compat_get_file_descriptor fd);
    f ← file_entry i (st_fds s);
    '(written, fs) ← ext2_write_file (xe_mount e) junk (entry_name f) buffer size (fde_offset f) (fs_of e s);
    let s := store_fs partno e (xw_unique (st_dev s)) fs s in
    '(_, s) ← ext2_compat_file_seek partno fd size SEEK_CUR s;
    Done (written, s)).

Definition ext2_compat_file_tell (partno fd : Z) : call (ext2_world D) A Z :=
  on_partition 0 partno (λ e s,
    i ← known (vfs_compat_get_file_descriptor fd);
    f ← file_entry i (st_fds s);
    Done (fde_offset f, s)).

Definition ext2_compat_dir_read (partno fd : Z) : call (ext2_world D) A (Z * option (list Z * Z * Z)) := λ s,
  '(r, e, f) ← read_dirfd fd (st_fds s); Done ((r, e), with_fds f s).

Fixpoint load_entries (fd : Z) (n : nat) (i : nat) (entries : list (list Z)) s : outcome (vst (ext2_world D) A) :=
  match n with
  | O => Done s
  | S n =>
      entry ← known (entries !! i);
      name ← name_from entries i;
      inode ← entry_inode entry;
      type ← entry_file_type entry;
      name_len ← entry_name_len entry;
      '(_, f, h) ← add_file_to_dirfd fd name inode type name_len (st_fds s) (st_heap s);
      load_entries fd n (S i) entries (with_heap h (with_fds f s))
  end.

Definition ext2_compat_dir_load (partno fd : Z) : call (ext2_world D) A Z :=
  on_partition 0 partno (λ e s,
    match vfs_compat_get_dir fd with
    | None => Done (0, s)
    | Some i =>
        dr ← dir_entry i (st_fds s);
        if fde_loaded (dir_fd dr) =? 0 then Done (0, s) else
        entries ← ext2_get_all_dirs (xe_part e) (entry_name (dir_fd dr)) (xw_disk (st_dev s));
        s ← load_entries fd (List.length entries) 0 entries s;
        Done (1, s)
    end).

Definition ext2_get_dentry (p : ext2_partition) (path : list Z) (d : D) : outcome Z :=
  match split_into_path_and_name path with
  | None => Done EXT2_RESULT_ERROR
  | Some (parent, name) =>
      r ← ext2_dentry_get_dentry p parent name d;
      Done (if negb (r =? 0) then EXT2_RESULT_ERROR else EXT2_RESULT_OK)
  end.

(** The entry whose type decides is not filled by the lookup. *)
Definition ext2_compat_prepare_remove (partno : Z) (path : list Z) : call (ext2_world D) A Z :=
  on_partition 0 partno (λ e s,
    r ← ext2_get_dentry (xe_part e) path (xw_disk (st_dev s));
    if negb (r =? EXT2_RESULT_OK) then Done (0, s) else
    if is_directory junk_type then
      entries ← ext2_get_all_dirs (xe_part e) path (xw_disk (st_dev s));
      Done (b2z (List.length entries =? 0)%nat, s)
    else Done (1, s)).

Definition ext2_compat_remove (partno : Z) (path : list Z) : call (ext2_world D) A Z :=
  on_partition 0 partno (λ e s,
    '(r, fs) ← ext2_delete_file (xe_mount e) path (xw_epoch (st_dev s)) (fs_of e s);
    Done (r, store_fs partno e (xw_unique (st_dev s)) fs s)).

Definition ext2_compat_debug : call (ext2_world D) A unit := λ s, Done (tt, s).

(** There is no operation to flush a file. *)
Definition ext2_register : fs_type (ext2_world D) A :=
  FsType (chars "EXT2") ([8; 9; 10; 11; 12] ++ replicate 251 0)%list 5 {|
    op_register_partition := Some ext2_compat_register_partition;
    op_unregister_partition := Some ext2_compat_unregister_partition;
    op_detect := Some ext2_compat_detect;
    op_flush := Some ext2_compat_flush;
    op_file_flush := None;
    op_file_open := Some ext2_compat_file_open;
    op_file_close := Some ext2_compat_file_close;
    op_file_creat := Some ext2_compat_file_creat;
    op_file_read := Some ext2_compat_file_read;
    op_file_write := Some ext2_compat_file_write;
    op_file_seek := Some ext2_compat_file_seek;
    op_file_tell := Some ext2_compat_file_tell;
    op_file_stat := Some (λ _ _, unsupported);
    op_dir_open := Some ext2_compat_dir_open;
    op_dir_close := Some ext2_compat_dir_close;
    op_dir_load := Some ext2_compat_dir_load;
    op_dir_read := Some ext2_compat_dir_read;
    op_dir_creat := Some ext2_compat_dir_creat;
    op_prepare_remove := Some ext2_compat_prepare_remove;
    op_rename := Some (λ _ _ _, unsupported);
    op_remove := Some ext2_compat_remove;
    op_chmod := Some (λ _ _ _, unsupported);
    op_debug := Some ext2_compat_debug;
  |}.
End Compat.
