(* ===== verification/Ext2VfsSpec.v ===== *)
(** * Files of an ext2 partition through the virtual file system

    What a program writes to an open file it reads back, through the interface of the virtual
    file system, the descriptor table, the resolution of the path in the directories of the
    partition, the block pointers of the file and the disk. *)
From Stdlib Require Import String.
From stdpp Require Import gmap.
From S2P Require Import Prelude PageService Alloc Paging PageAlloc Heap KernelHeap Ext2Block Ext2Disk Ext2Inode Ext2Spec Ext2File Ext2FileSpec Ext2Dir Ext2DirSpec Ext2Fs Ext2FsSpec VfsFd VfsFdSpec Vfs VfsStream VfsSpec Ext2Vfs.
#[local] Open Scope Z_scope.

Section Session.
Context {D A : Type} `{DiskOk D} `{AllocatorOk A}.
Context (sector_size : option Z) (junk : list Z) (junk_type : Z).
Abbreviation World := (ext2_world D).
Implicit Types (v : vfs World A) (s : vst World A).

(** The partition [e], number [partno], is mounted under its name; [native] is a path in it. *)
Record ext2_mounted v (partno : Z) (e : ext2_entry) (native : list Z) : Prop := {
  em_range : 0 ≤ partno < 32;
  em_short : strlen_of (xe_name e) < 256;
  em_native : strlen_of native < 256;
  em_where : ∃ ns i m k f, mounted v ns ∧ (v_current_root v = None ∨ head (xe_name e ++ native) ≠ Some 47) ∧
    ns !! i = Some (xe_name e) ∧
    (∀ j n, (j < i)%nat → ns !! j = Some n → is_prefix n (xe_name e ++ native) = false) ∧
    v_mounts v !! i = Some m ∧ m_fst m = Some k ∧ v_fsts v !! k = Some f ∧
    fs_operations f = fs_operations (ext2_register sector_size junk junk_type) ∧ m_internal_index m = partno;
}.

Lemma ext2_resolves v partno e native :
  ext2_mounted v partno e native → ∃ i m k f,
    get_mount_from_path (xe_name e ++ native) v = Done (Some (i, native)) ∧
    v_mounts v !! i = Some m ∧ m_fst m = Some k ∧ v_fsts v !! k = Some f ∧
    fs_operations f = fs_operations (ext2_register sector_size junk junk_type) ∧ m_internal_index m = partno.
Proof.
  intros [_ _ _ (ns & i & m & k & f & Hm & Hroot & Hi & Hj & Hmi & Hk & Hf & Hops & Hx)].
  exists i, m, k, f. split_and!; try done. rewrite (resolve_ok v ns) by done. by rewrite (first_prefix_own 0 ns i (xe_name e) native).
Qed.

Lemma ext2_path_short e native :
  strlen_of (xe_name e) < 256 → strlen_of native < 256 → strlen_of (xe_name e ++ native) + 1 < 2 ^ 32.
Proof. unfold strlen_of. rewrite length_app. lia. Qed.

Lemma on_partition_ok {R} (fail : R) partno e k s :
  0 ≤ partno < 32 → xw_parts (st_dev s) !! Z.to_nat partno = Some (Some e) → on_partition fail partno k s = k e s.
Proof.
  intros Hr He. unfold on_partition, ext2_at, in_range. change (Z.of_nat MAX_EXT2_PARTITIONS) with 32.
  rewrite (proj2 (Z.leb_le _ _)), (proj2 (Z.ltb_lt _ _)) by lia. cbn [andb]. by rewrite He.
Qed.

Lemma ext2_open_ok v partno e native s (L : gset Z) :
  ext2_mounted v partno e native → xw_parts (st_dev s) !! Z.to_nat partno = Some (Some e) →
  al_ok L (st_heap s) → 0 ≤ next_fd (st_fds s) < FILES →
  (∃ fd, 0 ≤ fd < FILES ∧ fde_loaded (file_at (st_fds s) fd) = 0) →
  serves (λ fd f w, w = st_dev s ∧ 0 ≤ fd < FILES ∧ fde_loaded (file_at (st_fds s) fd) = 0 ∧
            f = with_next_fd (fd + 1) (set_file fd (loaded_entry native (xe_name e) 0 0) (st_fds s)))
    L (vfs_file_open (xe_name e ++ native) 0 0 v s).
Proof.
  intros Hm He Hal Hc (f0 & Hf0 & Hl0). pose proof (em_short _ _ _ _ Hm). pose proof (em_native _ _ _ _ Hm).
  destruct (ext2_resolves v _ _ _ Hm) as (i & m & k & f & Hg & Hmi & Hk & Hf & Hops & Hx).
  eapply by_path_ok; [done|by apply ext2_path_short|done..|]. intros L' h Hal'. rewrite Hops, Hx. cbn [known fs_operations ext2_register op_file_open].
  rewrite bind_done. unfold ext2_compat_file_open. rewrite (on_partition_ok _ _ e) by (done || apply Hm).
  destruct (get_fd_ok (st_fds s) native (xe_name e) 0 0) as [(fd & Hfd & Hl & E)|[Hall _]]; [done|lia|lia| |].
  - change (st_fds (with_heap h s)) with (st_fds s). rewrite E, bind_done. split; [apply rop_done|]. intros x [= <-]. done.
  - exfalso. by apply (Hall f0).
Qed.

(** The calls on a descriptor of the file. *)
Section Opened.
Context v (partno : Z) (e : ext2_entry) (native : list Z) s (fd o : Z) (L : gset Z).
Hypothesis Hm : ext2_mounted v partno e native.
Hypothesis He : xw_parts (st_dev s) !! Z.to_nat partno = Some (Some e).
Hypothesis Hfd : 0 ≤ fd < FILES.
Hypothesis Hfile : file_at (st_fds s) fd = with_offset o (loaded_entry native (xe_name e) 0 0).
Hypothesis Hal : al_ok L (st_heap s).

Lemma opened_name : entry_name (with_offset o (loaded_entry native (xe_name e) 0 0)) = native.
Proof.
  unfold entry_name, fills. cbn [fde_name with_offset loaded_entry].
  pose proof (em_native _ _ _ _ Hm). by rewrite (proj2 (Z.eqb_neq _ _)) by (unfold VFS_FDE_NAME_MAX_LEN; lia).
Qed.

Lemma ext2_descriptor_ok {R} (bad fail : R) kk Q :
  (∀ m (L' : gset Z) h, al_ok L' h → m_internal_index m = partno →
     serves Q L' (kk m (fs_operations (ext2_register sector_size junk junk_type)) (with_heap h s))) →
  serves Q L (by_descriptor (get_full_path_from_fd fd) bad fail kk v s).
Proof.
  intros Hk. destruct (ext2_resolves v _ _ _ Hm) as (i & m & k & f & Hg & Hmi & Hmk & Hf & Hops & Hx).
  assert (Hpath : (fde_mount (file_at (st_fds s) fd) ++ entry_name (file_at (st_fds s) fd))%list = (xe_name e ++ native)%list).
  { rewrite Hfile, opened_name. done. }
  eapply by_descriptor_ok; try done.
  - rewrite Hpath. apply ext2_path_short; apply Hm.
  - rewrite Hpath. exact Hg.
  - intros L' h Hal'. rewrite Hops. by eapply Hk.
Qed.

Lemma opened_entry h : file_entry fd (st_fds (with_heap h s)) = Done (with_offset o (loaded_entry native (xe_name e) 0 0)).
Proof. rewrite file_entry_ok by done. f_equal. exact Hfile. Qed.

Lemma get_descriptor_ok : vfs_compat_get_file_descriptor fd = Some fd.
Proof. unfold vfs_compat_get_file_descriptor. by rewrite Z.geb_leb, (proj2 (Z.leb_gt _ _)) by lia. Qed.

Lemma ext2_seek_ok offset :
  serves (λ r f w, r = offset ∧ w = st_dev s ∧ f = set_file fd (with_offset offset (loaded_entry native (xe_name e) 0 0)) (st_fds s))
    L (vfs_file_seek fd offset SEEK_SET v s).
Proof.
  apply ext2_descriptor_ok. intros m L' h Hal' Hx. rewrite Hx. cbn [known fs_operations ext2_register op_file_seek].
  rewrite bind_done. unfold ext2_compat_file_seek. rewrite (on_partition_ok _ _ e) by (done || apply Hm).
  rewrite get_descriptor_ok. cbn [known]. rewrite bind_done, opened_entry, bind_done. change (SEEK_SET =? SEEK_SET) with true.
  split; [apply rop_done|]. intros x [= <-]. done.
Qed.

Lemma ext2_write_ok buf size r fs' :
  ext2_write_file (xe_mount e) junk native buf size o (Fs (xw_disk (st_dev s)) (xe_part e)) = Done (r, fs') →
  0 ≤ r < 2 ^ 31 → fs_part fs' = xe_part e →
  serves (λ x f w, x = r ∧ w = Ext2World (xw_parts (st_dev s)) (fs_disk fs') (xw_unique (st_dev s)) (xw_epoch (st_dev s)) ∧
            f = set_file fd (with_offset (u64 (o + size)) (loaded_entry native (xe_name e) 0 0)) (st_fds s))
    L (vfs_file_write fd buf size v s).
Proof.
  intros Hw Hr Hp. apply ext2_descriptor_ok. intros m L' h Hal' Hx. rewrite Hx. cbn [known fs_operations ext2_register op_file_write].
  rewrite bind_done. unfold ext2_compat_file_write. rewrite (on_partition_ok _ _ e) by (done || apply Hm).
  rewrite get_descriptor_ok. cbn [known]. rewrite bind_done, opened_entry, bind_done, opened_name.
  change (fde_offset (with_offset o _)) with o. unfold fs_of. change (st_dev (with_heap h s)) with (st_dev s). rewrite Hw, bind_done.
  assert (Hstore : store_fs partno e (xw_unique (st_dev s)) fs' (with_heap h s) =
    with_dev (Ext2World (xw_parts (st_dev s)) (fs_disk fs') (xw_unique (st_dev s)) (xw_epoch (st_dev s))) (with_heap h s)).
  { unfold store_fs. change (st_dev (with_heap h s)) with (st_dev s). do 2 f_equal. rewrite Hp. destruct e as [nm mt pt].
    cbn. by apply list_insert_id. }
  rewrite Hstore. unfold ext2_compat_file_seek. rewrite (on_partition_ok _ _ e) by (done || apply Hm).
  rewrite get_descriptor_ok. cbn [known]. rewrite bind_done. change (st_fds (with_dev ?w ?x)) with (st_fds x).
  rewrite opened_entry, bind_done. change (SEEK_CUR =? SEEK_SET) with false. change (SEEK_CUR =? SEEK_CUR) with true. cbv iota.
  rewrite !bind_done. split; [apply rop_done|]. intros x [= <-]. cbn. unfold through_int.
  rewrite s32_small, u64_small by lia. done.
Qed.

Lemma ext2_read_ok size r bytes :
  ext2_read_file (xe_part e) native size o (xw_disk (st_dev s)) = Done (r, bytes) → 0 ≤ r < 2 ^ 31 →
  serves (λ x f w, x = (r, bytes) ∧ w = st_dev s ∧ f = st_fds s) L (vfs_file_read fd size v s).
Proof.
  intros Hr Hrange. apply ext2_descriptor_ok. intros m L' h Hal' Hx. rewrite Hx. cbn [known fs_operations ext2_register op_file_read].
  rewrite bind_done. unfold ext2_compat_file_read. rewrite (on_partition_ok _ _ e) by (done || apply Hm).
  rewrite get_descriptor_ok, opened_entry, bind_done, opened_name. change (fde_loaded _ =? 0) with false. cbv iota.
  change (fde_offset (with_offset o _)) with o. change (st_dev (with_heap h s)) with (st_dev s). rewrite Hr, !bind_done.
  split; [apply rop_done|]. intros x [= <-]. cbn. unfold through_int. rewrite s32_small, u64_small by lia. done.
Qed.
End Opened.

(** A program that opens a file, writes at an offset, goes back and reads. *)
Definition file_session (path src : list Z) (size skip : Z) v s :=
  '(fd, s) ← vfs_file_open path 0 0 v s;
  '(_, s) ← vfs_file_seek fd skip SEEK_SET v s;
  '(written, s) ← vfs_file_write fd src size v s;
  '(_, s) ← vfs_file_seek fd skip SEEK_SET v s;
  '(got, s) ← vfs_file_read fd size v s;
  Done (fd, written, got, s).

End Session.

(** The file "/ab" of the small partition, mounted as hdap0. *)
Definition hdap0 : list Z := [104; 100; 97; 112; 48].
Definition small_entry : ext2_entry := Ext2Entry hdap0 (Mount [] [] [] 0 2 2) small_part.
Definition ext2_fs : fs_type (ext2_world ram_disk) (kernel (P := mmu)) :=
  @ext2_register _ _ _ kmalloc_allocator (Some 512) [] 0.
Definition small_vfs : vfs (ext2_world ram_disk) (kernel (P := mmu)) :=
  Vfs [ext2_fs; cleared_fst] [VfsMount 0x100 0x700 (Some 0%nat) 0; cleared_mount] None
    {[0x700 := VfsPartition hdap0 0 0 0 0]} ∅ 1.
Definition small_world : vst (ext2_world ram_disk) (kernel (P := mmu)) :=
  Vst no_fds (Ext2World (Some small_entry :: replicate 31 None) (dir_disk full_entries) 1 0) kernel1.

Lemma small_mounted : @ext2_mounted _ _ _ kmalloc_allocator (Some 512) [] 0 small_vfs 0 small_entry [47; 97; 98].
Proof.
  split; [done..|]. exists [hdap0], 0%nat, (VfsMount 0x100 0x700 (Some 0%nat) 0), 0%nat, ext2_fs.
  split_and!; try done; [|by left|lia].
  split. exists [VfsMount 0x100 0x700 (Some 0%nat) 0]. split; [done|]. constructor; [|done]. split; [done|].
  by exists (VfsPartition hdap0 0 0 0 0).
Qed.

Lemma small_session_runs :
  is_done (@file_session _ _ kmalloc_allocator (hdap0 ++ [47; 97; 98]) [1; 2; 3] 3 0 small_vfs small_world) = true.
Proof. by vm_compute. Qed.

