(* ===== verification/Fat32.v ===== *)
(** * The FAT32 driver (src/src/vfs/generic/fat32/fat32.c, fat32.h, generic_f32.h)

    Volumes are structures of the heap, chained from [volume_base], each with a buffer for one
    sector that is written back when it is dirty.  Directories and files point to their volume, so
    all of them share its buffer.  The disks are an interface, by the name of the disk and the
    number of the sector; a failed read leaves the buffer as it was.  The loops that follow chains
    of clusters have no bound of their own: [fuel] bounds them here. *)
From stdpp Require Import gmap.
From S2P Require Import Prelude Alloc CString.
#[local] Open Scope Z_scope.

(** [disk_read] and [disk_write] of one sector. *)
Class Disks (D : Type) := {
  disk_read : list Z → Z → D → option (list Z);
  disk_write : list Z → Z → list Z → D → bool * D;
}.

Definition FSTATUS_OK : Z := 0.
Definition FSTATUS_ERROR : Z := 1.
Definition FSTATUS_NO_VOLUME : Z := 2.
Definition FSTATUS_PATH_ERR : Z := 3.
Definition FSTATUS_EOF : Z := 4.

Definition BPB_SECTOR_SIZE : Z := 11.
Definition BPB_CLUSTER_SIZE : Z := 13.
Definition BPB_RSVD_CNT : Z := 14.
Definition BPB_NUM_FATS : Z := 16.
Definition BPB_ROOT_ENT_CNT : Z := 17.
Definition BPB_TOT_SECT_16 : Z := 19.
Definition BPB_FAT_SIZE_16 : Z := 22.
Definition BPB_TOT_SECT_32 : Z := 32.
Definition BPB_16_FSTYPE : Z := 54.
Definition BPB_32_FAT_SIZE : Z := 36.
Definition BPB_32_ROOT_CLUST : Z := 44.
Definition BPB_32_FSINFO : Z := 48.
Definition BPB_32_FSTYPE : Z := 82.
Definition SFN_ATTR : Z := 11.
Definition SFN_CTIME_TH : Z := 13.
Definition SFN_CTIME : Z := 14.
Definition SFN_CDATE : Z := 16.
Definition SFN_ADATE : Z := 18.
Definition SFN_CLUSTH : Z := 20.
Definition SFN_WTIME : Z := 22.
Definition SFN_WDATE : Z := 24.
Definition SFN_CLUSTL : Z := 26.
Definition SFN_FILE_SIZE : Z := 28.
Definition LFN_SEQ_MSK : Z := 0x1F.
Definition LFN_CRC : Z := 13.
Definition ATTR_VOL_LABEL : Z := 0x08.
Definition ATTR_LFN : Z := 0x0F.
Definition INFO_CLUST_CNT : Z := 488.
Definition INFO_NEXT_FREE : Z := 492.
Definition lfn_lut : list Z := [1; 3; 5; 7; 9; 14; 16; 18; 20; 22; 24; 28; 30].
Definition SIZEOF_VOLUME : Z := 864.

Record volume_s := Volume {
  v_next : Z; v_label : list Z; v_letter : Z; v_sector_size : Z; v_cluster_size : Z; v_total_size : Z;
  v_fat_lba : Z; v_fsinfo_lba : Z; v_data_lba : Z; v_root_lba : Z;
  v_buffer : list Z; v_buffer_lba : Z; v_disk : list Z; v_buffer_dirty : Z;
}.
Definition with_next x v := Volume x (v_label v) (v_letter v) (v_sector_size v) (v_cluster_size v) (v_total_size v)
  (v_fat_lba v) (v_fsinfo_lba v) (v_data_lba v) (v_root_lba v) (v_buffer v) (v_buffer_lba v) (v_disk v) (v_buffer_dirty v).
Definition with_label x v := Volume (v_next v) x (v_letter v) (v_sector_size v) (v_cluster_size v) (v_total_size v)
  (v_fat_lba v) (v_fsinfo_lba v) (v_data_lba v) (v_root_lba v) (v_buffer v) (v_buffer_lba v) (v_disk v) (v_buffer_dirty v).
Definition with_letter x v := Volume (v_next v) (v_label v) x (v_sector_size v) (v_cluster_size v) (v_total_size v)
  (v_fat_lba v) (v_fsinfo_lba v) (v_data_lba v) (v_root_lba v) (v_buffer v) (v_buffer_lba v) (v_disk v) (v_buffer_dirty v).
Definition with_buffer b lba dirty v := Volume (v_next v) (v_label v) (v_letter v) (v_sector_size v) (v_cluster_size v) (v_total_size v)
  (v_fat_lba v) (v_fsinfo_lba v) (v_data_lba v) (v_root_lba v) b lba (v_disk v) dirty.

Record dir_s := Dir { d_sector : Z; d_cluster : Z; d_rw_offset : Z; d_start_sect : Z; d_size : Z; d_vol : Z }.
Record file_s := File { f_sector : Z; f_cluster : Z; f_rw_offset : Z; f_size : Z; f_start_sect : Z; f_glob_offset : Z; f_vol : Z }.
Record info_s := Info {
  i_name : list Z; i_name_length : Z; i_attribute : Z; i_c_time_tenth : Z;
  i_c_time : Z; i_c_date : Z; i_a_date : Z; i_w_time : Z; i_w_date : Z; i_size : Z;
}.

(** ** Bytes of a buffer; outside of it is a fault *)
Definition at8 (b : list Z) (i : Z) : outcome Z := known (b !! Z.to_nat i).
Definition piece_of (b : list Z) (i n : Z) : outcome (list Z) :=
  if (Z.to_nat i + Z.to_nat n <=? length b)%nat then Done (take (Z.to_nat n) (drop (Z.to_nat i) b)) else Fault.
Definition at16 (b : list Z) (i : Z) : outcome Z := l ← piece_of b i 2; Done (le_value l).
Definition at32 (b : list Z) (i : Z) : outcome Z := l ← piece_of b i 4; Done (le_value l).
Definition le32 (v : Z) : list Z := [v mod 256; v / 256 mod 256; v / 65536 mod 256; v / 16777216 mod 256].
Definition put_at (i : Z) (l b : list Z) : outcome (list Z) :=
  if (Z.to_nat i + length l <=? length b)%nat
  then Done (take (Z.to_nat i) b ++ l ++ drop (Z.to_nat i + length l) b)%list else Fault.

(** The end of a chain of clusters. *)
Definition is_eoc (e : Z) : bool := let v := Z.land e 0xFFFFFFF in (v >=? 0xFFFFFF8) && (v <=? 0xFFFFFFF).

(** Addresses are 32 bits wide. *)
Definition fat_clust_to_sect (v : volume_s) (clust : Z) : Z := u32 (u32 (clust - 2) * v_cluster_size v + v_data_lba v).
Definition fat_sect_to_clust (v : volume_s) (sect : Z) : outcome Z :=
  if v_cluster_size v =? 0 then Fault else Done (u32 (u32 (sect - v_data_lba v) / v_cluster_size v + 2)).

(** ** Names *)
Definition fat_dir_sfn_crc (sfn : list Z) : Z :=
  foldl (λ crc b, u8 (Z.shiftl (Z.land crc 1) 7 + Z.shiftr crc 1 + b)) 0 (take 11 sfn).

(** The counter is decremented before it is tested: no characters are 256 of them. *)
Fixpoint sfn_cmp (n : nat) (sfn name : list Z) : outcome Z :=
  match n with
  | O => Done 1
  | S n =>
      c ← known (head name);
      s ← known (head sfn);
      let c := if (97 <=? c) && (c <=? 122) then c - 32 else c in
      if negb (c =? s) then Done 0 else sfn_cmp n (tail sfn) (tail name)
  end.
Definition fat_dir_sfn_cmp (sfn name : list Z) (size : Z) : outcome Z :=
  let size := u8 size in
  let size := if size >? 8 then 8 else size in
  sfn_cmp (if size =? 0 then 256%nat else Z.to_nat size) sfn name.

Fixpoint lfn_cmp (lut : list Z) (lfn name : list Z) (at_name : Z) : outcome Z :=
  match lut with
  | [] => Done 1
  | o :: lut =>
      c ← at8 lfn o;
      if (c =? 0x00) || (c =? 0xff) then Done 1 else
      x ← at8 name at_name;
      if negb (c =? x) then Done 0 else lfn_cmp lut lfn name (at_name + 1)
  end.
Definition name_offset (seq : Z) : Z := u8 (13 * (Z.land seq LFN_SEQ_MSK - 1)).
Definition fat_dir_lfn_cmp (lfn name : list Z) : outcome Z :=
  seq ← at8 lfn 0;
  lfn_cmp lfn_lut lfn name (name_offset seq).

Section driver.
Context {A : Type} `{Allocator A} {D : Type} `{Disks D} (fuel : nat).

Record fat := Fat {
  f_vols : gmap Z volume_s; volume_base : Z; volume_bitmask : Z; f_heap : A; f_disk : D;
}.
Implicit Types s : fat.

Definition with_vol (p : Z) (v : volume_s) s : fat := Fat (<[p := v]> (f_vols s)) (volume_base s) (volume_bitmask s) (f_heap s) (f_disk s).
Definition with_disk (d : D) s : fat := Fat (f_vols s) (volume_base s) (volume_bitmask s) (f_heap s) d.
Definition with_base (b m : Z) s : fat := Fat (f_vols s) b m (f_heap s) (f_disk s).
Definition vol_at (p : Z) s : outcome volume_s := known (f_vols s !! p).

(** ** The buffer of a volume *)
Definition fat_flush (p : Z) s : outcome (Z * fat) :=
  v ← vol_at p s;
  if negb (v_buffer_dirty v =? 0) then
    let '(ok, d) := disk_write (v_disk v) (v_buffer_lba v) (v_buffer v) (f_disk s) in
    let s := with_disk d s in
    if ok : bool then Done (1, with_vol p (with_buffer (v_buffer v) (v_buffer_lba v) 0 v) s) else Done (0, s)
  else Done (1, s).

Definition fat_read (p lba : Z) s : outcome (Z * fat) :=
  v ← vol_at p s;
  if negb (v_buffer_lba v =? lba) then
    '(r, s) ← fat_flush p s;
    if r =? 0 then Done (0, s) else
    v ← vol_at p s;
    match disk_read (v_disk v) lba (f_disk s) with
    | None => Done (0, s)
    | Some b =>
        if (length b =? 512)%nat then Done (1, with_vol p (with_buffer b lba (v_buffer_dirty v) v) s) else Fault
    end
  else Done (1, s).

(** The buffer with some bytes replaced, now dirty. *)
Definition put_buffer (p i : Z) (l : list Z) s : outcome fat :=
  v ← vol_at p s;
  b ← put_at i l (v_buffer v);
  Done (with_vol p (with_buffer b (v_buffer_lba v) 1 v) s).
Definition buffer_of (p : Z) s : outcome (list Z) := v ← vol_at p s; Done (v_buffer v).

(** ** The table *)
Definition fat_table_get (p cluster : Z) s : outcome (option Z * fat) :=
  v ← vol_at p s;
  '(r, s) ← fat_read p (u32 (v_fat_lba v + cluster / 128)) s;
  if r =? 0 then Done (None, s) else
  b ← buffer_of p s;
  e ← at32 b (cluster mod 128 * 4);
  Done (Some e, s).

Definition fat_table_set (p cluster entry : Z) s : outcome (Z * fat) :=
  v ← vol_at p s;
  '(r, s) ← fat_read p (u32 (v_fat_lba v + cluster / 128)) s;
  if r =? 0 then Done (0, s) else
  s ← put_buffer p (4 * (cluster mod 128)) (le32 entry) s;
  '(_, s) ← fat_flush p s;
  Done (1, s).

(** The search for two entries that look free: the first is taken, the second is where the next
    search starts. *)
Definition free_step (p : Z) '(sector, rw, found, s) : outcome ((Z * Z * option Z * fat) + (option (Z * Z * option Z) * fat)) :=
  '(r, s) ← fat_read p sector s;
  if r =? 0 then Done (inr (None, s)) else
  v ← vol_at p s;
  e ← at32 (v_buffer v) rw;
  let next found s :=
    let rw := rw + 4 in
    if rw >=? v_sector_size v then inl (u32 (sector + 1), 0, found, s) else inl (sector, rw, found, s) in
  if Z.land e 0x7f =? 0 then
    match found with
    | Some _ => Done (inr (Some (sector, rw, found), s))
    | None =>
        s ← put_buffer p rw (le32 0xFFFFFFF) s;
        Done (next (Some (u32 (128 * u32 (sector - v_fat_lba v) + rw / 4))) s)
    end
  else Done (next found s).

Definition fat_get_cluster (p : Z) s : outcome (option Z * fat) :=
  v ← vol_at p s;
  '(r, s) ← fat_read p (v_fsinfo_lba v) s;
  if r =? 0 then Done (None, s) else
  b ← buffer_of p s;
  next_free ← at32 b INFO_NEXT_FREE;
  tot_free ← at32 b INFO_CLUST_CNT;
  '(f, s) ← loop fuel (free_step p) (u32 (v_fat_lba v + next_free / 128), next_free mod 128 * 4, None, s);
  match f with
  | None => Done (None, s)
  | Some (sector, rw, found) =>
      '(r, s) ← fat_read p (v_fsinfo_lba v) s;
      if r =? 0 then Done (None, s) else
      s ← put_buffer p INFO_NEXT_FREE (le32 (u32 (128 * u32 (sector - v_fat_lba v) + rw / 4))) s;
      s ← put_buffer p INFO_CLUST_CNT (le32 (u32 (tot_free - 1))) s;
      '(_, s) ← fat_flush p s;
      Done (found, s)
  end.

(** ** Positions *)
(** The position behind the end of a sector: the next sector, or the first one of the next
    cluster of the chain.  The flag is the result; the position has changed in any case. *)
Definition next_sector (p sector cluster : Z) s : outcome (Z * (Z * Z) * fat) :=
  v ← vol_at p s;
  let sector := u32 (sector + 1) in
  if sector >=? u32 (fat_clust_to_sect v cluster + v_cluster_size v) then
    '(e, s) ← fat_table_get p cluster s;
    match e with
    | None => Done (0, (sector, cluster), s)
    | Some e => if is_eoc e then Done (0, (sector, cluster), s) else Done (1, (fat_clust_to_sect v e, e), s)
    end
  else Done (1, (sector, cluster), s).

Definition fat_dir_get_next (dir : dir_s) s : outcome (Z * dir_s * fat) :=
  v ← vol_at (d_vol dir) s;
  let rw := u32 (d_rw_offset dir + 32) in
  if rw >=? v_sector_size v then
    '(r, (sector, cluster), s) ← next_sector (d_vol dir) (d_sector dir) (d_cluster dir) s;
    Done (r, Dir sector cluster (u32 (rw - v_sector_size v)) (d_start_sect dir) (d_size dir) (d_vol dir), s)
  else Done (1, Dir (d_sector dir) (d_cluster dir) rw (d_start_sect dir) (d_size dir) (d_vol dir), s).

Definition fat_file_addr_resolve (file : file_s) s : outcome (Z * file_s * fat) :=
  v ← vol_at (f_vol file) s;
  if f_rw_offset file >=? v_sector_size v then
    '(r, (sector, cluster), s) ← next_sector (f_vol file) (f_sector file) (f_cluster file) s;
    Done (r, File sector cluster (u32 (f_rw_offset file - v_sector_size v)) (f_size file) (f_start_sect file) (f_glob_offset file) (f_vol file), s)
  else Done (1, file, s).

(** [fat_dir_set_index] does nothing. *)
Definition fat_dir_set_index (dir : dir_s) (index : Z) : Z := 1.

(** ** Searching a directory *)
(** An entry of a directory that is not marked as free. *)
Definition in_use (c : Z) : bool := negb ((c =? 0x00) || (c =? 0x05) || (c =? 0xE5)).

(** Whether a short entry is the one: the last of long ones that matched, or by its own name. *)
Definition sfn_match (e name : list Z) (size lfn_crc : Z) (lfn_match : bool) : outcome bool :=
  if negb (lfn_crc =? 0) && lfn_match then Done (lfn_crc =? fat_dir_sfn_crc e)
  else r ← fat_dir_sfn_cmp e name size; Done (negb (r =? 0)).

(** The directory or file of an entry. *)
Definition entry_dir (v : volume_s) (e : list Z) (vol : Z) : outcome dir_s :=
  hi ← at16 e SFN_CLUSTH;
  lo ← at16 e SFN_CLUSTL;
  size ← at32 e SFN_FILE_SIZE;
  let cluster := Z.lor (u32 (Z.shiftl hi 16)) lo in
  let sector := fat_clust_to_sect v cluster in
  Done (Dir sector cluster 0 sector size vol).

Definition search_step (name : list Z) (size : Z) '(dir, lfn_crc, lfn_match, s) : outcome ((dir_s * Z * bool * fat) + (Z * dir_s * fat)) :=
  '(r, s) ← fat_read (d_vol dir) (d_sector dir) s;
  if r =? 0 then Done (inr (0, dir, s)) else
  v ← vol_at (d_vol dir) s;
  let e := drop (Z.to_nat (d_rw_offset dir)) (v_buffer v) in
  c ← at8 e 0;
  if c =? 0x00 then Done (inr (0, dir, s)) else
  let next lfn_crc lfn_match :=
    '(r, dir, s) ← fat_dir_get_next dir s;
    Done (if (r : Z) =? 0 then inr (0, dir, s) else inl (dir, lfn_crc, lfn_match, s)) in
  if negb (in_use c) then next lfn_crc lfn_match else
  attr ← at8 e SFN_ATTR;
  if Z.land attr ATTR_LFN =? ATTR_LFN then
    r ← fat_dir_lfn_cmp e name;
    crc ← at8 e LFN_CRC;
    next crc (if r =? 0 then false else lfn_match)
  else
    found ← sfn_match e name size lfn_crc lfn_match;
    if found : bool then dir ← entry_dir v e (d_vol dir); Done (inr (1, dir, s))
    else next 0 true.

(** The search starts at the first sector; within that sector it goes on where it was. *)
Definition fat_dir_search (dir : dir_s) (name : list Z) (size : Z) s : outcome (Z * dir_s * fat) :=
  dir ← (if negb (d_start_sect dir =? d_sector dir) then
           v ← vol_at (d_vol dir) s;
           c ← fat_sect_to_clust v (d_start_sect dir);
           Done (Dir (d_start_sect dir) c 0 (d_start_sect dir) (d_size dir) (d_vol dir))
         else Done dir);
  loop fuel (search_step name size) (dir, 0, true, s).

(** ** Volumes *)
Definition volume_get_first s : Z := volume_base s.

Definition volume_get (letter : Z) s : outcome Z :=
  loop (S (S (size (f_vols s)))) (λ p,
    if p =? 0 then Done (inr 0) else
    v ← vol_at p s;
    if v_letter v =? letter then Done (inr p) else Done (inl (v_next v))) (volume_base s).

(** The first of the thirty-two letters that is not in use. *)
Definition free_letter (mask : Z) : option Z := head (filter (λ i, Z.land mask (2 ^ i) = 0) (seqZ 0 32)).

Definition fat_volume_add (p : Z) s : outcome fat :=
  s ← (if volume_base s =? 0 then Done (with_base p (volume_bitmask s) s) else
       last ← loop (S (S (size (f_vols s)))) (λ p,
         v ← vol_at p s;
         if v_next v =? 0 then Done (inr p) else Done (inl (v_next v))) (volume_base s);
       v ← vol_at last s;
       Done (with_vol last (with_next p v) s));
  v ← vol_at p s;
  let s := with_vol p (with_next 0 v) s in
  match free_letter (volume_bitmask s) with
  | None => Done s
  | Some i =>
      v ← vol_at p s;
      Done (with_vol p (with_letter (u8 (67 + i)) v) (with_base (volume_base s) (Z.lor (volume_bitmask s) (2 ^ i)) s))
  end.

Definition clear_letter (v : volume_s) s : fat :=
  with_base (volume_base s) (Z.land (volume_bitmask s) (u32 (Z.lnot (2 ^ (u8 (v_letter v - 67)))))) s.

Definition fat_volume_remove (letter : Z) s : outcome (Z * fat) :=
  if volume_base s =? 0 then Done (0, s) else
  first ← vol_at (volume_base s) s;
  if v_letter first =? letter then
    Done (1, clear_letter first (with_base (v_next first) (volume_bitmask s) s))
  else
    '(prev, curr) ← loop (S (S (size (f_vols s)))) (λ '(prev, curr),
      if curr =? 0 then Done (inr (prev, curr)) else
      v ← vol_at curr s;
      if v_letter v =? letter then Done (inr (prev, curr)) else Done (inl (curr, v_next v))) (volume_base s, v_next first);
    if curr =? 0 then Done (0, s) else
    v ← vol_at curr s;
    pv ← vol_at prev s;
    Done (1, clear_letter v (with_vol prev (with_next (v_next v) pv) s)).

(** A block of the heap that holds a volume. *)
Definition free_volume (p : Z) s : outcome fat :=
  h ← al_free p (f_heap s);
  Done (Fat (delete p (f_vols s)) (volume_base s) (volume_bitmask s) h (f_disk s)).

Definition unregstr_fat32_partition (letter : Z) s : outcome (Z * fat) :=
  p ← volume_get letter s;
  if p =? 0 then Done (1, s) else
  '(r, s) ← fat_volume_remove letter s;
  if r =? 0 then Done (0, s) else
  s ← free_volume p s;
  Done (1, s).

(** The pointer to the next volume is read from the one that was freed; its contents are gone. *)
Definition disk_eject (disk : list Z) s : outcome (Z * fat) :=
  loop (S (S (size (f_vols s)))) (λ '(p, s),
    if p =? 0 then Done (inr (1, s)) else
    v ← vol_at p s;
    if bool_decide (take (length disk) (v_disk v) = disk) then
      '(r, s) ← fat_volume_remove (v_letter v) s;
      if r =? 0 then Done (inr (0, s)) else
      s ← free_volume p s;
      v ← vol_at p s;
      Done (inl (v_next v, s))
    else Done (inl (v_next v, s))) (volume_base s, s).

(** The label is an entry of the root directory; the directory object has no volume. *)
Definition label_step (p : Z) '(dir, s) : outcome ((dir_s * fat) + (option (Z * list Z) * fat)) :=
  '(r, s) ← fat_read p (d_sector dir) s;
  if r =? 0 then Done (inr (None, s)) else
  b ← buffer_of p s;
  attr ← at8 b (d_rw_offset dir + SFN_ATTR);
  if negb (Z.land attr ATTR_VOL_LABEL =? 0) && negb (Z.land attr ATTR_LFN =? ATTR_LFN) then
    l ← piece_of b (d_rw_offset dir) 11;
    Done (inr (Some (d_rw_offset dir, l), s))
  else
    '(r, dir, s) ← fat_dir_get_next dir s;
    Done (if (r : Z) =? 0 then inr (None, s) else inl (dir, s)).
Definition find_label (p : Z) s : outcome (option (Z * list Z) * fat) :=
  v ← vol_at p s;
  c ← fat_sect_to_clust v (v_root_lba v);
  loop fuel (label_step p) (Dir (v_root_lba v) c 0 0 0 0, s).

Definition fat_get_vol_label (p : Z) s : outcome (Z * option (list Z) * fat) :=
  '(r, s) ← find_label p s;
  Done (match r with None => (FSTATUS_ERROR, None, s) | Some (_, l) => (1, Some l, s) end).
Definition volume_get_label : Z → fat → outcome (Z * option (list Z) * fat) := fat_get_vol_label.

(** [find_label] walks the same way; a failed read is [FSTATUS_ERROR], the end of the directory 0,
    but the walk cannot get past an entry without a volume. *)
Definition volume_set_label (p : Z) (name : list Z) (len : Z) s : outcome (Z * fat) :=
  '(r, s) ← find_label p s;
  match r with
  | None => Done (FSTATUS_ERROR, s)
  | Some (rw, _) =>
      let n := Nat.min (Z.to_nat len) 11 in
      if (length name <? n)%nat then Fault else
      s ← put_buffer p rw (take n name ++ replicate (11 - n) 32)%list s;
      '(_, s) ← fat_flush p s;
      Done (1, s)
  end.

Definition volume_format (p : Z) s : Z * fat := (FSTATUS_OK, s).

(** ** Mounting *)
Definition FAT_TEXT : list Z := [70; 65; 84].

(** The two comparisons hold when the texts are equal: a sector with both of them is refused. *)
Definition fat_search (name : list Z) (lba : Z) s : outcome Z :=
  match disk_read name lba (f_disk s) with
  | None => Done 0
  | Some bpb =>
      sig ← at16 bpb 510;
      if negb (sig =? 0xAA55) then Done 0 else
      t32 ← piece_of bpb BPB_32_FSTYPE 3;
      t16 ← piece_of bpb BPB_16_FSTYPE 3;
      if bool_decide (t32 = FAT_TEXT) && bool_decide (t16 = FAT_TEXT) then Done 0 else
      entries ← at16 bpb BPB_ROOT_ENT_CNT;
      ss ← at16 bpb BPB_SECTOR_SIZE;
      if ss - 1 =? 0 then Fault else
      let root_sectors := u32 (Z.quot (entries * 32 + (ss - 1)) (ss - 1)) in
      f16 ← at16 bpb BPB_FAT_SIZE_16;
      f32 ← at32 bpb BPB_32_FAT_SIZE;
      let fat_size := if negb (f16 =? 0) then f16 else f32 in
      t16 ← at16 bpb BPB_TOT_SECT_16;
      t32 ← at32 bpb BPB_TOT_SECT_32;
      let tot_sect := if negb (t16 =? 0) then t16 else t32 in
      rsvd ← at16 bpb BPB_RSVD_CNT;
      fats ← at8 bpb BPB_NUM_FATS;
      let data_sectors := u32 (tot_sect - u32 (rsvd + u32 (fats * fat_size) + root_sectors)) in
      cs ← at8 bpb BPB_CLUSTER_SIZE;
      if cs =? 0 then Fault else
      Done (if data_sectors / cs <? 65525 then 0 else 1)
  end.

(** The volume the first sector describes. *)
Definition volume_of (disk : list Z) (lba : Z) (b : list Z) : outcome volume_s :=
  ss ← at16 b BPB_SECTOR_SIZE;
  cs ← at8 b BPB_CLUSTER_SIZE;
  tot ← at32 b BPB_TOT_SECT_32;
  fsinfo ← at16 b BPB_32_FSINFO;
  rsvd ← at16 b BPB_RSVD_CNT;
  size ← at32 b BPB_32_FAT_SIZE;
  fats ← at8 b BPB_NUM_FATS;
  root ← at32 b BPB_32_ROOT_CLUST;
  let fat_lba := u32 (lba + rsvd) in
  let data_lba := u32 (fat_lba + u32 (size * fats)) in
  let v := Volume 0 (replicate 13 0) 0 ss cs tot fat_lba (u32 (lba + fsinfo)) data_lba 0 (replicate 512 0) 0 disk 0 in
  Done (Volume 0 (replicate 13 0) 0 ss cs tot fat_lba (u32 (lba + fsinfo)) data_lba (fat_clust_to_sect v root) (replicate 512 0) 0 disk 0).

(** The name is copied into 32 bytes and used as a string. *)
Definition register_fat32_partition (disk : list Z) (lba : Z) s : outcome (Z * fat) :=
  match disk_read disk lba (f_disk s) with
  | None => Done (0, s)
  | Some b =>
      '(p, h) ← al_malloc SIZEOF_VOLUME (f_heap s);
      if p =? 0 then Fault else
      v ← volume_of disk lba b;
      if (31 <? length disk)%nat then Fault else
      let s := Fat (<[p := v]> (f_vols s)) (volume_base s) (volume_bitmask s) h (f_disk s) in
      '(_, label, s) ← fat_get_vol_label p s;
      v ← vol_at p s;
      let s := match label with Some l => with_vol p (with_label (l ++ [0; 0])%list v) s | None => s end in
      s ← fat_volume_add p s;
      v ← vol_at p s;
      Done (v_letter v, s)
  end.

(** ** Paths *)
(** A pointer into a string is what is left of it with its terminator. *)
Fixpoint to_slash (t : list Z) : outcome (list Z) :=
  match t with [] => Fault | c :: t' => if (c =? 0) || (c =? 47) then Done t else to_slash t' end.

(** The size of a name, 8 bits wide; [None] for one with a dot, the name of a file. *)
Fixpoint fragment (t : list Z) (size : Z) : outcome (option Z) :=
  match t with
  | [] => Fault
  | c :: t => if (c =? 0) || (c =? 47) then Done (Some size) else if c =? 46 then Done None else fragment t (u8 (size + 1))
  end.

(** A directory that is not found ends the walk with [FSTATUS_OK]. *)
Definition follow_step '(t, dir, s) : outcome ((list Z * dir_s * fat) + (Z * dir_s * fat)) :=
  t ← to_slash t;
  c ← known (head t);
  let t := tail t in
  if c =? 0 then Done (inr (FSTATUS_OK, dir, s)) else
  c ← known (head t);
  if c =? 0 then Done (inr (FSTATUS_OK, dir, s)) else
  f ← fragment t 0;
  match f with
  | None => Done (inr (FSTATUS_OK, dir, s))
  | Some size =>
      '(r, dir, s) ← fat_dir_search dir t size s;
      Done (if (r : Z) =? 0 then inr (FSTATUS_OK, dir, s) else inl (t, dir, s))
  end.

Definition fat_follow_path (dir : dir_s) (path : list Z) s : outcome (Z * dir_s * fat) :=
  letter ← known (path !! 0%nat);
  p ← volume_get letter s;
  if p =? 0 then Done (FSTATUS_NO_VOLUME, dir, s) else
  v ← vol_at p s;
  let dir := Dir (v_root_lba v) (fat_clust_to_sect v (v_root_lba v)) 0 (v_root_lba v) (d_size dir) p in
  c ← known (path !! 1%nat);
  if negb (c =? 58) then Done (FSTATUS_PATH_ERR, dir, s) else
  c ← known (path !! 2%nat);
  if negb (c =? 47) then Done (FSTATUS_PATH_ERR, dir, s) else
  loop (S (length path)) follow_step (drop 2 path, dir, s).

(** ** Directories *)
Definition fat_dir_open : dir_s → list Z → fat → outcome (Z * dir_s * fat) := fat_follow_path.

Definition fat_dir_close (dir : dir_s) s : outcome (Z * fat) :=
  '(r, s) ← fat_flush (d_vol dir) s;
  Done (if r =? 0 then FSTATUS_ERROR else FSTATUS_OK, s).

(** The characters of a long entry; the name has 256 of them. *)
Fixpoint lfn_chars (lut : list Z) (e : list Z) (i : Z) (name : list Z) (len : Z) : outcome (list Z * Z) :=
  match lut with
  | [] => Done (name, len)
  | o :: lut =>
      c ← at8 e o;
      if (c =? 0x00) || (c =? 0xFF) then lfn_chars lut e (i + 1) name len else
      name ← put_at i [c] name;
      lfn_chars lut e (i + 1) name (u8 (len + 1))
  end.

Definition entry_info (e name : list Z) (len : Z) : outcome info_s :=
  attr ← at8 e SFN_ATTR;
  tenth ← at8 e SFN_CTIME_TH;
  ct ← at16 e SFN_CTIME;
  cd ← at16 e SFN_CDATE;
  wt ← at16 e SFN_WTIME;
  wd ← at16 e SFN_WDATE;
  ad ← at16 e SFN_ADATE;
  size ← at32 e SFN_FILE_SIZE;
  Done (Info name len attr tenth ct cd ad wt wd size).
Definition with_i_name name i := Info name (i_name_length i) (i_attribute i) (i_c_time_tenth i) (i_c_time i) (i_c_date i) (i_a_date i) (i_w_time i) (i_w_date i) (i_size i).

(** That the next entry could not be found is not noticed. *)
Definition dir_read_step '(dir, info, crc, len, s) : outcome ((dir_s * info_s * Z * Z * fat) + (Z * dir_s * info_s * fat)) :=
  '(r, s) ← fat_read (d_vol dir) (d_sector dir) s;
  if r =? 0 then Done (inr (FSTATUS_ERROR, dir, info, s)) else
  b ← buffer_of (d_vol dir) s;
  let e := drop (Z.to_nat (d_rw_offset dir)) b in
  c ← at8 e 0;
  if c =? 0x00 then Done (inr (FSTATUS_EOF, dir, info, s)) else
  if (c =? 0xE5) || (c =? 0x05) then '(_, dir, s) ← fat_dir_get_next dir s; Done (inl (dir, info, crc, len, s)) else
  attr ← at8 e SFN_ATTR;
  if Z.land attr ATTR_LFN =? ATTR_LFN then
    '(name, len) ← lfn_chars lfn_lut e (name_offset c) (i_name info) len;
    crc ← at8 e LFN_CRC;
    '(_, dir, s) ← fat_dir_get_next dir s;
    Done (inl (dir, with_i_name name info, crc, len, s))
  else if negb (crc =? 0) && negb (crc =? fat_dir_sfn_crc e) then Done (inr (FSTATUS_ERROR, dir, info, s)) else
  short ← piece_of e 0 11;
  name ← (if negb (crc =? 0) then Done (i_name info) else put_at 0 short (i_name info));
  info ← entry_info e name (if negb (crc =? 0) then len else u8 (len + 11));
  '(_, dir, s) ← fat_dir_get_next dir s;
  Done (inr (FSTATUS_OK, dir, info, s)).

Definition fat_dir_read (dir : dir_s) (info : info_s) s : outcome (Z * dir_s * info_s * fat) :=
  loop fuel dir_read_step (dir, info, 0, 0, s).

Definition fat_dir_make (path : list Z) s : Z * fat := (FSTATUS_OK, s).

(** Numbers of entries are compared and nothing is renamed. *)
Definition fat_dir_rename (dir : dir_s) s : outcome (Z * fat) :=
  '(r, s) ← fat_read (d_vol dir) (d_sector dir) s;
  if r =? 0 then Done (FSTATUS_ERROR, s) else
  b ← buffer_of (d_vol dir) s;
  _ ← at8 b (d_rw_offset dir + SFN_ATTR);
  Done (FSTATUS_OK, s).

(** ** Files *)
(** From the end of a path back to the slash before the name. *)
Fixpoint back (path : list Z) (i : nat) (size : Z) : outcome (Z * nat * Z) :=
  c ← known (path !! i);
  if (c =? 47) || (c =? 0) then Done (c, i, size) else
  match i with O => Fault | S i => back path i (u8 (size + 1)) end.

(** [glob_offset] is not set. *)
Definition fat_file_open (file : file_s) (stale : dir_s) (path : list Z) (len : Z) s : outcome (Z * file_s * fat) :=
  '(st, dir, s) ← fat_follow_path stale path s;
  if negb (st =? FSTATUS_OK) then Done (st, file, s) else
  if len <=? 0 then Fault else
  c ← known (path !! Z.to_nat (len - 1));
  if c =? 0 then Done (FSTATUS_PATH_ERR, file, s) else
  if (c =? 47) && (len =? 1) then Fault else
  '(c, i, size) ← back path (Z.to_nat (if c =? 47 then len - 2 else len - 1)) 0;
  if c =? 0 then Done (FSTATUS_PATH_ERR, file, s) else
  '(r, dir, s) ← fat_dir_search dir (drop (S i) path) size s;
  if (r : Z) =? 0 then Done (FSTATUS_PATH_ERR, file, s) else
  Done (FSTATUS_OK, File (d_sector dir) (d_cluster dir) 0 (d_size dir) (d_sector dir) (f_glob_offset file) (d_vol dir), s).

Definition fat_file_close (file : file_s) s : outcome (Z * fat) :=
  '(r, s) ← fat_flush (f_vol file) s;
  Done (if r =? 0 then FSTATUS_ERROR else FSTATUS_OK, s).

(** The sector of the next byte in the buffer. *)
Definition fetch (ss : Z) (file : file_s) s : outcome (Z * file_s * fat) :=
  if f_rw_offset file >=? ss then
    '(_, file, s) ← fat_file_addr_resolve file s;
    '(r, s) ← fat_read (f_vol file) (f_sector file) s;
    Done (r, file, s)
  else Done (1, file, s).

Definition past_byte (file : file_s) : file_s :=
  File (f_sector file) (f_cluster file) (u32 (f_rw_offset file + 1)) (f_size file) (f_start_sect file) (u32 (f_glob_offset file + 1)) (f_vol file).

(** The size is tested after a byte was read. *)
Fixpoint read_bytes (n : nat) (ss size : Z) (file : file_s) s : outcome (Z * list Z * file_s * fat) :=
  match n with
  | O => Done (FSTATUS_OK, [], file, s)
  | S n =>
      '(r, file, s) ← fetch ss file s;
      if (r : Z) =? 0 then Done (FSTATUS_ERROR, [], file, s) else
      b ← buffer_of (f_vol file) s;
      c ← at8 b (f_rw_offset file);
      let file := past_byte file in
      if f_glob_offset file >=? size then Done (FSTATUS_OK, [c], file, s) else
      '(st, l, file, s) ← read_bytes n ss size file s;
      Done (st, c :: l, file, s)
  end.

(** The bytes read; [status] is their number. *)
Definition fat_file_read (file : file_s) (count : Z) s : outcome (Z * list Z * file_s * fat) :=
  v ← vol_at (f_vol file) s;
  '(r, s) ← fat_read (f_vol file) (f_sector file) s;
  if r =? 0 then Done (FSTATUS_ERROR, [], file, s) else
  read_bytes (Z.to_nat count) (v_sector_size v) (f_size file) file s.

Definition fat_file_write (file : file_s) s : Z * fat := (FSTATUS_OK, s).

(** [None] when the chain was followed to its end; otherwise the status to return. *)
Fixpoint follow_chain (n : nat) (p cluster : Z) s : outcome (option Z * Z * fat) :=
  match n with
  | O => Done (None, cluster, s)
  | S n =>
      '(e, s) ← fat_table_get p cluster s;
      match e with
      | None => Done (Some FSTATUS_ERROR, cluster, s)
      | Some e => if is_eoc e then Done (Some FSTATUS_OK, cluster, s) else follow_chain n p e s
      end
  end.

Definition fat_file_jump (file : file_s) (offset : Z) s : outcome (Z * file_s * fat) :=
  v ← vol_at (f_vol file) s;
  c ← fat_sect_to_clust v (f_start_sect file);
  if v_sector_size v =? 0 then Fault else
  let sector_offset := offset / v_sector_size v in
  '(st, c, s) ← follow_chain (Z.to_nat (sector_offset / v_cluster_size v)) (f_vol file) c s;
  match st with
  | Some st => Done (st, File (f_sector file) c (f_rw_offset file) (f_size file) (f_start_sect file) (f_glob_offset file) (f_vol file), s)
  | None =>
      Done (FSTATUS_OK, File (u32 (fat_clust_to_sect v c + sector_offset mod v_cluster_size v)) c (offset mod v_sector_size v)
        (f_size file) (f_start_sect file) offset (f_vol file), s)
  end.

(** ** The interface to the virtual file system *)
Definition MAX_FAT32_PARTITIONS : nat := 32.

(** The letters of the partitions; the index is returned also when mounting failed. *)
Definition f32_compat_register_partition (path : list Z) (lba : Z) (parts : list Z) s : outcome (Z * list Z * fat) :=
  match list_find (λ c, c = 0) parts with
  | None => Done (-1, parts, s)
  | Some (i, _) =>
      '(letter, s) ← register_fat32_partition path lba s;
      Done (Z.of_nat i, <[i := letter]> parts, s)
  end.

Definition f32_compat_unregister_partition (partition : Z) (parts : list Z) s : outcome (Z * list Z * fat) :=
  if (partition <? 0) || (partition >=? Z.of_nat MAX_FAT32_PARTITIONS) then Done (1, parts, s) else
  letter ← known (parts !! Z.to_nat partition);
  if letter =? 0 then Done (1, parts, s) else
  '(_, s) ← unregstr_fat32_partition letter s;
  Done (0, <[Z.to_nat partition := 0]> parts, s).

Definition f32_compat_detect : list Z → Z → fat → outcome Z := fat_search.
Definition f32_compat_flush (partition : Z) : Z := 0.
Definition f32_compat_file_open (partno : Z) (path : list Z) : Z := -1.
End driver.
