(* ===== verification/Fat32Spec.v ===== *)
(** * Files of a FAT32 volume (src/src/vfs/generic/fat32/fat32.c)

    The buffer of a volume is a write-back cache of one sector: a volume with its buffer shows an
    array of sectors, which reading does not change.  On this array a file is the chain of its
    clusters, and seeking and reading give its bytes. *)
From stdpp Require Import gmap.
From S2P Require Import Prelude PageService Alloc CString Fat32.
#[local] Open Scope Z_scope.

(** A disk is an array of sectors of 512 bytes. *)
Class DisksOk (D : Type) `{Disks D} := {
  ds_sector : D → list Z → Z → option (list Z);
  ds_length d n i b : ds_sector d n i = Some b → length b = 512%nat;
  ds_read d n i b : ds_sector d n i = Some b → disk_read n i d = Some b;
  ds_write d n i b : is_Some (ds_sector d n i) → length b = 512%nat →
    ∃ d', disk_write n i b d = (true, d') ∧
      ∀ n' i', ds_sector d' n' i' = if decide (n' = n ∧ i' = i) then Some b else ds_sector d n' i';
}.

Section spec.
Context {A : Type} `{Allocator A} {D : Type} `{DisksOk D} (p : Z).
Implicit Types (s : fat (A := A) (D := D)) (v : volume_s).

(** ** The buffer *)
(** The sector a volume shows: what is in the buffer hides what is on the disk. *)
Definition view s v (i : Z) : option (list Z) :=
  if decide (i = v_buffer_lba v) then Some (v_buffer v) else ds_sector (f_disk s) (v_disk v) i.

Record vol_ok s v : Prop := {
  vo_vol : f_vols s !! p = Some v;
  vo_length : length (v_buffer v) = 512%nat;
  vo_sector : is_Some (ds_sector (f_disk s) (v_disk v) (v_buffer_lba v));
  vo_clean : v_buffer_dirty v = 0 → ds_sector (f_disk s) (v_disk v) (v_buffer_lba v) = Some (v_buffer v);
}.

(** Nothing but the buffer changes, and not what the volume shows. *)
Record agree s v s' v' : Prop := {
  ag_ok : vol_ok s' v';
  ag_vol : ∃ b l d, v' = with_buffer b l d v;
  ag_view i : view s' v' i = view s v i;
}.

Lemma agree_refl s v : vol_ok s v → agree s v s v.
Proof. intros Hv. split; [done| |done]. exists (v_buffer v), (v_buffer_lba v), (v_buffer_dirty v). by destruct v. Qed.
Lemma agree_trans s1 v1 s2 v2 s3 v3 : agree s1 v1 s2 v2 → agree s2 v2 s3 v3 → agree s1 v1 s3 v3.
Proof.
  intros [_ (b1 & l1 & d1 & ->) V1] [O (b & l & d & ->) V2]. split; [done|by exists b, l, d|]. intros i. by rewrite V2, V1.
Qed.

Lemma view_length s v i b : vol_ok s v → view s v i = Some b → length b = 512%nat.
Proof. intros Hv. unfold view. case_decide; [intros [= <-]; apply Hv|apply ds_length]. Qed.

Lemma fat_flush_ok s v : vol_ok s v → ∃ s' v', fat_flush p s = Done (1, s') ∧ agree s v s' v' ∧ v_buffer_dirty v' = 0 ∧ v_buffer_lba v' = v_buffer_lba v.
Proof.
  intros Hv. pose proof Hv as [Hp Hl Hs Hc]. unfold fat_flush, vol_at. rewrite Hp. cbn [known mbind outcome_bind].
  destruct (Z.eqb_spec (v_buffer_dirty v) 0) as [Hz|Hz]; cbn [negb].
  - exists s, v. split_and!; [done|by apply agree_refl|done|done].
  - destruct (ds_write (f_disk s) (v_disk v) (v_buffer_lba v) (v_buffer v) Hs Hl) as (d & Ed & Hd). rewrite Ed. cbv beta iota.
    eexists _, (with_buffer (v_buffer v) (v_buffer_lba v) 0 v). split; [reflexivity|]. split_and!; [|done|done]. split; [|by eexists _, _, _|].
    + split; cbn; [apply lookup_insert_eq|done| |]; rewrite Hd, decide_True by done; [by eexists|done].
    + intros i. unfold view. cbn. case_decide as Hi; [done|]. rewrite Hd, decide_False by tauto. done.
Qed.

Lemma fat_read_ok s v i b :
  vol_ok s v → view s v i = Some b →
  ∃ s' v', fat_read p i s = Done (1, s') ∧ agree s v s' v' ∧ v_buffer_lba v' = i ∧ v_buffer v' = b.
Proof.
  intros Hv Hi. pose proof Hv as [Hp Hl _ _]. unfold fat_read, vol_at. rewrite Hp. cbn [known mbind outcome_bind].
  destruct (Z.eqb_spec (v_buffer_lba v) i) as [He|He]; cbn [negb].
  - exists s, v. split_and!; [done|by apply agree_refl|done|]. unfold view in Hi. rewrite decide_True in Hi by done. congruence.
  - destruct (fat_flush_ok s v Hv) as (s1 & v1 & E1 & A1 & Hd1 & Hb1). rewrite E1. cbn [mbind outcome_bind Z.eqb].
    pose proof (ag_ok _ _ _ _ A1) as [Hp1 Hl1 Hs1 Hc1]. rewrite Hp1. cbn [known mbind outcome_bind].
    assert (Hi1 : ds_sector (f_disk s1) (v_disk v1) i = Some b).
    { rewrite <- (ag_view _ _ _ _ A1) in Hi. unfold view in Hi. rewrite decide_False in Hi by congruence. done. }
    rewrite (ds_read _ _ _ _ Hi1), (proj2 (Nat.eqb_eq _ _) (ds_length _ _ _ _ Hi1)).
    eexists _, (with_buffer b i (v_buffer_dirty v1) v1). split; [reflexivity|]. split_and!; [|done|done]. eapply agree_trans; [exact A1|]. split; [|by eexists _, _, _|].
    + split; cbn; [apply lookup_insert_eq|by eapply ds_length|by eexists|done].
    + intros j. unfold view. cbn. case_decide as Hj; [subst; by rewrite decide_False by congruence|].
      case_decide as Hj2; [|done]. subst j. rewrite Hc1 by done. done.
Qed.

(** ** The table *)
(** The entry of a cluster. *)
Definition entry_at s v (c : Z) : option Z :=
  b ← view s v (v_fat_lba v + c / 128);
  Some (le_value (take 4 (drop (Z.to_nat (c mod 128 * 4)) b))).

Lemma at32_ok b i : length b = 512%nat → 0 ≤ i → i + 4 ≤ 512 → at32 b i = Done (le_value (take 4 (drop (Z.to_nat i) b))).
Proof.
  intros Hl Hi Hb. unfold at32, piece_of. change (Z.to_nat 4) with 4%nat.
  by rewrite (proj2 (Nat.leb_le _ _)) by lia.
Qed.

Lemma fat_table_get_ok s v c e :
  vol_ok s v → entry_at s v c = Some e → 0 ≤ c → 0 ≤ v_fat_lba v → v_fat_lba v + c / 128 < 2 ^ 32 →
  ∃ s' v', fat_table_get p c s = Done (Some e, s') ∧ agree s v s' v'.
Proof.
  intros Hv He Hc Hf Hw. unfold entry_at in He. destruct (view s v (v_fat_lba v + c / 128)) as [b|] eqn:Eb; [|done]. injection He as <-.
  assert (0 ≤ c / 128) by (apply Z.div_pos; lia). pose proof (Z.mod_pos_bound c 128 ltac:(lia)).
  unfold fat_table_get, vol_at. rewrite (vo_vol _ _ Hv). cbn [known mbind outcome_bind]. rewrite u32_small by lia.
  destruct (fat_read_ok s v _ b Hv Eb) as (s1 & v1 & E1 & A1 & _ & Hb1). rewrite E1. cbn [mbind outcome_bind Z.eqb].
  unfold buffer_of, vol_at. rewrite (vo_vol _ _ (ag_ok _ _ _ _ A1)). cbn [known mbind outcome_bind].
  rewrite at32_ok by ((rewrite Hb1; by eapply view_length) || lia). exists s1, v1. split; [|done]. cbn [mbind outcome_bind]. by rewrite Hb1.
Qed.

(** ** Chains *)
Definition first_sector v (c : Z) : Z := v_data_lba v + (c - 2) * v_cluster_size v.

(** The clusters of a file: each entry but that of the last is the next one, and all their sectors
    are there. *)
Record chained s v (cs : list Z) : Prop := {
  ch_linked k c c' : cs !! k = Some c → cs !! S k = Some c' → entry_at s v c = Some c' ∧ is_eoc c' = false;
  ch_range c : c ∈ cs → 2 ≤ c < 2 ^ 28 ∧ first_sector v c + v_cluster_size v < 2 ^ 32 ∧ v_fat_lba v + c / 128 < 2 ^ 32;
  ch_sectors c j : c ∈ cs → 0 ≤ j < v_cluster_size v → is_Some (view s v (first_sector v c + j));
}.

Record geometry_ok v : Prop := {
  go_sector : v_sector_size v = 512;
  go_cluster : 0 < v_cluster_size v < 256;
  go_data : 0 ≤ v_data_lba v;
  go_fat : 0 ≤ v_fat_lba v;
}.

Lemma agree_chained s v s' v' cs : agree s v s' v' → chained s v cs → chained s' v' cs.
Proof.
  intros [_ (b & l & d & ->) V] [L R S]. split; [|done|].
  - intros k c c' Hc Hc'. destruct (L k c c' Hc Hc') as [E ?]. split; [|done]. unfold entry_at in *. cbn [v_fat_lba with_buffer] in *. by rewrite V.
  - intros c j Hc Hj. unfold first_sector in *. cbn [v_data_lba v_cluster_size with_buffer] in *. rewrite V. by apply S.
Qed.
Lemma agree_geometry s v s' v' : agree s v s' v' → geometry_ok v → geometry_ok v'.
Proof. intros [_ (b & l & d & ->) _] [? ? ? ?]. by split. Qed.

(** The byte at an offset of the file. *)
Definition file_byte s v (cs : list Z) (o : Z) : option Z :=
  c ← cs !! Z.to_nat (o / 512 / v_cluster_size v);
  b ← view s v (first_sector v c + o / 512 mod v_cluster_size v);
  b !! Z.to_nat (o mod 512).

Lemma agree_byte s v s' v' cs o : agree s v s' v' → file_byte s' v' cs o = file_byte s v cs o.
Proof.
  intros [_ (b & l & d & ->) V]. unfold file_byte, first_sector. cbn [v_data_lba v_cluster_size with_buffer].
  destruct (cs !! _); [|done]. cbn. by rewrite V.
Qed.

Lemma clust_to_sect_ok s v cs c : geometry_ok v → chained s v cs → c ∈ cs → fat_clust_to_sect v c = first_sector v c.
Proof.
  intros [_ Hc Hd _] [_ R _] Hin. destruct (R c Hin) as (H2 & Hw & _). unfold fat_clust_to_sect. unfold first_sector in *.
  assert (0 ≤ (c - 2) * v_cluster_size v) by nia. assert (c - 2 ≤ (c - 2) * v_cluster_size v) by nia.
  rewrite (u32_small (c - 2)) by lia. rewrite u32_small by lia. lia.
Qed.

Lemma sect_to_clust_ok s v cs c : geometry_ok v → chained s v cs → c ∈ cs → fat_sect_to_clust v (first_sector v c) = Done c.
Proof.
  intros [_ Hc Hd _] [_ R _] Hin. destruct (R c Hin) as (H2 & Hw & _). unfold fat_sect_to_clust. rewrite (proj2 (Z.eqb_neq _ _)) by lia.
  unfold first_sector in *. assert (0 ≤ (c - 2) * v_cluster_size v) by nia. assert (c - 2 ≤ (c - 2) * v_cluster_size v) by nia.
  replace (v_data_lba v + (c - 2) * v_cluster_size v - v_data_lba v) with ((c - 2) * v_cluster_size v) by lia.
  rewrite (u32_small ((c - 2) * _)) by lia. rewrite Z.div_mul by lia. rewrite u32_small by lia. f_equal. lia.
Qed.

(** ** Seeking *)
Lemma follow_chain_ok s v cs n k c c' :
  vol_ok s v → geometry_ok v → chained s v cs → cs !! k = Some c → cs !! (k + n)%nat = Some c' →
  ∃ s' v', follow_chain n p c s = Done (None, c', s') ∧ agree s v s' v'.
Proof.
  revert s v k c. induction n as [|n IH]; intros s v k c Hv Hg Hch Hk Hn; cbn [follow_chain].
  - rewrite Nat.add_0_r, Hk in Hn. injection Hn as <-. exists s, v. split; [done|by apply agree_refl].
  - assert (is_Some (cs !! S k)) as [c1 Hc1] by (apply lookup_lt_is_Some; apply lookup_lt_Some in Hn; lia).
    destruct (ch_linked _ _ _ Hch k c c1 Hk Hc1) as [He Hne]. destruct (ch_range _ _ _ Hch c) as (? & ? & ?); [by eapply list_elem_of_lookup_2|].
    destruct (fat_table_get_ok s v c c1 Hv He) as (s1 & v1 & E1 & A1); [lia|apply Hg|lia|]. rewrite E1. cbn [mbind outcome_bind]. rewrite Hne.
    destruct (IH s1 v1 (S k) c1) as (s2 & v2 & E2 & A2); [apply A1|by eapply agree_geometry|by eapply agree_chained|done|by rewrite Nat.add_succ_comm|].
    exists s2, v2. split; [done|by eapply agree_trans].
Qed.

(** The file is at offset [o]; behind the last byte of a sector its address is not yet that of the
    next one. *)
Definition at_pos v (cs : list Z) (o : Z) (file : file_s) : Prop :=
  ∃ q r c, o = 512 * q + r ∧ 0 ≤ q ∧ 0 ≤ r ≤ 512 ∧ cs !! Z.to_nat (q / v_cluster_size v) = Some c ∧
    f_cluster file = c ∧ f_sector file = first_sector v c + q mod v_cluster_size v ∧
    f_rw_offset file = r ∧ f_glob_offset file = o ∧ f_vol file = p.

Lemma agree_pos s v s' v' cs o file : agree s v s' v' → at_pos v cs o file → at_pos v' cs o file.
Proof. by intros [_ (b & l & d & ->) _]. Qed.

Lemma cluster_index v (cs : list Z) q :
  geometry_ok v → 0 ≤ q < v_cluster_size v * Z.of_nat (length cs) → is_Some (cs !! Z.to_nat (q / v_cluster_size v)).
Proof.
  intros [_ Hc _ _] Hq. apply lookup_lt_is_Some. assert (q / v_cluster_size v < Z.of_nat (length cs)) by (apply Z.div_lt_upper_bound; lia).
  assert (0 ≤ q / v_cluster_size v) by (apply Z.div_pos; lia). lia.
Qed.

Lemma fat_file_jump_ok s v cs c0 o file :
  vol_ok s v → geometry_ok v → chained s v cs → cs !! 0%nat = Some c0 → f_vol file = p → f_start_sect file = first_sector v c0 →
  0 ≤ o < 512 * (v_cluster_size v * Z.of_nat (length cs)) →
  ∃ s' v' file', fat_file_jump file o s = Done (FSTATUS_OK, file', s') ∧ agree s v s' v' ∧ at_pos v cs o file' ∧ f_size file' = f_size file.
Proof.
  intros Hv Hg Hch H0' Hp Hst Ho. pose proof Hg as [Hss Hcs _ _]. unfold fat_file_jump, vol_at. rewrite Hp, (vo_vol _ _ Hv). cbn [known mbind outcome_bind].
  rewrite Hst, (sect_to_clust_ok s v cs c0 Hg Hch) by (by eapply list_elem_of_lookup_2). cbn [mbind outcome_bind]. rewrite Hss. cbn [Z.eqb].
  pose proof (Z.div_mod o 512 ltac:(lia)). pose proof (Z.mod_pos_bound o 512 ltac:(lia)). set (q := o / 512) in *.
  destruct (cluster_index v cs q Hg) as [c Hc]; [lia|].
  destruct (follow_chain_ok s v cs (Z.to_nat (q / v_cluster_size v)) 0 c0 c Hv Hg Hch H0' Hc) as (s1 & v1 & E1 & A1). rewrite E1. cbn [mbind outcome_bind].
  eexists s1, v1, _. split; [reflexivity|]. split_and!; [done| |done]. exists q, (o mod 512), c. split_and!; try done; try lia.
  cbn [f_sector]. assert (Hin : c ∈ cs) by (by eapply list_elem_of_lookup_2). rewrite (clust_to_sect_ok s v cs c Hg Hch Hin).
  destruct (ch_range _ _ _ Hch c Hin) as (? & ? & _). pose proof (Z.mod_pos_bound q (v_cluster_size v) ltac:(lia)).
  pose proof (go_data _ Hg). unfold first_sector in *. apply u32_small. nia.
Qed.

(** ** Reading *)
Lemma next_index q n : 0 < n → 0 ≤ q →
  (q mod n + 1 < n ∧ (q + 1) / n = q / n ∧ (q + 1) mod n = q mod n + 1) ∨ (q mod n + 1 = n ∧ (q + 1) / n = q / n + 1 ∧ (q + 1) mod n = 0).
Proof.
  intros Hn Hq. pose proof (Z.div_mod q n ltac:(lia)). pose proof (Z.mod_pos_bound q n ltac:(lia)).
  destruct (decide (q mod n + 1 < n)) as [Hl|Hl]; [left|right].
  - split; [done|]. rewrite <- (Z.div_unique (q + 1) n (q / n) (q mod n + 1)), <- (Z.mod_unique (q + 1) n (q / n) (q mod n + 1)) by lia. done.
  - split; [lia|]. rewrite <- (Z.div_unique (q + 1) n (q / n + 1) 0), <- (Z.mod_unique (q + 1) n (q / n + 1) 0) by lia. done.
Qed.

Lemma next_sector_ok s v cs q c :
  vol_ok s v → geometry_ok v → chained s v cs → 0 ≤ q → q + 1 < v_cluster_size v * Z.of_nat (length cs) → cs !! Z.to_nat (q / v_cluster_size v) = Some c →
  ∃ s' v' c', next_sector p (first_sector v c + q mod v_cluster_size v) c s = Done (1, (first_sector v c' + (q + 1) mod v_cluster_size v, c'), s') ∧
    agree s v s' v' ∧ cs !! Z.to_nat ((q + 1) / v_cluster_size v) = Some c'.
Proof.
  intros Hv Hg Hch Hq Hq1 Hc. pose proof Hg as [_ Hcs Hd Hf]. assert (Hin : c ∈ cs) by (by eapply list_elem_of_lookup_2).
  destruct (ch_range _ _ _ Hch c Hin) as (Hc2 & Hw & Hfw). pose proof (Z.mod_pos_bound q (v_cluster_size v) ltac:(lia)).
  assert (Hf0 : 0 ≤ first_sector v c) by (unfold first_sector; nia).
  unfold next_sector, vol_at. rewrite (vo_vol _ _ Hv). cbn [known mbind outcome_bind]. rewrite (clust_to_sect_ok s v cs c Hg Hch Hin), !u32_small by lia.
  destruct (next_index q (v_cluster_size v) ltac:(lia) Hq) as [(Hm & Ed & Em)|(Hm & Ed & Em)]; rewrite Em, Ed.
  - rewrite Z.geb_leb, (proj2 (Z.leb_gt _ _)) by lia. exists s, v, c. split_and!; [|by apply agree_refl|done]. by rewrite Z.add_assoc.
  - rewrite Z.geb_leb, (proj2 (Z.leb_le _ _)) by lia. destruct (cluster_index v cs (q + 1) Hg) as [c' Hc']; [lia|]. rewrite Ed in Hc'.
    assert (0 ≤ q / v_cluster_size v) by (apply Z.div_pos; lia). rewrite Z2Nat.inj_add, Nat.add_comm in Hc' by lia.
    destruct (ch_linked _ _ _ Hch _ c c' Hc Hc') as [He Hne].
    destruct (fat_table_get_ok s v c c' Hv He) as (s1 & v1 & E1 & A1); [lia|done|lia|]. rewrite E1. cbn [mbind outcome_bind]. rewrite Hne.
    rewrite (clust_to_sect_ok s v cs c' Hg Hch) by (by eapply list_elem_of_lookup_2). exists s1, v1, c'. split_and!; [|done|].
    + by rewrite Z.add_0_r.
    + rewrite Z2Nat.inj_add, Nat.add_comm by lia. done.
Qed.

(** The sector of the file is in the buffer. *)
Definition loaded_sector v (file : file_s) : Prop := v_buffer_lba v = f_sector file.

Lemma pos_sector s v cs q c :
  geometry_ok v → chained s v cs → 0 ≤ q → cs !! Z.to_nat (q / v_cluster_size v) = Some c → is_Some (view s v (first_sector v c + q mod v_cluster_size v)).
Proof.
  intros Hg Hch Hq Hc. apply (ch_sectors _ _ _ Hch); [by eapply list_elem_of_lookup_2|]. apply Z.mod_pos_bound. apply Hg.
Qed.

(** The next byte is in the buffer. *)
Lemma fetch_ok s v cs o file :
  vol_ok s v → geometry_ok v → chained s v cs → at_pos v cs o file → loaded_sector v file → 0 ≤ o < 512 * (v_cluster_size v * Z.of_nat (length cs)) →
  ∃ s' v' file', fetch 512 file s = Done (1, file', s') ∧ agree s v s' v' ∧ f_size file' = f_size file ∧ at_pos v cs o file' ∧
    loaded_sector v' file' ∧ f_rw_offset file' = o mod 512 ∧ v_buffer v' !! Z.to_nat (o mod 512) = file_byte s v cs o.
Proof.
  intros Hv Hg Hch (q & r & c & Ho & Hq & Hr & Hc & Ec & Es & Er & Eg & Ep) Hl Hb. unfold fetch. rewrite Er.
  destruct (decide (r = 512)) as [->|Hr512].
  - change (512 >=? 512) with true. cbv iota. unfold fat_file_addr_resolve, vol_at. rewrite Ep, (vo_vol _ _ Hv). cbn [known mbind outcome_bind].
    rewrite (go_sector _ Hg), Er. change (512 >=? 512) with true. cbv iota. rewrite Es, Ec.
    destruct (next_sector_ok s v cs q c Hv Hg Hch Hq) as (s1 & v1 & c' & E1 & A1 & Hc'); [lia|done|]. rewrite E1. cbn [mbind outcome_bind f_vol f_sector].
    destruct (pos_sector s v cs (q + 1) c' Hg Hch ltac:(lia) Hc') as [b Hbv]. rewrite <- (ag_view _ _ _ _ A1) in Hbv.
    destruct (fat_read_ok s1 v1 _ b (ag_ok _ _ _ _ A1) Hbv) as (s2 & v2 & E2 & A2 & Hlba & Hbuf). rewrite E2. cbn [mbind outcome_bind].
    assert (Hmod : o mod 512 = 0) by (rewrite Ho; replace (512 * q + 512) with ((q + 1) * 512) by lia; apply Z.mod_mul; lia).
    assert (Hdiv : o / 512 = q + 1) by (rewrite Ho; replace (512 * q + 512) with ((q + 1) * 512) by lia; apply Z.div_mul; lia).
    eexists s2, v2, _. split; [reflexivity|]. split_and!; [by eapply agree_trans|done| |done|by rewrite Hmod|].
    + exists (q + 1), 0, c'. split_and!; try done; try lia.
    + unfold file_byte. rewrite Hdiv, Hc'. cbn. rewrite <- (ag_view _ _ _ _ A1), Hbv. cbn. by rewrite Hbuf.
  - rewrite Z.geb_leb, (proj2 (Z.leb_gt _ _)) by lia.
    assert (Hmod : o mod 512 = r) by (symmetry; apply (Z.mod_unique o 512 q r); lia).
    assert (Hdiv : o / 512 = q) by (symmetry; apply (Z.div_unique o 512 q r); lia).
    exists s, v, file. split_and!; [done|by apply agree_refl|done| |done|congruence|].
    + exists q, r, c. done.
    + unfold file_byte. rewrite Hdiv, Hc. cbn. rewrite <- Es. unfold view. by rewrite decide_True.
Qed.

Lemma file_byte_some s v cs o :
  vol_ok s v → geometry_ok v → chained s v cs → 0 ≤ o < 512 * (v_cluster_size v * Z.of_nat (length cs)) → is_Some (file_byte s v cs o).
Proof.
  intros Hv Hg Hch Ho. pose proof (Z.div_mod o 512 ltac:(lia)). pose proof (Z.mod_pos_bound o 512 ltac:(lia)).
  destruct (cluster_index v cs (o / 512) Hg) as [c Hc]; [lia|]. destruct (pos_sector s v cs (o / 512) c Hg Hch ltac:(lia) Hc) as [b Hb].
  unfold file_byte. rewrite Hc. cbn. rewrite Hb. cbn. apply lookup_lt_is_Some. rewrite (view_length s v _ b Hv Hb). lia.
Qed.

Lemma at_pos_next v cs o file : geometry_ok v → at_pos v cs o file → f_rw_offset file = o mod 512 → 0 ≤ o < 2 ^ 32 - 1 → at_pos v cs (o + 1) (past_byte file).
Proof.
  intros Hg (q & r & c & Ho & Hq & Hr & Hc & Ec & Es & Er & Eg & Ep) Hrw Hw. pose proof (Z.mod_pos_bound o 512 ltac:(lia)).
  exists q, (r + 1), c. unfold past_byte. cbn [f_cluster f_sector f_rw_offset f_glob_offset f_vol]. rewrite Eg, !u32_small by lia. split_and!; try done; lia.
Qed.

Lemma fat_read_bytes_ok n s v cs o file :
  vol_ok s v → geometry_ok v → chained s v cs → at_pos v cs o file → loaded_sector v file → 0 ≤ o < f_size file → f_size file < 2 ^ 32 →
  f_size file ≤ 512 * (v_cluster_size v * Z.of_nat (length cs)) →
  ∃ l s' v' file', read_bytes n 512 (f_size file) file s = Done (FSTATUS_OK, l, file', s') ∧ agree s v s' v' ∧
    f_size file' = f_size file ∧ at_pos v cs (o + Z.of_nat (length l)) file' ∧ loaded_sector v' file' ∧
    length l = Nat.min n (Z.to_nat (f_size file - o)) ∧ ∀ i, (i < length l)%nat → l !! i = file_byte s v cs (o + Z.of_nat i).
Proof.
  revert s v o file. induction n as [|n IH]; intros s v o file Hv Hg Hch Hpos Hl Ho Hw Hsz; cbn [read_bytes].
  - exists [], s, v, file. cbn [length]. rewrite Z.add_0_r. split_and!; try done; [by apply agree_refl|intros i Hi; cbn in Hi; lia].
  - destruct (fetch_ok s v cs o file Hv Hg Hch Hpos Hl) as (s1 & v1 & f1 & E1 & A1 & Hs1 & Hpos1 & Hl1 & Hrw & Hb); [lia|].
    rewrite E1. cbn [mbind outcome_bind Z.eqb]. destruct (file_byte_some s v cs o Hv Hg Hch) as [x Hx]; [lia|].
    assert (Hp1 : f_vol f1 = p) by (by destruct Hpos1 as (? & ? & ? & _ & _ & _ & _ & _ & _ & _ & _ & ?)).
    assert (Hg1 : f_glob_offset f1 = o) by (by destruct Hpos1 as (? & ? & ? & _ & _ & _ & _ & _ & _ & _ & ? & _)).
    unfold buffer_of, vol_at. rewrite Hp1, (vo_vol _ _ (ag_ok _ _ _ _ A1)). cbn [known mbind outcome_bind]. unfold at8. rewrite Hrw, Hb, Hx. cbn [known mbind outcome_bind].
    pose proof (at_pos_next v cs o f1 Hg Hpos1 Hrw ltac:(lia)) as Hpos2. unfold past_byte at 1. cbn [f_glob_offset]. rewrite Hg1, u32_small, Z.geb_leb by lia.
    destruct (Z.leb_spec (f_size file) (o + 1)) as [He|He].
    + exists [x], s1, v1, (past_byte f1). cbn [length]. split_and!; try done; [lia|]. intros [|i] Hi; cbn in Hi; [|lia]. cbn. by rewrite Z.add_0_r, Hx.
    + destruct (IH s1 v1 (o + 1) (past_byte f1)) as (l & s2 & v2 & f2 & E2 & A2 & Hs2 & Hpos3 & Hl2 & Hlen & Hl');
        [apply A1|by eapply agree_geometry|by eapply agree_chained|by eapply agree_pos|done|cbn; lia|cbn; lia|..].
      { destruct (ag_vol _ _ _ _ A1) as (? & ? & ? & ->). cbn. lia. }
      cbn [f_size past_byte] in E2, Hs2, Hlen. rewrite Hs1 in E2, Hs2, Hlen. rewrite E2. cbn [mbind outcome_bind].
      exists (x :: l), s2, v2, f2. cbn [length]. split_and!; [done|by eapply agree_trans|done| |done|lia|].
      * replace (o + Z.of_nat (S (length l))) with (o + 1 + Z.of_nat (length l)) by lia. destruct (ag_vol _ _ _ _ A1) as (? & ? & ? & ->). exact Hpos3.
      * intros [|i] Hi; [cbn; by rewrite Z.add_0_r, Hx|]. cbn. rewrite Hl' by lia. rewrite (agree_byte _ _ _ _ _ _ A1). f_equal. lia.
Qed.

Lemma fat_file_read_ok s v cs o count file :
  vol_ok s v → geometry_ok v → chained s v cs → at_pos v cs o file → 0 ≤ o < f_size file → f_size file < 2 ^ 32 →
  f_size file ≤ 512 * (v_cluster_size v * Z.of_nat (length cs)) →
  ∃ l s' v' file', fat_file_read file count s = Done (FSTATUS_OK, l, file', s') ∧ agree s v s' v' ∧
    f_size file' = f_size file ∧ at_pos v cs (o + Z.of_nat (length l)) file' ∧
    length l = Nat.min (Z.to_nat count) (Z.to_nat (f_size file - o)) ∧ ∀ i, (i < length l)%nat → l !! i = file_byte s v cs (o + Z.of_nat i).
Proof.
  intros Hv Hg Hch Hpos Ho Hw Hsz. pose proof Hpos as (q & r & c & _ & Hq & _ & Hc & _ & Es & _ & _ & Ep).
  destruct (pos_sector s v cs q c Hg Hch Hq Hc) as [b Hb]. rewrite <- Es in Hb.
  unfold fat_file_read, vol_at. rewrite Ep, (vo_vol _ _ Hv). cbn [known mbind outcome_bind].
  destruct (fat_read_ok s v _ b Hv Hb) as (s1 & v1 & E1 & A1 & Hl & _). rewrite E1. cbn [mbind outcome_bind Z.eqb]. rewrite (go_sector _ Hg).
  assert (Ecs : v_cluster_size v1 = v_cluster_size v) by (by destruct (ag_vol _ _ _ _ A1) as (? & ? & ? & ->)).
  destruct (fat_read_bytes_ok (Z.to_nat count) s1 v1 cs o file) as (l & s2 & v2 & f2 & E2 & A2 & Hs & Hp2 & _ & Hlen & Hbytes);
    [apply A1|by eapply agree_geometry|by eapply agree_chained|by eapply agree_pos|done|done|done|by rewrite Ecs|].
  exists l, s2, v2, f2. split_and!; [done|by eapply agree_trans|done| |done|].
  - destruct (ag_vol _ _ _ _ A1) as (? & ? & ? & ->). exact Hp2.
  - intros i Hi. rewrite Hbytes by done. by eapply agree_byte.
Qed.

(** C24: Seeking in a file and reading give the bytes of its clusters.  On a volume whose buffer
    may hold a sector not yet written back, for a file whose size fits the chain of its clusters
    and an offset below the size, [fat_file_jump] and then [fat_file_read] return as many bytes as
    were asked for and are left in the file, each the byte at its offset; the file is then behind
    them, so a second read gives the bytes that follow.  The sectors the volume shows are the same
    throughout. *)
Theorem fat_file_contents s v cs c0 o count count2 file :
  vol_ok s v → geometry_ok v → chained s v cs → cs !! 0%nat = Some c0 → f_vol file = p → f_start_sect file = first_sector v c0 →
  f_size file < 2 ^ 32 → f_size file ≤ 512 * (v_cluster_size v * Z.of_nat (length cs)) → 0 ≤ o < f_size file →
  ∃ s1 f1 l s2 v2 f2,
    fat_file_jump file o s = Done (FSTATUS_OK, f1, s1) ∧ fat_file_read f1 count s1 = Done (FSTATUS_OK, l, f2, s2) ∧ agree s v s2 v2 ∧
    length l = Nat.min (Z.to_nat count) (Z.to_nat (f_size file - o)) ∧ (∀ i, (i < length l)%nat → l !! i = file_byte s v cs (o + Z.of_nat i)) ∧
    (o + Z.of_nat (length l) < f_size file → ∃ l2 s3 v3 f3,
      fat_file_read f2 count2 s2 = Done (FSTATUS_OK, l2, f3, s3) ∧ agree s v s3 v3 ∧
      length l2 = Nat.min (Z.to_nat count2) (Z.to_nat (f_size file - (o + Z.of_nat (length l)))) ∧
      ∀ i, (i < length l2)%nat → l2 !! i = file_byte s v cs (o + Z.of_nat (length l + i))).
Proof.
  intros Hv Hg Hch H0' Hp Hst Hw Hsz Ho.
  destruct (fat_file_jump_ok s v cs c0 o file Hv Hg Hch H0' Hp Hst) as (s1 & v1 & f1 & E1 & A1 & Hpos1 & Hs1); [lia|].
  assert (Ec1 : v_cluster_size v1 = v_cluster_size v) by (by destruct (ag_vol _ _ _ _ A1) as (? & ? & ? & ->)).
  destruct (fat_file_read_ok s1 v1 cs o count f1) as (l & s2 & v2 & f2 & E2 & A2 & Hs2 & Hpos2 & Hlen & Hl);
    [apply A1|by eapply agree_geometry|by eapply agree_chained|by eapply agree_pos|lia|lia|by rewrite Ec1, Hs1|].
  rewrite Hs1 in Hs2, Hlen. assert (A12 := agree_trans _ _ _ _ _ _ A1 A2). exists s1, f1, l, s2, v2, f2. split_and!; try done.
  { intros i Hi. rewrite Hl by done. by eapply agree_byte. }
  intros Hmore. assert (Ec2 : v_cluster_size v2 = v_cluster_size v) by (by destruct (ag_vol _ _ _ _ A12) as (? & ? & ? & ->)).
  destruct (fat_file_read_ok s2 v2 cs (o + Z.of_nat (length l)) count2 f2) as (l2 & s3 & v3 & f3 & E3 & A3 & _ & _ & Hlen3 & Hl3);
    [apply A12|by eapply agree_geometry|by eapply agree_chained|by eapply (agree_pos s1 v1)|lia|lia|by rewrite Ec2, Hs2|].
  exists l2, s3, v3, f3. rewrite Hs2 in Hlen3. split_and!; [done|by eapply agree_trans|done|].
  intros i Hi. rewrite Hl3 by done. rewrite (agree_byte _ _ _ _ _ _ A12). f_equal. lia.
Qed.
End spec.

(** ** A small volume *)
(** Disks in memory. *)
Definition ram_write (n : list Z) (i : Z) (b : list Z) (d : (gmap (list Z * Z) (list Z))) : bool * (gmap (list Z * Z) (list Z)) :=
  match d !! (n, i) with Some _ => (true, <[(n, i) := b]> d) | None => (false, d) end.
#[local] Instance ram_disks : Disks (gmap (list Z * Z) (list Z)) := {| disk_read n i d := d !! (n, i); disk_write := ram_write |}.

(** The sectors that have their size. *)
Definition ram_sector (d : (gmap (list Z * Z) (list Z))) (n : list Z) (i : Z) : option (list Z) :=
  b ← d !! (n, i); if decide (length b = 512%nat) then Some b else None.

#[local] Instance ram_disks_ok : DisksOk (gmap (list Z * Z) (list Z)).
Proof.
  refine {| ds_sector := ram_sector |}; unfold ram_sector.
  - intros d n i b. destruct (d !! (n, i)); cbn; [|done]. case_decide; [|done]. by intros [= <-].
  - intros d n i b. cbn. destruct (d !! (n, i)); cbn; [|done]. case_decide; [|done]. by intros [= <-].
  - intros d n i b Hs Hb. cbn. unfold ram_write. destruct (d !! (n, i)) as [x|] eqn:Ex; [|by destruct Hs]. eexists. split; [reflexivity|].
    intros n' i'. case_decide as Hd.
    + destruct Hd as [-> ->]. rewrite lookup_insert_eq. cbn. by rewrite decide_True.
    + rewrite lookup_insert_ne; [done|]. intros [= -> ->]. by destruct Hd.
Defined.

(** A table in sector 1 that links cluster 2 to cluster 5, which lie in the sectors 8 and 11. *)
Definition small_table : list Z := (replicate 8 0 ++ le32 5 ++ replicate 8 0 ++ le32 0xFFFFFFF ++ replicate 488 0)%list.
Definition small_disk : (gmap (list Z * Z) (list Z)) :=
  {[ ([104], 1) := small_table; ([104], 8) := replicate 512 7; ([104], 11) := replicate 512 9; ([104], 0) := replicate 512 0 ]}.
Definition small_volume : volume_s :=
  Volume 0 [] 67 512 1 64 1 0 8 8 (replicate 512 0) 0 [104] 0.
#[local] Instance no_allocator : Allocator unit := {| al_malloc _ _ := Fault; al_free _ _ := Fault |}.
Definition small_fat : fat (A := unit) (D := (gmap (list Z * Z) (list Z))) := Fat {[0x500 := small_volume]} 0x500 1 tt small_disk.

Lemma small_chained : chained small_fat small_volume [2; 5].
Proof.
  split.
  - intros [|[|k]] c c' Hc Hc'; cbn in *; try done. injection Hc as <-. injection Hc' as <-. by vm_compute.
  - intros c [->|[->|[]%not_elem_of_nil]%elem_of_cons]%elem_of_cons; by vm_compute.
  - intros c j Hc Hj. assert (j = 0) as -> by (cbn in Hj; lia).
    apply elem_of_cons in Hc as [->|[->|[]%not_elem_of_nil]%elem_of_cons]; vm_compute; by eexists.
Qed.

Lemma fat_file_contents_witness :
  ∃ s1 f1 s2 f2, fat_file_jump (File 0 0 0 700 8 0 0x500) 510 small_fat = Done (FSTATUS_OK, f1, s1) ∧
    fat_file_read f1 4 s1 = Done (FSTATUS_OK, [7; 7; 9; 9], f2, s2).
Proof.
  destruct (fat_file_contents 0x500 small_fat small_volume [2; 5] 2 510 4 4 (File 0 0 0 700 8 0 0x500)) as (s1 & f1 & l & s2 & v2 & f2 & E1 & E2 & _ & Hlen & Hl & _).
  - split; [done|done|by eexists|by intros _].
  - split; [done|cbn; lia|cbn; lia|cbn; lia].
  - apply small_chained.
  - done.
  - done.
  - done.
  - cbn; lia.
  - cbn; lia.
  - cbn; lia.
  - exists s1, f1, s2, f2. split; [exact E1|]. rewrite E2. change (Nat.min _ _) with 4%nat in Hlen.
    destruct l as [|a [|b [|c [|d [|e l]]]]]; try discriminate Hlen.
    pose proof (Hl 0%nat ltac:(cbn; lia)) as H0. pose proof (Hl 1%nat ltac:(cbn; lia)) as H1. pose proof (Hl 2%nat ltac:(cbn; lia)) as H2. pose proof (Hl 3%nat ltac:(cbn; lia)) as H3.
    vm_compute in H0, H1, H2, H3. by injection H0 as ->; injection H1 as ->; injection H2 as ->; injection H3 as ->.
Defined.

(** An entry whose low seven bits are zero is taken for a free one: here cluster 2, which is linked
    to cluster 128. *)
Definition full_table : list Z := (le32 0xFFFFFFF ++ le32 0xFFFFFFF ++ le32 128 ++ replicate 500 0)%list.
Definition full_fat : fat (A := unit) (D := gmap (list Z * Z) (list Z)) :=
  Fat {[0x500 := small_volume]} 0x500 1 tt {[ ([104], 1) := full_table; ([104], 0) := replicate 512 0 ]}.

Lemma fat_get_cluster_takes_used :
  entry_at full_fat small_volume 2 = Some 128 ∧ ∃ s', fat_get_cluster 8 0x500 full_fat = Done (Some 2, s').
Proof. split; [by vm_compute|]. eexists. vm_compute. reflexivity. Qed.
