(* ===== verification/Context.v ===== *)
(** * Context switching (src/src/arch/context.asm, src/src/cpus/cpus.h)

    The routine that stores the registers of one task in its context and loads those of
    another, instruction by instruction.  A context is the structure [cpu_context] as its 24
    words; the stacks are words at addresses.  The logical instructions clear or set the
    status flags; the adjust flag, which they leave undefined, is taken to be cleared. *)
From stdpp Require Import gmap.
From S2P Require Import Prelude.
#[local] Open Scope Z_scope.

Inductive reg := RAX | RBX | RCX | RDX | RSI | RDI | RBP | R8 | R9 | R10 | R11 | R12 | R13 | R14 | R15 | RSP.

(** The place of a register in the register file. *)
Definition idx (r : reg) : nat :=
  match r with
  | RAX => 0 | RBX => 1 | RCX => 2 | RDX => 3 | RSI => 4 | RDI => 5 | RBP => 6 | R8 => 7 | R9 => 8 | R10 => 9
  | R11 => 10 | R12 => 11 | R13 => 12 | R14 => 13 | R15 => 14 | RSP => 15
  end.

Record machine := Machine {
  regfile : list Z; rip : Z; rflags : Z; mcr3 : Z; seg_cs : Z; seg_ss : Z; fpu : Z;
  contexts : gmap Z (list Z);      (** the words of each [cpu_context] *)
  stack : gmap Z Z;                (** the words of the stacks *)
  fxareas : gmap Z Z;              (** the floating point states saved *)
}.

Definition regs (m : machine) (r : reg) : Z := nth (idx r) (regfile m) 0.

Definition IF : Z := 0x200.

(** The instructions the routines consist of. *)
Inductive instr :=
| Save (offset : nat) (r : reg)    (** mov [rdi + 8 * offset], r *)
| Load (offset : nat) (r : reg)    (** mov r, [rsi + 8 * offset] *)
| MovRaxCr3 | MovCr3Rax | MovRaxCs | MovRaxSs | MovRaxRsp
| XorRax                           (** xor rax, rax *)
| OrRax (imm : Z)
| Push (r : reg) | Pop (r : reg) | Pushfq | Popfq
| Fxsave                           (** fxsave [rdx] *)
| Fxrstor                          (** fxrstor [rcx] *)
| Ret.

Definition with_reg (r : reg) (v : Z) (m : machine) : machine :=
  Machine (<[idx r := v]> (regfile m)) (rip m) (rflags m) (mcr3 m) (seg_cs m) (seg_ss m) (fpu m)
    (contexts m) (stack m) (fxareas m).
Definition with_flags v m :=
  Machine (regfile m) (rip m) v (mcr3 m) (seg_cs m) (seg_ss m) (fpu m) (contexts m) (stack m) (fxareas m).
Definition with_rip v m :=
  Machine (regfile m) v (rflags m) (mcr3 m) (seg_cs m) (seg_ss m) (fpu m) (contexts m) (stack m) (fxareas m).
Definition with_mcr3 v m :=
  Machine (regfile m) (rip m) (rflags m) v (seg_cs m) (seg_ss m) (fpu m) (contexts m) (stack m) (fxareas m).
Definition with_fpu v m :=
  Machine (regfile m) (rip m) (rflags m) (mcr3 m) (seg_cs m) (seg_ss m) v (contexts m) (stack m) (fxareas m).
Definition with_contexts v m :=
  Machine (regfile m) (rip m) (rflags m) (mcr3 m) (seg_cs m) (seg_ss m) (fpu m) v (stack m) (fxareas m).
Definition with_stack v m :=
  Machine (regfile m) (rip m) (rflags m) (mcr3 m) (seg_cs m) (seg_ss m) (fpu m) (contexts m) v (fxareas m).
Definition with_fxareas v m :=
  Machine (regfile m) (rip m) (rflags m) (mcr3 m) (seg_cs m) (seg_ss m) (fpu m) (contexts m) (stack m) v.

(** Carry, parity, adjust, zero, sign and overflow. *)
Definition STATUS : Z := 0x8D5.
Definition logic_flags (result f : Z) : Z :=
  Z.lor (Z.land f (Z.lnot STATUS)) (if result =? 0 then 0x44 else 0).

Definition push (v : Z) (m : machine) : outcome machine :=
  let a := u64 (regs m RSP - 8) in
  _ ← known (stack m !! a);
  Done (with_stack (<[a := v]> (stack m)) (with_reg RSP a m)).
Definition pop (m : machine) : outcome (Z * machine) :=
  v ← known (stack m !! regs m RSP);
  Done (v, with_reg RSP (u64 (regs m RSP + 8)) m).

Definition step (i : instr) (m : machine) : outcome machine :=
  match i with
  | Save o r =>
      c ← known (contexts m !! regs m RDI);
      if (o <? List.length c)%nat then Done (with_contexts (<[regs m RDI := <[o := regs m r]> c]> (contexts m)) m) else Fault
  | Load o r =>
      c ← known (contexts m !! regs m RSI);
      v ← known (c !! o);
      Done (with_reg r v m)
  | MovRaxCr3 => Done (with_reg RAX (mcr3 m) m)
  | MovCr3Rax => Done (with_mcr3 (regs m RAX) m)
  | MovRaxCs => Done (with_reg RAX (seg_cs m) m)
  | MovRaxSs => Done (with_reg RAX (seg_ss m) m)
  | MovRaxRsp => Done (with_reg RAX (regs m RSP) m)
  | XorRax => Done (with_flags (logic_flags 0 (rflags m)) (with_reg RAX 0 m))
  | OrRax imm => let v := Z.lor (regs m RAX) imm in Done (with_flags (logic_flags v (rflags m)) (with_reg RAX v m))
  | Push r => push (regs m r) m
  | Pop r => '(v, m) ← pop m; Done (with_reg r v m)
  | Pushfq => push (rflags m) m
  | Popfq => '(v, m) ← pop m; Done (with_flags v m)
  | Fxsave => Done (with_fxareas (<[regs m RDX := fpu m]> (fxareas m)) m)
  | Fxrstor => v ← known (fxareas m !! regs m RCX); Done (with_fpu v m)
  | Ret => '(v, m) ← pop m; Done (with_rip v m)
  end.

Fixpoint run (p : list instr) (m : machine) : outcome machine :=
  match p with [] => Done m | i :: p => m ← step i m; run p m end.

Definition save_context : list instr :=
  [Save 2 RAX; MovRaxCr3; Save 0 RAX; Save 3 RBX; Save 4 RCX; Save 5 RDX; Save 6 RSI; Save 7 RDI; Save 8 RBP;
   Save 9 R8; Save 10 R9; Save 11 R10; Save 12 R11; Save 13 R12; Save 14 R13; Save 15 R14; Save 16 R15;
   XorRax; Save 17 RAX; Save 18 RAX; Pop RAX; Save 19 RAX; Push RAX; MovRaxCs; Save 20 RAX;
   Pushfq; Pop RAX; OrRax IF; Save 21 RAX; MovRaxRsp; Save 22 RAX; MovRaxSs; Save 23 RAX; Fxsave].

Definition load_context : list instr :=
  [Load 0 RAX; MovCr3Rax; Fxrstor; Load 3 RBX; Load 4 RCX; Load 5 RDX; Load 8 RBP; Load 9 R8; Load 10 R9;
   Load 11 R10; Load 12 R11; Load 13 R12; Load 14 R13; Load 15 R14; Load 16 R15; Load 19 RAX; Push RAX;
   Load 20 RAX; Load 21 RAX; Push RAX; Popfq; Load 22 RSP; Load 23 RAX; Load 2 RAX; Load 7 RDI; Load 6 RSI; Ret].

(** [newctxswtch(old, new, fxsave, fxrstor)] on a machine that has called it: the arguments
    are in the registers and the return address is on the stack. *)
Definition newctxswtch (m : machine) : outcome machine := run (save_context ++ load_context) m.

(** ** Running the routine on symbolic registers *)
Lemma run_cons i p m : run (i :: p) m = (m ← step i m; run p m).
Proof. done. Qed.
Lemma run_app p q m : run (p ++ q) m = (m ← run p m; run q m).
Proof. revert m. induction p as [|i p IH]; intros m; [done|]. cbn. destruct (step i m); cbn; auto. Qed.

Ltac norm :=
  cbv beta iota delta [step push pop known mbind outcome_bind with_reg with_flags with_stack with_fxareas with_mcr3
    with_fpu with_rip with_contexts regs regfile nth idx rip rflags mcr3 seg_cs seg_ss fpu contexts stack fxareas];
  cbn [insert list_insert length Nat.ltb Nat.leb lookup list_lookup].
Ltac exec :=
  rewrite run_cons; norm;
  repeat first
    [ progress rewrite ?lookup_insert_eq, ?insert_insert_eq; norm
    | match goal with
      | E : ?m !! ?k = Some _ |- context [?m !! ?k] => rewrite E; norm
      | E : <[?k:=?v]> ?m = _ |- context [<[?k:=?v]> ?m] => rewrite E; norm
      | E : u64 ?v = _ |- context [u64 ?v] => rewrite E; norm
      end
    | rewrite lookup_insert_ne by first [done|lia]; norm ].
Ltac words l := repeat (destruct l as [|? l]; [discriminate|]); destruct l; [|discriminate].

(** The context that describes a machine which has called the routine: the registers as they
    are, with the interrupts enabled; the pointer to the information block is left alone. *)
Definition saved (m : machine) (ret info : Z) : list Z :=
  [mcr3 m; info; regs m RAX; regs m RBX; regs m RCX; regs m RDX; regs m RSI; regs m RDI; regs m RBP; regs m R8;
   regs m R9; regs m R10; regs m R11; regs m R12; regs m R13; regs m R14; regs m R15; 0; 0; ret; seg_cs m;
   Z.lor (logic_flags 0 (rflags m)) IF; regs m RSP; seg_ss m].

Lemma save_context_ok m old ret :
  length (regfile m) = 16%nat → contexts m !! regs m RDI = Some old → length old = 24%nat →
  16 ≤ regs m RSP < 2^64 - 8 → stack m !! regs m RSP = Some ret → is_Some (stack m !! (regs m RSP - 8)) →
  ∃ x fl, run save_context m =
    Done (Machine (<[0%nat := x]> (regfile m)) (rip m) fl (mcr3 m) (seg_cs m) (seg_ss m) (fpu m)
      (<[regs m RDI := saved m ret (nth 1 old 0)]> (contexts m))
      (<[regs m RSP - 8 := logic_flags 0 (rflags m)]> (stack m)) (<[regs m RDX := fpu m]> (fxareas m))).
Proof.
  destruct m as [l pc fl cr3 cs ss fp cxs st fx]. intros Hlen Hc Hl Hsp Hret [w Hw]. unfold saved, regs in *.
  cbn [regfile contexts stack fxareas fpu mcr3 seg_cs seg_ss rip rflags] in *. words l. words old.
  cbn [nth idx] in *. match type of Hret with _ !! ?s = _ => rename s into sp end.
  assert (E1 : u64 (sp + 8) = sp + 8) by (apply u64_small; lia).
  assert (E2 : u64 (sp + 8 - 8) = sp) by (rewrite Z.add_simpl_r; apply u64_small; lia).
  assert (E3 : u64 (sp - 8) = sp - 8) by (apply u64_small; lia).
  assert (E4 : u64 (sp - 8 + 8) = sp) by (rewrite Z.sub_simpl_r; apply u64_small; lia).
  pose proof (insert_id st sp ret Hret) as E5. unfold save_context. repeat exec. by eexists _, _.
Qed.

(** The register file a context describes. *)
Definition restored (c : list Z) : list Z :=
  let w i := nth i c 0 in
  [w 2; w 3; w 4; w 5; w 6; w 7; w 8; w 9; w 10; w 11; w 12; w 13; w 14; w 15; w 16; u64 (w 22 + 8)]%nat.

Lemma load_context_ok m new res fp :
  length (regfile m) = 16%nat → contexts m !! regs m RSI = Some new → length new = 24%nat →
  16 ≤ regs m RSP < 2^64 - 8 → is_Some (stack m !! (regs m RSP - 8)) → is_Some (stack m !! (regs m RSP - 16)) →
  stack m !! nth 22 new 0 = Some res → nth 22 new 0 ≠ regs m RSP - 8 → nth 22 new 0 ≠ regs m RSP - 16 →
  fxareas m !! regs m RCX = Some fp →
  run load_context m =
    Done (Machine (restored new) res (nth 21 new 0) (nth 0 new 0) (seg_cs m) (seg_ss m) fp (contexts m)
      (<[regs m RSP - 16 := nth 21 new 0]> (<[regs m RSP - 8 := nth 19 new 0]> (stack m))) (fxareas m)).
Proof.
  destruct m as [l pc fl cr3 cs ss fp' cxs st fx]. intros Hlen Hc Hl Hsp [w Hw] [w' Hw'] Hres N1 N2 Hfx. unfold regs in *.
  cbn [regfile contexts stack fxareas fpu mcr3 seg_cs seg_ss rip rflags] in *. words l. words new.
  cbn [nth idx] in *. match type of Hw with _ !! (?s - 8) = _ => rename s into sp end.
  assert (E1 : u64 (sp - 8) = sp - 8) by (apply u64_small; lia).
  assert (E2 : u64 (sp - 8 - 8) = sp - 16) by (rewrite u64_small; lia).
  assert (E3 : u64 (sp - 16 + 8) = sp - 8) by (rewrite u64_small; lia).
  unfold load_context. repeat exec. done.
Qed.

(** ** A task resumes where it stopped *)

(** A machine that has called the routine with two contexts: both exist, there is room below the
    stack pointer, and the stack of the task switched to is not the words below it. *)
Record calling (m : machine) (old new : list Z) (ret res fp : Z) : Prop := {
  call_regs : length (regfile m) = 16%nat;
  call_old : contexts m !! regs m RDI = Some old;
  call_new : contexts m !! regs m RSI = Some new;
  call_words : length old = 24%nat ∧ length new = 24%nat;
  call_apart : regs m RDI ≠ regs m RSI;
  call_rsp : 16 ≤ regs m RSP < 2^64 - 8;
  call_ret : stack m !! regs m RSP = Some ret;
  call_room : is_Some (stack m !! (regs m RSP - 8)) ∧ is_Some (stack m !! (regs m RSP - 16));
  call_res : stack m !! nth 22 new 0 = Some res;
  call_stacks : nth 22 new 0 ≠ regs m RSP - 8 ∧ nth 22 new 0 ≠ regs m RSP - 16;
  call_fx : <[regs m RDX := fpu m]> (fxareas m) !! regs m RCX = Some fp;
}.

Lemma newctxswtch_ok m old new ret res fp :
  calling m old new ret res fp →
  ∃ m', newctxswtch m = Done m' ∧
    regfile m' = restored new ∧ rip m' = res ∧ rflags m' = nth 21 new 0 ∧ mcr3 m' = nth 0 new 0 ∧ fpu m' = fp ∧
    contexts m' = <[regs m RDI := saved m ret (nth 1 old 0)]> (contexts m) ∧
    fxareas m' = <[regs m RDX := fpu m]> (fxareas m) ∧
    ∀ a, a ≠ regs m RSP - 8 → a ≠ regs m RSP - 16 → stack m' !! a = stack m !! a.
Proof.
  intros [Hl Ho Hn [Hlo Hln] Hne Hsp Hret [Hw Hw'] Hres [N1 N2] Hfx]. unfold newctxswtch. rewrite run_app.
  destruct (save_context_ok m old ret) as (x & fl & E); try done. rewrite E. cbn [mbind outcome_bind].
  match goal with |- context [run load_context ?q] => set (m0 := q) end.
  assert (K : ∀ r, r ≠ RAX → regs m0 r = regs m r)
    by (intros r Hr; unfold regs; cbn; destruct (regfile m), r; first [done|congruence]).
  erewrite (load_context_ok m0 new res fp).
  - eexists. split; [reflexivity|]. cbn [regfile rip rflags mcr3 fpu contexts fxareas stack].
    do 7 (split; [reflexivity|]). intros a Ha Hb. rewrite !K by discriminate. unfold m0. cbn [stack].
    rewrite !lookup_insert_ne by congruence. reflexivity.
  - unfold m0. cbn [regfile]. rewrite length_insert. exact Hl.
  - rewrite K by discriminate. unfold m0. cbn [contexts]. rewrite lookup_insert_ne by exact Hne. exact Hn.
  - exact Hln.
  - rewrite K by discriminate. exact Hsp.
  - rewrite K by discriminate. unfold m0. cbn [stack]. rewrite lookup_insert_eq. eexists. reflexivity.
  - rewrite K by discriminate. unfold m0. cbn [stack]. rewrite lookup_insert_ne by lia. exact Hw'.
  - unfold m0. cbn [stack]. rewrite lookup_insert_ne by congruence. exact Hres.
  - rewrite K by discriminate. exact N1.
  - rewrite K by discriminate. exact N2.
  - rewrite K by discriminate. exact Hfx.
Qed.

Lemma restored_saved m ret info :
  length (regfile m) = 16%nat → restored (saved m ret info) = <[15%nat := u64 (regs m RSP + 8)]> (regfile m).
Proof. destruct m as [l]. unfold regs. cbn [regfile]. intros Hl. words l. reflexivity. Qed.

(** The flags other than the status flags survive, and the interrupts are enabled. *)
Lemma resumed_flags f i :
  0 ≤ i → Z.testbit STATUS i = false →
  Z.testbit (Z.lor (logic_flags 0 f) IF) i = (i =? 9) || Z.testbit f i.
Proof.
  intros Hi Hs. unfold logic_flags. change (0 =? 0) with true. cbv iota.
  rewrite !Z.lor_spec, Z.land_spec, Z.lnot_spec, Hs by done. cbn [negb]. rewrite andb_true_r.
  assert (H44 : Z.testbit 0x44 i = false).
  { destruct (decide (i = 2)) as [->|]; [done|]. destruct (decide (i = 6)) as [->|]; [done|].
    change 0x44 with (Z.lor (2 ^ 2) (2 ^ 6)). by rewrite Z.lor_spec, !Z.pow2_bits_false. }
  rewrite H44, orb_false_r, orb_comm. f_equal. change IF with (2 ^ 9).
  destruct (Z.eqb_spec i 9) as [->|]; [done|]. by rewrite Z.pow2_bits_false by done.
Qed.


(** Two tasks that hand the processor to one another. *)
Definition wstack : gmap Z Z := list_to_map ((λ a, (a, a + 1)) <$> [0x8FF0; 0x8FF8; 0x9000; 0x9FF0; 0x9FF8; 0xA000]).
Definition wm1 : machine :=
  Machine [1; 2; 0x6000; 0x5000; 0x2000; 0x1000; 7; 8; 9; 10; 11; 12; 13; 14; 15; 0x9000] 0 0x246 0x100000 8 16 111
    {[0x1000 := replicate 24 0; 0x2000 := <[22%nat := 0xA000]> (replicate 24 5)]} wstack {[0x6000 := 222]}.
Definition wm2 : machine := match newctxswtch wm1 with Done m => m | _ => wm1 end.
Definition wm3 : machine :=
  Machine [0; 0; 0x5000; 0x6000; 0x1000; 0x2000; 0; 0; 0; 0; 0; 0; 0; 0; 0; 0xA000] 0 0x2 0x200000 8 16 333
    (contexts wm2) (stack wm2) (fxareas wm2).

