(* ===== verification/TaskStack.v ===== *)
(** * The initial stack of a task (src/src/sched/scheduler.c, src/src/arch/context.asm)

    What a new task finds on its stack: the auxiliary vector, the environment, the arguments
    and their number, and below them the addresses the first switch to the task returns
    through.  An array of strings is the list of the addresses of its strings; [auxv] is the
    list of its entries, a type and a value each. *)
From stdpp Require Import gmap.
From S2P Require Import Prelude CString.
#[local] Open Scope Z_scope.

(** The eight bytes of a word, the low one first. *)
Definition le64 (v : Z) : list Z := (λ i, (u64 v / 2 ^ (8 * i)) mod 256) <$> [0; 1; 2; 3; 4; 5; 6; 7].

(** [*(uint64_t* )a = value]: the bytes of the word, the low one first. *)
Definition store64 (a value : Z) (m : bytes_mem) : outcome bytes_mem :=
  for_up 8 0 (λ i m, put (a + i) (u64 value / 2 ^ (8 * i)) m) m.

Definition push_u64 (stack value : Z) (m : bytes_mem) : outcome (Z * bytes_mem) :=
  let stack := stack - 8 in
  m ← store64 stack value m;
  Done (stack, m).

Definition push_str (stack str : Z) (m : bytes_mem) : outcome (Z * bytes_mem) :=
  len ← strlen str m;
  let len := s32 len in
  let stack := stack - len in
  m ← memcpy stack str (u64 len) m;
  Done (stack, m).

(** [for (int i = n - 1; i >= 0; i--) stack = push_str(stack, strs[i]);] *)
Fixpoint push_strs (n : nat) (strs : list Z) (stack : Z) (m : bytes_mem) : outcome (Z * bytes_mem) :=
  match n with
  | O => Done (stack, m)
  | S n =>
      str ← known (strs !! n);
      '(stack, m) ← push_str stack str m;
      push_strs n strs stack m
  end.

(** [while (stack % 16 != 0) *stack++ = 0;] *)
Definition align_stack (stack : Z) (m : bytes_mem) : outcome (Z * bytes_mem) :=
  loop 17 (λ '(stack, m),
    if stack mod 16 =? 0 then Done (inr (stack, m)) else
    m ← put stack 0 m;
    Done (inl (stack + 1, m))) (stack, m).

Definition push_auxv (auxv : list (Z * Z)) (stack : Z) (m : bytes_mem) : outcome (Z * bytes_mem) :=
  for_up 5 0 (λ i '(stack, m),
    '(a_type, a_val) ← known (auxv !! Z.to_nat i);
    '(stack, m) ← push_u64 stack a_type m;
    push_u64 stack a_val m) (stack, m).

(** The number of strings before the null pointer that ends [envp]. *)
Definition env_count (envp : option (list Z)) : outcome nat :=
  match envp with
  | None => Done O
  | Some l =>
      loop (S (length l)) (λ envc : nat,
        p ← known (l !! envc);
        if negb (p =? 0) then Done (inl (S envc)) else Done (inr envc)) O
  end.

Definition initialize_stack (stack argc : Z) (argv : list Z) (envp : option (list Z)) (auxv : option (list (Z * Z)))
    (m : bytes_mem) : outcome (Z * bytes_mem) :=
  envc ← env_count envp;
  '(stack, m) ← (match auxv with None => Done (stack, m) | Some l => push_auxv l stack m end);
  '(stack, m) ← push_strs envc (default [] envp) stack m;
  '(stack, m) ← align_stack stack m;
  '(stack, m) ← push_strs (Z.to_nat argc) argv stack m;
  '(stack, m) ← align_stack stack m;
  push_u64 stack argc m.

(** [newctxcreat] and [newuctxcreat] on the value of the stack pointer they are given the
    address of; the addresses of the routines in the image are arguments. *)
Definition newctxcreat (returnoexit init stack : Z) (m : bytes_mem) : outcome (Z * bytes_mem) :=
  '(stack, m) ← push_u64 stack returnoexit m;
  '(stack, m) ← push_u64 stack 0 m;
  push_u64 stack init m.

Definition newuctxcreat (returnoexit userspace_trampoline init stack_ptr stack : Z) (m : bytes_mem)
    : outcome (Z * bytes_mem) :=
  '(stack, m) ← newctxcreat returnoexit init stack m;
  '(stack, m) ← push_u64 stack stack_ptr m;
  push_u64 stack userspace_trampoline m.

(** ** The layout *)

(** Every byte between two addresses exists. *)
Definition mapped (m : bytes_mem) (lo hi : Z) : Prop := ∀ a, lo ≤ a < hi → is_Some (m !! a).

(** A stack under construction: [l] lies between its pointer and its top, and nothing outside the
    room from [lo] up to the top has changed. *)
Record stacked (m0 : bytes_mem) (lo top : Z) (a : Z) (l : list Z) (m : bytes_mem) : Prop := {
  stk_holds : holds_bytes m a l;
  stk_top : a + Z.of_nat (length l) = top;
  stk_out : ∀ b, ¬ (lo ≤ b < top) → m !! b = m0 !! b;
  stk_room : mapped m lo top;
}.

Lemma stacked_start m lo top : mapped m lo top → stacked m lo top top [] m.
Proof. intros Hm. split; [done|cbn; lia|done|done]. Qed.

(** A block written upwards, which ends at the pointer. *)
Lemma stacked_write m0 lo top a l m (body : Z → bytes_mem → outcome bytes_mem) w :
  stacked m0 lo top a l m → lo ≤ a - Z.of_nat (length w) → Forall is_byte w →
  (∀ i v m', w !! i = Some v → (∀ b, ¬ (lo ≤ b < top) → m' !! b = m0 !! b) →
     body (Z.of_nat i) m' = put (a - Z.of_nat (length w) + Z.of_nat i) v m') →
  ∃ m', for_up (length w) 0 body m = Done m' ∧ stacked m0 lo top (a - Z.of_nat (length w)) (w ++ l) m'.
Proof.
  intros [Hh Ht Ho Hr] Hlo Hw Hbody. set (d := a - Z.of_nat (length w)) in *.
  destruct (for_up_total (λ i m', (∀ b, ¬ (d ≤ b < d + i) → m' !! b = m !! b) ∧ mapped m' lo top ∧
      ∀ j v, w !! j = Some v → Z.of_nat j < i → m' !! (d + Z.of_nat j) = Some v) (length w) 0 body m)
    as (m' & E & Hout & Hmap & Hin).
  - intros i m' Hi (Hout & Hmap & Hin). destruct (lookup_lt_is_Some_2 w (Z.to_nat i)) as [v Hv]; [lia|].
    assert (Hvb : u8 v = v) by (apply u8_small; by eapply (Forall_lookup_1 _ _ _ _ Hw)).
    exists (<[d + i := v]> m'). split.
    + replace i with (Z.of_nat (Z.to_nat i)) by lia. rewrite (Hbody _ v); [|done|].
      * rewrite put_ok; [by rewrite Hvb|]. apply Hmap. lia.
      * intros b Hb. rewrite Hout by lia. by apply Ho.
    + split_and!.
      * intros b Hb. rewrite lookup_insert_ne by lia. apply Hout. lia.
      * intros b Hb. destruct (decide (d + i = b)) as [<-|]; [rewrite lookup_insert_eq; by eexists|].
        rewrite lookup_insert_ne by done. by apply Hmap.
      * intros j u Hu Hj. destruct (decide (j = Z.to_nat i)) as [->|].
        -- rewrite Z2Nat.id by lia. rewrite lookup_insert_eq. by simplify_eq.
        -- rewrite lookup_insert_ne by lia. apply Hin; [done|lia].
  - split_and!; [done|done|intros; lia].
  - exists m'. split; [done|]. split.
    + intros i b [Hb|[Hge Hb]]%lookup_app_Some.
      * apply Hin; [done|]. apply lookup_lt_Some in Hb. lia.
      * rewrite Hout by lia. rewrite <- (Hh _ b Hb). f_equal. unfold d. lia.
    + rewrite length_app. unfold d. lia.
    + intros b Hb. rewrite Hout by (unfold d; lia). by apply Ho.
    + done.
Qed.

Lemma le64_bytes v : Forall is_byte (le64 v).
Proof. apply Forall_fmap, Forall_forall. intros i _. apply Z.mod_pos_bound. done. Qed.

Lemma stacked_u64 m0 lo top a l m v :
  stacked m0 lo top a l m → lo ≤ a - 8 →
  ∃ m', push_u64 a v m = Done (a - 8, m') ∧ stacked m0 lo top (a - 8) (le64 v ++ l) m'.
Proof.
  intros Hs Hlo. unfold push_u64, store64.
  destruct (stacked_write _ _ _ _ _ _ (λ i m, put (a - 8 + i) (u64 v / 2 ^ (8 * i)) m) (le64 v) Hs) as (m' & E & Hs').
  - exact Hlo.
  - apply le64_bytes.
  - intros i b m' Hb _. unfold le64 in Hb. change (Z.of_nat (length (le64 v))) with 8.
    rewrite list_lookup_fmap in Hb. apply fmap_Some in Hb as (k & Hk & ->).
    assert (k = Z.of_nat i) as -> by (do 8 (destruct i as [|i]; [by injection Hk|]); by destruct i).
    unfold put, u8. destruct (byte_at _ _); [|done..]. cbn [mbind outcome_bind]. unfold wrap. by rewrite (Z.mod_mod _ 256).
  - change (length (le64 v)) with 8%nat in *. rewrite E, bind_done. eauto.
Qed.

(** The string is outside of the room the stack may grow into. *)
Definition argument (m0 : bytes_mem) (lo top : Z) (s : Z) (str : list Z) : Prop :=
  cstr m0 s str ∧ Z.of_nat (length str) < STR_MAX_SIZE ∧ (s + Z.of_nat (length str) < lo ∨ top ≤ s).

Lemma stacked_str m0 lo top a l m s str :
  stacked m0 lo top a l m → argument m0 lo top s str → lo ≤ a - Z.of_nat (length str) →
  ∃ m', push_str a s m = Done (a - Z.of_nat (length str), m') ∧
    stacked m0 lo top (a - Z.of_nat (length str)) (str ++ l) m'.
Proof.
  intros Hs (Hc & Hl & Hd) Hlo. unfold push_str, memcpy.
  assert (Hc' : cstr m s str) by (eapply cstr_frame, Hc; intros b Hb; apply (stk_out _ _ _ _ _ _ Hs); lia).
  rewrite (strlen_ok m s str Hc' Hl), bind_done. unfold STR_MAX_SIZE in Hl. rewrite s32_small, u64_small by lia.
  destruct (stacked_write _ _ _ _ _ _ (λ i m, b ← byte_at m (s + i); put (a - Z.of_nat (length str) + i) b m) str Hs)
    as (m' & E & Hs'); [done| | |].
  - apply Forall_lookup. intros i b Hb. pose proof (Forall_lookup_1 _ _ _ _ (cs_chars _ _ _ Hc) Hb). unfold is_byte; cbn in *; lia.
  - intros i v m1 Hv Hm1. unfold byte_at. rewrite Hm1; [|apply lookup_lt_Some in Hv; lia].
    rewrite (cs_bytes _ _ _ Hc i v Hv). done.
  - rewrite Nat2Z.id, E, bind_done. eauto.
Qed.

Lemma stacked_strs m0 lo top ss strs a l m n :
  stacked m0 lo top a l m → Forall2 (argument m0 lo top) (take n ss) strs →
  (n ≤ length ss)%nat → lo ≤ a - Z.of_nat (length (concat strs)) →
  ∃ m', push_strs n ss a m = Done (a - Z.of_nat (length (concat strs)), m') ∧
    stacked m0 lo top (a - Z.of_nat (length (concat strs))) (concat strs ++ l) m'.
Proof.
  revert strs a l m. induction n as [|n IH]; intros strs a l m Hs Hf Hn Hlo.
  - apply Forall2_nil_inv_l in Hf as ->. cbn. rewrite Z.sub_0_r. eauto.
  - destruct (lookup_lt_is_Some_2 ss n Hn) as [s Es]. rewrite (take_S_r _ _ _ Es) in Hf.
    apply Forall2_app_inv_l in Hf as (strs' & tl & Hf & Ht & ->).
    apply Forall2_cons_inv_l in Ht as (str & nl & Ha & Hnl & ->). apply Forall2_nil_inv_l in Hnl as ->.
    rewrite concat_app in *. cbn [concat] in *. rewrite app_nil_r, length_app in *.
    cbn [push_strs]. rewrite Es. cbn [known]. rewrite bind_done.
    destruct (stacked_str _ _ _ _ _ _ _ _ Hs Ha) as (m1 & -> & Hs1); [lia|]. rewrite bind_done.
    destruct (IH strs' _ _ _ Hs1 Hf) as (m2 & -> & Hs2); [lia|lia|]. exists m2.
    rewrite <- app_assoc. replace (a - Z.of_nat (length (concat strs') + length str))
      with (a - Z.of_nat (length str) - Z.of_nat (length (concat strs'))) by lia. done.
Qed.

(** The alignment moves the pointer up, over what was pushed last. *)
Lemma stacked_align m0 lo top a l m (k := Z.to_nat ((- a) mod 16)) :
  stacked m0 lo top a l m → lo ≤ a → (k ≤ length l)%nat →
  ∃ m', align_stack a m = Done (a + Z.of_nat k, m') ∧ stacked m0 lo top (a + Z.of_nat k) (drop k l) m'.
Proof.
  intros Hs Hlo Hk. unfold align_stack.
  assert (Hf : (k < 17)%nat) by (unfold k; pose proof (Z.mod_pos_bound (- a) 16); lia).
  assert (Hm : Z.of_nat k = (- a) mod 16) by (unfold k; pose proof (Z.mod_pos_bound (- a) 16); lia).
  clearbody k. revert a l m k Hs Hlo Hk Hf Hm. generalize 17%nat as fuel.
  induction fuel as [|fuel IH]; intros a l m k Hs Hlo Hk Hf Hm; [lia|]. cbn [loop].
  pose proof (Z.mod_pos_bound (- a) 16).
  destruct (Z.eqb_spec (a mod 16) 0) as [E|E].
  - assert (k = O) as -> by (apply Z.mod_divide in E as [q ->]; [|done]; rewrite <- Z.mul_opp_l, Z.mod_mul in Hm by done; lia).
    cbn. rewrite Z.add_0_r. eauto.
  - destruct k as [|k]; [exfalso; apply E; rewrite <- (Z.opp_involutive a); apply Z.mod_opp_l_z; done|].
    destruct l as [|b l]; [cbn in Hk; lia|]. destruct Hs as [Hh Ht Ho Hr]. cbn [length drop] in *.
    rewrite put_ok, !bind_done by (apply Hr; lia).
    destruct (IH (a + 1) l (<[a := u8 0]> m) k) as (m' & -> & Hs').
    + split.
      * intros i x Hx. rewrite lookup_insert_ne by lia. rewrite <- (Hh (S i) x Hx). f_equal. lia.
      * lia.
      * intros x Hx. rewrite lookup_insert_ne by lia. by apply Ho.
      * intros x Hx. destruct (decide (a = x)) as [<-|]; [rewrite lookup_insert_eq; by eexists|].
        rewrite lookup_insert_ne by done. by apply Hr.
    + lia.
    + lia.
    + lia.
    + replace (- (a + 1)) with (- a - 1) by lia. rewrite Zminus_mod, <- Hm. change (1 mod 16) with 1.
      rewrite Z.mod_small; lia.
    + exists m'. replace (a + Z.of_nat (S k)) with (a + 1 + Z.of_nat k) by lia. done.
Qed.

(** The words of the auxiliary vector as they are pushed: below the type of an entry its value,
    below the first entry the others. *)
Definition aux_words (auxv : list (Z * Z)) : list Z := concat ((λ '(t, v), le64 v ++ le64 t) <$> reverse (take 5 auxv)).

Lemma stacked_auxv m0 lo top aux a l m :
  stacked m0 lo top a l m → (5 ≤ length aux)%nat → lo ≤ a - 80 →
  ∃ m', push_auxv aux a m = Done (a - 80, m') ∧ stacked m0 lo top (a - 80) (aux_words aux ++ l) m'.
Proof.
  intros Hs Hl Hlo. unfold push_auxv.
  destruct (for_up_total (λ i '(s, m'), s = a - 16 * i ∧
    stacked m0 lo top (a - 16 * i) (concat ((λ '(t, v), le64 v ++ le64 t) <$> reverse (take (Z.to_nat i) aux)) ++ l) m')
    5 0 (λ i '(stack, m), '(a_type, a_val) ← known (aux !! Z.to_nat i);
      '(stack, m) ← push_u64 stack a_type m; push_u64 stack a_val m) (a, m)) as ([s m'] & E & -> & Hs').
  - intros i [s m1] Hi [-> Hs1]. destruct (lookup_lt_is_Some_2 aux (Z.to_nat i)) as [[t v] Ex]; [lia|].
    rewrite Ex. cbn [known]. rewrite bind_done.
    destruct (stacked_u64 _ _ _ _ _ _ t Hs1) as (m2 & E2 & Hs2); [lia|]. rewrite E2, bind_done.
    destruct (stacked_u64 _ _ _ _ _ _ v Hs2) as (m3 & E3 & Hs3); [lia|]. rewrite E3.
    eexists. split; [done|]. split; [lia|]. rewrite Z2Nat.inj_add, Nat.add_1_r by lia.
    rewrite (take_S_r _ _ _ Ex), reverse_app, fmap_app, concat_app, reverse_singleton. cbn [fmap list_fmap concat]. rewrite app_nil_r, <- !app_assoc.
    replace (a - 16 * (i + 1)) with (a - 16 * i - 8 - 8) by lia. done.
  - rewrite Z.sub_0_r. done.
  - exists m'. split; [exact E|exact Hs'].
Qed.

(** What [envp] points to: nothing, or the strings and the null pointer behind them. *)
Definition environment (envp : option (list Z)) (es : list Z) : Prop :=
  Forall (λ p, p ≠ 0) es ∧ match envp with None => es = [] | Some l => ∃ rest, l = (es ++ 0 :: rest)%list end.

Lemma env_count_ok envp es : environment envp es → env_count envp = Done (length es).
Proof.
  intros [Hz He]. destruct envp as [l|]; [|by subst]. destruct He as (rest & ->). unfold env_count.
  assert (K : ∀ n fuel, (n ≤ length es)%nat → (length es - n < fuel)%nat →
    loop fuel (λ envc : nat, p ← known ((es ++ 0 :: rest) !! envc);
      if negb (p =? 0) then Done (inl (S envc)) else Done (inr envc)) n = Done (length es)).
  { intros n fuel. revert n. induction fuel as [|fuel IH]; intros n Hn Hf; [lia|]. cbn [loop].
    destruct (decide (n = length es)) as [->|].
    - by rewrite list_lookup_middle.
    - destruct (lookup_lt_is_Some_2 es n) as [p Ep]; [lia|]. rewrite lookup_app_l, Ep by lia. cbn [known].
      rewrite bind_done. rewrite (proj2 (Z.eqb_neq p 0)) by (by eapply (Forall_lookup_1 _ _ _ _ Hz)). cbn [negb].
      rewrite bind_done. apply IH; lia. }
  apply K; [lia|]. rewrite length_app. cbn. lia.
Qed.

Lemma align_amount a b n : a mod 16 = 0 → b = a - Z.of_nat n → Z.to_nat ((- b) mod 16) = (n mod 16)%nat.
Proof.
  intros [q ->]%Z.mod_divide -> ; [|done]. replace (- (q * 16 - Z.of_nat n)) with (Z.of_nat n + (- q) * 16) by lia.
  rewrite Z.mod_add by done. change 16 with (Z.of_nat 16). by rewrite <- Nat2Z.inj_mod, Nat2Z.id.
Qed.

(** An aligned pointer, strings below it, and the alignment that follows. *)
Lemma stacked_block m0 lo top ss strs a l m n (w := concat strs) (k := (length w mod 16)%nat) :
  stacked m0 lo top a l m → a mod 16 = 0 → Forall2 (argument m0 lo top) (take n ss) strs → (n ≤ length ss)%nat →
  lo ≤ a - Z.of_nat (length w) →
  ∃ m', ('(stack, m) ← push_strs n ss a m; align_stack stack m) = Done (a - Z.of_nat (length w - k), m') ∧
    stacked m0 lo top (a - Z.of_nat (length w - k)) (drop k w ++ l) m' ∧ (a - Z.of_nat (length w - k)) mod 16 = 0.
Proof.
  intros Hs Ha Hf Hn Hlo. assert (Hk : (k ≤ length w)%nat) by apply Nat.Div0.mod_le.
  destruct (stacked_strs _ _ _ _ _ _ _ _ _ Hs Hf Hn Hlo) as (m1 & -> & Hs1). rewrite bind_done.
  pose proof (align_amount a _ (length w) Ha eq_refl) as Ek. fold w in Hs1 |- *. fold k in Ek.
  destruct (stacked_align _ _ _ _ _ _ Hs1) as (m2 & -> & Hs2); [lia|rewrite Ek, length_app; lia|]. rewrite Ek in *.
  rewrite drop_app_le in Hs2 by done. exists m2.
  replace (a - Z.of_nat (length w - k)) with (a - Z.of_nat (length w) + Z.of_nat k) by lia.
  split; [done|]. split; [done|]. rewrite <- Ek. rewrite Z2Nat.id by (by apply Z.mod_pos_bound).
  rewrite Zplus_mod_idemp_r. by rewrite Z.add_opp_diag_r.
Qed.

(** The stack a new task starts on.  From an aligned top, with room below it that holds none of
    the strings, the set-up returns and the stack holds, from its pointer up to the top: the number
    of arguments, the arguments one after the other without their terminators, the environment
    likewise, the auxiliary words.  The alignment writes its zeros upwards, over what was pushed
    last: the first characters of the arguments, and of the environment, as many as their length
    exceeds a multiple of sixteen, are not on the stack.  Nothing outside of the room changes. *)
Theorem initialize_stack_layout m lo top argv args envp es envs auxv
    (A := concat args) (E := concat envs) (X := default [] (aux_words <$> auxv)) :
  top mod 16 = 0 → mapped m lo top →
  Forall2 (argument m lo top) argv args → Forall2 (argument m lo top) es envs → environment envp es →
  (∀ l, auxv = Some l → (5 ≤ length l)%nat) → lo ≤ top - 80 - Z.of_nat (length E) - Z.of_nat (length A) - 8 →
  ∃ s m', initialize_stack top (Z.of_nat (length argv)) argv envp auxv m = Done (s, m') ∧ s mod 16 = 8 ∧
    stacked m lo top s
      (le64 (Z.of_nat (length argv)) ++ drop (length A mod 16) A ++ drop (length E mod 16) E ++ X) m'.
Proof.
  intros Ht Hm HA HE He Hx Hlo. unfold initialize_stack. rewrite (env_count_ok _ _ He), bind_done.
  assert (∃ a m1, match auxv with None => Done (top, m) | Some l => push_auxv l top m end = Done (a, m1) ∧
    stacked m lo top a X m1 ∧ a mod 16 = 0 ∧ top - 80 ≤ a) as (a & m1 & -> & Hs1 & Ha & Hge).
  { pose proof (stacked_start m lo top Hm) as Hs. destruct auxv as [l|]; [|exists top, m; split_and!; done || lia].
    destruct (stacked_auxv _ _ _ l _ _ _ Hs) as (m1 & -> & Hs1); [by apply Hx|lia|]. rewrite app_nil_r in Hs1.
    exists (top - 80), m1. split_and!; [done|done| |lia]. rewrite <- Zminus_mod_idemp_l, Ht. done. }
  rewrite bind_done. destruct (stacked_block m lo top (default [] envp) envs a X m1 (length es) Hs1 Ha) as (m2 & Ee & Hs2 & Ha2).
  { destruct He as [_ He], envp as [l|]; [destruct He as [rest ->]; cbn; by rewrite take_app_length|by subst]. }
  { destruct He as [_ He], envp as [l|]; [destruct He as [rest ->]; cbn; rewrite length_app; lia|by subst]. }
  { fold E. lia. }
  destruct (push_strs (length es) (default [] envp) a m1) as [[b n1]| | | |] eqn:Ep; try done.
  rewrite bind_done in Ee |- *. rewrite Ee, bind_done. clear Ep Ee.
  destruct (stacked_block m lo top argv args _ _ m2 (length argv) Hs2 Ha2) as (m3 & Ea & Hs3 & Ha3).
  { by rewrite firstn_all. }
  { done. }
  { fold A E. lia. }
  rewrite Nat2Z.id. destruct (push_strs (length argv) argv _ m2) as [[b' n2]| | | |] eqn:Ep; try done.
  rewrite bind_done in Ea |- *. rewrite Ea, bind_done. clear Ep Ea. fold A E in Hs3, Ha3 |- *.
  destruct (stacked_u64 _ _ _ _ _ _ (Z.of_nat (length argv)) Hs3) as (m4 & E4 & Hs4); [lia|]. rewrite E4.
  eexists _, _. split; [done|]. split; [|exact Hs4].
  rewrite <- Zminus_mod_idemp_l, Ha3. done.
Qed.

(** A task started with the arguments "sh" and "a-file-name.txt.": the first is not there. *)
Definition sh_chars : list Z := [115; 104].
Definition file_chars : list Z := [97; 45; 102; 105; 108; 101; 45; 110; 97; 109; 101; 46; 116; 120; 116; 46].
Definition sh_memory : bytes_mem :=
  write_bytes (mem_of 0x100 (sh_chars ++ 0 :: file_chars ++ [0])) 0x1000 (replicate 0x100 0xAA).

Lemma sh_strings : cstr sh_memory 0x100 sh_chars ∧ cstr sh_memory 0x103 file_chars.
Proof.
  assert (K : ∀ a l, (forallb (λ i, bool_decide (sh_memory !! (a + Z.of_nat i) = l !! i)) (seq 0 (length l)) = true) →
    Forall (λ b, 0 < b < 256) l → sh_memory !! (a + Z.of_nat (length l)) = Some 0 → cstr sh_memory a l).
  { intros a l Hb Hc He. split; [|done|done]. intros i x Hx.
    rewrite forallb_forall in Hb. specialize (Hb i). rewrite bool_decide_eq_true in Hb. rewrite Hb; [done|].
    apply in_seq. apply lookup_lt_Some in Hx. lia. }
  split; apply K; first [by vm_compute | repeat constructor; done].
Qed.

Lemma sh_room : mapped sh_memory 0x1000 0x1100.
Proof.
  intros a Ha. pose proof (write_bytes_inside (mem_of 0x100 (sh_chars ++ 0 :: file_chars ++ [0])) 0x1000 (replicate 0x100 0xAA)
    (Z.to_nat (a - 0x1000)) 0xAA) as K.
  rewrite Z2Nat.id in K by lia. replace (0x1000 + (a - 0x1000)) with a in K by lia.
  eexists. apply K. apply lookup_replicate_2. lia.
Qed.

Lemma initialize_stack_layout_witness :
  ∃ s m', initialize_stack 0x1100 2 [0x100; 0x103] None None sh_memory = Done (s, m') ∧ s mod 16 = 8 ∧
    stacked sh_memory 0x1000 0x1100 s (le64 2 ++ file_chars) m'.
Proof.
  destruct sh_strings as [H1 H2].
  apply (initialize_stack_layout sh_memory 0x1000 0x1100 [0x100; 0x103] [sh_chars; file_chars] None [] [] None).
  - done.
  - apply sh_room.
  - do 2 (constructor; [split_and!; [assumption|by vm_compute|left; by vm_compute]|]). constructor.
  - constructor.
  - done.
  - done.
  - vm_compute. done.
Defined.
