(* ===== verification/TaskCreate.v ===== *)
(** * Creating and starting tasks (src/src/sched/scheduler.c)

    [create_task] builds a task from the kernel heap, a copy of the address space, a stack and
    a context; [init_scheduler] creates the idle task and [go] hands the processor to the
    first task.  On top of the scheduler's state there are the bytes of memory (strings and
    stacks), the processor contexts of [Context] and the fields of a task the scheduler does
    not use.

    The services of other components are an interface: the copy of the address space
    ([duplicate_current_pml4] and [duplicate_current_kernel_pml4] of Paging), the search for a
    device (Devices) and [vfs_file_open] (Vfs), which works on the kernel heap too.  What
    memory holds before it is written ([junk], [stale_heap]) and the addresses of the image
    are parameters. *)
From Stdlib Require Import String.
From stdpp Require Import gmap.
From S2P Require Import Prelude Concurrency PageService Paging Pit Heap Scheduler CString Interrupts TaskStack.
#[local] Open Scope string_scope.
#[local] Open Scope Z_scope.

Definition KERNEL_STACK_SIZE : Z := 0x4000.
Definition USER_STACK_SIZE : Z := 0x4000.
Definition get_kernel_code_selector : Z := 1 * 8.
Definition get_kernel_data_selector : Z := 2 * 8.
Definition get_user_data_selector : Z := 4 * 8.
Definition get_user_code_selector : Z := 5 * 8.

(** The packed [struct task], its region aligned to sixteen bytes. *)
Definition SIZEOF_TASK : Z := 1120.
Definition STACK_TOP_OFFSET : Z := 16.
Definition FXSAVE_OFFSET : Z := 96.
Definition ALT_STACK_OFFSET : Z := 889.
Definition TTY_OFFSET : Z := 997.
Definition SIZEOF_CPU_CONTEXT : Z := 192.
Definition SIZEOF_CONTEXT_INFO : Z := 32.

Class TaskServices (P F : Type) `{PageService P} := {
  (** [duplicate_current_pml4()], or its kernel half *)
  sv_duplicate : bool → P → outcome (Z * P);
  (** [device_search(name) != 0] *)
  sv_device_search : list Z → F → outcome bool;
  (** [vfs_file_open(path, flags, mode)] *)
  sv_file_open : list Z → Z → Z → F → kernel (P := P) → outcome (Z * F * kernel (P := P));
}.

(** Addresses of the image. *)
Record image := { returnoexit : Z; userspace_trampoline : Z; idle : Z; default_name : Z; io_tty_addr : Z }.

(** The fields of a task that only its creation and the terminals use.  The two names lie one
    behind the other. *)
Record task_more := More {
  t_cs : Z; t_ds : Z; t_heap : Z; t_open_files : Z; t_names : list Z; t_tty : tty_name;
}.

Section create.
Context {P F : Type} `{TaskServices P F} (img : image) (junk : Z → Z) (stale_heap : heap).

Record tworld := TW {
  tsched : sched P;
  tbytes : bytes_mem;
  tcontexts : gmap Z (list Z);        (** the words of each [cpu_context] *)
  tinfos : gmap Z (list Z);           (** of each [cpu_context_info] *)
  topen : gmap Z (list Z);            (** the arrays of open files *)
  tmore : gmap Z task_more;
  tuheaps : gmap Z heap;              (** the heaps of user tasks *)
  tfpu : Z;                           (** the floating point state *)
  tfxareas : gmap Z Z;
  tfiles : F;
  boot_task : Z;
}.
Implicit Types w : tworld.

Definition with_tsched x w := TW x (tbytes w) (tcontexts w) (tinfos w) (topen w) (tmore w) (tuheaps w) (tfpu w) (tfxareas w) (tfiles w) (boot_task w).
Definition with_tbytes x w := TW (tsched w) x (tcontexts w) (tinfos w) (topen w) (tmore w) (tuheaps w) (tfpu w) (tfxareas w) (tfiles w) (boot_task w).
Definition with_tcontexts x w := TW (tsched w) (tbytes w) x (tinfos w) (topen w) (tmore w) (tuheaps w) (tfpu w) (tfxareas w) (tfiles w) (boot_task w).
Definition with_tinfos x w := TW (tsched w) (tbytes w) (tcontexts w) x (topen w) (tmore w) (tuheaps w) (tfpu w) (tfxareas w) (tfiles w) (boot_task w).
Definition with_topen x w := TW (tsched w) (tbytes w) (tcontexts w) (tinfos w) x (tmore w) (tuheaps w) (tfpu w) (tfxareas w) (tfiles w) (boot_task w).
Definition with_tmore x w := TW (tsched w) (tbytes w) (tcontexts w) (tinfos w) (topen w) x (tuheaps w) (tfpu w) (tfxareas w) (tfiles w) (boot_task w).
Definition with_tuheaps x w := TW (tsched w) (tbytes w) (tcontexts w) (tinfos w) (topen w) (tmore w) x (tfpu w) (tfxareas w) (tfiles w) (boot_task w).
Definition with_tfxareas x w := TW (tsched w) (tbytes w) (tcontexts w) (tinfos w) (topen w) (tmore w) (tuheaps w) (tfpu w) x (tfiles w) (boot_task w).
Definition with_tfiles x w := TW (tsched w) (tbytes w) (tcontexts w) (tinfos w) (topen w) (tmore w) (tuheaps w) (tfpu w) (tfxareas w) x (boot_task w).
Definition with_boot_task x w := TW (tsched w) (tbytes w) (tcontexts w) (tinfos w) (topen w) (tmore w) (tuheaps w) (tfpu w) (tfxareas w) (tfiles w) x.

Definition tkern w : kernel (P := P) := kern (tsched w).
Definition with_tkern (k : kernel (P := P)) w := with_tsched (with_signals (signals (tsched w)) k (tsched w)) w.
Definition with_tmemory (s : kst P) w :=
  let k := tkern w in with_tkern (with_global (kcpu k) s (kernelGlobalHeap k) k) w.
Definition tpages w : P := pages (kmemory (tkern w)).
Definition with_tpages (p : P) w := with_tmemory (Build_kst (mem (kmemory (tkern w))) p) w.

(** ** Memory *)
(** The block is written field by field at once: a null pointer faults. *)
Definition task_kmalloc (size : Z) w : outcome (Z * tworld) :=
  '(a, k) ← kmalloc size (tkern w);
  if a =? 0 then Fault else Done (a, with_tkern k w).

(** What a range holds before it is written. *)
Definition fresh_bytes (a n : Z) : list Z := (λ i, u8 (junk i)) <$> seqZ a n.
Definition junk64 (a : Z) : Z := le_value (fresh_bytes a 8).

(** The pages of a new stack can be read and written. *)
Definition fresh_stack (a n : Z) w : tworld := with_tbytes (write_bytes (tbytes w) a (fresh_bytes a n)) w.

Definition task_kstackalloc (n : Z) w : outcome (Z * tworld) :=
  '(a, k) ← kstackalloc n (tkern w);
  Done (a, fresh_stack a n (with_tkern k w)).

Definition get_new_pd (privilege : Z) w : outcome (Z * tworld) :=
  '(pd, p) ← sv_duplicate (F := F) (privilege =? KERNEL_TASK) (tpages w);
  Done (FROM_KERNEL_MAP pd, with_tpages p w).

(** ** The context *)
Definition new_context (pd info init cs rsp ss : Z) : list Z :=
  [pd; info; 2; 3; 4; 5; 6; 7; 8; 9; 10; 11; 12; 13; 14; 15; 16; 0; 0; init; cs; 0x202; rsp; ss].

(** Returns the context and the top of the stack. *)
Definition initialize_context (t privilege pd cs ds stack_top init argc : Z) (argv : list Z)
    (envp : option (list Z)) (auxv : option (list (Z * Z))) w : outcome (Z * Z * tworld) :=
  '(top, m) ← initialize_stack stack_top argc argv envp auxv (tbytes w);
  '(top, m) ←
    (if privilege =? KERNEL_TASK then newctxcreat (returnoexit img) init top m
     else newuctxcreat (returnoexit img) (userspace_trampoline img) init (t + STACK_TOP_OFFSET) top m);
  let w := with_tbytes m w in
  '(context, w) ← task_kmalloc SIZEOF_CPU_CONTEXT w;
  '(info, w) ← task_kmalloc SIZEOF_CONTEXT_INFO w;
  '(stack, w) ← task_kstackalloc KERNEL_STACK_SIZE w;
  let w := with_tinfos (<[info := [u64 (stack + KERNEL_STACK_SIZE); cs; ds; 0]]> (tinfos w)) w in
  let w := with_tcontexts (<[context := new_context pd info init cs top ds]> (tcontexts w)) w in
  let w := with_tfxareas (<[t + FXSAVE_OFFSET := tfpu w]> (tfxareas w)) w in
  Done (context, top, w).

(** ** The terminal *)
(** The characters of a string. *)
Definition read_str (a : Z) (m : bytes_mem) : outcome (list Z) :=
  n ← strlen a m;
  mapM (λ i, byte_at m (a + i)) (seqZ 0 n).

(** [strncpy(names + off, s, strlen(s))]: the two names have 64 bytes. *)
Definition copy_name (off : nat) (s names : list Z) : outcome (list Z) :=
  if (64 <? off + length s + 1)%nat then Fault
  else Done (take off names ++ s ++ 0 :: drop (off + length s + 1) names)%list.

(** The three standard descriptors, when the terminal is a device that can be opened.  The path
    is built in a buffer of 256 characters. *)
Definition open_tty (tty : Z) (files : list Z) w : outcome (list Z * tworld) :=
  if tty =? 0 then Done (files, w) else
  name ← read_str tty (tbytes w);
  dev ← sv_device_search name (tfiles w);
  if negb dev then Done (files, w) else
  if (256 <? length name + 4)%nat then Fault else
  '(fd, f, k) ← sv_file_open (name ++ [112; 48; 47])%list 0 0 (tfiles w) (tkern w);
  let w := with_tfiles f (with_tkern k w) in
  let fd := s32 fd in
  if fd =? -1 then Done (<[0%nat := fd]> files, w)
  else Done (<[2%nat := fd]> (<[1%nat := fd]> (<[0%nat := fd]> files)), w).

(** ** The task *)
(** The stack and the context of a kernel task: the address space, the lowest and the initial
    address of the stack, the context. *)
Record task_frame := Frame { fr_pd : Z; fr_base : Z; fr_top : Z; fr_alt_base : Z; fr_alt_top : Z; fr_context : Z; fr_heap : Z; fr_cs : Z; fr_ds : Z }.

Definition kernel_frame (t init argc : Z) (argv : list Z) (envp : option (list Z)) (auxv : option (list (Z * Z)))
    (startup_pd : Z) w : outcome (task_frame * tworld) :=
  '(pd, w) ← (if startup_pd =? 0 then get_new_pd KERNEL_TASK w else Done (startup_pd, w));
  '(base, w) ← task_kstackalloc KERNEL_STACK_SIZE w;
  let cs := get_kernel_code_selector in
  let ds := get_kernel_data_selector in
  '(context, top, w) ← initialize_context t KERNEL_TASK pd cs ds (u64 (base + KERNEL_STACK_SIZE)) init argc argv envp auxv w;
  Done (Frame pd base top (junk64 (t + ALT_STACK_OFFSET)) (junk64 (t + ALT_STACK_OFFSET + 8)) context 0 cs ds, w).

Definition user_frame (t privilege init argc : Z) (argv : list Z) (envp : option (list Z)) (auxv : option (list (Z * Z)))
    (startup_pd : Z) w : outcome (task_frame * tworld) :=
  '(pd, w) ← (if startup_pd =? 0 then get_new_pd USER_TASK w else Done (startup_pd, w));
  '(page, p) ← ps_request_page (tpages w);
  let w := with_tpages p w in
  let hp := TO_KERNEL_MAP page in
  '(h, s) ← create_user_heap pd stale_heap (kmemory (tkern w));
  let w := with_tmemory s w in
  '(base, c, h, s) ← ustackalloc pd USER_STACK_SIZE (kcpu (tkern w)) h (kmemory (tkern w));
  let k := tkern w in
  let w := with_tuheaps (<[hp := h]> (tuheaps w)) (with_tkern (with_global c s (kernelGlobalHeap k) k) w) in
  let w := fresh_stack base USER_STACK_SIZE w in
  '(alt, w) ← task_kstackalloc KERNEL_STACK_SIZE w;
  let cs := get_user_code_selector in
  let ds := get_user_data_selector in
  '(context, top, w) ← initialize_context t privilege pd cs ds (u64 (base + USER_STACK_SIZE)) init argc argv envp auxv w;
  Done (Frame pd base top alt (u64 (alt + KERNEL_STACK_SIZE)) context hp cs ds, w).

Definition create_task (init_func tty privilege argc : Z) (argv : list Z) (envp : option (list Z))
    (auxv : option (list (Z * Z))) (startup_pd : Z) w : outcome (Z * tworld) :=
  let w := with_tsched (lock_scheduler (tsched w)) w in
  '(t, w) ← task_kmalloc SIZEOF_TASK w;
  let cur := get_current_task (tsched w) in
  pp ← (if cur =? 0 then Done (0, t) else p ← get_task_at (tsched w) cur; Done (pid p, cur));
  n ← get_free_pid (tsched w);
  '(files, w) ← task_kmalloc (4 * 32) w;
  '(fds, w) ← open_tty tty (replicate 32 (-1)) w;
  let w := with_topen (<[files := fds]> (topen w)) w in
  '(fr, w) ← (if privilege =? KERNEL_TASK then kernel_frame t init_func argc argv envp auxv startup_pd w
              else user_frame t privilege init_func argc argv envp auxv startup_pd w);
  name ← read_str tty (tbytes w);
  names ← copy_name 0 name (fresh_bytes (t + TTY_OFFSET) 64);
  io ← read_str (io_tty_addr img) (tbytes w);
  names ← copy_name 32 io names;
  let st :=
    {| Scheduler.privilege := privilege; processor := 0; context := fr_context fr; stack_base := fr_base fr;
       stack_top := fr_top fr; alt_stack_base := fr_alt_base fr; alt_stack_top := fr_alt_top fr;
       fxsave_region := t + FXSAVE_OFFSET; task_pd := fr_pd fr; ppid := pp.1; parent := pp.2; entry := init_func |} in
  let x :=
    {| state := TASK_READY; pid := n; exit_code := 0; exit_signal := 0; signal_queue := 0;
       signal_handlers := replicate (Z.to_nat TASK_SIGNAL_MAX) 0; cpu_time := 0; last_scheduled := 0;
       task_next := 0; task_prev := 0; static := st |} in
  let w := with_tmore (<[t := More (fr_cs fr) (fr_ds fr) (fr_heap fr) files names regular_tty]> (tmore w)) w in
  let s := with_tasks (<[t := x]> (tasks (tsched w))) (tsched w) in
  Done (t, with_tsched (unlock_scheduler s) w).

(** ** Starting *)
Definition init_scheduler w : outcome tworld :=
  let w := with_tsched (lock_scheduler (tsched w)) w in
  '(t, w) ← create_task (idle img) (default_name img) KERNEL_TASK 0 [] None None 0 w;
  s ← upd_task t (λ x, with_state TASK_IDLE (with_pid 0 x)) (tsched w);
  s ← add_task t s;
  let s := with_current (task_head s) s in
  Done (with_tsched (unlock_scheduler s) w).

Definition go (preempt : Z) w : outcome tworld :=
  if negb (scheduler_ready (tsched w) =? 0) then Panic "Scheduler already running" else
  '(b, w) ← task_kmalloc SIZEOF_TASK w;
  let w := with_boot_task b w in
  '(context, w) ← task_kmalloc SIZEOF_CPU_CONTEXT w;
  '(info, w) ← task_kmalloc SIZEOF_CONTEXT_INFO w;
  let w := with_tinfos (<[info := replicate 4 0]> (tinfos w)) w in
  let w := with_tcontexts (<[context := <[1%nat := info]> (replicate 24 0)]> (tcontexts w)) w in
  let s := tsched w in
  let s := if preempt =? 0 then s else with_timer (enable_preemption (set_preeption_ticks preempt (timer s))) s in
  '(_, s) ← schedule s;
  let s := with_gs (gs_base s) context s in
  s ← load_task s;
  let s := with_ready 1 s in
  t ← get_task_at s (current_task s);
  Done (with_tsched (log (Switch context (Scheduler.context (static t)) (b + FXSAVE_OFFSET) (fxsave_region (static t))) s) w).

(** ** The terminal of the current task *)
Definition upd_names (t : Z) (f : list Z → outcome (list Z)) w : outcome tworld :=
  x ← known (tmore w !! t);
  names ← f (t_names x);
  Done (with_tmore (<[t := More (t_cs x) (t_ds x) (t_heap x) (t_open_files x) names (t_tty x)]> (tmore w)) w).

Definition set_current_tty (tty : Z) w : outcome tworld :=
  let w := with_tsched (lock_scheduler (tsched w)) w in
  w ← (if current_task (tsched w) =? 0 then Done w else
       name ← read_str tty (tbytes w);
       upd_names (current_task (tsched w)) (λ l, copy_name 0 name (replicate 32 0 ++ drop 32 l)%list) w);
  Done (with_tsched (unlock_scheduler (tsched w)) w).

Definition reset_current_tty w : outcome tworld :=
  let w := with_tsched (lock_scheduler (tsched w)) w in
  w ← (if current_task (tsched w) =? 0 then Done w else
       upd_names (current_task (tsched w))
         (λ l, copy_name 0 [100; 101; 102; 97; 117; 108; 116] (replicate 32 0 ++ drop 32 l)%list) w);
  Done (with_tsched (unlock_scheduler (tsched w)) w).

(** The name the task's [tty] points to; without a task the default. *)
Definition get_current_tty w : outcome (option (list Z)) :=
  if current_task (tsched w) =? 0 then Done None else
  x ← known (tmore w !! current_task (tsched w));
  Done (Some (match t_tty x with regular_tty => take 32 (t_names x) | io_tty => drop 32 (t_names x) end)).
End create.
