(* ===== verification/TaskCreateSpec.v ===== *)
(** * A created task starts at its entry

    What [create_task] establishes for a kernel task: the task, its context and its stack fit
    together, so that the first switch to it enters its function in its address space. *)
From stdpp Require Import gmap.
From S2P Require Import Prelude Dll Concurrency PageAlloc PageService Paging PagingSpec PagingCopy Pit Heap HeapInv HeapGrow HeapSpec Alloc KernelHeap KernelStack Scheduler SchedulerSpec TaskSpec CString Interrupts Context TaskStack TaskCreate.
#[local] Open Scope Z_scope.

Abbreviation last_stack k := (lastStack (kernelGlobalHeap k)).

(** What the services promise: they return or panic, keep the pages and the heap well formed,
    keep the blocks that are in use and leave the stacks alone. *)
Class TaskServicesOk (P F : Type) `{PageService P} `{!PageServiceOk P} `{!TaskServices P F} := {
  fs_ok : F → Prop;
  sv_duplicate_ok b T (p : P) :
    ps_ok T p → returns_or_panics (sv_duplicate (F := F) b p) ∧
    ∀ a p', sv_duplicate (F := F) b p = Done (a, p') → ps_ok T p';
  sv_device_search_ok name (f : F) : fs_ok f → returns_or_panics (sv_device_search (P := P) name f);
  sv_file_open_ok path flags mode (f : F) (k : kernel (P := P)) L :
    fs_ok f → blocks_ready kernelGlobalHeap L k → stacks_ready k →
    returns_or_panics (sv_file_open path flags mode f k) ∧
    ∀ fd f' k', sv_file_open path flags mode f k = Done (fd, f', k') →
      fs_ok f' ∧ (∃ L', L ⊆ L' ∧ blocks_ready kernelGlobalHeap L' k') ∧ stacks_ready k' ∧ last_stack k' = last_stack k;
}.

Section spec.
Context {P F : Type} `{TaskServicesOk P F} (img : image) (junk : Z → Z) (stale_heap : heap).
Implicit Types w : tworld (P := P) (F := F).
Implicit Types k : kernel (P := P).

(** The heap serves blocks and stacks; [L] are blocks in use. *)
Record serves (L : gset Z) (top : Z) k : Prop := {
  sv_blocks : blocks_ready kernelGlobalHeap L k;
  sv_stacks : stacks_ready k;
  sv_top : last_stack k = top;
}.

Lemma kmalloc_serves size L top k :
  serves L top k → 0 < size < 2 ^ 32 →
  returns_or_panics (kmalloc size k) ∧
  ∀ a k', kmalloc size k = Done (a, k') → (a ∉ L) ∧ a ≠ 0 ∧ serves ({[a]} ∪ L) top k'.
Proof.
  intros [Hb Hs Ht] Hsize.
  destruct (@al_malloc_ok _ _ kmalloc_allocator_ok L size k Hb Hsize) as [Hret Hpost].
  split; [exact Hret|]. intros a k' E. destruct (Hpost a k' E) as [Hn Hb'].
  destruct (kmalloc_stacks size k a k' E) as [El Et]. split; [exact Hn|]. split.
  - apply (@al_nonnull _ _ kmalloc_allocator_ok ({[a]} ∪ L) k' a Hb'). set_solver.
  - split; [exact Hb'|by unfold stacks_ready; rewrite El|congruence].
Qed.

Lemma task_kmalloc_ok size L top w :
  serves L top (tkern w) → 0 < size < 2 ^ 32 →
  returns_or_panics (task_kmalloc size w) ∧
  ∀ x, task_kmalloc size w = Done x →
    ∃ k, x.2 = with_tkern k w ∧ (x.1 ∉ L) ∧ x.1 ≠ 0 ∧ serves ({[x.1]} ∪ L) top k.
Proof.
  intros Hs Hsize. destruct (kmalloc_serves size L top _ Hs Hsize) as [Hret Hpost]. unfold task_kmalloc.
  apply (rop_bind (λ x, (x.1 ∉ L) ∧ x.1 ≠ 0 ∧ serves ({[x.1]} ∪ L) top x.2)); [done|by intros [a k]; apply Hpost|].
  intros [a k] (Hn & Hz & Hs'). cbn in Hn, Hz, Hs'. rewrite (proj2 (Z.eqb_neq a 0) Hz).
  split; [apply rop_done|]. intros x [= <-]. by exists k.
Qed.

Lemma task_kstackalloc_ok L top w :
  serves L top (tkern w) → 0x5000 ≤ top < 2 ^ 64 →
  returns_or_panics (task_kstackalloc junk KERNEL_STACK_SIZE w) ∧
  ∀ x, task_kstackalloc junk KERNEL_STACK_SIZE w = Done x →
    ∃ k, x = (top - 0x4000, fresh_stack junk (top - 0x4000) 0x4000 (with_tkern k w)) ∧ serves L (top - 0x5000) k.
Proof.
  intros [Hb Hs Ht] Htop. destruct (kstackalloc_ok KERNEL_STACK_SIZE L (tkern w) Hb Hs) as [Hret Hpost]; [done|done|].
  unfold task_kstackalloc.
  apply (rop_bind (λ x, x.1 = top - 0x4000 ∧ serves L (top - 0x5000) x.2)); [done| |].
  - intros [a k] E. destruct (Hpost a k E) as (Hb' & Hs' & _ & Hr).
    destruct Hr as [-> Hl]; [unfold KERNEL_STACK_SIZE, PAGESIZE; lia|]. unfold KERNEL_STACK_SIZE, PAGESIZE in *. cbn.
    split; [lia|]. split; [done|done|lia].
  - intros [a k] [Ha Hk]. cbn in Ha, Hk. subst a. split; [apply rop_done|]. intros x [= <-]. by exists k.
Qed.

Lemma get_new_pd_ok v L top w :
  serves L top (tkern w) →
  returns_or_panics (get_new_pd v w) ∧
  ∀ x, get_new_pd v w = Done x → ∃ k, x.2 = with_tkern k w ∧ serves L top k.
Proof.
  intros [(b & (Hm & Hp & Hi) & ->) Hs Ht]. unfold get_new_pd.
  destruct (sv_duplicate_ok (v =? KERNEL_TASK) [] (tpages w) Hp) as [Hret Hpost].
  apply (rop_bind (λ x, ps_ok [] x.2)); [done|intros [a p]; apply Hpost|].
  intros [a p] Hp'. cbn in Hp'. split; [apply rop_done|]. intros x [= <-]. cbn [snd]. eexists. split; [reflexivity|].
  split; [|done|done]. exists b. split; [|done]. by split_and!.
Qed.

(** ** Strings *)
Lemma read_str_ok m a l : cstr m a l → Z.of_nat (length l) < STR_MAX_SIZE → read_str a m = Done l.
Proof.
  intros Hc Hl. unfold read_str. rewrite (strlen_ok m a l Hc Hl), bind_done. pose proof (cs_bytes _ _ _ Hc) as Hb.
  assert (K : ∀ j q, (∀ i b, q !! i = Some b → m !! (a + j + Z.of_nat i) = Some b) →
    mapM (λ i, byte_at m (a + i)) (seqZ j (Z.of_nat (length q))) = Done q).
  { intros j q. revert j. induction q as [|b q IH]; intros j Hq; [done|]. cbn [length].
    rewrite seqZ_cons by lia. replace (Z.pred (Z.of_nat (S (length q)))) with (Z.of_nat (length q)) by lia.
    specialize (Hq 0%nat b eq_refl) as Hb0. rewrite Z.add_0_r in Hb0.
    assert (byte_at m (a + j) = Done b) as E by (unfold byte_at; by rewrite Hb0).
    cbn [mapM]. rewrite E, bind_done. rewrite (IH (Z.succ j)), bind_done; [done|].
    intros i x Hx. rewrite <- (Hq (S i) x Hx). f_equal. lia. }
  apply K. intros i b Hi. rewrite Z.add_0_r. by apply Hb.
Qed.

Lemma open_tty_ok tty name files L top w :
  serves L top (tkern w) → fs_ok (tfiles w) → cstr (tbytes w) tty name → (length name < 64)%nat →
  returns_or_panics (open_tty tty files w) ∧
  ∀ x, open_tty tty files w = Done x →
    ∃ f k L', x.2 = with_tfiles f (with_tkern k w) ∧ L ⊆ L' ∧ serves L' top k ∧ fs_ok f.
Proof.
  intros [Hb Hs Ht] Hf Hc Hn. assert (Hid : w = with_tfiles (tfiles w) (with_tkern (tkern w) w)).
  { unfold with_tkern, with_tsched, with_tfiles, tkern. destruct w as [[] ? ? ? ? ? ? ? ? ? ?]. done. }
  assert (Hsame : ∀ y : list Z, returns_or_panics (Done (y, w)) ∧ ∀ x, Done (y, w) = Done x →
    ∃ f k L', x.2 = with_tfiles f (with_tkern k w) ∧ L ⊆ L' ∧ serves L' top k ∧ fs_ok f).
  { intros y. split; [apply rop_done|]. intros x [= <-]. by exists (tfiles w), (tkern w), L. }
  unfold open_tty. case_match; [apply Hsame|].
  rewrite (read_str_ok _ _ _ Hc) by (unfold STR_MAX_SIZE; lia). rewrite bind_done.
  apply (rop_bind (λ _, True)); [by apply sv_device_search_ok|done|]. intros [|] _; [|apply Hsame]. cbn [negb].
  destruct (Nat.ltb_spec 256 (length name + 4)); [lia|].
  destruct (sv_file_open_ok (name ++ [112; 48; 47])%list 0 0 (tfiles w) (tkern w) L Hf Hb Hs) as [Hret Hpost].
  apply (rop_bind (λ x, fs_ok x.1.2 ∧ ∃ L', L ⊆ L' ∧ serves L' top x.2)); [done| |].
  - intros [[fd f'] k'] E. destruct (Hpost fd f' k' E) as (Hf' & (L' & Hs' & Hb') & Hst & Hl). split; [done|].
    exists L'. split; [done|]. split; [done|done|cbn; congruence].
  - intros [[fd f'] k'] (Hf' & L' & HL & Hs'). cbn in Hf', Hs'.
    case_match; (split; [apply rop_done|]; intros x [= <-]; by exists f', k', L').
Qed.

Lemma copy_name_ok off s names : (off + length s < 64)%nat → returns_or_panics (copy_name off s names).
Proof. intros Hl. unfold copy_name. destruct (Nat.ltb_spec 64 (off + length s + 1)); [lia|]. apply rop_done. Qed.

(** ** The stack and the context *)

(** What is on the stack of a new kernel task. *)
Definition first_stack (init argc : Z) (args envs : list (list Z)) (auxv : option (list (Z * Z))) : list Z :=
  (le64 init ++ le64 0 ++ le64 (returnoexit img) ++ le64 argc ++
   drop (length (concat args) mod 16) (concat args) ++ drop (length (concat envs) mod 16) (concat envs) ++
   default [] (aux_words <$> auxv))%list.

(** The arguments of a task: strings that are not where the stacks go. *)
Record arguments (m : bytes_mem) (lo top : Z) argv args envp envs (auxv : option (list (Z * Z))) : Prop := {
  ar_argv : Forall2 (argument m lo top) argv args;
  ar_envp : ∃ es, Forall2 (argument m lo top) es envs ∧ environment envp es;
  ar_auxv : ∀ l, auxv = Some l → (5 ≤ length l)%nat;
  ar_room : 80 + Z.of_nat (length (concat envs)) + Z.of_nat (length (concat args)) + 32 ≤ 0x4000;
}.

Lemma arguments_frame m m' lo top lo' top' argv args envp envs auxv :
  (∀ b, ¬ (lo ≤ b < top) → m' !! b = m !! b) → lo ≤ lo' → top' ≤ top →
  arguments m lo top argv args envp envs auxv → arguments m' lo' top' argv args envp envs auxv.
Proof.
  intros Hm Hlo Htop [Ha (es & He & Hen) Hx Hr].
  assert (K : ∀ s str, argument m lo top s str → argument m' lo' top' s str).
  { intros s str (Hc & Hl & Hd). split_and!; [|done|lia]. eapply cstr_frame, Hc. intros b Hb. apply Hm. lia. }
  split; [by eapply Forall2_impl|exists es; split; [by eapply Forall2_impl|done]|done|done].
Qed.

Lemma kernel_stack_ok m lo argv args envp envs auxv init :
  lo mod 16 = 0 → mapped m lo (lo + 0x4000) → arguments m lo (lo + 0x4000) argv args envp envs auxv →
  ∃ s m', ('(top, m) ← initialize_stack (lo + 0x4000) (Z.of_nat (length argv)) argv envp auxv m;
           newctxcreat (returnoexit img) init top m) = Done (s, m') ∧ s mod 16 = 0 ∧ lo ≤ s ∧
    stacked m lo (lo + 0x4000) s (first_stack init (Z.of_nat (length argv)) args envs auxv) m'.
Proof.
  intros Hal Hm [Ha (es & He & Hen) Hx Hr].
  destruct (initialize_stack_layout m lo (lo + 0x4000) argv args envp es envs auxv) as (s & m1 & -> & Hs16 & Hs); try done.
  { rewrite Zplus_mod, Hal. done. }
  { lia. }
  rewrite bind_done. unfold newctxcreat. pose proof (stk_top _ _ _ _ _ _ Hs) as Htop.
  assert (Hlen : Z.of_nat (length (le64 (Z.of_nat (length argv)) ++ drop (length (concat args) mod 16) (concat args) ++
    drop (length (concat envs) mod 16) (concat envs) ++ default [] (aux_words <$> auxv))) ≤
    8 + Z.of_nat (length (concat args)) + Z.of_nat (length (concat envs)) + 80).
  { rewrite !length_app, !length_drop. change (length (le64 _)) with 8%nat.
    assert (length (default [] (aux_words <$> auxv)) ≤ 80)%nat; [|lia].
    destruct auxv as [l|]; [|cbn; lia]. cbn. specialize (Hx l eq_refl).
    destruct l as [|[] [|[] [|[] [|[] [|[] l]]]]]; cbn in Hx; try lia. done. }
  destruct (stacked_u64 _ _ _ _ _ _ (returnoexit img) Hs) as (m2 & -> & H2); [lia|]. rewrite bind_done.
  destruct (stacked_u64 _ _ _ _ _ _ 0 H2) as (m3 & -> & H3); [lia|]. rewrite bind_done.
  destruct (stacked_u64 _ _ _ _ _ _ init H3) as (m4 & -> & H4); [lia|].
  exists (s - 8 - 8 - 8), m4. split_and!; [done| |lia|exact H4].
  replace (s - 8 - 8 - 8) with (s - 24) by lia. rewrite Zminus_mod, Hs16. done.
Qed.

(** The memory outside of the two new stacks. *)
Lemma fresh_out m a n b :
  ¬ (a ≤ b < a + n) → 0 ≤ n → write_bytes m a (fresh_bytes junk a n) !! b = m !! b.
Proof. intros Hb Hn. unfold fresh_bytes. apply write_bytes_outside. rewrite length_fmap, length_seqZ. lia. Qed.

Lemma fresh_stack_mapped a n w : mapped (tbytes (fresh_stack junk a n w)) a (a + n).
Proof.
  intros b Hb. cbn [tbytes fresh_stack with_tbytes]. pose proof (write_bytes_inside (tbytes w) a (fresh_bytes junk a n) (Z.to_nat (b - a))) as K.
  rewrite Z2Nat.id in K by lia. replace (a + (b - a)) with b in K by lia. eexists. apply K.
  unfold fresh_bytes. rewrite list_lookup_fmap, lookup_seqZ_lt by lia. done.
Qed.

(** What the creation of the frame of a kernel task establishes, from a world whose stacks end at
    [top]: the two stacks are below it, one page apart. *)
Record framed (init : Z) (argv : list Z) args envs auxv (L : gset Z) (top : Z) w (fr : task_frame) w' : Prop := {
  fd_kernel : ∃ k L', tsched w' = tsched (with_tkern k w) ∧ L ⊆ L' ∧ serves L' (top - 0xA000) k ∧ fr_context fr ∈ L';
  fd_context : (fr_context fr ∉ L) ∧ ∃ info, tcontexts w' =
    <[fr_context fr := new_context (fr_pd fr) info init (fr_cs fr) (fr_top fr) (fr_ds fr)]> (tcontexts w);
  fd_stack : holds_bytes (tbytes w') (fr_top fr) (first_stack init (Z.of_nat (length argv)) args envs auxv) ∧
    fr_top fr + Z.of_nat (length (first_stack init (Z.of_nat (length argv)) args envs auxv)) = top ∧
    fr_top fr mod 16 = 0 ∧ fr_base fr = top - 0x4000;
  fd_bytes b : ¬ (top - 0x9000 ≤ b < top) → tbytes w' !! b = tbytes w !! b;
  fd_rest : tmore w' = tmore w ∧ topen w' = topen w ∧ tfiles w' = tfiles w;
}.

Lemma initialize_context_ok t pd cs ds init argv args envp envs auxv L top w
    (lo := top - 0x4000) :
  serves L (top - 0x5000) (tkern w) → 0xA000 ≤ top < 2 ^ 64 → top mod 16 = 0 →
  mapped (tbytes w) lo top → arguments (tbytes w) lo top argv args envp envs auxv →
  let o := initialize_context img junk t KERNEL_TASK pd cs ds top init (Z.of_nat (length argv)) argv envp auxv w in
  returns_or_panics o ∧ ∀ x, o = Done x →
    framed init argv args envs auxv L top w (Frame pd lo x.1.2 (junk64 junk (t + ALT_STACK_OFFSET))
      (junk64 junk (t + ALT_STACK_OFFSET + 8)) x.1.1 0 cs ds) x.2.
Proof.
  intros Hs Htop Hal Hm Ha. cbn zeta. unfold initialize_context.
  assert (Elo : lo + 0x4000 = top) by (unfold lo; lia).
  destruct (kernel_stack_ok (tbytes w) lo argv args envp envs auxv init) as (s & m' & E & Hs16 & Hlo & Hst).
  { unfold lo. rewrite Zminus_mod, Hal. done. }
  { by rewrite Elo. }
  { by rewrite Elo. }
  rewrite Elo in E, Hst.
  destruct (initialize_stack top (Z.of_nat (length argv)) argv envp auxv (tbytes w)) as [[s1 m1]| | | |] eqn:E1; try done.
  rewrite bind_done in E. rewrite bind_done. change (KERNEL_TASK =? KERNEL_TASK) with true. cbv iota. rewrite E, bind_done. clear E E1.
  destruct (task_kmalloc_ok SIZEOF_CPU_CONTEXT L (top - 0x5000) (with_tbytes m' w) Hs) as [Hr1 Hp1]; [done|].
  apply (rop_bind _ _ _ _ Hr1 Hp1). intros [c w1] (k1 & Ew & Hc & Hc0 & Hs1). cbn [fst snd] in *. subst w1.
  destruct (task_kmalloc_ok SIZEOF_CONTEXT_INFO ({[c]} ∪ L) (top - 0x5000) (with_tkern k1 (with_tbytes m' w)) Hs1) as [Hr2 Hp2]; [done|].
  apply (rop_bind _ _ _ _ Hr2 Hp2). intros [i w2] (k2 & Ew & Hi & Hi0 & Hs2). cbn [fst snd] in *. subst w2.
  destruct (task_kstackalloc_ok ({[i]} ∪ ({[c]} ∪ L)) (top - 0x5000) (with_tkern k2 (with_tkern k1 (with_tbytes m' w))) Hs2)
    as [Hr3 Hp3]; [lia|].
  apply (rop_bind _ _ _ _ Hr3 Hp3). intros [ks w3] (k3 & [= -> ->] & Hs3).
  split; [apply rop_done|]. intros x [= <-]. cbn [fst snd]. split; cbn [fr_context fr_pd fr_cs fr_top fr_ds fr_base].
  - exists k3, ({[i]} ∪ ({[c]} ∪ L)). split.
    { cbn [tsched with_tfxareas with_tcontexts with_tinfos fresh_stack with_tbytes with_tkern with_tsched]. reflexivity. }
    split; [set_solver|]. split; [|set_solver].
    replace (top - 0xA000) with (top - 0x5000 - 0x5000) by lia. done.
  - split; [done|]. exists i. done.
  - split_and!; [|apply Hst|done|done]. intros j b Hj. pose proof (stk_holds _ _ _ _ _ _ Hst j b Hj) as Hb.
    apply lookup_lt_Some in Hj.
    cbn [tbytes with_tfxareas with_tcontexts with_tinfos fresh_stack with_tbytes with_tkern with_tsched].
    rewrite fresh_out by (unfold lo in *; lia). exact Hb.
  - intros b Hb. cbn [tbytes with_tfxareas with_tcontexts with_tinfos fresh_stack with_tbytes with_tkern with_tsched].
    rewrite fresh_out by lia. apply (stk_out _ _ _ _ _ _ Hst). unfold lo. lia.
  - done.
Qed.

Ltac wcbn := cbn [tsched tbytes tcontexts tfiles tmore topen with_tfxareas with_tcontexts with_tinfos with_topen with_tfiles with_tmore fresh_stack with_tbytes with_tkern with_tsched].

Lemma kernel_frame_ok t init argv args envp envs auxv startup_pd L top w :
  serves L top (tkern w) → 0xA000 ≤ top < 2 ^ 64 → top mod PAGESIZE = 0 →
  arguments (tbytes w) (top - 0x9000) top argv args envp envs auxv →
  let o := kernel_frame img junk t init (Z.of_nat (length argv)) argv envp auxv startup_pd w in
  returns_or_panics o ∧ ∀ x, o = Done x →
    framed init argv args envs auxv L top w x.1 x.2 ∧ fr_base x.1 = top - 0x4000 ∧ fr_heap x.1 = 0.
Proof.
  intros Hs Htop Hal Ha. cbn zeta. unfold kernel_frame.
  assert (H16 : top mod 16 = 0) by (unfold PAGESIZE in Hal; dlia).
  apply (rop_bind (λ x, ∃ k, x.2 = with_tkern k w ∧ serves L top k)).
  { case_match; [by eapply get_new_pd_ok|apply rop_done]. }
  { case_match; [by eapply get_new_pd_ok|]. intros x [= <-]. exists (tkern w). split; [|done].
    unfold with_tkern, with_tsched, tkern. by destruct w as [[] ? ? ? ? ? ? ? ? ? ?]. }
  intros [pd w1] (k1 & Ew & Hs1). cbn [fst snd] in *. subst w1.
  destruct (task_kstackalloc_ok L top (with_tkern k1 w) Hs1) as [Hr2 Hp2]; [lia|].
  apply (rop_bind _ _ _ _ Hr2 Hp2). intros [base w2] (k2 & [= -> ->] & Hs2).
  set (w2 := fresh_stack junk (top - 0x4000) 0x4000 (with_tkern k2 (with_tkern k1 w))).
  assert (Hout : ∀ b, ¬ (top - 0x4000 ≤ b < top) → tbytes w2 !! b = tbytes w !! b).
  { intros b Hb. unfold w2. cbn [tbytes fresh_stack with_tbytes with_tkern with_tsched]. apply fresh_out; lia. }
  assert (Etop : u64 (top - 0x4000 + KERNEL_STACK_SIZE) = top) by (unfold KERNEL_STACK_SIZE; rewrite u64_small; lia).
  rewrite Etop.
  destruct (initialize_context_ok t pd get_kernel_code_selector get_kernel_data_selector init argv args envp envs auxv L top w2 Hs2)
    as [Hr3 Hp3]; [lia|done| | |].
  { pose proof (fresh_stack_mapped (top - 0x4000) 0x4000 (with_tkern k2 (with_tkern k1 w))) as K.
    replace (top - 0x4000 + 0x4000) with top in K by lia. exact K. }
  { eapply (arguments_frame (tbytes w) _ (top - 0x9000) top); [|lia|lia|exact Ha]. intros b Hb. apply Hout. lia. }
  apply (rop_bind _ _ _ _ Hr3 Hp3). intros [[c s] w3] Hf. cbn [fst snd] in Hf.
  split; [apply rop_done|]. intros x [= <-]. cbn [fst snd]. split; [|done].
  destruct Hf as [(k & L' & Ek & HL & Hk & Hc) Hcx Hst Hb (Hm & Ho & Hfi)]. split.
  - exists k, L'. split; [|done]. rewrite Ek. unfold w2. wcbn. reflexivity.
  - exact Hcx.
  - exact Hst.
  - intros b Hb'. rewrite Hb by lia. apply Hout. lia.
  - done.
Qed.

(** What [create_task] establishes: the task [x] at [t] and its context. *)
Record built (init : Z) (argv : list Z) args envs auxv (L : gset Z) (l : list (Z * task)) w (t : Z) (x : task) (cx : list Z) w' : Prop := {
  bt_block : t ≠ 0 ∧ t ∉ L;
  bt_tasks : tasks (tsched w') = <[t := x]> (tasks (tsched w));
  bt_list : task_head (tsched w') = task_head (tsched w) ∧ current_task (tsched w') = current_task (tsched w) ∧
    irq_disable_counter (tsched w') = irq_disable_counter (tsched w);
  bt_ready : state x = TASK_READY ∧ signal_queue x = 0 ∧ signal_handlers x = replicate 32 0 ∧ task_next x = 0 ∧ task_prev x = 0;
  bt_pid : 1 ≤ pid x ∧ (pid x ∉ pids l);
  bt_static : privilege (static x) = KERNEL_TASK ∧ entry (static x) = init;
  bt_context : tcontexts w' = <[context (static x) := cx]> (tcontexts w) ∧
    ∃ info cs ds, cx = new_context (task_pd (static x)) info init cs (stack_top (static x)) ds;
  bt_stack : holds_bytes (tbytes w') (stack_top (static x)) (first_stack init (Z.of_nat (length argv)) args envs auxv) ∧
    stack_top (static x) mod 16 = 0;
}.

Lemma lock_unlock (s : sched P) : - 2 ^ 31 ≤ irq_disable_counter s < 2 ^ 31 - 1 →
  s32 (s32 (irq_disable_counter s + 1) - 1) = irq_disable_counter s.
Proof. intros Hc. rewrite (s32_small (_ + 1)) by lia. rewrite s32_small; lia. Qed.

Lemma create_task_ok init tty name io argv args envp envs auxv startup_pd L l w
    (top := last_stack (tkern w)) (o := create_task img junk stale_heap init tty KERNEL_TASK
       (Z.of_nat (length argv)) argv envp auxv startup_pd w) :
  serves L top (tkern w) → 0xA000 ≤ top < 2 ^ 64 → top mod PAGESIZE = 0 → fs_ok (tfiles w) →
  task_list (tsched w) l → Z.of_nat (length l) < 32767 →
  (current_task (tsched w) = 0 ∨ is_Some (tasks (tsched w) !! current_task (tsched w))) →
  - 2 ^ 31 ≤ irq_disable_counter (tsched w) < 2 ^ 31 - 1 →
  argument (tbytes w) (top - 0x9000) top tty name → (length name < 64)%nat →
  argument (tbytes w) (top - 0x9000) top (io_tty_addr img) io → (length io < 32)%nat →
  arguments (tbytes w) (top - 0x9000) top argv args envp envs auxv →
  returns_or_panics o ∧ ∀ y, o = Done y → ∃ x cx, built init argv args envs auxv L l w y.1 x cx y.2.
Proof.
  intros Hs Htop Hal Hfs [Th Tn Td] Hlen Hcur Hcnt (Hname & Hns & Hnd) Hn (Hio & Hios & Hiod) Hi Harg.
  subst o. unfold create_task. set (w0 := with_tsched (lock_scheduler (tsched w)) w).
  destruct (task_kmalloc_ok SIZEOF_TASK L top w0) as [Hr1 Hp1]; [exact Hs|done|].
  apply (rop_bind _ _ _ _ Hr1 Hp1). intros [t w1] (k1 & Ew & Ht & Ht0 & Hs1). cbn [fst snd] in *. subst w1.
  apply (rop_bind (λ _, True)); [|done|].
  { wcbn. unfold get_current_task. cbn [current_task with_signals]. unfold w0. wcbn. cbn [current_task lock_scheduler with_counter].
    destruct Hcur as [->|[p Hp]]; [apply rop_done|]. case_match; [apply rop_done|].
    unfold get_task_at. cbn [tasks with_signals with_counter lock_scheduler]. rewrite Hp. apply rop_done. }
  intros pp _.
  destruct (get_free_pid_fresh (tsched (with_tkern k1 w0)) l) as (n & -> & Hn1 & Hnp & _); [by constructor|done|].
  rewrite bind_done.
  destruct (task_kmalloc_ok (4 * 32) ({[t]} ∪ L) top (with_tkern k1 w0) Hs1) as [Hr2 Hp2]; [done|].
  apply (rop_bind _ _ _ _ Hr2 Hp2). intros [files w2] (k2 & Ew & _ & _ & Hs2). cbn [fst snd] in *. subst w2.
  destruct (open_tty_ok tty name (replicate 32 (-1)) ({[files]} ∪ ({[t]} ∪ L)) top (with_tkern k2 (with_tkern k1 w0)) Hs2)
    as [Hr3 Hp3]; [exact Hfs|exact Hname|done|].
  apply (rop_bind _ _ _ _ Hr3 Hp3). intros [fds w3] (f & k3 & L3 & Ew & HL3 & Hs3 & _). cbn [fst snd] in *. subst w3.
  match goal with |- context [kernel_frame _ _ _ _ _ _ _ _ _ ?q] => set (w4 := q) end.
  change (KERNEL_TASK =? KERNEL_TASK) with true. cbv iota.
  destruct (kernel_frame_ok t init argv args envp envs auxv startup_pd L3 top w4 Hs3 Htop Hal) as [Hr4 Hp4]; [exact Harg|].
  apply (rop_bind _ _ _ _ Hr4 Hp4). intros [fr w5] [[Hk Hcx Hst Hb Hre] _]. cbn [fst snd] in Hk, Hcx, Hst, Hb, Hre |- *.
  assert (Hb' : ∀ b, ¬ (top - 0x9000 ≤ b < top) → tbytes w5 !! b = tbytes w !! b) by exact Hb.
  rewrite (read_str_ok _ tty name); [|eapply cstr_frame, Hname; intros; apply Hb'; lia|done]. rewrite bind_done.
  apply (rop_bind (λ _, True)); [apply copy_name_ok; lia|done|]. intros names _.
  rewrite (read_str_ok _ (io_tty_addr img) io); [|eapply cstr_frame, Hio; intros; apply Hb'; lia|done]. rewrite bind_done.
  apply (rop_bind (λ _, True)); [apply copy_name_ok; lia|done|]. intros names' _.
  split; [apply rop_done|]. intros y [= <-]. cbn [fst snd].
  destruct Hk as (k & L' & Ek & _ & _ & _). destruct Hcx as (_ & info & Ecx). destruct Hst as (Hh & _ & H16 & _).
  eexists _, _. split.
  - done.
  - wcbn. cbn [tasks with_counter unlock_scheduler with_tasks]. rewrite Ek. reflexivity.
  - wcbn. cbn [task_head current_task irq_disable_counter with_counter unlock_scheduler with_tasks]. rewrite Ek.
    split; [reflexivity|]. split; [reflexivity|]. exact (lock_unlock _ Hcnt).
  - split_and!; reflexivity.
  - cbn [pid]. split; [lia|done].
  - split; reflexivity.
  - wcbn. rewrite Ecx. split; [reflexivity|]. eexists _, _, _. reflexivity.
  - split; [exact Hh|exact H16].
Qed.

End spec.

(** ** The services of the page tables, and no device *)
#[global] Instance mmu_tasks : TaskServices mmu unit := {|
  sv_duplicate whole := if whole then duplicate_current_pml4 else duplicate_current_kernel_pml4;
  sv_device_search _ _ := Done false;
  sv_file_open _ _ _ f k := Done (-1, f, k);
|}.

#[global] Instance mmu_tasks_ok : TaskServicesOk mmu unit.
Proof.
  refine {| fs_ok _ := True |}.
  - intros b T p (L & Hl & Hg & HT).
    assert (K : ∀ start, 0 ≤ start ≤ 512 → returns_or_panics (_duplicate_pd (get_pml4 p) start 512 p) ∧
      ∀ a p', _duplicate_pd (get_pml4 p) start 512 p = Done (a, p') → mmu_ok T p').
    { intros start Hs. destruct (duplicate_pd_ok start p L Hl Hg Hs) as [Hret Hpost]. split; [done|]. intros a p' E.
      destruct (Hpost a p' E) as (L' & Hl' & HL & _ & _ & Hg' & _). exists L'. rewrite Hg'.
      split_and!; [done|by eapply lookup_weaken|]. intros t Ht. eapply lookup_weaken, HL. by apply HT. }
    destruct b; cbn; by apply K.
  - intros name f _. apply rop_done.
  - intros path flags mode f k L _ Hb Hs. split; [apply rop_done|]. intros fd f' k' [= <- <- <-].
    split_and!; [done|by exists L|done|done].
Defined.

(** A kernel with 36 frames, four of them in use, and an empty directory. *)
Definition frames2 : pmm :=
  {| memory_ptr := 0x100000;
     memory :=
       {| total_available_pages := 36; first_available_page_addr := 0x100000; last_available_page_address := 0x124000;
          total_memory := 0x200000; total_pages := 0x200; bitfield := 0x101000; free_memory := 32 * PAGESIZE;
          locked_memory := 0; reserved_memory := 4 * PAGESIZE |};
     bits := list_to_map [(0, 0x0f); (1, 0); (2, 0); (3, 0); (4, 0)];
     last_requested := 4; statistics_requested := 0; contiguous_last_requested := 0; contiguous_statistics_requested := 0 |}.
Definition mmu2 : mmu := {| tables := zero_entries root0 512 ∅; frames := frames2; cr3 := root0 |}.

Lemma frames2_live : pmm_live frames2.
Proof.
  split_and!; [|done|by eexists]. constructor; cbn -[list_to_map lookup page_used]; try done.
  - intros k b. cbn. rewrite !lookup_insert. repeat case_decide; intros; simplify_eq; done.
  - intros i Hi. apply not_eq_None_Some.
    assert (K : bool_decide (page_used frames2 i ≠ None) = true); [|by apply bool_decide_eq_true in K].
    revert i Hi. apply (range_check (λ i, bool_decide (page_used frames2 i ≠ None))). by vm_compute.
Qed.

Lemma mmu2_ok : mmu_ok [] mmu2.
Proof.
  assert (T : ∀ i, 0 ≤ i < 512 → tables mmu2 !! (root0, i) = Some zero_entry).
  { intros i Hi. cbn -[zero_entries root0]. by rewrite lookup_zero_entries, decide_True. }
  exists {[root0 := 3%nat]}. split_and!; [split; [|apply frames2_live]|done|by intros t ?%elem_of_nil].
  constructor.
  - intros f y i [<- <-]%lookup_singleton_Some Hi. by rewrite T.
  - intros f y i e [<- <-]%lookup_singleton_Some Hi. rewrite T by done. by intros [= <-].
  - intros f y k i e [<- <-]%lookup_singleton_Some _ Hi. rewrite T by done. by intros [= <-].
  - intros f y [<- <-]%lookup_singleton_Some. done.
  - by apply frames2_live.
  - done.
  - done.
  - intros i Hi Hu. apply lookup_singleton_ne. unfold page_addr. cbn [frames mmu2 frames2 memory first_available_page_addr].
    unfold root0, PAGESIZE. intros E. assert (i = 0) as -> by lia. by vm_compute in Hu.
Qed.

Definition kernel2 : kernel (P := mmu) :=
  {| kcpu := kcpu kernel1; kmemory := Build_kst (mem st0) mmu2;
     kernelGlobalHeap := heap0; kernelSleepHeap := blank_heap; kernelSignalHeap := blank_heap |}.

Definition sched2 : sched mmu :=
  {| tasks := ∅; signals := ∅; task_head := 0; current_task := 0; irq_disable_counter := 0; scheduler_ready := 0;
     apic_eoi_required := 0; apic_last_interrupt := 0; tss_rsp := {[0 := [0; 0; 0]]}; gs_base := 0; kernel_gs_base := 0;
     timer := {| boot_epoch := 0; hertz := 100; timer_ticks := 0; preemption_ticks := 0; preemption_enabled := 0;
                 wakeup_call := 0; wakeup_ticks := 0 |}; kern := kernel2; events := [] |}.

Definition image2 : image :=
  {| returnoexit := 0x900000; userspace_trampoline := 0x900100; idle := 0x900200; default_name := 0x100; io_tty_addr := 0x100 |}.
Definition default_chars : list Z := [100; 101; 102; 97; 117; 108; 116].
Definition world2 : tworld (P := mmu) (F := unit) :=
  TW sched2 (mem_of 0x100 (default_chars ++ [0])%list) ∅ ∅ ∅ ∅ ∅ 0 ∅ tt 0.

