(* ===== verification/Loader.v ===== *)
(** * Loading programs (src/src/proc/loader.c, loader.h)

    An executable is a block of bytes; its fields are read at their offsets, and a read outside
    of the block is a fault.  The loader works through services of other components, an
    interface here: the kernel heap, the pages and their tables, stores through the kernel's
    map of memory, the file system and the scheduler. *)
From stdpp Require Import gmap.
From S2P Require Import Prelude Paging CString TaskStack Scheduler.
#[local] Open Scope Z_scope.

Class LoaderEnv (W : Type) := {
  le_kmalloc : Z → W → outcome (Z * W);
  le_kfree : Z → W → outcome W;
  le_request_page : W → outcome (Z * W);
  le_get_pml4 : W → Z;
  le_virtual_to_physical : Z → Z → W → outcome Z;
  le_map_memory : Z → Z → Z → Z → W → outcome W;
  (** [memcpy] to an address of the kernel *)
  le_store : Z → list Z → W → outcome W;
  le_get_new_pd : Z → W → outcome (Z * W);
  le_file_open : list Z → Z → Z → W → outcome (Z * W);
  le_file_seek : Z → Z → Z → W → outcome (Z * W);
  le_file_tell : Z → W → outcome (Z * W);
  (** the value returned and the bytes delivered *)
  le_file_read : Z → Z → W → outcome (Z * list Z * W);
  le_file_close : Z → W → outcome (Z * W);
  (** [create_task(init, tty, privilege, argc, argv, envp, auxv, pd)] *)
  le_create_task : Z → list Z → Z → Z → list Z → option (list Z) → option (list (Z * Z)) → Z → W → outcome (Z * W);
  le_add_task : Z → W → outcome W;
}.

(** ** The format *)
Definition ELFMAG : list Z := [127; 69; 76; 70].
Definition EI_CLASS : nat := 4.
Definition ELFCLASS32 : Z := 1.
Definition ET_EXEC : Z := 2.
Definition ET_DYN : Z := 3.
Definition PT_LOAD : Z := 1.
Definition PT_INTERP : Z := 3.
Definition PT_PHDR : Z := 6.
Definition PF_X : Z := 1.
Definition PF_W : Z := 2.
Definition AT_NULL : Z := 0.
Definition AT_PHDR : Z := 3.
Definition AT_PHENT : Z := 4.
Definition AT_PHNUM : Z := 5.
Definition AT_ENTRY : Z := 9.
Definition DYNAMIC_LINKER_BASE_ADDRESS : Z := 0x40000000.
Definition SIZEOF_PHDR : Z := 56.

(** [n] bytes of a block from [off] on, as a number; a copy of a part of it. *)
Definition part (off n : Z) (b : list Z) : outcome (list Z) :=
  if (0 <=? off) && (off + n <=? Z.of_nat (length b)) then Done (take (Z.to_nat n) (drop (Z.to_nat off) b)) else Fault.
Definition field (off n : Z) (b : list Z) : outcome Z := l ← part off n b; Done (le_value l).

Record Elf64_Phdr := Phdr {
  p_type : Z; p_flags : Z; p_offset : Z; p_vaddr : Z; p_filesz : Z; p_memsz : Z;
}.

(** [program_header[i]] of a table at [phoff] *)
Definition program_header (phoff i : Z) (b : list Z) : outcome Elf64_Phdr :=
  let o := u64 (phoff + SIZEOF_PHDR * i) in
  t ← field o 4 b; f ← field (o + 4) 4 b; off ← field (o + 8) 8 b; v ← field (o + 16) 8 b;
  fs ← field (o + 32) 8 b; ms ← field (o + 40) 8 b;
  Done (Phdr t f off v fs ms).

Definition e_class (b : list Z) : outcome Z := field 4 1 b.
Definition e_type (b : list Z) : outcome Z := field 16 2 b.
Definition e_entry (b : list Z) : outcome Z := field 24 8 b.
Definition e_phoff (b : list Z) : outcome Z := field 32 8 b.
Definition e_phentsize (b : list Z) : outcome Z := field 54 2 b.
Definition e_phnum (b : list Z) : outcome Z := field 56 2 b.

Definition parse_elf_file (b : list Z) : outcome bool :=
  m ← part 0 4 b; Done (bool_decide (m = ELFMAG)).

(** The names the fields of the header select: the sizes of the tables of class, data, version,
    ABI, type and machine names. *)
Definition elf_readelf (b : list Z) : outcome unit :=
  ok ← parse_elf_file b;
  if negb ok then Done tt else
  c ← e_class b;
  if c =? ELFCLASS32 then Done tt else
  d ← field 5 1 b; v ← field 6 1 b; a ← field 7 1 b; t ← e_type b; m ← field 18 2 b; _ ← field 62 2 b;
  if (c <? 3) && (d <? 3) && (v <? 2) && (a <? 18) && (t <? 5) && (m <? 101) then Done tt else Fault.

Section loader.
Context {W : Type} `{LoaderEnv W}.
Implicit Types w : W.

(** ** Segments *)
(** The pages a segment covers. *)
Definition vaddr_offset (ph : Elf64_Phdr) : Z := Z.land (p_vaddr ph) 0xfff.
Definition segment_start (ph : Elf64_Phdr) (base : Z) : Z := u64 (Z.land (p_vaddr ph) (Z.lnot 0xfff) + base).
Definition page_no (ph : Elf64_Phdr) : Z :=
  let total_size := u64 (p_memsz ph + vaddr_offset ph) in
  total_size / 0x1000 + (if total_size mod 0x1000 =? 0 then 0 else 1).
Definition segment_perms (ph : Elf64_Phdr) : Z :=
  let perms := PAGE_USER_BIT in
  let perms := if Z.land (p_flags ph) PF_W =? 0 then perms else Z.lor perms PAGE_WRITE_BIT in
  if Z.land (p_flags ph) PF_X =? 0 then Z.lor perms PAGE_NX_BIT else perms.

(** [memcpy(buffer + off, l, ...)] within a block *)
Definition splice (off : Z) (l b : list Z) : outcome (list Z) :=
  if off + Z.of_nat (length l) <=? Z.of_nat (length b)
  then Done (take (Z.to_nat off) b ++ l ++ drop (Z.to_nat off + length l) b)%list else Fault.

(** One page: the frame is reached through the kernel's map, mapped and filled. *)
Definition segment_page (pd vaddr perms i : Z) (complete : list Z) w : outcome W :=
  '(page, w) ← le_request_page w;
  let partial_buffer := TO_KERNEL_MAP page in
  physical ← le_virtual_to_physical (le_get_pml4 w) partial_buffer w;
  w ← le_map_memory (TO_KERNEL_MAP pd) (u64 (vaddr + i * 0x1000)) physical perms w;
  _ ← le_virtual_to_physical (TO_KERNEL_MAP pd) (u64 (vaddr + i * 0x1000)) w;
  w ← le_store partial_buffer (replicate 4096 0) w;
  l ← part (i * 0x1000) 0x1000 complete;
  le_store partial_buffer l w.

Definition allocate_segment (pd : Z) (ph : Elf64_Phdr) (buffer : list Z) (base : Z) w : outcome W :=
  if negb (p_type ph =? PT_LOAD) then Done w else
  let n := page_no ph in
  '(a, w) ← le_kmalloc (u64 (n * 0x1000)) w;
  if a =? 0 then Fault else
  let complete := replicate (Z.to_nat (u64 (n * 0x1000))) 0 in
  l ← part (p_offset ph) (p_filesz ph) buffer;
  complete ← splice (vaddr_offset ph) l complete;
  w ← for_up (Z.to_nat n) 0 (λ i w, segment_page pd (segment_start ph base) (segment_perms ph) i complete w) w;
  le_kfree a w.

(** ** Files *)
(** Returns the block and its contents when the file could be read into one. *)
Definition elf_open_file (filename : list Z) w : outcome (option (Z * list Z) * W) :=
  '(fd, w) ← le_file_open filename 0 0 w;
  if s32 fd <? 0 then Done (None, w) else
  '(_, w) ← le_file_seek fd 0 2 w;
  '(size, w) ← le_file_tell fd w;
  let filesize := u64 size in
  '(_, w) ← le_file_seek fd 0 0 w;
  '(a, w) ← le_kmalloc filesize w;
  if a =? 0 then Done (None, w) else
  '(_, l, w) ← le_file_read fd filesize w;
  b ← splice 0 l (replicate (Z.to_nat filesize) 0);
  '(_, w) ← le_file_close fd w;
  Done (Some (a, b), w).

(** ** Programs *)
Record proc_ld := { at_phdr : Z; ld_path : option (list Z) }.

(** The string in a page of which only the bytes copied are known. *)
Definition chars_of (l : list Z) : outcome (list Z) :=
  match list_find (λ b, b = 0) l with Some (n, _) => Done (take n l) | None => Fault end.

(** One program header; [None] ends the load. *)
Definition load_header (pd phoff i : Z) (buffer : list Z) (pld : proc_ld) w : outcome (option proc_ld * W) :=
  ph ← program_header phoff i buffer;
  if p_type ph =? PT_LOAD then
    w ← allocate_segment pd ph buffer 0 w; Done (Some pld, w)
  else if p_type ph =? PT_PHDR then
    Done (Some {| at_phdr := p_vaddr ph; ld_path := ld_path pld |}, w)
  else if p_type ph =? PT_INTERP then
    match ld_path pld with
    | Some _ => Done (None, w)
    | None =>
        if p_filesz ph >? 0x1000 then Done (None, w) else
        '(page, w) ← le_request_page w;
        l ← part (p_offset ph) (p_filesz ph) buffer;
        w ← le_store (TO_KERNEL_MAP page) l w;
        Done (Some {| at_phdr := at_phdr pld; ld_path := Some l |}, w)
    end
  else Done (Some pld, w).

(** The loop over the headers; [n] is the number of those left. *)
Fixpoint load_headers (n : nat) (pd phoff i : Z) (buffer : list Z) (pld : proc_ld) w : outcome (option proc_ld * W) :=
  match n with
  | O => Done (Some pld, w)
  | S n =>
      '(r, w) ← load_header pd phoff i buffer pld w;
      match r with None => Done (None, w) | Some pld => load_headers n pd phoff (i + 1) buffer pld w end
  end.

(** The dynamic linker: its entry point, or [None] when it cannot be used.  The class that is
    tested is that of the program. *)
Definition load_linker (pd : Z) (path buffer : list Z) w : outcome (option Z * W) :=
  '(f, w) ← elf_open_file path w;
  match f with
  | None => Done (None, w)
  | Some (a, ld_buffer) =>
      ok ← parse_elf_file ld_buffer;
      if negb ok then Done (None, w) else
      c ← e_class buffer;
      if c =? ELFCLASS32 then Done (None, w) else
      t ← e_type ld_buffer;
      if negb (t =? ET_DYN) then Done (None, w) else
      phoff ← e_phoff ld_buffer;
      num ← e_phnum ld_buffer;
      w ← for_up (Z.to_nat num) 0 (λ i w,
            ph ← program_header phoff i ld_buffer;
            if p_type ph =? PT_LOAD then allocate_segment pd ph ld_buffer DYNAMIC_LINKER_BASE_ADDRESS w else Done w) w;
      w ← le_kfree a w;
      entry ← e_entry ld_buffer;
      Done (Some (u64 (entry + DYNAMIC_LINKER_BASE_ADDRESS)), w)
  end.

Definition auxv_of (entry phdr phent phnum : Z) : list (Z * Z) :=
  [(AT_NULL, 0); (AT_ENTRY, entry); (AT_PHDR, phdr); (AT_PHENT, phent); (AT_PHNUM, phnum)].

(** "ttya" *)
Definition load_tty : list Z := [116; 116; 121; 97].

(** The last step of a load: the task, and the list of tasks. *)
Definition spawn (entry argc : Z) (argv : list Z) (envp : option (list Z)) (aux : list (Z * Z)) (pd : Z) w : outcome W :=
  '(t, w) ← le_create_task entry load_tty USER_TASK argc argv envp (Some aux) pd w;
  if negb (t =? 0) then le_add_task t w else Done w.

(** [Some 0] where the code returns zero; [None] where it runs off its end. *)
Definition elf_load_elf (buffer : list Z) (argc : Z) (argv : list Z) (envp : option (list Z)) w : outcome (option Z * W) :=
  ok ← parse_elf_file buffer;
  if negb ok then Done (Some 0, w) else
  c ← e_class buffer;
  if c =? ELFCLASS32 then Done (Some 0, w) else
  t ← e_type buffer;
  if t =? ET_DYN then Done (Some 0, w) else
  if negb (t =? ET_EXEC) then Done (Some 0, w) else
  phoff ← e_phoff buffer;
  '(pd, w) ← le_get_new_pd USER_TASK w;
  num ← e_phnum buffer;
  '(r, w) ← load_headers (Z.to_nat num) pd phoff 0 buffer {| at_phdr := 0; ld_path := None |} w;
  match r with
  | None => Done (Some 0, w)
  | Some pld =>
      entry ← e_entry buffer;
      phent ← e_phentsize buffer;
      let aux := auxv_of entry (at_phdr pld) phent num in
      match ld_path pld with
      | Some l =>
          path ← chars_of l;
          '(r, w) ← load_linker pd path buffer w;
          match r with
          | None => Done (Some 0, w)
          | Some ld_entry => w ← spawn ld_entry argc argv envp aux pd w; Done (None, w)
          end
      | None => w ← spawn entry argc argv envp aux pd w; Done (None, w)
      end
  end.
End loader.
