(* ===== verification/LoaderSegment.v ===== *)
(** * Segments in an address space (src/src/proc/loader.c)

    What the loader relies on of the pages, the heap and memory, and what it builds from them:
    a segment is seen by the process at its addresses, and nothing else changes. *)
From stdpp Require Import gmap.
From S2P Require Import Prelude PageAlloc PageService Paging PagingSpec AddressSpace CString Scheduler Loader.
#[local] Open Scope Z_scope.

(** The bytes of physical memory. *)
Class LoaderView (W : Type) := le_byte : W → Z → option Z.

Section view.
Context {W : Type} `{LoaderEnv W} `{LoaderView W}.
Implicit Types (w : W) (A D : gset Z).

(** The frame behind the page of [v] in directory [d]. *)
Definition le_xlate (d v : Z) w : outcome Z := le_virtual_to_physical (TO_KERNEL_MAP d) v w.

(** The directories of [D] keep their translations, the frames of [A] their contents. *)
Definition same_spaces D w w' : Prop := ∀ d v, d ∈ D → le_xlate d v w' = le_xlate d v w.
Definition same_bytes A w w' : Prop :=
  ∀ f o, f ∈ A → 0 ≤ o < PAGESIZE → le_byte w' (f + o) = le_byte w (f + o).

Definition le_same D A w w' : Prop := same_spaces D w w' ∧ same_bytes A w w'.
End view.

(** [le_ok B A D w]: the heap blocks in use are [B], the frames handed out [A], the directories
    in use [D], by physical address. *)
Class LoaderEnvOk (W : Type) `{LoaderEnv W} `{LoaderView W} := {
  le_ok : gset Z → gset Z → gset Z → W → Prop;
  le_kmalloc_ok B A D n w :
    le_ok B A D w → 0 < n < 2 ^ 32 → returns_or_panics (le_kmalloc n w) ∧
    ∀ a w', le_kmalloc n w = Done (a, w') → a ≠ 0 ∧ (a ∉ B) ∧ le_ok ({[a]} ∪ B) A D w' ∧ le_same D A w w';
  le_kfree_ok B A D a w :
    le_ok B A D w → a ∈ B → ∃ w', le_kfree a w = Done w' ∧ le_ok (B ∖ {[a]}) A D w' ∧ le_same D A w w';
  le_request_page_ok B A D w :
    le_ok B A D w → returns_or_panics (le_request_page w) ∧
    ∀ p w', le_request_page w = Done (p, w') → (p ∉ A) ∧ le_ok B ({[p]} ∪ A) D w' ∧ le_same D A w w';
  le_direct_ok B A D p w :
    le_ok B A D w → p ∈ A → le_virtual_to_physical (le_get_pml4 w) (TO_KERNEL_MAP p) w = Done p;
  le_xlate_page B A D d v v' w :
    le_ok B A D w → d ∈ D → v / PAGESIZE = v' / PAGESIZE → le_xlate d v w = le_xlate d v' w;
  le_map_memory_ok B A D d v p flags w :
    le_ok B A D w → d ∈ D → p ∈ A → user_half v →
    returns_or_panics (le_map_memory (TO_KERNEL_MAP d) v p flags w) ∧
    ∀ w', le_map_memory (TO_KERNEL_MAP d) v p flags w = Done w' →
      le_ok B A D w' ∧ le_xlate d v w' = Done p ∧
      (∀ d' v', d' ∈ D → d' ≠ d ∨ address_to_map v' ≠ address_to_map v → le_xlate d' v' w' = le_xlate d' v' w) ∧
      same_bytes A w w';
  le_store_ok B A D p l w :
    le_ok B A D w → p ∈ A → Z.of_nat (length l) ≤ PAGESIZE →
    ∃ w', le_store (TO_KERNEL_MAP p) l w = Done w' ∧ le_ok B A D w' ∧ same_spaces D w w' ∧
      ∀ f o, f ∈ A → 0 ≤ o < PAGESIZE →
        le_byte w' (f + o) = if decide (f = p ∧ o < Z.of_nat (length l)) then l !! Z.to_nat o else le_byte w (f + o);
  le_get_new_pd_ok B A D w :
    le_ok B A D w → returns_or_panics (le_get_new_pd USER_TASK w) ∧
    ∀ d w', le_get_new_pd USER_TASK w = Done (d, w') →
      (d ∉ D) ∧ le_ok B A ({[d]} ∪ D) w' ∧ le_same D A w w' ∧ ∀ v, user_half v → le_xlate d v w' = Done 0;
}.

Section segment.
Context {W : Type} `{LoaderEnvOk W}.
Implicit Types (w : W) (A B D : gset Z).

(** The byte a process with directory [d] sees at [v], in a frame of [A]. *)
Definition sees (A : gset Z) (d v b : Z) w : Prop :=
  ∃ f, f ∈ A ∧ le_xlate d v w = Done f ∧ le_byte w (f + v mod PAGESIZE) = Some b.

(** The page of [v] is one of the [n] pages from [start] on. *)
Definition covered (start n v : Z) : Prop :=
  ∃ i, 0 ≤ i < n ∧ address_to_map v = address_to_map (start + i * PAGESIZE).

(** The [n] pages of [d] from [start] on hold [c]; nothing else has changed. *)
Record placed D (d start n : Z) (c : list Z) A A' w w' : Prop := {
  pl_frames : A ⊆ A';
  pl_others d' v : d' ∈ D → d' ≠ d ∨ ¬ covered start n v → le_xlate d' v w' = le_xlate d' v w;
  pl_bytes : same_bytes A w w';
  pl_seen k b : 0 ≤ k < n * PAGESIZE → c !! Z.to_nat k = Some b → sees A' d (start + k) b w';
}.

Lemma placed_start D d start c A w w' : le_same D A w w' → placed D d start 0 c A A w w'.
Proof. intros [Hd Hb]. split; [done|by intros; apply Hd|done|]. intros k b Hk. lia. Qed.

Lemma sees_same D A d v b w w' : le_same D A w w' → d ∈ D → sees A d v b w → sees A d v b w'.
Proof.
  intros [Hd Hb] Hin (f & Hf & Ex & Eb). exists f. split; [done|]. rewrite Hd by done. split; [done|].
  rewrite Hb; [done|done|]. apply Z.mod_pos_bound. done.
Qed.

Lemma placed_same D d start n c A A' w w1 w2 :
  placed D d start n c A A' w w1 → d ∈ D → le_same D A' w1 w2 → placed D d start n c A A' w w2.
Proof.
  intros [Pf Po Pb Ps] Hd Hs. split; [done| | |].
  - intros d' v Hd' Hv. rewrite (proj1 Hs) by done. by apply Po.
  - intros f o Hf Ho. rewrite (proj2 Hs); [by apply Pb|by apply Pf|done].
  - intros k b Hk Hc. eapply sees_same; [exact Hs|done|]. by apply Ps.
Qed.

(** What was seen on other pages is still seen. *)
Lemma placed_sees D d start n c A A' w w' v b :
  placed D d start n c A A' w w' → d ∈ D → ¬ covered start n v → sees A d v b w → sees A' d v b w'.
Proof.
  intros Hp Hd Hv (f & Hf & Ex & Eb). exists f. split; [by apply Hp|].
  rewrite (pl_others _ _ _ _ _ _ _ _ _ Hp) by auto. split; [done|].
  rewrite (pl_bytes _ _ _ _ _ _ _ _ _ Hp); [done|done|]. apply Z.mod_pos_bound. done.
Qed.

(** ** One page *)
Lemma rop_for_up_lt {S} (P : Z → S → Prop) n i (body : Z → S → outcome S) s :
  (∀ k x, i ≤ k < i + Z.of_nat n → P k x → returns_or_panics (body k x) ∧ ∀ y, body k x = Done y → P (k + 1) y) →
  P i s → returns_or_panics (for_up n i body s) ∧ ∀ s', for_up n i body s = Done s' → P (i + Z.of_nat n) s'.
Proof.
  revert i s. induction n as [|n IH]; intros i s Hb Hs; cbn [for_up].
  - split; [apply rop_done|]. intros s' [= <-]. by rewrite Z.add_0_r.
  - apply (rop_bind (P (i + 1))); [apply Hb; [lia|done]|apply Hb; [lia|done]|].
    intros x Hx. replace (i + Z.of_nat (Datatypes.S n)) with (i + 1 + Z.of_nat n) by lia.
    apply IH; [|done]. intros k y Hk. apply Hb. lia.
Qed.

Lemma user_range v : 0 ≤ v < 2 ^ 47 → user_half v.
Proof. intros Hv. unfold user_half. rewrite address_to_map_eq. cbn [PDP_i]. dlia. Qed.

Lemma pages_apart v v' : 0 ≤ v < 2 ^ 48 → 0 ≤ v' < 2 ^ 48 → address_to_map v = address_to_map v' → v / PAGESIZE = v' / PAGESIZE.
Proof. intros Hv Hv'. rewrite !address_to_map_eq. unfold PAGESIZE. intros [= E1 E2 E3 E4]. dlia. Qed.

Lemma part_ok off n (b : list Z) :
  0 ≤ off → 0 ≤ n → off + n ≤ Z.of_nat (length b) → part off n b = Done (take (Z.to_nat n) (drop (Z.to_nat off) b)).
Proof.
  intros Ho Hn Hl. unfold part. rewrite (proj2 (Z.leb_le 0 off) Ho), (proj2 (Z.leb_le _ _) Hl). done.
Qed.

(** A page is mapped and written: the page holds its part of the contents. *)
Definition fill_page (d v p perms : Z) (l : list Z) w : outcome W :=
  w ← le_map_memory (TO_KERNEL_MAP d) v p perms w;
  _ ← le_virtual_to_physical (TO_KERNEL_MAP d) v w;
  w ← le_store (TO_KERNEL_MAP p) (replicate 4096 0) w;
  le_store (TO_KERNEL_MAP p) l w.

Lemma fill_page_ok d v p perms l B A D w :
  le_ok B A D w → d ∈ D → p ∈ A → user_half v → length l = Z.to_nat PAGESIZE →
  returns_or_panics (fill_page d v p perms l w) ∧
  ∀ w', fill_page d v p perms l w = Done w' →
    le_ok B A D w' ∧ le_xlate d v w' = Done p ∧
    (∀ d' v', d' ∈ D → d' ≠ d ∨ address_to_map v' ≠ address_to_map v → le_xlate d' v' w' = le_xlate d' v' w) ∧
    ∀ f o, f ∈ A → 0 ≤ o < PAGESIZE → le_byte w' (f + o) = if decide (f = p) then l !! Z.to_nat o else le_byte w (f + o).
Proof.
  intros Hok Hd Hp Hu Hl. destruct (le_map_memory_ok B A D d v p perms w Hok Hd Hp Hu) as [Hret Hpost]. unfold fill_page.
  eapply rop_bind; [exact Hret|exact Hpost|]. intros w1 (Hok1 & Ex1 & Ho1 & Hb1). fold (le_xlate d v w1). rewrite Ex1, bind_done.
  destruct (le_store_ok B A D p (replicate 4096 0) w1 Hok1 Hp) as (w2 & -> & Hok2 & Hs2 & Hb2); [by rewrite length_replicate|].
  rewrite bind_done.
  destruct (le_store_ok B A D p l w2 Hok2 Hp) as (w3 & -> & Hok3 & Hs3 & Hb3); [by rewrite Hl|].
  split; [apply rop_done|]. intros w' [= <-]. split_and!; [done| | |].
  - by rewrite Hs3, Hs2.
  - intros d' v' Hd' Hne. rewrite Hs3, Hs2 by done. by apply Ho1.
  - intros f o Hf Ho. rewrite Hb3, Hb2 by done. destruct (decide (f = p)) as [->|Hne].
    + rewrite decide_True; [done|]. rewrite Hl. split; [done|]. unfold PAGESIZE in *. lia.
    + rewrite !decide_False by tauto. by apply Hb1.
Qed.

(** One more page. *)
Lemma placed_page D d start n c p i l B A A' w0 w w' (v := start + i * PAGESIZE) :
  placed D d start i c A A' w0 w → d ∈ D → p ∉ A' → 0 ≤ i < n →
  0 ≤ start → start mod PAGESIZE = 0 → start + n * PAGESIZE ≤ 2 ^ 47 →
  l = take (Z.to_nat 0x1000) (drop (Z.to_nat (i * 0x1000)) c) →
  le_ok B ({[p]} ∪ A') D w' → le_xlate d v w' = Done p →
  (∀ d' v', d' ∈ D → d' ≠ d ∨ address_to_map v' ≠ address_to_map v → le_xlate d' v' w' = le_xlate d' v' w) →
  (∀ f o, f ∈ {[p]} ∪ A' → 0 ≤ o < PAGESIZE → le_byte w' (f + o) = if decide (f = p) then l !! Z.to_nat o else le_byte w (f + o)) →
  placed D d start (i + 1) c A ({[p]} ∪ A') w0 w'.
Proof.
  intros [Pf Po Pb Ps] Hd Hp Hi Hst Hal Hend -> Hok' Ex Hoth Hby. split.
  - set_solver.
  - intros d' v' Hd' Hv'. rewrite Hoth; [|done|].
    + apply Po; [done|]. destruct Hv' as [?|Hv']; [by left|right]. intros (j & Hj & Ej). apply Hv'. exists j. split; [lia|done].
    + destruct Hv' as [?|Hv']; [by left|right]. intros E. apply Hv'. exists i. split; [lia|done].
  - intros f o Hf Ho. rewrite Hby, decide_False; [by apply Pb|set_solver|set_solver|done].
  - intros k b Hk Hb. destruct (decide (i * PAGESIZE ≤ k)) as [Hge|Hlt].
    + exists p. split; [set_solver|]. rewrite (le_xlate_page _ _ _ d _ v _ Hok') by (done || (unfold v, PAGESIZE in *; dlia)). split; [done|].
      rewrite Hby, decide_True; [|done|set_solver|apply Z.mod_pos_bound; done].
      rewrite lookup_take_lt, lookup_drop; [|unfold PAGESIZE in *; dlia]. rewrite <- Hb. f_equal. unfold PAGESIZE in *. dlia.
    + destruct (Ps k b) as (f & Hf & Ef & Eb); [lia|done|].
      exists f. split; [set_solver|]. rewrite Hoth; [|done|].
      * split; [done|]. rewrite Hby, decide_False; [done|set_solver|set_solver|apply Z.mod_pos_bound; done].
      * right. intros E. apply pages_apart in E; unfold v, PAGESIZE in *; dlia.
Qed.

Lemma segment_page_ok D d start n c perms i B A A' w0 w :
  placed D d start i c A A' w0 w → d ∈ D → le_ok B A' D w → 0 ≤ i < n →
  0 ≤ start → start mod PAGESIZE = 0 → start + n * PAGESIZE ≤ 2 ^ 47 → Z.of_nat (length c) = n * PAGESIZE →
  returns_or_panics (segment_page d start perms i c w) ∧
  ∀ w', segment_page d start perms i c w = Done w' → ∃ A'', placed D d start (i + 1) c A A'' w0 w' ∧ le_ok B A'' D w'.
Proof.
  intros Hpl Hd Hok Hi Hst Hal Hend Hc. unfold segment_page.
  destruct (le_request_page_ok B A' D w Hok) as [Hret Hpost].
  eapply (rop_bind (λ x, (x.1 ∉ A') ∧ le_ok B ({[x.1]} ∪ A') D x.2 ∧ le_same D A' w x.2)); [exact Hret| |].
  { intros [p w1] E. exact (Hpost p w1 E). }
  intros [p w1] (Hp & Hok1 & Hs1). cbn [fst snd] in *.
  rewrite (le_direct_ok _ _ _ p _ Hok1) by set_solver. rewrite bind_done.
  set (v := start + i * PAGESIZE). replace (u64 (start + i * 0x1000)) with v.
  2:{ unfold v, PAGESIZE. rewrite u64_small; [done|]. unfold PAGESIZE in *. lia. }
  rewrite (part_ok (i * 0x1000) 0x1000 c); [|lia|lia|rewrite Hc; unfold PAGESIZE; lia].
  set (l := take (Z.to_nat 0x1000) (drop (Z.to_nat (i * 0x1000)) c)).
  assert (Hpl1 := placed_same _ _ _ _ _ _ _ _ _ _ Hpl Hd Hs1).
  destruct (fill_page_ok d v p perms l B ({[p]} ∪ A') D w1 Hok1 Hd) as [Hret2 Hpost2].
  { set_solver. }
  { apply user_range. unfold v, PAGESIZE in *. lia. }
  { unfold l. rewrite length_take, length_drop. unfold PAGESIZE in *. lia. }
  split; [exact Hret2|]. intros w' E. destruct (Hpost2 w' E) as (Hok' & Ex & Hoth & Hby).
  exists ({[p]} ∪ A'). split; [|done]. by eapply placed_page.
Qed.

(** ** A segment *)

(** A segment whose part of the file exists, in the lower half. *)
Record segment_ok (ph : Elf64_Phdr) (b : list Z) (base : Z) : Prop := {
  sg_load : p_type ph = PT_LOAD;
  sg_file : 0 ≤ p_offset ph ∧ p_offset ph + p_filesz ph ≤ Z.of_nat (length b);
  sg_sizes : 0 ≤ p_filesz ph ≤ p_memsz ph ∧ 0 < p_memsz ph ≤ 2 ^ 31;
  sg_base : 0 ≤ base ∧ base mod PAGESIZE = 0;
  sg_room : 0 ≤ p_vaddr ph ∧ p_vaddr ph + base + p_memsz ph ≤ 2 ^ 47;
}.

(** The contents of its pages: the bytes of the file at its address, zeros elsewhere. *)
Definition segment_bytes (ph : Elf64_Phdr) (b : list Z) : list Z :=
  let file := take (Z.to_nat (p_filesz ph)) (drop (Z.to_nat (p_offset ph)) b) in
  (replicate (Z.to_nat (vaddr_offset ph)) 0 ++ file ++
   replicate (Z.to_nat (page_no ph * PAGESIZE - vaddr_offset ph - p_filesz ph)) 0)%list.

Lemma segment_geometry ph b base :
  segment_ok ph b base →
  vaddr_offset ph = p_vaddr ph mod PAGESIZE ∧
  segment_start ph base = p_vaddr ph - vaddr_offset ph + base ∧
  0 < page_no ph < 2 ^ 20 ∧ vaddr_offset ph + p_memsz ph ≤ page_no ph * PAGESIZE < vaddr_offset ph + p_memsz ph + PAGESIZE.
Proof.
  intros [_ _ Hs Hb Hr]. unfold segment_start, page_no. rewrite land_not_fff. unfold vaddr_offset. rewrite land_fff.
  unfold page_of. assert (Hm := Z.mod_pos_bound (p_vaddr ph) PAGESIZE eq_refl).
  assert (Hd := Z.div_mod (p_vaddr ph) PAGESIZE). unfold PAGESIZE in *. rewrite !u64_small by dlia.
  split; [done|]. split; [lia|]. destruct (Z.eqb_spec ((p_memsz ph + p_vaddr ph mod 4096) mod 4096) 0); dlia.
Qed.

Lemma segment_bytes_length ph b base : segment_ok ph b base → Z.of_nat (length (segment_bytes ph b)) = page_no ph * PAGESIZE.
Proof.
  intros Hs. destruct (segment_geometry _ _ _ Hs) as (Eo & _ & Hn & Hp). destruct Hs as [_ Hf Hz _ _].
  assert (Hm := Z.mod_pos_bound (p_vaddr ph) PAGESIZE eq_refl).
  unfold segment_bytes. rewrite !length_app, !length_replicate, length_take, length_drop. lia.
Qed.

Lemma splice_segment ph b base :
  segment_ok ph b base →
  splice (vaddr_offset ph) (take (Z.to_nat (p_filesz ph)) (drop (Z.to_nat (p_offset ph)) b))
    (replicate (Z.to_nat (page_no ph * PAGESIZE)) 0) = Done (segment_bytes ph b).
Proof.
  intros Hs. destruct (segment_geometry _ _ _ Hs) as (Eo & _ & Hn & Hp). destruct Hs as [_ Hf Hz _ _].
  assert (Hm := Z.mod_pos_bound (p_vaddr ph) PAGESIZE eq_refl). unfold splice, segment_bytes.
  rewrite length_take, length_drop, length_replicate, (proj2 (Z.leb_le _ _)) by lia.
  rewrite take_replicate, drop_replicate. do 3 f_equal; [|f_equal; f_equal]; lia.
Qed.

Lemma allocate_segment_ok D d ph b base B A w :
  le_ok B A D w → d ∈ D → segment_ok ph b base →
  returns_or_panics (allocate_segment d ph b base w) ∧
  ∀ w', allocate_segment d ph b base w = Done w' →
    ∃ A', placed D d (segment_start ph base) (page_no ph) (segment_bytes ph b) A A' w w' ∧ le_ok B A' D w'.
Proof.
  intros Hok Hd Hs. destruct (segment_geometry _ _ _ Hs) as (Eo & Est & Hn & Hp).
  assert (Hm := Z.mod_pos_bound (p_vaddr ph) PAGESIZE eq_refl). assert (Hdm := Z.div_mod (p_vaddr ph) PAGESIZE).
  unfold allocate_segment. rewrite (sg_load _ _ _ Hs). change (negb (PT_LOAD =? PT_LOAD)) with false. cbv iota zeta.
  replace (u64 (page_no ph * 0x1000)) with (page_no ph * PAGESIZE) by (unfold PAGESIZE; rewrite u64_small; lia).
  destruct (le_kmalloc_ok B A D (page_no ph * PAGESIZE) w Hok) as [Hret Hpost]; [unfold PAGESIZE; lia|].
  eapply (rop_bind (λ x, x.1 ≠ 0 ∧ (x.1 ∉ B) ∧ le_ok ({[x.1]} ∪ B) A D x.2 ∧ le_same D A w x.2)); [exact Hret| |].
  { intros [a w1] E. exact (Hpost a w1 E). }
  intros [a w1] (Ha & HaB & Hok1 & Hs1). cbn [fst snd] in *. rewrite (proj2 (Z.eqb_neq _ _) Ha).
  destruct Hs as [Hl Hf Hz Hb Hr] eqn:Es. clear Es. rewrite part_ok, bind_done by lia.
  rewrite (splice_segment ph b base) by done. rewrite bind_done.
  set (st := segment_start ph base) in *. set (c := segment_bytes ph b).
  assert (Hc : Z.of_nat (length c) = page_no ph * PAGESIZE) by (eapply segment_bytes_length, Hs).
  destruct (rop_for_up_lt (λ i w', ∃ A', placed D d st i c A A' w w' ∧ le_ok ({[a]} ∪ B) A' D w')
    (Z.to_nat (page_no ph)) 0 (λ i w, segment_page d st (segment_perms ph) i c w) w1) as [Hr1 Hp1].
  - intros i x Hi (A' & Hpl & Hokx). eapply (segment_page_ok D d st (page_no ph)); try done; try lia; unfold PAGESIZE in *; dlia.
  - exists A. split; [by apply placed_start|done].
  - eapply rop_bind; [exact Hr1|exact Hp1|]. intros w2 (A' & Hpl & Hok2). rewrite Z2Nat.id, Z.add_0_l in Hpl by lia.
    destruct (le_kfree_ok _ A' D a w2 Hok2) as (w3 & -> & Hok3 & Hs3); [set_solver|]. split; [apply rop_done|]. intros w' [= <-].
    exists A'. split; [by eapply placed_same|]. replace B with (({[a]} ∪ B) ∖ {[a]}) by set_solver. done.
Qed.

(** ** The segments of a program *)
Definition segment_end (ph : Elf64_Phdr) (base : Z) : Z := segment_start ph base + page_no ph * PAGESIZE.
Definition segments_apart (base : Z) (ph ph' : Elf64_Phdr) : Prop :=
  segment_end ph base ≤ segment_start ph' base ∨ segment_end ph' base ≤ segment_start ph base.

(** The segments among program headers. *)
Definition loads (phs : list Elf64_Phdr) : list Elf64_Phdr := filter (λ ph, p_type ph = PT_LOAD) phs.

(** The process sees the bytes of the file, and zeros from there to the end of the segment. *)
Definition segment_seen A d (ph : Elf64_Phdr) (b : list Z) (base : Z) w : Prop :=
  ∀ k x, 0 ≤ k < p_memsz ph →
    (if decide (k < p_filesz ph) then b !! Z.to_nat (p_offset ph + k) = Some x else x = 0) →
    sees A d (p_vaddr ph + base + k) x w.

Lemma covered_range ph b base v :
  segment_ok ph b base → 0 ≤ v < 2 ^ 47 → covered (segment_start ph base) (page_no ph) v →
  segment_start ph base ≤ v < segment_end ph base.
Proof.
  intros Hs Hv (i & Hi & E). destruct (segment_geometry _ _ _ Hs) as (Eo & Est & Hn & Hp). destruct Hs as [_ _ Hz Hb Hr].
  assert (Hm := Z.mod_pos_bound (p_vaddr ph) PAGESIZE eq_refl). assert (Hdm := Z.div_mod (p_vaddr ph) PAGESIZE).
  unfold segment_end. rewrite Eo in *. apply pages_apart in E; unfold PAGESIZE in *; dlia.
Qed.

Lemma placed_segment D d ph b base A A' w w' :
  segment_ok ph b base → placed D d (segment_start ph base) (page_no ph) (segment_bytes ph b) A A' w w' →
  segment_seen A' d ph b base w'.
Proof.
  intros Hs Hpl k x Hk Hx. destruct (segment_geometry _ _ _ Hs) as (Eo & Est & Hn & Hp).
  assert (Hm := Z.mod_pos_bound (p_vaddr ph) PAGESIZE eq_refl). destruct Hs as [_ Hf Hz Hb Hr].
  replace (p_vaddr ph + base + k) with (segment_start ph base + (vaddr_offset ph + k)) by lia.
  apply Hpl; [lia|]. unfold segment_bytes. rewrite lookup_app_r; rewrite length_replicate; [|lia].
  replace (Z.to_nat (vaddr_offset ph + k) - Z.to_nat (vaddr_offset ph))%nat with (Z.to_nat k) by lia.
  case_decide.
  - rewrite lookup_app_l; [|rewrite length_take, length_drop; lia]. rewrite lookup_take_lt, lookup_drop by lia.
    rewrite <- Hx. f_equal. lia.
  - rewrite lookup_app_r; rewrite length_take, length_drop; [|lia]. rewrite Hx. apply lookup_replicate_2. lia.
Qed.

(** The pages of the segments [phs] of [d] are in place; nothing else has changed. *)
Record in_place D (d : Z) (phs : list Elf64_Phdr) (b : list Z) (base : Z) A A' w w' : Prop := {
  ip_frames : A ⊆ A';
  ip_others d' v : d' ∈ D →
    d' ≠ d ∨ (∀ ph, ph ∈ loads phs → ¬ covered (segment_start ph base) (page_no ph) v) → le_xlate d' v w' = le_xlate d' v w;
  ip_bytes : same_bytes A w w';
  ip_seen ph : ph ∈ loads phs → segment_seen A' d ph b base w';
}.

Lemma in_place_nil D d b base A w : in_place D d [] b base A A w w.
Proof. split; [done|done|done|]. by intros ph ?%elem_of_nil. Qed.

Lemma loads_snoc phs ph : loads (phs ++ [ph]) = if decide (p_type ph = PT_LOAD) then (loads phs ++ [ph])%list else loads phs.
Proof.
  unfold loads. rewrite filter_app. destruct (decide (p_type ph = PT_LOAD)).
  - by rewrite filter_cons_True.
  - rewrite filter_cons_False by done. apply app_nil_r.
Qed.

Lemma in_place_skip D d phs ph b base A A' w w' :
  p_type ph ≠ PT_LOAD → in_place D d phs b base A A' w w' → in_place D d (phs ++ [ph]) b base A A' w w'.
Proof. intros Hne []. split; rewrite ?loads_snoc, ?decide_False by done; done. Qed.

Lemma in_place_snoc D d phs ph b base A A1 A2 w w1 w2 :
  in_place D d phs b base A A1 w w1 → d ∈ D → segment_ok ph b base →
  placed D d (segment_start ph base) (page_no ph) (segment_bytes ph b) A1 A2 w1 w2 →
  Forall (λ ph, segment_ok ph b base) (loads phs) → Forall (segments_apart base ph) (loads phs) →
  in_place D d (phs ++ [ph]) b base A A2 w w2.
Proof.
  intros [If Io Ib Is] Hd Hs Hpl Hok Hap. assert (Hty := sg_load _ _ _ Hs).
  split; rewrite ?loads_snoc, ?decide_True by done.
  - pose proof (pl_frames _ _ _ _ _ _ _ _ _ Hpl). set_solver.
  - intros d' v Hd' Hv. rewrite (pl_others _ _ _ _ _ _ _ _ _ Hpl); [|done|].
    + apply Io; [done|]. destruct Hv as [?|Hv]; [by left|right]. intros ph' Hp'. apply Hv. set_solver.
    + destruct Hv as [?|Hv]; [by left|right]. apply Hv. set_solver.
  - intros f o Hf Ho. rewrite (pl_bytes _ _ _ _ _ _ _ _ _ Hpl); [by apply Ib|set_solver|done].
  - intros ph' [Hp'| ->%list_elem_of_singleton]%elem_of_app; [|by eapply placed_segment].
    intros k x Hk Hx. eapply placed_sees; [exact Hpl|done| |by apply Is].
    rewrite Forall_forall in Hok, Hap. specialize (Hok ph' Hp'). specialize (Hap ph' Hp').
    destruct (segment_geometry _ _ _ Hok) as (Eo & Est & Hn & Hp). assert (Hm := Z.mod_pos_bound (p_vaddr ph') PAGESIZE eq_refl).
    intros Hcov. apply (covered_range _ _ _ _ Hs) in Hcov; [|destruct Hok; lia].
    unfold segments_apart, segment_end in *. lia.
Qed.

(** ** The program headers *)

(** The address a PT_PHDR header gives for the headers themselves. *)
Definition phdr_address (a : Z) (phs : list Elf64_Phdr) : Z :=
  foldl (λ a ph, if p_type ph =? PT_PHDR then p_vaddr ph else a) a phs.

(** Program headers at [phoff] of which the segments can be loaded and none names a linker. *)
Record headers_ok (phs : list Elf64_Phdr) (phoff : Z) (b : list Z) : Prop := {
  hd_read i ph : phs !! i = Some ph → program_header phoff (Z.of_nat i) b = Done ph;
  hd_static : Forall (λ ph, p_type ph ≠ PT_INTERP) phs;
  hd_segments : Forall (λ ph, segment_ok ph b 0) (loads phs);
  hd_apart i j ph ph' : loads phs !! i = Some ph → loads phs !! j = Some ph' → (i < j)%nat → segments_apart 0 ph' ph;
}.

Lemma headers_segment pre ph post phoff b :
  headers_ok (pre ++ ph :: post) phoff b → p_type ph = PT_LOAD →
  segment_ok ph b 0 ∧ Forall (λ ph, segment_ok ph b 0) (loads pre) ∧ Forall (segments_apart 0 ph) (loads pre).
Proof.
  intros [_ _ Hs Ha] Hty. assert (E : loads (pre ++ ph :: post) = (loads pre ++ ph :: loads post)%list).
  { unfold loads. rewrite filter_app. by rewrite filter_cons_True. }
  rewrite E in Hs, Ha. apply Forall_app in Hs as [Hs1 Hs2]. apply Forall_cons in Hs2 as [Hs2 _]. split_and!; [done|done|].
  apply Forall_lookup. intros i ph' Hi. eapply (Ha i (length (loads pre))).
  - apply lookup_app_l_Some, Hi.
  - by apply list_lookup_middle.
  - by eapply lookup_lt_Some.
Qed.

Lemma load_headers_ok D d phoff b post :
  ∀ pre pld B A A1 w0 w, headers_ok (pre ++ post) phoff b → d ∈ D → le_ok B A1 D w → ld_path pld = None →
  in_place D d pre b 0 A A1 w0 w →
  returns_or_panics (load_headers (length post) d phoff (Z.of_nat (length pre)) b pld w) ∧
  ∀ r w', load_headers (length post) d phoff (Z.of_nat (length pre)) b pld w = Done (r, w') →
    r = Some {| at_phdr := phdr_address (at_phdr pld) post; ld_path := None |} ∧
    ∃ A2, in_place D d (pre ++ post) b 0 A A2 w0 w' ∧ le_ok B A2 D w'.
Proof.
  induction post as [|ph post IH]; intros pre pld B A A1 w0 w Hh Hd Hok Hld Hin; cbn [length load_headers].
  - split; [apply rop_done|]. intros r w' [= <- <-]. cbn [phdr_address foldl]. rewrite app_nil_r. split; [|by eauto].
    destruct pld. cbn in *. by subst.
  - assert (Hrd := hd_read _ _ _ Hh (length pre) ph (list_lookup_middle _ _ _ _ eq_refl)).
    assert (Hni : p_type ph ≠ PT_INTERP). { eapply (Forall_lookup_1 _ _ _ _ (hd_static _ _ _ Hh)). by apply list_lookup_middle. }
    assert (Eapp : (pre ++ ph :: post = (pre ++ [ph]) ++ post)%list) by (by rewrite <- app_assoc).
    assert (Elen : Z.of_nat (length pre) + 1 = Z.of_nat (length (pre ++ [ph]))) by (rewrite length_app; cbn; lia).
    unfold load_header. rewrite Hrd, bind_done.
    rewrite Elen. rewrite Eapp in *. destruct (Z.eqb_spec (p_type ph) PT_LOAD) as [Hty|Hty].
    + rewrite <- app_assoc in Hh. destruct (headers_segment _ _ _ _ _ Hh Hty) as (Hs & Hok' & Hap). rewrite app_assoc in Hh.
      destruct (allocate_segment_ok D d ph b 0 B A1 w Hok) as [Hret Hpost]; [done|done|].
      destruct Hret as [[w1 E]|[why E]]; rewrite E; cbn [mbind outcome_bind]; [|split; [apply rop_panic|done]].
      destruct (Hpost w1 E) as (A2 & Hpl & Hok2).
      destruct (IH (pre ++ [ph])%list pld B A A2 w0 w1 Hh Hd Hok2 Hld) as [Hr Hp]; [by eapply in_place_snoc|].
      split; [exact Hr|]. intros r w' Er. destruct (Hp r w' Er) as [-> Hx]. split; [|exact Hx].
      cbn [phdr_address foldl]. by rewrite Hty.
    + destruct (Z.eqb_spec (p_type ph) PT_PHDR) as [Hty2|Hty2].
      * cbn [mbind outcome_bind].
        destruct (IH (pre ++ [ph])%list {| at_phdr := p_vaddr ph; ld_path := ld_path pld |} B A A1 w0 w Hh Hd Hok Hld) as [Hr Hp];
          [by apply in_place_skip|].
        split; [exact Hr|]. intros r w' Er. destruct (Hp r w' Er) as [-> Hx]. split; [|exact Hx].
        cbn [phdr_address foldl at_phdr]. by rewrite Hty2.
      * rewrite (proj2 (Z.eqb_neq _ _) Hni). cbn [mbind outcome_bind].
        destruct (IH (pre ++ [ph])%list pld B A A1 w0 w Hh Hd Hok Hld) as [Hr Hp]; [by apply in_place_skip|].
        split; [exact Hr|]. intros r w' Er. destruct (Hp r w' Er) as [-> Hx]. split; [|exact Hx].
        cbn [phdr_address foldl]. by rewrite (proj2 (Z.eqb_neq _ _) Hty2).
Qed.

(** ** A program *)

(** A static executable for this machine: its headers and what they say. *)
Record executable (b : list Z) (phs : list Elf64_Phdr) (entry phent : Z) : Prop := {
  ex_magic : parse_elf_file b = Done true;
  ex_class : ∃ c, e_class b = Done c ∧ c ≠ ELFCLASS32;
  ex_type : e_type b = Done ET_EXEC;
  ex_headers : ∃ phoff, e_phoff b = Done phoff ∧ headers_ok phs phoff b;
  ex_number : e_phnum b = Done (Z.of_nat (length phs));
  ex_entry : e_entry b = Done entry;
  ex_size : e_phentsize b = Done phent;
}.

(** A new address space that holds the program and nothing else of its own, next to unchanged
    ones. *)
Record loaded D (d : Z) (b : list Z) (phs : list Elf64_Phdr) A A' w w' : Prop := {
  ld_new : d ∉ D;
  ld_frames : A ⊆ A';
  ld_seen ph : ph ∈ loads phs → segment_seen A' d ph b 0 w';
  ld_empty v : user_half v → (∀ ph, ph ∈ loads phs → ¬ covered (segment_start ph 0) (page_no ph) v) → le_xlate d v w' = Done 0;
  ld_others : same_spaces D w w';
  ld_bytes : same_bytes A w w';
}.

(** The part of a load behind the checks of the header. *)
Definition load_body (b : list Z) (phs : list Elf64_Phdr) (phoff entry phent argc : Z) (argv : list Z) (envp : option (list Z)) w
    : outcome (option Z * W) :=
  '(d, w) ← le_get_new_pd USER_TASK w;
  '(r, w) ← load_headers (length phs) d phoff 0 b {| at_phdr := 0; ld_path := None |} w;
  match r with
  | None => Done (Some 0, w)
  | Some pld =>
      let aux := auxv_of entry (at_phdr pld) phent (Z.of_nat (length phs)) in
      match ld_path pld with
      | Some l =>
          path ← chars_of l;
          '(r, w) ← load_linker d path b w;
          match r with
          | None => Done (Some 0, w)
          | Some e => w ← spawn e argc argv envp aux d w; Done (None, w)
          end
      | None => w ← spawn entry argc argv envp aux d w; Done (None, w)
      end
  end.

Lemma load_elf_body b phs entry phent argc argv envp w :
  executable b phs entry phent →
  ∃ phoff, headers_ok phs phoff b ∧ elf_load_elf b argc argv envp w = load_body b phs phoff entry phent argc argv envp w.
Proof.
  intros [Em (c & Ec & Hc) Et (phoff & Eo & Hh) En Ee Es]. exists phoff. split; [done|].
  unfold elf_load_elf. rewrite Em, bind_done. cbn [negb]. rewrite Ec, bind_done, (proj2 (Z.eqb_neq _ _) Hc), Et, bind_done.
  change (ET_EXEC =? ET_DYN) with false. change (negb (ET_EXEC =? ET_EXEC)) with false. cbv iota.
  rewrite Eo, bind_done. apply bind_ext. intros [d w1]. rewrite En, bind_done, Nat2Z.id.
  apply bind_ext. intros [[pld|] w2]; [|done]. by rewrite Ee, bind_done, Es, bind_done.
Qed.

Lemma load_program_ok b phs entry phent argc argv envp B A D w :
  le_ok B A D w → executable b phs entry phent →
  (∃ why, elf_load_elf b argc argv envp w = Panic why) ∨
  ∃ d A' w', loaded D d b phs A A' w w' ∧ le_ok B A' ({[d]} ∪ D) w' ∧
    elf_load_elf b argc argv envp w =
      (w2 ← spawn entry argc argv envp (auxv_of entry (phdr_address 0 phs) phent (Z.of_nat (length phs))) d w'; Done (None, w2)).
Proof.
  intros Hok Hex. destruct (load_elf_body b phs entry phent argc argv envp w Hex) as (phoff & Hh & ->). unfold load_body.
  destruct (le_get_new_pd_ok B A D w Hok) as [[[[d w1] Ed]|[why Ed]] Hpost]; rewrite Ed; [|left; by eauto].
  destruct (Hpost d w1 Ed) as (Hnew & Hok1 & [Hs1 Hb1] & Hz). rewrite bind_done.
  destruct (load_headers_ok ({[d]} ∪ D) d phoff b phs [] {| at_phdr := 0; ld_path := None |} B A A w1 w1) as [Hret Hp]; try done.
  { set_solver. }
  { apply in_place_nil. }
  change (Z.of_nat (length (@nil Elf64_Phdr))) with 0 in *.
  destruct Hret as [[[r w2] El]|[why El]]; rewrite El; cbn [mbind outcome_bind]; [right|left; by eauto].
  destruct (Hp r w2 El) as [-> (A2 & [If Io Ib Is] & Hok2)]. exists d, A2, w2. split; [|split; [done|reflexivity]]. split.
  - done.
  - done.
  - exact Is.
  - intros v Hu Hv. rewrite Io by (set_solver || auto). by apply Hz.
  - intros d' v Hd'. rewrite Io; [by apply Hs1|set_solver|]. left. intros ->. done.
  - intros f o Hf Ho. rewrite Ib by done. by apply Hb1.
Qed.

(** Anything else is refused before anything is touched. *)
Lemma load_refused b argc argv envp w :
  parse_elf_file b = Done false ∨
  (parse_elf_file b = Done true ∧ e_class b = Done ELFCLASS32) ∨
  (parse_elf_file b = Done true ∧ ∃ c t, e_class b = Done c ∧ e_type b = Done t ∧ t ≠ ET_EXEC) →
  elf_load_elf b argc argv envp w = Done (Some 0, w).
Proof.
  unfold elf_load_elf. intros [->|[[-> ->]|[-> (c & t & -> & -> & Ht)]]]; [done|done|]. cbn [mbind outcome_bind negb].
  destruct (c =? ELFCLASS32); [done|]. destruct (t =? ET_DYN); [done|]. by rewrite (proj2 (Z.eqb_neq _ _) Ht).
Qed.
End segment.
