(* ===== verification/LoaderMmu.v ===== *)
(** * The loader on the page tables (src/src/proc/loader.c, src/src/memory/paging.c)

    The services of the loader from the page tables, an allocator for its buffers and the bytes
    of physical memory, which the kernel reaches through its map.  The entries of tables and the
    bytes of data pages are kept apart: a frame that was handed out is not handed out again.  The
    files and the tasks are those of an interface. *)
From Stdlib Require Import String.
From stdpp Require Import gmap.
From S2P Require Import Prelude PageAlloc PageService Alloc Paging PagingSpec PagingCopy AddressSpace CString Scheduler Loader LoaderSegment.
#[local] Open Scope Z_scope.

(** ** The frames in use only grow *)

(** Between two states of the allocator. *)
Definition pool_grows (a a' : pmm) : Prop :=
  pmm_wf a → pmm_wf a' ∧
  total_available_pages (memory a') = total_available_pages (memory a) ∧
  first_available_page_addr (memory a') = first_available_page_addr (memory a) ∧
  ∀ j, page_used a j = Some true → page_used a' j = Some true.

#[global] Instance pool_grows_preorder : PreOrder pool_grows.
Proof.
  split; [by intros a Ha|]. intros a b c Hab Hbc Ha. destruct (Hab Ha) as (Hb & T1 & F1 & U1).
  destruct (Hbc Hb) as (Hc & T2 & F2 & U2). split_and!; [done|congruence|congruence|auto].
Qed.

Lemma request_frame_grows s p s' : request_frame s = Done (p, s') → pool_grows (frames s) (frames s').
Proof.
  intros E Ha. unfold request_frame in E. inv_done. simplify_eq.
  match goal with H : request_page _ = Done _ |- _ => destruct (request_page_inv _ _ _ Ha H) as (i & Hi & Hf & -> & ->) end.
  split_and!; [by apply allocated_wf; eauto|done|done|].
  intros j Hj. cbn [frames with_frames]. rewrite page_used_allocated by eauto. by case_decide.
Qed.

Lemma get_table_grows K R err t i s r : get_table K R err t i s = Done r → pool_grows (frames s) (frames r.2).
Proof.
  unfold get_table. intros E. apply bind_done_inv in E as (pde & _ & E). cbv beta in E. case_match; [|by inversion_clear E].
  apply bind_done_inv in E as ([p s1] & E1 & E). case_match; [done|]. simplify_eq. exact (request_frame_grows _ _ _ E1).
Qed.

Lemma map_memory_grows t v p flags s s' : map_memory t v p flags s = Done s' → pool_grows (frames s) (frames s').
Proof.
  unfold map_memory, map_memory_hh, map_page. intros E. do 2 (case_match; [done|]).
  apply bind_done_inv in E as ([t1 s1] & E1%get_table_grows & E). apply bind_done_inv in E as ([t2 s2] & E2%get_table_grows & E).
  apply bind_done_inv in E as ([t3 s3] & E3%get_table_grows & E). apply bind_done_inv in E as (e & _ & E). simplify_eq.
  cbn [fst snd] in *. by rewrite E1, E2, E3.
Qed.

Lemma for_up_grows n i body s s' :
  (∀ k x y, body k x = Done y → pool_grows (frames x) (frames y)) → for_up n i body s = Done s' → pool_grows (frames s) (frames s').
Proof.
  intros Hb. apply (for_up_inv (λ _ x, pool_grows (frames s) (frames x))); [|done].
  intros k x y _ Hx E. by rewrite Hx, (Hb _ _ _ E).
Qed.

Lemma frames_store t i e s : frames (store_entry t i e s) = frames s.
Proof. done. Qed.
Lemma frames_copy d p s : frames (copy_table d p s) = frames s.
Proof. done. Qed.
Lemma frames_zero p s : frames (zero_table p s) = frames s.
Proof. done. Qed.

Lemma copy_present_grows pt new s s' : copy_present pt new s = Done s' → pool_grows (frames s) (frames s').
Proof.
  apply for_up_grows. intros k x y E. apply bind_done_inv in E as (pte & _ & E). cbv beta in E.
  destruct (present pte =? 0); injection E as <-; [|rewrite frames_store]; reflexivity.
Qed.

Lemma duplicate_entry_grows pd new j s s' : duplicate_entry pd new j s = Done s' → pool_grows (frames s) (frames s').
Proof.
  unfold duplicate_entry. intros E. apply bind_done_inv in E as (pde & _ & E). cbv beta in E.
  destruct (present pde =? 0); [by injection E as <-|].
  apply bind_done_inv in E as ([p s1] & E1%request_frame_grows & E). destruct (p =? 0); [discriminate E|].
  apply copy_present_grows in E. rewrite frames_store, frames_copy in E. by rewrite E1.
Qed.

Lemma duplicate_directory_grows father pml i s s' : duplicate_directory father pml i s = Done s' → pool_grows (frames s) (frames s').
Proof.
  unfold duplicate_directory. intros E. apply bind_done_inv in E as (pde & _ & E). cbv beta in E.
  destruct (present pde =? 0); [by injection E as <-|].
  apply bind_done_inv in E as ([p s1] & E1%request_frame_grows & E). destruct (p =? 0); [discriminate E|].
  apply for_up_grows in E; [|intros k x y; apply duplicate_entry_grows]. rewrite frames_store, frames_copy in E. by rewrite E1.
Qed.

Lemma duplicate_grows s r : duplicate_current_kernel_pml4 s = Done r → pool_grows (frames s) (frames r.2).
Proof.
  unfold duplicate_current_kernel_pml4, _duplicate_pd, duplicate_tables. intros E.
  apply bind_done_inv in E as ([pml s3] & E & [= <-]). apply bind_done_inv in E as ([p s1] & E1%request_frame_grows & E).
  destruct (p =? 0); [discriminate E|]. apply bind_done_inv in E as (s2 & E & [= _ <-]). cbn [snd].
  apply for_up_grows in E; [|intros k x y; apply duplicate_directory_grows]. rewrite frames_zero in E. by rewrite E1.
Qed.

(** ** The world of the loader *)

(** The files and the tasks. *)
Class LoaderClients (T : Type) := {
  lc_file_open : list Z → Z → Z → T → outcome (Z * T);
  lc_file_seek : Z → Z → Z → T → outcome (Z * T);
  lc_file_tell : Z → T → outcome (Z * T);
  lc_file_read : Z → Z → T → outcome (Z * list Z * T);
  lc_file_close : Z → T → outcome (Z * T);
  lc_create_task : Z → list Z → Z → Z → list Z → option (list Z) → option (list (Z * Z)) → Z → T → outcome (Z * T);
  lc_add_task : Z → T → outcome T;
}.

Section world.
Context {HT : Type} `{AllocatorOk HT} {T : Type} `{LoaderClients T}.

Record lworld := LW { lw_mmu : mmu; lw_bytes : bytes_mem; lw_heap : HT; lw_clients : T }.
Implicit Types w : lworld.

Definition on_mmu {R} (f : mmu → outcome (R * mmu)) w : outcome (R * lworld) :=
  '(r, s) ← f (lw_mmu w); Done (r, LW s (lw_bytes w) (lw_heap w) (lw_clients w)).
Definition on_clients {R} (f : T → outcome (R * T)) w : outcome (R * lworld) :=
  '(r, c) ← f (lw_clients w); Done (r, LW (lw_mmu w) (lw_bytes w) (lw_heap w) c).

(** A page that was handed out. *)
Definition used_page (a : pmm) (f : Z) : bool :=
  let j := (f - first_available_page_addr (memory a)) / PAGESIZE in
  (0 <=? j) && (j <=? total_available_pages (memory a)) && bool_decide (page_used a j = Some true).

(** A store within one page, through the map of the kernel. *)
Definition store_direct (a : Z) (l : list Z) w : outcome lworld :=
  let f := FROM_KERNEL_MAP a in
  if used_page (frames (lw_mmu w)) f && (f mod PAGESIZE + Z.of_nat (length l) <=? PAGESIZE)
  then Done (LW (lw_mmu w) (write_bytes (lw_bytes w) f l) (lw_heap w) (lw_clients w)) else Fault.

#[global] Instance lworld_env : LoaderEnv lworld := {|
  le_kmalloc n w := '(a, h) ← al_malloc n (lw_heap w); Done (a, LW (lw_mmu w) (lw_bytes w) h (lw_clients w));
  le_kfree a w := h ← al_free a (lw_heap w); Done (LW (lw_mmu w) (lw_bytes w) h (lw_clients w));
  le_request_page := on_mmu request_frame;
  le_get_pml4 w := get_pml4 (lw_mmu w);
  le_virtual_to_physical t v w := virtual_to_physical t v (lw_mmu w);
  le_map_memory t v p flags w := '(_, w) ← on_mmu (λ s, s ← map_memory t v p flags s; Done (tt, s)) w; Done w;
  le_store := store_direct;
  le_get_new_pd privilege w :=
    '(pd, w) ← on_mmu (if privilege =? KERNEL_TASK then duplicate_current_pml4 else duplicate_current_kernel_pml4) w;
    Done (FROM_KERNEL_MAP pd, w);
  le_file_open path flags mode := on_clients (lc_file_open path flags mode);
  le_file_seek fd off whence := on_clients (lc_file_seek fd off whence);
  le_file_tell fd := on_clients (lc_file_tell fd);
  le_file_read fd n := on_clients (lc_file_read fd n);
  le_file_close fd := on_clients (lc_file_close fd);
  le_create_task init tty privilege argc argv envp auxv pd := on_clients (lc_create_task init tty privilege argc argv envp auxv pd);
  le_add_task t w := '(_, w) ← on_clients (λ c, c ← lc_add_task t c; Done (tt, c)) w; Done w;
|}.
#[global] Instance lworld_view : LoaderView lworld := λ w a, lw_bytes w !! a.

(** The frames [A] were handed out. *)
Definition held (A : gset Z) (s : mmu) : Prop :=
  ∀ f, f ∈ A → ∃ j, 0 ≤ j ≤ total_available_pages (memory (frames s)) ∧
    page_used (frames s) j = Some true ∧ f = page_addr (frames s) j.

(** The current directory maps the frames of the allocator at their place in the kernel's map. *)
Definition direct (s : mmu) : Prop :=
  ∀ j, 0 ≤ j ≤ total_available_pages (memory (frames s)) →
    virtual_to_physical (get_pml4 s) (TO_KERNEL_MAP (page_addr (frames s) j)) s = Done (page_addr (frames s) j).

Record spaces_at (A D : gset Z) (s : mmu) (W : gmap Z space) : Prop := {
  sa_ok : spaces_ok s W;
  sa_current : directory W (get_pml4 s);
  sa_dirs d : d ∈ D → 0 ≤ d < 2 ^ 40 ∧ directory W (TO_KERNEL_MAP d);
  sa_held : held A s;
  sa_direct : direct s;
}.
Definition lworld_ok (B A D : gset Z) w : Prop := al_ok B (lw_heap w) ∧ ∃ W, spaces_at A D (lw_mmu w) W.

Lemma held_grows A s s' : pmm_wf (frames s) → pool_grows (frames s) (frames s') → held A s → held A s'.
Proof.
  intros Ha Hg Hh f Hf. destruct (Hg Ha) as (_ & Et & Ef & Hu). destruct (Hh f Hf) as (j & Hj & Hju & ->).
  exists j. unfold page_addr. rewrite Et, Ef. auto.
Qed.

Lemma kernel_map_upper p : 0 ≤ p < 2 ^ 40 → 256 ≤ PDP_i (address_to_map (TO_KERNEL_MAP p)).
Proof.
  intros Hp. rewrite address_to_map_eq. cbn [PDP_i]. unfold TO_KERNEL_MAP, IDENTITY_MAP_START. rewrite u64_small by lia. dlia.
Qed.

(** The frames of the allocator lie below 2^40. *)
Lemma page_addr_low s W j :
  spaces_ok s W → 0 ≤ j ≤ total_available_pages (memory (frames s)) → 0 ≤ page_addr (frames s) j < 2 ^ 40.
Proof.
  intros [Hok _] Hj. assert (Hl := tk_low _ _ _ _ Hok). destruct (tk_pmm _ _ _ _ Hok) as [? ? Hlast _ _ _ _].
  unfold page_addr, PAGESIZE in *. lia.
Qed.

(** What keeps the pool and the translations of the upper half of the current directory keeps the
    map of the kernel. *)
Lemma direct_grows s s' W :
  spaces_ok s W → pool_grows (frames s) (frames s') → get_pml4 s' = get_pml4 s → direct s →
  (∀ v, 256 ≤ PDP_i (address_to_map v) → virtual_to_physical (get_pml4 s) v s' = virtual_to_physical (get_pml4 s) v s) → direct s'.
Proof.
  intros Hok Hg Eg Hd Hv j Hj. destruct (Hg (tk_pmm _ _ _ _ (proj1 Hok))) as (_ & Et & Ef & _).
  assert (Ep : page_addr (frames s') j = page_addr (frames s) j) by (unfold page_addr; by rewrite Ef).
  rewrite Ep, Eg. rewrite Et in Hj. rewrite Hv; [by apply Hd|]. apply kernel_map_upper. by eapply page_addr_low.
Qed.

(** ** The laws *)
Lemma request_at A D s W :
  spaces_at A D s W → returns_or_panics (request_frame s) ∧
  ∀ p s', request_frame s = Done (p, s') →
    (p ∉ A) ∧ spaces_at ({[p]} ∪ A) D s' W ∧ ∀ t v, virtual_to_physical t v s' = virtual_to_physical t v s.
Proof.
  intros [Hok Hc Hd Hh Hm]. destruct (request_frame_rop _ _ _ _ Hok) as [Hret Hpost]. split; [exact Hret|].
  intros p s' E. destruct (Hpost _ E) as [Hok' Hcr]. cbn [snd] in *. assert (Hg := request_frame_grows _ _ _ E).
  destruct Hok as [Hok Hlv]. destruct (request_frame_fresh _ _ _ _ _ _ Hok E) as (_ & Et & _).
  assert (Hv : ∀ t v, virtual_to_physical t v s' = virtual_to_physical t v s).
  { intros t v. unfold virtual_to_physical, find_table, next_table, load_entry. by rewrite Et. }
  unfold request_frame in E. apply bind_done_inv in E as ([p' a] & E & Es). injection Es as -> <-.
  destruct (request_page_inv _ _ _ (tk_pmm _ _ _ _ Hok) E) as (i & Hi & Hf & -> & ->).
  split; [|split; [|exact Hv]].
  - intros Hin. destruct (Hh _ Hin) as (j & _ & Hj & Ej). apply page_addr_inj in Ej. congruence.
  - split; [done|exact Hc|done| |].
    + intros f [->%elem_of_singleton|Hin]%elem_of_union; [|by eapply held_grows; [..|exact Hin]; [apply Hok|exact Hg|]].
      exists i. cbn [frames with_frames]. rewrite page_used_allocated, decide_True by eauto. done.
    + eapply direct_grows; [split; [exact Hok|exact Hlv]|exact Hg|done|done|]. intros v _. apply Hv.
Qed.

Lemma map_at A D s W d v p flags :
  spaces_at A D s W → d ∈ D → p ∈ A → user_half v →
  returns_or_panics (map_memory (TO_KERNEL_MAP d) v p flags s) ∧
  ∀ s', map_memory (TO_KERNEL_MAP d) v p flags s = Done s' →
    (∃ W', spaces_at A D s' W') ∧ virtual_to_physical (TO_KERNEL_MAP d) v s' = Done p ∧
    ∀ d' v', d' ∈ D → d' ≠ d ∨ address_to_map v' ≠ address_to_map v →
      virtual_to_physical (TO_KERNEL_MAP d') v' s' = virtual_to_physical (TO_KERNEL_MAP d') v' s.
Proof.
  intros [Hok Hc Hd Hh Hm] Hin Hp Hu. destruct (Hd d Hin) as [Hd40 Hdir].
  destruct (map_spaces _ v p flags s W Hok Hdir) as [Hret Hpost]. split; [exact Hret|]. intros s' E.
  destruct (Hpost s' E) as (W' & Hok' & Hsub & Hcr & Ht & Hoth). assert (Hg := map_memory_grows _ _ _ _ _ _ E).
  assert (Hdir' : ∀ t, directory W t → directory W' t) by (intros t Hx; exact (lookup_weaken _ _ _ _ Hx Hsub)).
  split; [exists W'; split|split].
  - done.
  - unfold get_pml4. rewrite Hcr. by apply Hdir'.
  - intros d' Hd'. destruct (Hd d' Hd'). split; [done|by apply Hdir'].
  - eapply held_grows; [apply Hok|exact Hg|done].
  - eapply direct_grows; [exact Hok|exact Hg|unfold get_pml4; by rewrite Hcr|done|]. intros v' Hv'. apply Hoth; [done|left].
    intros Ev. unfold user_half in Hu. rewrite Ev in Hv'. lia.
  - apply Ht. destruct (Hh p Hp) as (j & Hj & _ & ->). by eapply page_addr_low.
  - intros d' v' Hd' Hne. destruct (Hd d' Hd') as [Hd40' Hdir'']. apply Hoth; [done|].
    destruct Hne as [Hne|Hne]; [right|by left]. split; [|done]. by rewrite !(reach_frame _ _ reaches_kernel).
Qed.

(** A new directory. *)
Lemma duplicate_shape s c s' W :
  spaces_ok s W → duplicate_current_kernel_pml4 s = Done (c, s') → ∃ p, c = TO_KERNEL_MAP p ∧ 0 ≤ p < 2 ^ 40.
Proof.
  intros [Hok _]. unfold duplicate_current_kernel_pml4, _duplicate_pd, duplicate_tables. intros E.
  apply bind_done_inv in E as ([pml s3] & E & [= <- _]). apply bind_done_inv in E as ([p s1] & E1 & E).
  destruct (p =? 0); [discriminate E|]. apply bind_done_inv in E as (s2 & _ & [= <- _]).
  exists p. split; [done|]. by destruct (request_frame_fresh _ _ _ _ _ _ Hok E1) as (_ & _ & _ & _ & ? & _).
Qed.

Lemma kernel_map_back p : 0 ≤ p < 2 ^ 40 → FROM_KERNEL_MAP (TO_KERNEL_MAP p) = p.
Proof. apply (reach_back _ _ reaches_kernel). Qed.

Lemma new_space_at A D s W :
  spaces_at A D s W →
  returns_or_panics (duplicate_current_kernel_pml4 s) ∧
  ∀ c s' (d := FROM_KERNEL_MAP c), duplicate_current_kernel_pml4 s = Done (c, s') →
    (d ∉ D) ∧ (∃ W', spaces_at A ({[d]} ∪ D) s' W') ∧
    (∀ d' v, d' ∈ D → virtual_to_physical (TO_KERNEL_MAP d') v s' = virtual_to_physical (TO_KERNEL_MAP d') v s) ∧
    ∀ v, user_half v → virtual_to_physical (TO_KERNEL_MAP d) v s' = Done 0.
Proof.
  intros [Hok Hc Hd Hh Hm]. destruct (new_space s W Hok Hc) as [Hret Hpost]. split; [exact Hret|]. intros c s' d E.
  destruct (duplicate_shape s c s' W Hok E) as (p & Ec & Hp). assert (Ed : d = p) by (unfold d; subst c; by apply kernel_map_back).
  clearbody d. subst c d. destruct (Hpost _ _ E) as (W' & Hok' & Hsub & Hfr & Hdir & Hg & Hold & Hnew).
  assert (Hgr := duplicate_grows _ _ E). cbn [snd] in Hgr. rewrite (reach_frame _ _ reaches_kernel) in Hfr by done.
  assert (Hdir' : ∀ t, directory W t → directory W' t) by (intros t Hx; exact (lookup_weaken _ _ _ _ Hx Hsub)).
  split; [|split; [exists W'; split|split]].
  - intros Hin. destruct (Hd p Hin) as [_ Hx]. unfold directory in Hx. rewrite (reach_frame _ _ reaches_kernel) in Hx by done.
    pose proof (eq_trans (eq_sym Hfr) Hx) as [=].
  - done.
  - rewrite Hg. by apply Hdir'.
  - intros d' [->%elem_of_singleton|Hd']%elem_of_union; [done|]. destruct (Hd d' Hd'). split; [done|by apply Hdir'].
  - eapply held_grows; [apply Hok|exact Hgr|done].
  - eapply direct_grows; [exact Hok|exact Hgr|done|done|]. intros v _. by apply Hold.
  - intros d' v Hd'. apply Hold. by apply Hd.
  - intros v Hv. rewrite Hnew. by rewrite decide_True.
Qed.

Lemma on_mmu_ok {R} (f : mmu → outcome (R * mmu)) (Q : R → mmu → Prop) w :
  returns_or_panics (f (lw_mmu w)) → (∀ r s', f (lw_mmu w) = Done (r, s') → Q r s') →
  returns_or_panics (on_mmu f w) ∧
  ∀ r w', on_mmu f w = Done (r, w') → ∃ s', Q r s' ∧ w' = LW s' (lw_bytes w) (lw_heap w) (lw_clients w).
Proof.
  intros Hret Hpost. unfold on_mmu. destruct Hret as [[[r s'] E]|[why E]]; rewrite E; cbn; [|split; [apply rop_panic|done]].
  split; [apply rop_done|]. intros r' w' [= <- <-]. eauto.
Qed.

Lemma store_direct_ok A s W p l w :
  spaces_at A ∅ s W → lw_mmu w = s → p ∈ A → Z.of_nat (length l) ≤ PAGESIZE →
  store_direct (TO_KERNEL_MAP p) l w = Done (LW (lw_mmu w) (write_bytes (lw_bytes w) p l) (lw_heap w) (lw_clients w)) ∧
  p mod PAGESIZE = 0.
Proof.
  intros Hs <- Hp Hl. destruct (sa_held _ _ _ _ Hs p Hp) as (j & Hj & Hu & ->).
  assert (Hlow := page_addr_low _ _ j (sa_ok _ _ _ _ Hs) Hj).
  assert (Hal := tk_aligned _ _ _ _ (proj1 (sa_ok _ _ _ _ Hs))).
  assert (Hm : page_addr (frames (lw_mmu w)) j mod PAGESIZE = 0) by (unfold page_addr, PAGESIZE in *; dlia).
  split; [|done]. unfold store_direct. rewrite kernel_map_back, Hm by done.
  assert (used_page (frames (lw_mmu w)) (page_addr (frames (lw_mmu w)) j) = true) as ->.
  { unfold used_page. cbv zeta.
    assert ((page_addr (frames (lw_mmu w)) j - first_available_page_addr (memory (frames (lw_mmu w)))) / PAGESIZE = j) as ->
      by (unfold page_addr, PAGESIZE; dlia).
    rewrite (proj2 (Z.leb_le 0 j)), (proj2 (Z.leb_le j _)) by lia. by rewrite bool_decide_eq_true_2. }
  by rewrite (proj2 (Z.leb_le (0 + Z.of_nat (length l)) PAGESIZE)) by lia.
Qed.

Lemma spaces_at_sub A D D' s W : spaces_at A D s W → D' ⊆ D → spaces_at A D' s W.
Proof. intros [] HD. split; try done. intros d Hd. auto. Qed.

#[global] Instance lworld_laws : LoaderEnvOk lworld.
Proof.
  refine {| le_ok := lworld_ok |}.
  - intros B A D n w [Hal HW] Hn. destruct (al_malloc_ok B n (lw_heap w) Hal Hn) as [Hret Hpost]. cbn [le_kmalloc lworld_env].
    destruct Hret as [[[a h] E]|[why E]]; rewrite E; cbn [mbind outcome_bind]; [|split; [apply rop_panic|done]].
    split; [apply rop_done|]. intros a' w' [= <- <-]. destruct (Hpost a h E) as [Ha Hal'].
    split; [|split; [done|split; [done|done]]]. eapply al_nonnull; [exact Hal'|set_solver].
  - intros B A D a w [Hal HW] Ha. destruct (al_free_ok B a (lw_heap w) Hal Ha) as (h & E & Hal'). cbn [le_kfree lworld_env].
    rewrite E. eexists. split; [reflexivity|]. done.
  - intros B A D w [Hal (W & HW)]. destruct (request_at A D _ W HW) as [Hret Hpost].
    destruct (on_mmu_ok request_frame _ w Hret Hpost) as [Hr Hp]. split; [exact Hr|]. intros p w' E.
    destruct (Hp p w' E) as (s' & (Hp1 & Hp2 & Hp3) & ->). split; [done|]. split; [split; [done|by exists W]|]. split; [|done].
    intros d v _. apply Hp3.
  - intros B A D p w [_ (W & HW)] Hp. destruct (sa_held _ _ _ _ HW p Hp) as (j & Hj & _ & ->). by apply (sa_direct _ _ _ _ HW).
  - intros B A D d v v' w [_ (W & HW)] Hd Ev. destruct (sa_dirs _ _ _ _ HW d Hd) as [_ Hdir].
    destruct (sa_ok _ _ _ _ HW) as [Hok _]. unfold le_xlate. cbn [le_virtual_to_physical lworld_env].
    rewrite !(virtual_to_physical_walk _ _ level_child_spaces _ W _ _ _ Hok Hdir) by done. by rewrite (address_to_map_page v v' Ev).
  - intros B A D d v p flags w [Hal (W & HW)] Hd Hp Hu. destruct (map_at A D _ W d v p flags HW Hd Hp Hu) as [Hret Hpost].
    cbn [le_map_memory lworld_env]. unfold on_mmu.
    destruct Hret as [[s' E]|[why E]]; rewrite E; cbn [mbind outcome_bind]; [|split; [apply rop_panic|done]].
    split; [apply rop_done|]. intros w' [= <-]. destruct (Hpost s' E) as ((W' & HW') & Ht & Ho).
    split; [split; [done|by exists W']|]. split; [exact Ht|]. split; [exact Ho|done].
  - intros B A D p l w [Hal (W & HW)] Hp Hl.
    destruct (store_direct_ok A (lw_mmu w) W p l w) as [E Hm]; [eapply spaces_at_sub; [exact HW|set_solver]|done|done|done|].
    eexists. split; [exact E|]. split; [split; [done|by exists W]|]. split; [done|]. intros f o Hf Ho. cbn [le_byte lworld_view lw_bytes].
    destruct (store_direct_ok A (lw_mmu w) W f [] w) as [_ Hmf]; [eapply spaces_at_sub; [exact HW|set_solver]|done|done|done|].
    case_decide as Hc.
    + destruct Hc as [-> Hc]. destruct (lookup_lt_is_Some_2 l (Z.to_nat o)) as [b Hb]; [lia|]. rewrite Hb.
      pose proof (write_bytes_inside (lw_bytes w) p l _ _ Hb) as Hw. rewrite Z2Nat.id in Hw by lia. exact Hw.
    + apply write_bytes_outside. intros Hin. apply Hc. unfold PAGESIZE in *. split; dlia.
  - intros B A D w [Hal (W & HW)]. destruct (new_space_at A D _ W HW) as [Hret Hpost].
    cbn [le_get_new_pd lworld_env]. change (USER_TASK =? KERNEL_TASK) with false. cbv iota. unfold on_mmu.
    destruct Hret as [[[c s'] E]|[why E]]; rewrite E; cbn [mbind outcome_bind]; [|split; [apply rop_panic|done]].
    split; [apply rop_done|]. intros d w' [= <- <-]. destruct (Hpost c s' E) as (Hn & (W' & HW') & Ho & Hz).
    split; [done|]. split; [split; [done|by exists W']|]. split; [split; [exact Ho|done]|exact Hz].
Defined.
End world.
