(* ===== verification/LoaderSpec.v ===== *)
(** * Loading a program (src/src/proc/loader.c)

    What a process sees of its executable, and an executable loaded on page tables of which the
    kernel maps every frame. *)
From stdpp Require Import gmap.
From S2P Require Import Prelude PageAlloc PageService Alloc Paging PagingSpec AddressSpace Heap KernelHeap CString Scheduler Loader LoaderSegment LoaderMmu.
#[local] Open Scope Z_scope.


(** ** An executable and a kernel to load it *)
Definition le_bytes (n : nat) (v : Z) : list Z := (λ i, v / 2 ^ (8 * i) mod 256) <$> seqZ 0 (Z.of_nat n).

Definition header_bytes (t flags off vaddr filesz memsz : Z) : list Z :=
  (le_bytes 4 t ++ le_bytes 4 flags ++ le_bytes 8 off ++ le_bytes 8 vaddr ++ le_bytes 8 vaddr ++ le_bytes 8 filesz ++
   le_bytes 8 memsz ++ le_bytes 8 0x1000)%list.

(** Two program headers and four bytes of code. *)
Definition small_elf : list Z :=
  (ELFMAG ++ [2; 1; 1] ++ replicate 9 0 ++ le_bytes 2 ET_EXEC ++ le_bytes 2 62 ++ le_bytes 4 1 ++
   le_bytes 8 0x4000b0 ++ le_bytes 8 64 ++ le_bytes 8 0 ++ le_bytes 4 0 ++ le_bytes 2 64 ++ le_bytes 2 56 ++ le_bytes 2 2 ++
   le_bytes 6 0 ++
   header_bytes PT_PHDR 4 64 0x400040 112 112 ++ header_bytes PT_LOAD 5 0 0x400000 180 200 ++ [0xf4; 0xeb; 0xfd; 0x90])%list.
Definition small_headers : list Elf64_Phdr := [Phdr PT_PHDR 4 64 0x400040 112 112; Phdr PT_LOAD 5 0 0x400000 180 200].

Lemma small_executable : executable small_elf small_headers 0x4000b0 56.
Proof.
  split; [by vm_compute|exists 2; by vm_compute|by vm_compute| |by vm_compute..]. exists 64. split; [by vm_compute|].
  assert (El : loads small_headers = [Phdr PT_LOAD 5 0 0x400000 180 200]) by done. split.
  - intros i ph Hi. do 2 (destruct i as [|i]; [injection Hi as <-; by vm_compute|]). discriminate Hi.
  - repeat constructor; done.
  - rewrite El. constructor; [|constructor]. split; vm_compute; try done; repeat split; done.
  - rewrite El. intros [|i] [|j] ph ph' Hi Hj Hij; [lia|discriminate Hj|discriminate Hi|discriminate Hi].
Qed.

(** Tasks are recorded with their entry and address space; there are no files. *)
#[local] Instance log_clients : LoaderClients (list (Z * Z)) := {|
  lc_file_open _ _ _ c := Done (-1, c);
  lc_file_seek _ _ _ c := Done (-1, c);
  lc_file_tell _ c := Done (-1, c);
  lc_file_read _ _ c := Done (-1, [], c);
  lc_file_close _ c := Done (-1, c);
  lc_create_task init _ _ _ _ _ _ pd c := Done (0x5000, (init, pd) :: c);
  lc_add_task _ c := Done c;
|}.

(** Twelve frames, the first the root of the current directory, which maps all of them. *)
Definition root_mmu : mmu := {| tables := zero_entries root0 512 ∅; frames := demo 0x01 0 1; cr3 := root0 |}.
Definition map_frames (n : nat) (s : mmu) : outcome mmu :=
  for_up n 0 (λ j s, map_memory (get_pml4 s) (TO_KERNEL_MAP (root0 + j * PAGESIZE)) (root0 + j * PAGESIZE) PAGE_WRITE_BIT s) s.
Definition mapped_mmu : mmu := match map_frames 13 root_mmu with Done s => s | _ => root_mmu end.

Lemma root_mmu_ok : spaces_ok root_mmu {[root0 := (root0, [])]} ∧ directory {[root0 := (root0, [])]} (get_pml4 root_mmu).
Proof.
  assert (T : ∀ i, 0 ≤ i < 512 → tables root_mmu !! (root0, i) = Some zero_entry).
  { intros i Hi. cbn -[zero_entries root0]. by rewrite lookup_zero_entries, decide_True. }
  split; [|by vm_compute]. split; [constructor|split_and!; [by apply demo_wf|done|by eexists]].
  - intros f y i [<- <-]%lookup_singleton_Some Hi. by rewrite T.
  - intros f y i e [<- <-]%lookup_singleton_Some Hi. rewrite T by done. by intros [= <-].
  - intros f y k i e [<- <-]%lookup_singleton_Some _ Hi. rewrite T by done. by intros [= <-].
  - intros f y [<- <-]%lookup_singleton_Some. done.
  - by apply demo_wf.
  - done.
  - done.
  - intros i Hi Hu. apply lookup_singleton_ne. unfold page_addr. cbn [frames root_mmu demo memory first_available_page_addr].
    unfold root0, PAGESIZE. intros E. assert (i = 0) as -> by lia. by vm_compute in Hu.
Qed.

Lemma map_frames_ok n s W s' :
  spaces_ok s W → directory W (get_pml4 s) → map_frames n s = Done s' →
  ∃ W', spaces_ok s' W' ∧ directory W' (get_pml4 s').
Proof.
  intros Hok Hd. apply (for_up_inv (λ _ s, ∃ W', spaces_ok s W' ∧ directory W' (get_pml4 s))); [|by eauto].
  intros j x y _ (W1 & Hok1 & Hd1) E. destruct (map_spaces _ (TO_KERNEL_MAP (root0 + j * PAGESIZE)) (root0 + j * PAGESIZE) PAGE_WRITE_BIT _ _ Hok1 Hd1) as [_ Hpost].
  destruct (Hpost y E) as (W2 & Hok2 & Hsub & Hcr & _). exists W2. split; [done|]. unfold get_pml4. rewrite Hcr.
  exact (lookup_weaken _ _ _ _ Hd1 Hsub).
Qed.

Lemma mapped_mmu_ok : ∃ W, spaces_at ∅ ∅ mapped_mmu W.
Proof.
  destruct root_mmu_ok as [Hok Hd]. destruct (is_done_returns (map_frames 13 root_mmu)) as [s E]; [by vm_compute|].
  destruct (map_frames_ok _ _ _ _ Hok Hd E) as (W & Hok' & Hd'). assert (mapped_mmu = s) as <- by (unfold mapped_mmu; by rewrite E).
  exists W. split; [exact Hok'|exact Hd'| | |].
  { intros d Hx. destruct (not_elem_of_empty d Hx). }
  { intros f Hx. destruct (not_elem_of_empty f Hx). }
  intros j Hj.
  assert (K := range_check (λ j, match virtual_to_physical (get_pml4 mapped_mmu) (TO_KERNEL_MAP (page_addr (frames mapped_mmu) j)) mapped_mmu with
    | Done p => p =? page_addr (frames mapped_mmu) j | _ => false end) 0 13 ltac:(by vm_compute) j).
  cbv beta in K. assert (Et : total_available_pages (memory (frames mapped_mmu)) = 12) by (vm_compute; reflexivity).
  rewrite Et in Hj. specialize (K ltac:(lia)).
  destruct (virtual_to_physical _ _ _) as [p| | | |]; try discriminate K. apply Z.eqb_eq in K as ->. reflexivity.
Qed.

#[local] Existing Instance kmalloc_allocator.
#[local] Existing Instance kmalloc_allocator_ok.
Definition load_world : lworld (HT := kernel (P := mmu)) (T := list (Z * Z)) := LW mapped_mmu ∅ kernel1 [].

