(* ===== verification/Net.v ===== *)
(** * Frames and addresses (src/src/net/eth.c, src/src/net/arp.c, inet_pton of
    src/src/devices/net/netstack.c)

    Buffers come from the kernel heap, an allocator here; the contents of a block are a list of
    bytes.  What a new block holds, and what lies behind a block that is read past its end, is
    the parameter [junk].  Structures the code keeps on its stack are values. *)
From stdpp Require Import gmap.
From S2P Require Import Prelude Alloc CString.
#[local] Open Scope Z_scope.

Definition HTONS (n : Z) : Z := Z.lor (Z.shiftl (Z.land (u16 n) 0xFF) 8) (Z.shiftr (Z.land (u16 n) 0xFF00) 8).
Definition NTOHS : Z → Z := HTONS.

Definition ETHERT_IPV4 : Z := 0x0800.
Definition ETHERT_ARP : Z := 0x0806.
Definition ETH_INVALID : Z := 1.
Definition ETH_II : Z := 2.
Definition ETH_802_3 : Z := 3.
Definition ARP_REQUEST : Z := 1.
Definition ARP_REPLY : Z := 2.

(** The heap with the contents of its blocks. *)
Record nheap (H : Type) := NH { nh_heap : H; nh_blocks : gmap Z (list Z) }.
Arguments NH {H} _ _.
Arguments nh_heap {H} _.
Arguments nh_blocks {H} _.

(** [struct eth] *)
Record eth := Eth { e_da : list Z; e_sa : list Z; e_kind : list Z; e_datalen : Z; e_data : Z }.

(** [struct arp]; an address is a block and an offset into it. *)
Record arp := Arp {
  a_htype : Z; a_ptype : Z; a_hlen : Z; a_plen : Z; a_oper : Z;
  a_sha : Z * Z; a_spa : Z * Z; a_tha : Z * Z; a_tpa : Z * Z;
}.

Section frames.
Context {H : Type} `{Allocator H} (junk : Z → nat → Z).
Implicit Types s : nheap H.

(** ** Blocks *)
(** [n] bytes from [off] on of what starts with [l] at [a]. *)
Definition over (a : Z) (off n : nat) (l : list Z) : list Z :=
  (λ i, default (u8 (junk a i)) (l !! i)) <$> seq off n.

(** Copies of no bytes touch no memory. *)
Definition rd (p : Z * Z) (n : Z) s : outcome (list Z) :=
  if n <=? 0 then Done [] else
  c ← known (nh_blocks s !! p.1);
  Done (over p.1 (Z.to_nat p.2) (Z.to_nat n) c).

Definition wr (p : Z * Z) (l : list Z) s : outcome (nheap H) :=
  if (length l =? 0)%nat then Done s else
  c ← known (nh_blocks s !! p.1);
  let off := Z.to_nat p.2 in
  if (off + length l <=? length c)%nat
  then Done (NH (nh_heap s) (<[p.1 := (take off c ++ l ++ drop (off + length l) c)%list]> (nh_blocks s)))
  else Fault.

(** [kmalloc]; a null block has no contents. *)
Definition alloc (n : Z) s : outcome (Z * nheap H) :=
  '(a, h) ← al_malloc n (nh_heap s);
  Done (a, NH h (if a =? 0 then nh_blocks s else <[a := over a 0 (Z.to_nat n) []]> (nh_blocks s))).

(** [kfree] *)
Definition release (a : Z) s : outcome (nheap H) :=
  h ← al_free a (nh_heap s);
  Done (NH h (delete a (nh_blocks s))).

(** ** Ethernet *)
Definition eth_get_type (e : eth) : outcome Z :=
  hi ← known (e_kind e !! 0%nat);
  lo ← known (e_kind e !! 1%nat);
  Done (u16 (Z.lor (Z.shiftl hi 8) lo)).

Definition eth_create (sa da : list Z) (data : Z * Z) (type : list Z) (length : Z) s : outcome (eth * nheap H) :=
  '(a, s) ← alloc length s;
  l ← rd data length s;
  s ← wr (a, 0) l s;
  let length := if length <? 46 then 46 else length in
  let length := if length >? 1500 then 1500 else length in
  Done (Eth da sa type length a, s).

Definition eth_to_packet (e : eth) (buffer max_size : Z) s : outcome (Z * nheap H) :=
  s ← wr (buffer, 0) (replicate (Z.to_nat max_size) 0) s;
  if max_size <? e_datalen e + 14 then Done (0, s) else
  s ← wr (buffer, 0) (e_da e) s;
  s ← wr (buffer, 6) (e_sa e) s;
  s ← wr (buffer, 12) (e_kind e) s;
  l ← rd (e_data e, 0) (e_datalen e) s;
  s ← wr (buffer, 14) l s;
  Done (u16 (e_datalen e + 14), s).

(** [None] where the code returns 0. *)
Definition eth_from_packet (data : Z * Z) (size : Z) s : outcome (option eth * nheap H) :=
  if data.1 =? 0 then Done (None, s) else
  if size <? 14 then Done (None, s) else
  da ← rd data 6 s;
  sa ← rd (data.1, data.2 + 6) 6 s;
  type ← rd (data.1, data.2 + 12) 2 s;
  let datalen := u16 (size - 14) in
  '(a, s) ← alloc datalen s;
  l ← rd (data.1, data.2 + 14) datalen s;
  s ← wr (a, 0) l s;
  Done (Some (Eth da sa type datalen a), s).

Definition eth_destroy (e : eth) s : outcome (nheap H) :=
  if negb (e_data e =? 0) then release (e_data e) s else Done s.

Definition eth_get_data_size (e : eth) : Z := e_datalen e.
Definition eth_get_data (e : eth) : Z * Z := (e_data e, e_datalen e).
Definition eth_get_packet_size (e : eth) : Z := e_datalen e + 14.

(** The copy of the data that is made on the way is not released. *)
Definition eth_get_version (data : Z * Z) (size : Z) s : outcome (Z * nheap H) :=
  '(r, s) ← eth_from_packet data size s;
  match r with
  | None => Done (ETH_INVALID, s)
  | Some e =>
      ethsize ← eth_get_type e;
      if ethsize <? 46 then Done (ETH_INVALID, s) else
      if (ethsize >? 1500) && (ethsize <? 1536) then Done (ETH_INVALID, s) else
      if ethsize >? 1536 then Done (ETH_II, s) else Done (ETH_802_3, s)
  end.

(** What printing a frame does to the heap. *)
Definition eth_dump (e : eth) s : outcome (nheap H) :=
  '(_, s) ← eth_get_version (e_data e, 0) (e_datalen e) s;
  Done s.

(** ** ARP *)
Definition le16 (v : Z) : list Z := [u16 v mod 256; u16 v / 256].

(** [*(uint16_t* )(p + off)] *)
Definition rd16 (p : Z * Z) s : outcome Z := l ← rd p 2 s; Done (le_value l).
Definition rd8 (p : Z * Z) s : outcome Z := l ← rd p 1 s; Done (le_value l).

Definition parse_arp (packet : Z) s : outcome arp :=
  htype ← rd16 (packet, 0) s;
  ptype ← rd16 (packet, 2) s;
  hlen ← rd8 (packet, 4) s;
  plen ← rd8 (packet, 5) s;
  oper ← rd16 (packet, 6) s;
  Done (Arp (NTOHS htype) (NTOHS ptype) hlen plen (NTOHS oper)
    (packet, 8) (packet, 8 + hlen) (packet, 8 + hlen + plen) (packet, 8 + hlen + plen + hlen)).

Definition size_arp (a : arp) : Z := u16 (8 + 2 * (a_hlen a + a_plen a)).
Definition ethertype_arp : list Z := [0x08; 0x06].

Definition data_arp (a : arp) (data : Z) s : outcome (nheap H) :=
  s ← wr (data, 0) (le16 (a_htype a)) s;
  s ← wr (data, 2) (le16 (a_ptype a)) s;
  s ← wr (data, 4) [a_hlen a] s;
  s ← wr (data, 5) [a_plen a] s;
  s ← wr (data, 6) (le16 (a_oper a)) s;
  l ← rd (a_sha a) (a_hlen a) s;
  s ← wr (data, 8) l s;
  l ← rd (a_spa a) (a_plen a) s;
  s ← wr (data, 8 + a_hlen a) l s;
  l ← rd (a_tha a) (a_hlen a) s;
  s ← wr (data, 8 + a_hlen a + a_plen a) l s;
  l ← rd (a_tpa a) (a_plen a) s;
  wr (data, 8 + a_hlen a + a_plen a + a_hlen a) l s.

(** The four bytes, when the operation is a reply; [oper] is compared in network order. *)
Definition get_reply_ip (a : arp) s : outcome (option (list Z)) :=
  if a_oper a =? HTONS ARP_REPLY then l ← rd (a_spa a) 4 s; Done (Some l) else Done None.

(** The hardware address of the sender is not released. *)
Definition destroy_arp (a : arp) s : outcome (nheap H) :=
  s ← release (a_spa a).1 s;
  s ← release (a_tha a).1 s;
  release (a_tpa a).1 s.

Definition get_arp_payload_size (buffer : Z) s : outcome Z :=
  hlen ← rd8 (buffer, 4) s;
  plen ← rd8 (buffer, 5) s;
  Done (if hlen + plen >? 120 then -1 else 8 + 2 * (hlen + plen)).

(** ** Addresses in text *)
(** A string with its final zero; reading behind it is a fault. *)
Definition char_of (t : list Z) (j : nat) : outcome Z := known (t !! j).

(** [for (v=j=0; j<n && isdigit(s[j]); j++) v = 10*v + s[j]-'0';] *)
Fixpoint octet (n : nat) (t : list Z) (j : nat) (v : Z) : outcome (Z * nat) :=
  match n with
  | O => Done (v, j)
  | S n => c ← char_of t j; if isdigit c then octet n t (S j) (10 * v + c - 48) else Done (v, j)
  end.

(** The loop over the four numbers; [a] are the bytes written. *)
Fixpoint pton4 (n : nat) (t : list Z) (a : list Z) : outcome (Z * list Z) :=
  match n with
  | O => Done (0, a)
  | S n =>
      '(v, j) ← octet 3 t 0 0;
      if (j =? 0)%nat then Done (0, a) else
      c0 ← char_of t 0;
      if (1 <? j)%nat && (c0 =? 48) then Done (0, a) else
      if v >? 255 then Done (0, a) else
      let a := (a ++ [u8 v])%list in
      c ← char_of t j;
      if (c =? 0) && (n =? 0)%nat then Done (1, a) else
      if negb (c =? 46) then Done (0, a) else
      pton4 n (drop (S j) t) a
  end.

Definition hexval (c : Z) : Z :=
  if u32 (c - 48) <? 10 then c - 48 else
  let c := Z.lor c 32 in
  if u32 (c - 97) <? 6 then c - 97 + 10 else -1.

Fixpoint hex_group (n : nat) (t : list Z) (j : nat) (v : Z) : outcome (Z * nat) :=
  match n with
  | O => Done (v, j)
  | S n => c ← char_of t j; let d := hexval c in if d >=? 0 then hex_group n t (S j) (16 * v + d) else Done (v, j)
  end.

(** The groups of an IPv6 address: [None] rejects; otherwise the groups, the place of the gap, the
    last index, whether a dotted address follows, and the rest of the text. *)
Definition group_step : list Z * Z * Z * list Z → outcome (list Z * Z * Z * list Z + option (list Z * Z * Z * bool * list Z)) :=
  λ '(t, i, brk, ip),
    c0 ← char_of t 0;
    if (c0 =? 58) && (brk <? 0) then
      let ip := <[Z.to_nat (Z.land i 7) := 0]> ip in
      let t := drop 1 t in
      c ← char_of t 0;
      if c =? 0 then Done (inr (Some (ip, i, i, false, t))) else
      if i =? 7 then Done (inr None) else Done (inl (t, i + 1, i, ip))
    else
      '(v, j) ← hex_group 4 t 0 0;
      if (j =? 0)%nat then Done (inr None) else
      let ip := <[Z.to_nat (Z.land i 7) := u16 v]> ip in
      c ← char_of t j;
      if (c =? 0) && ((brk >=? 0) || (i =? 7)) then Done (inr (Some (ip, brk, i, false, t))) else
      if i =? 7 then Done (inr None) else
      if negb (c =? 58) then
        if negb (c =? 46) || ((i <? 6) && (brk <? 0)) then Done (inr None) else
        Done (inr (Some (<[Z.to_nat (Z.land (i + 1) 7) := 0]> ip, brk, i + 1, true, t)))
      else Done (inl (drop (S j) t, i + 1, brk, ip)).

Definition AF_INET : Z := 0x2.
Definition AF_INET6 : Z := 0x1C.

(** The groups behind the gap are moved to the end and the gap is cleared. *)
Definition close_gap (ip : list Z) (brk i : Z) : list Z :=
  if brk >=? 0 then
    (take (Z.to_nat brk) ip ++ replicate (Z.to_nat (7 - i)) 0 ++ take (Z.to_nat (i + 1 - brk)) (drop (Z.to_nat brk) ip))%list
  else ip.

Definition pton6_end (r : option (list Z * Z * Z * bool * list Z)) : outcome (Z * list Z) :=
  match r with
  | None => Done (0, [])
  | Some (ip, brk, i, need_v4, t) =>
      let a := concat ((λ g, [u8 (Z.shiftr g 8); u8 g]) <$> close_gap ip brk i) in
      if need_v4 then
        '(r, l) ← pton4 4 t [];
        Done (if r <=? 0 then 0 else 1, (take 12 a ++ l ++ drop (12 + length l) a)%list)
      else Done (1, a)
  end.

(** The value returned and the bytes written to [a0]. *)
Definition inet_pton (af : Z) (t : list Z) (stale : list Z) : outcome (Z * list Z) :=
  if af =? AF_INET then pton4 4 t [] else
  if negb (af =? AF_INET6) then Done (-1, []) else
  c ← char_of t 0;
  c1 ← (if c =? 58 then char_of t 1 else Done 58);
  if negb (c1 =? 58) then Done (0, []) else
  let t := if c =? 58 then drop 1 t else t in
  r ← loop (S (S (length t))) group_step (t, 0, -1, stale);
  pton6_end r.

(** [tips], [sips]: the texts of the two addresses; the bytes not written keep what was there. *)
Definition init_arp (mac : list Z) (sips tips stale : list Z) s : outcome (arp * nheap H) :=
  r ← inet_pton AF_INET tips [];
  q ← inet_pton AF_INET sips [];
  let tip := (r.2 ++ drop (length r.2) stale)%list in
  let sip := (q.2 ++ drop (length q.2) stale)%list in
  '(sha, s) ← alloc 6 s;
  '(spa, s) ← alloc 4 s;
  '(tha, s) ← alloc 6 s;
  '(tpa, s) ← alloc 4 s;
  s ← wr (sha, 0) (take 6 mac) s;
  s ← wr (spa, 0) (take 4 sip) s;
  s ← wr (tha, 0) (replicate 6 0) s;
  s ← wr (tpa, 0) (take 4 tip) s;
  Done (Arp (HTONS 1) (HTONS 0x0800) 6 4 (HTONS ARP_REQUEST) (sha, 0) (spa, 0) (tha, 0) (tpa, 0), s).
End frames.
