(* ===== verification/NetBufs.v ===== *)
(** * Buffers of the network stack (src/src/net/eth.c, src/src/net/arp.c)

    What the routines on frames do to the heap: they take new blocks, fill them and leave every
    block that was in use as it was. *)
From stdpp Require Import gmap.
From S2P Require Import Prelude PageService Alloc CString Net.
#[local] Open Scope Z_scope.

(** A step that returns a value and a state, or panics. *)
Tactic Notation "run" hyp(H) "as" ident(x) ident(s) ident(E) :=
  let why := fresh "why" in
  destruct H as [[[x s] E]|[why E]]; rewrite E; cbn [mbind outcome_bind]; [|split; [apply rop_panic|done]].

Section bufs.
Context {H : Type} `{AllocatorOk H} (junk : Z → nat → Z).
Implicit Types (s : nheap H) (L : gset Z) (l c : list Z).

Record bufs_ok L s : Prop := {
  bo_heap : al_ok L (nh_heap s);
  bo_blocks a : is_Some (nh_blocks s !! a) → a ∈ L;
}.

(** New blocks were taken; those of [L] are as they were. *)
Record grown L L' s s' : Prop := {
  gr_sub : L ⊆ L';
  gr_ok : bufs_ok L' s';
  gr_kept a : a ∈ L → nh_blocks s' !! a = nh_blocks s !! a;
}.

Lemma grown_refl L s : bufs_ok L s → grown L L s s.
Proof. done. Qed.
Lemma grown_trans L1 L2 L3 s1 s2 s3 : grown L1 L2 s1 s2 → grown L2 L3 s2 s3 → grown L1 L3 s1 s3.
Proof.
  intros [S1 _ K1] [S2 O2 K2]. split; [set_solver|done|]. intros a Ha. rewrite K2, K1; [done|done|set_solver].
Qed.

(** ** Reading and writing *)
Lemma over_length a off n l : length (over junk a off n l) = n.
Proof. unfold over. by rewrite length_fmap, length_seq. Qed.

Lemma over_in a off n l : (off + n ≤ length l)%nat → over junk a off n l = take n (drop off l).
Proof.
  intros Hl. apply list_eq. intros i. unfold over. rewrite list_lookup_fmap.
  destruct (decide (i < n)%nat) as [Hi|Hi].
  - rewrite lookup_seq_lt by done. cbn. rewrite lookup_take_lt, lookup_drop by done.
    destruct (lookup_lt_is_Some_2 l (off + i)) as [x Hx]; [lia|]. by rewrite Hx.
  - rewrite lookup_seq_ge by lia. cbn. symmetry. apply lookup_ge_None. rewrite length_take. lia.
Qed.

Lemma rd_ok p n s c : nh_blocks s !! p.1 = Some c → 0 ≤ n → rd junk p n s = Done (over junk p.1 (Z.to_nat p.2) (Z.to_nat n) c).
Proof.
  intros Hc Hn. unfold rd. destruct (Z.leb_spec n 0) as [Hz|Hz]; [|by rewrite Hc].
  assert (n = 0) as -> by lia. done.
Qed.

(** The block after a write. *)
Definition spliced (off : nat) l c : list Z := (take off c ++ l ++ drop (off + length l) c)%list.

Lemma spliced_length off l c : (off + length l ≤ length c)%nat → length (spliced off l c) = length c.
Proof. intros Hl. unfold spliced. rewrite !length_app, length_take, length_drop. lia. Qed.

Lemma wr_ok p l s c :
  nh_blocks s !! p.1 = Some c → (Z.to_nat p.2 + length l ≤ length c)%nat →
  ∃ s', wr p l s = Done s' ∧ nh_heap s' = nh_heap s ∧ nh_blocks s' = <[p.1 := spliced (Z.to_nat p.2) l c]> (nh_blocks s).
Proof.
  intros Hc Hl. unfold wr. destruct (Nat.eqb_spec (length l) 0) as [Hz|Hz].
  - exists s. split; [done|]. split; [done|]. rewrite insert_id; [done|]. rewrite Hc. f_equal. apply nil_length_inv in Hz as ->.
    unfold spliced. cbn. by rewrite Nat.add_0_r, take_drop.
  - rewrite Hc. cbn [mbind outcome_bind known]. rewrite (proj2 (Nat.leb_le _ _) Hl). by eexists.
Qed.

Lemma grown_write L L' s0 s s' a x :
  grown L L' s0 s → a ∈ L' → a ∉ L → nh_heap s' = nh_heap s → nh_blocks s' = <[a := x]> (nh_blocks s) → grown L L' s0 s'.
Proof.
  intros [S [Oh Ob] K] Ha Hn Eh Eb. split; [done| |].
  - split; [by rewrite Eh|]. intros b. rewrite Eb. intros [y [[-> _]|[_ Hy]]%lookup_insert_Some]; [done|]. apply Ob. by eexists.
  - intros b Hb. rewrite Eb, lookup_insert_ne; [by apply K|]. intros ->. done.
Qed.

Lemma alloc_ok L s n :
  bufs_ok L s → 0 < n < 2 ^ 32 →
  returns_or_panics (alloc junk n s) ∧
  ∀ a s', alloc junk n s = Done (a, s') →
    a ≠ 0 ∧ (a ∉ L) ∧ grown L ({[a]} ∪ L) s s' ∧ nh_blocks s' = <[a := over junk a 0 (Z.to_nat n) []]> (nh_blocks s).
Proof.
  intros [Oh Ob] Hn. destruct (al_malloc_ok L n _ Oh Hn) as [Hret Hpost]. unfold alloc.
  run Hret as r h E.
  split; [apply rop_done|]. intros a s' [= <- <-]. destruct (Hpost r h E) as [Hr Ok].
  assert (Hr0 : r ≠ 0) by (eapply al_nonnull; [exact Ok|set_solver]). rewrite (proj2 (Z.eqb_neq _ _) Hr0). cbn [nh_blocks].
  split_and!; [done|done| |done]. split; [set_solver| |].
  - split; [done|]. cbn [nh_blocks]. intros b. intros [y [[-> _]|[_ Hy]]%lookup_insert_Some]; [set_solver|].
    apply elem_of_union_r, Ob. by eexists.
  - intros b Hb. cbn [nh_blocks]. rewrite lookup_insert_ne; [done|]. intros ->. done.
Qed.

Lemma release_ok L L' s0 s a :
  grown L L' s0 s → a ∈ L' → a ∉ L →
  ∃ s', release a s = Done s' ∧ grown L (L' ∖ {[a]}) s0 s' ∧ ∀ b, b ≠ a → nh_blocks s' !! b = nh_blocks s !! b.
Proof.
  intros [S [Oh Ob] K] Ha Hn. destruct (al_free_ok L' a _ Oh Ha) as (h & E & Ok). unfold release. rewrite E. cbn [mbind outcome_bind].
  eexists. split; [reflexivity|]. cbn [nh_blocks]. split; [split|].
  - set_solver.
  - split; [done|]. cbn [nh_blocks]. intros b [y [Hne Hy]%lookup_delete_Some]. apply elem_of_difference. split; [apply Ob; by eexists|set_solver].
  - intros b Hb. cbn [nh_blocks]. rewrite lookup_delete_ne; [by apply K|]. intros ->. done.
  - intros b Hb. by rewrite lookup_delete_ne.
Qed.

Lemma spliced_all l c : length l = length c → spliced 0 l c = l.
Proof. intros Hl. unfold spliced. cbn. rewrite drop_ge by lia. apply app_nil_r. Qed.

(** Filling a new block. *)
Lemma fill_ok L L' s0 s a l c :
  grown L L' s0 s → a ∈ L' → a ∉ L → nh_blocks s !! a = Some c → length l = length c →
  ∃ s', wr (a, 0) l s = Done s' ∧ grown L L' s0 s' ∧ nh_blocks s' = <[a := l]> (nh_blocks s).
Proof.
  intros Hg Ha Hn Hc Hl. destruct (wr_ok (a, 0) l s c) as (s' & E & Eh & Eb); [done|cbn; lia|]. cbn [fst snd] in *.
  change (Z.to_nat 0) with 0%nat in Eb. rewrite spliced_all in Eb by done. exists s'. split_and!; [done| |done]. by eapply grown_write.
Qed.

(** ** Frames *)
Lemma eth_from_packet_ok L s d off size frame :
  bufs_ok L s → d ≠ 0 → nh_blocks s !! d = Some frame → 0 ≤ off → 14 < size < 2 ^ 16 →
  returns_or_panics (eth_from_packet junk (d, off) size s) ∧
  ∀ r s', eth_from_packet junk (d, off) size s = Done (r, s') →
    ∃ a, r = Some (Eth (over junk d (Z.to_nat off) 6 frame) (over junk d (Z.to_nat (off + 6)) 6 frame)
                     (over junk d (Z.to_nat (off + 12)) 2 frame) (size - 14) a) ∧
      a ≠ 0 ∧ (a ∉ L) ∧ grown L ({[a]} ∪ L) s s' ∧
      nh_blocks s' = <[a := over junk d (Z.to_nat (off + 14)) (Z.to_nat (size - 14)) frame]> (nh_blocks s).
Proof.
  intros Hb Hd Hf Ho Hs. unfold eth_from_packet. cbn [fst snd]. rewrite (proj2 (Z.eqb_neq _ _) Hd), (proj2 (Z.ltb_ge size 14)) by lia.
  assert (HdL : d ∈ L) by (eapply bo_blocks; [exact Hb|by eexists]).
  rewrite (rd_ok (d, off) 6 s frame), bind_done by done. rewrite (rd_ok (d, off + 6) 6 s frame), bind_done by done.
  rewrite (rd_ok (d, off + 12) 2 s frame), bind_done by done. rewrite u16_small by lia.
  destruct (alloc_ok L s (size - 14) Hb) as [Hret Hpost]; [lia|].
  run Hret as a s1 E. destruct (Hpost a s1 E) as (Ha & HaL & Hg & Eb). assert (Hda : d ≠ a) by (intros ->; done).
  rewrite (rd_ok (d, off + 14) (size - 14) s1 frame); [|cbn [fst]; by rewrite Eb, lookup_insert_ne|lia]. rewrite bind_done. cbn [fst snd].
  destruct (fill_ok L ({[a]} ∪ L) s s1 a (over junk d (Z.to_nat (off + 14)) (Z.to_nat (size - 14)) frame)
    (over junk a 0 (Z.to_nat (size - 14)) [])) as (s2 & E2 & Hg2 & Eb2); [done|set_solver|done|by rewrite Eb, lookup_insert_eq|by rewrite !over_length|].
  rewrite E2, bind_done. split; [apply rop_done|]. intros r s' [= <- <-]. exists a. split_and!; try done.
  by rewrite Eb2, Eb, insert_insert_eq.
Qed.

(** The kind of frame by its length or type field. *)
Definition version_of (ethsize : Z) : Z :=
  if ethsize <? 46 then ETH_INVALID else
  if (ethsize >? 1500) && (ethsize <? 1536) then ETH_INVALID else
  if ethsize >? 1536 then ETH_II else ETH_802_3.
Definition type_of (l : list Z) : Z := u16 (Z.lor (Z.shiftl (nth 0 l 0) 8) (nth 1 l 0)).

Lemma eth_get_type_ok e : length (e_kind e) = 2%nat → eth_get_type e = Done (type_of (e_kind e)).
Proof. intros Hl. unfold eth_get_type, type_of. by destruct (e_kind e) as [|x [|y [|z t]]]. Qed.

Lemma eth_get_version_ok L s d off size frame :
  bufs_ok L s → d ≠ 0 → nh_blocks s !! d = Some frame → 0 ≤ off → 14 < size < 2 ^ 16 →
  returns_or_panics (eth_get_version junk (d, off) size s) ∧
  ∀ v s', eth_get_version junk (d, off) size s = Done (v, s') →
    v = version_of (type_of (over junk d (Z.to_nat (off + 12)) 2 frame)) ∧
    ∃ a, a ≠ 0 ∧ (a ∉ L) ∧ grown L ({[a]} ∪ L) s s'.
Proof.
  intros Hb Hd Hf Ho Hs. destruct (eth_from_packet_ok L s d off size frame Hb Hd Hf Ho Hs) as [Hret Hpost]. unfold eth_get_version.
  run Hret as r s1 E.
  destruct (Hpost r s1 E) as (a & -> & Ha & HaL & Hg & _). rewrite eth_get_type_ok by (cbn [e_kind]; apply over_length).
  cbn [mbind outcome_bind e_kind]. unfold version_of.
  repeat case_match; (split; [apply rop_done|]; intros v s' [= <- <-]; split; [done|by exists a]).
Qed.

Lemma eth_dump_ok L s e c :
  bufs_ok L s → e_data e ≠ 0 → nh_blocks s !! e_data e = Some c → 14 < e_datalen e < 2 ^ 16 →
  returns_or_panics (eth_dump junk e s) ∧ ∀ s', eth_dump junk e s = Done s' → ∃ a, a ≠ 0 ∧ (a ∉ L) ∧ grown L ({[a]} ∪ L) s s'.
Proof.
  intros Hb Hd Hc Hl. destruct (eth_get_version_ok L s (e_data e) 0 (e_datalen e) c Hb Hd Hc) as [Hret Hpost]; [done|done|]. unfold eth_dump.
  run Hret as v s1 E.
  split; [apply rop_done|]. intros s' [= <-]. by destruct (Hpost v s1 E) as [_ ?].
Qed.

(** A frame around data in a block. *)
Definition clamp (n : Z) : Z := if (if n <? 46 then 46 else n) >? 1500 then 1500 else if n <? 46 then 46 else n.

Lemma eth_create_ok L s sa da d type n c :
  bufs_ok L s → nh_blocks s !! d = Some c → 0 < n < 2 ^ 16 →
  returns_or_panics (eth_create junk sa da (d, 0) type n s) ∧
  ∀ e s', eth_create junk sa da (d, 0) type n s = Done (e, s') →
    ∃ a, e = Eth da sa type (clamp n) a ∧ a ≠ 0 ∧ (a ∉ L) ∧ grown L ({[a]} ∪ L) s s' ∧
      nh_blocks s' = <[a := over junk d 0 (Z.to_nat n) c]> (nh_blocks s).
Proof.
  intros Hb Hc Hn. unfold eth_create. assert (HdL : d ∈ L) by (eapply bo_blocks; [exact Hb|by eexists]).
  destruct (alloc_ok L s n Hb) as [Hret Hpost]; [lia|].
  run Hret as a s1 E. destruct (Hpost a s1 E) as (Ha & HaL & Hg & Eb). assert (Hda : d ≠ a) by (intros ->; done).
  rewrite (rd_ok (d, 0) n s1 c); [|cbn [fst]; by rewrite Eb, lookup_insert_ne|lia]. rewrite bind_done. cbn [fst snd].
  destruct (fill_ok L ({[a]} ∪ L) s s1 a (over junk d 0 (Z.to_nat n) c) (over junk a 0 (Z.to_nat n) []))
    as (s2 & E2 & Hg2 & Eb2); [done|set_solver|done|by rewrite Eb, lookup_insert_eq|by rewrite !over_length|].
  change (Z.to_nat 0) with 0%nat. rewrite E2, bind_done. split; [apply rop_done|]. intros e s' [= <- <-]. exists a. split_and!; try done.
  by rewrite Eb2, Eb, insert_insert_eq.
Qed.

(** ** Packets written piece by piece *)
Lemma wr_append s a off l pre rest :
  nh_blocks s !! a = Some (pre ++ rest)%list → Z.to_nat off = length pre → (length l ≤ length rest)%nat →
  ∃ s', wr (a, off) l s = Done s' ∧ nh_heap s' = nh_heap s ∧
    nh_blocks s' = <[a := ((pre ++ l) ++ drop (length l) rest)%list]> (nh_blocks s).
Proof.
  intros Hc Ho Hl. destruct (wr_ok (a, off) l s (pre ++ rest)%list) as (s' & E & Eh & Eb); [done|cbn; rewrite length_app; lia|].
  exists s'. split_and!; [done|done|]. cbn [fst snd] in Eb. rewrite Eb, Ho. unfold spliced.
  rewrite take_app_length, drop_app_ge by lia. rewrite app_assoc.
  by replace (length pre + length l - length pre)%nat with (length l) by lia.
Qed.

(** The bytes of an ARP packet, of which [f] gives the addresses. *)
Definition arp_bytes (a : arp) (f : Z * Z → Z → list Z) : list Z :=
  ((((((((le16 (a_htype a) ++ le16 (a_ptype a)) ++ [a_hlen a]) ++ [a_plen a]) ++ le16 (a_oper a)) ++
   f (a_sha a) (a_hlen a)) ++ f (a_spa a) (a_plen a)) ++ f (a_tha a) (a_hlen a)) ++ f (a_tpa a) (a_plen a))%list.

(** What lies at an address. *)
Definition at_addr s (p : Z * Z) (n : Z) : list Z :=
  over junk p.1 (Z.to_nat p.2) (Z.to_nat n) (default [] (nh_blocks s !! p.1)).

Lemma rd_at p n s : is_Some (nh_blocks s !! p.1) → 0 ≤ n → rd junk p n s = Done (at_addr s p n).
Proof. intros [c Hc] Hn. unfold at_addr. rewrite Hc. by apply rd_ok. Qed.

Lemma at_addr_length s p n : length (at_addr s p n) = Z.to_nat n.
Proof. apply over_length. Qed.

Lemma at_addr_ne s s' a x p n : nh_blocks s' = <[a := x]> (nh_blocks s) → p.1 ≠ a → at_addr s' p n = at_addr s p n.
Proof. intros E Hp. unfold at_addr. by rewrite E, lookup_insert_ne. Qed.

(** One piece more, as a step of a sequence of writes to [d]. *)
Definition writing d s0 pre n s : Prop :=
  nh_heap s = nh_heap s0 ∧ ∃ rest, length rest = n ∧ nh_blocks s = <[d := (pre ++ rest)%list]> (nh_blocks s0).

Lemma writing_step d s0 pre n s off l :
  writing d s0 pre n s → Z.to_nat off = length pre → (length l ≤ n)%nat →
  ∃ s', wr (d, off) l s = Done s' ∧ writing d s0 (pre ++ l) (n - length l) s'.
Proof.
  intros [Eh (rest & Hr & Eb)] Ho Hl. destruct (wr_append s d off l pre rest) as (s' & E & Eh' & Eb'); [by rewrite Eb, lookup_insert_eq|done|lia|].
  exists s'. split; [done|]. split; [congruence|]. exists (drop (length l) rest). rewrite length_drop. split; [lia|].
  by rewrite Eb', Eb, insert_insert_eq.
Qed.

Lemma writing_read d s0 pre n s p k :
  writing d s0 pre n s → p.1 ≠ d → is_Some (nh_blocks s0 !! p.1) → 0 ≤ k → rd junk p k s = Done (at_addr s0 p k).
Proof.
  intros [_ (rest & _ & Eb)] Hp Hs Hk. rewrite rd_at; [by erewrite at_addr_ne|by rewrite Eb, lookup_insert_ne|done].
Qed.

Lemma data_arp_ok a d s c :
  nh_blocks s !! d = Some c → 0 ≤ a_hlen a < 256 → 0 ≤ a_plen a < 256 → Z.of_nat (length c) = 8 + 2 * (a_hlen a + a_plen a) →
  Forall (λ p : Z * Z, p.1 ≠ d ∧ is_Some (nh_blocks s !! p.1)) [a_sha a; a_spa a; a_tha a; a_tpa a] →
  ∃ s', data_arp junk a d s = Done s' ∧ nh_heap s' = nh_heap s ∧
    nh_blocks s' = <[d := arp_bytes a (at_addr s)]> (nh_blocks s).
Proof.
  intros Hc Hh Hp Hl Hr. repeat (apply Forall_cons in Hr as [[? ?] Hr]).
  assert (W0 : writing d s [] (length c) s). { split; [done|]. exists c. split; [done|]. by rewrite insert_id. }
  unfold data_arp.
  destruct (writing_step _ _ _ _ _ 0 (le16 (a_htype a)) W0) as (s1 & -> & W1); [done|cbn; lia|]. rewrite bind_done.
  destruct (writing_step _ _ _ _ _ 2 (le16 (a_ptype a)) W1) as (s2 & -> & W2); [done|cbn; lia|]. rewrite bind_done.
  destruct (writing_step _ _ _ _ _ 4 [a_hlen a] W2) as (s3 & -> & W3); [done|cbn; lia|]. rewrite bind_done.
  destruct (writing_step _ _ _ _ _ 5 [a_plen a] W3) as (s4 & -> & W4); [done|cbn; lia|]. rewrite bind_done.
  destruct (writing_step _ _ _ _ _ 6 (le16 (a_oper a)) W4) as (s5 & -> & W5); [done|cbn; lia|]. rewrite bind_done.
  rewrite (writing_read _ _ _ _ _ _ _ W5), bind_done by (done || lia).
  destruct (writing_step _ _ _ _ _ 8 (at_addr s (a_sha a) (a_hlen a)) W5) as (s6 & -> & W6); [done|rewrite at_addr_length; cbn; lia|]. rewrite bind_done.
  rewrite (writing_read _ _ _ _ _ _ _ W6), bind_done by (done || lia).
  destruct (writing_step _ _ _ _ _ (8 + a_hlen a) (at_addr s (a_spa a) (a_plen a)) W6) as (s7 & -> & W7);
    [rewrite !length_app, at_addr_length; cbn; lia|rewrite !at_addr_length; cbn; lia|]. rewrite bind_done.
  rewrite (writing_read _ _ _ _ _ _ _ W7), bind_done by (done || lia).
  destruct (writing_step _ _ _ _ _ (8 + a_hlen a + a_plen a) (at_addr s (a_tha a) (a_hlen a)) W7) as (s8 & -> & W8);
    [rewrite !length_app, !at_addr_length; cbn; lia|rewrite !at_addr_length; cbn; lia|]. rewrite bind_done.
  rewrite (writing_read _ _ _ _ _ _ _ W8), bind_done by (done || lia).
  destruct (writing_step _ _ _ _ _ (8 + a_hlen a + a_plen a + a_hlen a) (at_addr s (a_tpa a) (a_plen a)) W8) as (s9 & -> & [Eh (rest & Hrest & Eb)]);
    [rewrite !length_app, !at_addr_length; cbn; lia|rewrite !at_addr_length; cbn; lia|].
  exists s9. split_and!; [done|done|]. rewrite Eb. rewrite !at_addr_length in Hrest. cbn in Hrest.
  destruct rest; [|cbn in Hrest; lia]. rewrite app_nil_r. done.
Qed.

(** The frame [eth_to_packet] writes into a block of its size. *)
Lemma eth_to_packet_ok e b s c l :
  nh_blocks s !! b = Some c → length c = (Z.to_nat (e_datalen e) + 14)%nat → 46 ≤ e_datalen e ≤ 1500 →
  length (e_da e) = 6%nat → length (e_sa e) = 6%nat → length (e_kind e) = 2%nat →
  nh_blocks s !! e_data e = Some l → e_data e ≠ b →
  ∃ s', eth_to_packet junk e b (e_datalen e + 14) s = Done (e_datalen e + 14, s') ∧ nh_heap s' = nh_heap s ∧
    nh_blocks s' = <[b := (((e_da e ++ e_sa e) ++ e_kind e) ++ over junk (e_data e) 0 (Z.to_nat (e_datalen e)) l)%list]> (nh_blocks s).
Proof.
  intros Hc Hlc Hd Hda Hsa Hk Hl Hne. unfold eth_to_packet.
  destruct (wr_ok (b, 0) (replicate (Z.to_nat (e_datalen e + 14)) 0) s c) as (s0 & -> & Eh0 & Eb0); [done|cbn; rewrite length_replicate; lia|].
  rewrite bind_done, (proj2 (Z.ltb_ge _ _)) by lia. cbn [fst snd] in Eb0.
  assert (W0 : writing b s [] (length c) s0).
  { split; [done|]. eexists. split; [|exact Eb0]. rewrite spliced_length; [done|]. rewrite length_replicate. cbn. lia. }
  destruct (writing_step _ _ _ _ _ 0 (e_da e) W0) as (s1 & -> & W1); [done|lia|]. rewrite bind_done.
  destruct (writing_step _ _ _ _ _ 6 (e_sa e) W1) as (s2 & -> & W2); [cbn; lia|lia|]. rewrite bind_done.
  destruct (writing_step _ _ _ _ _ 12 (e_kind e) W2) as (s3 & -> & W3); [rewrite !length_app; cbn; lia|lia|]. rewrite bind_done.
  rewrite (writing_read _ _ _ _ _ (e_data e, 0) _ W3) by (done || lia || (cbn [fst]; rewrite Hl; by eexists)). rewrite bind_done.
  destruct (writing_step _ _ _ _ _ 14 (at_addr s (e_data e, 0) (e_datalen e)) W3) as (s4 & -> & [Eh (rest & Hrest & Eb)]);
    [rewrite !length_app; cbn; lia|rewrite at_addr_length; lia|]. rewrite bind_done. rewrite u16_small by lia.
  exists s4. split_and!; [done|done|]. rewrite Eb. rewrite !at_addr_length in Hrest. destruct rest; [|cbn in Hrest; lia].
  rewrite app_nil_r. unfold at_addr. cbn [fst snd]. by rewrite Hl.
Qed.
End bufs.
