(* ===== verification/NetStack.v ===== *)
(** * The network stack (src/src/devices/net/netstack.c, netstack.h)

    Interfaces ([struct nic]) with their queues of packets and their ARP caches, the processing of
    received frames and the worker.  The driver behind an interface, reached through
    [device_write] and [device_ioctl], and [KWAKEUP] of a released lock are services of other
    components. *)
From stdpp Require Import gmap.
From S2P Require Import Prelude Concurrency Alloc CString Net.
#[local] Open Scope Z_scope.

Class NetEnv (D : Type) := {
  (** [device_write(name, size, 0, data)] *)
  ne_write : list Z → Z → list Z → D → outcome D;
  (** [device_ioctl(name, op, buffer)]: the result and the buffer afterwards *)
  ne_ioctl : list Z → Z → list Z → D → outcome (Z * list Z * D);
  (** [KWAKEUP(&lock)] *)
  ne_kwakeup : D → outcome D;
}.

Definition RX_HARD_THRESHOLD : Z := 0x2000.
Definition SIZEOF_PACKET : Z := 32.
Definition SIZEOF_ARP_CACHE : Z := 24.
Definition SIZEOF_NIC : Z := 136.
Definition NIC_NAME : nat := 32.

Record packet := Packet { pk_len : Z; pk_data : Z; pk_prev : Z; pk_next : Z }.
Record arp_cache := Cache { ac_ip : list Z; ac_mac : list Z; ac_next : Z }.
Record nic := Nic {
  n_name : list Z; n_device : list Z; n_mac : list Z; n_ip : list Z; n_subnet : list Z; n_gateway : list Z; n_dns : list Z;
  n_dhcp : Z; n_cache : Z; n_status : Z; n_lock : Z; n_rx_size : Z; n_dropped : Z; n_rx : Z; n_tx : Z;
}.

Definition with_addresses ip subnet gw dns dhcp c :=
  Nic (n_name c) (n_device c) (n_mac c) ip subnet gw dns dhcp (n_cache c) (n_status c) (n_lock c) (n_rx_size c) (n_dropped c) (n_rx c) (n_tx c).
Definition with_cache x c :=
  Nic (n_name c) (n_device c) (n_mac c) (n_ip c) (n_subnet c) (n_gateway c) (n_dns c) (n_dhcp c) x (n_status c) (n_lock c) (n_rx_size c) (n_dropped c) (n_rx c) (n_tx c).
Definition with_status x c :=
  Nic (n_name c) (n_device c) (n_mac c) (n_ip c) (n_subnet c) (n_gateway c) (n_dns c) (n_dhcp c) (n_cache c) x (n_lock c) (n_rx_size c) (n_dropped c) (n_rx c) (n_tx c).
Definition with_lock x c :=
  Nic (n_name c) (n_device c) (n_mac c) (n_ip c) (n_subnet c) (n_gateway c) (n_dns c) (n_dhcp c) (n_cache c) (n_status c) x (n_rx_size c) (n_dropped c) (n_rx c) (n_tx c).
Definition with_rx x size c :=
  Nic (n_name c) (n_device c) (n_mac c) (n_ip c) (n_subnet c) (n_gateway c) (n_dns c) (n_dhcp c) (n_cache c) (n_status c) (n_lock c) size (n_dropped c) x (n_tx c).
Definition with_dropped x c :=
  Nic (n_name c) (n_device c) (n_mac c) (n_ip c) (n_subnet c) (n_gateway c) (n_dns c) (n_dhcp c) (n_cache c) (n_status c) (n_lock c) (n_rx_size c) x (n_rx c) (n_tx c).
Definition with_tx x c :=
  Nic (n_name c) (n_device c) (n_mac c) (n_ip c) (n_subnet c) (n_gateway c) (n_dns c) (n_dhcp c) (n_cache c) (n_status c) (n_lock c) (n_rx_size c) (n_dropped c) (n_rx c) x.

Section stack.
Context {H : Type} `{Allocator H} {D : Type} `{NetEnv D} (junk : Z → nat → Z).

Record net := Net {
  nt_bufs : nheap H;
  nt_packets : gmap Z packet;
  nt_cache : gmap Z arp_cache;
  nics : list Z;                     (** the sixteen pointers *)
  nt_nics : gmap Z nic;
  nt_dev : D;
}.
Implicit Types w : net.

Definition with_bufs x w := Net x (nt_packets w) (nt_cache w) (nics w) (nt_nics w) (nt_dev w).
Definition with_packets x w := Net (nt_bufs w) x (nt_cache w) (nics w) (nt_nics w) (nt_dev w).
Definition with_caches x w := Net (nt_bufs w) (nt_packets w) x (nics w) (nt_nics w) (nt_dev w).
Definition with_nics x w := Net (nt_bufs w) (nt_packets w) (nt_cache w) (nics w) x (nt_dev w).
Definition with_dev x w := Net (nt_bufs w) (nt_packets w) (nt_cache w) (nics w) (nt_nics w) x.

Definition bufs {A} (f : nheap H → outcome (A * nheap H)) w : outcome (A * net) :=
  '(a, s) ← f (nt_bufs w); Done (a, with_bufs s w).
Definition bufs_ (f : nheap H → outcome (nheap H)) w : outcome net :=
  s ← f (nt_bufs w); Done (with_bufs s w).

Definition get_nic_at (n : Z) w : outcome nic := known (nt_nics w !! n).
Definition upd_nic (n : Z) (f : nic → nic) w : outcome net :=
  c ← get_nic_at n w; Done (with_nics (<[n := f c]> (nt_nics w)) w).
Definition get_packet (p : Z) w : outcome packet := known (nt_packets w !! p).
Definition upd_packet (p : Z) (f : packet → packet) w : outcome net :=
  x ← get_packet p w; Done (with_packets (<[p := f x]> (nt_packets w)) w).

(** A block that holds a structure: [kmalloc] and [kfree] of it.  Writing a field of a null
    pointer faults. *)
Definition new_struct (size : Z) w : outcome (Z * net) :=
  '(a, h) ← al_malloc size (nh_heap (nt_bufs w));
  if a =? 0 then Fault else Done (a, with_bufs (NH h (nh_blocks (nt_bufs w))) w).
Definition free_struct (a : Z) w : outcome net :=
  h ← al_free a (nh_heap (nt_bufs w)); Done (with_bufs (NH h (nh_blocks (nt_bufs w))) w).

(** ** The ARP cache *)
(** [while (c != 0) { if (memcmp(c->ip, ip, 4) == 0) ...; c = c->next; }] *)
Definition cache_fuel w : nat := S (size (nt_cache w)).
Definition find_cache (ip : list Z) (c : Z) w : outcome (option Z) :=
  loop (cache_fuel w) (λ c,
    if c =? 0 then Done (inr None) else
    x ← known (nt_cache w !! c);
    if bool_decide (ac_ip x = take 4 ip) then Done (inr (Some c)) else Done (inl (ac_next x))) c.

Definition add_arp_cache_entry (n : Z) (ip mac : list Z) w : outcome net :=
  c ← get_nic_at n w;
  f ← find_cache ip (n_cache c) w;
  match f with
  | Some a =>
      x ← known (nt_cache w !! a);
      Done (with_caches (<[a := Cache (ac_ip x) (take 6 mac) (ac_next x)]> (nt_cache w)) w)
  | None =>
      '(a, w) ← new_struct SIZEOF_ARP_CACHE w;
      let w := with_caches (<[a := Cache (take 4 ip) (take 6 mac) (n_cache c)]> (nt_cache w)) w in
      upd_nic n (with_cache a) w
  end.

Definition get_mac_for_ip (n : Z) (ip : list Z) w : outcome (list Z) :=
  c ← get_nic_at n w;
  f ← find_cache ip (n_cache c) w;
  match f with
  | Some a => x ← known (nt_cache w !! a); Done (ac_mac x)
  | None => Done (replicate 6 0)
  end.

Definition clear_arp_cache (n : Z) w : outcome net :=
  c ← get_nic_at n w;
  w ← loop (cache_fuel w) (λ '(a, w),
    if a =? 0 then Done (inr w) else
    x ← known (nt_cache w !! a);
    w ← free_struct a w;
    Done (inl (ac_next x, with_caches (delete a (nt_cache w)) w))) (n_cache c, w);
  upd_nic n (with_cache 0) w.

(** ** Sending *)
Definition create_tx_packet (n len : Z) w : outcome (Z * net) :=
  '(p, w) ← new_struct SIZEOF_PACKET w;
  '(d, w) ← bufs (alloc junk len) w;
  w ← bufs_ (wr (d, 0) (replicate (Z.to_nat len) 0)) w;
  c ← get_nic_at n w;
  let head := n_tx c in
  let w := with_packets (<[p := Packet len d 0 head]> (nt_packets w)) w in
  w ← (if negb (head =? 0) then upd_packet head (λ x, Packet (pk_len x) (pk_data x) p (pk_next x)) w else Done w);
  w ← upd_nic n (with_tx p) w;
  Done (p, w).

(** The packet at the head is written to the device and freed; returns the next one. *)
Definition send_packet (n p : Z) w : outcome (Z * net) :=
  x ← get_packet p w;
  c ← get_nic_at n w;
  l ← rd junk (pk_data x, 0) (pk_len x) (nt_bufs w);
  d ← ne_write (n_device c) (pk_len x) l (nt_dev w);
  let w := with_dev d w in
  w ← bufs_ (release (pk_data x)) w;
  w ← free_struct p w;
  Done (pk_next x, with_packets (delete p (nt_packets w)) w).

Definition tx_n (n num : Z) w : outcome net :=
  c ← get_nic_at n w;
  '(p, w) ← for_up (Z.to_nat num) 0 (λ _ '(p, w), send_packet n p w) (n_tx c, w);
  upd_nic n (with_tx p) w.

(** Before a packet is sent a copy of its data is made twice to print it. *)
Definition packet_fuel w : nat := S (size (nt_packets w)).
Definition flush_tx (n : Z) w : outcome net :=
  c ← get_nic_at n w;
  w ← loop (packet_fuel w) (λ '(p, w),
    if p =? 0 then Done (inr w) else
    x ← get_packet p w;
    '(test, w) ← bufs (eth_from_packet junk (pk_data x, 0) (pk_len x)) w;
    match test with
    | None => Fault
    | Some e =>
        w ← bufs_ (eth_dump junk e) w;
        '(p, w) ← send_packet n p w;
        Done (inl (p, w))
    end) (n_tx c, w);
  upd_nic n (with_tx 0) w.

(** ** Receiving *)
(** The addresses of an interface lie one behind the other, its hardware address first. *)
Definition nic_area (c : nic) : list Z :=
  (n_mac c ++ n_ip c ++ n_subnet c ++ n_gateway c ++ n_dns c ++ [n_dhcp c])%list.

(** The packet that answers [a]: its addresses are new blocks. *)
Definition make_reply (n : Z) (c : nic) (a : arp) w : outcome (arp * net) :=
  '(sha, w) ← bufs (alloc junk (a_hlen a)) w;
  '(spa, w) ← bufs (alloc junk (a_plen a)) w;
  '(tha, w) ← bufs (alloc junk (a_hlen a)) w;
  '(tpa, w) ← bufs (alloc junk (a_plen a)) w;
  w ← bufs_ (wr (sha, 0) (over junk n 0 (Z.to_nat (a_hlen a)) (nic_area c))) w;
  w ← bufs_ (wr (spa, 0) (over junk n 6 (Z.to_nat (a_plen a)) (nic_area c))) w;
  l ← rd junk (a_sha a) (a_hlen a) (nt_bufs w);
  w ← bufs_ (wr (tha, 0) l) w;
  l ← rd junk (a_spa a) (a_plen a) (nt_bufs w);
  w ← bufs_ (wr (tpa, 0) l) w;
  Done (Arp (a_htype a) (a_ptype a) (a_hlen a) (a_plen a) (HTONS ARP_REPLY) (sha, 0) (spa, 0) (tha, 0) (tpa, 0), w).

(** A frame is queued and sent; [false] when the caller returns at once. *)
Definition send_eth (n : Z) (e : eth) w : outcome (bool * net) :=
  '(p, w) ← create_tx_packet n (u16 (eth_get_packet_size e)) w;
  x ← get_packet p w;
  '(r, w) ← bufs (eth_to_packet junk e (pk_data x) (pk_len x)) w;
  if r =? 0 then Done (false, w) else
  w ← bufs_ (eth_destroy e) w;
  w ← tx_n n 1 w;
  Done (true, w).

(** Its bytes, in a block of their own, and their number. *)
Definition reply_bytes (n : Z) (c : nic) (a : arp) w : outcome (Z * Z * net) :=
  '(reply, w) ← make_reply n c a w;
  let reply_size := size_arp reply in
  '(reply_data, w) ← bufs (alloc junk reply_size) w;
  w ← bufs_ (data_arp junk reply reply_data) w;
  Done (reply_data, reply_size, w).

(** The answer to a request for the address of the interface. *)
Definition arp_reply (n : Z) (a : arp) w : outcome (bool * net) :=
  c ← get_nic_at n w;
  '(reply_data, reply_size, w) ← reply_bytes n c a w;
  da ← rd junk (a_sha a) 6 (nt_bufs w);
  '(e, w) ← bufs (eth_create junk (n_mac c) da (reply_data, 0) ethertype_arp reply_size) w;
  send_eth n e w.

Definition process_arp (n : Z) (e : eth) w : outcome (bool * net) :=
  let '(raw, _) := eth_get_data e in
  a ← parse_arp junk raw (nt_bufs w);
  c ← get_nic_at n w;
  tpa ← rd junk (a_tpa a) 4 (nt_bufs w);
  if a_oper a =? ARP_REQUEST then
    if bool_decide (tpa = n_ip c) then arp_reply n a w else Done (true, w)
  else if a_oper a =? ARP_REPLY then
    if bool_decide (tpa = n_ip c) then
      ip ← rd junk (a_spa a) 4 (nt_bufs w);
      mac ← rd junk (a_sha a) 6 (nt_bufs w);
      w ← add_arp_cache_entry n ip mac w;
      Done (true, w)
    else Done (true, w)
  else Done (true, w).

(** A frame of Ethernet II. *)
Definition process_eth (n : Z) (x : packet) (e : eth) w : outcome net :=
  t ← eth_get_type e;
  '(go_on, w) ← (if t =? ETHERT_ARP then process_arp n e w
                 else if t =? ETHERT_IPV4 then Done (true, w)
                 else '(_, w) ← bufs (eth_get_version junk (pk_data x, 0) (pk_len x)) w; Done (true, w));
  if negb go_on then Done w else bufs_ (eth_destroy e) w.

(** The copy of a frame of another kind is not released. *)
Definition process_packet (p n : Z) w : outcome net :=
  if p =? 0 then Done w else
  x ← get_packet p w;
  if pk_len x <? 14 then Done w else
  '(r, w) ← bufs (eth_from_packet junk (pk_data x, 0) (pk_len x)) w;
  match r with
  | None => Done w
  | Some e =>
      '(v, w) ← bufs (eth_get_version junk (pk_data x, 0) (pk_len x)) w;
      if v =? ETH_II then process_eth n x e w else Done w
  end.

(** [None] is the missing value of the path on which the queue is locked. *)
Definition create_rx_packet (n len : Z) w : outcome (option Z * net) :=
  '(p, w) ← new_struct SIZEOF_PACKET w;
  '(d, w) ← bufs (alloc junk len) w;
  c ← get_nic_at n w;
  let '(ok, lock) := try_acquire_lock (n_lock c) in
  if ok =? 0 then
    w ← upd_nic n (λ c, with_dropped (u64 (n_dropped c + 1)) c) w;
    w ← bufs_ (release d) w;
    w ← free_struct p w;
    Done (None, w)
  else
    let w := with_packets (<[p := Packet len d 0 (n_rx c)]> (nt_packets w)) w in
    w ← (if negb (n_rx c =? 0) then upd_packet (n_rx c) (λ x, Packet (pk_len x) (pk_data x) p (pk_next x)) w else Done w);
    w ← upd_nic n (λ c, with_lock 0 (with_rx p (u64 (n_rx_size c + 1)) c)) w;
    d ← ne_kwakeup (nt_dev w);
    Done (Some p, with_dev d w).

(** The first interface with the hardware address. *)
Definition find_mac (mac : list Z) w : outcome (option Z) :=
  for_up 16 0 (λ i r,
    match r with
    | Some _ => Done r
    | None =>
        n ← known (nics w !! Z.to_nat i);
        if n =? 0 then Done None else
        c ← get_nic_at n w;
        Done (if bool_decide (n_mac c = take 6 mac) then Some n else None)
    end) None.

Definition inject_packet_callback (mac buffer : list Z) (len : Z) w : outcome net :=
  r ← find_mac mac w;
  match r with
  | None => Done w
  | Some n =>
      c ← get_nic_at n w;
      if n_rx_size c >? RX_HARD_THRESHOLD then upd_nic n (λ c, with_dropped (u64 (n_dropped c + 1)) c) w else
      if len >? 1500 then upd_nic n (λ c, with_dropped (u64 (n_dropped c + 1)) c) w else
      '(p, w) ← create_rx_packet n len w;
      match p with
      | None => Fault
      | Some p =>
          x ← get_packet p w;
          if (length buffer <? Z.to_nat len)%nat then Fault else
          bufs_ (wr (pk_data x, 0) (take (Z.to_nat len) buffer)) w
      end
  end.

Definition inject_nic_status_callback (mac : list Z) (status : Z) w : outcome net :=
  r ← find_mac mac w;
  match r with None => Done w | Some n => upd_nic n (with_status status) w end.

Definition NET_RX_QUEUE : Z := 0.
Definition NET_TX_QUEUE : Z := 1.
Definition get_packet_head (n queue : Z) w : outcome Z :=
  c ← get_nic_at n w;
  Done (if queue =? NET_RX_QUEUE then n_rx c else if queue =? NET_TX_QUEUE then n_tx c else 0).

(** One packet of the receive queue: it is processed, freed and taken out of the queue. *)
Definition worker_step (n p : Z) w : outcome (Z * net) :=
  w ← process_packet p n w;
  x ← get_packet p w;
  w ← bufs_ (release (pk_data x)) w;
  w ← free_struct p w;
  let w := with_packets (delete p (nt_packets w)) w in
  w ← (if negb (pk_prev x =? 0) then upd_packet (pk_prev x) (λ y, Packet (pk_len y) (pk_data y) (pk_prev y) (pk_next x)) w
       else upd_nic n (λ c, with_rx (pk_next x) (n_rx_size c) c) w);
  w ← (if negb (pk_next x =? 0) then upd_packet (pk_next x) (λ y, Packet (pk_len y) (pk_data y) (pk_prev x) (pk_next y)) w else Done w);
  w ← upd_nic n (λ c, with_rx (n_rx c) (u64 (n_rx_size c - 1)) c) w;
  Done (pk_next x, w).

Definition worker_loop (n p : Z) w : outcome net :=
  loop (Z.to_nat (RX_HARD_THRESHOLD + 3)) (λ '(p, rounds, w),
    if p =? 0 then Done (inr w) else
    if rounds >? RX_HARD_THRESHOLD then Done (inr w) else
    '(p, w) ← worker_step n p w;
    Done (inl (p, rounds + 1, w))) (p, 0, w).

(** The interface at one of the sixteen places; [true] ends the round. *)
Definition worker_nic (n : Z) w : outcome (bool * net) :=
  c ← get_nic_at n w;
  let '(ok, lock) := try_acquire_lock (n_lock c) in
  if ok =? 0 then Done (true, w) else
  w ← upd_nic n (with_lock lock) w;
  p ← get_packet_head n NET_RX_QUEUE w;
  w ← worker_loop n p w;
  w ← upd_nic n (with_lock 0) w;
  d ← ne_kwakeup (nt_dev w);
  w ← flush_tx n (with_dev d w);
  Done (false, w).

Definition network_worker w : outcome net :=
  '(_, w) ← for_up 16 0 (λ i '(stop, w),
    if stop : bool then Done (true, w) else
    n ← known (nics w !! Z.to_nat i);
    if n =? 0 then Done (false, w) else worker_nic n w) (false, w);
  Done w.
Definition force_network_worker : net → outcome net := network_worker.

(** ** Interfaces *)
Definition get_nic (name : list Z) w : outcome Z :=
  for_up 16 0 (λ i r,
    if negb (r =? 0) then Done r else
    n ← known (nics w !! Z.to_nat i);
    if n =? 0 then Done 0 else
    c ← get_nic_at n w;
    Done (if bool_decide (n_name c = name) then n else 0)) 0.

Definition nic_configure (n : Z) (ip subnet gw dns : list Z) (dhcp : Z) w : outcome net :=
  upd_nic n (with_addresses (take 4 ip) (take 4 subnet) (take 4 gw) (take 4 dns) dhcp) w.

Definition change_nic_status (n status : Z) w : outcome net := upd_nic n (with_status status) w.

(** The counter of dropped packets keeps what the block held. *)
Definition create_nic (name device_name stale_mac : list Z) (stale : Z) w : outcome (Z * net) :=
  match list_find (λ n, n = 0) (nics w) with
  | None => Done (0, w)
  | Some (i, _) =>
      '(n, w) ← new_struct SIZEOF_NIC w;
      if (NIC_NAME <=? length name)%nat || (NIC_NAME <=? length device_name)%nat then Fault else
      '(_, mac, d) ← ne_ioctl device_name 0x1001 stale_mac (nt_dev w);
      '(status, _, d) ← ne_ioctl device_name 0x1004 [] d;
      let z := replicate 4 0 in
      let c := Nic name device_name (take 6 mac) z z z z 0 0 (u8 status) 0 0 stale 0 0 in
      '(_, _, d) ← ne_ioctl device_name 0x1002 [] d;
      '(_, _, d) ← ne_ioctl device_name 0x1003 [] d;
      Done (n, Net (nt_bufs w) (nt_packets w) (nt_cache w) (<[i := n]> (nics w)) (<[n := c]> (nt_nics w)) d)
  end.
End stack.
