(* ===== verification/NetPacket.v ===== *)
(** * Sending and answering (src/src/devices/net/netstack.c)

    The steps of the network stack between a received frame and the answer to it, on a heap in
    which buffers, packets and cache entries are separate blocks. *)
From stdpp Require Import gmap.
From S2P Require Import Prelude PageService Alloc CString Net NetBufs NetStack.
#[local] Open Scope Z_scope.

(** The driver and the sleep queues return. *)
Class NetEnvOk (D : Type) `{NetEnv D} := {
  ne_write_ok name n l d : ∃ d', ne_write name n l d = Done d';
  ne_kwakeup_ok d : ∃ d', ne_kwakeup d = Done d';
}.

Section packet.
Context {H : Type} `{AllocatorOk H} {D : Type} `{NetEnvOk D} (junk : Z → nat → Z).
Implicit Types (w : net (H := H) (D := D)) (L : gset Z).

(** Buffers, packets and cache entries are different blocks in use. *)
Record net_ok L w : Prop := {
  no_bufs : bufs_ok L (nt_bufs w);
  no_packets p : is_Some (nt_packets w !! p) → p ∈ L ∧ nh_blocks (nt_bufs w) !! p = None;
  no_caches p : is_Some (nt_cache w !! p) → p ∈ L ∧ nh_blocks (nt_bufs w) !! p = None ∧ nt_packets w !! p = None;
}.

(** Only buffers were added. *)
Definition more_bufs L L' w w' : Prop :=
  grown L L' (nt_bufs w) (nt_bufs w') ∧ w' = with_bufs (nt_bufs w') w.

Lemma more_refl L w : net_ok L w → more_bufs L L w w.
Proof. intros [Hb _ _]. split; [by apply grown_refl|by destruct w]. Qed.

Lemma more_trans L1 L2 L3 w1 w2 w3 : more_bufs L1 L2 w1 w2 → more_bufs L2 L3 w2 w3 → more_bufs L1 L3 w1 w3.
Proof.
  intros [G1 E1] [G2 E2]. split; [by eapply grown_trans|]. rewrite E2, E1. by destruct w1.
Qed.

Lemma more_ok L L' w w' : net_ok L w → more_bufs L L' w w' → net_ok L' w'.
Proof.
  intros [Hb Hp Hc] [[Sub Ok Kept] E]. rewrite E. split; cbn [nt_bufs nt_packets nt_cache with_bufs]; [done| |].
  - intros p Hx. destruct (Hp p Hx) as [HL Hn]. split; [set_solver|]. by rewrite Kept.
  - intros p Hx. destruct (Hc p Hx) as (HL & Hn & Hpk). split_and!; [set_solver| |done]. by rewrite Kept.
Qed.

(** A step on the buffers. *)
Lemma bufs_run {A} (f : nheap H → outcome (A * nheap H)) w r s' : f (nt_bufs w) = Done (r, s') → bufs f w = Done (r, with_bufs s' w).
Proof. intros E. unfold bufs. by rewrite E. Qed.
Lemma bufs__run (f : nheap H → outcome (nheap H)) w s' : f (nt_bufs w) = Done s' → bufs_ f w = Done (with_bufs s' w).
Proof. intros E. unfold bufs_. by rewrite E. Qed.

Lemma bufs_alloc L w n :
  net_ok L w → 0 < n < 2 ^ 32 →
  returns_or_panics (bufs (alloc junk n) w) ∧
  ∀ a w', bufs (alloc junk n) w = Done (a, w') →
    a ≠ 0 ∧ (a ∉ L) ∧ more_bufs L ({[a]} ∪ L) w w' ∧
    nh_blocks (nt_bufs w') = <[a := over junk a 0 (Z.to_nat n) []]> (nh_blocks (nt_bufs w)).
Proof.
  intros [Hb _ _] Hn. destruct (alloc_ok junk L (nt_bufs w) n Hb Hn) as [Hret Hpost]. unfold bufs. run Hret as a s E.
  split; [apply rop_done|]. intros a' w' [= <- <-]. destruct (Hpost a s E) as (? & ? & ? & ?). done.
Qed.

(** Writing a block that is new. *)
Lemma bufs_write L L' w0 w a off l c :
  more_bufs L L' w0 w → a ∈ L' → a ∉ L → nh_blocks (nt_bufs w) !! a = Some c → (Z.to_nat off + length l ≤ length c)%nat →
  ∃ w', bufs_ (wr (a, off) l) w = Done w' ∧ more_bufs L L' w0 w' ∧
    nh_blocks (nt_bufs w') = <[a := spliced (Z.to_nat off) l c]> (nh_blocks (nt_bufs w)).
Proof.
  intros [Hg E] Ha Hn Hc Hl. destruct (wr_ok (a, off) l (nt_bufs w) c Hc Hl) as (s & Ew & Eh & Eb).
  exists (with_bufs s w). split; [by apply bufs__run|]. split; [split|done].
  - eapply grown_write; [exact Hg|done..].
  - rewrite E. done.
Qed.

(** ** The answer *)
Lemma bufs_fill L L' w0 w a l c :
  more_bufs L L' w0 w → a ∈ L' → a ∉ L → nh_blocks (nt_bufs w) !! a = Some c → length l = length c →
  ∃ w', bufs_ (wr (a, 0) l) w = Done w' ∧ more_bufs L L' w0 w' ∧ nh_blocks (nt_bufs w') = <[a := l]> (nh_blocks (nt_bufs w)).
Proof.
  intros Hm Ha Hn Hc Hl. destruct (bufs_write L L' w0 w a 0 l c) as (w' & E & Hm' & Eb); try done; [cbn; lia|].
  exists w'. split_and!; try done. change (Z.to_nat 0) with 0%nat in Eb. by rewrite spliced_all in Eb.
Qed.

(** A block of the world at the start. *)
Lemma more_at L L' w w' p k : net_ok L w → more_bufs L L' w w' → is_Some (nh_blocks (nt_bufs w) !! p.1) →
  at_addr junk (nt_bufs w') p k = at_addr junk (nt_bufs w) p k ∧ is_Some (nh_blocks (nt_bufs w') !! p.1).
Proof.
  intros Hok [[_ _ K] _] Hs. assert (p.1 ∈ L) by (eapply bo_blocks; [apply Hok|done]). unfold at_addr. by rewrite K.
Qed.

Definition address_ok (a : arp) w : Prop :=
  0 < a_hlen a < 256 ∧ 0 < a_plen a < 256 ∧ is_Some (nh_blocks (nt_bufs w) !! (a_sha a).1) ∧ is_Some (nh_blocks (nt_bufs w) !! (a_spa a).1).

(** The contents of a block among those written since. *)
Ltac block := repeat first [rewrite lookup_insert_eq; reflexivity | rewrite lookup_insert_ne by congruence].

Lemma make_reply_ok L n c a w :
  net_ok L w → address_ok a w →
  returns_or_panics (make_reply junk n c a w) ∧
  ∀ r w', make_reply junk n c a w = Done (r, w') →
    ∃ sha spa tha tpa (L' := {[tpa]} ∪ ({[tha]} ∪ ({[spa]} ∪ ({[sha]} ∪ L)))),
      r = Arp (a_htype a) (a_ptype a) (a_hlen a) (a_plen a) (HTONS ARP_REPLY) (sha, 0) (spa, 0) (tha, 0) (tpa, 0) ∧
      (sha ∉ L) ∧ (spa ∉ {[sha]} ∪ L) ∧ (tha ∉ {[spa]} ∪ ({[sha]} ∪ L)) ∧ (tpa ∉ {[tha]} ∪ ({[spa]} ∪ ({[sha]} ∪ L))) ∧
      more_bufs L L' w w' ∧
      nh_blocks (nt_bufs w') !! sha = Some (over junk n 0 (Z.to_nat (a_hlen a)) (nic_area c)) ∧
      nh_blocks (nt_bufs w') !! spa = Some (over junk n 6 (Z.to_nat (a_plen a)) (nic_area c)) ∧
      nh_blocks (nt_bufs w') !! tha = Some (at_addr junk (nt_bufs w) (a_sha a) (a_hlen a)) ∧
      nh_blocks (nt_bufs w') !! tpa = Some (at_addr junk (nt_bufs w) (a_spa a) (a_plen a)).
Proof.
  intros Hok (Hh & Hp & Hsha & Hspa). unfold make_reply.
  destruct (bufs_alloc L w (a_hlen a) Hok) as [Hret Hpost]; [lia|]. run Hret as sha w1 E1. destruct (Hpost _ _ E1) as (_ & N1 & M1 & B1).
  destruct (bufs_alloc _ w1 (a_plen a) (more_ok _ _ _ _ Hok M1)) as [Hret2 Hpost2]; [lia|]. run Hret2 as spa w2 E2.
  destruct (Hpost2 _ _ E2) as (_ & N2 & M2 & B2). assert (M2' := more_trans _ _ _ _ _ _ M1 M2).
  destruct (bufs_alloc _ w2 (a_hlen a) (more_ok _ _ _ _ Hok M2')) as [Hret3 Hpost3]; [lia|]. run Hret3 as tha w3 E3.
  destruct (Hpost3 _ _ E3) as (_ & N3 & M3 & B3). assert (M3' := more_trans _ _ _ _ _ _ M2' M3).
  destruct (bufs_alloc _ w3 (a_plen a) (more_ok _ _ _ _ Hok M3')) as [Hret4 Hpost4]; [lia|]. run Hret4 as tpa w4 E4.
  destruct (Hpost4 _ _ E4) as (_ & N4 & M4 & B4). assert (M4' := more_trans _ _ _ _ _ _ M3' M4).
  assert (sha ≠ spa ∧ sha ≠ tha ∧ sha ≠ tpa ∧ spa ≠ tha ∧ spa ≠ tpa ∧ tha ≠ tpa) as (? & ? & ? & ? & ? & ?) by set_solver.
  destruct (bufs_fill _ _ _ _ sha (over junk n 0 (Z.to_nat (a_hlen a)) (nic_area c)) (over junk sha 0 (Z.to_nat (a_hlen a)) []) M4') as (w5 & -> & M5 & B5);
    [set_solver|done|rewrite B4, B3, B2, B1; block|by rewrite !over_length|]. cbn [mbind outcome_bind].
  destruct (bufs_fill _ _ _ _ spa (over junk n 6 (Z.to_nat (a_plen a)) (nic_area c)) (over junk spa 0 (Z.to_nat (a_plen a)) []) M5) as (w6 & -> & M6 & B6);
    [set_solver|set_solver|rewrite B5, B4, B3, B2; block|by rewrite !over_length|]. cbn [mbind outcome_bind].
  destruct (more_at _ _ _ _ (a_sha a) (a_hlen a) Hok M6 Hsha) as [A6 S6]. rewrite (rd_at junk (a_sha a) _ _ S6), A6 by lia. cbn [mbind outcome_bind].
  destruct (bufs_fill _ _ _ _ tha (at_addr junk (nt_bufs w) (a_sha a) (a_hlen a)) (over junk tha 0 (Z.to_nat (a_hlen a)) []) M6) as (w7 & -> & M7 & B7);
    [set_solver|set_solver|rewrite B6, B5, B4, B3; block|by rewrite at_addr_length, over_length|]. cbn [mbind outcome_bind].
  destruct (more_at _ _ _ _ (a_spa a) (a_plen a) Hok M7 Hspa) as [A7 S7]. rewrite (rd_at junk (a_spa a) _ _ S7), A7 by lia. cbn [mbind outcome_bind].
  destruct (bufs_fill _ _ _ _ tpa (at_addr junk (nt_bufs w) (a_spa a) (a_plen a)) (over junk tpa 0 (Z.to_nat (a_plen a)) []) M7) as (w8 & -> & M8 & B8);
    [set_solver|set_solver|rewrite B7, B6, B5, B4; block|by rewrite at_addr_length, over_length|]. cbn [mbind outcome_bind].
  split; [apply rop_done|]. intros r w' [= <- <-]. exists sha, spa, tha, tpa. rewrite B8, B7, B6, B5.
  split_and!; try done; block.
Qed.

(** ** Sending *)
Lemma grown_struct L0 L s0 s size :
  grown L0 L s0 s → 0 < size < 2 ^ 32 →
  returns_or_panics (al_malloc size (nh_heap s)) ∧
  ∀ a h, al_malloc size (nh_heap s) = Done (a, h) →
    a ≠ 0 ∧ (a ∉ L) ∧ grown L0 ({[a]} ∪ L) s0 (NH h (nh_blocks s)).
Proof.
  intros [S [Oh Ob] K] Hs. destruct (al_malloc_ok L size _ Oh Hs) as [Hret Hpost]. split; [done|].
  intros a h E. destruct (Hpost a h E) as [Ha Ok]. split_and!; [eapply al_nonnull; [exact Ok|set_solver]|done|].
  split; [set_solver| |done]. split; [done|]. intros b Hb. apply elem_of_union_r. by apply Ob.
Qed.

Lemma free_struct_ok L0 L s0 w a :
  grown L0 L s0 (nt_bufs w) → a ∈ L → a ∉ L0 → nh_blocks (nt_bufs w) !! a = None →
  ∃ h, free_struct a w = Done (with_bufs (NH h (nh_blocks (nt_bufs w))) w) ∧ grown L0 (L ∖ {[a]}) s0 (NH h (nh_blocks (nt_bufs w))).
Proof.
  intros [S [Oh Ob] K] Ha Hn Hb. destruct (al_free_ok L a _ Oh Ha) as (h & E & Ok). exists h. unfold free_struct. rewrite E.
  split; [done|]. split; [set_solver| |done]. split; [done|]. cbn [nh_blocks]. intros b Hs. apply elem_of_difference.
  split; [by apply Ob|]. intros ->%elem_of_singleton. rewrite Hb in Hs. by destruct Hs.
Qed.

Lemma create_tx_packet_ok L0 L s0 w n c len :
  grown L0 L s0 (nt_bufs w) → nt_nics w !! n = Some c → n_tx c = 0 → 0 < len < 2 ^ 32 →
  returns_or_panics (create_tx_packet junk n len w) ∧
  ∀ p w', create_tx_packet junk n len w = Done (p, w') →
    ∃ d s, (p ∉ L) ∧ (d ∉ {[p]} ∪ L) ∧ grown L0 ({[d]} ∪ ({[p]} ∪ L)) s0 s ∧
      nh_blocks s = <[d := replicate (Z.to_nat len) 0]> (nh_blocks (nt_bufs w)) ∧
      w' = Net s (<[p := Packet len d 0 0]> (nt_packets w)) (nt_cache w) (nics w) (<[n := with_tx p c]> (nt_nics w)) (nt_dev w).
Proof.
  intros Hg Hc Htx Hlen. unfold create_tx_packet, new_struct.
  destruct (grown_struct _ _ _ _ SIZEOF_PACKET Hg) as [Hret Hpost]; [done|]. run Hret as p h E.
  destruct (Hpost _ _ E) as (Hp0 & Hp & Hg1). rewrite (proj2 (Z.eqb_neq _ _) Hp0). cbn [mbind outcome_bind].
  destruct (alloc_ok junk _ _ len (gr_ok _ _ _ _ Hg1) Hlen) as [Hret2 Hpost2]. unfold bufs. cbn [nt_bufs with_bufs].
  run Hret2 as d s1 E2. destruct (Hpost2 _ _ E2) as (_ & Hd & Hg2 & Eb2). assert (Hg2' : grown L0 ({[d]} ∪ ({[p]} ∪ L)) s0 s1) by (eapply grown_trans; done).
  destruct (fill_ok L0 ({[d]} ∪ ({[p]} ∪ L)) s0 s1 d (replicate (Z.to_nat len) 0) (over junk d 0 (Z.to_nat len) [])) as (s2 & E3 & Hg3 & Eb3);
    [done|set_solver| |by rewrite Eb2, lookup_insert_eq|by rewrite over_length, length_replicate|].
  { intros ?. apply Hd. apply elem_of_union_r. by apply (gr_sub _ _ _ _ Hg). }
  unfold bufs_. cbn [nt_bufs with_bufs]. rewrite E3. cbn [mbind outcome_bind].
  unfold get_nic_at. cbn [nt_nics with_bufs]. rewrite Hc. cbn [known mbind outcome_bind]. rewrite Htx. cbn [Z.eqb negb].
  unfold upd_nic, get_nic_at. cbn [nt_nics with_bufs with_packets mbind outcome_bind]. rewrite Hc. cbn [known mbind outcome_bind].
  split; [apply rop_done|]. intros p' w' [= <- <-]. exists d, s2. split_and!; try done. by rewrite Eb3, Eb2, insert_insert_eq.
Qed.

Lemma send_packet_ok L0 L s0 w n p x c l :
  grown L0 L s0 (nt_bufs w) → nt_packets w !! p = Some x → nt_nics w !! n = Some c →
  nh_blocks (nt_bufs w) !! pk_data x = Some l → Z.of_nat (length l) = pk_len x →
  p ∈ L → p ∉ L0 → pk_data x ∈ L → pk_data x ∉ L0 → p ≠ pk_data x → nh_blocks (nt_bufs w) !! p = None →
  ∃ d s, ne_write (n_device c) (pk_len x) l (nt_dev w) = Done d ∧
    send_packet junk n p w = Done (pk_next x, Net s (delete p (nt_packets w)) (nt_cache w) (nics w) (nt_nics w) d) ∧
    grown L0 (L ∖ {[pk_data x]} ∖ {[p]}) s0 s ∧ (∀ b, b ≠ pk_data x → nh_blocks s !! b = nh_blocks (nt_bufs w) !! b).
Proof.
  intros Hg Hx Hc Hl Hlen Hp Hp0 Hd Hd0 Hne Hpn. unfold send_packet, get_packet, get_nic_at. rewrite Hx, Hc. cbn [known mbind outcome_bind].
  rewrite (rd_ok junk (pk_data x, 0) _ _ l) by (done || lia). cbn [mbind outcome_bind fst snd]. change (Z.to_nat 0) with 0%nat.
  rewrite over_in, drop_0, take_ge by lia.
  destruct (ne_write_ok (n_device c) (pk_len x) l (nt_dev w)) as [d Ed]. rewrite Ed. cbn [mbind outcome_bind]. exists d.
  destruct (release_ok junk _ _ _ _ (pk_data x) Hg Hd Hd0) as (s1 & E1 & Hg1 & K1). unfold bufs_. cbn [nt_bufs with_dev]. rewrite E1. cbn [mbind outcome_bind].
  destruct (free_struct_ok L0 _ s0 (with_bufs s1 (with_dev d w)) p Hg1) as (h & E2 & Hg2); [set_solver|done|cbn; by rewrite K1|].
  rewrite E2. cbn [mbind outcome_bind]. eexists. split_and!; [done|reflexivity|done|done].
Qed.

(** The frame a structure stands for: behind data that is too short lies what follows its block. *)
Definition frame_of (e : eth) l : list Z :=
  (((e_da e ++ e_sa e) ++ e_kind e) ++ over junk (e_data e) 0 (Z.to_nat (e_datalen e)) l)%list.

Lemma frame_of_length e l :
  length (e_da e) = 6%nat → length (e_sa e) = 6%nat → length (e_kind e) = 2%nat → 0 ≤ e_datalen e → Z.of_nat (length (frame_of e l)) = e_datalen e + 14.
Proof. intros Hda Hsa Hk Hd. unfold frame_of. rewrite !length_app, over_length. lia. Qed.

Lemma tx_n_ok L0 L s0 w n p x c l :
  grown L0 L s0 (nt_bufs w) → nt_packets w !! p = Some x → nt_nics w !! n = Some c → n_tx c = p →
  nh_blocks (nt_bufs w) !! pk_data x = Some l → Z.of_nat (length l) = pk_len x →
  p ∈ L → p ∉ L0 → pk_data x ∈ L → pk_data x ∉ L0 → p ≠ pk_data x → nh_blocks (nt_bufs w) !! p = None →
  ∃ d s, ne_write (n_device c) (pk_len x) l (nt_dev w) = Done d ∧
    tx_n junk n 1 w = Done (Net s (delete p (nt_packets w)) (nt_cache w) (nics w) (<[n := with_tx (pk_next x) c]> (nt_nics w)) d) ∧
    grown L0 (L ∖ {[pk_data x]} ∖ {[p]}) s0 s.
Proof.
  intros Hg Hx Hc Hp Hl Hlen ? ? ? ? ? ?.
  destruct (send_packet_ok L0 L s0 w n p x c l) as (d & s & Ed & Es & Hgs & _); try done. exists d, s. split; [done|].
  unfold tx_n, get_nic_at. rewrite Hc. cbn [known mbind outcome_bind]. change (Z.to_nat 1) with 1%nat. cbn [for_up].
  rewrite Hp, Es. cbn [mbind outcome_bind]. unfold upd_nic, get_nic_at. cbn [nt_nics]. rewrite Hc. done.
Qed.

Lemma send_eth_ok L0 L s0 w n c e l :
  grown L0 L s0 (nt_bufs w) → (∀ p, is_Some (nt_packets w !! p) → p ∈ L) → nt_nics w !! n = Some c → n_tx c = 0 →
  e_data e ∈ L → e_data e ∉ L0 → nh_blocks (nt_bufs w) !! e_data e = Some l → 46 ≤ e_datalen e ≤ 1500 →
  length (e_da e) = 6%nat → length (e_sa e) = 6%nat → length (e_kind e) = 2%nat →
  returns_or_panics (send_eth junk n e w) ∧
  ∀ b w', send_eth junk n e w = Done (b, w') →
    b = true ∧ ∃ s d, ne_write (n_device c) (e_datalen e + 14) (frame_of e l) (nt_dev w) = Done d ∧
      w' = with_dev d (with_bufs s w) ∧ grown L0 (L ∖ {[e_data e]}) s0 s.
Proof.
  intros Hg Hpk Hc Htx HeL He0 Hl Hlen Hda Hsa Hk. unfold send_eth, eth_get_packet_size. rewrite u16_small by lia.
  assert (Hen : e_data e ≠ 0) by (eapply al_nonnull; [apply (gr_ok _ _ _ _ Hg)|done]).
  destruct (create_tx_packet_ok L0 L s0 w n c (e_datalen e + 14) Hg Hc Htx) as [Hret Hpost]; [lia|]. run Hret as p w1 E1.
  destruct (Hpost _ _ E1) as (d & s1 & Hp & Hd & Hg1 & Eb1 & ->). assert (HL := gr_sub _ _ _ _ Hg).
  assert (p ≠ d ∧ e_data e ≠ d ∧ e_data e ≠ p ∧ (d ∉ L0) ∧ (p ∉ L0)) as (Hpd & Hed & Hep & Hd0 & Hp0) by set_solver.
  unfold get_packet. cbn [nt_packets]. rewrite lookup_insert_eq. cbn [known mbind outcome_bind pk_data pk_len].
  destruct (eth_to_packet_ok junk e d s1 (replicate (Z.to_nat (e_datalen e + 14)) 0) l) as (s2 & E2 & Eh2 & Eb2);
    [by rewrite Eb1, lookup_insert_eq|rewrite length_replicate; lia|done..|by rewrite Eb1, lookup_insert_ne|done|].
  unfold bufs. cbn [nt_bufs]. rewrite E2. cbn [mbind outcome_bind]. rewrite (proj2 (Z.eqb_neq _ _)) by lia.
  assert (Hg2 : grown L0 ({[d]} ∪ ({[p]} ∪ L)) s0 s2) by (eapply grown_write with (a := d); [exact Hg1|set_solver|done|done|exact Eb2]).
  destruct (release_ok junk _ _ _ _ (e_data e) Hg2) as (s3 & E3 & Hg3 & K3); [set_solver|done|].
  unfold bufs_, eth_destroy. cbn [nt_bufs with_bufs]. rewrite (proj2 (Z.eqb_neq _ _) Hen). cbn [negb]. rewrite E3. cbn [mbind outcome_bind with_bufs nt_packets nt_cache nics nt_nics nt_dev].
  assert (Hp3 : nh_blocks s2 !! p = None).
  { rewrite Eb2, Eb1, !lookup_insert_ne by done. destruct (nh_blocks (nt_bufs w) !! p) eqn:Ep; [|done]. destruct Hp. eapply bo_blocks; [apply (gr_ok _ _ _ _ Hg)|by rewrite Ep]. }
  destruct (tx_n_ok L0 _ s0 (Net s3 (<[p := Packet (e_datalen e + 14) d 0 0]> (nt_packets w)) (nt_cache w) (nics w) (<[n := with_tx p c]> (nt_nics w)) (nt_dev w))
    n p (Packet (e_datalen e + 14) d 0 0) (with_tx p c) (frame_of e l) Hg3) as (d' & s4 & Ed & Et & Hg4);
    cbn [nt_packets nt_nics nt_bufs n_tx with_tx pk_data pk_len]; [by rewrite lookup_insert_eq|by rewrite lookup_insert_eq|done|
      by rewrite K3, Eb2, lookup_insert_eq|apply frame_of_length; try done; lia|set_solver|done|set_solver|done|done|by rewrite K3|].
  unfold with_bufs at 1 2 3 4. cbn [nt_packets nt_cache nics nt_nics nt_dev]. rewrite Et. cbn [mbind outcome_bind]. split; [apply rop_done|]. intros b w' [= <- <-]. split; [done|]. exists s4, d'. split; [exact Ed|].
  assert (Enp : nt_packets w !! p = None). { destruct (nt_packets w !! p) eqn:Ep; [|done]. destruct Hp. apply Hpk. by rewrite Ep. }
  cbn [nt_packets nt_cache nics nt_nics pk_next]. rewrite delete_insert_id by done. rewrite insert_insert_eq. split.
  - unfold with_dev, with_bufs. cbn. f_equal. rewrite insert_id; [done|]. rewrite Hc. f_equal. destruct c; cbn in *; by subst.
  - cbn [pk_data] in Hg4. by replace (L ∖ {[e_data e]}) with (({[d]} ∪ ({[p]} ∪ L)) ∖ {[e_data e]} ∖ {[d]} ∖ {[p]}) by set_solver.
Qed.

(** The packet that answers [a] for the interface [c] at [n]. *)
Definition answer (n : Z) (c : nic) (a : arp) w : list Z :=
  (((((((le16 (a_htype a) ++ le16 (a_ptype a)) ++ [a_hlen a]) ++ [a_plen a]) ++ le16 (HTONS ARP_REPLY)) ++
   over junk n 0 (Z.to_nat (a_hlen a)) (nic_area c)) ++ over junk n 6 (Z.to_nat (a_plen a)) (nic_area c)) ++
   at_addr junk (nt_bufs w) (a_sha a) (a_hlen a) ++ at_addr junk (nt_bufs w) (a_spa a) (a_plen a))%list.

Lemma answer_length n c a w : 0 ≤ a_hlen a → 0 ≤ a_plen a → Z.of_nat (length (answer n c a w)) = 8 + 2 * (a_hlen a + a_plen a).
Proof. intros Hh Hp. unfold answer. rewrite !length_app, !over_length, !at_addr_length. cbn. lia. Qed.

Lemma over_whole a k l : length l = k → over junk a 0 k l = l.
Proof. intros Hk. rewrite over_in, drop_0, take_ge by lia. done. Qed.

Lemma reply_bytes_ok L n c a w :
  net_ok L w → address_ok a w →
  returns_or_panics (reply_bytes junk n c a w) ∧
  ∀ d k w', reply_bytes junk n c a w = Done (d, k, w') →
    k = 8 + 2 * (a_hlen a + a_plen a) ∧ ∃ L', more_bufs L L' w w' ∧ nh_blocks (nt_bufs w') !! d = Some (answer n c a w).
Proof.
  intros Hok Ha. pose proof Ha as (Hh & Hp & _ & _). destruct (make_reply_ok L n c a w Hok Ha) as [Hret Hpost]. unfold reply_bytes. run Hret as r w1 E1.
  destruct (Hpost _ _ E1) as (sha & spa & tha & tpa & -> & N1 & N2 & N3 & N4 & M1 & B1 & B2 & B3 & B4).
  set (L1 := {[tpa]} ∪ _) in *. unfold size_arp. cbn [a_hlen a_plen]. rewrite u16_small by lia.
  destruct (bufs_alloc L1 w1 (8 + 2 * (a_hlen a + a_plen a)) (more_ok _ _ _ _ Hok M1)) as [Hret2 Hpost2]; [lia|]. run Hret2 as d w2 E2.
  destruct (Hpost2 _ _ E2) as (_ & Nd & M2 & Bd).
  assert (sha ≠ d ∧ spa ≠ d ∧ tha ≠ d ∧ tpa ≠ d ∧ (d ∉ L)) as (? & ? & ? & ? & HdL) by (unfold L1 in Nd; set_solver).
  set (r := Arp _ _ _ _ _ _ _ _ _).
  destruct (data_arp_ok junk r d (nt_bufs w2) (over junk d 0 (Z.to_nat (8 + 2 * (a_hlen a + a_plen a))) [])) as (s3 & E3 & Eh3 & Eb3);
    [by rewrite Bd, lookup_insert_eq|cbn; lia|cbn; lia|rewrite over_length; cbn; lia| |].
  { subst r. cbn [a_sha a_spa a_tha a_tpa]. repeat constructor; cbn [fst]; try done; rewrite Bd, lookup_insert_ne by done; rewrite ?B1, ?B2, ?B3, ?B4; by eexists. }
  unfold bufs_. rewrite E3. cbn [mbind outcome_bind]. split; [apply rop_done|]. intros d' k w' [= <- <- <-]. split; [done|]. exists ({[d]} ∪ L1).
  pose proof (more_trans _ _ _ _ _ _ M1 M2) as [Hg Ew]. split.
  - split; cbn [nt_bufs with_bufs]; [|by rewrite Ew]. eapply grown_write with (a := d); [exact Hg|set_solver|done|done|exact Eb3].
  - cbn [nt_bufs with_bufs]. rewrite Eb3, lookup_insert_eq. f_equal. subst r. unfold arp_bytes, answer, at_addr. cbn [a_htype a_ptype a_hlen a_plen a_oper a_sha a_spa a_tha a_tpa fst snd].
    rewrite !Bd, !lookup_insert_ne, B1, B2, B3, B4 by done. cbn [default id from_option]. change (Z.to_nat 0) with 0%nat.
    rewrite !(over_whole _ _ (over _ _ _ _ _)) by apply over_length. rewrite !(over_whole _ _ (at_addr _ _ _ _)) by apply at_addr_length. by rewrite app_assoc.
Qed.

Lemma arp_reply_ok L n c a w :
  net_ok L w → address_ok a w → nt_nics w !! n = Some c → n_tx c = 0 → length (n_mac c) = 6%nat →
  returns_or_panics (arp_reply junk n a w) ∧
  ∀ b w', arp_reply junk n a w = Done (b, w') →
    b = true ∧ ∃ L' s d x, ne_write (n_device c) (clamp (8 + 2 * (a_hlen a + a_plen a)) + 14)
        (frame_of (Eth (at_addr junk (nt_bufs w) (a_sha a) 6) (n_mac c) ethertype_arp (clamp (8 + 2 * (a_hlen a + a_plen a))) x) (answer n c a w))
        (nt_dev w) = Done d ∧
      w' = with_dev d (with_bufs s w) ∧ grown L L' (nt_bufs w) s.
Proof.
  intros Hok Ha Hc Htx Hmac. pose proof Ha as (Hh & Hp & Hsha & _). unfold arp_reply, get_nic_at. rewrite Hc. cbn [known mbind outcome_bind].
  destruct (reply_bytes_ok L n c a w Hok Ha) as [Hret Hpost]. run Hret as dk w1 E1. destruct dk as [d k]. destruct (Hpost _ _ _ E1) as (-> & L1 & M1 & B1).
  pose proof (more_ok _ _ _ _ Hok M1) as Hok1. destruct (more_at L L1 w w1 (a_sha a) 6 Hok M1 Hsha) as [A1 S1]. pose proof M1 as [Hg1 Ew1].
  rewrite (rd_at junk (a_sha a) 6 _ S1), A1 by lia. cbn [mbind outcome_bind].
  destruct (eth_create_ok junk L1 (nt_bufs w1) (n_mac c) (at_addr junk (nt_bufs w) (a_sha a) 6) d ethertype_arp (8 + 2 * (a_hlen a + a_plen a)) _ (no_bufs _ _ Hok1) B1) as [Hret2 Hpost2]; [lia|].
  unfold bufs. run Hret2 as e s2 E2. destruct (Hpost2 _ _ E2) as (x & -> & Hx0 & HxL & Hg2 & Eb2).
  rewrite over_whole in Eb2 by (pose proof (answer_length n c a w); lia).
  pose proof (gr_sub _ _ _ _ Hg1) as HL1. pose proof (gr_sub _ _ _ _ Hg2) as HL2.
  assert (Hg : grown L ({[x]} ∪ L1) (nt_bufs w) s2) by (eapply grown_trans; done).
  destruct (send_eth_ok L ({[x]} ∪ L1) (nt_bufs w) (with_bufs s2 w1) n c
    (Eth (at_addr junk (nt_bufs w) (a_sha a) 6) (n_mac c) ethertype_arp (clamp (8 + 2 * (a_hlen a + a_plen a))) x) (answer n c a w) Hg) as [Hret3 Hpost3];
    cbn [e_data e_datalen e_da e_sa e_kind nt_packets nt_nics with_bufs nt_bufs].
  - intros p Hpk. rewrite Ew1 in Hpk. apply elem_of_union_r, HL1. by eapply no_packets.
  - by rewrite Ew1.
  - done.
  - set_solver.
  - set_solver.
  - by rewrite Eb2, lookup_insert_eq.
  - unfold clamp. repeat case_match; lia.
  - apply at_addr_length.
  - done.
  - done.
  - split; [done|]. intros b w' E. destruct (Hpost3 _ _ E) as (-> & s & d' & Ed & -> & Hgs). split; [done|].
    exists (({[x]} ∪ L1) ∖ {[x]}), s, d', x. split_and!.
    + rewrite Ew1 in Ed. exact Ed.
    + by rewrite Ew1.
    + exact Hgs.
Qed.
End packet.
