(* ===== verification/NetCache.v ===== *)
(** * The ARP cache as a finite map (src/src/devices/net/netstack.c)

    The chain of entries of an interface stands for a map from addresses of the network to
    hardware addresses, which the three operations read, update and empty. *)
From stdpp Require Import gmap.
From S2P Require Import Prelude PageService Alloc CString Net NetBufs NetStack NetPacket.
#[local] Open Scope Z_scope.

(** The chain from [a]: addresses of the entries with what they hold. *)
Fixpoint chain (m : gmap Z arp_cache) (a : Z) (l : list (Z * (list Z * list Z))) : Prop :=
  match l with
  | [] => a = 0
  | (b, (ip, mac)) :: l => a = b ∧ b ≠ 0 ∧ ∃ nx, m !! b = Some (Cache ip mac nx) ∧ chain m nx l
  end.

Record entries (m : gmap Z arp_cache) (a : Z) (l : list (Z * (list Z * list Z))) : Prop := {
  en_chain : chain m a l;
  en_addrs : NoDup l.*1;
  en_ips : NoDup l.*2.*1;
}.

Lemma chain_in m a l b ip mac : chain m a l → (b, (ip, mac)) ∈ l → ∃ nx, m !! b = Some (Cache ip mac nx).
Proof.
  revert a. induction l as [|[b' [ip' mac']] l IH]; intros a Hc Hin; [by apply elem_of_nil in Hin|].
  destruct Hc as (_ & _ & nx & Hm & Hc). apply elem_of_cons in Hin as [[= -> -> ->]|Hin]; [by exists nx|by eapply IH].
Qed.

Lemma chain_ext m m' a l : (∀ b, b ∈ l.*1 → m' !! b = m !! b) → chain m a l → chain m' a l.
Proof.
  revert a. induction l as [|[b [ip mac]] l IH]; intros a Hm Hc; [done|].
  destruct Hc as (-> & Hb & nx & Hx & Hc). split_and!; [done|done|]. exists nx. split; [by rewrite Hm by set_solver|].
  apply IH; [|done]. intros. apply Hm. set_solver.
Qed.

Lemma entries_size m a l : entries m a l → (length l ≤ size m)%nat.
Proof.
  intros [Hc Hn _]. rewrite <- (length_fmap fst l), <- (size_list_to_set (C := gset Z)), <- size_dom by done. apply subseteq_size.
  intros b Hb. apply elem_of_list_to_set, list_elem_of_fmap in Hb as ([b' [ip mac]] & -> & Hin).
  destruct (chain_in _ _ _ _ _ _ Hc Hin) as [nx Hx]. apply elem_of_dom. by eexists.
Qed.

(** The map of a chain. *)
Definition learned (l : list (Z * (list Z * list Z))) : gmap (list Z) (list Z) := list_to_map l.*2.

(** The entry of an address. *)
Fixpoint entry_of (ip : list Z) (l : list (Z * (list Z * list Z))) : option Z :=
  match l with
  | [] => None
  | (b, (ip', _)) :: l => if bool_decide (ip' = ip) then Some b else entry_of ip l
  end.

Lemma entry_of_Some ip l b : entry_of ip l = Some b → ∃ mac l1 l2, l = l1 ++ (b, (ip, mac)) :: l2 ∧ ip ∉ l1.*2.*1.
Proof.
  induction l as [|[b' [ip' mac']] l IH]; cbn; [done|]. case_bool_decide as Hip.
  - intros [= <-]. subst. exists mac', [], l. split; [done|]. by apply not_elem_of_nil.
  - intros Hb. destruct (IH Hb) as (mac & l1 & l2 & -> & Hn). exists mac, ((b', (ip', mac')) :: l1), l2. split; [done|].
    cbn. set_solver.
Qed.
Lemma entry_of_None ip l : entry_of ip l = None → ip ∉ l.*2.*1.
Proof.
  induction l as [|[b' [ip' mac']] l IH]; cbn; [intros _; by apply not_elem_of_nil|]. case_bool_decide as Hip; [done|]. set_solver.
Qed.

Section cache.
Context {H : Type} `{AllocatorOk H} {D : Type} `{NetEnvOk D} (junk : Z → nat → Z).
Implicit Types (n : Z) (w : net (H := H) (D := D)) (L : gset Z).

Lemma find_cache_ok ip a l w : entries (nt_cache w) a l → length ip = 4%nat → find_cache ip a w = Done (entry_of ip l).
Proof.
  intros He Hip. pose proof (entries_size _ _ _ He) as Hs. destruct He as [Hc _ _]. unfold find_cache, cache_fuel. rewrite (take_ge ip) by lia.
  assert (Hf : (length l < S (size (nt_cache w)))%nat) by lia. revert Hf. generalize (S (size (nt_cache w))) as fuel. clear Hs.
  revert a Hc. induction l as [|[b [ip' mac]] l IH]; intros a Hc [|fuel] Hf; cbn in Hf; try lia; cbn [loop].
  - cbn in Hc. subst. done.
  - destruct Hc as (-> & Hb & nx & Hx & Hc). rewrite (proj2 (Z.eqb_neq _ _) Hb), Hx. cbn [known mbind outcome_bind ac_ip ac_next entry_of].
    case_bool_decide; cbn [mbind outcome_bind]; [done|]. apply IH; [done|lia].
Qed.

(** [M] is what the interface at [n] has learned. *)
Definition cached n w (M : gmap (list Z) (list Z)) : Prop :=
  ∃ c l, nt_nics w !! n = Some c ∧ entries (nt_cache w) (n_cache c) l ∧ learned l = M.

Lemma learned_here l1 l2 b ip mac : ip ∉ l1.*2.*1 → learned (l1 ++ (b, (ip, mac)) :: l2) !! ip = Some mac.
Proof.
  intros Hn. unfold learned. rewrite fmap_app, list_to_map_app, lookup_union_r by (by apply not_elem_of_list_to_map_1).
  cbn. apply lookup_insert_eq.
Qed.

Lemma get_mac_cached n w M ip : cached n w M → length ip = 4%nat → get_mac_for_ip n ip w = Done (default (replicate 6 0) (M !! ip)).
Proof.
  intros (c & l & Hc & He & <-) Hip. unfold get_mac_for_ip, get_nic_at. rewrite Hc. cbn [known mbind outcome_bind].
  rewrite (find_cache_ok ip _ l w He Hip). cbn [mbind outcome_bind]. destruct (entry_of ip l) as [b|] eqn:Eb.
  - destruct (entry_of_Some _ _ _ Eb) as (mac & l1 & l2 & -> & Hn).
    destruct (chain_in _ _ _ b ip mac (en_chain _ _ _ He)) as [nx Hx]; [set_solver|]. rewrite Hx, learned_here by done. done.
  - apply entry_of_None in Eb. unfold learned. by rewrite not_elem_of_list_to_map_1.
Qed.

(** ** Adding *)
Lemma chain_update m a l1 l2 b ip mac mac' nx :
  chain m a (l1 ++ (b, (ip, mac)) :: l2) → NoDup (l1 ++ (b, (ip, mac)) :: l2).*1 → m !! b = Some (Cache ip mac nx) →
  chain (<[b := Cache ip mac' nx]> m) a (l1 ++ (b, (ip, mac')) :: l2).
Proof.
  revert a. induction l1 as [|[b' [ip' mc]] l1 IH]; intros a Hc Hn Hb; cbn [app fmap list_fmap fst] in *; apply NoDup_cons in Hn as [Hn Hd].
  - destruct Hc as (-> & H0' & nx' & Hx & Hc). rewrite Hb in Hx. injection Hx as <-. split_and!; [done|done|]. exists nx. split; [apply lookup_insert_eq|].
    eapply chain_ext; [|exact Hc]. intros x Hx. apply lookup_insert_ne. intros ->. done.
  - destruct Hc as (-> & H0' & nx' & Hx & Hc). split_and!; [done|done|]. exists nx'. split; [|by apply IH].
    rewrite lookup_insert_ne; [done|]. intros ->. apply Hn. rewrite fmap_app. set_solver.
Qed.

Lemma entries_update m a l1 l2 b ip mac mac' nx :
  entries m a (l1 ++ (b, (ip, mac)) :: l2) → m !! b = Some (Cache ip mac nx) →
  entries (<[b := Cache ip mac' nx]> m) a (l1 ++ (b, (ip, mac')) :: l2) ∧
  learned (l1 ++ (b, (ip, mac')) :: l2) = <[ip := mac']> (learned (l1 ++ (b, (ip, mac)) :: l2)).
Proof.
  intros [Hc Hn Hi] Hb. assert (En : ip ∉ l1.*2.*1) by (rewrite !fmap_app in Hi; apply NoDup_app in Hi as (_ & Hd & _); set_solver). split.
  - split; [by eapply chain_update|by rewrite fmap_app in *|by rewrite !fmap_app in *].
  - unfold learned. rewrite !fmap_app, !list_to_map_app. cbn.
    rewrite insert_union_r by (by apply not_elem_of_list_to_map_1). by rewrite insert_insert_eq.
Qed.

Lemma entries_cons m a l b ip mac :
  entries m a l → b ≠ 0 → m !! b = None → ip ∉ l.*2.*1 →
  entries (<[b := Cache ip mac a]> m) b ((b, (ip, mac)) :: l).
Proof.
  intros [Hc Hn Hi] Hb Hm Hip. assert (Hbl : b ∉ l.*1).
  { intros ([b' [ip' mac']] & -> & Hin)%list_elem_of_fmap. destruct (chain_in _ _ _ _ _ _ Hc Hin) as [nx Hx]. cbn in Hm. by rewrite Hm in Hx. }
  split; [|by constructor|by constructor]. split_and!; [done|done|]. exists a. split; [apply lookup_insert_eq|].
  eapply chain_ext; [|exact Hc]. intros x Hx. apply lookup_insert_ne. by intros ->.
Qed.

(** Only the cache of the interface changes. *)
Definition same_but_cache n w w' : Prop :=
  nh_blocks (nt_bufs w') = nh_blocks (nt_bufs w) ∧ nt_packets w' = nt_packets w ∧ nt_dev w' = nt_dev w ∧ nics w' = nics w ∧
  (∀ n', n' ≠ n → nt_nics w' !! n' = nt_nics w !! n') ∧
  ∀ c, nt_nics w !! n = Some c → ∃ a, nt_nics w' !! n = Some (with_cache a c).

Lemma same_caches n c x w : nt_nics w !! n = Some c → same_but_cache n w (with_caches x w).
Proof. intros Hc. split_and!; try done. intros c' Hc'. exists (n_cache c'). cbn [nt_nics with_caches]. rewrite Hc'. by destruct c'. Qed.

(** The world after an entry was put in front. *)
Definition fronted n c b h ip mac w : net :=
  with_nics (<[n := with_cache b c]> (nt_nics w))
    (with_caches (<[b := Cache ip mac (n_cache c)]> (nt_cache w)) (with_bufs (NH h (nh_blocks (nt_bufs w))) w)).

Lemma add_new L n w c l b h ip mac :
  net_ok L w → nt_nics w !! n = Some c → entries (nt_cache w) (n_cache c) l → ip ∉ l.*2.*1 →
  b ≠ 0 → b ∉ L → grown L ({[b]} ∪ L) (nt_bufs w) (NH h (nh_blocks (nt_bufs w))) →
  cached n (fronted n c b h ip mac w) (<[ip := mac]> (learned l)) ∧ same_but_cache n w (fronted n c b h ip mac w) ∧
  ∃ L', L ⊆ L' ∧ net_ok L' (fronted n c b h ip mac w).
Proof.
  intros [Hb Hp Hk] Hc He Hip Hb0 HbL [Hsub Hb' _]. assert (Hbn : nt_cache w !! b = None).
  { destruct (nt_cache w !! b) eqn:Ex; [|done]. destruct HbL. apply Hk. by rewrite Ex. }
  assert (Hbb : nh_blocks (nt_bufs w) !! b = None).
  { destruct (nh_blocks (nt_bufs w) !! b) eqn:Ex; [|done]. destruct HbL. eapply bo_blocks; [exact Hb|by rewrite Ex]. }
  assert (Hbp : nt_packets w !! b = None).
  { destruct (nt_packets w !! b) eqn:Ex; [|done]. destruct HbL. apply Hp. by rewrite Ex. }
  split_and!.
  - exists (with_cache b c), ((b, (ip, mac)) :: l). split_and!; [apply lookup_insert_eq|by apply entries_cons|done].
  - split_and!; try done; cbn [fronted nt_nics with_nics]; [intros n' Hn'; by apply lookup_insert_ne|].
    intros c' Hc'. exists b. rewrite lookup_insert_eq. congruence.
  - exists ({[b]} ∪ L). split; [set_solver|]. split; cbn [fronted nt_bufs nt_packets nt_cache nh_blocks with_nics with_caches with_bufs]; [done| |].
    + intros p Hs. destruct (Hp p Hs). split; [set_solver|done].
    + intros p Hs. destruct (decide (p = b)) as [->|Hne]; [split_and!; [set_solver|done|done]|].
      rewrite lookup_insert_ne in Hs by done. destruct (Hk p Hs) as (? & ? & ?). split_and!; [set_solver|done|done].
Qed.

Lemma add_cached L n w M ip mac :
  net_ok L w → cached n w M → length ip = 4%nat → length mac = 6%nat →
  returns_or_panics (add_arp_cache_entry n ip mac w) ∧
  ∀ w', add_arp_cache_entry n ip mac w = Done w' →
    cached n w' (<[ip := mac]> M) ∧ same_but_cache n w w' ∧ ∃ L', L ⊆ L' ∧ net_ok L' w'.
Proof.
  intros Hok (c & l & Hc & He & <-) Hip Hmac. unfold add_arp_cache_entry, get_nic_at. rewrite Hc. cbn [known mbind outcome_bind].
  rewrite (find_cache_ok ip _ l w He Hip). cbn [mbind outcome_bind]. rewrite !take_ge by lia. destruct (entry_of ip l) as [b|] eqn:Eb.
  - destruct (entry_of_Some _ _ _ Eb) as (mac0 & l1 & l2 & -> & Hn).
    destruct (chain_in _ _ _ b ip mac0 (en_chain _ _ _ He)) as [nx Hx]; [set_solver|]. rewrite Hx. cbn [known mbind outcome_bind ac_ip ac_next].
    split; [apply rop_done|]. intros w' [= <-]. destruct (entries_update _ _ l1 l2 b ip mac0 mac nx He Hx) as [He' <-].
    split_and!; [by exists c, (l1 ++ (b, (ip, mac)) :: l2)|by eapply same_caches|]. exists L. split; [done|]. destruct Hok as [Hb Hp Hk].
    split; [done|done|]. cbn [nt_cache with_caches nt_bufs nt_packets]. intros p Hs. apply Hk. destruct (decide (p = b)) as [->|Hne]; [by eexists|].
    by rewrite lookup_insert_ne in Hs.
  - unfold new_struct. destruct (grown_struct junk L L (nt_bufs w) (nt_bufs w) SIZEOF_ARP_CACHE) as [Hret Hpost]; [apply grown_refl, Hok|done|].
    destruct Hret as [[[b h] E]|[why E]]; rewrite E; cbn [mbind outcome_bind]; [|split; [apply rop_panic|done]].
    destruct (Hpost b h E) as (Hb0 & HbL & Hg). rewrite (proj2 (Z.eqb_neq _ _) Hb0). cbn [mbind outcome_bind].
    unfold upd_nic, get_nic_at. cbn [nt_nics nt_cache with_caches with_bufs]. rewrite Hc. cbn [known mbind outcome_bind].
    split; [apply rop_done|]. intros w' [= <-]. eapply add_new; try done. by apply entry_of_None.
Qed.

(** ** Clearing *)
Lemma drop_entry L w b h :
  net_ok L w → is_Some (nt_cache w !! b) → al_ok (L ∖ {[b]}) h →
  net_ok (L ∖ {[b]}) (with_caches (delete b (nt_cache w)) (with_bufs (NH h (nh_blocks (nt_bufs w))) w)).
Proof.
  intros [[Oh Ob] Hp Hk] Hb Oh'. destruct (Hk b Hb) as (HbL & Hbb & Hbp).
  split; [split|..]; cbn [nt_bufs nt_packets nt_cache nh_heap nh_blocks with_caches with_bufs]; [done|..].
  - intros x Hx. apply elem_of_difference. split; [by apply Ob|]. intros ->%elem_of_singleton. rewrite Hbb in Hx. by destruct Hx.
  - intros x Hx. destruct (Hp x Hx). split; [|done]. apply elem_of_difference. split; [done|]. intros ->%elem_of_singleton. rewrite Hbp in Hx. by destruct Hx.
  - intros x [y [Hne Hy]%lookup_delete_Some]. destruct (Hk x) as (? & ? & ?); [by eexists|]. split_and!; [set_solver|done|done].
Qed.

(** The entries of the chain are freed one by one. *)
Lemma clear_chain L w a l fuel :
  net_ok L w → chain (nt_cache w) a l → NoDup l.*1 → (length l < fuel)%nat →
  ∃ w', loop fuel (λ '(a, w),
      if a =? 0 then Done (inr w) else
      x ← known (nt_cache w !! a);
      w ← free_struct a w;
      Done (inl (ac_next x, with_caches (delete a (nt_cache w)) w))) (a, w) = Done w' ∧
    nh_blocks (nt_bufs w') = nh_blocks (nt_bufs w) ∧ nt_packets w' = nt_packets w ∧ nt_dev w' = nt_dev w ∧ nics w' = nics w ∧ nt_nics w' = nt_nics w ∧
    net_ok (L ∖ list_to_set l.*1) w' ∧ ∀ b, nt_cache w' !! b = if bool_decide (b ∈ l.*1) then None else nt_cache w !! b.
Proof.
  revert L w a fuel. induction l as [|[b [ip mac]] l IH]; intros L w a [|fuel] Hok Hc Hn Hf; cbn in Hf; try lia; cbn [loop].
  - cbn in Hc. subst. exists w. split_and!; try done. cbn. by replace (L ∖ ∅) with L by set_solver.
  - destruct Hc as (-> & Hb & nx & Hx & Hc). rewrite (proj2 (Z.eqb_neq _ _) Hb), Hx. cbn [known mbind outcome_bind ac_next].
    cbn [fmap list_fmap fst] in Hn. apply NoDup_cons in Hn as [Hbl Hn]. pose proof Hok as [Ho Hp Hk].
    destruct (Hk b) as (HbL & Hbb & Hbp); [by eexists|]. destruct Ho as [Oh Ob]. destruct (al_free_ok L b _ Oh HbL) as (h & E & Oh').
    assert (Ef : free_struct b w = Done (with_bufs (NH h (nh_blocks (nt_bufs w))) w)) by (unfold free_struct; by rewrite E).
    rewrite Ef. cbn [mbind outcome_bind].
    destruct (IH (L ∖ {[b]}) (with_caches (delete b (nt_cache w)) (with_bufs (NH h (nh_blocks (nt_bufs w))) w)) nx fuel) as (w' & E' & ? & ? & ? & ? & ? & Hok' & Hgone).
    + by apply drop_entry.
    + eapply chain_ext; [|exact Hc]. cbn [nt_cache with_caches]. intros x Hx'. apply lookup_delete_ne. by intros ->.
    + done.
    + lia.
    + exists w'. split_and!; try done.
      * cbn [fmap list_fmap fst list_to_set]. by replace (L ∖ ({[b]} ∪ list_to_set l.*1)) with (L ∖ {[b]} ∖ list_to_set l.*1) by set_solver.
      * intros x. rewrite Hgone. cbn [nt_cache with_caches fmap list_fmap fst]. destruct (decide (x = b)) as [->|Hne].
        { rewrite bool_decide_eq_false_2, lookup_delete_eq, bool_decide_eq_true_2 by set_solver. done. }
        rewrite lookup_delete_ne by done. by rewrite (bool_decide_ext (x ∈ l.*1) (x ∈ b :: l.*1)) by set_solver.
Qed.

Lemma clear_cached L n w M :
  net_ok L w → cached n w M →
  ∃ w', clear_arp_cache n w = Done w' ∧ cached n w' ∅ ∧ same_but_cache n w w' ∧ ∃ L', L' ⊆ L ∧ net_ok L' w'.
Proof.
  intros Hok (c & l & Hc & He & _). pose proof (entries_size _ _ _ He) as Hs. destruct He as [Hch Hn _].
  unfold clear_arp_cache, get_nic_at. rewrite Hc. cbn [known mbind outcome_bind].
  destruct (clear_chain L w (n_cache c) l (cache_fuel w) Hok Hch Hn) as (w1 & E & Eb & Ep & Ed & En & Ec & Hok1 & _); [unfold cache_fuel; lia|].
  rewrite E. cbn [mbind outcome_bind]. unfold upd_nic, get_nic_at. rewrite Ec, Hc. cbn [known mbind outcome_bind]. eexists. split; [reflexivity|]. split_and!.
  - exists (with_cache 0 c), []. split_and!; [apply lookup_insert_eq|split; [done|constructor|constructor]|done].
  - split_and!; try done; cbn [nt_nics with_nics]; [intros n' Hn'; by apply lookup_insert_ne|].
    intros c' Hc'. exists 0. rewrite lookup_insert_eq. congruence.
  - exists (L ∖ list_to_set l.*1). split; [set_solver|]. destruct Hok1. by split.
Qed.
End cache.
