(* ===== verification/NetSpec.v ===== *)
(** * What the network stack does with a frame (src/src/devices/net/netstack.c) *)
From stdpp Require Import gmap.
From S2P Require Import Prelude PageService Alloc Paging Heap KernelHeap CString Net NetBufs NetStack NetPacket NetCache.
#[local] Open Scope Z_scope.

Section spec.
Context {H : Type} `{AllocatorOk H} {D : Type} `{NetEnvOk D} (junk : Z → nat → Z).
Implicit Types (w : net (H := H) (D := D)) (L : gset Z).

(** ** Opening a frame *)
(** [p] is a packet that holds [frame]. *)
Definition holds p x frame w : Prop :=
  nt_packets w !! p = Some x ∧ nh_blocks (nt_bufs w) !! pk_data x = Some frame ∧ Z.of_nat (length frame) = pk_len x.

Definition opened a frame : eth := Eth (take 6 frame) (take 6 (drop 6 frame)) (take 2 (drop 12 frame)) (Z.of_nat (length frame) - 14) a.

Lemma process_packet_opens L w p n x frame :
  net_ok L w → holds p x frame w → 14 < pk_len x < 2 ^ 16 →
  (∃ why, process_packet junk p n w = Panic why) ∨
  ∃ a L' w', more_bufs L L' w w' ∧ a ∈ L' ∧ (a ∉ L) ∧ nh_blocks (nt_bufs w') !! a = Some (drop 14 frame) ∧
    process_packet junk p n w =
      if version_of (type_of (take 2 (drop 12 frame))) =? ETH_II then process_eth junk n x (opened a frame) w' else Done w'.
Proof.
  intros Hok (Hx & Hf & Hlen) Hl. pose proof Hok as [Hb Hp _]. unfold process_packet.
  assert (p ≠ 0) as Hp0. { eapply al_nonnull; [apply Hb|]. apply Hp. by eexists. }
  assert (pk_data x ≠ 0) as Hd0. { eapply al_nonnull; [apply Hb|]. eapply bo_blocks; [done|]. by eexists. }
  rewrite (proj2 (Z.eqb_neq _ _) Hp0). unfold get_packet. rewrite Hx. cbn [known mbind outcome_bind]. rewrite (proj2 (Z.ltb_ge _ _)) by lia.
  destruct (eth_from_packet_ok junk L (nt_bufs w) (pk_data x) 0 (pk_len x) frame Hb Hd0 Hf) as [Hret Hpost]; [done|done|].
  unfold bufs. destruct Hret as [[[r s1] E1]|[why E1]]; rewrite E1; [|left; by exists why]. cbn [mbind outcome_bind].
  destruct (Hpost _ _ E1) as (a & -> & _ & HaL & Hg1 & Eb1).
  assert (HdL : pk_data x ∈ L) by (eapply bo_blocks; [done|by eexists]). assert (Hda : pk_data x ≠ a) by congruence.
  destruct (eth_get_version_ok junk ({[a]} ∪ L) s1 (pk_data x) 0 (pk_len x) frame (gr_ok _ _ _ _ Hg1) Hd0) as [Hret2 Hpost2];
    [by rewrite Eb1, lookup_insert_ne|done|done|]. cbn [nt_bufs with_bufs].
  destruct Hret2 as [[[v s2] E2]|[why E2]]; rewrite E2; [|left; by exists why]. cbn [mbind outcome_bind]. right.
  destruct (Hpost2 _ _ E2) as (-> & b & _ & HbL & Hg2). exists a, ({[b]} ∪ ({[a]} ∪ L)), (with_bufs s2 w).
  split_and!; [split; [by eapply grown_trans|done]|set_solver|done| |].
  - cbn [nt_bufs with_bufs]. rewrite (gr_kept _ _ _ _ Hg2), Eb1, lookup_insert_eq by set_solver. f_equal.
    change (Z.to_nat (0 + 14)) with 14%nat. rewrite over_in by lia. apply take_ge. rewrite length_drop. lia.
  - unfold opened. change (Z.to_nat (0 + 12)) with 12%nat. change (Z.to_nat (0 + 6)) with 6%nat. change (Z.to_nat 0) with 0%nat.
    rewrite !over_in, drop_0 by lia. by rewrite Hlen.
Qed.

(** ** ARP between Ethernet and IPv4 *)
(** From [spa] at [sha] to [tpa] at [tha]. *)
Definition message op sha spa tha tpa pad : list Z := ([0; 1; 8; 0; 6; 4; 0; op] ++ sha ++ spa ++ tha ++ tpa ++ pad)%list.
Definition message_frame op dst src sha spa tha tpa pad : list Z := (dst ++ src ++ [8; 6] ++ message op sha spa tha tpa pad)%list.

Lemma piece_at s a l1 l2 l3 off k :
  nh_blocks s !! a = Some (l1 ++ l2 ++ l3)%list → Z.to_nat off = length l1 → Z.to_nat k = length l2 → at_addr (H := H) junk s (a, off) k = l2.
Proof.
  intros Hc Ho Hk. unfold at_addr. cbn [fst snd]. rewrite Hc. cbn [default from_option id].
  rewrite over_in by (rewrite !length_app; lia). rewrite Ho, Hk, drop_app_length. by rewrite take_app_length.
Qed.

Lemma message_frame_parts op dst src sha spa tha tpa pad :
  length dst = 6%nat → length src = 6%nat →
  take 2 (drop 12 (message_frame op dst src sha spa tha tpa pad)) = [8; 6] ∧
  drop 14 (message_frame op dst src sha spa tha tpa pad) = message op sha spa tha tpa pad.
Proof.
  intros Hdst Hsrc. unfold message_frame. split.
  - rewrite app_assoc, drop_app_length' by (rewrite length_app; lia). done.
  - rewrite !app_assoc, drop_app_length' by (rewrite !length_app; cbn; lia). done.
Qed.

Definition parsed op a : arp := Arp 1 0x0800 6 4 op (a, 8) (a, 14) (a, 18) (a, 24).

Lemma parse_message s op a sha spa tha tpa pad :
  op = ARP_REQUEST ∨ op = ARP_REPLY → nh_blocks s !! a = Some (message op sha spa tha tpa pad) → parse_arp (H := H) junk a s = Done (parsed op a).
Proof.
  intros Hop Hc. unfold message in Hc. unfold parse_arp, rd16, rd8, rd. cbn [Z.leb Z.compare fst snd]. rewrite Hc. by destruct Hop as [-> | ->].
Qed.

Lemma message_pieces s op a sha spa tha tpa pad :
  length sha = 6%nat → length spa = 4%nat → length tha = 6%nat → length tpa = 4%nat →
  nh_blocks s !! a = Some (message op sha spa tha tpa pad) →
  at_addr (H := H) junk s (a, 8) 6 = sha ∧ at_addr (H := H) junk s (a, 14) 4 = spa ∧ at_addr (H := H) junk s (a, 24) 4 = tpa.
Proof.
  intros H1' H2' H3' H4' Hc. unfold message in Hc. split_and!.
  - eapply piece_at; [exact Hc|done|done].
  - rewrite app_assoc in Hc. eapply piece_at; [exact Hc|rewrite length_app; cbn; lia|done].
  - rewrite (app_assoc tha), (app_assoc spa), (app_assoc sha), app_assoc in Hc. rewrite <- !app_assoc in Hc. 
    eapply (piece_at s a ([0; 1; 8; 0; 6; 4; 0; op] ++ sha ++ spa ++ tha)%list); [rewrite <- !app_assoc; exact Hc|rewrite !length_app; cbn; lia|done].
Qed.

(** The frame that answers it: the operation is in network order, the two types before it are
    not, and behind the packet lies what follows its block. *)
Definition reply_frame c sha spa tail : list Z :=
  (sha ++ n_mac c ++ [8; 6] ++ [1; 0; 0; 8; 6; 4; 0; 2] ++ n_mac c ++ n_ip c ++ sha ++ spa ++ tail)%list.

Lemma over_more a k l : (length l ≤ k)%nat → ∃ tail, over junk a 0 k l = (l ++ tail)%list ∧ length tail = (k - length l)%nat.
Proof.
  intros Hk. exists (over junk a (length l) (k - length l) l). split; [|apply over_length].
  unfold over. replace k with (length l + (k - length l))%nat at 1 by lia. rewrite seq_app, fmap_app. f_equal.
  change (over junk a 0 (length l) l = l). rewrite over_in by lia. rewrite drop_0. by apply take_ge.
Qed.

Lemma answer_frame n c a w sha spa tha tpa pad x :
  length sha = 6%nat → length spa = 4%nat → length tha = 6%nat → length tpa = 4%nat → length (n_mac c) = 6%nat → length (n_ip c) = 4%nat →
  nh_blocks (nt_bufs w) !! a = Some (message ARP_REQUEST sha spa tha tpa pad) →
  ∃ tail, length tail = 18%nat ∧ frame_of junk (Eth (at_addr junk (nt_bufs w) (a, 8) 6) (n_mac c) ethertype_arp 46 x) (answer junk n c (parsed ARP_REQUEST a) w) =
    reply_frame c sha spa tail.
Proof.
  intros Hs1 Hs2 Hs3 Hs4 Hm Hi Hc. destruct (message_pieces _ _ _ _ _ _ _ _ Hs1 Hs2 Hs3 Hs4 Hc) as (E1 & E2 & _).
  assert (Hl := answer_length junk n c (parsed ARP_REQUEST a) w ltac:(done) ltac:(done)). change (8 + 2 * (a_hlen (parsed ARP_REQUEST a) + a_plen (parsed ARP_REQUEST a))) with 28 in Hl.
  destruct (over_more x 46 (answer junk n c (parsed ARP_REQUEST a) w)) as (tail & Et & Hn); [lia|]. exists tail. split; [lia|].
  unfold frame_of. cbn [e_data e_datalen e_da e_sa e_kind]. change (Z.to_nat 46) with 46%nat. rewrite Et, E1.
  unfold answer. cbn [parsed a_htype a_ptype a_hlen a_plen a_sha a_spa]. rewrite E1, E2. change (Z.to_nat 6) with 6%nat. change (Z.to_nat 4) with 4%nat.
  unfold nic_area. rewrite !over_in by (rewrite !length_app; lia). rewrite drop_0, take_app_length', drop_app_length', take_app_length' by done.
  unfold reply_frame. rewrite <- !app_assoc. reflexivity.
Qed.

Lemma net_ok_dev L d w : net_ok L w → net_ok L (with_dev d w).
Proof. intros [Hb Hp Hc]. by split. Qed.

(** The request is answered and the copy of the frame released. *)
Lemma process_request L L1 w0 w n x c a sha spa tha pad frame :
  more_bufs L L1 w0 w → net_ok L w0 → a ∈ L1 → a ∉ L → nh_blocks (nt_bufs w) !! a = Some (message ARP_REQUEST sha spa tha (n_ip c) pad) →
  length sha = 6%nat → length spa = 4%nat → length tha = 6%nat → length (n_mac c) = 6%nat → length (n_ip c) = 4%nat →
  nt_nics w0 !! n = Some c → n_tx c = 0 → take 2 (drop 12 frame) = [8; 6] →
  returns_or_panics (process_eth junk n x (opened a frame) w) ∧
  ∀ w', process_eth junk n x (opened a frame) w = Done w' →
    ∃ L' s d tail, length tail = 18%nat ∧ ne_write (n_device c) 60 (reply_frame c sha spa tail) (nt_dev w0) = Done d ∧
      w' = with_dev d (with_bufs s w0) ∧ grown L L' (nt_bufs w0) s.
Proof.
  intros Hm Hok Ha HaL Hc Hs1 Hs2 Hs3 Hmac Hip Hn Htx Hty. pose proof (more_ok junk _ _ _ _ Hok Hm) as Hok1. pose proof Hm as [Hg Ew].
  destruct (message_pieces _ _ _ _ _ _ _ _ Hs1 Hs2 Hs3 Hip Hc) as (_ & _ & E3).
  unfold process_eth, opened, process_arp, eth_get_data. rewrite eth_get_type_ok by (cbn [e_kind]; by rewrite Hty).
  cbn [e_kind e_data e_datalen mbind outcome_bind]. rewrite Hty. change (type_of [8; 6] =? ETHERT_ARP) with true. cbv iota.
  rewrite (parse_message _ _ _ _ _ _ _ _ (or_introl eq_refl) Hc). cbn [mbind outcome_bind]. unfold get_nic_at.
  replace (nt_nics w !! n) with (Some c) by (rewrite Ew; done). cbn [known mbind outcome_bind parsed a_tpa a_oper].
  rewrite (rd_at junk (a, 24) 4 (nt_bufs w)), E3 by (done || (cbn [fst]; by rewrite Hc)). cbn [mbind outcome_bind]. change (ARP_REQUEST =? ARP_REQUEST) with true. cbv iota.
  rewrite bool_decide_eq_true_2 by done. change (Arp 1 2048 6 4 ARP_REQUEST (a, 8) (a, 14) (a, 18) (a, 24)) with (parsed ARP_REQUEST a).
  destruct (arp_reply_ok junk L1 n c (parsed ARP_REQUEST a) w Hok1) as [Hret Hpost]; [split_and!; try done; cbn; by rewrite Hc|rewrite Ew; done|done|done|].
  run Hret as b w2 E2. destruct (Hpost _ _ E2) as (-> & L2 & s2 & d & y & Ed & -> & Hg2). cbn [negb].
  assert (Hg2' : grown L L2 (nt_bufs w0) s2) by (eapply grown_trans; done).
  destruct (release_ok junk _ _ _ _ a Hg2') as (s3 & E4 & Hg3 & _); [by apply (gr_sub _ _ _ _ Hg2)|done|].
  assert (a ≠ 0) as Ha0 by (eapply al_nonnull; [apply (gr_ok _ _ _ _ Hg)|done]).
  unfold bufs_, eth_destroy. cbn [e_data nt_bufs with_dev with_bufs]. rewrite (proj2 (Z.eqb_neq _ _) Ha0). cbn [negb]. rewrite E4. cbn [mbind outcome_bind].
  split; [apply rop_done|]. intros w' [= <-]. change (clamp _) with 46 in Ed. change (a_sha (parsed ARP_REQUEST a)) with (a, 8) in Ed.
  destruct (answer_frame n c a w sha spa tha (n_ip c) pad y) as (tail & Ht & Ef); try done. rewrite Ef in Ed. rewrite Ew in Ed.
  exists (L2 ∖ {[a]}), s3, d, tail. split_and!; [done|exact Ed|by rewrite Ew|done].
Qed.

(** C7: An interface that receives a request for its own address answers it.  For every such
    frame in a packet of an interface with nothing queued for sending, and every heap, processing
    the packet either panics or writes exactly one frame of sixty bytes to the device: addressed
    to the sender, with the addresses of the interface and then those of the sender, the two
    types before the operation in host order and eighteen bytes that follow the packet in
    memory.  The interface, the queues, the ARP cache and all blocks in use before are as they
    were. *)
Theorem arp_request_answered L w p n x c dst src sha spa tha pad :
  net_ok L w → nt_nics w !! n = Some c → n_tx c = 0 → length (n_mac c) = 6%nat → length (n_ip c) = 4%nat →
  length dst = 6%nat → length src = 6%nat → length sha = 6%nat → length spa = 4%nat → length tha = 6%nat → (length pad ≤ 1458)%nat →
  holds p x (message_frame ARP_REQUEST dst src sha spa tha (n_ip c) pad) w →
  returns_or_panics (process_packet junk p n w) ∧
  ∀ w', process_packet junk p n w = Done w' →
    ∃ L' s d tail, length tail = 18%nat ∧ ne_write (n_device c) 60 (reply_frame c sha spa tail) (nt_dev w) = Done d ∧
      w' = with_dev d (with_bufs s w) ∧ net_ok L' w' ∧ L ⊆ L' ∧ ∀ a, a ∈ L → nh_blocks s !! a = nh_blocks (nt_bufs w) !! a.
Proof.
  intros Hok Hc Htx Hmac Hip Hdst Hsrc Hs1 Hs2 Hs3 Hpad Hh. pose proof Hh as (_ & _ & Hlen).
  unfold message_frame, message in Hlen. rewrite !length_app in Hlen. cbn [length] in Hlen.
  destruct (process_packet_opens L w p n x _ Hok Hh) as [[why E]|(a & L1 & w1 & Hm & Ha & HaL & Hb & E)]; [lia| |]; rewrite E; [split; [apply rop_panic|done]|].
  destruct (message_frame_parts ARP_REQUEST dst src sha spa tha (n_ip c) pad Hdst Hsrc) as [Hty Hb'].
  rewrite Hb' in Hb. destruct (process_request L L1 w w1 n x c a sha spa tha pad _ Hm Hok Ha HaL Hb Hs1 Hs2 Hs3 Hmac Hip Hc Htx Hty) as [Hret Hpost].
  rewrite Hty. change (version_of (type_of [8; 6]) =? ETH_II) with true. cbv iota. split; [done|]. intros w' Ew.
  destruct (Hpost w' Ew) as (L' & s & d & tail & Ht & Ed & -> & Hg). exists L', s, d, tail. split_and!; try done.
  - apply net_ok_dev. eapply (more_ok junk); [exact Hok|]. by split.
  - apply (gr_sub _ _ _ _ Hg).
  - apply (gr_kept _ _ _ _ Hg).
Qed.
(** ** A reply *)
Lemma net_ok_release L w a :
  net_ok L w → is_Some (nh_blocks (nt_bufs w) !! a) →
  ∃ s, bufs_ (release a) w = Done (with_bufs s w) ∧ net_ok (L ∖ {[a]}) (with_bufs s w) ∧ ∀ b, b ≠ a → nh_blocks s !! b = nh_blocks (nt_bufs w) !! b.
Proof.
  intros [[Oh Ob] Hp Hk] Ha. destruct (al_free_ok L a _ Oh (Ob a Ha)) as (h & E & Oh'). unfold bufs_, release. rewrite E. cbn [mbind outcome_bind].
  eexists. split; [reflexivity|]. split; [|intros b Hb; by apply lookup_delete_ne].
  assert (Hne : ∀ x, nh_blocks (nt_bufs w) !! x = None → x ≠ a) by (intros x Hx ->; rewrite Hx in Ha; by destruct Ha).
  split; [split|..]; cbn [nt_bufs nt_packets nt_cache nh_heap nh_blocks with_bufs]; [done|..].
  - intros x [y [Hxa Hy]%lookup_delete_Some]. assert (x ∈ L) by (apply Ob; by eexists). set_solver.
  - intros x Hx. destruct (Hp x Hx) as [? Hn]. specialize (Hne x Hn). split; [set_solver|]. by rewrite lookup_delete_ne.
  - intros x Hx. destruct (Hk x Hx) as (? & Hn & ?). specialize (Hne x Hn). split_and!; [set_solver| |done]. by rewrite lookup_delete_ne.
Qed.

(** What the processing of a reply does: the cache, and copies of the frame that stay behind. *)
Definition learns L n sha spa M w w' : Prop :=
  cached n w' (<[spa := sha]> M) ∧ (∃ L', L ⊆ L' ∧ net_ok L' w') ∧ nt_dev w' = nt_dev w ∧ nt_packets w' = nt_packets w ∧
  (∀ b, b ∈ L → nh_blocks (nt_bufs w') !! b = nh_blocks (nt_bufs w) !! b) ∧
  ∀ c, nt_nics w !! n = Some c → ∃ a, nt_nics w' !! n = Some (with_cache a c).

Lemma process_reply L L1 w0 w n x c a sha spa tha pad frame M :
  more_bufs L L1 w0 w → net_ok L w0 → a ∈ L1 → a ∉ L → nh_blocks (nt_bufs w) !! a = Some (message ARP_REPLY sha spa tha (n_ip c) pad) →
  length sha = 6%nat → length spa = 4%nat → length tha = 6%nat → length (n_ip c) = 4%nat →
  nt_nics w0 !! n = Some c → cached n w0 M → take 2 (drop 12 frame) = [8; 6] →
  returns_or_panics (process_eth junk n x (opened a frame) w) ∧
  ∀ w', process_eth junk n x (opened a frame) w = Done w' → learns L n sha spa M w0 w'.
Proof.
  intros Hm Hok Ha HaL Hc Hs1 Hs2 Hs3 Hip Hn HM Hty. pose proof (more_ok junk _ _ _ _ Hok Hm) as Hok1. pose proof Hm as [Hg Ew].
  destruct (message_pieces _ _ _ _ _ _ _ _ Hs1 Hs2 Hs3 Hip Hc) as (E1 & E2 & E3). assert (Hs : is_Some (nh_blocks (nt_bufs w) !! a)) by (by rewrite Hc).
  unfold process_eth, opened, process_arp, eth_get_data. rewrite eth_get_type_ok by (cbn [e_kind]; by rewrite Hty).
  cbn [e_kind e_data e_datalen mbind outcome_bind]. rewrite Hty. change (type_of [8; 6] =? ETHERT_ARP) with true. cbv iota.
  rewrite (parse_message _ _ _ _ _ _ _ _ (or_intror eq_refl) Hc). cbn [mbind outcome_bind]. unfold get_nic_at.
  replace (nt_nics w !! n) with (Some c) by (rewrite Ew; done). cbn [known mbind outcome_bind parsed a_tpa a_oper a_spa a_sha].
  rewrite (rd_at junk (a, 24) 4 (nt_bufs w)), E3 by done. cbn [mbind outcome_bind].
  change (ARP_REPLY =? ARP_REQUEST) with false. change (ARP_REPLY =? ARP_REPLY) with true. cbv iota. rewrite bool_decide_eq_true_2 by done.
  rewrite (rd_at junk (a, 14) 4 (nt_bufs w)), E2, (rd_at junk (a, 8) 6 (nt_bufs w)), E1 by done. cbn [mbind outcome_bind].
  assert (HM1 : cached n w M) by (rewrite Ew; exact HM).
  destruct (add_cached junk L1 n w M spa sha Hok1 HM1 Hs2 Hs1) as [[[w2 E]|[why E]] Hpost]; rewrite E; cbn [mbind outcome_bind negb]; [|split; [apply rop_panic|done]].
  destruct (Hpost w2 E) as (HM2 & (Eb & Ep & Ed & _ & _ & Hcn) & L2 & HL2 & Hok2).
  assert (Hs2' : is_Some (nh_blocks (nt_bufs w2) !! a)) by (by rewrite Eb). destruct (net_ok_release L2 w2 a Hok2 Hs2') as (s3 & E4 & Hok3 & K3).
  assert (a ≠ 0) as Ha0 by (eapply al_nonnull; [apply Hok1|done]).
  change (bufs_ (eth_destroy _) w2) with (bufs_ (λ s, if negb (a =? 0) then release a s else Done s) w2). unfold bufs_ in *.
  rewrite (proj2 (Z.eqb_neq _ _) Ha0). cbn [negb]. rewrite E4. split; [apply rop_done|]. intros w' [= <-]. pose proof (gr_sub _ _ _ _ Hg) as HL1.
  split_and!; [exact HM2| |cbn [nt_dev with_bufs]; rewrite Ed, Ew; done|cbn [nt_packets with_bufs]; rewrite Ep, Ew; done| |].
  - exists (L2 ∖ {[a]}). split; [set_solver|done].
  - intros b Hb. cbn [nt_bufs with_bufs]. rewrite K3, Eb by (intros ->; done). by apply (gr_kept _ _ _ _ Hg).
  - intros c' Hc'. apply Hcn. rewrite Ew. exact Hc'.
Qed.

End spec.

(** ** An interface on the kernel heap, with a device that records what is written to it *)
#[local] Instance recorder : NetEnv (list (list Z * Z * list Z)) :=
  {| ne_write name n l d := Done ((name, n, l) :: d); ne_ioctl _ _ l d := Done (0, l, d); ne_kwakeup d := Done d |}.
#[local] Instance recorder_ok : NetEnvOk (list (list Z * Z * list Z)).
Proof. split; by eexists. Qed.
#[local] Existing Instance kmalloc_allocator.
#[local] Existing Instance kmalloc_allocator_ok.

Definition taken (size : Z) (k : kernel (P := mmu)) : Z * kernel (P := mmu) :=
  match al_malloc size k with Done r => r | _ => (0, k) end.
Lemma taken_ok L size k : al_ok L k → 0 < size < 2 ^ 32 → is_done (al_malloc size k) = true →
  ((taken size k).1 ∉ L) ∧ al_ok ({[(taken size k).1]} ∪ L) (taken size k).2.
Proof.
  intros Hk Hs Hd. destruct (al_malloc_ok L size k Hk Hs) as [_ Hpost]. unfold taken.
  destruct (al_malloc size k) as [[r k']| | | |]; try discriminate Hd. by apply Hpost.
Qed.

Definition heap_a := taken 60 kernel1.
Definition heap_b := taken 32 heap_a.2.
Definition eth0 : nic :=
  Nic [101; 116; 104; 48] [110; 101; 48] [2; 0; 0; 0; 0; 1] [10; 0; 2; 15] [255; 255; 255; 0] [10; 0; 2; 2] [0; 0; 0; 0] 0 0 1 0 1 0 heap_b.1 0.
Definition received (frame : list Z) : net (H := kernel (P := mmu)) (D := list (list Z * Z * list Z)) :=
  Net (NH heap_b.2 {[heap_a.1 := frame]}) {[heap_b.1 := Packet 60 heap_a.1 0 0]} ∅ [0x9000] {[0x9000 := eth0]} [].

Lemma received_ok frame : net_ok ({[heap_b.1]} ∪ ({[heap_a.1]} ∪ ∅)) (received frame).
Proof.
  destruct (taken_ok ∅ 60 kernel1 kernel1_alloc) as [_ Oa]; [done|by vm_compute|].
  destruct (taken_ok _ 32 heap_a.2 Oa) as [Nb Ob]; [done|by vm_compute|]. split.
  - split; [exact Ob|]. cbn [received nt_bufs nh_blocks]. intros a [y [<- _]%lookup_singleton_Some]. set_solver.
  - cbn [received nt_bufs nt_packets nh_blocks]. intros p [y [<- _]%lookup_singleton_Some]. split; [set_solver|].
    apply lookup_singleton_None. intros E. apply Nb. unfold heap_b in E. rewrite <- E. set_solver.
  - cbn [received nt_cache]. intros p [y Hy]. by rewrite lookup_empty in Hy.
Qed.

Definition who_has : list Z :=
  message_frame ARP_REQUEST [255; 255; 255; 255; 255; 255] [2; 0; 0; 0; 0; 2] [2; 0; 0; 0; 0; 2] [10; 0; 2; 2] [0; 0; 0; 0; 0; 0] [10; 0; 2; 15] (replicate 18 0).

Lemma arp_request_answered_witness :
  ∃ w' l, process_packet (λ _ _, 0) heap_b.1 0x9000 (received who_has) = Done w' ∧ nt_dev w' = [([110; 101; 48], 60, l)] ∧
    take 42 l = [2; 0; 0; 0; 0; 2; 2; 0; 0; 0; 0; 1; 8; 6; 1; 0; 0; 8; 6; 4; 0; 2; 2; 0; 0; 0; 0; 1; 10; 0; 2; 15; 2; 0; 0; 0; 0; 2; 10; 0; 2; 2].
Proof.
  destruct (arp_request_answered (λ _ _, 0) _ (received who_has) heap_b.1 0x9000 (Packet 60 heap_a.1 0 0) eth0 [255; 255; 255; 255; 255; 255]
    [2; 0; 0; 0; 0; 2] [2; 0; 0; 0; 0; 2] [10; 0; 2; 2] [0; 0; 0; 0; 0; 0] (replicate 18 0) (received_ok who_has)) as [_ Hpost];
    [reflexivity..|cbn; lia| |].
  { split; [apply lookup_singleton_eq|]. split; [apply lookup_singleton_eq|reflexivity]. }
  destruct (is_done_returns (process_packet (λ _ _, 0) heap_b.1 0x9000 (received who_has))) as [w' E]; [by vm_compute|].
  destruct (Hpost w' E) as (L' & s & d & tail & _ & Ed & Ew & _). cbn [ne_write recorder] in Ed. injection Ed as Ed.
  exists w', (reply_frame eth0 [2; 0; 0; 0; 0; 2] [10; 0; 2; 2] tail). split; [exact E|]. split; [|reflexivity].
  rewrite Ew. symmetry. exact Ed.
Defined.

Definition is_at : list Z :=
  message_frame ARP_REPLY [2; 0; 0; 0; 0; 1] [2; 0; 0; 0; 0; 2] [2; 0; 0; 0; 0; 2] [10; 0; 2; 2] [2; 0; 0; 0; 0; 1] [10; 0; 2; 15] (replicate 18 0).

